(* ===== verification/_CoqProject ===== *)
-Q . S2P
Prelude.v
RustStr.v
StdIo.v
Utf8.v
Offer.v
Records.v
Clipboard.v
Names.v
Identity.v
Protocol.v
OfferStore.v
Ledger.v
Activation.v
Filesystem.v
Announce.v
Connection.v
Manifest.v
Transfer.v
Source.v
Sender.v
SenderStream.v
Receiver.v
ReceiverFrame.v
ReceiverContent.v
Exchange.v
ReceiverSafety.v
ReceiverResidue.v
ReceiverTree.v
ReceiverSave.v
SavedTree.v
Fetching.v
Delivery.v
ReceiverEffect.v
ReceiverSamples.v
ExchangeSamples.v
Discovery.v
Registry.v
Transactions.v
Coordinator.v
Controller.v
ControlSamples.v
LocalChannel.v
Serving.v
Programs.v
Desktop.v
DesktopSamples.v
Indicators.v
Board.v
Shelf.v
Terminal.v
Startup.v
Window.v
Commands.v
TerminalSamples.v
