(* ===== verification/Prelude.v ===== *)
(** * meshelf: a verification library

    meshelf offers text, files and folders to the other devices of one tailnet.  A device
    announces an offer to a peer, which keeps a card of it; when the user activates a card,
    its device fetches the content from the source, byte by byte verified, and puts it on the
    clipboard or in a folder.  The library models the Rust crates that decide what is offered,
    stored, announced, accepted and fetched, and proves the properties those decisions must
    have.  All source paths below are relative to [src/].

    ** Parts, files and sources

    - [Prelude] (this file): Rust's [Result], the state-and-error monad [St] in which every
      stateful operation is written, machine integers with checked, saturating and wrapping
      arithmetic, and the tactics [inv_res], [inv_st] and [keeps_tac] that take runs apart and
      carry invariants through them, error paths included.
    - [RustStr], [StdIo], [Utf8]: the standard-library behaviour the crates use: strings as
      code points with UTF-8 lengths and character boundaries, byte readers and writers, I/O
      errors, the [Json] interface that stands for serde_json, and UTF-8 itself.
    - [Offer]: descriptors, previews, sources and their bounds ([crates/meshelf-core/src]
      [offer.rs], [model.rs]).
    - [Records]: store records, activation journal, settings ([store.rs], [activation.rs],
      [settings.rs], [receiver.rs] of the same crate).
    - [Clipboard]: the clipboard worker and the handles that submit to it
      ([crates/meshelf-platform/src/clipboard.rs]).
    - [Names]: the portable-name rule, its three copies and collision naming ([destination.rs]
      of [meshelf-core] and [meshelf-net], [fetch_sender.rs], [offer_source.rs] of
      [meshelf-control]).
    - [Identity]: signing, verification and the stored key ([crates/meshelf-identity]).
    - [Protocol]: messages, validation, framing, manifest chunking and signed hellos
      ([crates/meshelf-protocol/src] [lib.rs], [v2.rs]).
    - [OfferStore]: the redb tables and every operation on them ([crates/meshelf-store/src]
      [v2.rs]).
    - [Ledger]: the per-filesystem reservation ledger ([fetch_receiver.rs] of [meshelf-net]).
    - [Activation]: outcomes, startup recovery and the activation service ([activation.rs] and
      the cleanup half of [fetch_receiver.rs]).
    - [Announce]: trust gates and the announcement handler ([crates/meshelf-net/src/lib.rs]).
    - [Connection]: client operations, connection handler, accept loop, listener addresses
      (the same file).
    - [Filesystem]: a disk with directories, files, symbolic and hard links, calls that may
      fail, and over it the primitives of [crates/meshelf-platform/src/filesystem.rs] and the
      legacy removals of [v2.rs]; the frame lemmas of every primitive.
    - [Manifest]: what the receiver accepts: header, manifest, receive plan
      ([fetch_receiver.rs] of [meshelf-net]).
    - [Transfer]: the reads of the receiver under a timeout, raced against the cancellation
      signal, and the failures they are classified into (the same file).
    - [Source]: how an origin looks at what it offers, once when the offer is prepared
      ([offer_source.rs] of [meshelf-control]) and again for every fetch ([build_source_plan]
      of [fetch_sender.rs] of [meshelf-net]).
    - [Sender]: [handle_fetch] and everything it calls ([fetch_sender.rs]); [SenderStream]:
      the bytes a run of it has written.
    - [Receiver]: [receive_one] and everything it calls, to the drop of the staging guard (the
      same file, and [destination.rs] of [meshelf-net] for publication).
    - [ReceiverFrame], [ReceiverSafety], [ReceiverResidue], [ReceiverEffect]: what each phase
      of the receiver leaves alone, what a save does to the disk, what a fetch leaves behind,
      and when it calls the clipboard; [ReceiverSamples]: complete fetches on concrete
      instances of every interface.
    - [ReceiverTree], [ReceiverSave], [SavedTree]: the tree a staging lays down, what the
      publication moves, and what a save that reports success has done.
    - [ReceiverContent]: what an accepted payload was on the stream and is on the disk;
      [Exchange]: a sender and a receiver together; [Delivery]: both ends as whole programs,
      from the origin's files to the user's directory; [ExchangeSamples]: a folder and a text,
      offered, sent, received and saved.
    - [Fetching]: the client's fetch with the receiver behind it, inside the activation
      service ([fetch_v2_with_cancel] and [activate] of [meshelf-net]).
    - [Discovery], [Registry], [Transactions]: the status of tailscale, the accepted peers
      with the state file, and the processes that share it ([crates/meshelf-tailscale/src]
      [lib.rs]).
    - [Coordinator]: the resident coordinator and the local control channel ([coordinator.rs]
      and [local_control.rs] of [crates/meshelf-control/src]); [Controller]: announcement
      fan-out, probing, pairing and the view ([lib.rs] of the same crate); [ControlSamples]:
      concrete runs of both.
    - [LocalChannel]: the loopback channel between a resident and its clients, and the
      activation file that names it ([crates/meshelf-platform/src/activation.rs]).
    - [Serving]: the server of a resident, with what its trust gate promises
      ([start_v2_listener] of both programs).
    - [Programs]: the process, the input and the run of an activation, which both programs
      share, and what a save means that the channel reports as completed
      ([apps/desktop/src/main.rs], [apps/meshelfctl/src/main.rs], [folder_dialog.rs] of
      [meshelf-platform]).
    - [Desktop]: the trust gate and the runtime of the desktop program
      ([apps/desktop/src/main.rs]); [DesktopSamples]: a save through it.
    - [Indicators], [Board], [Shelf]: the peers in its window, its callbacks with the gates
      and threads behind them, and the rows of the shelf (the same file).
    - [Terminal]: the trust gate and the runtime of [meshelfctl serve], and the commands
      [send], [announce], [shelf] and [activate] ([apps/meshelfctl/src/main.rs]);
      [Commands]: [status], [clipboard-read] and the choice of the command (the same file).
    - [Startup]: what both programs do before they serve (their two files, [RedbV2Store::open]);
      [Window]: the refresh of the desktop with its listener, the destination, and adding
      what is on the clipboard.  [TerminalSamples]: a save with the command, a connection to
      the listener, and a start.

    ** How they interact

    [Connection] reads and writes the frames of [Protocol], signs and verifies hellos with
    [Identity] and asks a gate of [Announce].  An announcement goes to the handler of
    [Announce], which sees its store through the class [OfferCardStore]; the handler is
    verified against the laws [OfferCardStoreSpec], and the operations of [OfferStore] are the
    instance that discharges them.  An activation passes through the owner of [Activation],
    which recovers the store with the startup cleanup of [OfferStore], and reserves space in
    [Ledger].  A
    fetch runs on the same process state: [Receiver] reads frames of [Protocol] through
    [Transfer], admits with [Manifest], [Names] and [Ledger], journals every phase in
    [OfferStore] before the phase starts, and stages, publishes and cleans up with
    [Filesystem], whose disk is also the instance [disk_staging] and [disk_cache] of the
    filesystem classes of [OfferStore] and [Activation].  At the other end [Sender] sees its
    store through the class [OfferSourceStore], verified against the laws
    [OfferSourceStoreSpec] that [OfferStore] discharges, plans with [Source] and [Protocol],
    and writes the stream that [Receiver] reads.
    [Coordinator] loads the accepted peers from [Registry], prepares with [Source], stores
    through [OfferSourceStore] (with the law [OfferSourceInsertSpec], which [OfferStore]
    discharges) and makes one announcement for each peer; [Controller] sends these through
    [Connection], and adds to [Registry] the devices that answer its probes with a signed
    hello.  [Transactions] runs the operations of [Registry] in many processes at once.
    [Fetching] puts [Receiver] behind the hello exchange of [Connection] and the admission of
    [Activation].  A program is the sum of these: the bytes of a request come through
    [LocalChannel] to the dispatch of [Coordinator], whose activations run on the runtime of
    the program; [completed_save_is_saved] is proved against the class [SavingRuntime], which
    the runtimes of [Desktop] and of [Terminal] discharge, and
    [only_accepted_peers_are_served] against the class [PairedGate], which their two gates
    discharge.  [activate_save_succeeds] joins the client end of the channel to a resident
    with any such runtime.  [Startup] is where such a resident comes from: the hypotheses of
    these theorems about the process hold of what a start leaves.
    Third-party code is always an interface with its documented behaviour as laws: [Json] with
    [JsonLaws] (serde_json round trips) and [V2Typed] (integers have the width of their field),
    [Ed25519] with [Ed25519Laws], [RedbIter] (iteration
    order), [UuidText], [ReadDirOrder], [HashSetOrder], [UnstableSort], [Renamore], [Fs2] and
    [AtomicWriteFile] (the renamore, fs2 and atomic-write-file crates), [StagingFs] and [CacheFs] (filesystem calls, which may fail
    in every way).  Each theorem that assumes laws has a witness in which all interfaces are
    concrete functions.

    ** How behaviour is modelled

    An operation is a function from a state to a result and a state; the state reached before
    an error is kept.  A redb call, a network read or write, and a filesystem call fail when a
    schedule of faults in the state says so, so a theorem about a run covers every failure at
    every point.  A write transaction works on its own view and is published by its commit.
    Code that several threads or tasks run at once is a transition system whose steps are the
    sections under a lock or between two awaits ([ledger_step], [service_step],
    [store_step], [shared_step], [worker_step], [board_event], the events of [serve_inner]); tasks that share nothing are
    joined in any order ([JoinOrder]).  Panics are [None] or [Panicked].
    The files of an offer belong to the user, whose programs change them at any time: every
    call of the sender on them sees a [SourceView] of its own ([Views]), and two views are
    related only where a theorem says so.
    In the receiver an operation stops with an error, with a panic, or because its future is
    dropped at an await ([Stop]); the state of a run is what is left after the locals were
    dropped, on every way out.

    ** What the theorems show

    - Store ([OfferStore]): the database stays well formed under every sequence of operations
      and failures; insertions, refusals and clipboard promotion do exactly what they promise,
      and a card is refused only for one of the stated reasons; startup cleanup never loses the
      record of an uncertain clipboard effect, and leaves nothing else.
    - Activation ([Activation], [Ledger]): recovery runs once and before any activation, at
      most two activations run, never twice the same; reserved space is exactly that of the
      live permits and never exceeds what is free; results are classified faithfully.
    - Connections ([Connection], [Announce]): nothing but a hello is sent to a peer before it
      is authenticated; nothing is run for a client that is not; the two ends of an
      announcement understand each other; every announcement has exactly the effect its
      answer reports.
    - Wire format ([Protocol]): frames round-trip and are bounded; manifest chunking keeps the
      entries, in order, within all limits, and succeeds whenever it can.
    - Domain rules ([Names], [Offer]): accepted names and paths stay inside their directory on
      every platform; descriptors, previews and collision names are what they should be.
    - Filesystem ([Filesystem]): whatever fails, the recursive removal stays inside its tree and
      stops at symbolic links; on a tree without links it refines the deletion of the tree in
      one step, and ends.
    - Receiver ([Manifest], [Receiver] and the files of its proofs): a manifest is accepted
      exactly if it describes the announced tree, and then its files never collide; a save
      never touches what was on the disk before and publishes under at most one name, however
      it ends, and one that reports success has put exactly
      the tree of the manifest, with the bytes of the connection, under a name that was free
      ([ReceiverTree], [ReceiverSave], [SavedTree]); whatever ends a fetch, nothing of it is
      left behind unnoticed; the clipboard is called at most once, and only when the journal says so.
    - Sender ([Source], [Sender]): the source is read only for the device it was announced to,
      and every permit is given back; an unchanged source is planned as it was prepared; the
      walks end; the receiver accepts the manifests the sender makes, but for those that are
      empty or collide when case is ignored.
    - Both ends ([SenderStream], [ReceiverContent], [Exchange]): what a receiver accepts is
      what it stores; a text arrives as it was sent; files arrive exactly as they were read
      from an unchanged source, or are not accepted, whatever the network and the disk do; what
      a save reports as saved is the tree the sender built from its source, under a free name
      of the directory the user asked for ([Delivery]).
    - Peers ([Discovery], [Registry], [Transactions], [Controller]): the registry is a finite
      map from tailnet nodes; updates of the state file by many processes take effect one
      after the other, and none of them loses a peer; only devices that signed their hello are
      added; a report accounts for every announcement.
    - Resident process ([Coordinator]): an offer is stored before it is announced, and
      whoever it is announced to may fetch it; an activation is reported as completed only if
      it was; requests round-trip within the bound of the channel.
    - Clipboard ([Clipboard]): in every interleaving each call is served at most once, is
      answered with what happened, and is answered at all.
    - Programs ([LocalChannel], [Fetching], [Programs], [Desktop], [Terminal]): a client of
      the control channel finds the resident and gets the answer to its own request; a save
      that the channel reports as completed, and so one for which [meshelfctl activate]
      succeeds, is the tree of a card of the shelf, in the directory of the settings, from a
      peer that proved to be its source.
    - Start ([Startup]): a start that succeeds leaves a process that has recovered, over a
      well-formed store and disk, whatever it found; its listener is where tailscale says that
      the device is, and its clients find the control channel ([serve_starts_ready],
      [desktop_starts_ready]).
    - Listeners ([Serving]): the shelf and the offers are open to the accepted peers of the
      state file alone, each under its own name.
    - Window ([Window], [Indicators], [Board], [Shelf]): the listener follows the address of
      the device; a new destination holds for later saves; adding the clipboard adds all of
      it or reports why not; names are hidden only when they do not fit; at
      most two activations run behind the buttons, never two of one offer, and one more for the
      control channel; a button does what its row says, as long as no two devices use one
      offer id.
    - Theorems that show defects of the code as it is: [dropped_slots_never_return],
      [excess_failure_stops_listener], [safe_detail_panics], [prepare_rule_weaker],
      [sent_manifest_accepted], [oversized_state_locks_out], [control_exchange],
      [panic_ends_the_listener], [panicked_offer_stays], [reannounced_offer_is_captured] and
      [status_ignores_selector].

    ** Bounds and fuel

    Most loops of the modelled code follow a list.  [remove_owned_directory] takes fuel for
    its depth; [remove_fuel], one more than the nodes of the disk, is enough
    ([remove_owned_tree_live]).  [receive_bytes] and [read_chunks] take the bytes and the
    entries that remain, of which each turn takes at least one; [publish_loop] tries the 9,999
    names of the source; [stream_bytes] and [chunks] take the bytes that remain; [walk_folder]
    descends at most once per byte of a relative path ([walk_folder_fuel],
    [walk_folder_terminates]) and [walk_directory] once per entry ([walk_directory_fuel],
    [walk_directory_terminates]); [wait_child] looks at the status command every ten
    milliseconds until its deadline ([wait_fuel], [cli_refresh_ends]); [MAX_LINKS] is the 40
    of Linux.  The constants are those of the
    source.  [usize] has 64 bits.

    ** What is not modelled

    A sender's
    future that is dropped, and host paths that are not Unicode, are not modelled.  Of the
    filesystem primitives the Windows branches, the free-space queries and the permissions; of
    the search for tailscale the Windows branches.  The command's reader threads are the bytes
    they deliver.  The writes of [tokio::fs::File], whose errors may be reported by a later write or
    by the flush, report them at once.  Other processes do not change the disk during a
    call.  The handles of one process share the open database file; what opening and locking
    come to are arguments.  Of the programs, what they draw, raising the window, the tray
    icon, the environment variables that name the device, log lines, and the dialog that
    chooses a folder.  The Android bridge and the simulator are glue around the modelled
    parts. *)

From stdpp Require Export base gmap sets list sorting strings pretty fin_maps.
From Stdlib Require Export ZArith Lia.

#[global] Open Scope Z_scope.

(** ** Results: Rust's [Result<T, E>] *)

Inductive result (E T : Type) : Type :=
| Ok (value : T)
| Err (error : E).
Arguments Ok {E T} _.
Arguments Err {E T} _.

#[global] Instance result_ret (E : Type) : MRet (result E) := λ T x, Ok x.
#[global] Instance result_bind (E : Type) : MBind (result E) := λ T U f r,
  match r with Ok x => f x | Err e => Err e end.
#[global] Instance result_fmap (E : Type) : FMap (result E) := λ T U f r,
  match r with Ok x => Ok (f x) | Err e => Err e end.

#[global] Instance result_eq_dec `{EqDecision E, EqDecision T} :
  EqDecision (result E T).
Proof. solve_decision. Defined.

Definition is_ok {E T} (r : result E T) : bool :=
  match r with Ok _ => true | Err _ => false end.

Definition result_ok {E T} (r : result E T) : option T :=
  match r with Ok x => Some x | Err _ => None end.

(** [Result::map_err], [Option::ok_or] and the early return
    [if refuse { return Err(e) }]. *)
Definition map_err {E E' T} (f : E → E') (r : result E T) : result E' T :=
  match r with Ok x => Ok x | Err e => Err (f e) end.

Definition ok_or {E T} (o : option T) (e : E) : result E T :=
  match o with Some x => Ok x | None => Err e end.

Definition refuse_if {E} (refuse : bool) (e : E) : result E () :=
  if refuse then Err e else Ok ().

Section result_lemmas.
Context {E : Type}.

Lemma bind_Ok {T U} (r : result E T) (f : T → result E U) u :
  r ≫= f = Ok u ↔ ∃ x, r = Ok x ∧ f x = Ok u.
Proof. destruct r; simpl; naive_solver. Qed.

Lemma bind_Err {T U} (r : result E T) (f : T → result E U) e :
  r ≫= f = Err e ↔ r = Err e ∨ ∃ x, r = Ok x ∧ f x = Err e.
Proof. destruct r; simpl; naive_solver. Qed.

Lemma fmap_Ok {T U} (r : result E T) (f : T → U) u :
  f <$> r = Ok u ↔ ∃ x, r = Ok x ∧ u = f x.
Proof. destruct r; simpl; naive_solver. Qed.

Lemma map_err_Ok {E' T} (g : E → E') (r : result E T) x :
  map_err g r = Ok x ↔ r = Ok x.
Proof. destruct r; simpl; naive_solver. Qed.

Lemma map_err_Err {E' T} (g : E → E') (r : result E T) e' :
  map_err g r = Err e' ↔ ∃ e, r = Err e ∧ e' = g e.
Proof. destruct r; simpl; naive_solver. Qed.

Lemma ok_or_Ok {T} (o : option T) (e : E) x : ok_or o e = Ok x ↔ o = Some x.
Proof. destruct o; simpl; naive_solver. Qed.

Lemma refuse_if_Ok b (e : E) u : refuse_if b e = Ok u ↔ b = false.
Proof. destruct b, u; simpl; naive_solver. Qed.

Lemma refuse_if_Err b (e e' : E) : refuse_if b e = Err e' ↔ b = true ∧ e' = e.
Proof. destruct b; simpl; naive_solver. Qed.

(** Guards in sequence, as the validation functions chain them. *)
Lemma refuse_seq_Ok {T} b (e : E) (k : result E T) x :
  (refuse_if b e ;; k) = Ok x ↔ b = false ∧ k = Ok x.
Proof. destruct b; simpl; naive_solver. Qed.
Lemma unit_seq_Ok {T} (m : result E ()) (k : result E T) x :
  (m ;; k) = Ok x ↔ m = Ok () ∧ k = Ok x.
Proof. destruct m as [[]|]; simpl; naive_solver. Qed.

Lemma is_ok_spec {T} (r : result E T) : is_ok r = true ↔ ∃ x, r = Ok x.
Proof. destruct r; simpl; naive_solver. Qed.
Lemma is_ok_unit (r : result E ()) : is_ok r = true ↔ r = Ok ().
Proof. destruct r as [[]|]; simpl; naive_solver. Qed.
End result_lemmas.

(** [inv_res]: peel every successful or failing monadic hypothesis. *)
Ltac inv_res_step :=
  match goal with
  | H : _ ≫= _ = Ok _ |- _ => apply bind_Ok in H as (? & ? & ?)
  | H : _ <$> _ = Ok _ |- _ => apply fmap_Ok in H as (? & ? & ?)
  | H : map_err _ _ = Ok _ |- _ => apply map_err_Ok in H
  | H : ok_or _ _ = Ok _ |- _ => apply ok_or_Ok in H
  | H : refuse_if _ _ = Ok _ |- _ => apply refuse_if_Ok in H
  | H : Ok _ = Ok _ |- _ => injection H as H
  | H : Err _ = Err _ |- _ => injection H as H
  | H : Ok _ = Err _ |- _ => discriminate H
  | H : Err _ = Ok _ |- _ => discriminate H
  | H : _ ∧ _ |- _ => destruct H
  | H : ∃ _, _ |- _ => destruct H
  | x : () |- _ => destruct x
  end.
Ltac inv_res := repeat inv_res_step; subst.

(** [bool_facts]: turn the boolean guards of the code into propositions. *)
Ltac bool_facts_step :=
  match goal with
  | H : _ || _ = false |- _ => apply orb_false_iff in H as [? ?]
  | H : _ && _ = true |- _ => apply andb_true_iff in H as [? ?]
  | H : negb _ = true |- _ => apply negb_true_iff in H
  | H : negb _ = false |- _ => apply negb_false_iff in H
  | H : (_ <? _) = true |- _ => apply Z.ltb_lt in H
  | H : (_ <? _) = false |- _ => apply Z.ltb_ge in H
  | H : (_ <=? _) = true |- _ => apply Z.leb_le in H
  | H : (_ <=? _) = false |- _ => apply Z.leb_gt in H
  | H : (_ =? _) = true |- _ => apply Z.eqb_eq in H
  | H : (_ =? _) = false |- _ => apply Z.eqb_neq in H
  | H : bool_decide _ = true |- _ => apply bool_decide_eq_true in H
  | H : bool_decide _ = false |- _ => apply bool_decide_eq_false in H
  end.
Ltac bool_facts := repeat bool_facts_step.

(** ** Machine integers

    [u16], [u32], [u64] and [usize] are integers in range; every hypothesis that a
    field is in range is written with these predicates.  [usize] has 64 bits, as on every
    target the repository builds for. *)

Definition U16_MAX : Z := 65535.
Definition U32_MAX : Z := 4294967295.
Definition U64_MAX : Z := 18446744073709551615.
Definition USIZE_MAX : Z := U64_MAX.

Definition is_u16 (n : Z) : Prop := 0 ≤ n ≤ U16_MAX.
Definition is_u32 (n : Z) : Prop := 0 ≤ n ≤ U32_MAX.
Definition is_u64 (n : Z) : Prop := 0 ≤ n ≤ U64_MAX.

(** [checked_add], [saturating_add], [saturating_sub] and [try_from] at a width given by
    its maximum. *)
Definition checked_add (max a b : Z) : option Z :=
  if a + b <=? max then Some (a + b) else None.
Definition saturating_add (max a b : Z) : Z := Z.min max (a + b).
Definition saturating_mul (max a b : Z) : Z := Z.min max (a * b).
Definition saturating_sub (a b : Z) : Z := Z.max 0 (a - b).
Definition try_from (max a : Z) : option Z :=
  if (0 <=? a) && (a <=? max) then Some a else None.

(** [n as u32], which keeps the low 32 bits. *)
Definition as_u32 (n : Z) : Z := n mod 4294967296.

Section integer_lemmas.
Lemma as_u32_id n : is_u32 n → as_u32 n = n.
Proof. unfold is_u32, U32_MAX, as_u32. intros. apply Z.mod_small. lia. Qed.

Lemma checked_add_Some max a b c :
  checked_add max a b = Some c ↔ c = a + b ∧ a + b ≤ max.
Proof. unfold checked_add. destruct (Z.leb_spec (a + b) max); naive_solver lia. Qed.

Lemma checked_add_None max a b : checked_add max a b = None ↔ max < a + b.
Proof.
  unfold checked_add. destruct (Z.leb_spec (a + b) max); split; try done; lia.
Qed.

Lemma try_from_Some max a b : try_from max a = Some b ↔ b = a ∧ 0 ≤ a ≤ max.
Proof.
  unfold try_from. destruct (Z.leb_spec 0 a), (Z.leb_spec a max); simpl;
    naive_solver lia.
Qed.

Lemma try_from_None max a : try_from max a = None ↔ a < 0 ∨ max < a.
Proof.
  unfold try_from. destruct (Z.leb_spec 0 a), (Z.leb_spec a max); simpl;
    (split; [try done; lia | try done; lia]).
Qed.
End integer_lemmas.

(** ** Lists *)

(** The length of a list as Rust sees it, an integer. *)
Definition zlen {A} (l : list A) : Z := Z.of_nat (length l).

Definition sum_with {A} (f : A → Z) (l : list A) : Z :=
  foldr (λ x acc, f x + acc) 0 l.

(** [iter().map(f).max()] with the accumulator starting at 0, as the [maximum.max(..)] loops
    of the store compute it. *)
Definition max_with {A} (f : A → Z) (l : list A) : Z :=
  foldl (λ acc x, Z.max acc (f x)) 0 l.

Section list_lemmas.
Context {A : Type}.
Implicit Types (l : list A) (f : A → Z).

Lemma zlen_nil : zlen ([] : list A) = 0.
Proof. done. Qed.
Lemma zlen_cons x l : zlen (x :: l) = 1 + zlen l.
Proof. unfold zlen. simpl. lia. Qed.
Lemma zlen_cons_ne x l : zlen (x :: l) ≠ 0.
Proof. rewrite zlen_cons. unfold zlen. lia. Qed.
Lemma zlen_app l k : zlen (l ++ k) = zlen l + zlen k.
Proof. unfold zlen. rewrite length_app. lia. Qed.
Lemma zlen_nonneg l : 0 ≤ zlen l.
Proof. unfold zlen. lia. Qed.

Lemma sum_with_app f l k : sum_with f (l ++ k) = sum_with f l + sum_with f k.
Proof. induction l as [|x l IH]; simpl; [done | lia]. Qed.

Lemma sum_with_nonneg f l : Forall (λ x, 0 ≤ f x) l → 0 ≤ sum_with f l.
Proof. induction 1; simpl; lia. Qed.

Lemma sum_with_Permutation f l k : l ≡ₚ k → sum_with f l = sum_with f k.
Proof. induction 1; simpl; lia. Qed.

Lemma foldl_max_ge f l a : a ≤ foldl (λ acc x, Z.max acc (f x)) a l.
Proof. revert a. induction l as [|x l IH]; intros a; simpl; [lia|]. specialize (IH (Z.max a (f x))). lia. Qed.

Lemma max_with_nonneg f l : 0 ≤ max_with f l.
Proof. apply foldl_max_ge. Qed.

Lemma foldl_max_elem f l a x :
  x ∈ l → f x ≤ foldl (λ acc x, Z.max acc (f x)) a l.
Proof.
  revert a. induction l as [|y l IH]; intros a; [by intros ?%elem_of_nil|].
  intros [->|Hx]%elem_of_cons; simpl; [|by apply IH].
  pose proof (foldl_max_ge f l (Z.max a (f y))). lia.
Qed.

Lemma max_with_elem f l x : x ∈ l → f x ≤ max_with f l.
Proof. apply foldl_max_elem. Qed.

Lemma max_with_bound f l b :
  0 ≤ b → (∀ x, x ∈ l → f x ≤ b) → max_with f l ≤ b.
Proof.
  unfold max_with. generalize 0 as a. induction l as [|y l IH]; intros a Ha Hb; simpl; [done|].
  apply IH; [|set_solver]. assert (f y ≤ b) by (apply Hb; set_solver). lia.
Qed.
End list_lemmas.

#[export] Hint Resolve zlen_nonneg : core.

(** ** Stateful fallible operations

    [St S E T] is an operation on a state of type [S] that returns [Result<T, E>]; the state
    reached before an error is kept, as effects already performed are in the code. *)

Definition St (S E T : Type) : Type := S → result E T * S.

#[global] Instance st_ret S E : MRet (St S E) := λ T x s, (Ok x, s).
#[global] Instance st_bind S E : MBind (St S E) := λ T U f m s,
  match m s with
  | (Ok x, s') => f x s'
  | (Err e, s') => (Err e, s')
  end.

Definition st_err {S E T} (e : E) : St S E T := λ s, (Err e, s).
Definition st_lift {S E T} (r : result E T) : St S E T := λ s, (r, s).
Definition st_get {S E} : St S E S := λ s, (Ok s, s).
Definition st_modify {S E} (f : S → S) : St S E () := λ s, (Ok (), f s).
(** Run an operation and observe its outcome, as [match op() { .. }] does. *)
Definition st_try {S E E' T} (m : St S E T) : St S E' (result E T) := λ s,
  let '(r, s') := m s in (Ok r, s').
Definition st_map_err {S E E' T} (f : E → E') (m : St S E T) : St S E' T := λ s,
  let '(r, s') := m s in (map_err f r, s').

(** [for x in l { f(x)?; }] *)
Fixpoint st_for {S E A} (l : list A) (f : A → St S E ()) : St S E () :=
  match l with
  | [] => mret ()
  | x :: k => f x ;; st_for k f
  end.

Section st_lemmas.
Context {S E : Type}.

Lemma st_bind_Ok {T U} (m : St S E T) (f : T → St S E U) u s s' :
  (m ≫= f) s = (Ok u, s') ↔ ∃ x s1, m s = (Ok x, s1) ∧ f x s1 = (Ok u, s').
Proof. unfold mbind, st_bind. destruct (m s) as [[x|e] s1]; naive_solver. Qed.

Lemma st_bind_Err {T U} (m : St S E T) (f : T → St S E U) e s s' :
  (m ≫= f) s = (Err e, s') ↔
    m s = (Err e, s') ∨ ∃ x s1, m s = (Ok x, s1) ∧ f x s1 = (Err e, s').
Proof. unfold mbind, st_bind. destruct (m s) as [[x|e'] s1]; naive_solver. Qed.

Lemma st_ret_Ok {T} (x u : T) (s s' : S) :
  (mret x : St S E T) s = (Ok u, s') ↔ u = x ∧ s' = s.
Proof. unfold mret, st_ret. naive_solver. Qed.
Lemma st_lift_Ok {T} (r : result E T) u (s s' : S) :
  st_lift r s = (Ok u, s') ↔ r = Ok u ∧ s' = s.
Proof. unfold st_lift. naive_solver. Qed.
Lemma st_err_Ok {T} (e : E) (u : T) (s s' : S) : st_err e s = (Ok u, s') ↔ False.
Proof. unfold st_err. naive_solver. Qed.
Lemma st_get_Ok u (s s' : S) :
  (st_get : St S E S) s = (Ok u, s') ↔ u = s ∧ s' = s.
Proof. unfold st_get. naive_solver. Qed.
Lemma st_modify_Ok f u (s s' : S) :
  (st_modify f : St S E ()) s = (Ok u, s') ↔ s' = f s.
Proof. unfold st_modify. destruct u. naive_solver. Qed.
Lemma st_try_Ok {E' T} (m : St S E' T) u (s s' : S) :
  (st_try m : St S E _) s = (Ok u, s') ↔ m s = (u, s').
Proof. unfold st_try. destruct (m s). naive_solver. Qed.

(** A step whose outcome is known. *)
Lemma st_bind_run {T U} (m : St S E T) (f : T → St S E U) s x s1 :
  m s = (Ok x, s1) → (m ≫= f) s = f x s1.
Proof. unfold mbind, st_bind. by intros ->. Qed.
Lemma st_lift_run {T U} (r : result E T) (f : T → St S E U) s x :
  r = Ok x → (st_lift r ≫= f) s = f x s.
Proof. by intros ->. Qed.

(** Two runs that begin with the same step. *)
Lemma st_bind_ext {T U} (m : St S E T) (f g : T → St S E U) s :
  (∀ x s1, m s = (Ok x, s1) → f x s1 = g x s1) → (m ≫= f) s = (m ≫= g) s.
Proof. intros H. unfold mbind, st_bind. destruct (m s) as [[x|e] s1]; [by apply H|done]. Qed.

(** A run of two steps: the first fails, or the second runs after it. *)
Lemma st_bind_inv {T U} (m : St S E T) (f : T → St S E U) s r s' :
  (m ≫= f) s = (r, s') →
  (∃ e, m s = (Err e, s') ∧ r = Err e) ∨ ∃ x s1, m s = (Ok x, s1) ∧ f x s1 = (r, s').
Proof. unfold mbind, st_bind. destruct (m s) as [[x|e] s1]; naive_solver. Qed.

Lemma st_try_inv {E' T U} (m : St S E' T) (f : result E' T → St S E U) s r s' :
  (st_try m ≫= f) s = (r, s') → ∃ o s1, m s = (o, s1) ∧ f o s1 = (r, s').
Proof. unfold mbind, st_bind, st_try. destruct (m s) as [o s1]. eauto. Qed.
Lemma st_map_err_inv {E' T} (g : E' → E) (m : St S E' T) s r s' :
  st_map_err g m s = (r, s') → ∃ o, m s = (o, s') ∧ r = map_err g o.
Proof. unfold st_map_err. destruct (m s) as [o s1]. intros [= <- <-]. eauto. Qed.

Lemma st_map_err_Ok {E' T} (g : E → E') (m : St S E T) x s s' :
  st_map_err g m s = (Ok x, s') ↔ m s = (Ok x, s').
Proof. unfold st_map_err. destruct (m s) as [[y|e] s1]; simpl; naive_solver. Qed.
End st_lemmas.

(** [inv_st]: peel a successful run into its steps. *)
Ltac inv_st_step :=
  match goal with
  | H : (_ ≫= _) _ = (Ok _, _) |- _ => apply st_bind_Ok in H as (? & ? & ? & ?)
  | H : mret _ _ = (Ok _, _) |- _ => apply st_ret_Ok in H as [? ?]
  | H : st_lift _ _ = (Ok _, _) |- _ => apply st_lift_Ok in H as [? ?]
  | H : st_err _ _ = (Ok _, _) |- _ => apply st_err_Ok in H as []
  | H : st_get _ = (Ok _, _) |- _ => apply st_get_Ok in H as [? ?]
  | H : st_modify _ _ = (Ok _, _) |- _ => apply st_modify_Ok in H
  | H : st_map_err _ _ _ = (Ok _, _) |- _ => apply st_map_err_Ok in H
  | H : st_try _ _ = (Ok _, _) |- _ => apply (proj1 (st_try_Ok _ _ _ _)) in H
  end; subst.
Ltac inv_st := repeat inv_st_step.

(** The first step of a run, in both outcomes or in the successful one. *)
Tactic Notation "step_in" hyp(H) "as" ident(x) ident(s) ident(Hm) :=
  let Hr := fresh "Hres" in
  apply st_bind_inv in H as [(?e & Hm & Hr)|(x & s & Hm & H)];
  [first [injection Hr as Hr|idtac]; subst|].

Tactic Notation "ok_in" hyp(H) "as" ident(x) ident(s) ident(Hm) :=
  apply st_bind_Ok in H as (x & s & Hm & H).

(** [keeps R m]: whatever the outcome of [m], the states before and after are related by
    [R].  For a preorder [R] the property composes along the monad; with
    [R s s' := I s → I s'] it says that [m] preserves the invariant [I], on every error path
    as well. *)
Definition keeps {S E T} (R : relation S) (m : St S E T) : Prop :=
  ∀ s, R s (m s).2.

Section keeps_lemmas.
Context {S : Type} (R : relation S) `{!PreOrder R}.

Lemma keeps_ret {E T} (x : T) : keeps R (mret x : St S E T).
Proof. intros s. simpl. reflexivity. Qed.
Lemma keeps_err {E T} (e : E) : keeps R (st_err e : St S E T).
Proof. intros s. simpl. reflexivity. Qed.
Lemma keeps_lift {E T} (r : result E T) : keeps R (st_lift r : St S E T).
Proof. intros s. simpl. reflexivity. Qed.
Lemma keeps_get {E} : keeps R (st_get : St S E S).
Proof. intros s. simpl. reflexivity. Qed.

Lemma keeps_bind {E T U} (m : St S E T) (f : T → St S E U) :
  keeps R m → (∀ x, keeps R (f x)) → keeps R (m ≫= f).
Proof.
  intros Hm Hf s. unfold mbind, st_bind. specialize (Hm s).
  destruct (m s) as [[x|e] s1]; simpl in *; [|done]. etrans; [exact Hm | apply Hf].
Qed.

Lemma keeps_lift_bind {E T U} (r : result E T) (f : T → St S E U) :
  (∀ x, r = Ok x → keeps R (f x)) → keeps R (st_lift r ≫= f).
Proof.
  intros Hf s. unfold mbind, st_bind, st_lift.
  destruct r as [x|e]; simpl; [by apply Hf | reflexivity].
Qed.

Lemma keeps_try {E E' T} (m : St S E T) : keeps R m → keeps R (st_try m : St S E' _).
Proof. intros Hm s. specialize (Hm s). unfold st_try. by destruct (m s). Qed.

Lemma keeps_map_err {E E' T} (g : E → E') (m : St S E T) :
  keeps R m → keeps R (st_map_err g m).
Proof. intros Hm s. specialize (Hm s). unfold st_map_err. by destruct (m s). Qed.

Lemma keeps_for {E A} (l : list A) (f : A → St S E ()) :
  (∀ x, keeps R (f x)) → keeps R (st_for l f).
Proof.
  intros Hf. induction l as [|x l IH]; simpl; [apply keeps_ret|].
  apply keeps_bind; [apply Hf | intros _; apply IH].
Qed.
Lemma keeps_for_in {E A} (l : list A) (f : A → St S E ()) :
  (∀ x, x ∈ l → keeps R (f x)) → keeps R (st_for l f).
Proof.
  induction l as [|x l IH]; intros Hf; simpl; [apply keeps_ret|].
  apply keeps_bind; [apply Hf; set_solver | intros _; apply IH; set_solver].
Qed.
End keeps_lemmas.

(** A relation that takes up steps of [R] before and after it: what happens once in a run all
    of whose other steps are in [R]. *)
Class Absorbs {S} (R Q : relation S) : Prop := {
  absorbs_sub s s' : R s s' → Q s s';
  absorbs_before s1 s2 s3 : R s1 s2 → Q s2 s3 → Q s1 s3;
  absorbs_after s1 s2 s3 : Q s1 s2 → R s2 s3 → Q s1 s3;
}.

Section absorbs_lemmas.
Context {S : Type} (R Q : relation S) `{!Absorbs R Q}.

Lemma keeps_absorbed {E T} (m : St S E T) : keeps R m → keeps Q m.
Proof. intros Hm s. by apply absorbs_sub. Qed.
Lemma keeps_before {E T U} (m : St S E T) (f : T → St S E U) :
  keeps R m → (∀ x, keeps Q (f x)) → keeps Q (m ≫= f).
Proof.
  intros Hm Hf s. unfold mbind, st_bind. specialize (Hm s).
  destruct (m s) as [[x|e] s1]; simpl in *; [|by apply absorbs_sub].
  eapply absorbs_before; [exact Hm|apply Hf].
Qed.
Lemma keeps_after {E T U} (m : St S E T) (f : T → St S E U) :
  keeps Q m → (∀ x, keeps R (f x)) → keeps Q (m ≫= f).
Proof.
  intros Hm Hf s. unfold mbind, st_bind. specialize (Hm s).
  destruct (m s) as [[x|e] s1]; simpl in *; [|done]. eapply absorbs_after; [exact Hm|apply Hf].
Qed.
End absorbs_lemmas.

(** The same at one initial state, where the result of each step is known to the next. *)
Definition stays {S E T} (R : relation S) (m : St S E T) (s : S) : Prop := R s (m s).2.

Section stays_lemmas.
Context {S : Type} (R : relation S) `{!PreOrder R}.

Lemma stays_keeps {E T} (m : St S E T) s : keeps R m → stays R m s.
Proof. intros Hm. apply Hm. Qed.

Lemma stays_bind {E T U} (m : St S E T) (f : T → St S E U) s :
  stays R m s → (∀ x s1, m s = (Ok x, s1) → stays R (f x) s1) → stays R (m ≫= f) s.
Proof.
  unfold stays, mbind, st_bind. intros Hm Hf. destruct (m s) as [[x|e] s1]; simpl in *.
  - etrans; [exact Hm | by apply Hf].
  - done.
Qed.
End stays_lemmas.

Create HintDb keeps.
#[export] Hint Resolve keeps_ret keeps_err keeps_lift keeps_get keeps_try keeps_map_err : keeps.

(** [keeps_tac]: walk through a monadic body, branching where it branches. *)
Ltac keeps_tac :=
  repeat first
    [ progress intros
    | match goal with
      | |- keeps _ (_ ≫= _) => apply keeps_bind; [typeclasses eauto| |]
      | |- keeps _ (st_for _ _) => apply keeps_for; [typeclasses eauto|]
      | |- keeps _ (if ?b then _ else _) => destruct b
      | |- keeps _ (match ?x with _ => _ end) => destruct x
      | |- keeps _ (let '_ := ?x in _) => destruct x
      end
    | solve [eauto with keeps typeclass_instances] ].

(** The preorder "the invariant [I] is kept". *)
Definition inv_kept {S} (I : S → Prop) : relation S := λ s s', I s → I s'.
#[export] Instance inv_kept_preorder {S} (I : S → Prop) : PreOrder (inv_kept I).
Proof. split; [by intros s Hs | intros s1 s2 s3 H12 H23 H1; auto]. Qed.

(** The preorder "the projection [f] is unchanged". *)
Definition same_on {S A} (f : S → A) : relation S := λ s s', f s' = f s.
#[export] Instance same_on_preorder {S A} (f : S → A) : PreOrder (same_on f).
Proof. split; [by intros s | intros s1 s2 s3 H12 H23; unfold same_on in *; congruence]. Qed.

(** ** Triples

    [triple P m Q X]: from a state in [P], [m] returns with [Q] or fails with [X]. *)
Definition triple {S E T} (P : S → Prop) (m : St S E T) (Q : T → S → Prop) (X : E → S → Prop)
    : Prop :=
  ∀ s, P s → match m s with (Ok x, s') => Q x s' | (Err e, s') => X e s' end.

Section triples.
Context {S E : Type}.
Implicit Types (P I : S → Prop) (X : E → S → Prop).

Lemma triple_bind {T U} P (m : St S E T) Q (f : T → St S E U) (R : U → S → Prop) X :
  triple P m Q X → (∀ x, triple (Q x) (f x) R X) → triple P (m ≫= f) R X.
Proof.
  intros Hm Hf s Hs. specialize (Hm s Hs). unfold mbind, st_bind.
  destruct (m s) as [[x|e] s']; [by apply Hf|done].
Qed.
Lemma triple_weaken {T} P P' (m : St S E T) (Q Q' : T → S → Prop) X X' :
  triple P' m Q' X' → (∀ s, P s → P' s) → (∀ x s, Q' x s → Q x s) → (∀ e s, X' e s → X e s) →
  triple P m Q X.
Proof. intros Hm HP HQ HX s Hs. specialize (Hm s (HP s Hs)). destruct (m s) as [[x|e] s']; auto. Qed.
Lemma triple_ret {T} P (x : T) X : triple P (mret x) (λ _, P) X.
Proof. by intros s Hs. Qed.
Lemma triple_keeps {T} I (m : St S E T) : keeps (inv_kept I) m → triple I m (λ _, I) (λ _, I).
Proof. intros Hm s Hs. specialize (Hm s Hs). by destruct (m s) as [[x|e] s']. Qed.
End triples.
