(* ===== verification/RustStr.v ===== *)
(** * Rust strings and byte buffers

    A Rust [str] is a sequence of Unicode scalar values whose byte length is the sum of the
    UTF-8 widths; it is modelled by the list of its code points ([rstr]).  A byte index is
    meaningful only on a character boundary, and slicing or truncating elsewhere panics,
    which [None] stands for in [str_prefix] and [str_truncate].  The file holds the standard
    library operations the crates use, with the lemmas about them. *)

From S2P Require Import Prelude.
From Stdlib Require Import Ascii.

Notation rstr := (list Z).

Definition str (s : string) : rstr :=
  map (λ a, Z.of_N (N_of_ascii a)) (String.list_ascii_of_string s).

(** Decimal rendering of an integer by [Display]. *)
Definition show_int (n : Z) : rstr := str (pretty n).

Definition is_scalar (c : Z) : Prop := 0 ≤ c < 55296 ∨ 57344 ≤ c ≤ 1114111.
Definition valid_str (s : rstr) : Prop := Forall is_scalar s.

(** [char::len_utf8] and [str::len]. *)
Definition char_len (c : Z) : Z :=
  if c <? 128 then 1 else if c <? 2048 then 2 else if c <? 65536 then 3 else 4.
Definition str_len (s : rstr) : Z := sum_with char_len s.
Arguments str_len : simpl never.

(** [char::is_control]: the general category Cc. *)
Definition is_control (c : Z) : bool :=
  ((0 <=? c) && (c <=? 31)) || ((127 <=? c) && (c <=? 159)).

(** [char::is_whitespace]: the property White_Space. *)
Definition is_whitespace (c : Z) : bool :=
  ((9 <=? c) && (c <=? 13)) || (c =? 32) || (c =? 133) || (c =? 160) || (c =? 5760)
  || ((8192 <=? c) && (c <=? 8202)) || (c =? 8232) || (c =? 8233) || (c =? 8239)
  || (c =? 8287) || (c =? 12288).

Definition to_ascii_uppercase (c : Z) : Z :=
  if (97 <=? c) && (c <=? 122) then c - 32 else c.
Definition to_ascii_lowercase (c : Z) : Z :=
  if (65 <=? c) && (c <=? 90) then c + 32 else c.

Definition contains_char (c : Z) (s : rstr) : bool := existsb (Z.eqb c) s.
Definition starts_with_char (c : Z) (s : rstr) : bool :=
  match s with d :: _ => d =? c | [] => false end.
Definition ends_with_char (c : Z) (s : rstr) : bool :=
  match last s with Some d => d =? c | None => false end.

Fixpoint strip_prefix (p s : rstr) : option rstr :=
  match p, s with
  | [], _ => Some s
  | c :: p', d :: s' => if c =? d then strip_prefix p' s' else None
  | _ :: _, [] => None
  end.
Definition starts_with (p s : rstr) : bool := bool_decide (is_Some (strip_prefix p s)).

(** [str::contains] with a string pattern. *)
Fixpoint contains_str (p s : rstr) : bool :=
  starts_with p s || match s with [] => false | _ :: s' => contains_str p s' end.

(** [str::split(char)]: always at least one piece. *)
Fixpoint split_char (sep : Z) (s : rstr) : list rstr :=
  match s with
  | [] => [[]]
  | c :: t =>
      if c =? sep then [] :: split_char sep t
      else match split_char sep t with
           | piece :: rest => (c :: piece) :: rest
           | [] => [[c]]
           end
  end.

(** [slice::join] with a one-character separator. *)
Fixpoint join_char (sep : Z) (pieces : list rstr) : rstr :=
  match pieces with
  | [] => []
  | [piece] => piece
  | piece :: rest => piece ++ sep :: join_char sep rest
  end.

(** [str::lines().count()]: one line per terminator, plus an unterminated last line. *)
Fixpoint lines_count (s : rstr) : Z :=
  match s with
  | [] => 0
  | c :: t => if c =? 10 then 1 + lines_count t
              else match t with [] => 1 | _ => lines_count t end
  end.

(** [str::trim_end_matches] with a set of characters, and [str::trim]. *)
Fixpoint drop_matches (p : Z → bool) (s : rstr) : rstr :=
  match s with
  | c :: t => if p c then drop_matches p t else s
  | [] => []
  end.
Definition trim_end_matches (p : Z → bool) (s : rstr) : rstr :=
  reverse (drop_matches p (reverse s)).
Definition trim (s : rstr) : rstr :=
  trim_end_matches is_whitespace (drop_matches is_whitespace s).

(** Byte indices. *)
Fixpoint is_char_boundary (s : rstr) (i : Z) : bool :=
  (i =? 0) ||
  match s with
  | [] => false
  | c :: t => (char_len c <=? i) && is_char_boundary t (i - char_len c)
  end.

(** [s[..i]]; [None] is the panic at a byte that is not a boundary. *)
Fixpoint str_prefix (s : rstr) (i : Z) : option rstr :=
  if i =? 0 then Some []
  else match s with
       | [] => None
       | c :: t => if char_len c <=? i then cons c <$> str_prefix t (i - char_len c)
                   else None
       end.

(** [String::truncate]: no effect at or past the end, panics off a boundary. *)
Definition str_truncate (s : rstr) (i : Z) : option rstr :=
  if str_len s <=? i then Some s else str_prefix s i.

(** The loop [while !s.is_char_boundary(end) { end -= 1 }]; [0] is always a boundary, so it
    stops before [end] can underflow. *)
Fixpoint floor_boundary (s : rstr) (i : nat) : nat :=
  if is_char_boundary s (Z.of_nat i) then i
  else match i with O => O | S j => floor_boundary s j end.

(** ** Lemmas *)

Section str_lemmas.
Implicit Types (s p : rstr) (c i : Z).

Lemma char_len_pos c : 1 ≤ char_len c ≤ 4.
Proof. unfold char_len. repeat case_match; lia. Qed.

Lemma str_len_cons c s : str_len (c :: s) = char_len c + str_len s.
Proof. done. Qed.
Lemma str_len_app s p : str_len (s ++ p) = str_len s + str_len p.
Proof. apply sum_with_app. Qed.
Lemma str_len_nonneg s : 0 ≤ str_len s.
Proof. induction s as [|c s IH]; simpl; [done|]. pose proof (char_len_pos c). rewrite str_len_cons. lia. Qed.
Lemma str_len_zero s : str_len s = 0 ↔ s = [].
Proof.
  destruct s as [|c s]; [done|]. rewrite str_len_cons.
  pose proof (char_len_pos c). pose proof (str_len_nonneg s). split; [lia | done].
Qed.
Lemma str_len_pos s : 0 < str_len s ↔ s ≠ [].
Proof. rewrite <- str_len_zero. pose proof (str_len_nonneg s). lia. Qed.

Lemma length_le_str_len s : zlen s ≤ str_len s.
Proof.
  induction s as [|c s IH]; [done|]. rewrite zlen_cons, str_len_cons.
  pose proof (char_len_pos c). lia.
Qed.

Lemma contains_char_true c s : contains_char c s = true ↔ c ∈ s.
Proof.
  unfold contains_char. rewrite existsb_exists. setoid_rewrite Z.eqb_eq.
  rewrite list_elem_of_In. naive_solver.
Qed.
Lemma contains_char_false c s : contains_char c s = false ↔ c ∉ s.
Proof. rewrite <- contains_char_true. by destruct (contains_char c s). Qed.

(** Prefixes at byte indices. *)
Lemma is_char_boundary_0 s : is_char_boundary s 0 = true.
Proof. by destruct s. Qed.

Lemma str_prefix_Some s i p :
  str_prefix s i = Some p ↔ str_len p = i ∧ ∃ rest, s = p ++ rest.
Proof.
  revert i p. induction s as [|c s IH]; intros i p; simpl.
  - destruct (Z.eqb_spec i 0) as [->|Hi].
    + split; [intros [= <-]; eauto | intros [Hp [rest Hr]]].
      by destruct p.
    + split; [done | intros [Hp [rest Hr]]]. by destruct p.
  - destruct (Z.eqb_spec i 0) as [->|Hi].
    + split; [intros [= <-]; eauto | intros [Hp%str_len_zero _]; by subst].
    + pose proof (char_len_pos c). destruct (Z.leb_spec (char_len c) i) as [Hle|Hgt].
      * split.
        { intros (q & Hq & ->)%fmap_Some. apply IH in Hq as [Hq [rest ->]].
          rewrite str_len_cons. split; [lia | by exists rest]. }
        intros [Hp [rest Hr]]. destruct p as [|d p]; [by rewrite <- Hp in Hi|].
        injection Hr as -> ->. rewrite str_len_cons in Hp. apply fmap_Some.
        exists p. split; [apply IH; split; [lia | eauto] | done].
      * split; [done|]. intros [Hp [rest Hr]]. destruct p as [|d p].
        { by rewrite <- Hp in Hi. }
        injection Hr as -> ->. rewrite str_len_cons in Hp.
        pose proof (str_len_nonneg p). lia.
Qed.

Lemma is_char_boundary_prefix s i :
  is_char_boundary s i = true ↔ is_Some (str_prefix s i).
Proof.
  revert i. induction s as [|c s IH]; intros i; simpl.
  - destruct (i =? 0); simpl; [by split; eauto | split; [done | by intros [? ?]]].
  - destruct (i =? 0); simpl; [by split; eauto|].
    destruct (char_len c <=? i); simpl.
    + rewrite IH. split; intros [q Hq]; [rewrite Hq; simpl; eauto|].
      apply fmap_Some in Hq as (r & -> & _). eauto.
    + split; [done | by intros [? ?]].
Qed.

Lemma is_char_boundary_spec s i :
  is_char_boundary s i = true ↔ ∃ p rest, s = p ++ rest ∧ str_len p = i.
Proof.
  rewrite is_char_boundary_prefix. unfold is_Some. setoid_rewrite str_prefix_Some.
  naive_solver.
Qed.

Lemma is_char_boundary_len s : is_char_boundary s (str_len s) = true.
Proof. apply is_char_boundary_spec. exists s, []. by rewrite app_nil_r. Qed.

(** The downward search stops at the largest boundary not above its start. *)
Lemma floor_boundary_le s n : (floor_boundary s n ≤ n)%nat.
Proof.
  induction n as [|n IH]; simpl; case_match; lia.
Qed.
Lemma floor_boundary_is_boundary s n :
  is_char_boundary s (Z.of_nat (floor_boundary s n)) = true.
Proof.
  induction n as [|n IH]; simpl; case_match eqn:Hb; try done.
  by rewrite is_char_boundary_0 in Hb.
Qed.
Lemma floor_boundary_largest s n j :
  (j ≤ n)%nat → is_char_boundary s (Z.of_nat j) = true → (j ≤ floor_boundary s n)%nat.
Proof.
  induction n as [|n IH]; intros Hj Hb; simpl; case_match eqn:Hn; try lia.
  destruct (decide (j = S n)) as [->|]; [congruence | apply IH; [lia | done]].
Qed.
Lemma floor_boundary_len s : Z.of_nat (floor_boundary s (Z.to_nat (str_len s))) = str_len s.
Proof.
  pose proof (str_len_nonneg s). pose proof (floor_boundary_le s (Z.to_nat (str_len s))).
  pose proof (floor_boundary_largest s (Z.to_nat (str_len s)) (Z.to_nat (str_len s))) as H1.
  rewrite Z2Nat.id in H1 by done. rewrite is_char_boundary_len in H1. lia.
Qed.
Lemma floor_boundary_gap s n :
  (n - floor_boundary s n ≤ 3)%nat ∨ str_len s < Z.of_nat n.
Proof.
  destruct (decide (str_len s < Z.of_nat n)) as [|Hlen]; [by right|left].
  (* walk the string to the last boundary at or below n *)
  assert (∃ p rest, s = p ++ rest ∧ str_len p ≤ Z.of_nat n ≤ str_len p + 3) as (p & rest & -> & Hp).
  { clear -Hlen. revert n Hlen. induction s as [|c s IH]; intros n Hlen.
    - exists [], []. simpl. change (str_len []) with 0 in *. split; [done | lia].
    - rewrite str_len_cons in Hlen. pose proof (char_len_pos c).
      destruct (decide (char_len c ≤ Z.of_nat n)) as [Hc|Hc].
      + destruct (IH (n - Z.to_nat (char_len c))%nat) as (p & rest & -> & Hp); [lia|].
        exists (c :: p), rest. rewrite str_len_cons. split; [done | lia].
      + exists [], (c :: s). split; [done|]. change (str_len []) with 0. lia. }
  assert (Z.to_nat (str_len p) ≤ floor_boundary (p ++ rest) n)%nat; [|lia].
  pose proof (str_len_nonneg p).
  apply floor_boundary_largest; [lia|]. apply is_char_boundary_spec.
  exists p, rest. split; [done | lia].
Qed.
End str_lemmas.

(** ** Length of rendered integers *)

Lemma str_String a s : str (String a s) = Z.of_N (N_of_ascii a) :: str s.
Proof. done. Qed.

Lemma pretty_go_len k x s :
  (x < 10 ^ N.of_nat k)%N → str_len (str (pretty_N_go x s)) ≤ Z.of_nat k + str_len (str s).
Proof.
  revert x s. induction k as [|k IH]; intros x s Hx.
  { assert (x = 0%N) as -> by (simpl in Hx; lia). rewrite pretty_N_go_0. lia. }
  destruct (decide (x = 0%N)) as [->|Hne]; [rewrite pretty_N_go_0; lia|].
  rewrite pretty_N_go_step by lia.
  assert (x `div` 10 < 10 ^ N.of_nat k)%N as Hdiv.
  { apply N.Div0.div_lt_upper_bound. rewrite Nat2N.inj_succ, N.pow_succ_r' in Hx. lia. }
  specialize (IH _ (String (pretty_N_char (x `mod` 10)) s) Hdiv).
  rewrite str_String, str_len_cons in IH.
  assert (char_len (Z.of_N (N_of_ascii (pretty_N_char (x `mod` 10)))) = 1) as Hc.
  { unfold pretty_N_char. by repeat case_match. }
  lia.
Qed.

(** A 64-bit value takes at most 20 digits. *)
Lemma show_int_len n : is_u64 n → str_len (show_int n) ≤ 20.
Proof.
  unfold is_u64, U64_MAX, show_int. intros Hn.
  destruct n as [|p|p]; [vm_compute; discriminate| |lia].
  change (pretty (Zpos p)) with (pretty (Npos p)). unfold pretty, pretty_N.
  case_decide; [done|]. change 20 with (Z.of_nat 20 + str_len (str "")).
  apply pretty_go_len. change (10 ^ N.of_nat 20)%N with 100000000000000000000%N. lia.
Qed.
