(* ===== verification/StdIo.v ===== *)
(** * Bytes, streams and I/O errors of the standard library

    What the crates use of [std::io]: byte buffers, big-endian length prefixes,
    [io::ErrorKind], and a reader as the bytes it still has to deliver, with [read_exact].
    The [Json] class is the interface to [serde_json]: encoding, decoding and the documented
    round trip of a derived [Serialize]/[Deserialize] pair. *)

From S2P Require Import Prelude RustStr.
From Stdlib Require Import Strings.Byte.

Notation bytes := (list Byte.byte).

#[export] Instance byte_eq_dec : EqDecision Byte.byte := Stdlib.Strings.Byte.byte_eq_dec.

Definition byte_to_Z (b : Byte.byte) : Z := Z.of_N (Byte.to_N b).
(** [n as u8] *)
Definition byte_of_Z (n : Z) : Byte.byte :=
  default Byte.x00 (Byte.of_N (Z.to_N (n mod 256))).

(** [u32::to_be_bytes] and [u32::from_be_bytes]. *)
Definition u32_to_be_bytes (n : Z) : bytes :=
  [byte_of_Z (n / 16777216); byte_of_Z (n / 65536); byte_of_Z (n / 256); byte_of_Z n].
Definition u32_from_be_bytes (b : bytes) : Z :=
  foldl (λ acc x, acc * 256 + byte_to_Z x) 0 b.

Inductive ErrorKind :=
| NotFound
| PermissionDenied
| ConnectionRefused
| ConnectionReset
| ConnectionAborted
| NotConnected
| BrokenPipe
| AlreadyExists
| WouldBlock
| DirectoryNotEmpty
| NotADirectory
| IsADirectory
| InvalidInput
| InvalidData
| TimedOut
| Unsupported
| UnexpectedEof
| OtherKind.
#[export] Instance ErrorKind_eq_dec : EqDecision ErrorKind.
Proof. solve_decision. Defined.

Record IoError := mkIoError { io_kind : ErrorKind; io_message : rstr }.
#[export] Instance IoError_eq_dec : EqDecision IoError.
Proof. solve_decision. Defined.

(** [Read::read_exact] on a reader that delivers [stream] and then ends; a short stream is
    consumed and reported as [UnexpectedEof]. *)
Definition read_exact (n : Z) : St bytes IoError bytes := λ stream,
  if n <=? zlen stream then (Ok (take (Z.to_nat n) stream), drop (Z.to_nat n) stream)
  else (Err (mkIoError UnexpectedEof (str "failed to fill whole buffer")), []).

(** [Write::write_all] and [flush]; the instance is the writer that keeps what it was given,
    as [Vec<u8>] does. *)
Class Writer (W : Type) := {
  write_all : bytes → St W IoError ();
  flush : St W IoError ();
}.
#[export] Instance vec_writer : Writer bytes := {
  write_all b := st_modify (λ written, written ++ b);
  flush := mret ();
}.

Class Json (A : Type) := {
  json_to_vec : A → result rstr bytes;
  json_from_slice : bytes → result rstr A;
}.
Class JsonLaws (A : Type) `{Json A} :=
  json_round_trip : ∀ (x : A) b, json_to_vec x = Ok b → json_from_slice b = Ok x.

(** ** Lemmas *)

Lemma byte_to_Z_bounds b : 0 ≤ byte_to_Z b < 256.
Proof. unfold byte_to_Z. pose proof (Byte.to_N_bounded b). lia. Qed.

Lemma byte_of_Z_to_Z n : byte_to_Z (byte_of_Z n) = n mod 256.
Proof.
  unfold byte_to_Z, byte_of_Z. pose proof (Z.mod_pos_bound n 256 ltac:(lia)).
  pose proof (Byte.to_of_N_option_map (Z.to_N (n mod 256))) as Hb.
  rewrite (proj2 (N.leb_le (Z.to_N (n mod 256)) 255)) in Hb by lia.
  destruct (Byte.of_N (Z.to_N (n mod 256))) as [b|]; simpl in *; [|done].
  injection Hb as Hb. lia.
Qed.

Lemma u32_be_round_trip n : is_u32 n → u32_from_be_bytes (u32_to_be_bytes n) = n.
Proof.
  unfold is_u32, U32_MAX. intros Hn. unfold u32_from_be_bytes, u32_to_be_bytes. simpl.
  rewrite !byte_of_Z_to_Z. Z.to_euclidean_division_equations. lia.
Qed.

Lemma u32_from_be_nonneg b : 0 ≤ u32_from_be_bytes b.
Proof.
  unfold u32_from_be_bytes. assert (∀ acc, 0 ≤ acc → 0 ≤ foldl (λ acc x, acc * 256 + byte_to_Z x) acc b)
    as H; [|by apply H].
  induction b as [|x b IH]; intros acc Hacc; [done|]. cbn [foldl]. apply IH.
  unfold byte_to_Z. lia.
Qed.

Lemma read_exact_app b rest n :
  zlen b = n → read_exact n (b ++ rest) = (Ok b, rest).
Proof.
  intros <-. unfold read_exact, zlen. rewrite length_app.
  destruct (Z.leb_spec (Z.of_nat (length b)) (Z.of_nat (length b + length rest))); [|lia].
  by rewrite Nat2Z.id, take_app_length, drop_app_length.
Qed.

Lemma read_exact_Ok n stream b rest :
  0 ≤ n → read_exact n stream = (Ok b, rest) → stream = b ++ rest ∧ zlen b = n.
Proof.
  intros Hn. unfold read_exact. destruct (Z.leb_spec n (zlen stream)) as [Hle|]; [|done].
  intros [= <- <-]. split; [by rewrite take_drop|]. unfold zlen in *.
  rewrite length_take. lia.
Qed.

(** A codec that represents the values of a table by their position, for evaluating
    definitions over [Json] on concrete values. *)
Section table_codec.
Context {A : Type} `{EqDecision A} (table : list A).

Definition table_json : Json A := {|
  json_to_vec x :=
    match list_find (eq x) table with
    | Some (i, _) => Ok (replicate (S i) Byte.x7b)
    | None => Err (str "not in the table")
    end;
  json_from_slice b :=
    match table !! pred (length b) with
    | Some x => Ok x
    | None => Err (str "not in the table")
    end;
|}.

Lemma table_json_laws : @JsonLaws A table_json.
Proof.
  intros x b. simpl. destruct (list_find (eq x) table) as [[i y]|] eqn:Hf; [|done].
  intros [= <-]. apply list_find_Some in Hf as (Hl & <- & _).
  simpl. by rewrite length_replicate, Hl.
Qed.
End table_codec.

(** A total codec for countable data: the bits of its code, one byte each. *)
Fixpoint positive_to_bytes (p : positive) : bytes :=
  match p with
  | xH => [Byte.x31]
  | xO p => Byte.x30 :: positive_to_bytes p
  | xI p => Byte.x32 :: positive_to_bytes p
  end.
Fixpoint positive_of_bytes (b : bytes) : option positive :=
  match b with
  | [] => None
  | Byte.x30 :: b => xO <$> positive_of_bytes b
  | Byte.x32 :: b => xI <$> positive_of_bytes b
  | _ => Some xH
  end.
Definition countable_json (A : Type) `{Countable A} : Json A := {|
  json_to_vec x := Ok (positive_to_bytes (encode x));
  json_from_slice b :=
    ok_or (p ← positive_of_bytes b; decode p) (str "not an encoding");
|}.
Lemma countable_json_laws A `{Countable A} : @JsonLaws A (countable_json A).
Proof.
  intros x b. simpl. intros [= <-].
  assert (∀ p, positive_of_bytes (positive_to_bytes p) = Some p) as Hp.
  { induction p as [p IH|p IH|]; simpl; [by rewrite IH|by rewrite IH|done]. }
  rewrite Hp. simpl. by rewrite decode_encode.
Qed.
