(* ===== verification/Utf8.v ===== *)
(** * UTF-8

    The encoding of a string ([str::as_bytes]) and the decoding of bytes
    ([String::from_utf8], [OsStr::to_str]) as the standard library defines them, and the two
    round trips: the models of hashing, hashing of names and text transfer meet in them. *)

From S2P Require Import Prelude RustStr StdIo.
From Stdlib Require Import Strings.Byte.

Definition char_bytes (c : Z) : bytes :=
  if c <=? 127 then [byte_of_Z c]
  else if c <=? 2047 then [byte_of_Z (192 + c / 64); byte_of_Z (128 + c mod 64)]
  else if c <=? 65535 then
    [byte_of_Z (224 + c / 4096); byte_of_Z (128 + c / 64 mod 64); byte_of_Z (128 + c mod 64)]
  else
    [byte_of_Z (240 + c / 262144); byte_of_Z (128 + c / 4096 mod 64);
     byte_of_Z (128 + c / 64 mod 64); byte_of_Z (128 + c mod 64)].
Definition as_bytes (s : rstr) : bytes := concat (map char_bytes s).

Definition continuation (b : Byte.byte) : option Z :=
  let n := byte_to_Z b in
  if (128 <=? n) && (n <=? 191) then Some (n - 128) else None.

(** [String::from_utf8]: [None] for bytes that are not UTF-8; overlong forms, surrogates and
    values above U+10FFFF are not. *)
Fixpoint from_utf8 (b : bytes) : option rstr :=
  match b with
  | [] => Some []
  | b0 :: rest =>
      let n := byte_to_Z b0 in
      if n <=? 127 then cons n <$> from_utf8 rest
      else if (194 <=? n) && (n <=? 223) then
        match rest with
        | b1 :: rest => x ← continuation b1; cons ((n - 192) * 64 + x) <$> from_utf8 rest
        | _ => None
        end
      else if (224 <=? n) && (n <=? 239) then
        match rest with
        | b1 :: b2 :: rest =>
            x ← continuation b1; y ← continuation b2;
            let c := (n - 224) * 4096 + x * 64 + y in
            if (2048 <=? c) && negb ((55296 <=? c) && (c <=? 57343))
            then cons c <$> from_utf8 rest else None
        | _ => None
        end
      else if (240 <=? n) && (n <=? 244) then
        match rest with
        | b1 :: b2 :: b3 :: rest =>
            x ← continuation b1; y ← continuation b2; z ← continuation b3;
            let c := (n - 240) * 262144 + x * 4096 + y * 64 + z in
            if (65536 <=? c) && (c <=? 1114111) then cons c <$> from_utf8 rest else None
        | _ => None
        end
      else None
  end.

(** ** Lemmas *)

Lemma byte_to_of n : 0 ≤ n < 256 → byte_to_Z (byte_of_Z n) = n.
Proof. intros Hn. rewrite byte_of_Z_to_Z. by apply Z.mod_small. Qed.

Lemma byte_of_to b : byte_of_Z (byte_to_Z b) = b.
Proof.
  unfold byte_of_Z. pose proof (byte_to_Z_bounds b) as Hb. rewrite Z.mod_small by done.
  unfold byte_to_Z. rewrite N2Z.id. by rewrite Byte.of_to_N.
Qed.

Lemma continuation_of x : 0 ≤ x < 64 → continuation (byte_of_Z (128 + x)) = Some x.
Proof.
  intros Hx. unfold continuation. rewrite byte_to_of by lia.
  destruct (Z.leb_spec 128 (128 + x)); [|lia]. destruct (Z.leb_spec (128 + x) 191); [|lia].
  simpl. f_equal. lia.
Qed.

Lemma continuation_Some b x :
  continuation b = Some x → 0 ≤ x < 64 ∧ b = byte_of_Z (128 + x).
Proof.
  unfold continuation. intros H.
  destruct (Z.leb_spec 128 (byte_to_Z b)); [|done].
  destruct (Z.leb_spec (byte_to_Z b) 191); [|done]. simpl in H. injection H as <-.
  split; [lia|]. rewrite <- (byte_of_to b) at 1. f_equal. lia.
Qed.

(** The leading byte decides which branch the decoder takes. *)
Ltac decide_lead :=
  repeat match goal with
  | |- context [?a <=? ?b] =>
      first [ rewrite (proj2 (Z.leb_le a b)) by lia
            | rewrite (proj2 (Z.leb_gt a b)) by lia ]
  end; cbn [andb negb].

Lemma from_utf8_char c b :
  is_scalar c → from_utf8 (char_bytes c ++ b) = cons c <$> from_utf8 b.
Proof.
  intros Hc. unfold is_scalar in Hc. unfold char_bytes.
  pose proof (Z.mod_pos_bound c 64 ltac:(lia)).
  pose proof (Z.mod_pos_bound (c / 64) 64 ltac:(lia)).
  pose proof (Z.mod_pos_bound (c / 4096) 64 ltac:(lia)).
  pose proof (Z.div_mod c 64 ltac:(lia)). pose proof (Z.div_mod (c / 64) 64 ltac:(lia)) as H64.
  pose proof (Z.div_mod (c / 4096) 64 ltac:(lia)) as H4096.
  rewrite Z.div_div in H64 by lia. rewrite Z.div_div in H4096 by lia.
  change (64 * 64) with 4096 in H64. change (4096 * 64) with 262144 in H4096.
  destruct (Z.leb_spec c 127).
  { cbn [app from_utf8]. rewrite byte_to_of by lia. by decide_lead. }
  destruct (Z.leb_spec c 2047).
  { cbn [app from_utf8]. rewrite byte_to_of by lia. decide_lead.
    rewrite continuation_of by lia. cbn. replace (_ * 64 + _) with c by lia. done. }
  destruct (Z.leb_spec c 65535).
  { cbn [app from_utf8]. rewrite byte_to_of by lia. decide_lead.
    rewrite !continuation_of by lia. cbn [mbind option_bind]. cbv zeta.
    replace ((224 + c / 4096 - 224) * 4096 + c / 64 mod 64 * 64 + c mod 64) with c by lia.
    destruct (Z.leb_spec 55296 c); decide_lead; done. }
  cbn [app from_utf8]. rewrite byte_to_of by lia. decide_lead.
  rewrite !continuation_of by lia. cbn [mbind option_bind]. cbv zeta.
  replace ((240 + c / 262144 - 240) * 262144 + c / 4096 mod 64 * 4096 + c / 64 mod 64 * 64
           + c mod 64) with c by lia.
  by decide_lead.
Qed.

Lemma from_utf8_as_bytes s : valid_str s → from_utf8 (as_bytes s) = Some s.
Proof.
  induction 1 as [|c s Hc Hs IH]; [done|]. unfold as_bytes. cbn [map concat].
  rewrite from_utf8_char by done. fold (as_bytes s). by rewrite IH.
Qed.

Lemma length_char_bytes c : zlen (char_bytes c) = char_len c.
Proof. unfold char_bytes, char_len. repeat case_match; try done; lia. Qed.

Lemma length_as_bytes s : zlen (as_bytes s) = str_len s.
Proof.
  induction s as [|c s IH]; [done|]. unfold as_bytes. cbn [map concat].
  rewrite zlen_app, length_char_bytes, str_len_cons. fold (as_bytes s). by rewrite IH.
Qed.

(** A character from its bytes, by the number of continuation bytes. *)
Lemma char_bytes_1 n : 0 ≤ n ≤ 127 → char_bytes n = [byte_of_Z n].
Proof. intros Hn. unfold char_bytes. by decide_lead. Qed.

Ltac solve_digits n d :=
  symmetry; first [apply (Z.div_unique_pos _ n _ d) | apply (Z.mod_unique_pos _ n d)]; lia.

Lemma char_bytes_2 a x :
  2 ≤ a < 32 → 0 ≤ x < 64 → char_bytes (a * 64 + x) = [byte_of_Z (192 + a); byte_of_Z (128 + x)].
Proof.
  intros Ha Hx. unfold char_bytes. decide_lead.
  assert ((a * 64 + x) / 64 = a) as -> by (symmetry; apply (Z.div_unique_pos _ 64 a x); lia).
  assert ((a * 64 + x) mod 64 = x) as -> by (symmetry; apply (Z.mod_unique_pos _ 64 a x); lia).
  done.
Qed.

Lemma char_bytes_3 a x y :
  0 ≤ a < 16 → 0 ≤ x < 64 → 0 ≤ y < 64 → 2048 ≤ a * 4096 + x * 64 + y →
  char_bytes (a * 4096 + x * 64 + y)
  = [byte_of_Z (224 + a); byte_of_Z (128 + x); byte_of_Z (128 + y)].
Proof.
  intros Ha Hx Hy Hc. unfold char_bytes. decide_lead.
  set (c := a * 4096 + x * 64 + y) in *.
  assert (c / 4096 = a) as -> by (symmetry; apply (Z.div_unique_pos _ 4096 a (x * 64 + y)); lia).
  assert (c / 64 = a * 64 + x) as -> by (symmetry; apply (Z.div_unique_pos _ 64 _ y); lia).
  assert ((a * 64 + x) mod 64 = x) as -> by (symmetry; apply (Z.mod_unique_pos _ 64 a x); lia).
  assert (c mod 64 = y) as -> by (symmetry; apply (Z.mod_unique_pos _ 64 (a * 64 + x) y); lia).
  done.
Qed.

Lemma char_bytes_4 a x y z :
  0 ≤ a < 8 → 0 ≤ x < 64 → 0 ≤ y < 64 → 0 ≤ z < 64 → 65536 ≤ a * 262144 + x * 4096 + y * 64 + z →
  char_bytes (a * 262144 + x * 4096 + y * 64 + z)
  = [byte_of_Z (240 + a); byte_of_Z (128 + x); byte_of_Z (128 + y); byte_of_Z (128 + z)].
Proof.
  intros Ha Hx Hy Hz Hc. unfold char_bytes. decide_lead.
  set (c := a * 262144 + x * 4096 + y * 64 + z) in *.
  assert (c / 262144 = a) as ->
    by (symmetry; apply (Z.div_unique_pos _ 262144 a (x * 4096 + y * 64 + z)); lia).
  assert (c / 4096 = a * 64 + x) as ->
    by (symmetry; apply (Z.div_unique_pos _ 4096 _ (y * 64 + z)); lia).
  assert ((a * 64 + x) mod 64 = x) as -> by (symmetry; apply (Z.mod_unique_pos _ 64 a x); lia).
  assert (c / 64 = (a * 64 + x) * 64 + y) as -> by (symmetry; apply (Z.div_unique_pos _ 64 _ z); lia).
  assert (((a * 64 + x) * 64 + y) mod 64 = y) as ->
    by (symmetry; apply (Z.mod_unique_pos _ 64 (a * 64 + x) y); lia).
  assert (c mod 64 = z) as ->
    by (symmetry; apply (Z.mod_unique_pos _ 64 ((a * 64 + x) * 64 + y) z); lia).
  done.
Qed.

Lemma lead_byte b k : byte_to_Z b = k + (byte_to_Z b - k) → b = byte_of_Z (k + (byte_to_Z b - k)).
Proof. intros H. rewrite <- H. by rewrite byte_of_to. Qed.

Lemma from_utf8_Some n b s :
  (length b ≤ n)%nat → from_utf8 b = Some s → valid_str s ∧ as_bytes s = b.
Proof.
  revert b s. induction n as [|n IH]; intros b s Hlen H.
  { destruct b; [|simpl in Hlen; lia]. injection H as <-. by split; [constructor|]. }
  destruct b as [|b0 b]; [injection H as <-; by split; [constructor|]|].
  simpl in Hlen. cbn [from_utf8] in H. cbv zeta in H.
  pose proof (byte_to_Z_bounds b0) as Hb0.
  assert (∀ c rest bs, (length rest ≤ n)%nat → is_scalar c → char_bytes c = bs →
            cons c <$> from_utf8 rest = Some s → valid_str s ∧ as_bytes s = bs ++ rest) as Hcons.
  { intros c rest bs Hr Hc Hbs Hs. apply fmap_Some in Hs as (s' & Hs' & ->).
    apply IH in Hs' as [Hv Hb]; [|done]. split; [by constructor|].
    unfold as_bytes. cbn [map concat]. fold (as_bytes s'). congruence. }
  destruct (Z.leb_spec (byte_to_Z b0) 127).
  { eapply (Hcons _ _ [b0]) in H; [done|lia|unfold is_scalar; lia|].
    rewrite char_bytes_1 by lia. by rewrite byte_of_to. }
  destruct ((194 <=? byte_to_Z b0) && (byte_to_Z b0 <=? 223)) eqn:H2.
  { apply andb_true_iff in H2. rewrite !Z.leb_le in H2. destruct b as [|b1 b]; [done|].
    apply bind_Some in H as (x & Hx & H). apply continuation_Some in Hx as [Hx ->]. simpl in Hlen.
    eapply (Hcons _ _ [b0; _]) in H; [exact H|lia|unfold is_scalar; lia|].
    rewrite char_bytes_2 by lia. rewrite <- (lead_byte b0 192) by lia. done. }
  destruct ((224 <=? byte_to_Z b0) && (byte_to_Z b0 <=? 239)) eqn:H3.
  { apply andb_true_iff in H3. rewrite !Z.leb_le in H3. destruct b as [|b1 [|b2 b]]; [done..|].
    apply bind_Some in H as (x & Hx & H). apply continuation_Some in Hx as [Hx ->].
    apply bind_Some in H as (y & Hy & H). apply continuation_Some in Hy as [Hy ->]. simpl in Hlen.
    case_match eqn:Hc; [|done]. apply andb_true_iff in Hc as [Hc Hsur].
    apply Z.leb_le in Hc. apply negb_true_iff, andb_false_iff in Hsur. rewrite !Z.leb_gt in Hsur.
    eapply (Hcons _ _ [b0; _; _]) in H; [exact H|lia|unfold is_scalar; lia|].
    rewrite char_bytes_3 by lia. rewrite <- (lead_byte b0 224) by lia. done. }
  destruct ((240 <=? byte_to_Z b0) && (byte_to_Z b0 <=? 244)) eqn:H4; [|done].
  apply andb_true_iff in H4. rewrite !Z.leb_le in H4. destruct b as [|b1 [|b2 [|b3 b]]]; [done..|].
  apply bind_Some in H as (x & Hx & H). apply continuation_Some in Hx as [Hx ->].
  apply bind_Some in H as (y & Hy & H). apply continuation_Some in Hy as [Hy ->].
  apply bind_Some in H as (z & Hz & H). apply continuation_Some in Hz as [Hz ->]. simpl in Hlen.
  case_match eqn:Hc; [|done]. apply andb_true_iff in Hc. rewrite !Z.leb_le in Hc.
  eapply (Hcons _ _ [b0; _; _; _]) in H; [exact H|lia|unfold is_scalar; lia|].
  rewrite char_bytes_4 by lia. rewrite <- (lead_byte b0 240) by lia. done.
Qed.

(** Decoding inverts encoding and accepts nothing else. *)
Lemma from_utf8_spec b s : from_utf8 b = Some s ↔ valid_str s ∧ as_bytes s = b.
Proof.
  split; [by apply (from_utf8_Some (length b))|]. intros [Hs <-]. by apply from_utf8_as_bytes.
Qed.
