(* ===== verification/Offer.v ===== *)
(** * Offers: identifiers, descriptors and sources

    Models [crates/meshelf-core/src/model.rs] and [offer.rs]: the identifier newtypes, the
    bounds of an offer, [OfferDescriptor] with its constructor and validation, the preview
    rule, and the match between a stored source and its descriptor.  Identifiers are the
    128-bit values of the [uuid] crate; generating and printing them is that crate's work. *)

From S2P Require Import Prelude RustStr StdIo.

(** ** Identifiers ([model.rs], [offer.rs], [activation.rs]) *)

Record DeviceId := mkDeviceId { DeviceId_as_uuid : Z }.
Record OfferId := mkOfferId { OfferId_as_uuid : Z }.
Record ActivationId := mkActivationId { ActivationId_as_uuid : Z }.

#[export] Instance DeviceId_eq_dec : EqDecision DeviceId.
Proof. solve_decision. Defined.
#[export] Instance OfferId_eq_dec : EqDecision OfferId.
Proof. solve_decision. Defined.
#[export] Instance ActivationId_eq_dec : EqDecision ActivationId.
Proof. solve_decision. Defined.

#[export] Program Instance DeviceId_countable : Countable DeviceId :=
  inj_countable' DeviceId_as_uuid mkDeviceId _.
Next Obligation. by intros []. Qed.
#[export] Program Instance OfferId_countable : Countable OfferId :=
  inj_countable' OfferId_as_uuid mkOfferId _.
Next Obligation. by intros []. Qed.
#[export] Program Instance ActivationId_countable : Countable ActivationId :=
  inj_countable' ActivationId_as_uuid mkActivationId _.
Next Obligation. by intros []. Qed.

(** ** Constants *)

Definition PROTOCOL_VERSION : Z := 2.
Definition MAX_TEXT_BYTES : Z := 1024 * 1024.
Definition MAX_CONTROL_REQUEST_BYTES : Z := MAX_TEXT_BYTES * 6 + 16 * 1024.
Definition MAX_OFFER_PREVIEW_BYTES : Z := 256.
Definition MAX_OFFER_FILE_BYTES : Z := 8 * 1024 * 1024 * 1024.
Definition MAX_OFFER_TRANSFER_BYTES : Z := 16 * 1024 * 1024 * 1024.
Definition MAX_OFFER_MANIFEST_ENTRIES : Z := 4096.
Definition MAX_OFFER_PORTABLE_COMPONENT_BYTES : Z := 255.
Definition V2_MAX_LIVE_ENTRIES : Z := 10.
Definition MAX_OFFER_ATTEMPT_DETAIL_BYTES : Z := 512.

Inductive ContentKind := Kind_Text | Kind_Path | Kind_File | Kind_Folder.
#[export] Instance ContentKind_eq_dec : EqDecision ContentKind.
Proof. solve_decision. Defined.

Inductive CardAvailability := Available | SourceUnavailable | SourceChanged.
#[export] Instance CardAvailability_eq_dec : EqDecision CardAvailability.
Proof. solve_decision. Defined.

(** ** Descriptors *)

Inductive OfferDescriptor :=
| Descriptor_Text (utf8_bytes line_count : Z) (preview : rstr)
| Descriptor_File (root_name : rstr) (total_bytes : Z)
| Descriptor_Folder (root_name : rstr) (total_bytes entry_count file_count directory_count : Z).
#[export] Instance OfferDescriptor_eq_dec : EqDecision OfferDescriptor.
Proof. solve_decision. Defined.

#[export] Program Instance OfferDescriptor_countable : Countable OfferDescriptor :=
  inj_countable'
    (λ d, match d with
          | Descriptor_Text b n p => inl (b, n, p)
          | Descriptor_File r b => inr (inl (r, b))
          | Descriptor_Folder r b e f n => inr (inr (r, b, e, f, n))
          end : Z * Z * rstr + (rstr * Z + rstr * Z * Z * Z * Z))
    (λ s, match s with
          | inl (b, n, p) => Descriptor_Text b n p
          | inr (inl (r, b)) => Descriptor_File r b
          | inr (inr (r, b, e, f, n)) => Descriptor_Folder r b e f n
          end) _.
Next Obligation. by intros []. Qed.

Inductive OfferDescriptorError :=
| EmptyText
| TextTooLarge (bytes maximum : Z)
| TextByteCountOverflow
| LineCountOverflow
| EmptyLineCount
| PreviewTooLarge (bytes maximum : Z)
| PreviewContainsControl
| EmptyRootName
| RootNameIsPath
| RootNameContainsControl
| RootNameTooLarge (bytes maximum : Z)
| FileTooLarge (bytes maximum : Z)
| TransferTooLarge (bytes maximum : Z)
| TooManyEntries (entries maximum : Z)
| EntryCountMismatch (entries files directories : Z).
#[export] Instance OfferDescriptorError_eq_dec : EqDecision OfferDescriptorError.
Proof. solve_decision. Defined.

(** The [Display] text of an error, as [#[error(..)]] spells it. *)
Definition descriptor_error_to_string (e : OfferDescriptorError) : rstr :=
  match e with
  | EmptyText => str "text is empty"
  | TextTooLarge b m =>
      str "text is " ++ show_int b ++ str " bytes; maximum is " ++ show_int m
  | TextByteCountOverflow => str "text byte count cannot be represented as u32"
  | LineCountOverflow => str "text line count cannot be represented as u32"
  | EmptyLineCount => str "text descriptor has zero lines"
  | PreviewTooLarge b m =>
      str "text preview is " ++ show_int b ++ str " bytes; maximum is " ++ show_int m
  | PreviewContainsControl => str "text preview contains a control character"
  | EmptyRootName => str "root name is empty"
  | RootNameIsPath => str "root name is a path rather than a basename"
  | RootNameContainsControl => str "root name contains a control character"
  | RootNameTooLarge b m =>
      str "root name is " ++ show_int b ++ str " bytes; maximum is " ++ show_int m
  | FileTooLarge b m =>
      str "file is " ++ show_int b ++ str " bytes; maximum is " ++ show_int m
  | TransferTooLarge b m =>
      str "transfer is " ++ show_int b ++ str " bytes; maximum is " ++ show_int m
  | TooManyEntries n m =>
      str "folder has " ++ show_int n ++ str " entries; maximum is " ++ show_int m
  | EntryCountMismatch n f d =>
      str "folder entry count " ++ show_int n ++ str " does not equal file count "
      ++ show_int f ++ str " plus directory count " ++ show_int d
  end.

Definition validate_root_name (root_name : rstr) : result OfferDescriptorError () :=
  refuse_if (bool_decide (root_name = [])) EmptyRootName;;
  refuse_if (bool_decide (root_name = str ".") || bool_decide (root_name = str "..")
             || contains_char 47 root_name || contains_char 92 root_name) RootNameIsPath;;
  refuse_if (existsb is_control root_name) RootNameContainsControl;;
  refuse_if (MAX_OFFER_PORTABLE_COMPONENT_BYTES <? str_len root_name)
    (RootNameTooLarge (str_len root_name) MAX_OFFER_PORTABLE_COMPONENT_BYTES).

(** [OfferDescriptor::validate] *)
Definition descriptor_validate (d : OfferDescriptor) : result OfferDescriptorError () :=
  match d with
  | Descriptor_Text utf8_bytes line_count preview =>
      refuse_if (utf8_bytes =? 0) EmptyText;;
      refuse_if (MAX_TEXT_BYTES <? utf8_bytes) (TextTooLarge utf8_bytes MAX_TEXT_BYTES);;
      refuse_if (line_count =? 0) EmptyLineCount;;
      refuse_if (MAX_OFFER_PREVIEW_BYTES <? str_len preview)
        (PreviewTooLarge (str_len preview) MAX_OFFER_PREVIEW_BYTES);;
      refuse_if (existsb is_control preview) PreviewContainsControl
  | Descriptor_File root_name total_bytes =>
      validate_root_name root_name;;
      refuse_if (MAX_OFFER_FILE_BYTES <? total_bytes)
        (FileTooLarge total_bytes MAX_OFFER_FILE_BYTES)
  | Descriptor_Folder root_name total_bytes entry_count file_count directory_count =>
      validate_root_name root_name;;
      refuse_if (MAX_OFFER_MANIFEST_ENTRIES <? entry_count)
        (TooManyEntries entry_count MAX_OFFER_MANIFEST_ENTRIES);;
      refuse_if (MAX_OFFER_TRANSFER_BYTES <? total_bytes)
        (TransferTooLarge total_bytes MAX_OFFER_TRANSFER_BYTES);;
      refuse_if (negb (bool_decide
        (checked_add U32_MAX file_count directory_count = Some entry_count)))
        (EntryCountMismatch entry_count file_count directory_count)
  end.

Definition descriptor_is_text (d : OfferDescriptor) : bool :=
  match d with Descriptor_Text _ _ _ => true | _ => false end.

(** The loop of [OfferDescriptor::preview]: line terminators become one space unless a space
    was just pushed, other control characters are dropped. *)
Definition preview_push (normalized : rstr) (character : Z) : rstr :=
  if (character =? 10) || (character =? 13) then
    if ends_with_char 32 normalized then normalized else normalized ++ [32]
  else if is_control character then normalized
  else normalized ++ [character].

Definition preview_normalize (text : rstr) : rstr := foldl preview_push [] text.

(** [OfferDescriptor::preview]; the truncation index is a boundary, so [None] (the panic of
    [String::truncate]) does not occur ([preview_no_panic]). *)
Definition preview (text : rstr) : rstr :=
  let normalized := preview_normalize text in
  let end_ := Z.min (str_len normalized) MAX_OFFER_PREVIEW_BYTES in
  let end_ := Z.of_nat (floor_boundary normalized (Z.to_nat end_)) in
  default [] (str_truncate normalized end_).

(** [OfferDescriptor::text] *)
Definition descriptor_text (text : rstr) : result OfferDescriptorError OfferDescriptor :=
  let utf8_bytes := str_len text in
  refuse_if (utf8_bytes =? 0) EmptyText;;
  refuse_if (MAX_TEXT_BYTES <? utf8_bytes) (TextTooLarge utf8_bytes MAX_TEXT_BYTES);;
  line_count ← ok_or (try_from U32_MAX (lines_count text)) LineCountOverflow;
  utf8_bytes ← ok_or (try_from U32_MAX utf8_bytes) TextByteCountOverflow;
  let descriptor := Descriptor_Text utf8_bytes line_count (preview text) in
  descriptor_validate descriptor;;
  mret descriptor.

(** ** Sources *)

(** A host path, as the sequence of its characters; only [is_absolute] is asked of it here,
    and what counts as absolute is the host's rule. *)
Notation PathBuf := rstr (only parsing).

Inductive OfferSource :=
| Source_Text (text : rstr)
| Source_File (canonical_path : PathBuf) (metadata_commitment : bytes)
| Source_Folder (canonical_path : PathBuf) (metadata_commitment : bytes).

#[export] Instance OfferSource_eq_dec : EqDecision OfferSource.
Proof. solve_decision. Defined.

Inductive OfferSourceError :=
| DescriptorMismatch
| SourceTextTooLarge (bytes maximum : Z)
| PathNotAbsolute
| MetadataCommitmentWrongLength.
#[export] Instance OfferSourceError_eq_dec : EqDecision OfferSourceError.
Proof. solve_decision. Defined.

Definition source_error_to_string (e : OfferSourceError) : rstr :=
  match e with
  | DescriptorMismatch => str "source does not match its offer descriptor"
  | SourceTextTooLarge b m =>
      str "stored text is " ++ show_int b ++ str " bytes; maximum is " ++ show_int m
  | PathNotAbsolute => str "source path must be absolute"
  | MetadataCommitmentWrongLength => str "metadata commitment must be 32 bytes"
  end.

(** [OfferSource::validate_for]; [is_absolute] is [Path::is_absolute] of the host. *)
Definition source_validate_for (is_absolute : PathBuf → bool)
    (source : OfferSource) (descriptor : OfferDescriptor) : result OfferSourceError () :=
  match source, descriptor with
  | Source_Text text, Descriptor_Text _ _ _ =>
      refuse_if (MAX_TEXT_BYTES <? str_len text)
        (SourceTextTooLarge (str_len text) MAX_TEXT_BYTES);;
      expected ← map_err (λ _, DescriptorMismatch) (descriptor_text text);
      if bool_decide (expected = descriptor) then Ok () else Err DescriptorMismatch
  | Source_File path commitment, Descriptor_File _ _
  | Source_Folder path commitment, Descriptor_Folder _ _ _ _ _ =>
      refuse_if (negb (is_absolute path)) PathNotAbsolute;;
      refuse_if (negb (zlen commitment =? 32)) MetadataCommitmentWrongLength
  | _, _ => Err DescriptorMismatch
  end.

(** ** Correctness of descriptors *)

Definition control_free (s : rstr) : Prop := Forall (λ c, is_control c = false) s.

Lemma existsb_is_control s : existsb is_control s = false ↔ control_free s.
Proof.
  unfold control_free. induction s as [|c s IH]; simpl; [by split|].
  rewrite orb_false_iff, Forall_cons, IH. done.
Qed.

Lemma preview_push_control_free acc c : control_free acc → control_free (preview_push acc c).
Proof.
  unfold control_free, preview_push. intros Hacc. repeat case_match; try done;
    apply Forall_app; (split; [done | by repeat constructor]).
Qed.

Lemma preview_normalize_control_free text : control_free (preview_normalize text).
Proof.
  unfold preview_normalize. assert (Hnil : control_free []) by constructor. revert Hnil.
  generalize (@nil Z) as acc. induction text as [|c text IH]; intros acc Hacc; simpl; [done|].
  by apply IH, preview_push_control_free.
Qed.

(** A control-free text is its own normal form. *)
Lemma preview_normalize_id text : control_free text → preview_normalize text = text.
Proof.
  unfold preview_normalize, control_free. intros H.
  enough (∀ acc, foldl preview_push acc text = acc ++ text) as -> by done.
  induction H as [|c text Hc _ IH]; intros acc; simpl; [by rewrite app_nil_r|].
  rewrite IH. unfold preview_push. rewrite Hc.
  destruct (Z.eqb_spec c 10) as [->|]; [done|].
  destruct (Z.eqb_spec c 13) as [->|]; [done|]. simpl. by rewrite <- app_assoc.
Qed.

Definition preview_end (text : rstr) : Z :=
  Z.of_nat (floor_boundary (preview_normalize text)
    (Z.to_nat (Z.min (str_len (preview_normalize text)) MAX_OFFER_PREVIEW_BYTES))).

(** The truncation in [preview] never panics, and cuts a prefix of exactly [preview_end]
    bytes. *)
Lemma preview_no_panic text :
  str_truncate (preview_normalize text) (preview_end text) = Some (preview text) ∧
  str_len (preview text) = preview_end text ∧
  ∃ rest, preview_normalize text = preview text ++ rest.
Proof.
  pose proof (floor_boundary_is_boundary (preview_normalize text)
    (Z.to_nat (Z.min (str_len (preview_normalize text)) MAX_OFFER_PREVIEW_BYTES))) as Hb.
  fold (preview_end text) in Hb. apply is_char_boundary_prefix in Hb as [p Hp].
  assert (str_truncate (preview_normalize text) (preview_end text) = Some p) as Ht.
  { unfold str_truncate. destruct (Z.leb_spec (str_len (preview_normalize text)) (preview_end text)); [|done].
    apply str_prefix_Some in Hp as [Hlen [rest Hrest]]. f_equal. rewrite Hrest in *.
    rewrite str_len_app in *. pose proof (str_len_nonneg rest).
    assert (rest = []) as -> by (apply str_len_zero; lia). by rewrite app_nil_r. }
  assert (preview text = p) as ->.
  { unfold preview. fold (preview_end text). by rewrite Ht. }
  split; [done|]. by apply str_prefix_Some in Hp.
Qed.

Lemma preview_end_bounds text :
  0 ≤ preview_end text ≤ Z.min (str_len (preview_normalize text)) MAX_OFFER_PREVIEW_BYTES.
Proof.
  unfold preview_end. pose proof (str_len_nonneg (preview_normalize text)).
  pose proof (floor_boundary_le (preview_normalize text)
    (Z.to_nat (Z.min (str_len (preview_normalize text)) MAX_OFFER_PREVIEW_BYTES))).
  unfold MAX_OFFER_PREVIEW_BYTES in *. lia.
Qed.

Lemma preview_Ok text :
  str_len (preview text) ≤ MAX_OFFER_PREVIEW_BYTES ∧
  control_free (preview text) ∧
  (∃ rest, preview_normalize text = preview text ++ rest ∧
    (rest = [] ∨ MAX_OFFER_PREVIEW_BYTES - 4 < str_len (preview text))).
Proof.
  pose proof (preview_no_panic text) as (_ & Hlen & rest & Hrest).
  pose proof (preview_end_bounds text) as Hend.
  split; [lia|]. split.
  { pose proof (preview_normalize_control_free text) as Hc. unfold control_free in *.
    rewrite Hrest in Hc. by apply Forall_app in Hc as [? _]. }
  exists rest. split; [done|].
  destruct (decide (rest = [])) as [|Hne]; [by left | right].
  apply str_len_pos in Hne. rewrite Hlen.
  assert (MAX_OFFER_PREVIEW_BYTES < str_len (preview_normalize text)) as Hlong.
  { apply Z.nle_gt. intros Hle. unfold preview_end in Hlen.
    rewrite Z.min_l, floor_boundary_len in Hlen by done.
    rewrite Hrest, str_len_app in Hlen. lia. }
  unfold preview_end. rewrite Z.min_r by lia.
  destruct (floor_boundary_gap (preview_normalize text) (Z.to_nat MAX_OFFER_PREVIEW_BYTES))
    as [Hg|Hg]; unfold MAX_OFFER_PREVIEW_BYTES in *; lia.
Qed.

(** The preview is a control-free prefix of the normalised text, at most 256 bytes long,
    and it is the whole normalised text unless fewer than four more bytes would fit. *)
Theorem preview_correct text :
  str_len (preview text) ≤ MAX_OFFER_PREVIEW_BYTES ∧
  control_free (preview text) ∧
  (∃ rest, preview_normalize text = preview text ++ rest ∧
    (rest = [] ∨ MAX_OFFER_PREVIEW_BYTES - 4 < str_len (preview text))).
Proof. apply preview_Ok. Qed.

Lemma lines_count_bounds text : text ≠ [] → 1 ≤ lines_count text ≤ zlen text.
Proof.
  induction text as [|c text IH]; [done | intros _]. rewrite zlen_cons. simpl.
  destruct text as [|d text]; [change (zlen []) with 0; case_match; simpl; lia|].
  specialize (IH ltac:(done)). case_match; lia.
Qed.

(** What [descriptor_validate] accepts. *)
Definition root_name_ok (name : rstr) : Prop :=
  name ≠ [] ∧ name ≠ str "." ∧ name ≠ str ".." ∧ 47 ∉ name ∧ 92 ∉ name ∧
  control_free name ∧ str_len name ≤ MAX_OFFER_PORTABLE_COMPONENT_BYTES.

Definition descriptor_ok (d : OfferDescriptor) : Prop :=
  match d with
  | Descriptor_Text bytes lines preview =>
      bytes ≠ 0 ∧ bytes ≤ MAX_TEXT_BYTES ∧ lines ≠ 0 ∧
      str_len preview ≤ MAX_OFFER_PREVIEW_BYTES ∧ control_free preview
  | Descriptor_File name total => root_name_ok name ∧ total ≤ MAX_OFFER_FILE_BYTES
  | Descriptor_Folder name total entries files directories =>
      root_name_ok name ∧ entries ≤ MAX_OFFER_MANIFEST_ENTRIES ∧
      total ≤ MAX_OFFER_TRANSFER_BYTES ∧ files + directories = entries
  end.

Lemma validate_root_name_spec name : validate_root_name name = Ok () ↔ root_name_ok name.
Proof.
  unfold validate_root_name, root_name_ok. rewrite <- existsb_is_control.
  rewrite !refuse_seq_Ok, refuse_if_Ok, !orb_false_iff, !bool_decide_eq_false.
  rewrite !contains_char_false, Z.ltb_ge. tauto.
Qed.

Lemma descriptor_validate_Ok d : descriptor_validate d = Ok () ↔ descriptor_ok d.
Proof.
  destruct d as [bytes lines preview|name total|name total entries files directories]; simpl.
  - rewrite <- existsb_is_control, !refuse_seq_Ok, refuse_if_Ok.
    rewrite !Z.eqb_neq, !Z.ltb_ge. tauto.
  - rewrite unit_seq_Ok, refuse_if_Ok, Z.ltb_ge, validate_root_name_spec. tauto.
  - rewrite unit_seq_Ok, !refuse_seq_Ok, refuse_if_Ok, !Z.ltb_ge, negb_false_iff.
    rewrite bool_decide_eq_true, checked_add_Some, validate_root_name_spec.
    assert (MAX_OFFER_MANIFEST_ENTRIES ≤ U32_MAX) by done.
    intuition lia.
Qed.

(** Validation accepts exactly the well-formed descriptors; a folder's entry count must be
    the exact sum of its file and directory counts, so no wrapped sum is accepted. *)
Theorem descriptor_validate_spec d : descriptor_validate d = Ok () ↔ descriptor_ok d.
Proof. apply descriptor_validate_Ok. Qed.

Lemma descriptor_text_Ok text :
  descriptor_text text =
    if str_len text =? 0 then Err EmptyText
    else if MAX_TEXT_BYTES <? str_len text then Err (TextTooLarge (str_len text) MAX_TEXT_BYTES)
    else Ok (Descriptor_Text (str_len text) (lines_count text) (preview text)).
Proof.
  unfold descriptor_text. destruct (Z.eqb_spec (str_len text) 0) as [|H0]; [done|].
  destruct (Z.ltb_spec MAX_TEXT_BYTES (str_len text)) as [|H1]; [done|].
  pose proof (str_len_nonneg text). pose proof (length_le_str_len text).
  assert (text ≠ []) as Hne by (apply str_len_pos; lia).
  pose proof (lines_count_bounds text Hne) as Hl.
  assert (MAX_TEXT_BYTES ≤ U32_MAX) by done.
  assert (descriptor_validate (Descriptor_Text (str_len text) (lines_count text) (preview text))
    = Ok ()) as Hv.
  { pose proof (preview_Ok text) as (Hp & Hc & _). apply descriptor_validate_Ok.
    simpl. repeat split; [done | done | lia | done | done]. }
  cbn -[descriptor_validate try_from U32_MAX].
  rewrite (proj2 (try_from_Some U32_MAX (lines_count text) (lines_count text))) by lia.
  rewrite (proj2 (try_from_Some U32_MAX (str_len text) (str_len text))) by lia.
  cbn -[descriptor_validate]. by rewrite Hv.
Qed.

(** A text of 1 to 1 MiB bytes always yields a descriptor, which carries its exact length,
    its line count and its preview and passes validation; every other text is refused with the
    error of its size. *)
Theorem descriptor_text_spec text :
  descriptor_text text =
    if str_len text =? 0 then Err EmptyText
    else if MAX_TEXT_BYTES <? str_len text then Err (TextTooLarge (str_len text) MAX_TEXT_BYTES)
    else Ok (Descriptor_Text (str_len text) (lines_count text) (preview text)).
Proof. apply descriptor_text_Ok. Qed.

(** A stored text source matches a text descriptor only if the descriptor is the one the
    text itself produces; file and folder sources need an absolute path and a 32-byte
    commitment, and a source never matches a descriptor of another kind. *)
Theorem source_validate_for_spec is_absolute source d :
  source_validate_for is_absolute source d = Ok () ↔
  match source, d with
  | Source_Text text, Descriptor_Text _ _ _ => descriptor_text text = Ok d
  | Source_File path commitment, Descriptor_File _ _
  | Source_Folder path commitment, Descriptor_Folder _ _ _ _ _ =>
      is_absolute path = true ∧ zlen commitment = 32
  | _, _ => False
  end.
Proof.
  destruct source as [text|path commitment|path commitment], d; simpl; try done;
    rewrite refuse_seq_Ok, ?refuse_if_Ok, ?negb_false_iff, ?Z.eqb_eq; [|done..].
  rewrite descriptor_text_Ok, bind_Ok. setoid_rewrite map_err_Ok.
  rewrite Z.ltb_ge. split.
  - intros (_ & e & He & Hd). case_bool_decide; by subst.
  - intros Ht. destruct (str_len text =? 0); [done|].
    destruct (Z.ltb_spec MAX_TEXT_BYTES (str_len text)) as [|Hlen]; [done|].
    split; [done|]. eexists. split; [done|]. injection Ht as <- <- <-.
    by rewrite bool_decide_eq_true_2.
Qed.
