(* ===== verification/Records.v ===== *)
(** * Records of the domain crate

    Models [crates/meshelf-core/src/store.rs], [activation.rs], [settings.rs] and
    [receiver.rs]: the values the store keeps, the inputs and reports of its operations, the
    activation journal, the settings and the clipboard error, with the validation each type
    carries. *)

From S2P Require Import Prelude RustStr Offer.

(** ** [store.rs] *)

Record StoreError := mkStoreError { store_error_message : rstr }.
#[export] Instance StoreError_eq_dec : EqDecision StoreError.
Proof. solve_decision. Defined.

(** Its [Display]. *)
Definition store_error_to_string (e : StoreError) : rstr :=
  str "store error: " ++ store_error_message e.

Record OfferSourceRecord := mkOfferSourceRecord {
  src_offer_id : OfferId;
  src_descriptor : OfferDescriptor;
  src_creation_sequence : Z;
  src_announced_to : gset DeviceId;
  src_source : OfferSource;
}.
#[export] Instance OfferSourceRecord_eq_dec : EqDecision OfferSourceRecord.
Proof. solve_decision. Defined.

Record OfferSourceInput := mkOfferSourceInput {
  in_offer_id : OfferId;
  in_descriptor : OfferDescriptor;
  in_announced_to : gset DeviceId;
  in_source : OfferSource;
}.

Record OfferSourceInsert := mkOfferSourceInsert {
  si_record : OfferSourceRecord;
  si_inserted : bool;
  si_purged : Z;
}.

Record OfferEligibilityUpdate := mkOfferEligibilityUpdate {
  recipient_was_eligible : bool;
  offer_deleted : bool;
  remaining_recipients : Z;
}.

Inductive OfferAttemptCode :=
| Attempt_Completed
| Attempt_SourceUnavailable
| Attempt_SourceChanged
| Attempt_Busy
| Attempt_Cancelled
| Attempt_ClipboardFailed
| Attempt_VerificationFailed
| Attempt_UncertainNoReplay
| Attempt_Failed.
#[export] Instance OfferAttemptCode_eq_dec : EqDecision OfferAttemptCode.
Proof. solve_decision. Defined.

Record OfferAttemptStatus := mkOfferAttemptStatus {
  attempt_code : OfferAttemptCode;
  attempt_sequence : Z;
  attempt_files_processed : Z;
  attempt_bytes_processed : Z;
  attempt_detail : option rstr;
}.
#[export] Instance OfferAttemptStatus_eq_dec : EqDecision OfferAttemptStatus.
Proof. solve_decision. Defined.

(** [detail.as_ref().is_some_and(|value| value.len() > maximum)] *)
Definition detail_too_large (maximum : Z) (detail : option rstr) : bool :=
  match detail with Some value => maximum <? str_len value | None => false end.

(** [OfferAttemptStatus::new] *)
Definition attempt_status_new (code : OfferAttemptCode) (sequence files bytes : Z)
    (detail : option rstr) : result StoreError OfferAttemptStatus :=
  refuse_if (detail_too_large MAX_OFFER_ATTEMPT_DETAIL_BYTES detail)
    (mkStoreError (str "offer attempt detail is too large"));;
  Ok (mkOfferAttemptStatus code sequence files bytes detail).

Record OfferCardRecord := mkOfferCardRecord {
  card_source_device : DeviceId;
  card_offer_id : OfferId;
  card_descriptor : OfferDescriptor;
  card_received_sequence : Z;
  card_availability : CardAvailability;
  card_last_attempt : option OfferAttemptStatus;
}.
#[export] Instance OfferCardRecord_eq_dec : EqDecision OfferCardRecord.
Proof. solve_decision. Defined.

Record OfferCardInput := mkOfferCardInput {
  ci_source_device : DeviceId;
  ci_offer_id : OfferId;
  ci_descriptor : OfferDescriptor;
  ci_availability : CardAvailability;
}.

Record OfferCardInsert := mkOfferCardInsert {
  ic_record : OfferCardRecord;
  ic_inserted : bool;
  ic_purged : Z;
}.

Record CleanupReport := mkCleanupReport {
  journaled_entries : Z;
  removed_entries : Z;
}.

Record MigrationReport := mkMigrationReport {
  v1_body_records_removed : Z;
  partials_directory_removed : bool;
  completion_markers_removed : Z;
}.

(** [OfferSourceInput::validate] and [OfferCardInput::validate] *)
Definition source_input_validate (is_absolute : PathBuf → bool) (input : OfferSourceInput)
    : result StoreError () :=
  map_err (λ e, mkStoreError (descriptor_error_to_string e))
    (descriptor_validate (in_descriptor input));;
  map_err (λ e, mkStoreError (source_error_to_string e))
    (source_validate_for is_absolute (in_source input) (in_descriptor input)).

Definition card_input_validate (input : OfferCardInput) : result StoreError () :=
  map_err (λ e, mkStoreError (descriptor_error_to_string e))
    (descriptor_validate (ci_descriptor input)).

(** ** [activation.rs] *)

Inductive ActivationState :=
| State_Requested
| State_Planning
| State_Staging
| State_Transferring
| State_Verified
| State_Publishing
| State_ApplyingClipboard
| State_Completed
| State_Failed
| State_Cancelled
| State_UncertainNoReplay.
#[export] Instance ActivationState_eq_dec : EqDecision ActivationState.
Proof. solve_decision. Defined.

(** [ActivationState::is_uncertain_side_effect] *)
Definition is_uncertain_side_effect (state : ActivationState) : bool :=
  match state with State_UncertainNoReplay | State_ApplyingClipboard => true | _ => false end.

Inductive ActivationMode := Mode_Clipboard | Mode_Save.
#[export] Instance ActivationMode_eq_dec : EqDecision ActivationMode.
Proof. solve_decision. Defined.

Record ActivationJournalEntry := mkActivationJournalEntry {
  je_activation_id : ActivationId;
  je_source_device : DeviceId;
  je_offer_id : OfferId;
  je_mode : ActivationMode;
  je_staging_root : PathBuf;
  je_state : ActivationState;
  je_reserved_entries : Z;
  je_reserved_bytes : Z;
}.
#[export] Instance ActivationJournalEntry_eq_dec : EqDecision ActivationJournalEntry.
Proof. solve_decision. Defined.

Definition journal_entry_validate (is_absolute : PathBuf → bool)
    (entry : ActivationJournalEntry) : result StoreError () :=
  refuse_if (negb (is_absolute (je_staging_root entry)))
    (mkStoreError (str "staging root must be absolute")).

Inductive ClipboardCacheState := Cache_InFlight | Cache_Completed.
#[export] Instance ClipboardCacheState_eq_dec : EqDecision ClipboardCacheState.
Proof. solve_decision. Defined.

Record ClipboardCacheRecord := mkClipboardCacheRecord {
  cc_activation_id : ActivationId;
  cc_state : ClipboardCacheState;
  cc_payload_path : PathBuf;
}.
#[export] Instance ClipboardCacheRecord_eq_dec : EqDecision ClipboardCacheRecord.
Proof. solve_decision. Defined.

Definition cache_record_validate (is_absolute : PathBuf → bool)
    (record : ClipboardCacheRecord) : result StoreError () :=
  refuse_if (negb (is_absolute (cc_payload_path record)))
    (mkStoreError (str "clipboard cache path must be absolute")).

(** ** [settings.rs] *)

Inductive SaveDestination := Downloads | Custom (path : PathBuf).
#[export] Instance SaveDestination_eq_dec : EqDecision SaveDestination.
Proof. solve_decision. Defined.

Record UserSettings := mkUserSettings {
  schema_version : Z;
  save_destination : SaveDestination;
}.
#[export] Instance UserSettings_eq_dec : EqDecision UserSettings.
Proof. solve_decision. Defined.

(** [SaveDestination::custom], and the check [deserialize_absolute_path] makes on a path
    read from the state file. *)
Definition save_destination_custom (is_absolute : PathBuf → bool) (path : PathBuf)
    : result rstr SaveDestination :=
  if is_absolute path then Ok (Custom path)
  else Err (str "custom save destination must be absolute").
Definition deserialize_absolute_path (is_absolute : PathBuf → bool) (path : PathBuf)
    : result rstr PathBuf :=
  if is_absolute path then Ok path
  else Err (str "custom save destination must be absolute").
Definition save_destination_path (d : SaveDestination) : option PathBuf :=
  match d with Downloads => None | Custom path => Some path end.
Definition settings_default : UserSettings := mkUserSettings 1 Downloads.

(** ** [receiver.rs] *)

Record ClipboardError := mkClipboardError {
  clipboard_error_message : rstr;
  clipboard_error_uncertain : bool;
}.
Definition clipboard_error_new (message : rstr) : ClipboardError :=
  mkClipboardError message false.
Definition clipboard_error_as_uncertain (message : rstr) : ClipboardError :=
  mkClipboardError message true.

(** ** Lemmas *)

Lemma attempt_status_new_Ok code seq files bytes detail s :
  attempt_status_new code seq files bytes detail = Ok s ↔
  s = mkOfferAttemptStatus code seq files bytes detail ∧
  detail_too_large MAX_OFFER_ATTEMPT_DETAIL_BYTES detail = false.
Proof. unfold attempt_status_new. rewrite refuse_seq_Ok. naive_solver. Qed.

Lemma source_input_validate_spec is_absolute input :
  source_input_validate is_absolute input = Ok () ↔
  descriptor_ok (in_descriptor input) ∧
  source_validate_for is_absolute (in_source input) (in_descriptor input) = Ok ().
Proof.
  unfold source_input_validate. rewrite unit_seq_Ok, !map_err_Ok, descriptor_validate_Ok.
  done.
Qed.

Lemma card_input_validate_spec input :
  card_input_validate input = Ok () ↔ descriptor_ok (ci_descriptor input).
Proof. unfold card_input_validate. by rewrite map_err_Ok, descriptor_validate_Ok. Qed.

(** ** Countability of the card record *)

#[export] Instance CardAvailability_countable : Countable CardAvailability.
Proof.
  refine (inj_countable' (λ a, match a with Available => 0 | SourceUnavailable => 1 | SourceChanged => 2 end)
    (λ n, match n with 0 => Available | 1 => SourceUnavailable | _ => SourceChanged end) _).
  by intros [].
Defined.

#[export] Instance OfferAttemptCode_countable : Countable OfferAttemptCode.
Proof.
  refine (inj_countable'
    (λ c, match c with
          | Attempt_Completed => 0
          | Attempt_SourceUnavailable => 1
          | Attempt_SourceChanged => 2
          | Attempt_Busy => 3
          | Attempt_Cancelled => 4
          | Attempt_ClipboardFailed => 5
          | Attempt_VerificationFailed => 6
          | Attempt_UncertainNoReplay => 7
          | Attempt_Failed => 8
          end)
    (λ n, match n with
          | 0 => Attempt_Completed
          | 1 => Attempt_SourceUnavailable
          | 2 => Attempt_SourceChanged
          | 3 => Attempt_Busy
          | 4 => Attempt_Cancelled
          | 5 => Attempt_ClipboardFailed
          | 6 => Attempt_VerificationFailed
          | 7 => Attempt_UncertainNoReplay
          | _ => Attempt_Failed
          end) _).
  by intros [].
Defined.

#[export] Instance OfferAttemptStatus_countable : Countable OfferAttemptStatus.
Proof.
  refine (inj_countable' (λ s, (attempt_code s, attempt_sequence s, attempt_files_processed s,
                        attempt_bytes_processed s, attempt_detail s))
    (λ '(c, n, f, b, d), mkOfferAttemptStatus c n f b d) _).
  by intros [].
Defined.
#[export] Instance OfferCardRecord_countable : Countable OfferCardRecord.
Proof.
  refine (inj_countable' (λ r, (card_source_device r, card_offer_id r, card_descriptor r,
                        card_received_sequence r, card_availability r, card_last_attempt r))
    (λ '(s, i, d, n, a, l), mkOfferCardRecord s i d n a l) _).
  by intros [].
Defined.
