(* ===== verification/Clipboard.v ===== *)
(** * The clipboard worker

    Models [crates/meshelf-platform/src/clipboard.rs]: the write operations on the native
    clipboard with the classification of their failures, the commands of the worker thread,
    and the handles that submit them.  The native clipboard (the arboard crate) is the class
    [NativeClipboard].  Handles live on many threads; the bounded channel, the response
    channels and the worker thread form a transition system ([worker_step]) in which every
    interleaving of calls, turns of the worker and its death is a run. *)

From S2P Require Import Prelude RustStr StdIo Offer Records.

(** ** Data *)

Inductive ClipboardItem :=
| Item_Text (text : rstr)
| Item_Files (paths : list PathBuf).
#[export] Instance ClipboardItem_eq_dec : EqDecision ClipboardItem.
Proof. solve_decision. Defined.

Record PlatformClipboardError := mkPlatformClipboardError {
  pce_message : rstr;
  pce_uncertain : bool;
}.
Definition platform_error_new (message : rstr) : PlatformClipboardError :=
  mkPlatformClipboardError message false.
Definition platform_error_as_uncertain (message : rstr) : PlatformClipboardError :=
  mkPlatformClipboardError message true.
Definition platform_error_to_string (e : PlatformClipboardError) : rstr :=
  str "platform clipboard error: " ++ pce_message e.

(** [From<PlatformClipboardError> for ClipboardError] *)
Definition clipboard_of_platform (e : PlatformClipboardError) : ClipboardError :=
  if pce_uncertain e then clipboard_error_as_uncertain (platform_error_to_string e)
  else clipboard_error_new (platform_error_to_string e).

Record NativeWriteError := mkNativeWriteError {
  nw_message : rstr;
  nw_native_write_succeeded : bool;
}.
Definition before_mutation (message : rstr) : NativeWriteError := mkNativeWriteError message false.
Definition after_mutation (message : rstr) : NativeWriteError := mkNativeWriteError message true.

(** The two [From<NativeWriteError>] conversions. *)
Definition platform_of_native (e : NativeWriteError) : PlatformClipboardError :=
  if nw_native_write_succeeded e then platform_error_as_uncertain (nw_message e)
  else platform_error_new (nw_message e).
Definition clipboard_of_native (e : NativeWriteError) : ClipboardError :=
  clipboard_of_platform (platform_of_native e).

(** ** The native clipboard *)

Class NativeClipboard (N : Type) := {
  native_set_text : rstr → St N rstr ();
  native_get_text : St N rstr rstr;
  native_clear : St N rstr ();
  native_set_file_list : list PathBuf → St N rstr ();
  native_get_file_list : St N rstr (list PathBuf);
}.

(** What the code relies on: reading does not change the contents, nor does a [clear] that
    fails. *)
Class NativeClipboardLaws (N : Type) `{!NativeClipboard N} := {
  native_contents : N → option ClipboardItem;
  native_get_text_keeps (n : N) :
    native_contents (native_get_text n).2 = native_contents n;
  native_get_file_list_keeps (n : N) :
    native_contents (native_get_file_list n).2 = native_contents n;
  native_clear_fails (n n' : N) e :
    native_clear n = (Err e, n') → native_contents n' = native_contents n;
}.

Section operations.
Context {N : Type} `{!NativeClipboard N}.

Definition require_exact_text (expected observed : rstr) : result rstr () :=
  if bool_decide (observed = expected) then Ok ()
  else Err (str "clipboard text verification failed: wrote " ++ show_int (str_len expected)
            ++ str " UTF-8 bytes but read back " ++ show_int (str_len observed)).

Definition confirm_text_write (readback : result rstr rstr) (expected : rstr)
    : result NativeWriteError () :=
  match readback with
  | Err error => Err (after_mutation (str "clipboard text verification read failed: " ++ error))
  | Ok observed => map_err after_mutation (require_exact_text expected observed)
  end.

Definition write_text_on_native (text : rstr) : St N NativeWriteError () :=
  written ← st_try (native_set_text text);
  match written with
  | Err error => st_err (after_mutation (str "clipboard text write failed: " ++ error))
  | Ok _ =>
      readback ← st_try native_get_text;
      st_lift (confirm_text_write readback text)
  end.
Definition write_text_on (text : rstr) : St N ClipboardError () :=
  st_map_err clipboard_of_native (write_text_on_native text).

Definition write_files_on_native (paths : list PathBuf) : St N NativeWriteError () :=
  if bool_decide (paths = []) then
    st_err (before_mutation (str "cannot place an empty file list on the clipboard"))
  else
    cleared ← st_try native_clear;
    match cleared with
    | Err error => st_err (before_mutation (str "clipboard file clear failed: " ++ error))
    | Ok _ =>
        st_map_err (λ error, after_mutation (str "clipboard file list write failed: " ++ error))
          (native_set_file_list paths)
    end.
Definition write_files_on (paths : list PathBuf) : St N ClipboardError () :=
  st_map_err clipboard_of_native (write_files_on_native paths).

(** The reading arm of [handle_command] and of [clipboard_thread]. *)
Definition read_item_on : St N rstr ClipboardItem :=
  files ← st_try native_get_file_list;
  match files with
  | Ok (path :: paths) => mret (Item_Files (path :: paths))
  | Ok [] | Err _ => text ← native_get_text; mret (Item_Text text)
  end.

(** ** Commands and replies *)

(** The response senders inside the commands are the number of the call. *)
Inductive ClipboardCommand :=
| Command_Read
| Command_Write (text : rstr)
| Command_WriteFiles (paths : list PathBuf)
| Command_Shutdown.
#[export] Instance ClipboardCommand_eq_dec : EqDecision ClipboardCommand.
Proof. solve_decision. Defined.

Inductive Reply :=
| Reply_Item (r : result rstr ClipboardItem)
| Reply_Write (r : result NativeWriteError ()).

(** [handle_command], and the loop body of [clipboard_thread]: what is sent back, or [None]
    when the thread is to stop. *)
Definition handle_command (command : ClipboardCommand) (n : N) : option Reply * N :=
  match command with
  | Command_Read => let '(r, n') := read_item_on n in (Some (Reply_Item r), n')
  | Command_Write text =>
      let '(r, n') := write_text_on_native text n in (Some (Reply_Write r), n')
  | Command_WriteFiles paths =>
      let '(r, n') := write_files_on_native paths n in (Some (Reply_Write r), n')
  | Command_Shutdown => (None, n)
  end.
End operations.

(** ** The handles *)

(** What [try_send] came to, and then what [recv] on the response channel gave: a reply, or
    the error that the sender is gone. *)
Inductive TrySend := Sent | Full | Disconnected.

Definition queued : rstr := str "another clipboard operation is already queued".
Definition no_worker : rstr := str "clipboard worker is unavailable".
(** The [Display] of [RecvError] is the standard library's. *)
Definition worker_stopped : rstr :=
  str "clipboard worker stopped after accepting the operation: "
  ++ str "receiving on a closed channel".

Inductive Answer :=
| Answer_Item (r : result PlatformClipboardError ClipboardItem)
| Answer_Files (r : result PlatformClipboardError ())
| Answer_Text (r : result ClipboardError ()).

(** [request] for [read_item], [set_files] and [set_text]: the refusal of [try_send], and the
    answer after [recv].  The type of the channel gives each call a reply of its own kind. *)
Definition refusal_text (sent : TrySend) : rstr :=
  match sent with Full => queued | _ => no_worker end.
Definition refused (command : ClipboardCommand) (sent : TrySend) : Answer :=
  let error := platform_error_new (refusal_text sent) in
  match command with
  | Command_Write _ => Answer_Text (Err (clipboard_error_new (refusal_text sent)))
  | Command_WriteFiles _ => Answer_Files (Err error)
  | _ => Answer_Item (Err error)
  end.
Definition set_text_error (e : NativeWriteError) : ClipboardError :=
  if nw_native_write_succeeded e then clipboard_error_as_uncertain (nw_message e)
  else clipboard_error_new (nw_message e).
Definition answer (command : ClipboardCommand) (reply : option Reply) : Answer :=
  let stopped := platform_error_as_uncertain worker_stopped in
  match command, reply with
  | Command_Write _, Some (Reply_Write r) => Answer_Text (map_err set_text_error r)
  | Command_Write _, _ => Answer_Text (Err (clipboard_error_as_uncertain worker_stopped))
  | Command_WriteFiles _, Some (Reply_Write r) => Answer_Files (map_err platform_of_native r)
  | Command_WriteFiles _, _ => Answer_Files (Err stopped)
  | _, Some (Reply_Item r) => Answer_Item (map_err platform_error_new r)
  | _, _ => Answer_Item (Err stopped)
  end.

(** [ClipboardSource::read_text], from what [read_item] returned. *)
Definition read_text (item : result PlatformClipboardError ClipboardItem)
    : result PlatformClipboardError rstr :=
  item ← item;
  match item with
  | Item_Text text => Ok text
  | Item_Files paths =>
      Err (platform_error_new (str "clipboard contains " ++ show_int (zlen paths)
                               ++ str " file item(s), not text"))
  end.

(** ** The worker as a transition system *)

(** A call that was accepted, and one turn of the worker: the clipboard before and after it,
    and its reply unless the thread died in it. *)
Definition Call : Type := nat * ClipboardCommand.
Record Turn (N : Type) := mkTurn {
  tu_call : Call;
  tu_before : N;
  tu_after : N;
  tu_reply : option Reply;
}.
Arguments mkTurn {_} _ _ _ _.
Arguments tu_call {_} _.
Arguments tu_before {_} _.
Arguments tu_after {_} _.
Arguments tu_reply {_} _.

(** [wk_waiting] are the calls in [recv]; [wk_handles] says that a handle is left;
    [wk_answered] and [wk_turns] are the history. *)
Record Worker (N : Type) := mkWorker {
  wk_native : N;
  wk_alive : bool;
  wk_handles : bool;
  wk_queue : list Call;
  wk_running : option Call;
  wk_waiting : list Call;
  wk_next : nat;
  wk_answered : list (Call * Answer);
  wk_turns : list (Turn N);
}.
Arguments mkWorker {_} _ _ _ _ _ _ _ _ _.
Arguments wk_native {_} _.
Arguments wk_alive {_} _.
Arguments wk_handles {_} _.
Arguments wk_queue {_} _.
Arguments wk_running {_} _.
Arguments wk_waiting {_} _.
Arguments wk_next {_} _.
Arguments wk_answered {_} _.
Arguments wk_turns {_} _.

(** [ClipboardWorker::new], from what spawning the thread and its first message came to. *)
Inductive Startup (N : Type) :=
| SpawnFails (error : rstr)
| ThreadReady (native : N)
| ThreadNotReady (error : rstr)
| ThreadDied (error : rstr).
Arguments SpawnFails {_} _.
Arguments ThreadReady {_} _.
Arguments ThreadNotReady {_} _.
Arguments ThreadDied {_} _.
Definition worker_new {N} (startup : Startup N) : result PlatformClipboardError (Worker N) :=
  match startup with
  | ThreadReady native => Ok (mkWorker native true true [] None [] 0 [] [])
  | SpawnFails error | ThreadNotReady error | ThreadDied error => Err (platform_error_new error)
  end.

Section worker.
Context {N : Type} `{!NativeClipboard N}.
Implicit Types (w : Worker N) (c : Call).

(** The channel of capacity one: [try_send] fails when a command waits in it, and when the
    thread has dropped its receiver. *)
Definition try_send w : TrySend :=
  if negb (wk_alive w) then Disconnected
  else match wk_queue w with [] => Sent | _ => Full end.

(** A call up to its [recv], or to its refusal. *)
Definition submit (command : ClipboardCommand) w : Worker N :=
  let c := (wk_next w, command) in
  match try_send w with
  | Sent =>
      mkWorker (wk_native w) (wk_alive w) (wk_handles w) (wk_queue w ++ [c]) (wk_running w)
        (c :: wk_waiting w) (S (wk_next w)) (wk_answered w) (wk_turns w)
  | sent =>
      mkWorker (wk_native w) (wk_alive w) (wk_handles w) (wk_queue w) (wk_running w)
        (wk_waiting w) (S (wk_next w)) ((c, refused command sent) :: wk_answered w) (wk_turns w)
  end.

(** The drop of the last handle; [send] waits until there is room, and fails if the thread is
    gone. *)
Definition drop_handles w : Worker N :=
  let c := (wk_next w, Command_Shutdown) in
  mkWorker (wk_native w) (wk_alive w) false
    (if wk_alive w then wk_queue w ++ [c] else wk_queue w) (wk_running w)
    (wk_waiting w) (S (wk_next w)) (wk_answered w) (wk_turns w).

(** The thread takes a command. *)
Definition take_command w c rest : Worker N :=
  mkWorker (wk_native w) (wk_alive w) (wk_handles w) rest (Some c)
    (wk_waiting w) (wk_next w) (wk_answered w) (wk_turns w).

(** It runs it, to its reply or to the end of the loop, which drops the receiver. *)
Definition run_command w c : Worker N :=
  let '(reply, native) := handle_command c.2 (wk_native w) in
  let turns := mkTurn c (wk_native w) native reply :: wk_turns w in
  match reply with
  | Some _ =>
      mkWorker native (wk_alive w) (wk_handles w) (wk_queue w) None
        (wk_waiting w) (wk_next w) (wk_answered w) turns
  | None =>
      mkWorker native false (wk_handles w) [] None
        (wk_waiting w) (wk_next w) (wk_answered w) turns
  end.

(** It panics inside a native call, which leaves the clipboard anyhow; between two commands
    there is no native call. *)
Definition die w c native : Worker N :=
  mkWorker native false (wk_handles w) [] None (wk_waiting w) (wk_next w) (wk_answered w)
    (mkTurn c (wk_native w) native None :: wk_turns w).

(** The turn of a call, and the end of its [recv]. *)
Definition reply_of w c : option Reply :=
  t ← find (λ t, bool_decide (tu_call t = c)) (wk_turns w);
  tu_reply t.
Definition receive_answer w c before after : Worker N :=
  mkWorker (wk_native w) (wk_alive w) (wk_handles w) (wk_queue w) (wk_running w)
    (before ++ after) (wk_next w) ((c, answer c.2 (reply_of w c)) :: wk_answered w) (wk_turns w).

(** The sender of a response is inside its command, in the queue or with the thread. *)
Definition sender_left w c : Prop := c ∈ wk_queue w ∨ wk_running w = Some c.

Inductive progress_step : relation (Worker N) :=
| step_take w c rest :
    wk_alive w = true → wk_running w = None → wk_queue w = c :: rest →
    progress_step w (take_command w c rest)
| step_run w c :
    wk_running w = Some c →
    progress_step w (run_command w c)
| step_receive w c before after :
    wk_waiting w = before ++ c :: after → is_Some (reply_of w c) ∨ ¬ sender_left w c →
    progress_step w (receive_answer w c before after).

Inductive worker_step : relation (Worker N) :=
| step_progress w w' : progress_step w w' → worker_step w w'
| step_submit w command :
    wk_handles w = true → command ≠ Command_Shutdown → worker_step w (submit command w)
| step_drop_handles w :
    wk_handles w = true → wk_waiting w = [] → wk_queue w = [] ∨ wk_alive w = false →
    worker_step w (drop_handles w)
| step_die w c native :
    wk_running w = Some c → worker_step w (die w c native).
End worker.

(** ** What the operations do to the clipboard *)

Section operation_lemmas.
Context {N : Type} `{!NativeClipboard N} `{!NativeClipboardLaws N}.
Implicit Types (n : N).

Lemma write_text_inv text n r n' :
  write_text_on_native text n = (r, n') →
  match r with
  | Ok _ => ∃ n1, native_set_text text n = (Ok (), n1) ∧ native_get_text n1 = (Ok text, n')
  | Err e => nw_native_write_succeeded e = true
  end.
Proof.
  unfold write_text_on_native. intros Hrun. apply st_try_inv in Hrun as (o & n1 & Hset & Hrun).
  destruct o as [[]|error]; [|by injection Hrun as <- <-].
  apply st_try_inv in Hrun as (o & n2 & Hget & Hrun). injection Hrun as <- <-.
  destruct o as [observed|error]; simpl; [|done].
  unfold require_exact_text. case_bool_decide as Heq; simpl; [subst|done]. eauto.
Qed.

Lemma write_files_inv paths n r n' :
  write_files_on_native paths n = (r, n') →
  match r with
  | Ok _ => paths ≠ [] ∧
      ∃ n1, native_clear n = (Ok (), n1) ∧ native_set_file_list paths n1 = (Ok (), n')
  | Err e => nw_native_write_succeeded e = true ∨ native_contents n' = native_contents n
  end.
Proof.
  unfold write_files_on_native. case_bool_decide as Hne.
  { intros [= <- <-]. by right. }
  intros Hrun. apply st_try_inv in Hrun as (o & n1 & Hclear & Hrun).
  destruct o as [[]|error]; [|injection Hrun as <- <-; right; by eapply native_clear_fails].
  apply st_map_err_inv in Hrun as (o & Hlist & ->). destruct o as [[]|error]; simpl; [|by left].
  split; [done|]. by exists n1.
Qed.

Lemma read_item_keeps n : native_contents (read_item_on n).2 = native_contents n.
Proof.
  unfold read_item_on, mbind, st_bind, st_try. pose proof (native_get_file_list_keeps n) as Hl.
  destruct (native_get_file_list n) as [files n1]; simpl in *.
  assert (native_contents (native_get_text n1).2 = native_contents n) as Ht
    by (by rewrite native_get_text_keeps).
  assert (native_contents (let (r, s') := native_get_text n1 in
    match r with Ok text => (Ok (Item_Text text), s') | Err e => (Err e, s') end).2
    = native_contents n) by (by destruct (native_get_text n1) as [[text|e] n2]).
  destruct files as [[|path paths]|e]; simpl; try done.
  all: unfold mret, st_ret; by destruct (native_get_text n1) as [[text|e2] n2].
Qed.

(** What an answer promises about the turn that served the call. *)
Definition definite (a : Answer) : Prop :=
  match a with
  | Answer_Item (Err e) | Answer_Files (Err e) => pce_uncertain e = false
  | Answer_Text (Err e) => clipboard_error_uncertain e = false
  | _ => False
  end.
Definition succeeded (a : Answer) : Prop :=
  match a with
  | Answer_Item (Ok _) | Answer_Files (Ok _) | Answer_Text (Ok _) => True
  | _ => False
  end.
Definition achieved (command : ClipboardCommand) (a : Answer) n n' : Prop :=
  match command with
  | Command_Write text =>
      ∃ n1, native_set_text text n = (Ok (), n1) ∧ native_get_text n1 = (Ok text, n')
  | Command_WriteFiles paths =>
      paths ≠ [] ∧
      ∃ n1, native_clear n = (Ok (), n1) ∧ native_set_file_list paths n1 = (Ok (), n')
  | _ =>
      ∃ item, a = Answer_Item (Ok item) ∧ read_item_on n = (Ok item, n') ∧
        native_contents n' = native_contents n
  end.

Lemma refused_not_succeeded command sent : ¬ succeeded (refused command sent).
Proof. destruct command; exact id. Qed.
Lemma answer_without_reply command :
  ¬ succeeded (answer command None) ∧ ¬ definite (answer command None).
Proof. destruct command; simpl; (split; [exact id|done]). Qed.

(** The answers that a run of a command gives. *)
Lemma handled_definite command n reply n' :
  handle_command command n = (Some reply, n') → definite (answer command (Some reply)) →
  native_contents n' = native_contents n.
Proof.
  destruct command as [|text|paths|]; simpl; [| | |done].
  - pose proof (read_item_keeps n) as Hkeep. destruct (read_item_on n) as [r n1].
    by intros [= <- <-] _.
  - destruct (write_text_on_native text n) as [r n1] eqn:Hrun. apply write_text_inv in Hrun.
    intros [= <- <-]. destruct r as [[]|e]; simpl; [done|]. unfold set_text_error.
    by rewrite Hrun.
  - destruct (write_files_on_native paths n) as [r n1] eqn:Hrun. apply write_files_inv in Hrun.
    intros [= <- <-]. destruct r as [[]|e]; simpl; [done|]. unfold platform_of_native.
    destruct Hrun as [->|Heq]; done.
Qed.
Lemma handled_succeeded command n reply n' :
  handle_command command n = (Some reply, n') → succeeded (answer command (Some reply)) →
  achieved command (answer command (Some reply)) n n'.
Proof.
  destruct command as [|text|paths|]; simpl; [| | |done].
  - pose proof (read_item_keeps n) as Hkeep. destruct (read_item_on n) as [r n1].
    intros [= <- <-]. destruct r as [item|e]; simpl; [|done]. intros _. by exists item.
  - destruct (write_text_on_native text n) as [r n1] eqn:Hrun. apply write_text_inv in Hrun.
    intros [= <- <-]. by destruct r as [[]|e].
  - destruct (write_files_on_native paths n) as [r n1] eqn:Hrun. apply write_files_inv in Hrun.
    intros [= <- <-]. by destruct r as [[]|e].
Qed.
End operation_lemmas.

(** ** The invariant *)

Section invariant.
Context {N : Type} `{!NativeClipboard N} `{!NativeClipboardLaws N}.
Implicit Types (w : Worker N) (c : Call).

(** The commands that reached the thread or are on the way to it, and the calls of clients. *)
Definition served w : list Call :=
  map tu_call (wk_turns w) ++ option_list (wk_running w) ++ wk_queue w.
Definition calls w : list Call := wk_waiting w ++ (wk_answered w).*1.

(** Each turn starts with the clipboard the previous one left. *)
Fixpoint turns_from (start : N) (turns : list (Turn N)) (now : N) : Prop :=
  match turns with
  | [] => now = start
  | t :: earlier => tu_after t = now ∧ turns_from start earlier (tu_before t)
  end.
Definition turn_ok (t : Turn N) : Prop :=
  tu_reply t = None ∨ handle_command (tu_call t).2 (tu_before t) = (tu_reply t, tu_after t).

Definition answered_ok w (e : Call * Answer) : Prop :=
  (∃ sent, e.2 = refused e.1.2 sent ∧ e.1 ∉ served w) ∨
  (e.2 = answer e.1.2 (reply_of w e.1) ∧ ¬ sender_left w e.1).

Record worker_inv (start : N) w : Prop := {
  inv_queue : (length (wk_queue w) ≤ 1)%nat;
  inv_dead : wk_alive w = false → wk_queue w = [] ∧ wk_running w = None;
  inv_served : NoDup (served w).*1;
  inv_calls : NoDup (calls w).*1;
  inv_fresh : ∀ c, c ∈ served w ++ calls w → (c.1 < wk_next w)%nat;
  inv_turns : Forall turn_ok (wk_turns w);
  inv_chain : turns_from start (wk_turns w) (wk_native w);
  inv_answered : Forall (answered_ok w) (wk_answered w);
}.

Lemma served_left w c : c ∈ served w ↔ c ∈ map tu_call (wk_turns w) ∨ sender_left w c.
Proof.
  unfold served, sender_left. rewrite !elem_of_app. destruct (wk_running w); simpl; set_solver.
Qed.

(** Looking up a turn by its call. *)
Lemma reply_of_Some w c reply :
  reply_of w c = Some reply → ∃ t, t ∈ wk_turns w ∧ tu_call t = c ∧ tu_reply t = Some reply.
Proof.
  unfold reply_of. intros (t & Hfind & Hreply)%bind_Some.
  apply find_some in Hfind as [Hin%list_elem_of_In Hc%bool_decide_eq_true]. eauto.
Qed.
Lemma reply_of_other w w' t c :
  wk_turns w' = t :: wk_turns w → tu_call t ≠ c → reply_of w' c = reply_of w c.
Proof. unfold reply_of. intros -> Hne. cbn [find]. by rewrite bool_decide_eq_false_2. Qed.

(** A turn of a call is the only one. *)
Lemma one_turn start w t t' :
  worker_inv start w → t ∈ wk_turns w → t' ∈ wk_turns w → tu_call t = tu_call t' → t = t'.
Proof.
  intros Hinv Ht Ht' Hc. pose proof (inv_served _ _ Hinv) as Hnd.
  unfold served in Hnd. rewrite fmap_app in Hnd. apply NoDup_app in Hnd as [Hnd _].
  revert Hnd Ht Ht'. induction (wk_turns w) as [|u turns IH]; [set_solver|].
  cbn [map fmap list_fmap]. rewrite NoDup_cons. intros [Hu Hnd].
  assert (∀ s, s ∈ turns → tu_call s ≠ tu_call u) as Hne.
  { intros s Hs Heq. apply Hu, list_elem_of_fmap. exists (tu_call s). rewrite <- Heq.
    split; [done|]. by apply list_elem_of_fmap_2. }
  rewrite !elem_of_cons. intros [->|Ht] [->|Ht']; [done| | |by apply IH].
  - by destruct (Hne _ Ht').
  - by destruct (Hne _ Ht).
Qed.

(** The steps that take a command away from those on the way, or turn it into a turn. *)
Lemma inv_turn start w w' c reply native gone :
  worker_inv start w → wk_running w = Some c →
  handle_command c.2 (wk_native w) = (reply, native) ∨ reply = None →
  wk_native w' = native → wk_turns w' = mkTurn c (wk_native w) native reply :: wk_turns w →
  wk_running w' = None → wk_queue w' ++ gone = wk_queue w →
  (wk_alive w' = false → wk_queue w' = []) →
  wk_waiting w' = wk_waiting w → wk_answered w' = wk_answered w → wk_next w' = wk_next w →
  worker_inv start w'.
Proof.
  intros Hinv Hrun Hhandle Hn Ht Hr Hq Ha Hw Han Hnext.
  assert (served w ≡ₚ served w' ++ gone) as Hserved.
  { unfold served. rewrite Hrun, Hr, Ht, <- Hq. simpl. solve_Permutation. }
  assert (calls w' = calls w) as Hcalls by (unfold calls; by rewrite Hw, Han).
  pose proof (inv_served _ _ Hinv) as Hnd. rewrite Hserved, fmap_app in Hnd.
  apply NoDup_app in Hnd as (Hnd & Hgone & _).
  split.
  - etrans; [|apply (inv_queue _ _ Hinv)]. rewrite <- Hq, length_app. lia.
  - intros Hdead. split; [by apply Ha|done].
  - done.
  - rewrite Hcalls. apply (inv_calls _ _ Hinv).
  - intros c' Hc'. rewrite Hnext. apply (inv_fresh _ _ Hinv). rewrite Hserved, <- Hcalls. set_solver.
  - rewrite Ht. constructor; [|apply (inv_turns _ _ Hinv)].
    unfold turn_ok. simpl. destruct Hhandle; auto.
  - rewrite Ht, Hn. simpl. split; [done|]. apply (inv_chain _ _ Hinv).
  - rewrite Han. eapply Forall_impl; [apply (inv_answered _ _ Hinv)|].
    intros [c' a] [(sent & Ha2 & Hout)|[Ha2 Hout]]; cbn [fst snd] in *; subst a.
    + left. exists sent. split; [done|]. intros Hin. apply Hout. rewrite Hserved. set_solver.
    + right. split; [|intros [Hin|Hin]; [|congruence]].
      * cbn [fst snd]. f_equal. symmetry. eapply reply_of_other; [exact Ht|]. simpl. intros ->. apply Hout. by right.
      * apply Hout. left. rewrite <- Hq. set_solver.
Qed.

(** The steps that add a command or a call. *)
Lemma inv_arrival start w w' c gained :
  worker_inv start w → c.1 = wk_next w → wk_next w' = S (wk_next w) →
  wk_native w' = wk_native w → wk_turns w' = wk_turns w → wk_running w' = wk_running w →
  wk_alive w' = wk_alive w → wk_queue w' = wk_queue w ++ gained →
  gained = [] ∨ gained = [c] ∧ wk_queue w = [] ∧ wk_alive w = true →
  calls w' ≡ₚ calls w ∨ calls w' ≡ₚ c :: calls w →
  wk_answered w' = wk_answered w ∨
    gained = [] ∧ (∃ sent, wk_answered w' = (c, refused c.2 sent) :: wk_answered w) →
  worker_inv start w'.
Proof.
  intros Hinv Hid Hnext Hn Ht Hr Ha Hq Hgained Hcalls Hans.
  assert (served w' = served w ++ gained) as Hs.
  { unfold served. by rewrite Ht, Hr, Hq, !app_assoc. }
  assert (∀ x, x ∈ gained → x = c) as Hg by (destruct Hgained as [->|(-> & _)]; set_solver).
  assert (c.1 ∉ (served w ++ calls w).*1) as Hnew.
  { intros (x & Hx & Hin)%list_elem_of_fmap. apply (inv_fresh _ _ Hinv) in Hin.
    rewrite Hid in Hx. lia. }
  rewrite fmap_app, not_elem_of_app in Hnew. destruct Hnew as [Hnews Hnewc].
  assert (c ∉ served w) as Hcs by (intros Hin; apply Hnews; by apply list_elem_of_fmap_2).
  assert (∀ x, x ∈ calls w → x ≠ c) as Hne
    by (intros x Hx ->; apply Hnewc; by apply list_elem_of_fmap_2).
  assert (∀ x, x ∈ calls w → x ∉ served w → x ∉ served w') as Hout.
  { intros x Hx Hnot. rewrite Hs. intros [?|Hin%Hg]%elem_of_app; [done|]. by destruct (Hne x). }
  split.
  - rewrite Hq. destruct Hgained as [->|(-> & -> & _)]; [|simpl; lia].
    rewrite app_nil_r. apply (inv_queue _ _ Hinv).
  - rewrite Ha. intros Hdead. destruct (inv_dead _ _ Hinv Hdead) as [Hq0 Hr0].
    rewrite Hq, Hr, Hq0, Hr0. destruct Hgained as [->|(_ & _ & ?)]; [done|congruence].
  - rewrite Hs, fmap_app. apply NoDup_app. split_and!; [apply (inv_served _ _ Hinv)| |].
    + intros x Hx (y & -> & ->%Hg)%list_elem_of_fmap. done.
    + destruct Hgained as [->|(-> & _)]; [constructor|apply NoDup_singleton].
  - destruct Hcalls as [->| ->]; [apply (inv_calls _ _ Hinv)|]. simpl. constructor; [done|].
    apply (inv_calls _ _ Hinv).
  - intros x Hx. rewrite Hnext. destruct (decide (x = c)) as [->|Hxc]; [lia|].
    enough (x.1 < wk_next w)%nat by lia. apply (inv_fresh _ _ Hinv). rewrite Hs in Hx.
    rewrite !elem_of_app in *. destruct Hx as [[?|?%Hg]|Hx]; [by left|done|right].
    destruct Hcalls as [Hc|Hc]; rewrite Hc in Hx; set_solver.
  - rewrite Ht. apply (inv_turns _ _ Hinv).
  - rewrite Ht, Hn. apply (inv_chain _ _ Hinv).
  - assert (Forall (answered_ok w') (wk_answered w)) as Hold.
    { apply Forall_forall. intros [x a] Hin. assert (x ∈ calls w) as Hx.
      { unfold calls. apply elem_of_app. right. by apply (list_elem_of_fmap_2 fst _ (x, a)). }
      pose proof (inv_answered _ _ Hinv) as Hall. rewrite Forall_forall in Hall.
      destruct (Hall _ Hin) as [(sent & Heq & Hnot)|[Heq Hnot]]; cbn [fst snd] in *; subst a.
      + left. exists sent. split; [done|]. by apply Hout.
      + right. cbn [fst snd]. unfold reply_of. rewrite Ht. split; [done|].
        unfold sender_left. rewrite Hq, Hr, elem_of_app. intros [[?|Hx2%Hg]|?].
        * apply Hnot. by left.
        * by destruct (Hne x).
        * apply Hnot. by right. }
    destruct Hans as [->|(-> & sent & ->)]; [done|]. constructor; [|done].
    left. exists sent. split; [done|]. cbn [fst]. by rewrite Hs, app_nil_r.
Qed.

Lemma inv_receive start w c before after :
  worker_inv start w → wk_waiting w = before ++ c :: after →
  is_Some (reply_of w c) ∨ ¬ sender_left w c → worker_inv start (receive_answer w c before after).
Proof.
  intros Hinv Hw Hready.
  assert (calls (receive_answer w c before after) ≡ₚ calls w) as Hcalls.
  { unfold calls, receive_answer. simpl. rewrite Hw. simpl. solve_Permutation. }
  assert (¬ sender_left w c) as Hleft.
  { destruct Hready as [[reply (t & Ht & Hc & _)%reply_of_Some]|?]; [|done]. intros Hleft.
    pose proof (inv_served _ _ Hinv) as Hnd. unfold served in Hnd. rewrite fmap_app in Hnd.
    apply NoDup_app in Hnd as (_ & Hdis & _). apply (Hdis c.1).
    - rewrite <- Hc. apply (list_elem_of_fmap_2 fst), (list_elem_of_fmap_2 tu_call). done.
    - apply (list_elem_of_fmap_2 fst). destruct Hleft as [Hq|Hr]; [set_solver|].
      rewrite Hr. set_solver. }
  split; try apply Hinv.
  - rewrite Hcalls. apply (inv_calls _ _ Hinv).
  - intros x Hx. apply (inv_fresh _ _ Hinv). rewrite elem_of_app in *. rewrite Hcalls in Hx. done.
  - simpl. constructor; [by right|]. apply (inv_answered _ _ Hinv).
Qed.

Lemma inv_step start w w' : worker_inv start w → worker_step w w' → worker_inv start w'.
Proof.
  intros Hinv Hstep.
  destruct Hstep as [w w' Hstep|w command Hh Hcmd|w Hh Hw Hroom|w c native Hrun].
  - destruct Hstep as [w c rest Ha Hr Hq|w c Hrun|w c before after Hw Hready].
    + assert (served (take_command w c rest) = served w) as Hs
        by (unfold served; simpl; by rewrite Hq, Hr).
      split; try apply Hinv; simpl.
      * pose proof (inv_queue _ _ Hinv) as Hle. rewrite Hq in Hle. simpl in Hle. lia.
      * congruence.
      * rewrite Hs. apply (inv_served _ _ Hinv).
      * intros x. rewrite Hs. apply (inv_fresh _ _ Hinv).
      * eapply Forall_impl; [apply (inv_answered _ _ Hinv)|].
        intros [x a] [(sent & Heq & Hnot)|[Heq Hnot]]; cbn [fst snd] in *; subst a.
        -- left. exists sent. by rewrite Hs.
        -- right. split; [done|]. intros [Hin|[= <-]]; apply Hnot; left; rewrite Hq; simpl in *; set_solver.
    + unfold run_command. destruct (handle_command c.2 (wk_native w)) as [[reply|] native] eqn:Hh.
      * eapply (inv_turn start w _ c (Some reply) native []); simpl; try done; [by left| |].
        { by rewrite app_nil_r. }
        intros Hdead. by destruct (inv_dead _ _ Hinv Hdead).
      * by eapply (inv_turn start w _ c None native (wk_queue w)); simpl; auto.
    + by apply inv_receive.
  - unfold submit. destruct (try_send w) eqn:Hsend.
    + eapply (inv_arrival start w _ (wk_next w, command) [(wk_next w, command)]); simpl; try done.
      * right. unfold try_send in Hsend. destruct (wk_alive w), (wk_queue w); by simplify_eq/=.
      * by right.
      * by left.
    + eapply (inv_arrival start w _ (wk_next w, command) []); simpl; try done;
        [by rewrite app_nil_r|by left| |right; by eauto].
      right. unfold calls. simpl. by rewrite Permutation_middle.
    + eapply (inv_arrival start w _ (wk_next w, command) []); simpl; try done;
        [by rewrite app_nil_r|by left| |right; by eauto].
      right. unfold calls. simpl. by rewrite Permutation_middle.
  - eapply (inv_arrival start w _ (wk_next w, Command_Shutdown)
      (if wk_alive w then [(wk_next w, Command_Shutdown)] else [])); simpl; try done;
      [by destruct (wk_alive w); [|rewrite app_nil_r]| |by left|by left].
    destruct (wk_alive w); [right|by left]. by destruct Hroom.
  - by eapply (inv_turn start w _ c None native (wk_queue w)); simpl; auto.
Qed.

Lemma inv_start native : worker_inv native (mkWorker native true true [] None [] 0 [] []).
Proof. split; simpl; try done; try constructor. - lia. - intros c Hc. set_solver. Qed.

Lemma reachable_inv native w start :
  worker_new (ThreadReady native) = Ok start → rtc worker_step start w → worker_inv native w.
Proof.
  intros [= <-] Hsteps. pose proof (inv_start native) as Hinv. revert Hinv.
  induction Hsteps as [|w1 w2 w3 Hstep _ IH]; [done|]. intros Hinv. by eapply IH, inv_step.
Qed.
End invariant.

(** ** Properties *)

Section answers.
Context {N : Type} `{!NativeClipboard N} `{!NativeClipboardLaws N}.
Implicit Types (w : Worker N) (c : Call).

(** C21: In every interleaving of calls, turns and crashes of the worker, each call is served at
    most once, and its answer is true: after an error that is not marked uncertain the
    contents of the clipboard are what they were before the call was served, if it was served
    at all; after a success the operation was done, a text having been read back exactly.
    The clipboard changes only in the turns that serve calls. *)
Theorem clipboard_answers_true native start w c a :
  worker_new (ThreadReady native) = Ok start → rtc worker_step start w →
  (c, a) ∈ wk_answered w →
  turns_from native (wk_turns w) (wk_native w) ∧
  (∀ t t', t ∈ wk_turns w → t' ∈ wk_turns w → tu_call t = c → tu_call t' = c → t = t') ∧
  (definite a → ∀ t, t ∈ wk_turns w → tu_call t = c →
     native_contents (tu_after t) = native_contents (tu_before t)) ∧
  (succeeded a → ∃ t, t ∈ wk_turns w ∧ tu_call t = c ∧
     achieved c.2 a (tu_before t) (tu_after t)).
Proof.
  intros Hnew Hsteps Hin. pose proof (reachable_inv _ _ _ Hnew Hsteps) as Hinv.
  split; [apply (inv_chain _ _ Hinv)|]. split.
  { intros t t' Ht Ht' Hc Hc'. eapply one_turn; [done..|congruence]. }
  assert (∀ t reply, t ∈ wk_turns w → tu_call t = c → tu_reply t = Some reply →
    handle_command c.2 (tu_before t) = (Some reply, tu_after t)) as Hturn.
  { intros t reply Ht <- Hr. pose proof (inv_turns _ _ Hinv) as Hall. rewrite Forall_forall in Hall.
    destruct (Hall t Ht) as [Hnone|Hh]; [congruence|]. by rewrite Hh, Hr. }
  pose proof (inv_answered _ _ Hinv) as Hall. rewrite Forall_forall in Hall.
  destruct (Hall _ Hin) as [(sent & Ha & Hout)|[Ha Hleft]]; cbn [fst snd] in *; subst a.
  { split; [|by intros ?%refused_not_succeeded].
    intros _ t Ht Hc. destruct Hout. apply served_left. left. rewrite <- Hc.
    by apply list_elem_of_fmap_2. }
  destruct (reply_of w c) as [reply|] eqn:Hr.
  - apply reply_of_Some in Hr as (t & Ht & Hc & Hr). split.
    + intros Hdef t' Ht' Hc'. assert (t' = t) as -> by (eapply one_turn; [done..|congruence]).
      eapply handled_definite; [by eapply Hturn|done].
    + intros Hsucc. exists t. split_and!; [done..|]. eapply handled_succeeded; [by eapply Hturn|done].
  - pose proof (answer_without_reply c.2) as [? ?]. done.
Qed.

(** Progress steps decrease a measure, and enough of them are enabled. *)
Definition pending w : nat :=
  3 * length (wk_queue w) + 2 * length (option_list (wk_running w)) + length (wk_waiting w).

Lemma progress_decreases w w' : progress_step w w' → (pending w' < pending w)%nat.
Proof.
  unfold pending. destruct 1 as [w c rest _ Hr Hq|w c Hr|w c before after Hw _]; simpl.
  - rewrite Hr, Hq. simpl. lia.
  - unfold run_command. destruct (handle_command _ _) as [[reply|] native]; simpl; rewrite Hr; simpl; lia.
  - rewrite Hw, !length_app. simpl. lia.
Qed.

Lemma progress_ends w : sn progress_step w.
Proof.
  induction w as [w IH] using (well_founded_induction (well_founded_ltof _ pending)).
  constructor. intros w' Hstep. by apply IH, progress_decreases.
Qed.

Lemma stuck_waiting start w :
  worker_inv start w → nf progress_step w → wk_waiting w = [].
Proof.
  intros Hinv Hnf. destruct (wk_waiting w) as [|c waiting] eqn:Hw; [done|]. destruct Hnf.
  destruct (wk_running w) as [c'|] eqn:Hr; [by eexists; eapply step_run|].
  destruct (wk_queue w) as [|c' rest] eqn:Hq.
  - eexists. eapply (step_receive w c [] waiting); [done|]. right.
    intros [?|?]; [rewrite Hq in *; set_solver|congruence].
  - eexists. eapply step_take; [|done..]. destruct (wk_alive w) eqn:Ha; [done|].
    destruct (inv_dead _ _ Hinv Ha). congruence.
Qed.

(** A call stays accepted until it is answered. *)
Definition accounted c w : Prop := c ∈ wk_waiting w ∨ ∃ a, (c, a) ∈ wk_answered w.
Lemma progress_accounted c w w' : progress_step w w' → accounted c w → accounted c w'.
Proof.
  unfold accounted. destruct 1 as [w c1 rest _ _ _|w c1 _|w c1 before after Hw _]; simpl; [done| |].
  - unfold run_command. by destruct (handle_command _ _) as [[reply|] native].
  - intros [Hin|[a Ha]]; [|right; exists a; set_solver].
    rewrite Hw in Hin. destruct (decide (c = c1)) as [->|]; [right|left; set_solver].
    eexists. apply elem_of_cons. by left.
Qed.

(** C37: Every call that was accepted is answered: from every reachable state, the turns of the
    worker and the deliveries of replies come to an end whatever their order, and when none is
    left, no caller waits; a worker that died is no exception. *)
Theorem accepted_calls_are_answered native start w :
  worker_new (ThreadReady native) = Ok start → rtc worker_step start w →
  sn progress_step w ∧
  ∀ w', rtc progress_step w w' → nf progress_step w' →
    ∀ c, c ∈ wk_waiting w → ∃ a, (c, a) ∈ wk_answered w'.
Proof.
  intros Hnew Hsteps. pose proof (reachable_inv _ _ _ Hnew Hsteps) as Hinv.
  split; [apply progress_ends|]. intros w' Hrun Hnf c Hc.
  assert (accounted c w) as Hacc by (by left). clear Hc Hsteps. revert Hinv Hacc Hnf.
  induction Hrun as [w|w1 w2 w3 Hstep _ IH]; intros Hinv Hacc Hnf.
  - destruct Hacc as [Hin|?]; [|done]. erewrite stuck_waiting in Hin by done. set_solver.
  - apply IH; [by eapply inv_step; [|apply step_progress]|by eapply progress_accounted|done].
Qed.
End answers.

(** ** Sample *)

Module ClipboardSample.

(** A clipboard that holds one item and, when locked, refuses to be opened. *)
Record Board := mkBoard { bd_item : option ClipboardItem; bd_locked : bool }.
Definition opened {T} (m : St Board rstr T) : St Board rstr T := λ n,
  if bd_locked n then (Err (str "locked"), n) else m n.

#[export] Instance board_clipboard : NativeClipboard Board := {|
  native_set_text text := opened (st_modify (λ n, mkBoard (Some (Item_Text text)) (bd_locked n)));
  native_get_text := opened (λ n,
    (match bd_item n with Some (Item_Text text) => Ok text | _ => Err (str "no text") end, n));
  native_clear := opened (st_modify (λ n, mkBoard None (bd_locked n)));
  native_set_file_list paths :=
    opened (st_modify (λ n, mkBoard (Some (Item_Files paths)) (bd_locked n)));
  native_get_file_list := opened (λ n,
    (match bd_item n with Some (Item_Files paths) => Ok paths | _ => Err (str "no files") end, n));
|}.
#[export, refine] Instance board_laws : NativeClipboardLaws Board := {| native_contents := bd_item |}.
Proof.
  - intros n. unfold native_get_text. simpl. unfold opened. by destruct (bd_locked n).
  - intros n. unfold native_get_file_list. simpl. unfold opened. by destruct (bd_locked n).
  - intros n n' e. unfold native_clear. simpl. unfold opened. destruct (bd_locked n); [|done].
    by intros [= _ <-].
Defined.

(** Two handles write at once: the second is refused while the first waits in the queue, and
    the first is done. *)
Definition start : Worker Board := mkWorker (mkBoard None false) true true [] None [] 0 [] [].
Definition first : Call := (0%nat, Command_Write (str "offered")).
Definition accepted : Worker Board :=
  submit (Command_WriteFiles [str "/a"]) (submit (Command_Write (str "offered")) start).
Definition written : Worker Board := run_command (take_command accepted first []) first.
Definition finished : Worker Board := receive_answer written first [] [].

Lemma accepted_reachable : rtc worker_step start accepted.
Proof.
  eapply rtc_l; [apply (step_submit start (Command_Write (str "offered"))); done|].
  eapply rtc_l; [apply (step_submit _ (Command_WriteFiles [str "/a"])); done|].
  apply rtc_refl.
Qed.
Lemma finished_reachable : rtc worker_step start finished.
Proof.
  etrans; [apply accepted_reachable|].
  eapply rtc_l; [by apply step_progress, (step_take accepted first [])|].
  eapply rtc_l; [by apply step_progress, (step_run (take_command accepted first []) first)|].
  eapply rtc_l; [apply step_progress, (step_receive written first [] []); [done|by left; eexists]|].
  apply rtc_refl.
Qed.

Lemma clipboard_answers_true_witness :
  (first, Answer_Text (Ok ())) ∈ wk_answered finished ∧
  wk_native finished = mkBoard (Some (Item_Text (str "offered"))) false ∧
  ∃ t, t ∈ wk_turns finished ∧ tu_call t = first ∧
    achieved first.2 (Answer_Text (Ok ())) (tu_before t) (tu_after t).
Proof.
  assert ((first, Answer_Text (Ok ())) ∈ wk_answered finished) as Hin by left.
  split; [exact Hin|]. split; [reflexivity|].
  destruct (clipboard_answers_true (mkBoard None false) start finished first (Answer_Text (Ok ()))
    eq_refl finished_reachable Hin) as (_ & _ & _ & Hs).
  exact (Hs I).
Defined.

Lemma accepted_calls_are_answered_witness :
  wk_waiting accepted = [first] ∧ sn progress_step accepted ∧
  ∀ w', rtc progress_step accepted w' → nf progress_step w' → ∃ a, (first, a) ∈ wk_answered w'.
Proof.
  destruct (accepted_calls_are_answered (mkBoard None false) start accepted eq_refl
    accepted_reachable) as [Hsn Hall].
  split; [reflexivity|]. split; [exact Hsn|].
  intros w' Hrun Hnf. apply (Hall w' Hrun Hnf). left.
Defined.
End ClipboardSample.
