(* ===== verification/Names.v ===== *)
(** * Portable destination names

    Models [crates/meshelf-core/src/destination.rs] (the portable component and relative-path
    rules), the two other copies of the component rule ([validate_source_component] of the
    fetch sender and [validate_component] of the offer preparation) and the collision naming
    of [crates/meshelf-net/src/destination.rs].  Error texts that quote the offending name
    keep it as a constructor argument instead of its rendering. *)

From S2P Require Import Prelude RustStr Offer.

Inductive NameError :=
| UnsafeComponent (component : rstr)
| ReservedName (component : rstr)
| PathEmptyOrTooLong
| UnsafePath (path : rstr).

(** ** The component rule ([meshelf_core::validate_component]) *)

(** The characters no supported host accepts in a name: angle brackets, colon, double
    quote, slash, backslash, bar, question mark and star. *)
Definition forbidden_characters : list Z := [60; 62; 58; 34; 47; 92; 124; 63; 42].
Definition is_forbidden (character : Z) : bool :=
  is_control character || bool_decide (character ∈ forbidden_characters).

(** [component.split('.').next().unwrap_or(component)] *)
Definition first_piece (component : rstr) : rstr :=
  default component (head (split_char 46 component)).

(** The stem a Windows device name is looked up by. *)
Definition device_stem (component : rstr) : rstr :=
  map to_ascii_uppercase
    (trim_end_matches (λ c, (c =? 32) || (c =? 46)) (first_piece component)).

(** The digits 1 to 9 and the superscripts one, two and three. *)
Definition device_numbers : list rstr :=
  map (λ c, [c]) [49; 50; 51; 52; 53; 54; 55; 56; 57; 185; 178; 179].

Definition numbered_device_suffix (stem : rstr) : option rstr :=
  match strip_prefix (str "COM") stem with
  | Some suffix => Some suffix
  | None => strip_prefix (str "LPT") stem
  end.

Definition is_reserved_device (component : rstr) : bool :=
  let stem := device_stem component in
  bool_decide (stem ∈ [str "CON"; str "PRN"; str "AUX"; str "NUL"])
  || match numbered_device_suffix stem with
     | Some suffix => bool_decide (suffix ∈ device_numbers)
     | None => false
     end.

Definition validate_component (component : rstr) : result NameError () :=
  refuse_if (bool_decide (component = []) || bool_decide (component = str ".")
             || bool_decide (component = str "..")
             || (MAX_OFFER_PORTABLE_COMPONENT_BYTES <? str_len component)
             || existsb is_forbidden component)
    (UnsafeComponent component);;
  refuse_if (is_reserved_device component || ends_with_char 32 component
             || ends_with_char 46 component)
    (ReservedName component).

(** [for component in path.split('/') { validate_component(component)?; }] *)
Fixpoint validate_all {E} (validate : rstr → result E ()) (components : list rstr)
    : result E () :=
  match components with
  | [] => Ok ()
  | component :: rest => validate component;; validate_all validate rest
  end.

(** [meshelf_core::validate_relative_path] *)
Definition validate_relative_path (path : rstr) : result NameError () :=
  refuse_if (bool_decide (path = []) || (4096 <? str_len path)) PathEmptyOrTooLong;;
  refuse_if (starts_with_char 47 path || starts_with_char 92 path || contains_char 92 path)
    (UnsafePath path);;
  validate_all validate_component (split_char 47 path).

(** [relative_path]: the components of the host path built from a validated value. *)
Definition relative_path (value : rstr) : list rstr := split_char 47 value.

(** ** The copies of the rule *)

(** [validate_source_component] of [fetch_sender.rs]; its only error is
    [SourceFailure::Changed], [tt] here. *)
Definition validate_source_component (component : rstr) : result () () :=
  refuse_if (bool_decide (component = [])
    || (MAX_OFFER_PORTABLE_COMPONENT_BYTES <? str_len component)
    || bool_decide (component = str ".") || bool_decide (component = str "..")
    || ends_with_char 32 component || ends_with_char 46 component
    || existsb is_forbidden component
    || is_reserved_device component) ().

(** [validate_component] of [offer_source.rs]; its only error is
    [SourcePreparationError::InvalidName], [tt] here.  [split_once('.')] keeps what precedes
    the first dot, [stem.len()] is in bytes. *)
Definition prepare_stem (component : rstr) : rstr :=
  map to_ascii_uppercase (first_piece component).
Definition prepare_validate_component (component : rstr) : result () () :=
  refuse_if (bool_decide (component = []) || bool_decide (component = str ".")
    || bool_decide (component = str "..") || ends_with_char 32 component
    || ends_with_char 46 component || existsb is_forbidden component) ();;
  let stem := prepare_stem component in
  refuse_if (bool_decide (stem ∈ [str "CON"; str "PRN"; str "AUX"; str "NUL"])
    || ((str_len stem =? 4)
        && (starts_with (str "COM") stem || starts_with (str "LPT") stem)
        && match stem !! 3%nat with
           | Some c => (49 <=? c) && (c <=? 57)
           | None => false
           end)) ().

(** ** Collision names ([meshelf-net/src/destination.rs]) *)

Inductive NamingError :=
| InvalidGeneratedName (error : NameError)
| NameLengthOverflow
| SuffixTooLong (suffix_bytes : Z)
| NoRoomForName.

(** [truncate_utf8] *)
Definition truncate_utf8 (value : rstr) (max_bytes : Z) : rstr :=
  if str_len value <=? max_bytes then value
  else default [] (str_prefix value (Z.of_nat (floor_boundary value (Z.to_nat max_bytes)))).

(** [Path::extension] and [Path::file_stem] of a one-component path: split at the last dot,
    unless the name is [..] or the dot is the first character. *)
Fixpoint rsplit_dot (s : rstr) : option (rstr * rstr) :=
  match s with
  | [] => None
  | c :: t =>
      match rsplit_dot t with
      | Some (before, after) => Some (c :: before, after)
      | None => if c =? 46 then Some ([], t) else None
      end
  end.
Definition file_stem_extension (name : rstr) : rstr * option rstr :=
  if bool_decide (name = str "..") then (name, None)
  else match rsplit_dot name with
       | Some ([], _) | None => (name, None)
       | Some (before, after) => (before, Some after)
       end.

Definition generated (name : rstr) : result NamingError rstr :=
  map_err InvalidGeneratedName (validate_component name);; Ok name.

Definition component_with_suffix (component suffix : rstr) : result NamingError rstr :=
  let max_component_bytes := MAX_OFFER_PORTABLE_COMPONENT_BYTES - str_len suffix in
  refuse_if (max_component_bytes <=? 0) (SuffixTooLong (str_len suffix));;
  let component := truncate_utf8 component max_component_bytes in
  refuse_if (bool_decide (component = [])) NoRoomForName;;
  generated (component ++ suffix).

(** The name [collision_candidate] joins to the destination directory: the root name itself
    for index 1, then [stem (n).extension] for a file with an extension and [name (n)]
    otherwise or when the extension leaves no room. *)
Definition collision_name (root_name : rstr) (content_kind : ContentKind) (index : Z)
    : result NamingError rstr :=
  if index =? 1 then generated root_name
  else
    let suffix := str " (" ++ show_int index ++ str ")" in
    let extension :=
      if bool_decide (content_kind = Kind_File) then (file_stem_extension root_name).2
      else None in
    match extension with
    | Some extension =>
        let stem := (file_stem_extension root_name).1 in
        fixed_bytes ← ok_or (checked_add USIZE_MAX (str_len suffix) 1
                               ≫= λ v, checked_add USIZE_MAX v (str_len extension))
                            NameLengthOverflow;
        let stem := if fixed_bytes <=? MAX_OFFER_PORTABLE_COMPONENT_BYTES
          then truncate_utf8 stem (MAX_OFFER_PORTABLE_COMPONENT_BYTES - fixed_bytes)
          else [] in
        if bool_decide (stem = []) then component_with_suffix root_name suffix
        else generated (stem ++ suffix ++ str "." ++ extension)
    | None => component_with_suffix root_name suffix
    end.

(** ** What the rule guarantees *)

Definition no_device (component : rstr) : Prop := is_reserved_device component = false.

(** A component both Unix and Windows publish under exactly this spelling. *)
Definition portable_component (component : rstr) : Prop :=
  component ≠ [] ∧ component ≠ str "." ∧ component ≠ str ".." ∧
  str_len component ≤ MAX_OFFER_PORTABLE_COMPONENT_BYTES ∧
  Forall (λ c, is_forbidden c = false) component ∧
  no_device component ∧ last component ≠ Some 32 ∧ last component ≠ Some 46.

Lemma existsb_Forall_false {A} (f : A → bool) l :
  existsb f l = false ↔ Forall (λ x, f x = false) l.
Proof.
  induction l as [|x l IH]; simpl; [by split|]. by rewrite orb_false_iff, Forall_cons, IH.
Qed.

Lemma ends_with_char_false c s : ends_with_char c s = false ↔ last s ≠ Some c.
Proof.
  unfold ends_with_char. destruct (last s) as [d|]; [|done].
  rewrite Z.eqb_neq. naive_solver.
Qed.

(** The component rule accepts exactly the portable components. *)
Lemma validate_component_spec component :
  validate_component component = Ok () ↔ portable_component component.
Proof.
  unfold validate_component, portable_component, no_device.
  rewrite refuse_seq_Ok, refuse_if_Ok, !orb_false_iff, !bool_decide_eq_false.
  rewrite !ends_with_char_false, existsb_Forall_false, Z.ltb_ge. tauto.
Qed.

(** The fetch sender's copy of the rule accepts the same components as the domain rule,
    so a manifest the sender builds never fails the receiver's name check. *)
Theorem validate_source_component_agrees component :
  is_ok (validate_source_component component) = is_ok (validate_component component).
Proof.
  apply eq_true_iff_eq. rewrite !is_ok_unit, validate_component_spec.
  unfold validate_source_component, portable_component, no_device.
  rewrite refuse_if_Ok, !orb_false_iff, !bool_decide_eq_false.
  rewrite !ends_with_char_false, existsb_Forall_false, Z.ltb_ge. tauto.
Qed.

Lemma forbidden_slash : is_forbidden 47 = true.
Proof. done. Qed.
Lemma forbidden_backslash : is_forbidden 92 = true.
Proof. done. Qed.

Lemma portable_component_no_separator component :
  portable_component component → 47 ∉ component ∧ 92 ∉ component.
Proof.
  intros (_ & _ & _ & _ & Hf & _). rewrite Forall_forall in Hf.
  split; intros Hin; [pose proof forbidden_slash | pose proof forbidden_backslash];
    specialize (Hf _ Hin); congruence.
Qed.

Lemma validate_all_Ok {E} (validate : rstr → result E ()) l :
  validate_all validate l = Ok () ↔ Forall (λ c, validate c = Ok ()) l.
Proof.
  induction l as [|c l IH]; simpl; [by split|]. by rewrite unit_seq_Ok, Forall_cons, IH.
Qed.

Lemma join_split_char sep s : join_char sep (split_char sep s) = s.
Proof.
  induction s as [|c s IH]; simpl; [done|].
  destruct (Z.eqb_spec c sep) as [->|Hc].
  - assert (split_char sep s ≠ []).
    { destruct s as [|d s]; simpl; [done|]. destruct (d =? sep); [done|].
      by destruct (split_char sep s). }
    destruct (split_char sep s) as [|p rest]; [done|].
    change (sep :: join_char sep (p :: rest) = sep :: s). by rewrite IH.
  - destruct (split_char sep s) as [|p rest]; [by simplify_eq/=|].
    destruct rest; simpl in *; by rewrite <- IH.
Qed.

(** The path rule accepts exactly the short paths of portable components. *)
Lemma validate_relative_path_Ok path :
  validate_relative_path path = Ok () ↔
  str_len path ≤ 4096 ∧ Forall portable_component (relative_path path).
Proof.
  unfold validate_relative_path, relative_path.
  rewrite !refuse_seq_Ok, validate_all_Ok, !orb_false_iff, bool_decide_eq_false, Z.ltb_ge.
  setoid_rewrite validate_component_spec. split; [tauto|]. intros [Hlen Hall].
  assert (path ≠ []) as Hne.
  { intros ->. simpl in Hall. apply Forall_cons in Hall as [(? & _) _]. done. }
  assert (92 ∉ path) as Hback.
  { rewrite <- (join_split_char 47 path). clear Hlen Hne.
    induction Hall as [|p [|q l] Hp _ IH]; simpl; [set_solver| |];
      apply portable_component_no_separator in Hp as [_ ?]; [done|].
    rewrite not_elem_of_app, not_elem_of_cons. done. }
  split; [done|]. split; [|done]. split; [split|by apply contains_char_false].
  - destruct path as [|c path]; simpl; [done|]. destruct (Z.eqb_spec c 47) as [->|]; [|done].
    simpl in Hall. apply Forall_cons in Hall as [(? & _) _]. done.
  - destruct path as [|c path]; simpl; [done|]. apply Z.eqb_neq. set_solver.
Qed.

(** an accepted relative path has at most 4096 bytes, and the host path built from it
    consists of portable components only — none of them [..], empty or holding a separator —
    that join back to the path, so publication cannot leave its destination directory. *)
Theorem validate_relative_path_spec path :
  validate_relative_path path = Ok () ↔
  str_len path ≤ 4096 ∧ Forall portable_component (relative_path path).
Proof. apply validate_relative_path_Ok. Qed.

(** ** Device stems *)

Lemma first_piece_nil : first_piece [] = [].
Proof. done. Qed.
Lemma first_piece_cons c t :
  first_piece (c :: t) = if c =? 46 then [] else c :: first_piece t.
Proof.
  unfold first_piece. simpl. destruct (c =? 46); [done|].
  destruct t as [|d t]; [done|]. simpl. destruct (d =? 46); [done|].
  by destruct (split_char 46 t).
Qed.
Lemma first_piece_app_dot p q : 46 ∈ p → first_piece (p ++ q) = first_piece p.
Proof.
  induction p as [|c p IH]; [by intros ?%elem_of_nil|]. simpl. rewrite !first_piece_cons.
  destruct (Z.eqb_spec c 46) as [->|Hc]; [done|].
  intros [?|Hp]%elem_of_cons; [congruence|]. by rewrite IH.
Qed.
Lemma first_piece_app p q : 46 ∉ p → first_piece (p ++ q) = p ++ first_piece q.
Proof.
  induction p as [|c p IH]; [done|]. rewrite not_elem_of_cons. intros [Hc Hp]. simpl.
  rewrite first_piece_cons. destruct (Z.eqb_spec c 46); [congruence|]. by rewrite IH.
Qed.

Lemma trim_end_matches_id f s :
  (∀ c, last s = Some c → f c = false) → trim_end_matches f s = s.
Proof.
  intros H. unfold trim_end_matches. destruct s as [|c s _] using rev_ind; [done|].
  rewrite reverse_snoc. simpl. rewrite last_snoc in H. rewrite (H c) by done.
  by rewrite <- reverse_snoc, reverse_involutive.
Qed.

Lemma last_map {A B} (f : A → B) l : last (map f l) = f <$> last l.
Proof. induction l as [|x [|y l] IH]; done. Qed.

(** Every device name ends in one of these characters. *)
Definition device_last : list Z := [78; 88; 76; 49; 50; 51; 52; 53; 54; 55; 56; 57; 185; 178; 179].

Lemma strip_prefix_Some p s r : strip_prefix p s = Some r ↔ s = p ++ r.
Proof.
  revert s. induction p as [|c p IH]; intros s; simpl; [naive_solver|].
  destruct s as [|d s]; [done|]. destruct (Z.eqb_spec c d) as [->|Hne].
  - rewrite IH. naive_solver.
  - naive_solver.
Qed.

Lemma is_reserved_device_last component :
  is_reserved_device component = true →
  ∃ c, last (device_stem component) = Some c ∧ c ∈ device_last.
Proof.
  unfold is_reserved_device. intros [H|H]%orb_true_iff.
  - apply bool_decide_eq_true in H. repeat (apply elem_of_cons in H as [->|H];
      [eexists; split; [done | by unfold device_last; set_solver]|]).
    by apply elem_of_nil in H.
  - destruct (numbered_device_suffix (device_stem component)) as [suffix|] eqn:Hs; [|done].
    apply bool_decide_eq_true in H.
    assert (∃ p, device_stem component = p ++ suffix) as [p ->].
    { unfold numbered_device_suffix in Hs.
      destruct (strip_prefix (str "COM") (device_stem component)) as [r|] eqn:Hc.
      - apply strip_prefix_Some in Hc. simplify_eq. eauto.
      - apply strip_prefix_Some in Hs. eauto. }
    unfold device_numbers in H. apply list_elem_of_fmap in H as (c & -> & Hc).
    exists c. rewrite last_snoc. split; [done|]. unfold device_last. set_solver.
Qed.

(** The device stem of a piece that ends in neither space nor dot is its upper case. *)
Lemma device_stem_id component c :
  last (first_piece component) = Some c → c ≠ 32 → c ≠ 46 →
  device_stem component = map to_ascii_uppercase (first_piece component).
Proof.
  intros Hl H32 H46. unfold device_stem. rewrite trim_end_matches_id; [done|].
  intros d Hd. rewrite Hl in Hd. injection Hd as <-.
  by apply orb_false_iff; rewrite !Z.eqb_neq.
Qed.

Lemma uppercase_not_blank c d :
  to_ascii_uppercase c = d → d ≠ 32 → d ≠ 46 → c ≠ 32 ∧ c ≠ 46.
Proof. intros <- H1 H2. split; intros ->; naive_solver. Qed.

Lemma prepare_stem_last component d :
  last (prepare_stem component) = Some d → d ≠ 32 → d ≠ 46 →
  device_stem component = prepare_stem component.
Proof.
  unfold prepare_stem. rewrite last_map. intros (c & Hc & ->)%fmap_Some H32 H46.
  destruct (uppercase_not_blank c _ eq_refl H32 H46). by eapply device_stem_id.
Qed.

Lemma str_len_ascii4 a b c s :
  a < 128 → b < 128 → c < 128 → str_len (a :: b :: c :: s) = 4 →
  ∀ d, s !! 0%nat = Some d → s = [d].
Proof.
  intros Ha Hb Hc Hlen d Hd. destruct s as [|d' s]; [done|]. injection Hd as ->.
  rewrite !str_len_cons in Hlen. pose proof (char_len_pos a). pose proof (char_len_pos b).
  pose proof (char_len_pos c). pose proof (char_len_pos d). pose proof (str_len_nonneg s).
  assert (s = []) as -> by (apply str_len_zero; lia). done.
Qed.

Lemma prepare_numbered_reserved stem :
  str_len stem = 4 →
  (starts_with (str "COM") stem || starts_with (str "LPT") stem) = true →
  ∀ d, stem !! 3%nat = Some d → 49 ≤ d ≤ 57 →
  last stem = Some d ∧
  ∃ suffix, numbered_device_suffix stem = Some suffix ∧ suffix ∈ device_numbers.
Proof.
  unfold starts_with, numbered_device_suffix. intros Hlen Hs d Hd Hr.
  assert ([d] ∈ device_numbers).
  { unfold device_numbers. apply list_elem_of_fmap. exists d. split; [done|].
    assert (d = 49 ∨ d = 50 ∨ d = 51 ∨ d = 52 ∨ d = 53 ∨ d = 54 ∨ d = 55 ∨ d = 56 ∨ d = 57)
      by lia. set_solver. }
  assert (∀ p r, (p = str "COM" ∨ p = str "LPT") → stem = p ++ r → r = [d]) as Hone.
  { intros p r Hp ->. destruct Hp as [-> | ->]; simpl in Hd, Hlen;
      (eapply str_len_ascii4; [..|exact Hd]; [| | |exact Hlen]; lia). }
  destruct (strip_prefix (str "COM") stem) as [r|] eqn:HC.
  - apply strip_prefix_Some in HC. pose proof (Hone _ _ (or_introl eq_refl) HC) as ->.
    split; [by rewrite HC | eauto].
  - destruct (strip_prefix (str "LPT") stem) as [r|] eqn:HL.
    + apply strip_prefix_Some in HL. pose proof (Hone _ _ (or_intror eq_refl) HL) as ->.
      split; [by rewrite HL | eauto].
    + apply orb_true_iff in Hs as [Hs|Hs]; apply bool_decide_eq_true in Hs as [? ?]; done.
Qed.

(** The rule offer preparation applies accepts every portable component, but is strictly
    weaker: it also accepts a device name followed by blanks before its extension, the
    superscript device numbers, and names over 255 bytes, all of which the fetch sender and
    the receiver refuse. *)
Theorem prepare_rule_weaker :
  (∀ component, portable_component component → prepare_validate_component component = Ok ()) ∧
  (∀ component, component ∈ [str "CON .txt"; str "COM" ++ [185]; replicate 256 97] →
    prepare_validate_component component = Ok () ∧
    is_ok (validate_component component) = false ∧
    is_ok (validate_source_component component) = false).
Proof.
  split.
  - intros component (Hne & Hdot & Hdots & Hlen & Hforb & Hdev & Hsp & Hpt).
    unfold prepare_validate_component. rewrite refuse_seq_Ok, refuse_if_Ok, !orb_false_iff.
    rewrite !bool_decide_eq_false, !ends_with_char_false, existsb_Forall_false.
    split; [tauto|]. unfold no_device, is_reserved_device in Hdev.
    apply orb_false_iff in Hdev as [Hnames Hnum].
    apply bool_decide_eq_false in Hnames. split.
    + intros Hin. apply Hnames.
      assert (∃ d, last (prepare_stem component) = Some d ∧ d ≠ 32 ∧ d ≠ 46) as (d & Hd & ? & ?).
      { repeat (apply elem_of_cons in Hin as [->|Hin]; [eexists; split; [vm_compute; reflexivity | done]|]).
        by apply elem_of_nil in Hin. }
      by erewrite prepare_stem_last.
    + apply not_true_iff_false. intros [[Hl Hs]%andb_true_iff Hd]%andb_true_iff.
      apply Z.eqb_eq in Hl. destruct (prepare_stem component !! 3%nat) as [d|] eqn:H3; [|done].
      apply andb_true_iff in Hd as [Hd1%Z.leb_le Hd2%Z.leb_le].
      destruct (prepare_numbered_reserved _ Hl Hs d H3) as (Hlast & suffix & Hsuf & Hin); [lia|].
      erewrite prepare_stem_last in Hnum by (done || lia). rewrite Hsuf in Hnum.
      by apply bool_decide_eq_false in Hnum.
  - intros component Hin.
    repeat (apply elem_of_cons in Hin as [->|Hin]; [by vm_compute|]).
    by apply elem_of_nil in Hin.
Qed.

(** ** Generated names *)

(** The suffix of a collision candidate: it ends with a parenthesis, holds no dot and no
    forbidden character and is 4 to 7 bytes long. *)
Definition suffix_ok (suffix : rstr) : Prop :=
  last suffix = Some 41 ∧ 46 ∉ suffix ∧ Forall (λ c, is_forbidden c = false) suffix ∧
  4 ≤ str_len suffix ≤ 7 ∧ 4 ≤ zlen suffix.

Definition suffix_okb (suffix : rstr) : bool :=
  bool_decide (last suffix = Some 41) && bool_decide (46 ∉ suffix)
  && negb (existsb is_forbidden suffix)
  && ((4 <=? str_len suffix) && (str_len suffix <=? 7)) && (4 <=? zlen suffix).

Definition index_suffix (index : Z) : rstr := str " (" ++ show_int index ++ str ")".

Lemma suffix_okb_spec suffix : suffix_okb suffix = true → suffix_ok suffix.
Proof.
  unfold suffix_okb, suffix_ok. rewrite !andb_true_iff, negb_true_iff, !bool_decide_eq_true.
  rewrite existsb_Forall_false, !Z.leb_le. tauto.
Qed.

Lemma index_suffix_ok index : 1 ≤ index ≤ 9999 → suffix_ok (index_suffix index).
Proof.
  intros Hi. apply suffix_okb_spec.
  assert (forallb (λ n, suffix_okb (index_suffix (Z.of_nat n))) (seq 1 (Z.to_nat 9999)) = true) as Hall
    by (vm_compute; reflexivity).
  rewrite forallb_forall in Hall. rewrite <- (Z2Nat.id index) by lia. apply Hall.
  apply list_elem_of_In, elem_of_seq. lia.
Qed.

Lemma truncate_utf8_spec value max :
  0 ≤ max → str_len (truncate_utf8 value max) ≤ max ∧
  (∃ rest, value = truncate_utf8 value max ++ rest) ∧
  (4 ≤ max → value ≠ [] → truncate_utf8 value max ≠ []).
Proof.
  intros Hmax. unfold truncate_utf8.
  destruct (Z.leb_spec (str_len value) max) as [Hle|Hgt].
  { split; [done|]. split; [exists []; by rewrite app_nil_r | done]. }
  pose proof (floor_boundary_is_boundary value (Z.to_nat max)) as Hb.
  apply is_char_boundary_prefix in Hb as [p Hp]. rewrite Hp. simpl.
  pose proof (floor_boundary_le value (Z.to_nat max)).
  pose proof (floor_boundary_gap value (Z.to_nat max)).
  apply str_prefix_Some in Hp as [Hlen [rest ->]].
  split; [lia|]. split; [by exists rest|]. intros H4 _. apply str_len_pos. lia.
Qed.

Lemma portable_generated root p q suffix tail :
  portable_component root → root = p ++ q → p ≠ [] → suffix_ok suffix →
  (tail = [] ∨ ∃ before, root = before ++ tail ∧ head tail = Some 46) →
  str_len (p ++ suffix ++ tail) ≤ MAX_OFFER_PORTABLE_COMPONENT_BYTES →
  portable_component (p ++ suffix ++ tail).
Proof.
  intros (Hne & Hdot & Hdots & Hlen & Hforb & Hdev & Hsp & Hpt) Hroot Hp
    (Hs41 & Hs46 & Hsf & Hsl & Hsz) Htail Hmax.
  assert (Hlong : 5 ≤ zlen (p ++ suffix ++ tail)).
  { rewrite !zlen_app. destruct p as [|c p]; [done|]. rewrite zlen_cons.
    pose proof (zlen_nonneg p). pose proof (zlen_nonneg tail). lia. }
  assert (Hlast : last (p ++ suffix ++ tail) = Some 41 ∨
    (last (p ++ suffix ++ tail) = last root)).
  { destruct Htail as [->|(before & Hb & Hh)].
    - left. by rewrite app_nil_r, last_app, Hs41.
    - right. rewrite Hb, !last_app. destruct tail as [|c tail]; [done|].
      by destruct (last (c :: tail)) as [d|] eqn:Hd; [|apply last_None in Hd]. }
  split; [intros H0; rewrite H0 in Hlong; exact (Hlong eq_refl)|].
  split; [intros H0; rewrite H0 in Hlong; exact (Hlong eq_refl)|].
  split; [intros H0; rewrite H0 in Hlong; exact (Hlong eq_refl)|].
  split; [done|]. split.
  { assert (∀ s, (∃ a b, root = a ++ s ++ b) → Forall (λ c, is_forbidden c = false) s) as Hsub.
    { intros s (a & b & ->). apply Forall_app in Hforb as [_ Hforb].
      by apply Forall_app in Hforb as [? _]. }
    rewrite !Forall_app. split; [apply Hsub; by exists [], q|]. split; [done|].
    destruct Htail as [->|(before & Hb & _)]; [constructor|].
    apply Hsub. exists before, []. by rewrite app_nil_r. }
  split; [|destruct Hlast as [-> | ->]; done].
  unfold no_device in *. destruct (decide (46 ∈ p)) as [Hin|Hout].
  - rewrite <- Hdev. unfold is_reserved_device, device_stem.
    by rewrite Hroot, !first_piece_app_dot.
  - apply not_true_iff_false. intros (d & Hd & Hin)%is_reserved_device_last.
    assert (first_piece (p ++ suffix ++ tail) = p ++ suffix) as Hfp.
    { rewrite !first_piece_app by done. destruct Htail as [->|(before & _ & Hh)].
      - by rewrite first_piece_nil, app_nil_r.
      - destruct tail as [|c tail]; [done|]. injection Hh as ->.
        by rewrite first_piece_cons, app_nil_r. }
    assert (last (p ++ suffix) = Some 41) as H41 by by rewrite last_app, Hs41.
    erewrite device_stem_id in Hd; [|rewrite Hfp; exact H41|done|done].
    rewrite Hfp, last_map, H41 in Hd. injection Hd as <-. vm_compute in Hin.
    repeat (apply elem_of_cons in Hin as [?|Hin]; [done|]). by apply elem_of_nil in Hin.
Qed.

Lemma rsplit_dot_Some s before after :
  rsplit_dot s = Some (before, after) → s = before ++ 46 :: after.
Proof.
  revert before. induction s as [|c s IH]; intros before; simpl; [done|].
  destruct (rsplit_dot s) as [[b a]|].
  - intros [= <- <-]. simpl. f_equal. by apply IH.
  - destruct (Z.eqb_spec c 46) as [->|]; [by intros [= <- <-] | done].
Qed.

Lemma file_stem_extension_Some name ext :
  (file_stem_extension name).2 = Some ext →
  name = (file_stem_extension name).1 ++ 46 :: ext ∧ (file_stem_extension name).1 ≠ [].
Proof.
  unfold file_stem_extension. case_bool_decide; [done|].
  destruct (rsplit_dot name) as [[[|c before] after]|] eqn:Hr; simpl; try done.
  intros [= ->]. by apply rsplit_dot_Some in Hr.
Qed.

Lemma generated_Ok name name' :
  generated name = Ok name' ↔ name' = name ∧ portable_component name.
Proof.
  unfold generated. rewrite unit_seq_Ok, map_err_Ok, validate_component_spec. naive_solver.
Qed.

(** Whatever name is generated is portable. *)
Lemma component_with_suffix_portable root suffix name :
  component_with_suffix root suffix = Ok name → portable_component name.
Proof.
  unfold component_with_suffix. intros Hn. inv_res.
  by match goal with H : generated _ = _ |- _ => apply generated_Ok in H as [-> ?] end.
Qed.
Lemma collision_name_portable root kind index name :
  collision_name root kind index = Ok name → portable_component name.
Proof.
  unfold collision_name. destruct (index =? 1); [by intros [-> ?]%generated_Ok|].
  destruct (if bool_decide _ then _ else _) as [ext|]; [|apply component_with_suffix_portable].
  rewrite bind_Ok. intros (fixed & _ & Hn). revert Hn.
  case_bool_decide; [apply component_with_suffix_portable|]. by intros [-> ?]%generated_Ok.
Qed.

Lemma component_with_suffix_total root suffix :
  portable_component root → suffix_ok suffix →
  ∃ p q, root = p ++ q ∧ p ≠ [] ∧
    component_with_suffix root suffix = Ok (p ++ suffix) ∧ portable_component (p ++ suffix).
Proof.
  intros Hroot Hsuf. pose proof Hsuf as (_ & _ & _ & Hlen & _).
  destruct (truncate_utf8_spec root (MAX_OFFER_PORTABLE_COMPONENT_BYTES - str_len suffix))
    as (Hmax & (q & Hq) & Hne); [unfold MAX_OFFER_PORTABLE_COMPONENT_BYTES; lia|].
  set (p := truncate_utf8 root (MAX_OFFER_PORTABLE_COMPONENT_BYTES - str_len suffix)) in *.
  assert (p ≠ []) as Hp.
  { apply Hne; [unfold MAX_OFFER_PORTABLE_COMPONENT_BYTES; lia | by destruct Hroot]. }
  exists p, q. split; [done|]. split; [done|].
  assert (portable_component (p ++ suffix)) as Hport.
  { rewrite <- (app_nil_r suffix). eapply portable_generated; eauto.
    rewrite app_nil_r, str_len_app. lia. }
  split; [|done]. unfold component_with_suffix.
  destruct (Z.leb_spec (MAX_OFFER_PORTABLE_COMPONENT_BYTES - str_len suffix) 0);
    [unfold MAX_OFFER_PORTABLE_COMPONENT_BYTES in *; lia|]. simpl. fold p.
  rewrite bool_decide_eq_false_2 by done. simpl. by apply generated_Ok.
Qed.

(** for a portable root name every collision candidate from 1 to 9999 exists: naming never
    fails, index 1 is the root name itself, every candidate is again a portable component, and
    from index 2 on it keeps a non-empty prefix of the root and carries the numbered suffix. *)
Theorem collision_name_total root kind index :
  portable_component root → 1 ≤ index ≤ 9999 →
  ∃ name, collision_name root kind index = Ok name ∧ portable_component name ∧
    (index = 1 → name = root) ∧
    (index ≠ 1 → ∃ p q tail, root = p ++ q ∧ p ≠ [] ∧ name = p ++ index_suffix index ++ tail).
Proof.
  intros Hroot Hi. unfold collision_name.
  destruct (Z.eqb_spec index 1) as [->|Hne].
  { exists root. split; [by apply generated_Ok | done]. }
  fold (index_suffix index). pose proof (index_suffix_ok index Hi) as Hsuf.
  pose proof Hsuf as (_ & _ & _ & Hlen & _).
  destruct (component_with_suffix_total root (index_suffix index) Hroot Hsuf)
    as (p & q & Hq & Hp & Hfall & Hport).
  assert (∃ name, component_with_suffix root (index_suffix index) = Ok name ∧
    portable_component name ∧ (index = 1 → name = root) ∧
    (index ≠ 1 → ∃ p q tail, root = p ++ q ∧ p ≠ [] ∧ name = p ++ index_suffix index ++ tail))
    as Hdefault.
  { exists (p ++ index_suffix index). split; [done|]. split; [done|]. split; [done|].
    intros _. exists p, q, []. by rewrite app_nil_r. }
  destruct (if bool_decide _ then _ else _) as [ext|] eqn:Hext; [|done].
  case_bool_decide; [|done]. apply file_stem_extension_Some in Hext as [Hsplit Hstem].
  set (stem := (file_stem_extension root).1) in *.
  pose proof (str_len_nonneg ext) as He. pose proof Hroot as (_ & _ & _ & Hrl & _).
  assert (str_len ext ≤ 255) as Hel.
  { rewrite Hsplit, str_len_app, str_len_cons in Hrl. pose proof (str_len_nonneg stem).
    pose proof (char_len_pos 46). unfold MAX_OFFER_PORTABLE_COMPONENT_BYTES in Hrl. lia. }
  assert (255 + 8 ≤ USIZE_MAX) by done.
  rewrite (proj2 (checked_add_Some USIZE_MAX (str_len (index_suffix index)) 1 _)) by (split; [done | lia]).
  cbn [mbind option_bind].
  rewrite (proj2 (checked_add_Some USIZE_MAX (str_len (index_suffix index) + 1) (str_len ext) _))
    by (split; [done | lia]). cbn [ok_or mbind result_bind].
  set (fixed := str_len (index_suffix index) + 1 + str_len ext).
  destruct (Z.leb_spec fixed MAX_OFFER_PORTABLE_COMPONENT_BYTES) as [Hfit|];
    [|by rewrite bool_decide_eq_true_2].
  destruct (truncate_utf8_spec stem (MAX_OFFER_PORTABLE_COMPONENT_BYTES - fixed))
    as (Hmax & (rest & Hrest) & _); [lia|].
  set (t := truncate_utf8 stem (MAX_OFFER_PORTABLE_COMPONENT_BYTES - fixed)) in *.
  case_bool_decide as Ht; [done|].
  assert (root = t ++ (rest ++ 46 :: ext)) as Hrt by by rewrite Hsplit, Hrest, <- app_assoc.
  assert (portable_component (t ++ index_suffix index ++ 46 :: ext)) as Hfinal.
  { eapply (portable_generated root); [done | exact Hrt | done | done | |].
    - right. by exists stem.
    - rewrite !str_len_app, str_len_cons. change (char_len 46) with 1. subst fixed. lia. }
  exists (t ++ index_suffix index ++ 46 :: ext). split; [by apply generated_Ok|].
  split; [done|]. split; [done|]. intros _. by exists t, (rest ++ 46 :: ext), (46 :: ext).
Qed.

Lemma collision_name_total_witness :
  ∃ name, collision_name (str "report.txt") Kind_File 2 = Ok name ∧ name = str "report (2).txt".
Proof.
  destruct (collision_name_total (str "report.txt") Kind_File 2) as (name & Hname & _).
  - apply validate_component_spec. by vm_compute.
  - lia.
  - exists name. split; [exact Hname|]. vm_compute in Hname. by injection Hname as <-.
Defined.
