(* ===== verification/Identity.v ===== *)
(** * Installation identity

    Models [crates/meshelf-identity/src/lib.rs]: the domain-separated signing transcript, the
    checks of [verify], the stored record and [load_or_create] on the Linux credential store.
    [ed25519_dalek], [keyring] and the random generator are interfaces; the file-based stores
    of macOS and Windows, which differ in how the record is put on disk, are not modelled. *)

From S2P Require Import Prelude RustStr StdIo Offer.

(** The parts of [ed25519_dalek] the crate calls. *)
Class Ed25519 (SigningKey : Type) := {
  verifying_key_to_bytes : SigningKey → bytes;
  signing_key_to_bytes : SigningKey → bytes;
  signing_key_from_bytes : bytes → SigningKey;
  dalek_sign : SigningKey → bytes → bytes;
  signature_from_slice_ok : bytes → bool;
  verifying_key_from_bytes_ok : bytes → bool;
  dalek_verify : bytes → bytes → bytes → bool;
}.

(** Its documented behaviour: encodings have their lengths and parse back, and a signature
    made with a key verifies under that key. *)
Class Ed25519Laws (SigningKey : Type) `{Ed25519 SigningKey} := {
  verifying_key_length : ∀ k, length (verifying_key_to_bytes k) = 32%nat;
  signing_key_length : ∀ k, length (signing_key_to_bytes k) = 32%nat;
  signing_key_round_trip : ∀ k, signing_key_from_bytes (signing_key_to_bytes k) = k;
  signature_parses : ∀ k m, signature_from_slice_ok (dalek_sign k m) = true;
  verifying_key_parses : ∀ k, verifying_key_from_bytes_ok (verifying_key_to_bytes k) = true;
  signature_verifies : ∀ k m, dalek_verify (verifying_key_to_bytes k) m (dalek_sign k m) = true;
}.

Definition bytes_of_str (s : rstr) : bytes := map byte_of_Z s.

Definition SIGNING_DOMAIN : bytes :=
  bytes_of_str (str "meshelf/installation-signature/v1") ++ [Byte.x00].

Record InstallationIdentity (SigningKey : Type) := mkInstallationIdentity {
  ii_device_id : DeviceId;
  ii_signing_key : SigningKey;
}.
Arguments mkInstallationIdentity {_} _ _.
Arguments ii_device_id {_} _.
Arguments ii_signing_key {_} _.

Record StoredIdentity := mkStoredIdentity {
  sti_device_id : DeviceId;
  sti_secret_key : bytes;
}.

Inductive IdentityError :=
| Identity_Keyring (error : rstr)
| Identity_Json (error : rstr)
| InvalidSecretKey.

(** What [Entry::get_secret] finds. *)
Inductive SecretLookup := Secret (value : bytes) | NoEntry | SecretError (error : rstr).

(** The credential-store entry: its secret, and whether the store currently fails. *)
Record Keyring := mkKeyring {
  kr_secret : option bytes;
  kr_read_error : option rstr;
  kr_write_error : option rstr;
}.

Section identity.
Context {SigningKey : Type} `{!Ed25519 SigningKey} `{!Json StoredIdentity}.
Implicit Types (identity : InstallationIdentity SigningKey).

Definition public_key identity : bytes := verifying_key_to_bytes (ii_signing_key identity).

Definition transcript (message : bytes) : bytes := SIGNING_DOMAIN ++ message.

Definition sign identity (message : bytes) : bytes :=
  dalek_sign (ii_signing_key identity) (transcript message).

Definition verify (public_key message signature : bytes) : bool :=
  if negb (zlen public_key =? 32) then false
  else if negb (signature_from_slice_ok signature) then false
  else if negb (verifying_key_from_bytes_ok public_key) then false
  else dalek_verify public_key (transcript message) signature.

Definition to_stored identity : result IdentityError bytes :=
  map_err Identity_Json (json_to_vec
    (mkStoredIdentity (ii_device_id identity) (signing_key_to_bytes (ii_signing_key identity)))).

Definition from_stored (b : bytes)
    : result IdentityError (InstallationIdentity SigningKey) :=
  stored ← map_err Identity_Json (json_from_slice b);
  refuse_if (negb (zlen (sti_secret_key stored) =? 32)) InvalidSecretKey;;
  mret (mkInstallationIdentity (sti_device_id stored)
          (signing_key_from_bytes (sti_secret_key stored))).

Definition get_secret (keyring : Keyring) : SecretLookup :=
  match kr_read_error keyring, kr_secret keyring with
  | Some e, _ => SecretError e
  | None, Some b => Secret b
  | None, None => NoEntry
  end.

Definition set_secret (b : bytes) : St Keyring rstr () := λ keyring,
  match kr_write_error keyring with
  | Some e => (Err e, keyring)
  | None => (Ok (), mkKeyring (Some b) (kr_read_error keyring) None)
  end.

(** [load_or_create]; [generated] is the identity [Self::generate()] would draw. *)
Definition load_or_create (generated : InstallationIdentity SigningKey)
    : St Keyring IdentityError (InstallationIdentity SigningKey) :=
  keyring ← st_get;
  match get_secret keyring with
  | Secret b => st_lift (from_stored b)
  | NoEntry =>
      stored ← st_lift (to_stored generated);
      st_map_err Identity_Keyring (set_secret stored);;
      mret generated
  | SecretError e => st_err (Identity_Keyring e)
  end.

Section laws.
Context `{!Ed25519Laws SigningKey} `{!JsonLaws StoredIdentity}.

Lemma verify_sign identity message :
  verify (public_key identity) message (sign identity message) = true.
Proof.
  unfold verify, public_key, sign, zlen. rewrite verifying_key_length. simpl.
  by rewrite signature_parses, verifying_key_parses, signature_verifies.
Qed.

Lemma stored_round_trip identity b :
  to_stored identity = Ok b → from_stored b = Ok identity.
Proof.
  unfold to_stored, from_stored. rewrite map_err_Ok. intros ->%json_round_trip. simpl.
  unfold zlen. rewrite signing_key_length. simpl. rewrite signing_key_round_trip.
  by destruct identity.
Qed.

(** [load_or_create] is stable: once it has returned an identity, every later call
    against the store it left returns the same identity and leaves the store unchanged,
    whatever key the later call would have generated. *)
Lemma load_or_create_stable generated generated' identity keyring keyring' :
  load_or_create generated keyring = (Ok identity, keyring') →
  kr_read_error keyring' = None →
  load_or_create generated' keyring' = (Ok identity, keyring').
Proof.
  unfold load_or_create. simpl. intros H Hread. revert H. unfold mbind, st_bind, st_get at 1.
  simpl. unfold get_secret at 1.
  destruct (kr_read_error keyring) eqn:Hr, (kr_secret keyring) as [b|] eqn:Hs; simpl;
    try (by intros [=]).
  - intros [= Hfrom <-]. unfold get_secret. by rewrite Hr, Hs, <- Hfrom.
  - destruct (to_stored generated) as [b|] eqn:Hto; simpl; [|by intros [=]].
    unfold st_map_err, set_secret. destruct (kr_write_error keyring); simpl; [by intros [=]|].
    intros [= <- <-]. unfold get_secret. simpl. rewrite Hr. simpl.
    by rewrite (stored_round_trip _ _ Hto).
Qed.
End laws.
End identity.
