(* ===== verification/Protocol.v ===== *)
(** * The wire protocol

    Models [crates/meshelf-protocol/src/v2.rs] and [lib.rs]: the hello and protocol-2
    messages, their validation, the length-prefixed frames and the splitting of a manifest
    into control frames.  [serde_json] is the [Json] interface; a reader is the byte stream
    it delivers, so the blocking and the asynchronous variants of a codec function are one
    definition each with the same body. *)

From S2P Require Import Prelude RustStr StdIo Offer Identity.

(** ** Constants *)

Definition MAX_FRAME_BYTES : Z := MAX_TEXT_BYTES + 64 * 1024.
Definition V2_PROTOCOL_VERSION : Z := 2.
Definition CAP_OFFER_PULL_V2 : rstr := str "offer-pull-v2".
Definition V2_MAX_CONTROL_FRAME_BYTES : Z := 64 * 1024.
Definition V2_MAX_TEXT_PAYLOAD_BYTES : Z := MAX_TEXT_BYTES.
Definition V2_MAX_MANIFEST_BYTES : Z := 8 * 1024 * 1024.
Definition V2_MAX_MANIFEST_ENTRIES : Z := MAX_OFFER_MANIFEST_ENTRIES.
Definition V2_MAX_RELATIVE_PATH_BYTES : Z := 4096.
Definition V2_MAX_PORTABLE_COMPONENT_BYTES : Z := MAX_OFFER_PORTABLE_COMPONENT_BYTES.
Definition V2_MAX_FILE_BYTES : Z := MAX_OFFER_FILE_BYTES.
Definition V2_MAX_TRANSFER_BYTES : Z := MAX_OFFER_TRANSFER_BYTES.
Definition V2_MAX_ACTIVE_PAYLOAD_STREAMS : Z := 2.
Definition V2_MAX_ACTIVE_CLIPBOARD_PULLS : Z := 1.
Definition V2_MAX_INBOUND_HANDLERS : Z := 16.
Definition V2_STREAM_BUFFER_BYTES : Z := 64 * 1024.
Definition V2_PAYLOAD_INACTIVITY_SECS : Z := 60.
Definition V2_ADMISSION_TIMEOUT_SECS : Z := 5 * 60.
Definition V2_MAX_STATUS_DETAIL_BYTES : Z := 512.
Definition V2_MAX_PREVIEW_BYTES : Z := MAX_OFFER_PREVIEW_BYTES.

(** ** Errors *)

Inductive ProtocolError :=
| Proto_Io (error : IoError)
| Proto_Json (error : rstr)
| EmptyFrame
| FrameTooLarge (bytes maximum : Z)
| LengthOverflow
| V2Validation (detail : rstr).
#[export] Instance ProtocolError_eq_dec : EqDecision ProtocolError.
Proof. solve_decision. Defined.

Definition v2_validation (detail : rstr) : ProtocolError := V2Validation detail.
Definition descriptor_validation_error (error : OfferDescriptorError) : ProtocolError :=
  v2_validation (descriptor_error_to_string error).

(** ** Hello messages ([lib.rs]) *)

Record ClientHello := mkClientHello {
  ch_protocol_version : Z;
  ch_device_id : DeviceId;
  ch_device_name : rstr;
  ch_nonce : rstr;
  ch_capabilities : list rstr;
  ch_public_key : bytes;
  ch_signature : bytes;
}.
#[export] Instance ClientHello_eq_dec : EqDecision ClientHello.
Proof. solve_decision. Defined.

Record ServerHello := mkServerHello {
  sh_protocol_version : Z;
  sh_device_id : DeviceId;
  sh_device_name : rstr;
  sh_accepted : bool;
  sh_reason : option rstr;
  sh_capabilities : list rstr;
  sh_public_key : bytes;
  sh_signature : bytes;
}.
#[export] Instance ServerHello_eq_dec : EqDecision ServerHello.
Proof. solve_decision. Defined.

Inductive WireMessage :=
| Wire_ClientHello (hello : ClientHello)
| Wire_ServerHello (hello : ServerHello).
#[export] Instance WireMessage_eq_dec : EqDecision WireMessage.
Proof. solve_decision. Defined.

Inductive FileEntryKind := Entry_File | Entry_Directory.
#[export] Instance FileEntryKind_eq_dec : EqDecision FileEntryKind.
Proof. solve_decision. Defined.

(** ** Protocol-2 messages ([v2.rs]) *)

Inductive OfferAckCode :=
| Ack_Stored | Ack_Duplicate | Ack_RefusedInvalid | Ack_RefusedCapacity | Ack_RefusedConflict.
#[export] Instance OfferAckCode_eq_dec : EqDecision OfferAckCode.
Proof. solve_decision. Defined.

Record OfferAnnouncement := mkOfferAnnouncement {
  an_protocol_version : Z;
  an_offer_id : OfferId;
  an_source_device : DeviceId;
  an_target_device : DeviceId;
  an_created_at_unix_ms : Z;
  an_descriptor : OfferDescriptor;
}.
#[export] Instance OfferAnnouncement_eq_dec : EqDecision OfferAnnouncement.
Proof. solve_decision. Defined.

Definition announcement_new (offer_id : OfferId) (source_device target_device : DeviceId)
    (created_at_unix_ms : Z) (descriptor : OfferDescriptor) : OfferAnnouncement :=
  mkOfferAnnouncement V2_PROTOCOL_VERSION offer_id source_device target_device
    created_at_unix_ms descriptor.

Record OfferAck := mkOfferAck {
  ack_offer_id : OfferId;
  ack_code : OfferAckCode;
  ack_live_entries : Z;
  ack_max_live_entries : Z;
  ack_pruned_entries : Z;
  ack_detail : option rstr;
}.
#[export] Instance OfferAck_eq_dec : EqDecision OfferAck.
Proof. solve_decision. Defined.

Record FetchRequest := mkFetchRequest {
  fr_request_id : ActivationId;
  fr_offer_id : OfferId;
  fr_source_device : DeviceId;
  fr_requester_device : DeviceId;
}.
#[export] Instance FetchRequest_eq_dec : EqDecision FetchRequest.
Proof. solve_decision. Defined.

Inductive FetchRefusalCode :=
| Refusal_UnknownOffer
| Refusal_NotAnnouncedToRequester
| Refusal_SourceUnavailable
| Refusal_SourceChanged
| Refusal_Busy
| Refusal_Malformed
| Refusal_Unsupported.
#[export] Instance FetchRefusalCode_eq_dec : EqDecision FetchRefusalCode.
Proof. solve_decision. Defined.

Record FetchRefusal := mkFetchRefusal {
  rf_request_id : ActivationId;
  rf_offer_id : OfferId;
  rf_code : FetchRefusalCode;
  rf_active_streams : Z;
  rf_max_active_streams : Z;
  rf_detail : option rstr;
}.
#[export] Instance FetchRefusal_eq_dec : EqDecision FetchRefusal.
Proof. solve_decision. Defined.

Record FetchHeader := mkFetchHeader {
  fh_request_id : ActivationId;
  fh_offer_id : OfferId;
  fh_descriptor : OfferDescriptor;
  fh_manifest_entries : Z;
  fh_manifest_encoded_bytes : Z;
  fh_text_sha256 : option bytes;
  fh_manifest_sha256 : option bytes;
}.
#[export] Instance FetchHeader_eq_dec : EqDecision FetchHeader.
Proof. solve_decision. Defined.

Record ManifestEntry := mkManifestEntry {
  me_relative_path : rstr;
  me_kind : FileEntryKind;
  me_byte_len : Z;
}.
#[export] Instance ManifestEntry_eq_dec : EqDecision ManifestEntry.
Proof. solve_decision. Defined.

Record ManifestChunk := mkManifestChunk {
  mc_request_id : ActivationId;
  mc_first_index : Z;
  mc_entries : list ManifestEntry;
}.
#[export] Instance ManifestChunk_eq_dec : EqDecision ManifestChunk.
Proof. solve_decision. Defined.

Record ManifestEnd := mkManifestEnd {
  mend_request_id : ActivationId;
  mend_entry_count : Z;
  mend_file_count : Z;
  mend_total_bytes : Z;
  mend_manifest_sha256 : bytes;
}.
#[export] Instance ManifestEnd_eq_dec : EqDecision ManifestEnd.
Proof. solve_decision. Defined.

Inductive FetchAdmissionCode :=
| Admission_Accepted
| Admission_RefusedBusy
| Admission_InvalidManifest
| Admission_TooLarge
| Admission_InsufficientSpace
| Admission_DestinationUnavailable
| Admission_AllocationFailed
| Admission_UnsupportedMode
| Admission_Cancelled.
#[export] Instance FetchAdmissionCode_eq_dec : EqDecision FetchAdmissionCode.
Proof. solve_decision. Defined.

Record FetchAdmission := mkFetchAdmission {
  ad_request_id : ActivationId;
  ad_code : FetchAdmissionCode;
  ad_entries_reserved : Z;
  ad_bytes_reserved : Z;
  ad_detail : option rstr;
}.
#[export] Instance FetchAdmission_eq_dec : EqDecision FetchAdmission.
Proof. solve_decision. Defined.

Record FileStart := mkFileStart {
  fs_request_id : ActivationId;
  fs_entry_index : Z;
  fs_byte_len : Z;
}.
#[export] Instance FileStart_eq_dec : EqDecision FileStart.
Proof. solve_decision. Defined.

Record FileEnd := mkFileEnd {
  fe_request_id : ActivationId;
  fe_entry_index : Z;
  fe_sha256 : bytes;
}.
#[export] Instance FileEnd_eq_dec : EqDecision FileEnd.
Proof. solve_decision. Defined.

Record TextEnd := mkTextEnd {
  te_request_id : ActivationId;
  te_sha256 : bytes;
}.
#[export] Instance TextEnd_eq_dec : EqDecision TextEnd.
Proof. solve_decision. Defined.

Record FetchComplete := mkFetchComplete {
  fc_request_id : ActivationId;
  fc_files_sent : Z;
  fc_bytes_sent : Z;
  fc_content_set_sha256 : bytes;
}.
#[export] Instance FetchComplete_eq_dec : EqDecision FetchComplete.
Proof. solve_decision. Defined.

Inductive FetchAbortCode :=
| Abort_SourceUnavailable | Abort_SourceChanged | Abort_Cancelled | Abort_InternalError.
#[export] Instance FetchAbortCode_eq_dec : EqDecision FetchAbortCode.
Proof. solve_decision. Defined.

Record FetchAbort := mkFetchAbort {
  ab_request_id : ActivationId;
  ab_code : FetchAbortCode;
  ab_files_sent : Z;
  ab_bytes_sent : Z;
  ab_detail : option rstr;
}.
#[export] Instance FetchAbort_eq_dec : EqDecision FetchAbort.
Proof. solve_decision. Defined.

Inductive FetchReceiptCode :=
| Receipt_Completed
| Receipt_ConnectionLost
| Receipt_Cancelled
| Receipt_VerificationFailed
| Receipt_ClipboardFailed
| Receipt_UncertainNoReplay
| Receipt_InternalError.
#[export] Instance FetchReceiptCode_eq_dec : EqDecision FetchReceiptCode.
Proof. solve_decision. Defined.

Record FetchReceipt := mkFetchReceipt {
  rc_request_id : ActivationId;
  rc_offer_id : OfferId;
  rc_code : FetchReceiptCode;
  rc_files_received : Z;
  rc_bytes_received : Z;
  rc_detail : option rstr;
}.
#[export] Instance FetchReceipt_eq_dec : EqDecision FetchReceipt.
Proof. solve_decision. Defined.

Inductive V2Message :=
| Msg_OfferAnnouncement (value : OfferAnnouncement)
| Msg_OfferAck (value : OfferAck)
| Msg_FetchRequest (value : FetchRequest)
| Msg_FetchRefusal (value : FetchRefusal)
| Msg_FetchHeader (value : FetchHeader)
| Msg_ManifestChunk (value : ManifestChunk)
| Msg_ManifestEnd (value : ManifestEnd)
| Msg_FetchAdmission (value : FetchAdmission)
| Msg_FileStart (value : FileStart)
| Msg_FileEnd (value : FileEnd)
| Msg_TextEnd (value : TextEnd)
| Msg_FetchComplete (value : FetchComplete)
| Msg_FetchAbort (value : FetchAbort)
| Msg_FetchReceipt (value : FetchReceipt).
#[export] Instance V2Message_eq_dec : EqDecision V2Message.
Proof. solve_decision. Defined.

Definition fetch_request_new (request_id : ActivationId) (offer_id : OfferId)
    (source_device requester_device : DeviceId) : FetchRequest :=
  mkFetchRequest request_id offer_id source_device requester_device.

(** ** Message validation *)

Definition validate_detail (detail : option rstr) : result ProtocolError () :=
  match detail with
  | Some detail =>
      refuse_if (V2_MAX_STATUS_DETAIL_BYTES <? str_len detail)
        (v2_validation (str "status detail is " ++ show_int (str_len detail)
           ++ str " bytes; maximum is " ++ show_int V2_MAX_STATUS_DETAIL_BYTES))
  | None => Ok ()
  end.

Definition announcement_validate (a : OfferAnnouncement) : result ProtocolError () :=
  refuse_if (negb (an_protocol_version a =? V2_PROTOCOL_VERSION))
    (v2_validation (str "unsupported v2 protocol version "
       ++ show_int (an_protocol_version a)
       ++ str "; expected " ++ show_int V2_PROTOCOL_VERSION));;
  map_err descriptor_validation_error (descriptor_validate (an_descriptor a)).

Definition conflicts_with (self other : OfferAnnouncement) : bool :=
  bool_decide (an_offer_id self = an_offer_id other)
  && (negb (bool_decide (an_source_device self = an_source_device other))
      || negb (an_created_at_unix_ms self =? an_created_at_unix_ms other)
      || negb (bool_decide (an_descriptor self = an_descriptor other))).

Definition refusal_validate_for (r : FetchRefusal) (descriptor : OfferDescriptor)
    : result ProtocolError () :=
  validate_detail (rf_detail r);;
  refuse_if (descriptor_is_text descriptor && bool_decide (rf_code r = Refusal_SourceChanged))
    (v2_validation (str "source_changed is not a valid refusal for a text descriptor")).

(** The protocol's own relative-path rule: weaker than the receiver's
    ([Names.validate_relative_path]), which is applied before anything is written. *)
Fixpoint wire_validate_components (components : list rstr) : result ProtocolError () :=
  match components with
  | [] => Ok ()
  | component :: rest =>
      refuse_if (bool_decide (component = []) || bool_decide (component = str ".")
                 || bool_decide (component = str ".."))
        (v2_validation (str "relative path contains an invalid component"));;
      refuse_if (V2_MAX_PORTABLE_COMPONENT_BYTES <? str_len component)
        (v2_validation (str "path component is " ++ show_int (str_len component)
           ++ str " bytes; maximum is " ++ show_int V2_MAX_PORTABLE_COMPONENT_BYTES));;
      refuse_if (existsb is_control component)
        (v2_validation (str "relative path contains a control character"));;
      wire_validate_components rest
  end.
Definition wire_validate_relative_path (path : rstr) : result ProtocolError () :=
  refuse_if (starts_with_char 47 path || contains_char 92 path)
    (v2_validation (str "relative path is not portable"));;
  wire_validate_components (split_char 47 path).

Definition manifest_entry_validate (e : ManifestEntry) : result ProtocolError () :=
  refuse_if (V2_MAX_RELATIVE_PATH_BYTES <? str_len (me_relative_path e))
    (v2_validation (str "relative path is " ++ show_int (str_len (me_relative_path e))
       ++ str " bytes; maximum is " ++ show_int V2_MAX_RELATIVE_PATH_BYTES));;
  (if bool_decide (me_relative_path e = []) then
     refuse_if (negb (bool_decide (me_kind e = Entry_File)))
       (v2_validation (str "only a file may use an empty relative path"))
   else wire_validate_relative_path (me_relative_path e));;
  match me_kind e with
  | Entry_File =>
      refuse_if (V2_MAX_FILE_BYTES <? me_byte_len e)
        (v2_validation (str "file is " ++ show_int (me_byte_len e)
           ++ str " bytes; maximum is " ++ show_int V2_MAX_FILE_BYTES))
  | Entry_Directory =>
      refuse_if (negb (me_byte_len e =? 0))
        (v2_validation (str "directory entries must have zero bytes"))
  end.

(** [for entry in entries { entry.validate()?; }] *)
Fixpoint entries_validate (entries : list ManifestEntry) : result ProtocolError () :=
  match entries with
  | [] => Ok ()
  | entry :: rest => manifest_entry_validate entry;; entries_validate rest
  end.

(** The files' total, [try_fold] with [checked_add] over the entries that are files. *)
Fixpoint file_bytes (total : Z) (entries : list ManifestEntry) : option Z :=
  match entries with
  | [] => Some total
  | entry :: rest =>
      match me_kind entry with
      | Entry_File => checked_add U64_MAX total (me_byte_len entry) ≫= λ t, file_bytes t rest
      | Entry_Directory => file_bytes total rest
      end
  end.

Definition validate_manifest_chunk (chunk : ManifestChunk) : result ProtocolError () :=
  end_index ← ok_or (checked_add U32_MAX (mc_first_index chunk)
                       (as_u32 (zlen (mc_entries chunk))))
                    (v2_validation (str "manifest index overflow"));
  refuse_if (V2_MAX_MANIFEST_ENTRIES <? end_index)
    (v2_validation (str "manifest entry count exceeds the v2 bound"));;
  entries_validate (mc_entries chunk);;
  total_bytes ← ok_or (file_bytes 0 (mc_entries chunk))
                      (v2_validation (str "manifest transfer size overflow"));
  refuse_if (V2_MAX_TRANSFER_BYTES <? total_bytes)
    (v2_validation (str "manifest transfer size exceeds the v2 bound")).

(** [validate_manifest_entries]: validation and accumulation alternate entry by entry. *)
Fixpoint entries_validate_total (total : Z) (entries : list ManifestEntry)
    : result ProtocolError Z :=
  match entries with
  | [] => Ok total
  | entry :: rest =>
      manifest_entry_validate entry;;
      total ← match me_kind entry with
              | Entry_File => ok_or (checked_add U64_MAX total (me_byte_len entry))
                                (v2_validation (str "manifest transfer size overflow"))
              | Entry_Directory => Ok total
              end;
      entries_validate_total total rest
  end.
Definition validate_manifest_entries (entries : list ManifestEntry)
    : result ProtocolError () :=
  count ← ok_or (try_from U32_MAX (zlen entries))
            (v2_validation (str "manifest entry count cannot be represented as u32"));
  refuse_if (V2_MAX_MANIFEST_ENTRIES <? count)
    (v2_validation (str "manifest entry count exceeds the v2 bound"));;
  total_bytes ← entries_validate_total 0 entries;
  refuse_if (V2_MAX_TRANSFER_BYTES <? total_bytes)
    (v2_validation (str "manifest transfer size exceeds the v2 bound")).

Definition validate_v2_message (message : V2Message) : result ProtocolError () :=
  match message with
  | Msg_OfferAnnouncement value => announcement_validate value
  | Msg_OfferAck value =>
      refuse_if ((ack_max_live_entries value <? ack_live_entries value)
                 || negb (ack_max_live_entries value =? V2_MAX_LIVE_ENTRIES))
        (v2_validation (str "offer card capacity is not the v2 bound"));;
      validate_detail (ack_detail value)
  | Msg_FetchRequest _ => Ok ()
  | Msg_FetchRefusal value =>
      refuse_if ((rf_max_active_streams value <? rf_active_streams value)
                 || negb (rf_max_active_streams value =? V2_MAX_ACTIVE_PAYLOAD_STREAMS))
        (v2_validation (str "payload stream capacity is not the v2 bound"));;
      validate_detail (rf_detail value);;
      Ok ()
  | Msg_FetchHeader value =>
      map_err descriptor_validation_error (descriptor_validate (fh_descriptor value));;
      refuse_if (V2_MAX_MANIFEST_ENTRIES <? fh_manifest_entries value)
        (v2_validation (str "manifest entry count exceeds the v2 bound"));;
      refuse_if (V2_MAX_MANIFEST_BYTES <? fh_manifest_encoded_bytes value)
        (v2_validation (str "encoded manifest exceeds the v2 bound"))
  | Msg_ManifestChunk value => validate_manifest_chunk value
  | Msg_ManifestEnd value =>
      refuse_if (V2_MAX_MANIFEST_ENTRIES <? mend_entry_count value)
        (v2_validation (str "manifest entry count exceeds the v2 bound"));;
      refuse_if (V2_MAX_TRANSFER_BYTES <? mend_total_bytes value)
        (v2_validation (str "manifest transfer size exceeds the v2 bound"))
  | Msg_FetchAdmission value =>
      refuse_if (V2_MAX_MANIFEST_ENTRIES <? ad_entries_reserved value)
        (v2_validation (str "reserved entry count exceeds the v2 bound"));;
      refuse_if (V2_MAX_TRANSFER_BYTES <? ad_bytes_reserved value)
        (v2_validation (str "reserved transfer size exceeds the v2 bound"));;
      validate_detail (ad_detail value)
  | Msg_FileStart value =>
      refuse_if (V2_MAX_MANIFEST_ENTRIES <=? fs_entry_index value)
        (v2_validation (str "file entry index exceeds the v2 bound"));;
      refuse_if (V2_MAX_FILE_BYTES <? fs_byte_len value)
        (v2_validation (str "file size exceeds the v2 bound"))
  | Msg_FileEnd _ | Msg_TextEnd _ => Ok ()
  | Msg_FetchComplete value =>
      refuse_if (V2_MAX_MANIFEST_ENTRIES <? fc_files_sent value)
        (v2_validation (str "sent file count exceeds the v2 bound"));;
      refuse_if (V2_MAX_TRANSFER_BYTES <? fc_bytes_sent value)
        (v2_validation (str "sent transfer size exceeds the v2 bound"))
  | Msg_FetchAbort value => validate_detail (ab_detail value)
  | Msg_FetchReceipt value =>
      refuse_if (V2_MAX_MANIFEST_ENTRIES <? rc_files_received value)
        (v2_validation (str "received file count exceeds the v2 bound"));;
      refuse_if (V2_MAX_TRANSFER_BYTES <? rc_bytes_received value)
        (v2_validation (str "received transfer size exceeds the v2 bound"));;
      validate_detail (rc_detail value)
  end.

(** ** Frames *)

Definition validate_len (maximum length : Z) : result ProtocolError () :=
  refuse_if (length =? 0) EmptyFrame;;
  refuse_if (maximum <? length) (FrameTooLarge length maximum).
(** [validate_payload_len] of the hello frames and [validate_v2_payload_len]. *)
Definition validate_payload_len : Z → result ProtocolError () := validate_len MAX_FRAME_BYTES.
Definition validate_v2_payload_len : Z → result ProtocolError () :=
  validate_len V2_MAX_CONTROL_FRAME_BYTES.

(** The length prefix and the payload. *)
Definition frame_payload (payload : bytes) : result ProtocolError bytes :=
  payload_len ← ok_or (try_from U32_MAX (zlen payload)) LengthOverflow;
  mret (u32_to_be_bytes payload_len ++ payload).

(** The prefix, the length check, then the payload it announces. *)
Definition read_payload (validate : Z → result ProtocolError ())
    : St bytes ProtocolError bytes :=
  length_bytes ← st_map_err Proto_Io (read_exact 4);
  let length := u32_from_be_bytes length_bytes in
  st_lift (validate length);;
  st_map_err Proto_Io (read_exact length).

Section frames.
Context `{!Json V2Message} `{!Json WireMessage}.

Definition encode_frame (message : WireMessage) : result ProtocolError bytes :=
  payload ← map_err Proto_Json (json_to_vec message);
  validate_payload_len (zlen payload);;
  frame_payload payload.

(** [read_frame] and [read_frame_async]. *)
Definition read_frame : St bytes ProtocolError WireMessage :=
  payload ← read_payload validate_payload_len;
  st_lift (map_err Proto_Json (json_from_slice payload)).

Definition read_client_hello_async : St bytes ProtocolError ClientHello :=
  payload ← read_payload validate_payload_len;
  message ← st_lift (map_err Proto_Json (json_from_slice (A := WireMessage) payload));
  match message with
  | Wire_ClientHello hello => mret hello
  | Wire_ServerHello _ =>
      st_err (V2Validation (str "expected client_hello as the first frame"))
  end.

Definition encode_v2_frame (message : V2Message) : result ProtocolError bytes :=
  validate_v2_message message;;
  payload ← map_err Proto_Json (json_to_vec message);
  validate_v2_payload_len (zlen payload);;
  frame_payload payload.

Definition decode_v2_payload (payload : bytes) : result ProtocolError V2Message :=
  validate_v2_payload_len (zlen payload);;
  map_err Proto_Json (json_from_slice payload).

(** [read_v2_frame] and [read_v2_frame_async]. *)
Definition read_v2_frame : St bytes ProtocolError V2Message :=
  payload ← read_payload validate_v2_payload_len;
  st_lift (decode_v2_payload payload).

Section writers.
Context {W : Type} `{!Writer W}.

Definition write_encoded (encoded : result ProtocolError bytes) : St W ProtocolError () :=
  frame ← st_lift encoded;
  st_map_err Proto_Io (write_all frame);;
  st_map_err Proto_Io flush.
(** [write_frame] and [write_frame_async]; [write_v2_frame] and [write_v2_frame_async]. *)
Definition write_frame (message : WireMessage) : St W ProtocolError () :=
  write_encoded (encode_frame message).
Definition write_v2_frame (message : V2Message) : St W ProtocolError () :=
  write_encoded (encode_v2_frame message).
End writers.

(** ** Manifest chunks *)

Definition chunk_payload (chunk : ManifestChunk) : result ProtocolError bytes :=
  map_err Proto_Json (json_to_vec (Msg_ManifestChunk chunk)).

(** [ManifestChunk::new] *)
Definition manifest_chunk_new (request_id : ActivationId) (first_index : Z)
    (entries : list ManifestEntry) : result ProtocolError ManifestChunk :=
  let chunk := mkManifestChunk request_id first_index entries in
  validate_manifest_chunk chunk;;
  payload ← chunk_payload chunk;
  validate_v2_payload_len (zlen payload);;
  mret chunk.

(** The loop of [encoded_manifest_bytes] and the function itself. *)
Fixpoint encoded_bytes_loop (total : Z) (chunks : list ManifestChunk)
    : result ProtocolError Z :=
  match chunks with
  | [] => Ok total
  | chunk :: rest =>
      validate_manifest_chunk chunk;;
      encoded ← chunk_payload chunk;
      validate_v2_payload_len (zlen encoded);;
      total ← ok_or (checked_add USIZE_MAX total (zlen encoded))
                (v2_validation (str "encoded manifest size overflow"));
      encoded_bytes_loop total rest
  end.
Definition manifest_too_large (total : Z) : ProtocolError :=
  v2_validation (str "encoded manifest is " ++ show_int total
    ++ str " bytes; maximum is " ++ show_int V2_MAX_MANIFEST_BYTES).
Definition encoded_manifest_bytes (chunks : list ManifestChunk) : result ProtocolError Z :=
  total ← encoded_bytes_loop 0 chunks;
  refuse_if (V2_MAX_MANIFEST_BYTES <? total) (manifest_too_large total);;
  mret total.

(** The loop of [chunk_manifest] over the entries not yet placed, with its locals
    [chunks], [current] and [first_index]. *)
Fixpoint chunk_loop (request_id : ActivationId) (chunks : list ManifestChunk)
    (current : list ManifestEntry) (first_index : Z) (entries : list ManifestEntry)
    : result ProtocolError (list ManifestChunk * list ManifestEntry * Z) :=
  match entries with
  | [] => Ok (chunks, current, first_index)
  | entry :: rest =>
      candidate_payload ←
        chunk_payload (mkManifestChunk request_id first_index (current ++ [entry]));
      let candidate_len := zlen candidate_payload in
      if candidate_len <=? V2_MAX_CONTROL_FRAME_BYTES then
        chunk_loop request_id chunks (current ++ [entry]) first_index rest
      else
        refuse_if (bool_decide (current = []))
          (FrameTooLarge candidate_len V2_MAX_CONTROL_FRAME_BYTES);;
        chunk ← manifest_chunk_new request_id first_index current;
        first_index ← ok_or (checked_add U32_MAX (mc_first_index chunk)
                               (as_u32 (zlen (mc_entries chunk))))
                        (v2_validation (str "manifest index overflow"));
        chunk_loop request_id (chunks ++ [chunk]) [entry] first_index rest
  end.

Definition chunk_manifest (request_id : ActivationId) (entries : list ManifestEntry)
    : result ProtocolError (list ManifestChunk) :=
  validate_manifest_entries entries;;
  if bool_decide (entries = []) then mret []
  else
    '(chunks, current, first_index) ← chunk_loop request_id [] [] 0 entries;
    chunks ← (if bool_decide (current = []) then Ok chunks
              else chunk ← manifest_chunk_new request_id first_index current;
                   mret (chunks ++ [chunk]));
    encoded_bytes ← encoded_manifest_bytes chunks;
    refuse_if (V2_MAX_MANIFEST_BYTES <? encoded_bytes) (manifest_too_large encoded_bytes);;
    mret chunks.

Fixpoint encode_chunks (chunks : list ManifestChunk) : result ProtocolError (list bytes) :=
  match chunks with
  | [] => Ok []
  | chunk :: rest =>
      frame ← encode_v2_frame (Msg_ManifestChunk chunk);
      frames ← encode_chunks rest;
      mret (frame :: frames)
  end.
Definition encode_manifest_chunks (request_id : ActivationId)
    (entries : list ManifestEntry) : result ProtocolError (list bytes) :=
  chunks ← chunk_manifest request_id entries;
  encode_chunks chunks.
End frames.

(** ** Hello construction and signatures ([lib.rs]) *)

Definition client_hello_v2 (device_id : DeviceId) (device_name nonce : rstr) : ClientHello :=
  mkClientHello V2_PROTOCOL_VERSION device_id device_name nonce [CAP_OFFER_PULL_V2] [] [].

Section hellos.
Context {SigningKey : Type} `{!Ed25519 SigningKey}.
Context `{!Json ClientHello} `{!Json ServerHello}.

(** [signing_bytes] panics when the hello does not serialize; [None] is that panic. *)
Definition client_signing_bytes (h : ClientHello) : option bytes :=
  match json_to_vec (mkClientHello (ch_protocol_version h) (ch_device_id h)
                       (ch_device_name h) (ch_nonce h) (ch_capabilities h)
                       (ch_public_key h) []) with
  | Ok b => Some b
  | Err _ => None
  end.
Definition client_signed_v2 (device_id : DeviceId) (device_name nonce : rstr)
    (identity : InstallationIdentity SigningKey) : option ClientHello :=
  let hello := mkClientHello V2_PROTOCOL_VERSION device_id device_name nonce
                 [CAP_OFFER_PULL_V2] (public_key identity) [] in
  b ← client_signing_bytes hello;
  Some (mkClientHello (ch_protocol_version hello) (ch_device_id hello)
          (ch_device_name hello) (ch_nonce hello) (ch_capabilities hello)
          (ch_public_key hello) (sign identity b)).
Definition client_has_valid_signature (h : ClientHello) : option bool :=
  b ← client_signing_bytes h;
  Some (verify (ch_public_key h) b (ch_signature h)).

Definition server_signing_bytes (h : ServerHello) : option bytes :=
  match json_to_vec (mkServerHello (sh_protocol_version h) (sh_device_id h)
                       (sh_device_name h) (sh_accepted h) (sh_reason h)
                       (sh_capabilities h) (sh_public_key h) []) with
  | Ok b => Some b
  | Err _ => None
  end.
Definition server_signed (protocol_version : Z) (device_id : DeviceId) (device_name : rstr)
    (accepted : bool) (reason : option rstr) (capabilities : list rstr)
    (identity : InstallationIdentity SigningKey) : option ServerHello :=
  let hello signature := mkServerHello protocol_version device_id device_name accepted
                           reason capabilities (public_key identity) signature in
  b ← server_signing_bytes (hello []);
  Some (hello (sign identity b)).
Definition server_has_valid_signature (h : ServerHello) : option bool :=
  b ← server_signing_bytes h;
  Some (verify (sh_public_key h) b (sh_signature h)).
End hellos.

(** ** Lemmas: lengths and frames *)

Lemma validate_len_Ok maximum length :
  validate_len maximum length = Ok () ↔ length ≠ 0 ∧ length ≤ maximum.
Proof. unfold validate_len. rewrite refuse_seq_Ok, refuse_if_Ok, Z.eqb_neq, Z.ltb_ge. done. Qed.

Lemma v2_len_Ok length :
  validate_v2_payload_len length = Ok () ↔ length ≠ 0 ∧ length ≤ V2_MAX_CONTROL_FRAME_BYTES.
Proof. apply validate_len_Ok. Qed.

Lemma frame_payload_Ok payload frame :
  frame_payload payload = Ok frame ↔
  zlen payload ≤ U32_MAX ∧ frame = u32_to_be_bytes (zlen payload) ++ payload.
Proof.
  unfold frame_payload. rewrite bind_Ok. setoid_rewrite ok_or_Ok.
  setoid_rewrite try_from_Some. pose proof (zlen_nonneg payload). split.
  - by intros (n & (-> & _ & ?) & [= <-]).
  - intros [? ->]. exists (zlen payload). done.
Qed.

(** A reader positioned at a frame whose length passes its check consumes exactly it. *)
Lemma read_payload_frame validate payload rest :
  zlen payload ≤ U32_MAX → validate (zlen payload) = Ok () →
  read_payload validate (u32_to_be_bytes (zlen payload) ++ payload ++ rest)
  = (Ok payload, rest).
Proof.
  intros Hlen Hval. unfold read_payload, mbind, st_bind, st_map_err.
  rewrite (read_exact_app (u32_to_be_bytes (zlen payload))) by done.
  cbn [map_err]. rewrite u32_be_round_trip by (split; auto).
  unfold st_lift. rewrite Hval. by rewrite read_exact_app.
Qed.

Lemma read_payload_refused validate prefix rest e :
  length prefix = 4%nat → validate (u32_from_be_bytes prefix) = Err e →
  read_payload validate (prefix ++ rest) = (Err e, rest).
Proof.
  intros Hlen Hval. unfold read_payload, mbind, st_bind, st_map_err.
  rewrite (read_exact_app prefix) by (unfold zlen; lia). cbn [map_err]. unfold st_lift.
  by rewrite Hval.
Qed.

Section frame_theorems.
Context `{!Json V2Message} `{!Json WireMessage}.

Lemma encode_v2_frame_Ok message frame :
  encode_v2_frame message = Ok frame ↔
  ∃ payload, validate_v2_message message = Ok () ∧ json_to_vec message = Ok payload ∧
    zlen payload ≠ 0 ∧ zlen payload ≤ V2_MAX_CONTROL_FRAME_BYTES ∧
    frame = u32_to_be_bytes (zlen payload) ++ payload.
Proof.
  unfold encode_v2_frame. rewrite unit_seq_Ok, bind_Ok. split.
  - intros (Hv & payload & Hp & Hr). rewrite map_err_Ok in Hp.
    rewrite unit_seq_Ok, v2_len_Ok, frame_payload_Ok in Hr. exists payload. tauto.
  - intros (payload & Hv & Hp & H0 & Hmax & ->). split; [done|]. exists payload.
    rewrite map_err_Ok, unit_seq_Ok, v2_len_Ok, frame_payload_Ok.
    repeat split; try done. unfold V2_MAX_CONTROL_FRAME_BYTES, U32_MAX in *. lia.
Qed.

(** [read_v2_frame] called [n] times on one stream. *)
Fixpoint read_v2_frames (n : nat) : St bytes ProtocolError (list V2Message) :=
  match n with
  | O => mret []
  | S n =>
      message ← read_v2_frame;
      messages ← read_v2_frames n;
      mret (message :: messages)
  end.

Lemma read_v2_frame_encoded `{!JsonLaws V2Message} message frame rest :
  encode_v2_frame message = Ok frame →
  read_v2_frame (frame ++ rest) = (Ok message, rest).
Proof.
  intros (payload & _ & Hp & H0 & Hmax & ->)%encode_v2_frame_Ok.
  unfold read_v2_frame, mbind, st_bind. rewrite <- (assoc_L (++)).
  rewrite read_payload_frame;
    [| unfold V2_MAX_CONTROL_FRAME_BYTES, U32_MAX in *; lia | by apply v2_len_Ok].
  unfold st_lift, decode_v2_payload. rewrite (proj2 (v2_len_Ok _)) by done.
  simpl. by rewrite (json_round_trip _ _ Hp).
Qed.

(** C34: the stream of control frames is self-delimiting: reading as many frames as were
    written gives back the messages in order and leaves exactly the bytes that follow, and
    every frame carries at most 64 KiB after its four-byte prefix. *)
Theorem v2_stream_round_trip `{!JsonLaws V2Message} messages frames rest :
  Forall2 (λ message frame, encode_v2_frame message = Ok frame) messages frames →
  read_v2_frames (length messages) (concat frames ++ rest) = (Ok messages, rest) ∧
  Forall (λ frame, 4 < zlen frame ≤ 4 + V2_MAX_CONTROL_FRAME_BYTES) frames.
Proof.
  induction 1 as [|message frame messages frames Hm _ [IH IHf]]; [done|]. split.
  - cbn [length read_v2_frames concat]. rewrite <- (assoc_L (++)).
    unfold mbind, st_bind in *. rewrite (read_v2_frame_encoded _ _ _ Hm).
    by rewrite IH.
  - constructor; [|done].
    apply encode_v2_frame_Ok in Hm as (payload & _ & _ & H0 & Hmax & ->).
    rewrite zlen_app. change (zlen (u32_to_be_bytes _)) with 4.
    pose proof (zlen_nonneg payload). lia.
Qed.

(** a hello or control frame that announces a length of zero or above its limit is
    refused with the matching error after its four prefix bytes, so no payload of that
    length is ever allocated or read. *)
Theorem oversized_frame_refused prefix rest :
  length prefix = 4%nat →
  let announced := u32_from_be_bytes prefix in
  let refusal maximum := if announced =? 0 then EmptyFrame
                         else FrameTooLarge announced maximum in
  (announced = 0 ∨ V2_MAX_CONTROL_FRAME_BYTES < announced →
     read_v2_frame (prefix ++ rest) = (Err (refusal V2_MAX_CONTROL_FRAME_BYTES), rest)) ∧
  (announced = 0 ∨ MAX_FRAME_BYTES < announced →
     read_frame (prefix ++ rest) = (Err (refusal MAX_FRAME_BYTES), rest) ∧
     read_client_hello_async (prefix ++ rest) = (Err (refusal MAX_FRAME_BYTES), rest)).
Proof.
  intros Hlen announced refusal.
  assert (∀ maximum, announced = 0 ∨ maximum < announced →
    validate_len maximum announced = Err (refusal maximum)) as Hval.
  { intros maximum H. unfold validate_len, refusal.
    destruct (Z.eqb_spec announced 0); [done|]. simpl.
    destruct (Z.ltb_spec maximum announced); [done|lia]. }
  assert (∀ maximum, announced = 0 ∨ maximum < announced →
    read_payload (validate_len maximum) (prefix ++ rest) = (Err (refusal maximum), rest)) as Hr.
  { intros maximum H. apply read_payload_refused; [done | by apply Hval]. }
  split; [intros H | intros H; split];
    unfold read_v2_frame, read_frame, read_client_hello_async, mbind, st_bind;
    unfold validate_v2_payload_len, validate_payload_len; by rewrite (Hr _ H).
Qed.
End frame_theorems.

(** ** Lemmas: manifest validation *)

Definition entry_typed (e : ManifestEntry) : Prop := is_u64 (me_byte_len e).
Definition entry_valid (e : ManifestEntry) : Prop := manifest_entry_validate e = Ok ().
(** What an entry adds to the transfer size. *)
Definition file_size (e : ManifestEntry) : Z :=
  match me_kind e with Entry_File => me_byte_len e | Entry_Directory => 0 end.

Lemma file_size_nonneg e : entry_typed e → 0 ≤ file_size e.
Proof. unfold entry_typed, is_u64, file_size. destruct (me_kind e); lia. Qed.

Lemma sum_file_size_nonneg es : Forall entry_typed es → 0 ≤ sum_with file_size es.
Proof. intros H. apply sum_with_nonneg. eapply Forall_impl; [done|]. apply file_size_nonneg. Qed.

Lemma entries_validate_Ok es : entries_validate es = Ok () ↔ Forall entry_valid es.
Proof.
  induction es as [|e es IH]; simpl; [by split|].
  by rewrite unit_seq_Ok, Forall_cons, IH.
Qed.

Lemma file_bytes_Some total es n :
  Forall entry_typed es → total ≤ U64_MAX →
  file_bytes total es = Some n ↔
  n = total + sum_with file_size es ∧ total + sum_with file_size es ≤ U64_MAX.
Proof.
  revert total. induction es as [|e es IH]; intros total Hty Htot; simpl.
  { split; [intros [= <-]; lia | intros [-> _]; f_equal; lia]. }
  apply Forall_cons in Hty as [He Hes]. pose proof (sum_file_size_nonneg _ Hes).
  unfold file_size at 1 3. destruct (me_kind e); cbn iota; [|by rewrite IH, Z.add_0_l].
  rewrite bind_Some. setoid_rewrite checked_add_Some. split.
  - intros (t & [-> ?] & Ht). rewrite IH in Ht by done. lia.
  - intros [-> ?]. exists (total + me_byte_len e). split; [lia|]. rewrite IH by (done || lia). lia.
Qed.

Lemma entries_validate_total_Ok total es n :
  Forall entry_typed es → total ≤ U64_MAX →
  entries_validate_total total es = Ok n ↔
  Forall entry_valid es ∧ n = total + sum_with file_size es ∧
  total + sum_with file_size es ≤ U64_MAX.
Proof.
  revert total. induction es as [|e es IH]; intros total Hty Htot; simpl.
  { split; [intros [= <-]; split_and!; auto; lia | intros (_ & -> & _); f_equal; lia]. }
  apply Forall_cons in Hty as [He Hes]. pose proof (sum_file_size_nonneg _ Hes).
  rewrite unit_seq_Ok, bind_Ok, Forall_cons. unfold file_size at 1 3.
  destruct (me_kind e); cbn iota.
  - setoid_rewrite ok_or_Ok. setoid_rewrite checked_add_Some. split.
    + intros (Hv & t & [-> ?] & Ht). rewrite IH in Ht by done.
      destruct Ht as (? & -> & ?). split_and!; [done..|lia|lia].
    + intros ([Hv Hvs] & -> & ?). split; [done|]. exists (total + me_byte_len e).
      split; [lia|]. rewrite IH by (done || lia). split; [done|lia].
  - split.
    + intros (Hv & t & [= <-] & Ht). rewrite IH in Ht by done.
      destruct Ht as (? & -> & ?). split_and!; [done..|lia|lia].
    + intros ([Hv Hvs] & -> & ?). split; [done|]. exists total. split; [done|].
      rewrite IH by done. split; [done|lia].
Qed.

Lemma validate_manifest_entries_Ok es :
  Forall entry_typed es →
  validate_manifest_entries es = Ok () ↔
  zlen es ≤ V2_MAX_MANIFEST_ENTRIES ∧ Forall entry_valid es ∧
  sum_with file_size es ≤ V2_MAX_TRANSFER_BYTES.
Proof.
  intros Hty. unfold validate_manifest_entries. rewrite bind_Ok.
  setoid_rewrite ok_or_Ok. setoid_rewrite try_from_Some. pose proof (zlen_nonneg es).
  assert (V2_MAX_MANIFEST_ENTRIES ≤ U32_MAX) by done.
  assert (V2_MAX_TRANSFER_BYTES ≤ U64_MAX) by done. assert (0 ≤ U64_MAX) by done. split.
  - intros (count & [-> ?] & Hr). rewrite refuse_seq_Ok, bind_Ok in Hr.
    destruct Hr as (Hle & n & Hn & Hmax). rewrite entries_validate_total_Ok in Hn by done.
    rewrite refuse_if_Ok in Hmax. bool_facts. destruct Hn as (? & -> & ?). split_and!; [done..|lia].
  - intros (Hle & Hv & Hsum). exists (zlen es). split; [lia|].
    rewrite refuse_seq_Ok, bind_Ok. split; [by apply Z.ltb_ge|].
    exists (0 + sum_with file_size es). rewrite entries_validate_total_Ok by done.
    rewrite refuse_if_Ok. split; [split_and!; [done..|lia] | apply Z.ltb_ge; lia].
Qed.

Lemma validate_manifest_chunk_Ok c :
  Forall entry_typed (mc_entries c) → 0 ≤ mc_first_index c → zlen (mc_entries c) ≤ U32_MAX →
  validate_manifest_chunk c = Ok () ↔
  mc_first_index c + zlen (mc_entries c) ≤ V2_MAX_MANIFEST_ENTRIES ∧
  Forall entry_valid (mc_entries c) ∧
  sum_with file_size (mc_entries c) ≤ V2_MAX_TRANSFER_BYTES.
Proof.
  intros Hty H0 Hlen. unfold validate_manifest_chunk. pose proof (zlen_nonneg (mc_entries c)).
  rewrite as_u32_id by done. rewrite bind_Ok. setoid_rewrite ok_or_Ok.
  setoid_rewrite checked_add_Some.
  assert (V2_MAX_MANIFEST_ENTRIES ≤ U32_MAX) by done.
  assert (V2_MAX_TRANSFER_BYTES ≤ U64_MAX) by done. assert (0 ≤ U64_MAX) by done. split.
  - intros (e & [-> ?] & Hr). rewrite refuse_seq_Ok, unit_seq_Ok, bind_Ok in Hr.
    destruct Hr as (Hle & Hv & n & Hn & Hmax). rewrite ok_or_Ok, file_bytes_Some in Hn by done.
    rewrite refuse_if_Ok in Hmax. rewrite entries_validate_Ok in Hv. bool_facts.
    destruct Hn as [-> ?]. split_and!; [done..|lia].
  - intros (Hle & Hv & Hsum). eexists. split; [split; [done|lia]|].
    rewrite refuse_seq_Ok, unit_seq_Ok, bind_Ok, entries_validate_Ok.
    split; [by apply Z.ltb_ge|]. split; [done|]. exists (0 + sum_with file_size (mc_entries c)).
    rewrite ok_or_Ok, file_bytes_Some, refuse_if_Ok by done.
    split; [lia | apply Z.ltb_ge; lia].
Qed.

(** ** The chunks of a manifest *)

(** The chunks follow each other: each starts at the index after the previous one's last. *)
Fixpoint contiguous (first : Z) (chunks : list ManifestChunk) : Prop :=
  match chunks with
  | [] => True
  | chunk :: rest =>
      mc_first_index chunk = first ∧ contiguous (first + zlen (mc_entries chunk)) rest
  end.

Definition chunk_entries (chunks : list ManifestChunk) : list ManifestEntry :=
  concat (map mc_entries chunks).

Lemma chunk_entries_snoc chunks c : chunk_entries (chunks ++ [c]) = chunk_entries chunks ++ mc_entries c.
Proof. unfold chunk_entries. by rewrite map_app, concat_app; simpl; rewrite app_nil_r. Qed.

Lemma contiguous_snoc first chunks c :
  contiguous first (chunks ++ [c]) ↔
  contiguous first chunks ∧ mc_first_index c = first + zlen (chunk_entries chunks).
Proof.
  revert first. induction chunks as [|d chunks IH]; intros first; simpl.
  { unfold chunk_entries. simpl. rewrite zlen_nil, Z.add_0_r. tauto. }
  rewrite IH. unfold chunk_entries. simpl. rewrite zlen_app, Z.add_assoc. tauto.
Qed.

Section chunk_theorems.
Context `{!Json V2Message}.

Definition chunk_len (c : ManifestChunk) : Z :=
  match chunk_payload c with Ok p => zlen p | Err _ => 0 end.

(** A chunk that can go on the wire as it is. *)
Definition chunk_fits (request_id : ActivationId) (c : ManifestChunk) : Prop :=
  mc_request_id c = request_id ∧ mc_entries c ≠ [] ∧ validate_manifest_chunk c = Ok () ∧
  ∃ payload, chunk_payload c = Ok payload ∧ zlen payload ≠ 0 ∧
             zlen payload ≤ V2_MAX_CONTROL_FRAME_BYTES.

Lemma manifest_chunk_new_Ok id first es c :
  manifest_chunk_new id first es = Ok c ↔
  c = mkManifestChunk id first es ∧ validate_manifest_chunk c = Ok () ∧
  ∃ payload, chunk_payload c = Ok payload ∧ zlen payload ≠ 0 ∧
             zlen payload ≤ V2_MAX_CONTROL_FRAME_BYTES.
Proof.
  unfold manifest_chunk_new. rewrite unit_seq_Ok, bind_Ok. split.
  - intros (Hv & p & Hp & Hr). rewrite unit_seq_Ok, v2_len_Ok in Hr.
    destruct Hr as [? [= <-]]. eauto.
  - intros (-> & Hv & p & Hp & Hlen). split; [done|]. exists p.
    rewrite unit_seq_Ok, v2_len_Ok. done.
Qed.

(** What the loop keeps about the chunks already closed. *)
Definition placed (id : ActivationId) (chunks : list ManifestChunk) (first : Z) : Prop :=
  Forall (chunk_fits id) chunks ∧ contiguous 0 chunks ∧ first = zlen (chunk_entries chunks).

Lemma placed_new id chunks first es c :
  placed id chunks first → es ≠ [] → manifest_chunk_new id first es = Ok c →
  placed id (chunks ++ [c]) (first + zlen es) ∧
  mc_first_index c = first ∧ mc_entries c = es.
Proof.
  intros (Hfit & Hcont & ->) Hne (-> & Hv & Hp)%manifest_chunk_new_Ok.
  split; [|done]. split; [|split].
  - apply Forall_app. split; [done|]. constructor; [|constructor]. done.
  - apply contiguous_snoc. done.
  - by rewrite chunk_entries_snoc, zlen_app.
Qed.

(** Closing the current chunk moves the index past it. *)
Lemma next_first_index first (es : list ManifestEntry) :
  0 ≤ first → first + zlen es ≤ V2_MAX_MANIFEST_ENTRIES →
  checked_add U32_MAX first (as_u32 (zlen es)) = Some (first + zlen es).
Proof.
  intros H0 Hmax. pose proof (zlen_nonneg es).
  assert (V2_MAX_MANIFEST_ENTRIES ≤ U32_MAX) by done.
  rewrite as_u32_id by (split; lia). apply checked_add_Some. lia.
Qed.

Lemma chunk_loop_sound id entries chunks current first chunks' current' first' :
  placed id chunks first →
  first + zlen current + zlen entries ≤ V2_MAX_MANIFEST_ENTRIES →
  chunk_loop id chunks current first entries = Ok (chunks', current', first') →
  placed id chunks' first' ∧
  chunk_entries chunks' ++ current' = chunk_entries chunks ++ current ++ entries.
Proof.
  revert chunks current first. induction entries as [|e es IH];
    intros chunks current first Hpl Hlen; cbn [chunk_loop].
  { intros [= <- <- <-]. split; [done|]. by rewrite app_nil_r. }
  rewrite zlen_cons in Hlen. rewrite bind_Ok. intros (p & Hp & Hr). cbv zeta in Hr.
  destruct (zlen p <=? V2_MAX_CONTROL_FRAME_BYTES).
  - apply IH in Hr as [??]; [|done|rewrite zlen_app, zlen_cons, zlen_nil; lia].
    split; [done|]. by rewrite <- (assoc_L (++)) in *.
  - rewrite refuse_seq_Ok, bind_Ok in Hr. destruct Hr as (Hne & c & Hc & Hr).
    apply bool_decide_eq_false in Hne.
    destruct (placed_new _ _ _ _ _ Hpl Hne Hc) as (Hpl' & Hf & Hes).
    assert (0 ≤ first) by (destruct Hpl as (_ & _ & ->); auto).
    pose proof (zlen_nonneg es).
    rewrite Hf, Hes, next_first_index in Hr by lia. simpl in Hr. apply IH in Hr as [Hpl'' Heq];
      [|done|rewrite zlen_cons, zlen_nil; lia].
    split; [done|]. rewrite Heq, chunk_entries_snoc, Hes. by rewrite <- !(assoc_L (++)).
Qed.

Lemma encoded_bytes_loop_Ok id total chunks :
  Forall (chunk_fits id) chunks → total + sum_with chunk_len chunks ≤ USIZE_MAX →
  encoded_bytes_loop total chunks = Ok (total + sum_with chunk_len chunks).
Proof.
  intros H. revert total. induction H as [|c cs Hc Hcs IH]; intros total Hmax; simpl in *.
  { by rewrite Z.add_0_r. }
  destruct Hc as (_ & _ & Hv & p & Hp & H0 & Hle). unfold chunk_len in Hmax at 1 |- * at 1.
  assert (0 ≤ sum_with chunk_len cs).
  { apply sum_with_nonneg, Forall_forall. intros c' _. unfold chunk_len.
    destruct (chunk_payload c'); auto. done. }
  rewrite Hv, Hp in *. simpl. rewrite (proj2 (v2_len_Ok _)) by done. simpl.
  rewrite (proj2 (checked_add_Some _ _ _ _)) by (split; [done|lia]). simpl.
  rewrite IH by lia. f_equal. lia.
Qed.

Lemma validate_manifest_entries_len es :
  validate_manifest_entries es = Ok () → zlen es ≤ V2_MAX_MANIFEST_ENTRIES.
Proof.
  unfold validate_manifest_entries. rewrite bind_Ok. setoid_rewrite ok_or_Ok.
  setoid_rewrite try_from_Some. intros (n & [-> _] & Hr).
  rewrite refuse_seq_Ok in Hr. destruct Hr as [? _]. by bool_facts.
Qed.

(** At most one chunk per entry, so the encoded total stays far below [usize]. *)
Lemma chunks_length id chunks :
  Forall (chunk_fits id) chunks → zlen chunks ≤ zlen (chunk_entries chunks).
Proof.
  induction 1 as [|c cs (_ & Hne & _) _ IH]; [done|].
  unfold chunk_entries in *. simpl. rewrite zlen_cons, zlen_app.
  destruct (mc_entries c); [done|]. rewrite zlen_cons. pose proof (zlen_nonneg l). lia.
Qed.
Lemma chunks_total id chunks :
  Forall (chunk_fits id) chunks →
  sum_with chunk_len chunks ≤ V2_MAX_CONTROL_FRAME_BYTES * zlen chunks.
Proof.
  induction 1 as [|c cs (_ & _ & _ & p & Hp & _ & Hle) _ IH]; [done|].
  rewrite zlen_cons. simpl. unfold chunk_len at 1. rewrite Hp. lia.
Qed.
Lemma encoded_bytes_loop_chunks id chunks :
  Forall (chunk_fits id) chunks → zlen (chunk_entries chunks) ≤ V2_MAX_MANIFEST_ENTRIES →
  encoded_bytes_loop 0 chunks = Ok (sum_with chunk_len chunks).
Proof.
  intros Hfit Hlen. apply (encoded_bytes_loop_Ok id); [done|].
  pose proof (chunks_length _ _ Hfit). pose proof (chunks_total _ _ Hfit).
  unfold V2_MAX_CONTROL_FRAME_BYTES, V2_MAX_MANIFEST_ENTRIES, MAX_OFFER_MANIFEST_ENTRIES,
    USIZE_MAX, U64_MAX in *. lia.
Qed.

Lemma encode_chunks_Ok id chunks :
  Forall (chunk_fits id) chunks →
  ∃ frames, encode_chunks chunks = Ok frames ∧ length frames = length chunks.
Proof.
  induction 1 as [|c cs (_ & _ & Hv & p & Hp & H0 & Hle) _ (fs & IH & Hl)]; simpl; [eauto|].
  assert (∃ f, encode_v2_frame (Msg_ManifestChunk c) = Ok f) as [f Hf].
  { eexists. apply encode_v2_frame_Ok. exists p. unfold chunk_payload in Hp.
    rewrite map_err_Ok in Hp. done. }
  rewrite Hf, IH. simpl. exists (f :: fs). simpl. auto.
Qed.

(** the chunks of a manifest are its entries in order, cut without a gap or overlap:
    chunk indices are contiguous from 0, every chunk is nonempty, valid and small enough
    for one control frame, their encodings total at most 8 MiB, and framing them all
    succeeds. *)
Theorem chunk_manifest_sound id entries chunks :
  chunk_manifest id entries = Ok chunks →
  chunk_entries chunks = entries ∧ contiguous 0 chunks ∧
  Forall (chunk_fits id) chunks ∧
  sum_with chunk_len chunks ≤ V2_MAX_MANIFEST_BYTES ∧
  ∃ frames, encode_manifest_chunks id entries = Ok frames ∧ length frames = length chunks.
Proof.
  intros Hres. unfold encode_manifest_chunks. rewrite Hres. simpl. revert Hres.
  unfold chunk_manifest. rewrite unit_seq_Ok.
  intros [Hval%validate_manifest_entries_len Hr].
  destruct (bool_decide_reflect (entries = [])) as [->|Hne].
  { injection Hr as <-. simpl. eauto 10. }
  rewrite bind_Ok in Hr. destruct Hr as ([[chunks0 current] first] & Hloop & Hr).
  apply chunk_loop_sound in Hloop as [Hpl Heq]; [|by repeat constructor|done].
  simpl in Heq. rewrite bind_Ok in Hr. destruct Hr as (chunks1 & Hlast & Hr).
  assert (Forall (chunk_fits id) chunks1 ∧ contiguous 0 chunks1 ∧ chunk_entries chunks1 = entries)
    as (Hfit & Hcont & Hes).
  { destruct (bool_decide_reflect (current = [])) as [->|Hcur].
    - injection Hlast as <-. destruct Hpl as (? & ? & _). by rewrite app_nil_r in Heq.
    - rewrite bind_Ok in Hlast. destruct Hlast as (c & Hc & [= <-]).
      destruct (placed_new _ _ _ _ _ Hpl Hcur Hc) as ((? & ? & _) & _ & Hce).
      rewrite chunk_entries_snoc, Hce. done. }
  unfold encoded_manifest_bytes in Hr. rewrite (encoded_bytes_loop_chunks id) in Hr
    by (rewrite ?Hes; done).
  rewrite bind_Ok in Hr. destruct Hr as (total & Ht & Hr). simpl in Ht.
  rewrite refuse_seq_Ok in Ht. rewrite refuse_seq_Ok in Hr. destruct Ht as [Hmax [= <-]], Hr as [_ [= <-]].
  bool_facts. destruct (encode_chunks_Ok _ _ Hfit) as (frames & ? & ?). eauto 10.
Qed.
(** Entries any run of which makes a valid chunk. *)
Definition sendable (es : list ManifestEntry) : Prop :=
  Forall entry_typed es ∧ Forall entry_valid es ∧
  sum_with file_size es ≤ V2_MAX_TRANSFER_BYTES.

Lemma sendable_app es1 es2 : sendable (es1 ++ es2) → sendable es1 ∧ sendable es2.
Proof.
  unfold sendable. rewrite !Forall_app, sum_with_app. intros ([H1 H2] & [? ?] & ?).
  apply sum_file_size_nonneg in H1 as ?. apply sum_file_size_nonneg in H2 as ?.
  split; split_and!; done || lia.
Qed.

Section complete.
Context (id : ActivationId).
(** The messages serialize, to at least one byte, and an entry fits a frame alone. *)
Hypothesis Hserializes : ∀ c, ∃ p, chunk_payload c = Ok p ∧ zlen p ≠ 0.
Definition fits_alone (e : ManifestEntry) : Prop :=
  ∀ index, chunk_len (mkManifestChunk id index [e]) ≤ V2_MAX_CONTROL_FRAME_BYTES.

Lemma manifest_chunk_new_total first es :
  sendable es → 0 ≤ first → first + zlen es ≤ V2_MAX_MANIFEST_ENTRIES →
  chunk_len (mkManifestChunk id first es) ≤ V2_MAX_CONTROL_FRAME_BYTES →
  manifest_chunk_new id first es = Ok (mkManifestChunk id first es).
Proof.
  intros (Hty & Hv & Hsum) H0 Hmax Hlen. apply manifest_chunk_new_Ok. split; [done|].
  assert (V2_MAX_MANIFEST_ENTRIES ≤ U32_MAX) by done.
  split; [apply validate_manifest_chunk_Ok; simpl; auto; lia|].
  destruct (Hserializes (mkManifestChunk id first es)) as (p & Hp & Hp0).
  exists p. unfold chunk_len in Hlen. rewrite Hp in Hlen. done.
Qed.

(** The current chunk, when there is one, can be closed. *)
Definition closable (current : list ManifestEntry) (first : Z) : Prop :=
  current = [] ∨
  chunk_len (mkManifestChunk id first current) ≤ V2_MAX_CONTROL_FRAME_BYTES.

Lemma chunk_loop_total chunks current first entries :
  sendable (current ++ entries) → Forall fits_alone entries → 0 ≤ first →
  first + zlen (current ++ entries) ≤ V2_MAX_MANIFEST_ENTRIES →
  closable current first →
  ∃ chunks' current' first',
    chunk_loop id chunks current first entries = Ok (chunks', current', first') ∧
    sendable current' ∧ 0 ≤ first' ∧
    first' + zlen current' ≤ V2_MAX_MANIFEST_ENTRIES ∧ closable current' first'.
Proof.
  revert chunks current first. induction entries as [|e es IH];
    intros chunks current first Hsend Halone H0 Hmax Hcl; cbn [chunk_loop].
  { rewrite app_nil_r in *. eauto 10. }
  apply Forall_cons in Halone as [He Hes].
  destruct (Hserializes (mkManifestChunk id first (current ++ [e]))) as (p & Hp & Hp0).
  rewrite Hp. simpl. destruct (Z.leb_spec (zlen p) V2_MAX_CONTROL_FRAME_BYTES) as [Hle|Hgt].
  - rewrite (cons_middle e), (assoc_L (++)) in Hsend, Hmax. apply IH; [done..|].
    right. unfold chunk_len. by rewrite Hp.
  - destruct Hcl as [->|Hcl].
    { specialize (He first). unfold chunk_len in He. simpl in Hp. rewrite Hp in He. lia. }
    rewrite bool_decide_false by (intros ->; simpl in Hp; specialize (He first);
      unfold chunk_len in He; rewrite Hp in He; lia). simpl.
    destruct (sendable_app _ _ Hsend) as [Hcur Hrest]. rewrite zlen_app in Hmax.
    pose proof (zlen_nonneg (e :: es)). pose proof (zlen_nonneg current).
    rewrite manifest_chunk_new_total by (done || lia). simpl.
    rewrite next_first_index by lia. simpl.
    apply IH; [done|done|lia| |right; apply He].
    change ([e] ++ es) with (e :: es). lia.
Qed.

(** C35: chunking succeeds on every valid manifest whose entries fit a control frame one
    by one; the only other outcome is the refusal of an encoding above 8 MiB. *)
Theorem chunk_manifest_complete entries :
  Forall entry_typed entries → validate_manifest_entries entries = Ok () →
  Forall fits_alone entries →
  (∃ chunks, chunk_manifest id entries = Ok chunks) ∨
  (∃ total, V2_MAX_MANIFEST_BYTES < total ∧
            chunk_manifest id entries = Err (manifest_too_large total)).
Proof.
  intros Hty Hval Halone. unfold chunk_manifest. rewrite Hval. simpl.
  apply validate_manifest_entries_Ok in Hval as (Hlen & Hv & Hsum); [|done].
  destruct (bool_decide_reflect (entries = [])) as [->|Hne]; [eauto|].
  destruct (chunk_loop_total [] [] 0 entries) as
    (chunks & current & first & Hloop & Hsend & H0 & Hmax & Hcl);
    [done|done|done|done|by left|].
  rewrite Hloop. simpl.
  apply chunk_loop_sound in Hloop as [Hpl Heq]; [|by repeat constructor|done].
  set (last := if bool_decide (current = []) then _ else _).
  assert (∃ chunks1, last = Ok chunks1 ∧ Forall (chunk_fits id) chunks1 ∧
    chunk_entries chunks1 = entries) as (chunks1 & Hlast & Hfit & Hes).
  { unfold last. simpl in Heq.
    destruct (bool_decide_reflect (current = [])) as [->|Hcur].
    - destruct Hpl as (? & _ & _). rewrite app_nil_r in Heq. eauto.
    - destruct Hcl as [|Hcl]; [done|].
      pose proof (manifest_chunk_new_total _ _ Hsend H0 Hmax Hcl) as Hnew.
      destruct (placed_new _ _ _ _ _ Hpl Hcur Hnew) as ((? & _ & _) & _ & Hce).
      rewrite Hnew. simpl. eexists. split; [done|].
      rewrite chunk_entries_snoc, Hce. done. }
  rewrite Hlast. simpl. unfold encoded_manifest_bytes.
  rewrite (encoded_bytes_loop_chunks id) by (rewrite ?Hes; done). simpl.
  destruct (Z.ltb_spec V2_MAX_MANIFEST_BYTES (sum_with chunk_len chunks1)) as [Hbig|Hok];
    simpl; [eauto|]. rewrite (proj2 (Z.ltb_ge _ _)) by done. simpl. eauto.
Qed.
End complete.
End chunk_theorems.

(** ** Witnesses *)

Definition sample_request : V2Message :=
  Msg_FetchRequest (mkFetchRequest (mkActivationId 1) (mkOfferId 2) (mkDeviceId 3) (mkDeviceId 4)).
Definition sample_abort : V2Message :=
  Msg_FetchAbort (mkFetchAbort (mkActivationId 1) Abort_Cancelled 0 0 (Some (str "stopped"))).
Definition sample_json : Json V2Message := table_json [sample_request; sample_abort].

Lemma v2_stream_round_trip_witness :
  let frames := [[Byte.x00; Byte.x00; Byte.x00; Byte.x02; Byte.x7b; Byte.x7b];
                 [Byte.x00; Byte.x00; Byte.x00; Byte.x01; Byte.x7b]] in
  let read := @read_v2_frames sample_json 2 (concat frames ++ [Byte.x2a]) in
  read = (Ok [sample_abort; sample_request], [Byte.x2a]).
Proof.
  apply (@v2_stream_round_trip sample_json (table_json_laws _) [sample_abort; sample_request]
    [[Byte.x00; Byte.x00; Byte.x00; Byte.x02; Byte.x7b; Byte.x7b];
     [Byte.x00; Byte.x00; Byte.x00; Byte.x01; Byte.x7b]] [Byte.x2a]).
  repeat constructor; vm_compute; reflexivity.
Defined.

Lemma oversized_frame_refused_witness :
  @read_v2_frame sample_json [Byte.x00; Byte.x01; Byte.x00; Byte.x01; Byte.x7b]
  = (Err (FrameTooLarge 65537 65536), [Byte.x7b]).
Proof.
  apply (proj1 (@oversized_frame_refused sample_json (table_json [])
    [Byte.x00; Byte.x01; Byte.x00; Byte.x01] [Byte.x7b] eq_refl)).
  right. vm_compute. reflexivity.
Defined.

(** A codec whose chunks take 30,000 bytes per entry, so two entries fill a frame. *)
Definition sized_json : Json V2Message := {|
  json_to_vec m :=
    match m with
    | Msg_ManifestChunk c => Ok (replicate (S (Z.to_nat 30000 * length (mc_entries c))) Byte.x7b)
    | _ => Ok [Byte.x7b]
    end;
  json_from_slice b := Err (str "not decoded");
|}.
Definition sample_entries : list ManifestEntry :=
  [mkManifestEntry (str "a") Entry_Directory 0;
   mkManifestEntry (str "a/b.txt") Entry_File 5;
   mkManifestEntry (str "c") Entry_File 7].

Lemma chunk_manifest_sound_witness :
  ∃ chunks, length chunks = 2%nat ∧ chunk_entries chunks = sample_entries ∧
    @contiguous 0 chunks.
Proof.
  eexists. edestruct (@chunk_manifest_sound sized_json (mkActivationId 1) sample_entries)
    as (Hes & Hc & _); [vm_compute; reflexivity|].
  split; [|split; [exact Hes | exact Hc]]. reflexivity.
Defined.

Lemma chunk_manifest_complete_witness :
  (∃ chunks, @chunk_manifest sized_json (mkActivationId 1) sample_entries = Ok chunks) ∨
  (∃ total, V2_MAX_MANIFEST_BYTES < total ∧
     @chunk_manifest sized_json (mkActivationId 1) sample_entries = Err (manifest_too_large total)).
Proof.
  apply (@chunk_manifest_complete sized_json).
  - intros c. eexists. split; [reflexivity|]. apply zlen_cons_ne.
  - repeat constructor; done.
  - vm_compute. reflexivity.
  - repeat constructor; intros index; vm_compute; discriminate.
Defined.
