(* ===== verification/OfferStore.v ===== *)
(** * The offer store

    Models [crates/meshelf-store/src/v2.rs]: the offer-source, card, activation-journal and
    clipboard-cache tables and every operation on them.  A redb table is a finite map from
    string keys to encoded rows; a redb call may fail at any point ([w_faults] is the schedule
    of failures); a write transaction works on its own view and is published by [commit].
    Row encoding is the [Json] interface, the filesystem of the staging directories is the
    [StagingFs] interface, and the order in which redb iterates is the parameter
    [redb_iter]. *)

From S2P Require Import Prelude RustStr StdIo Offer Records.

(** ** Interfaces *)

(** [Uuid::to_string], used for every row key. *)
Class UuidText := uuid_to_string : Z → rstr.
Class UuidTextLaws `{UuidText} := uuid_to_string_inj :: Inj (=) (=) uuid_to_string.

(** The order of [ReadableTable::iter]. *)
Class RedbIter := redb_iter : ∀ K `{Countable K}, gmap K bytes → list (K * bytes).
Arguments redb_iter {_ _ _ _} _.
Class RedbIterLaws `{RedbIter} :=
  redb_iter_all : ∀ K `{Countable K} (t : gmap K bytes), redb_iter t ≡ₚ map_to_list t.

(** The platform and [std::fs] calls of the store, on a filesystem state. *)
Class StagingFs (FS : Type) := {
  path_is_absolute : PathBuf → bool;
  path_parent : PathBuf → option PathBuf;
  staging_ensure_tree : PathBuf → St FS IoError ();
  staging_create_dir : PathBuf → St FS IoError ();
  staging_remove_tree : PathBuf → St FS IoError ();
  legacy_remove_partials : PathBuf → St FS IoError bool;
  legacy_remove_markers : PathBuf → St FS StoreError Z;
}.

(** ** State *)

Record Db := mkDb {
  db_sources : gmap rstr bytes;
  db_cards : gmap (rstr * rstr) bytes;
  db_journal : gmap rstr bytes;
  db_cache : gmap rstr bytes;
  db_ledger : gmap rstr bytes;
}.
Definition db_empty : Db := mkDb ∅ ∅ ∅ ∅ ∅.

Record World (FS : Type) := mkWorld {
  w_db : Db;
  w_faults : list (option StoreError);
  w_fs : FS;
}.
Arguments mkWorld {_} _ _ _.
Arguments w_db {_} _.
Arguments w_faults {_} _.
Arguments w_fs {_} _.

(** A table definition: where the table is in the database. *)
Record Table (K : Type) `{Countable K} := mkTable {
  t_get : Db → gmap K bytes;
  t_set : gmap K bytes → Db → Db;
}.
Arguments mkTable {_ _ _} _ _.
Arguments t_get {_ _ _} _ _.
Arguments t_set {_ _ _} _ _ _.

Definition OFFER_SOURCES_V2 : Table rstr := mkTable db_sources (λ t db,
  mkDb t (db_cards db) (db_journal db) (db_cache db) (db_ledger db)).
Definition OFFER_CARDS_V2 : Table (rstr * rstr) := mkTable db_cards (λ t db,
  mkDb (db_sources db) t (db_journal db) (db_cache db) (db_ledger db)).
Definition ACTIVATION_JOURNAL_V2 : Table rstr := mkTable db_journal (λ t db,
  mkDb (db_sources db) (db_cards db) t (db_cache db) (db_ledger db)).
Definition CLIPBOARD_CACHE_V2 : Table rstr := mkTable db_cache (λ t db,
  mkDb (db_sources db) (db_cards db) (db_journal db) t (db_ledger db)).
Definition RECEIVE_LEDGER : Table rstr := mkTable db_ledger (λ t db,
  mkDb (db_sources db) (db_cards db) (db_journal db) (db_cache db) t).

Definition CACHE_IN_FLIGHT : rstr := str "in_flight".
Definition CACHE_COMPLETED : rstr := str "completed".
Definition cache_key (state : ClipboardCacheState) : rstr :=
  match state with
  | Cache_InFlight => CACHE_IN_FLIGHT
  | Cache_Completed => CACHE_COMPLETED
  end.

(** ** redb calls *)

Section redb.
Context {FS : Type} `{!RedbIter}.
Notation M := (St (World FS) StoreError).

Definition set_db (db : Db) (w : World FS) : World FS := mkWorld db (w_faults w) (w_fs w).

(** One call into redb: it fails when the schedule says so. *)
Definition redb_call : M () := λ w,
  match w_faults w with
  | [] => (Ok (), w)
  | None :: rest => (Ok (), mkWorld (w_db w) rest (w_fs w))
  | Some e :: rest => (Err e, mkWorld (w_db w) rest (w_fs w))
  end.

(** [begin_write], the body, [commit].  The writes of a transaction are seen by its own reads;
    redb documents that they take effect together at the commit, and not at all if the
    transaction is dropped by an early return or its commit fails. *)
Definition with_write {T} (body : M T) : M T := λ w,
  match (redb_call;; x ← body; redb_call;; mret x) w with
  | (Ok x, w') => (Ok x, w')
  | (Err e, w') => (Err e, set_db (w_db w) w')
  end.
(** [begin_read] and what follows on its snapshot. *)
Definition with_read {T} (body : M T) : M T := redb_call;; body.

Section table.
Context {K : Type} `{Countable K} (table : Table K).

Definition open_table : M () := redb_call.
Definition table_get (key : K) : M (option bytes) :=
  redb_call;; w ← st_get; mret (t_get table (w_db w) !! key).
Definition table_insert (key : K) (value : bytes) : M () :=
  redb_call;;
  st_modify (λ w, set_db (t_set table (<[key := value]> (t_get table (w_db w))) (w_db w)) w).
Definition table_remove (key : K) : M () :=
  redb_call;;
  st_modify (λ w, set_db (t_set table (delete key (t_get table (w_db w))) (w_db w)) w).

(** [for entry in table.iter()? { let (k, v) = entry?; rows.push(row(k, v)?) }] *)
Fixpoint collect_rows {A} (row : K → bytes → result StoreError A)
    (entries : list (K * bytes)) : M (list A) :=
  match entries with
  | [] => mret []
  | (k, v) :: rest =>
      redb_call;;
      x ← st_lift (row k v);
      xs ← collect_rows row rest;
      mret (x :: xs)
  end.
Definition table_rows {A} (row : K → bytes → result StoreError A) : M (list A) :=
  redb_call;;
  w ← st_get;
  collect_rows row (redb_iter (t_get table (w_db w))).
End table.
End redb.

(** [encode_json!] and [decode_json!] *)
Definition encode_json {A} `{Json A} (x : A) : result StoreError bytes :=
  map_err mkStoreError (json_to_vec x).
Definition decode_json {A} `{Json A} (b : bytes) : result StoreError A :=
  map_err mkStoreError (json_from_slice b).
(** [.map(|guard| decode_json!(guard.value())).transpose()?] *)
Definition decode_opt {A} `{Json A} (o : option bytes) : result StoreError (option A) :=
  match o with Some b => Some <$> decode_json b | None => Ok None end.

(** ** Orders *)

(** [Ord] of strings: lexicographic (by code point, which is the order of the UTF-8 bytes). *)
Fixpoint rstr_leb (a b : rstr) : bool :=
  match a, b with
  | [], _ => true
  | _ :: _, [] => false
  | x :: a, y :: b => (x <? y) || ((x =? y) && rstr_leb a b)
  end.
Definition pair_leb (a b : rstr * rstr) : bool :=
  if bool_decide (a.1 = b.1) then rstr_leb a.2 b.2 else rstr_leb a.1 b.1.

(** The sort key of the purge: the sequence, then the row key. *)
Definition row_le {K} (key_leb : K → K → bool) (a b : Z * K) : Prop :=
  a.1 < b.1 ∨ (a.1 = b.1 ∧ key_leb a.2 b.2 = true).
#[export] Instance row_le_dec {K} (key_leb : K → K → bool) : RelDecision (row_le key_leb).
Proof. intros a b. unfold row_le. apply _. Defined.

(** [sort_by_key(|record| Reverse(sequence(record)))]: stable, newest first. *)
Definition newest_le {A} (seq : A → Z) (a b : A) : Prop := seq b ≤ seq a.
#[export] Instance newest_le_dec {A} (seq : A → Z) : RelDecision (newest_le seq).
Proof. intros a b. unfold newest_le. apply _. Defined.

(** [Vec::sort_by_key] is a stable sort. *)
Definition sort_newest {A} (seq : A → Z) (l : list A) : list A := merge_sort (newest_le seq) l.

(** ** Operations *)

Section operations.
Context {FS : Type} `{!StagingFs FS} `{!RedbIter} `{!UuidText}.
Context `{!Json OfferSourceRecord} `{!Json OfferCardRecord}.
Context `{!Json ActivationJournalEntry} `{!Json ClipboardCacheRecord}.
Notation M := (St (World FS) StoreError).

Definition source_key (offer_id : OfferId) : rstr := uuid_to_string (OfferId_as_uuid offer_id).
Definition card_key (source_device : DeviceId) (offer_id : OfferId) : rstr * rstr :=
  (uuid_to_string (DeviceId_as_uuid source_device), uuid_to_string (OfferId_as_uuid offer_id)).
Definition journal_key (activation_id : ActivationId) : rstr :=
  uuid_to_string (ActivationId_as_uuid activation_id).

(** *** Rows ordered by a sequence number *)

Section sequenced.
Context {K A : Type} `{Countable K} `{!Json A}.
Context (table : Table K) (key_leb : K → K → bool) (sequence : A → Z).

(** [purge_oldest_sources] and [purge_oldest_cards] *)
Definition purge_oldest (too_many : StoreError) : M Z :=
  rows ← table_rows table (λ key value,
    record ← decode_json value; mret (sequence record, key));
  let target := saturating_sub (zlen rows) (V2_MAX_LIVE_ENTRIES - 1) in
  let rows := merge_sort (row_le key_leb) rows in
  st_for (take (Z.to_nat target) rows) (λ row, table_remove table row.2);;
  st_lift (ok_or (try_from U32_MAX target) too_many).

(** [next_source_sequence] and [next_card_sequence] *)
Definition next_sequence (overflow : StoreError) : M Z :=
  sequences ← table_rows table (λ _ value,
    record ← decode_json value; mret (sequence record));
  st_lift (ok_or (checked_add U64_MAX (max_with (λ n, n) sequences) 1) overflow).

(** The insertion of a row that does not exist yet. *)
Definition append_row (too_many overflow : StoreError) (key : K) (fresh : Z → A)
    : M (A * Z) :=
  purged ← purge_oldest too_many;
  n ← next_sequence overflow;
  let record := fresh n in
  encoded ← st_lift (encode_json record);
  table_insert table key encoded;;
  mret (record, purged).

(** [read_offer_sources] and [read_offer_shelf] *)
Definition read_newest : M (list A) :=
  with_read (
    open_table;;
    records ← table_rows table (λ _ value, decode_json value);
    mret (sort_newest sequence records)).
End sequenced.

(** *** Offer sources *)

Definition too_many_sources := mkStoreError (str "too many purged offer sources").
Definition source_overflow := mkStoreError (str "offer source sequence overflow").

Definition insert_offer_source (input : OfferSourceInput) : M OfferSourceInsert :=
  st_lift (source_input_validate path_is_absolute input);;
  let key := source_key (in_offer_id input) in
  with_write (
    open_table;;
    bytes ← table_get OFFER_SOURCES_V2 key;
    existing ← st_lift (decode_opt (A := OfferSourceRecord) bytes);
    match existing with
    | Some record =>
        if negb (bool_decide (src_descriptor record = in_descriptor input)) then
          st_err (mkStoreError (str "offer source conflicts with an existing descriptor"))
        else mret (mkOfferSourceInsert record false 0)
    | None =>
        '(record, purged) ← append_row OFFER_SOURCES_V2 rstr_leb src_creation_sequence
          too_many_sources source_overflow key
          (λ creation_sequence, mkOfferSourceRecord (in_offer_id input)
             (in_descriptor input) creation_sequence (in_announced_to input)
             (in_source input));
        mret (mkOfferSourceInsert record true purged)
    end).

Definition get_offer_source (offer_id : OfferId) : M (option OfferSourceRecord) :=
  with_read (
    open_table;;
    bytes ← table_get OFFER_SOURCES_V2 (source_key offer_id);
    st_lift (decode_opt bytes)).

Definition too_many_recipients := mkStoreError (str "too many eligible recipients").

(** [remove_explicit_refusal], and its alias [remove_eligible_recipient]. *)
Definition remove_explicit_refusal (offer_id : OfferId) (recipient : DeviceId)
    : M OfferEligibilityUpdate :=
  let key := source_key offer_id in
  with_write (
    open_table;;
    bytes ← table_get OFFER_SOURCES_V2 key;
    match bytes with
    | None => st_err (mkStoreError (str "offer source does not exist"))
    | Some bytes =>
        record ← st_lift (decode_json (A := OfferSourceRecord) bytes);
        let was_eligible := bool_decide (recipient ∈ src_announced_to record) in
        let record := mkOfferSourceRecord (src_offer_id record) (src_descriptor record)
          (src_creation_sequence record) (src_announced_to record ∖ {[recipient]})
          (src_source record) in
        if negb was_eligible then
          remaining ← st_lift (ok_or (try_from U32_MAX (Z.of_nat (size (src_announced_to record))))
                                 too_many_recipients);
          mret (mkOfferEligibilityUpdate false false remaining)
        else if bool_decide (src_announced_to record = ∅) then
          table_remove OFFER_SOURCES_V2 key;;
          mret (mkOfferEligibilityUpdate true true 0)
        else
          remaining ← st_lift (ok_or (try_from U32_MAX (Z.of_nat (size (src_announced_to record))))
                                 too_many_recipients);
          encoded ← st_lift (encode_json record);
          table_insert OFFER_SOURCES_V2 key encoded;;
          mret (mkOfferEligibilityUpdate true false remaining)
    end).

Definition read_offer_sources : M (list OfferSourceRecord) :=
  read_newest OFFER_SOURCES_V2 src_creation_sequence.

(** *** Offer cards *)

Definition too_many_cards := mkStoreError (str "too many purged offer cards").
Definition card_overflow := mkStoreError (str "offer card sequence overflow").

Definition insert_offer_card (input : OfferCardInput) : M OfferCardInsert :=
  st_lift (card_input_validate input);;
  let key := card_key (ci_source_device input) (ci_offer_id input) in
  with_write (
    open_table;;
    bytes ← table_get OFFER_CARDS_V2 key;
    existing ← st_lift (decode_opt (A := OfferCardRecord) bytes);
    match existing with
    | Some record =>
        if negb (bool_decide (card_descriptor record = ci_descriptor input)) then
          st_err (mkStoreError (str "offer card conflicts with an existing descriptor"))
        else mret (mkOfferCardInsert record false 0)
    | None =>
        '(record, purged) ← append_row OFFER_CARDS_V2 pair_leb card_received_sequence
          too_many_cards card_overflow key
          (λ received_sequence, mkOfferCardRecord (ci_source_device input)
             (ci_offer_id input) (ci_descriptor input) received_sequence
             (ci_availability input) None);
        mret (mkOfferCardInsert record true purged)
    end).

Definition get_offer_card (source_device : DeviceId) (offer_id : OfferId)
    : M (option OfferCardRecord) :=
  with_read (
    open_table;;
    bytes ← table_get OFFER_CARDS_V2 (card_key source_device offer_id);
    st_lift (decode_opt bytes)).

Definition read_offer_shelf : M (list OfferCardRecord) :=
  read_newest OFFER_CARDS_V2 card_received_sequence.

Definition availability_after (code : OfferAttemptCode) (availability : CardAvailability)
    : CardAvailability :=
  match code with
  | Attempt_SourceUnavailable => SourceUnavailable
  | Attempt_SourceChanged => SourceChanged
  | _ => availability
  end.

Definition record_offer_attempt (source_device : DeviceId) (offer_id : OfferId)
    (status : OfferAttemptStatus) : M () :=
  st_lift (refuse_if (detail_too_large MAX_OFFER_ATTEMPT_DETAIL_BYTES (attempt_detail status))
    (mkStoreError (str "offer attempt detail is too large")));;
  let key := card_key source_device offer_id in
  with_write (
    open_table;;
    bytes ← table_get OFFER_CARDS_V2 key;
    match bytes with
    | None => st_err (mkStoreError (str "offer card does not exist"))
    | Some bytes =>
        record ← st_lift (decode_json (A := OfferCardRecord) bytes);
        let record := mkOfferCardRecord (card_source_device record) (card_offer_id record)
          (card_descriptor record) (card_received_sequence record)
          (availability_after (attempt_code status) (card_availability record))
          (Some status) in
        encoded ← st_lift (encode_json record);
        table_insert OFFER_CARDS_V2 key encoded
    end).

(** *** The activation journal *)

Definition journal_activation (entry : ActivationJournalEntry) : M () :=
  st_lift (journal_entry_validate path_is_absolute entry);;
  let key := journal_key (je_activation_id entry) in
  encoded ← st_lift (encode_json entry);
  with_write (open_table;; table_insert ACTIVATION_JOURNAL_V2 key encoded).

Definition get_activation_journal (activation_id : ActivationId)
    : M (option ActivationJournalEntry) :=
  with_read (
    open_table;;
    bytes ← table_get ACTIVATION_JOURNAL_V2 (journal_key activation_id);
    st_lift (decode_opt bytes)).

(** A filesystem call; its error is reported with the given prefix. *)
Definition fs_call {T} (prefix : rstr) (op : St FS IoError T) : M T := λ w,
  match op (w_fs w) with
  | (Ok x, fs) => (Ok x, mkWorld (w_db w) (w_faults w) fs)
  | (Err e, fs) => (Err (mkStoreError (prefix ++ io_message e)),
                    mkWorld (w_db w) (w_faults w) fs)
  end.

(** One whose error is looked at. *)
Definition try_fs {T} (op : St FS IoError T) : M (result IoError T) := λ w,
  let '(r, fs) := op (w_fs w) in (Ok r, mkWorld (w_db w) (w_faults w) fs).

Definition prepare_staging (entry : ActivationJournalEntry) : M () :=
  parent ← st_lift (ok_or (path_parent (je_staging_root entry))
                      (mkStoreError (str "staging root has no parent")));
  fs_call (str "staging ancestry failed: ") (staging_ensure_tree parent);;
  journal_activation entry;;
  fs_call (str "staging creation failed: ") (staging_create_dir (je_staging_root entry)).

Definition set_state (state : ActivationState) (entry : ActivationJournalEntry)
    : ActivationJournalEntry :=
  mkActivationJournalEntry (je_activation_id entry) (je_source_device entry)
    (je_offer_id entry) (je_mode entry) (je_staging_root entry) state
    (je_reserved_entries entry) (je_reserved_bytes entry).

Definition update_activation_state (activation_id : ActivationId)
    (state : ActivationState) : M () :=
  let key := journal_key activation_id in
  with_write (
    open_table;;
    bytes ← table_get ACTIVATION_JOURNAL_V2 key;
    match bytes with
    | None => st_err (mkStoreError (str "activation journal entry does not exist"))
    | Some bytes =>
        entry ← st_lift (decode_json (A := ActivationJournalEntry) bytes);
        encoded ← st_lift (encode_json (set_state state entry));
        table_insert ACTIVATION_JOURNAL_V2 key encoded
    end).

Definition remove_activation_journal (activation_id : ActivationId) : M () :=
  with_write (open_table;;
              table_remove ACTIVATION_JOURNAL_V2 (journal_key activation_id)).

Definition activation_journal_entries : M (list ActivationJournalEntry) :=
  with_read (
    open_table;;
    table_rows ACTIVATION_JOURNAL_V2 (λ _ value, decode_json value)).

(** *** Startup cleanup *)

Record Sweep := mkSweep {
  removed : list ActivationId;
  failures : list ActivationId;
  record_uncertain : list ActivationId;
}.

(** One iteration of the loop: an uncertain entry is never collected for removal. *)
Definition sweep_entry (entry : ActivationJournalEntry) (s : Sweep) : M Sweep :=
  outcome ← try_fs (staging_remove_tree (je_staging_root entry));
  let id := je_activation_id entry in
  if is_uncertain_side_effect (je_state entry) then
    if negb (bool_decide (je_state entry = State_UncertainNoReplay)) then
      mret (mkSweep (removed s) (failures s) (record_uncertain s ++ [id]))
    else mret s
  else
    match outcome with
    | Ok _ => mret (mkSweep (removed s ++ [id]) (failures s) (record_uncertain s))
    | Err error =>
        if bool_decide (io_kind error = NotFound)
        then mret (mkSweep (removed s ++ [id]) (failures s) (record_uncertain s))
        else mret (mkSweep (removed s) (failures s ++ [id]) (record_uncertain s))
    end.

Fixpoint sweep (entries : list ActivationJournalEntry) (s : Sweep) : M Sweep :=
  match entries with
  | [] => mret s
  | entry :: rest => s ← sweep_entry entry s; sweep rest s
  end.

(** [failures.iter().map(ToString::to_string).collect::<Vec<_>>().join(",")] *)
Definition cleanup_failed (failures : list ActivationId) : StoreError :=
  mkStoreError (str "cleanup failed for " ++ show_int (zlen failures)
    ++ str " activation journal entr"
    ++ (if zlen failures =? 1 then str "y" else str "ies") ++ str ": "
    ++ join_char 44 (map journal_key failures)).

Definition startup_cleanup : M CleanupReport :=
  entries ← activation_journal_entries;
  journaled ← st_lift (ok_or (try_from U32_MAX (zlen entries))
                         (mkStoreError (str "too many activation journal entries")));
  s ← sweep entries (mkSweep [] [] []);
  (if bool_decide (removed s = []) then mret ()
   else with_write (
     open_table;;
     st_for (removed s) (λ id, table_remove ACTIVATION_JOURNAL_V2 (journal_key id))));;
  st_for (record_uncertain s) (λ id, update_activation_state id State_UncertainNoReplay);;
  st_lift (refuse_if (negb (bool_decide (failures s = []))) (cleanup_failed (failures s)));;
  removed_count ← st_lift (ok_or (try_from U32_MAX (zlen (removed s)))
    (mkStoreError (str "too many cleaned activation entries")));
  mret (mkCleanupReport journaled removed_count).

(** *** The clipboard cache *)

Definition set_clipboard_cache (record : ClipboardCacheRecord) : M () :=
  st_lift (cache_record_validate path_is_absolute record);;
  let key := cache_key (cc_state record) in
  encoded ← st_lift (encode_json record);
  with_write (open_table;; table_insert CLIPBOARD_CACHE_V2 key encoded).

Definition get_clipboard_cache (state : ClipboardCacheState)
    : M (option ClipboardCacheRecord) :=
  with_read (
    open_table;;
    bytes ← table_get CLIPBOARD_CACHE_V2 (cache_key state);
    st_lift (decode_opt bytes)).

Definition clear_clipboard_cache (state : ClipboardCacheState) : M () :=
  with_write (open_table;; table_remove CLIPBOARD_CACHE_V2 (cache_key state)).

Definition has_uncertain_side_effect : M bool :=
  entries ← activation_journal_entries;
  if existsb (λ entry, bool_decide (je_mode entry = Mode_Clipboard)
                       && is_uncertain_side_effect (je_state entry)) entries
  then mret true
  else
    cached ← get_clipboard_cache Cache_InFlight;
    mret (match cached with Some _ => true | None => false end).

Definition promote_clipboard_cache (candidate : ClipboardCacheRecord)
    : M (option ClipboardCacheRecord) :=
  st_lift (refuse_if (negb (bool_decide (cc_state candidate = Cache_InFlight)))
    (mkStoreError (str "clipboard candidate must be in flight")));;
  st_lift (cache_record_validate path_is_absolute candidate);;
  encoded_candidate ← st_lift (encode_json
    (mkClipboardCacheRecord (cc_activation_id candidate) Cache_Completed
       (cc_payload_path candidate)));
  with_write (
    open_table;;
    bytes ← table_get CLIPBOARD_CACHE_V2 CACHE_COMPLETED;
    previous ← st_lift (decode_opt bytes);
    table_insert CLIPBOARD_CACHE_V2 CACHE_COMPLETED encoded_candidate;;
    table_remove CLIPBOARD_CACHE_V2 CACHE_IN_FLIGHT;;
    mret previous).

(** *** Legacy state *)

Definition migrate_v1_body_records : M MigrationReport :=
  with_write (
    open_table;;
    keys ← table_rows RECEIVE_LEDGER (λ key _, mret key);
    st_for keys (table_remove RECEIVE_LEDGER);;
    count ← st_lift (ok_or (try_from U64_MAX (zlen keys))
                       (mkStoreError (str "too many v1 body records")));
    mret (mkMigrationReport count false 0)).

(** A store-level filesystem call ([remove_completion_markers]). *)
Definition fs_store_call {T} (op : St FS StoreError T) : M T := λ w,
  match op (w_fs w) with (r, fs) => (r, mkWorld (w_db w) (w_faults w) fs) end.

(** The second field of the report is [!path_exists(&partials)] after the removal. *)
Definition migrate_legacy_state (incoming_directory : PathBuf) : M MigrationReport :=
  report ← migrate_v1_body_records;
  partials_exists ← fs_call (str "legacy partial cleanup failed: ")
                      (legacy_remove_partials incoming_directory);
  markers ← fs_store_call (legacy_remove_markers incoming_directory);
  mret (mkMigrationReport (v1_body_records_removed report) (negb partials_exists) markers).
End operations.

(** ** Lemmas: tables, calls and transactions *)

Class TableLaws {K} `{Countable K} (table : Table K) := {
  t_get_set : ∀ t db, t_get table (t_set table t db) = t;
  t_set_set : ∀ t1 t2 db, t_set table t2 (t_set table t1 db) = t_set table t2 db;
  t_set_get : ∀ db, t_set table (t_get table db) db = db;
}.
Ltac table_laws := split; [intros ? []; done | intros ? ? []; done | intros []; done].
#[export] Instance sources_laws : TableLaws OFFER_SOURCES_V2.
Proof. table_laws. Qed.
#[export] Instance cards_laws : TableLaws OFFER_CARDS_V2.
Proof. table_laws. Qed.
#[export] Instance journal_laws : TableLaws ACTIVATION_JOURNAL_V2.
Proof. table_laws. Qed.
#[export] Instance cache_laws : TableLaws CLIPBOARD_CACHE_V2.
Proof. table_laws. Qed.
#[export] Instance ledger_laws : TableLaws RECEIVE_LEDGER.
Proof. table_laws. Qed.

Section redb_lemmas.
Context {FS : Type} `{!RedbIter}.
Notation M := (St (World FS) StoreError).
Implicit Types (w : World FS).

Lemma redb_call_db w r w' : redb_call w = (r, w') → w_db w' = w_db w ∧ w_fs w' = w_fs w.
Proof. unfold redb_call. destruct (w_faults w) as [|[e|] l]; by intros [= <- <-]. Qed.

(** An early return or a failed commit leaves the database as it was. *)
Lemma with_write_Err {T} (body : M T) w e w' :
  with_write body w = (Err e, w') → w_db w' = w_db w.
Proof. unfold with_write. destruct ((redb_call;; x ← body; redb_call;; mret x) w) as [[x|e'] w1]; [done|]. by intros [= <- <-]. Qed.

Lemma with_write_Ok {T} (body : M T) w x w' :
  with_write body w = (Ok x, w') →
  ∃ w1 w2, w_db w1 = w_db w ∧ w_fs w1 = w_fs w ∧ body w1 = (Ok x, w2) ∧
           w_db w' = w_db w2 ∧ w_fs w' = w_fs w2.
Proof.
  unfold with_write. destruct ((redb_call;; x ← body; redb_call;; mret x) w) as [[x'|e'] w'0] eqn:Hrun; [|done].
  intros [= -> ->]. inv_st.
  repeat match goal with H : redb_call _ = _ |- _ => apply redb_call_db in H as [? ?] end.
  eauto 10.
Qed.

Lemma with_read_db {T} (body : M T) w r w' :
  (∀ w1 r1 w2, body w1 = (r1, w2) → w_db w2 = w_db w1) →
  with_read body w = (r, w') → w_db w' = w_db w.
Proof.
  intros Hbody. unfold with_read, mbind, st_bind.
  destruct (redb_call w) as [[[]|e] w1] eqn:Hc; apply redb_call_db in Hc as [Hc _].
  - intros ->%Hbody. done.
  - by intros [= <- <-].
Qed.

Section table_lemmas.
Context `{Countable K} (table : Table K).

Lemma open_table_db w r w' : open_table w = (r, w') → w_db w' = w_db w ∧ w_fs w' = w_fs w.
Proof. apply redb_call_db. Qed.

Lemma table_get_Ok key w o w' :
  table_get table key w = (Ok o, w') →
  o = t_get table (w_db w) !! key ∧ w_db w' = w_db w ∧ w_fs w' = w_fs w.
Proof.
  unfold table_get. intros. inv_st.
  match goal with H : redb_call _ = _ |- _ => apply redb_call_db in H as [-> ->] end. done.
Qed.

Lemma table_insert_Ok key value w u w' :
  table_insert table key value w = (Ok u, w') →
  w_db w' = t_set table (<[key := value]> (t_get table (w_db w))) (w_db w) ∧
  w_fs w' = w_fs w.
Proof.
  unfold table_insert. intros. inv_st.
  match goal with H : redb_call _ = _ |- _ => apply redb_call_db in H as [Hd Hf] end.
  simpl. by rewrite Hd, Hf.
Qed.

Lemma table_remove_Ok key w u w' :
  table_remove table key w = (Ok u, w') →
  w_db w' = t_set table (delete key (t_get table (w_db w))) (w_db w) ∧
  w_fs w' = w_fs w.
Proof.
  unfold table_remove. intros. inv_st.
  match goal with H : redb_call _ = _ |- _ => apply redb_call_db in H as [Hd Hf] end.
  simpl. by rewrite Hd, Hf.
Qed.

Lemma collect_rows_Ok {A} (row : K → bytes → result StoreError A) entries w xs w' :
  collect_rows row entries w = (Ok xs, w') →
  Forall2 (λ kv x, row kv.1 kv.2 = Ok x) entries xs ∧
  w_db w' = w_db w ∧ w_fs w' = w_fs w.
Proof.
  revert w xs. induction entries as [|[k v] entries IH]; intros w xs; simpl; intros; inv_st.
  { done. }
  match goal with H : redb_call _ = _ |- _ => apply redb_call_db in H as [<- <-] end.
  match goal with H : collect_rows _ _ _ = _ |- _ => apply IH in H as (? & ? & ?) end.
  auto.
Qed.

Lemma table_rows_Ok {A} (row : K → bytes → result StoreError A) w xs w' :
  table_rows table row w = (Ok xs, w') →
  Forall2 (λ kv x, row kv.1 kv.2 = Ok x) (redb_iter (t_get table (w_db w))) xs ∧
  w_db w' = w_db w ∧ w_fs w' = w_fs w.
Proof.
  unfold table_rows. intros. inv_st.
  match goal with H : redb_call _ = _ |- _ => apply redb_call_db in H as [<- <-] end.
  by match goal with H : collect_rows _ _ _ = _ |- _ => apply collect_rows_Ok in H end.
Qed.

Lemma table_remove_all_Ok `{!TableLaws table} {A} (key : A → K) (l : list A) w u w' :
  st_for l (λ x, table_remove table (key x)) w = (Ok u, w') →
  w_db w' = t_set table (foldr delete (t_get table (w_db w)) (key <$> l)) (w_db w) ∧
  w_fs w' = w_fs w.
Proof.
  revert w. induction l as [|x l IH]; intros w; cbn [st_for]; intros Hrun; inv_st.
  { simpl. by rewrite t_set_get. }
  match goal with H : table_remove _ _ _ = _ |- _ => apply table_remove_Ok in H as [Hd Hf] end.
  match goal with H : st_for _ _ _ = _ |- _ => apply IH in H as [-> ->] end.
  rewrite Hd, Hf, t_get_set, t_set_set, fmap_cons. split; [|done]. f_equal. cbn [foldr].
  clear. induction (key <$> l) as [|k ks IH]; simpl; [done|].
  rewrite IH. apply delete_delete.
Qed.
End table_lemmas.
End redb_lemmas.

(** [inv_db]: replace every successful store call by what it did to the database. *)
Ltac inv_db_step :=
  match goal with
  | H : open_table _ = (Ok _, _) |- _ => apply open_table_db in H as [? ?]
  | H : redb_call _ = (Ok _, _) |- _ => apply redb_call_db in H as [? ?]
  | H : table_get _ _ _ = (Ok _, _) |- _ => apply table_get_Ok in H as (? & ? & ?)
  | H : table_insert _ _ _ _ = (Ok _, _) |- _ => apply table_insert_Ok in H as [? ?]
  | H : table_remove _ _ _ = (Ok _, _) |- _ => apply table_remove_Ok in H as [? ?]
  | H : with_write _ _ = (Ok _, _) |- _ =>
      apply with_write_Ok in H as (? & ? & ? & ? & ? & ? & ?)
  | H : w_db ?a = w_db ?b |- _ => rewrite H in *; clear H
  | H : w_fs ?a = w_fs ?b |- _ => rewrite H in *; clear H
  end.
Ltac inv_db := repeat first [inv_st_step | inv_db_step | progress cbv zeta in *].

(** ** Lemmas: orders *)

Lemma rstr_leb_total a b : rstr_leb a b = true ∨ rstr_leb b a = true.
Proof.
  revert b. induction a as [|x a IH]; intros [|y b]; simpl; auto.
  destruct (Z.ltb_spec x y), (Z.ltb_spec y x), (Z.eqb_spec x y), (Z.eqb_spec y x);
    simpl; auto; lia.
Qed.
Lemma rstr_leb_trans a b c :
  rstr_leb a b = true → rstr_leb b c = true → rstr_leb a c = true.
Proof.
  revert b c. induction a as [|x a IH]; intros [|y b] [|z c]; simpl; try done.
  destruct (Z.ltb_spec x y), (Z.eqb_spec x y), (Z.ltb_spec y z), (Z.eqb_spec y z),
    (Z.ltb_spec x z), (Z.eqb_spec x z); simpl; try done; try lia. apply IH.
Qed.

Class KeyOrder {K} (key_leb : K → K → bool) := {
  key_leb_total : ∀ a b, key_leb a b = true ∨ key_leb b a = true;
  key_leb_trans : ∀ a b c, key_leb a b = true → key_leb b c = true → key_leb a c = true;
}.
#[export] Instance rstr_order : KeyOrder rstr_leb.
Proof. split; [apply rstr_leb_total | apply rstr_leb_trans]. Qed.
#[export] Instance pair_order : KeyOrder pair_leb.
Proof.
  split.
  - intros [a1 a2] [b1 b2]. unfold pair_leb. simpl. repeat case_bool_decide; subst; try done;
      apply rstr_leb_total.
  - intros [a1 a2] [b1 b2] [c1 c2]. unfold pair_leb. simpl.
    repeat case_bool_decide; subst; try done; try apply rstr_leb_trans.
    intros H1 H2. (* equal firsts after going up and down *)
    destruct (decide (b1 = c1)) as [->|]; [done|]. exfalso.
    assert (∀ a b, rstr_leb a b = true → rstr_leb b a = true → a = b) as Hanti.
    { clear. induction a as [|x a IH]; intros [|y b]; simpl; try done.
      destruct (Z.ltb_spec x y), (Z.eqb_spec x y), (Z.ltb_spec y x), (Z.eqb_spec y x);
        simpl; try done; try lia. subst. intros. f_equal. by apply IH. }
    naive_solver.
Qed.

#[export] Instance row_le_total {K} (key_leb : K → K → bool) `{!KeyOrder key_leb} :
  Total (row_le key_leb).
Proof.
  intros [x a] [y b]. unfold row_le. simpl. pose proof (key_leb_total a b).
  destruct (Z.lt_total x y) as [?|[?|?]]; naive_solver.
Qed.
#[export] Instance row_le_trans {K} (key_leb : K → K → bool) `{!KeyOrder key_leb} :
  Transitive (row_le key_leb).
Proof.
  intros [x a] [y b] [z c]. unfold row_le. simpl. intros [?|[? ?]] [?|[? ?]]; try (left; lia).
  right. split; [lia|]. by eapply key_leb_trans.
Qed.
#[export] Instance newest_le_total {A} (seq : A → Z) : Total (newest_le seq).
Proof. intros x y. unfold newest_le. lia. Qed.
#[export] Instance newest_le_trans {A} (seq : A → Z) : Transitive (newest_le seq).
Proof. intros x y z. unfold newest_le. lia. Qed.

(** The first [n] of a sorted list are below the others. *)
Lemma sorted_take_drop {A} (R : relation A) l n x y :
  StronglySorted R l → x ∈ take n l → y ∈ drop n l → R x y.
Proof.
  rewrite <- (take_drop n l) at 1. generalize (drop n l) as l2. generalize (take n l) as l1.
  induction l1 as [|z l1 IH]; intros l2; simpl; [by intros _ ?%elem_of_nil|].
  intros [Hs Hall]%StronglySorted_inv [->|Hx]%elem_of_cons Hy.
  - rewrite Forall_forall in Hall. apply Hall. set_solver.
  - by apply IH with l2.
Qed.

(** The values of a filtered map. *)
Lemma omap_values {K A B} `{Countable K} (f : A → option B) (m : gmap K A) :
  (map_to_list (omap f m)).*2 ≡ₚ omap (λ kv, f kv.2) (map_to_list m).
Proof.
  induction m as [|i x m Hi IH] using map_ind.
  { by rewrite omap_empty, !map_to_list_empty. }
  rewrite (map_to_list_insert m) by done. cbn [omap list_omap snd].
  assert (omap f m !! i = None) as Hoi by (rewrite lookup_omap, Hi; done).
  destruct (f x) as [y|] eqn:Hf.
  - rewrite (omap_insert_Some _ _ _ _ y) by done. by rewrite map_to_list_insert, fmap_cons, IH.
  - rewrite (omap_insert_None _ _ _ _) by done. by rewrite delete_id.
Qed.

(** ** The logical content of a table *)

Section view.
Context {K A : Type} `{Countable K} `{!Json A}.
Implicit Types (t : gmap K bytes) (key_of : A → K) (sequence : A → Z).

Definition decoded (b : bytes) : option A :=
  match json_from_slice b with Ok r => Some r | Err _ => None end.
Definition view t : gmap K A := omap decoded t.
(** Every row decodes, so [view] drops none. *)
Definition decodes t : Prop := map_Forall (λ _ b, is_Some (decoded b)) t.

Lemma decode_json_Ok b (r : A) : decode_json b = Ok r ↔ decoded b = Some r.
Proof. unfold decode_json, decoded. destruct (json_from_slice b); simpl; naive_solver. Qed.

Lemma lookup_view t k r : view t !! k = Some r ↔ ∃ b, t !! k = Some b ∧ decoded b = Some r.
Proof. unfold view. rewrite lookup_omap, bind_Some. done. Qed.

Lemma view_insert t k b r : decoded b = Some r → view (<[k := b]> t) = <[k := r]> (view t).
Proof. intros Hd. unfold view. by rewrite (omap_insert_Some _ _ _ _ r). Qed.
Lemma view_delete t k : view (delete k t) = delete k (view t).
Proof. unfold view. apply omap_delete. Qed.

Lemma view_subseteq t1 t2 : t1 ⊆ t2 → ∀ k r, view t1 !! k = Some r → view t2 !! k = Some r.
Proof.
  intros Hsub k r (b & Hb & Hd)%lookup_view. apply lookup_view. exists b.
  split; [by eapply lookup_weaken | done].
Qed.

Lemma decodes_size t : decodes t → size (view t) = size t.
Proof.
  intros Hd. rewrite <- !(size_dom (D := gset K)). f_equal. apply set_eq. intros k.
  rewrite !elem_of_dom. split.
  - intros [r (b & Hb & _)%lookup_view]. eauto.
  - intros [b Hb]. destruct (Hd k b Hb) as [r Hr]. exists r. apply lookup_view. eauto.
Qed.

Lemma decodes_insert t k b : decodes t → is_Some (decoded b) → decodes (<[k := b]> t).
Proof. intros Ht Hb. by apply map_Forall_insert_2. Qed.
Lemma decodes_subseteq t1 t2 : t1 ⊆ t2 → decodes t2 → decodes t1.
Proof. intros Hsub Ht k b Hk. apply (Ht k b). by eapply lookup_weaken. Qed.

(** What the rows of a sequenced table satisfy: they decode, carry their own key and a
    positive sequence number of their own, and there are at most ten. *)
Record sequenced_ok key_of sequence t : Prop := {
  so_decodes : decodes t;
  so_keyed : map_Forall (λ k r, key_of r = k ∧ 1 ≤ sequence r ≤ U64_MAX) (view t);
  so_distinct : ∀ k1 k2 r1 r2, view t !! k1 = Some r1 → view t !! k2 = Some r2 →
    sequence r1 = sequence r2 → k1 = k2;
  so_bounded : Z.of_nat (size t) ≤ V2_MAX_LIVE_ENTRIES;
}.
End view.

Section sequenced_lemmas.
Context {FS K A : Type} `{Countable K} `{!Json A} `{!RedbIter} `{!RedbIterLaws}.
Context (table : Table K) `{!TableLaws table} (key_leb : K → K → bool) `{!KeyOrder key_leb}.
Context (sequence : A → Z) (key_of : A → K).
Implicit Types (w : World FS) (t : gmap K bytes).

Lemma elem_of_redb_iter t k b : (k, b) ∈ redb_iter t ↔ t !! k = Some b.
Proof. rewrite redb_iter_all. apply elem_of_map_to_list. Qed.

(** Reading a computed column of every row succeeds only when every row decodes. *)
Lemma rows_Forall2_decodes t {B} (f : K → A → B) xs :
  Forall2 (λ kv x, (record ← decode_json kv.2; mret (f kv.1 record)) = Ok x)
    (redb_iter t) xs →
  decodes (A := A) t ∧
  (∀ x, x ∈ xs ↔ ∃ k r, view t !! k = Some r ∧ x = f k r) ∧ length xs = size t.
Proof.
  intros Hf. split; [|split].
  - intros k b [i Hi]%elem_of_redb_iter%list_elem_of_lookup.
    eapply Forall2_lookup_l in Hf as (x & _ & Hr); [|done]. simpl in Hr.
    apply bind_Ok in Hr as (r & Hr%decode_json_Ok & _). by exists r.
  - intros x. split.
    + intros (i & Hx)%list_elem_of_lookup. eapply Forall2_lookup_r in Hf as ([k b] & Hi & Hr); [|done].
      simpl in Hr. apply bind_Ok in Hr as (r & Hr & [= <-]). exists k, r. split; [|done].
      apply lookup_view. exists b. rewrite <- decode_json_Ok. split; [|done].
      apply elem_of_redb_iter. by eapply list_elem_of_lookup_2.
    + intros (k & r & Hk & ->). apply lookup_view in Hk as (b & Hb & Hd).
      apply elem_of_redb_iter, list_elem_of_lookup in Hb as [i Hi].
      eapply Forall2_lookup_l in Hf as (x & Hx & Hr); [|done]. simpl in Hr.
      apply decode_json_Ok in Hd. rewrite Hd in Hr. simpl in Hr. injection Hr as <-.
      by eapply list_elem_of_lookup_2.
  - apply Forall2_length in Hf. rewrite <- Hf, (Permutation_length (redb_iter_all _ _)).
    apply length_map_to_list.
Qed.

Lemma rows_keys t (f : A → Z) xs :
  Forall2 (λ kv x, (record ← decode_json kv.2; mret (f record, kv.1)) = Ok x)
    (redb_iter t) xs →
  xs.*2 = (redb_iter t).*1.
Proof.
  induction 1 as [|[k b] x l xs Hr _ IH]; [done|]. rewrite !fmap_cons, IH. f_equal.
  simpl in Hr. by apply bind_Ok in Hr as (r & _ & [= <-]).
Qed.

Lemma size_foldr_delete t (ks : list K) :
  NoDup ks → (∀ k, k ∈ ks → is_Some (t !! k)) →
  size (foldr delete t ks) = (size t - length ks)%nat.
Proof.
  induction 1 as [|k ks Hk _ IH]; intros Hin; simpl; [lia|].
  rewrite map_size_delete_Some; [rewrite IH by set_solver; lia|].
  rewrite lookup_foldr_delete_not_elem_of by done. apply Hin. set_solver.
Qed.

Lemma foldr_delete_subseteq t (ks : list K) : foldr delete t ks ⊆ t.
Proof.
  induction ks as [|k ks IH]; simpl; [done|]. etrans; [apply delete_subseteq | done].
Qed.

Lemma next_sequence_Ok overflow w n w' :
  next_sequence table sequence overflow w = (Ok n, w') →
  w_db w' = w_db w ∧ w_fs w' = w_fs w ∧ 1 ≤ n ≤ U64_MAX ∧
  (∀ k r, view (A := A) (t_get table (w_db w)) !! k = Some r → sequence r < n).
Proof.
  unfold next_sequence. intros. inv_st.
  match goal with H : table_rows _ _ _ = _ |- _ => apply table_rows_Ok in H as (Hf & -> & ->) end.
  match goal with H : ok_or _ _ = _ |- _ => rename H into Hn end.
  rewrite ok_or_Ok, checked_add_Some in Hn. destruct Hn as [-> Hn].
  pose proof (max_with_nonneg (λ n, n) x). split_and!; [done..|lia|lia|].
  apply (rows_Forall2_decodes _ (λ _ r, sequence r)) in Hf as (_ & Hx & _).
  intros k r Hk. assert (sequence r ∈ x) as Hin by (apply Hx; eauto).
  pose proof (max_with_elem (λ n, n) x _ Hin). simpl in *. lia.
Qed.

(** The purge keeps the newest nine rows. *)
Lemma purge_oldest_Ok too_many w purged w' :
  purge_oldest table key_leb sequence too_many w = (Ok purged, w') →
  ∃ kept, let t := t_get table (w_db w) in kept ⊆ t ∧ w_db w' = t_set table kept (w_db w) ∧ w_fs w' = w_fs w ∧
    decodes (A := A) t ∧
    purged = Z.max 0 (Z.of_nat (size t) - (V2_MAX_LIVE_ENTRIES - 1)) ∧
    Z.of_nat (size kept) = Z.of_nat (size t) - purged ∧
    (∀ k k' r r', view t !! k = Some r → kept !! k = None → view kept !! k' = Some r' →
       sequence r ≤ sequence r').
Proof.
  unfold purge_oldest. intros Hrun. inv_st.
  match goal with H : table_rows _ _ _ = _ |- _ => apply table_rows_Ok in H as (Hf & Hd & Hfs) end.
  match goal with H : st_for _ _ _ = _ |- _ =>
    apply (table_remove_all_Ok table snd) in H as [-> ->] end.
  match goal with H : ok_or _ _ = _ |- _ => rename H into Hn; rename x into rows end.
  rewrite ok_or_Ok, try_from_Some in Hn. destruct Hn as [-> _].
  rewrite Hd, Hfs. revert Hf. generalize (t_get table (w_db w)) as t. intros t Hf.
  pose proof (rows_keys _ _ _ Hf) as Hkeys.
  apply (rows_Forall2_decodes _ (λ k r, (sequence r, k))) in Hf as (Hdec & Hx & Hlen).
  set (n := Z.to_nat _). set (sorted := merge_sort (row_le key_leb) rows).
  assert (sorted ≡ₚ rows) as Hperm by apply merge_sort_Permutation.
  assert (StronglySorted (row_le key_leb) sorted) as Hsort by (apply StronglySorted_merge_sort; apply _).
  set (keys := (take n sorted).*2). exists (foldr delete t keys). cbv zeta.
  assert (NoDup (sorted.*2)) as Hnd.
  { rewrite Hperm, Hkeys, redb_iter_all. apply NoDup_fst_map_to_list. }
  rewrite <- (take_drop n sorted), fmap_app in Hnd.
  apply NoDup_app in Hnd as (Hnd & Hdisj & _).
  assert (∀ k, k ∈ keys → is_Some (t !! k)) as Hin.
  { intros k ([s k'] & -> & Hk)%list_elem_of_fmap. apply elem_of_take in Hk as (i & Hk & _).
    apply list_elem_of_lookup_2 in Hk. rewrite Hperm in Hk. apply Hx in Hk as (k & r & Hk & [= -> ->]).
    apply lookup_view in Hk as (b & Hb & _). by exists b. }
  assert (length keys = n) as Hlk.
  { unfold keys. rewrite length_fmap, length_take, Hperm, Hlen. unfold n, saturating_sub, zlen.
    rewrite Hlen. unfold V2_MAX_LIVE_ENTRIES. lia. }
  split_and!; [apply foldr_delete_subseteq|done|done|done| | |].
  - unfold saturating_sub, zlen. by rewrite Hlen.
  - rewrite size_foldr_delete by done. rewrite Hlk. unfold n, saturating_sub, zlen. rewrite Hlen.
    unfold V2_MAX_LIVE_ENTRIES. lia.
  - intros k k' r r' Hk Hnone Hk'. assert (k ∈ keys) as Hkk.
    { destruct (decide (k ∈ keys)) as [|Hne]; [done|].
      rewrite lookup_foldr_delete_not_elem_of in Hnone by done.
      apply lookup_view in Hk as (b & Hb & _). congruence. }
    assert (k' ∉ keys) as Hk'k.
    { intros Hk'k. apply lookup_view in Hk' as (b & Hb & _).
      by rewrite lookup_foldr_delete in Hb. }
    apply (view_subseteq _ _ (foldr_delete_subseteq t keys)) in Hk' as Hk't.
    assert (Hr : (sequence r, k) ∈ sorted) by (rewrite Hperm; apply Hx; eauto).
    assert (Hr' : (sequence r', k') ∈ sorted) by (rewrite Hperm; apply Hx; eauto).
    assert ((sequence r, k) ∈ take n sorted) as Htake.
    { apply list_elem_of_fmap in Hkk as ([s k1] & Heq & Hkk). simpl in Heq. subst k1.
      enough (s = sequence r) by congruence.
      apply elem_of_take in Hkk as (i & Hi & _). apply list_elem_of_lookup_2 in Hi.
      rewrite Hperm in Hi. apply Hx in Hi as (k1 & r1 & Hk1 & [= -> ->]). congruence. }
    rewrite <- (take_drop n sorted) in Hr'. apply elem_of_app in Hr' as [Hr'|Hr'].
    { destruct Hk'k. apply list_elem_of_fmap. by exists (sequence r', k'). }
    destruct (sorted_take_drop _ _ _ _ _ Hsort Htake Hr') as [|[? _]]; simpl in *; lia.
Qed.

(** The abstract effect of appending a record to a table: the oldest rows beyond nine go,
    the new row gets a sequence number above every earlier one. *)
Definition appended (before after : gmap K A) (key : K) (record : A) (purged : Z) : Prop :=
  ∃ kept, kept ⊆ before ∧ after = <[key := record]> kept ∧
    purged = Z.max 0 (Z.of_nat (size before) - (V2_MAX_LIVE_ENTRIES - 1)) ∧
    Z.of_nat (size kept) = Z.of_nat (size before) - purged ∧
    (∀ k k' r r', before !! k = Some r → kept !! k = None → kept !! k' = Some r' →
       sequence r ≤ sequence r') ∧
    (∀ k r, before !! k = Some r → sequence r < sequence record).

Lemma append_row_Ok `{!JsonLaws A} too_many overflow key fresh w record purged w' :
  (∀ n, sequence (fresh n) = n) →
  append_row table key_leb sequence too_many overflow key fresh w
    = (Ok (record, purged), w') →
  ∃ n, let t := t_get table (w_db w) in let t' := t_get table (w_db w') in
    record = fresh n ∧ 1 ≤ n ≤ U64_MAX ∧
    w_db w' = t_set table t' (w_db w) ∧ w_fs w' = w_fs w ∧
    decodes (A := A) t ∧ decodes (A := A) t' ∧
    (∃ kept b, kept ⊆ t ∧ t' = <[key := b]> kept) ∧
    appended (view t) (view t') key record purged.
Proof.
  intros Hseq. unfold append_row. intros Hrun. inv_st.
  match goal with H : purge_oldest _ _ _ _ _ = _ |- _ =>
    apply purge_oldest_Ok in H as (kept & Hsub & Hd & Hfs & Hdec & Hp & Hsize & Hold) end.
  match goal with H : next_sequence _ _ _ _ = _ |- _ =>
    apply next_sequence_Ok in H as (Hd2 & Hfs2 & Hn & Hnew) end.
  match goal with H : table_insert _ _ _ _ = _ |- _ =>
    apply table_insert_Ok in H as [Hd3 Hfs3] end.
  match goal with H : (record, purged) = _ |- _ => injection H as -> -> end.
  match goal with H : encode_json _ = Ok ?b |- _ =>
    unfold encode_json in H; rewrite map_err_Ok in H; apply json_round_trip in H as Hrt;
    assert (decoded b = Some (fresh x1)) as Hb by (unfold decoded; by rewrite Hrt) end.
  rewrite Hd, t_get_set in Hnew. rewrite Hd3, Hd2, Hd, !t_get_set, !t_set_set.
  rewrite Hfs3, Hfs2, Hfs.
  revert Hsub Hdec Hp Hsize Hold. generalize (t_get table (w_db w)) as t.
  intros t Hsub Hdec Hp Hsize Hold. exists x1. cbv zeta.
  pose proof (decodes_subseteq _ _ Hsub Hdec) as Hdeck.
  split_and!; [done|lia|lia|done|done|done|by apply decodes_insert; eauto|by eauto|].
  exists (view kept). rewrite (view_insert _ _ _ _ Hb), !decodes_size, Hseq by done.
  split_and!; [|done|done|done| |].
  - apply map_subseteq_spec. by apply view_subseteq.
  - intros k k' r r' Hk Hnone. apply (Hold k); [done|].
    destruct (kept !! k) as [b0|] eqn:Hk0; [|done]. exfalso.
    destruct (Hdeck _ _ Hk0) as [r0 Hr0].
    assert (view kept !! k = Some r0) by (apply lookup_view; eauto). congruence.
  - intros k r Hk. destruct (view kept !! k) as [r0|] eqn:Hk0.
    + pose proof (view_subseteq _ _ Hsub _ _ Hk0) as Hk1. simplify_eq. by apply Hnew in Hk0.
    + (* a purged row is older than some kept row *)
      assert (kept !! k = None) as Hnone.
      { destruct (kept !! k) as [b0|] eqn:Hk1; [|done]. destruct (Hdeck _ _ Hk1) as [r0 Hr0].
        assert (view kept !! k = Some r0) by (apply lookup_view; eauto). congruence. }
      destruct (decide (kept = ∅)) as [->|Hne].
      * exfalso. rewrite map_size_empty in Hsize.
        assert (0 < Z.of_nat (size t)).
        { apply lookup_view in Hk as (b0 & Hb0 & _).
          enough (size t ≠ 0%nat) by lia. apply map_size_non_empty_iff. by intros ->. }
        unfold V2_MAX_LIVE_ENTRIES in *. lia.
      * apply map_choose in Hne as (k' & b' & Hk'). destruct (Hdeck _ _ Hk') as [r' Hr'].
        assert (view kept !! k' = Some r') as Hv by (apply lookup_view; eauto).
        specialize (Hold _ _ _ _ Hk Hnone Hv). specialize (Hnew _ _ Hv). lia.
Qed.

(** *** Runs without failures *)

Definition no_faults w : Prop := w_faults w = [].

Lemma redb_call_live w : no_faults w → redb_call w = (Ok (), w).
Proof. unfold no_faults, redb_call. by intros ->. Qed.

Lemma with_write_live {T} (body : St (World FS) StoreError T) w x w' :
  no_faults w → body w = (Ok x, w') → no_faults w' → with_write body w = (Ok x, w').
Proof.
  intros Hw Hb Hw'. unfold with_write, mbind, st_bind. rewrite redb_call_live by done.
  by rewrite Hb, redb_call_live.
Qed.

Lemma table_rows_live {B} (row : K → bytes → result StoreError B) w :
  no_faults w →
  (∀ k b, t_get table (w_db w) !! k = Some b → ∃ x, row k b = Ok x) →
  ∃ xs, table_rows table row w = (Ok xs, w).
Proof.
  intros Hw Hrow. unfold table_rows, mbind, st_bind. rewrite redb_call_live by done. simpl.
  assert (∀ k b, (k, b) ∈ redb_iter (t_get table (w_db w)) → ∃ x, row k b = Ok x) as Hall.
  { intros k b Hkb%elem_of_redb_iter. by apply Hrow. }
  revert Hall. generalize (redb_iter (t_get table (w_db w))) as l.
  induction l as [|[k b] l IH]; intros Hall; simpl; [by eexists|].
  unfold mbind, st_bind, st_lift. rewrite redb_call_live by done.
  destruct (Hall k b) as [x ->]; [set_solver|].
  destruct IH as [xs ->]; [intros; apply Hall; set_solver|]. by eexists.
Qed.

Lemma remove_all_live {B} (key : B → K) (l : list B) w :
  no_faults w → ∃ w', st_for l (λ x, table_remove table (key x)) w = (Ok (), w') ∧ no_faults w'.
Proof.
  revert w. induction l as [|x l IH]; intros w Hw; cbn [st_for]; [by eexists|].
  unfold mbind, st_bind, table_remove. unfold mbind, st_bind.
  rewrite redb_call_live by done. unfold st_modify. apply IH. done.
Qed.

Lemma append_row_live `{!JsonLaws A} too_many overflow key fresh w :
  no_faults w → decodes (A := A) (t_get table (w_db w)) →
  Z.of_nat (size (t_get table (w_db w))) ≤ V2_MAX_LIVE_ENTRIES →
  (∀ k r, view (A := A) (t_get table (w_db w)) !! k = Some r → sequence r < U64_MAX) →
  (∀ n, ∃ b, json_to_vec (fresh n) = Ok b) →
  ∃ record purged w',
    append_row table key_leb sequence too_many overflow key fresh w = (Ok (record, purged), w')
    ∧ no_faults w'.
Proof.
  intros Hw Hdec Hsize Hseq Henc.
  assert (∀ w0 (B : Type) (f : K → A → B), no_faults w0 → decodes (A := A) (t_get table (w_db w0)) →
    ∃ xs, table_rows table (λ k b, record ← decode_json b; mret (f k record)) w0 = (Ok xs, w0))
    as Hrows.
  { intros w0 B f Hw0 Hd0. apply table_rows_live; [done|]. intros k b Hb.
    destruct (Hd0 _ _ Hb) as [r Hr%decode_json_Ok]. rewrite Hr. by eexists. }
  assert (∃ purged w1, purge_oldest table key_leb sequence too_many w = (Ok purged, w1) ∧
                       no_faults w1) as (purged & w1 & Hpurge & Hw1).
  { unfold purge_oldest. unfold mbind at 1, st_bind at 1.
    destruct (Hrows w _ (λ k r, (sequence r, k)) Hw Hdec) as [rows Hrow]. cbv beta in Hrow. rewrite Hrow.
    apply table_rows_Ok in Hrow as [Hf _].
    apply (rows_Forall2_decodes _ (λ k r, (sequence r, k))) in Hf as (_ & _ & Hlen).
    cbv zeta. unfold mbind at 1, st_bind at 1. edestruct (remove_all_live (B := Z * K) snd) as (w1 & -> & Hw1); [exact Hw|].
    unfold st_lift. exists (saturating_sub (zlen rows) (V2_MAX_LIVE_ENTRIES - 1)), w1.
    split; [|done]. f_equal. apply ok_or_Ok, try_from_Some. split; [done|].
    unfold saturating_sub, zlen, V2_MAX_LIVE_ENTRIES, U32_MAX in *. rewrite Hlen. lia. }
  unfold append_row. unfold mbind at 1, st_bind at 1. rewrite Hpurge.
  apply purge_oldest_Ok in Hpurge as (kept & Hsub & Hd & _ & _ & _ & _ & _).
  unfold mbind at 1, st_bind at 1, next_sequence. unfold mbind at 1, st_bind at 1.
  assert (decodes (A := A) (t_get table (w_db w1))) as Hdec1.
  { rewrite Hd, t_get_set. by eapply decodes_subseteq. }
  destruct (Hrows w1 _ (λ _ r, sequence r) Hw1 Hdec1) as [seqs Hrow]. cbv beta in Hrow. rewrite Hrow.
  apply table_rows_Ok in Hrow as [Hf _].
  apply (rows_Forall2_decodes _ (λ _ r, sequence r)) in Hf as (_ & Hin & _).
  assert (max_with (λ n, n) seqs + 1 ≤ U64_MAX) as Hmax.
  { enough (max_with (λ n, n) seqs ≤ U64_MAX - 1) by lia.
    apply max_with_bound; [unfold U64_MAX; lia|]. intros n Hn. apply Hin in Hn as (k & r & Hk & ->).
    rewrite Hd, t_get_set in Hk. specialize (Hseq k r (view_subseteq _ _ Hsub _ _ Hk)). lia. }
  unfold st_lift at 1. rewrite (proj2 (checked_add_Some _ _ _ _)) by (split; [done|lia]).
  cbn [ok_or]. cbv zeta. unfold mbind at 1, st_bind at 1, st_lift.
  destruct (Henc (max_with (λ n, n) seqs + 1)) as [b Hb].
  unfold encode_json. rewrite Hb. cbn [map_err]. unfold table_insert, mbind, st_bind.
  rewrite redb_call_live by done. unfold st_modify. eauto 10.
Qed.

(** Appending keeps the table's invariant. *)
Lemma appended_ok key record purged t t' :
  sequenced_ok key_of sequence t → decodes (A := A) t' →
  key_of record = key → 1 ≤ sequence record ≤ U64_MAX →
  appended (view t) (view t') key record purged →
  sequenced_ok key_of sequence t'.
Proof.
  intros [Hdec Hkey Hdist Hbound] Hdec' Hk Hr (kept & Hsub & Heq & Hp & Hsize & _ & Hnew).
  assert (∀ k r, kept !! k = Some r → view t !! k = Some r) as Hkept.
  { intros. by eapply lookup_weaken. }
  split; [done| | |].
  - rewrite Heq. apply map_Forall_insert_2; [done|].
    intros k r Hkr. apply Hkey. by apply Hkept.
  - rewrite Heq. intros k1 k2 r1 r2 Hl1%lookup_insert_Some Hl2%lookup_insert_Some Heqs.
    destruct Hl1 as [[<- <-]|[? Hl1]], Hl2 as [[<- <-]|[? Hl2]]; [done| | |].
    + apply Hkept, Hnew in Hl2. lia.
    + apply Hkept, Hnew in Hl1. lia.
    + by eapply Hdist; [apply Hkept..|].
  - rewrite <- (decodes_size t') by done. rewrite Heq, map_size_insert.
    destruct (kept !! key); simpl; unfold V2_MAX_LIVE_ENTRIES in *; lia.
Qed.

(** Rewriting a row in place, keeping its key and sequence number, keeps the invariant. *)
Lemma rewrite_row_ok t key b r b' r' :
  sequenced_ok key_of sequence t →
  t !! key = Some b → decoded b = Some r → decoded b' = Some r' →
  key_of r' = key_of r → sequence r' = sequence r →
  sequenced_ok key_of sequence (<[key := b']> t).
Proof.
  intros [Hdec Hkey Hdist Hbound] Hb Hr Hb' Hk Hs.
  assert (view t !! key = Some r) as Hv by (apply lookup_view; eauto).
  split.
  - apply decodes_insert; eauto.
  - rewrite (view_insert _ _ _ _ Hb'). apply map_Forall_insert_2; [|done].
    rewrite Hk, Hs. by apply Hkey.
  - rewrite (view_insert _ _ _ _ Hb'). intros k1 k2 r1 r2 Hl1%lookup_insert_Some Hl2%lookup_insert_Some Heqs.
    destruct Hl1 as [[<- <-]|[? Hl1]], Hl2 as [[<- <-]|[? Hl2]]; [done| | |by eapply Hdist].
    + rewrite Hs in Heqs. by eapply Hdist.
    + rewrite Hs in Heqs. by eapply Hdist.
  - rewrite map_size_insert_Some by eauto. done.
Qed.

Lemma delete_row_ok t key :
  sequenced_ok key_of sequence t → sequenced_ok key_of sequence (delete key t).
Proof.
  intros [Hdec Hkey Hdist Hbound]. rewrite <- (decodes_size (A := A)) in Hbound by done.
  split.
  - eapply decodes_subseteq; [apply delete_subseteq | done].
  - rewrite view_delete. by apply map_Forall_delete.
  - rewrite view_delete. intros k1 k2 r1 r2 [_ ?]%lookup_delete_Some [_ ?]%lookup_delete_Some.
    by eapply Hdist.
  - rewrite decodes_size in Hbound by done. rewrite map_size_delete.
    destruct (t !! key); simpl; lia.
Qed.
End sequenced_lemmas.

(** ** The invariant of the store and its operations *)

Ltac db_after :=
  match goal with H : w_db ?a = t_set _ _ _ |- context [w_db ?a] => rewrite H end.
Ltac inv_append :=
  match goal with
  | H : append_row _ _ _ _ _ _ _ _ = (Ok ?p, _) |- _ =>
      destruct p as [record purged];
      apply append_row_Ok in H as (n & -> & Hn & Hd & Hfs & Hdec & Hdec' & _ & Happ);
      [| first [apply _ | done]..]
  end.

(** A table whose rows decode and carry their own key. *)
Record keyed_ok {K A} `{Countable K} `{!Json A} (key_of : A → K) (t : gmap K bytes) : Prop := {
  ko_decodes : decodes (A := A) t;
  ko_keyed : map_Forall (λ k r, key_of r = k) (view t);
}.

Section keyed.
Context {K A : Type} `{Countable K} `{!Json A} (key_of : A → K).
Lemma keyed_insert t b r :
  keyed_ok key_of t → decoded b = Some r → keyed_ok key_of (<[key_of r := b]> t).
Proof.
  intros [Hd Hk] Hb. split; [apply decodes_insert; eauto|].
  rewrite (view_insert _ _ _ _ Hb). by apply map_Forall_insert_2.
Qed.
Lemma keyed_delete t k : keyed_ok key_of t → keyed_ok key_of (delete k t).
Proof.
  intros [Hd Hk]. split; [eapply decodes_subseteq; [apply delete_subseteq | done]|].
  rewrite view_delete. by apply map_Forall_delete.
Qed.
Lemma keyed_foldr_delete t ks : keyed_ok key_of t → keyed_ok key_of (foldr delete t ks).
Proof. intros Ht. induction ks; simpl; [done | by apply keyed_delete]. Qed.
End keyed.

Section store_theorems.
Context {FS : Type} `{!StagingFs FS} `{!RedbIter} `{!RedbIterLaws} `{!UuidText}.
Context `{!Json OfferSourceRecord} `{!Json OfferCardRecord}.
Context `{!Json ActivationJournalEntry} `{!Json ClipboardCacheRecord}.
Context `{!JsonLaws OfferSourceRecord} `{!JsonLaws OfferCardRecord}.
Context `{!JsonLaws ActivationJournalEntry} `{!JsonLaws ClipboardCacheRecord}.
Notation M := (St (World FS) StoreError).
Implicit Types (w : World FS) (db : Db).

Definition sources_of db : gmap rstr OfferSourceRecord := view (db_sources db).
Definition cards_of db : gmap (rstr * rstr) OfferCardRecord := view (db_cards db).
Definition journal_of db : gmap rstr ActivationJournalEntry := view (db_journal db).
Definition cache_of db : gmap rstr ClipboardCacheRecord := view (db_cache db).

Definition source_row_key (r : OfferSourceRecord) : rstr := source_key (src_offer_id r).
Definition card_row_key (r : OfferCardRecord) : rstr * rstr :=
  card_key (card_source_device r) (card_offer_id r).
Definition journal_row_key (e : ActivationJournalEntry) : rstr :=
  journal_key (je_activation_id e).
Definition cache_row_key (r : ClipboardCacheRecord) : rstr := cache_key (cc_state r).

Record store_inv db : Prop := {
  inv_sources : sequenced_ok source_row_key src_creation_sequence (db_sources db);
  inv_cards : sequenced_ok card_row_key card_received_sequence (db_cards db);
  inv_journal : keyed_ok journal_row_key (db_journal db);
  inv_cache : keyed_ok cache_row_key (db_cache db);
}.

Lemma encode_json_decoded {A} `{!Json A} `{!JsonLaws A} (x : A) b :
  encode_json x = Ok b → decoded b = Some x.
Proof.
  unfold encode_json, decoded. rewrite map_err_Ok. by intros ->%json_round_trip.
Qed.

Lemma decode_opt_Ok {A} `{!Json A} o (x : option A) :
  decode_opt o = Ok x ↔
  (o = None ∧ x = None) ∨ (∃ b r, o = Some b ∧ decoded b = Some r ∧ x = Some r).
Proof.
  destruct o as [b|]; simpl; [|naive_solver]. rewrite fmap_Ok. setoid_rewrite decode_json_Ok.
  split; [intros (r & ? & ->); eauto 10|]. intros [[? _]|(b' & r & [= <-] & ? & ->)]; eauto; done.
Qed.

(** What a successful [insert_offer_source] did.  Either the offer was already stored
    with the same descriptor: the stored record is returned and nothing changes; or it is
    new: the oldest sources beyond nine are purged, the record is stored under its offer
    id with a sequence number above that of every earlier source, and the other tables
    are untouched. *)
Theorem insert_offer_source_spec input w out w' :
  insert_offer_source input w = (Ok out, w') →
  let before := sources_of (w_db w) in let after := sources_of (w_db w') in
  let key := source_key (in_offer_id input) in
  (before !! key = Some (si_record out) ∧
   src_descriptor (si_record out) = in_descriptor input ∧
   si_inserted out = false ∧ si_purged out = 0 ∧ w_db w' = w_db w) ∨
  (before !! key = None ∧ si_inserted out = true ∧
   si_record out = mkOfferSourceRecord (in_offer_id input) (in_descriptor input)
     (src_creation_sequence (si_record out)) (in_announced_to input) (in_source input) ∧
   appended src_creation_sequence before after key (si_record out) (si_purged out) ∧
   w_db w' = t_set OFFER_SOURCES_V2 (db_sources (w_db w')) (w_db w)).
Proof.
  unfold insert_offer_source. intros Hrun. inv_db.
  match goal with H : decode_opt _ = Ok ?e |- _ =>
    apply decode_opt_Ok in H as [[Hnone ->]|(b & r & Hsome & Hr & ->)] end.
  - right. inv_db.
    inv_append.
    inv_db. simpl in *. split_and!; try done.
    unfold sources_of. rewrite eq_None_not_Some. intros [r (b & Hb & _)%lookup_view]. congruence.
  - left. destruct (bool_decide_reflect (src_descriptor r = in_descriptor input)) as [Heq|];
      simpl in *; inv_db. split_and!; try done. apply lookup_view. eauto.
Qed.

Lemma insert_offer_card_Ok input w out w' :
  insert_offer_card input w = (Ok out, w') →
  let before := cards_of (w_db w) in let after := cards_of (w_db w') in
  let key := card_key (ci_source_device input) (ci_offer_id input) in
  (before !! key = Some (ic_record out) ∧
   card_descriptor (ic_record out) = ci_descriptor input ∧
   ic_inserted out = false ∧ ic_purged out = 0 ∧ w_db w' = w_db w) ∨
  (before !! key = None ∧ ic_inserted out = true ∧
   ic_record out = mkOfferCardRecord (ci_source_device input) (ci_offer_id input)
     (ci_descriptor input) (card_received_sequence (ic_record out))
     (ci_availability input) None ∧
   appended card_received_sequence before after key (ic_record out) (ic_purged out) ∧
   w_db w' = t_set OFFER_CARDS_V2 (db_cards (w_db w')) (w_db w)).
Proof.
  unfold insert_offer_card. intros Hrun. inv_db.
  match goal with H : decode_opt _ = Ok ?e |- _ =>
    apply decode_opt_Ok in H as [[Hnone ->]|(b & r & Hsome & Hr & ->)] end.
  - right. inv_db. inv_append. inv_db. simpl in *. split_and!; try done.
    unfold cards_of. rewrite eq_None_not_Some. intros [r (b & Hb & _)%lookup_view]. congruence.
  - left. destruct (bool_decide_reflect (card_descriptor r = ci_descriptor input)) as [Heq|];
      simpl in *; inv_db. split_and!; try done. apply lookup_view. eauto.
Qed.

(** what a successful [remove_explicit_refusal] did.  A device that was not a
    recipient changes nothing; otherwise it is removed from the recipients of the offer,
    the offer is deleted exactly when no recipient is left, and the update reports the
    number of recipients that remain. *)
Theorem remove_explicit_refusal_spec offer_id recipient w out w' :
  remove_explicit_refusal offer_id recipient w = (Ok out, w') →
  let before := sources_of (w_db w) in let after := sources_of (w_db w') in
  let key := source_key offer_id in
  ∃ r, before !! key = Some r ∧
  let left_ := src_announced_to r ∖ {[recipient]} in
  let r' := mkOfferSourceRecord (src_offer_id r) (src_descriptor r)
              (src_creation_sequence r) left_ (src_source r) in
  recipient_was_eligible out = bool_decide (recipient ∈ src_announced_to r) ∧
  remaining_recipients out = Z.of_nat (size left_) ∧
  offer_deleted out = recipient_was_eligible out && bool_decide (left_ = ∅) ∧
  (if recipient_was_eligible out then
     after = (if bool_decide (left_ = ∅) then delete key before
              else <[key := r']> before)
   else w_db w' = w_db w).
Proof.
  unfold remove_explicit_refusal. intros Hrun. inv_db.
  destruct (t_get OFFER_SOURCES_V2 (w_db w) !! source_key offer_id) as [b|] eqn:Hb; subst; inv_db.
  match goal with H : decode_json _ = Ok ?x |- _ => rename x into r; apply decode_json_Ok in H as Hr end.
  exists r. split; [apply lookup_view; eauto|]. simpl in *.
  case_bool_decide as Hel; simpl in *; [case_bool_decide as Hempty|]; inv_db; simpl.
  - rewrite Hempty. split_and!; [done..|]. unfold sources_of.
    db_after. apply view_delete.
  - match goal with H : ok_or _ _ = _ |- _ => rewrite ok_or_Ok, try_from_Some in H; destruct H as [-> _] end.
    match goal with H : encode_json _ = _ |- _ => apply encode_json_decoded in H as Henc end.
    split_and!; [done..|]. unfold sources_of.
    db_after.
    by apply view_insert.
  - match goal with H : ok_or _ _ = _ |- _ => rewrite ok_or_Ok, try_from_Some in H; destruct H as [-> _] end.
    done.
Qed.

Lemma read_newest_Ok {K A} `{Countable K} `{!Json A} (table : Table K) `{!TableLaws table}
    (sequence : A → Z) w l w' :
  read_newest table sequence w = (Ok l, w') →
  w_db w' = w_db w ∧ StronglySorted (newest_le sequence) l ∧
  l ≡ₚ (map_to_list (view (A := A) (t_get table (w_db w)))).*2.
Proof.
  unfold read_newest, with_read. intros Hrun. inv_db.
  match goal with H : table_rows _ _ _ = (Ok ?xs, _) |- _ =>
    rename xs into rows; apply table_rows_Ok in H as (Hf & Hd & _) end.
  inv_db. split; [done|]. split; [apply StronglySorted_merge_sort; apply _|].
  unfold sort_newest. rewrite merge_sort_Permutation. unfold view.
  assert (∀ (l : list (K * bytes)) (xs : list A),
    Forall2 (λ kv x, decode_json kv.2 = Ok x) l xs → xs = omap (λ kv, decoded kv.2) l) as Hom.
  { clear. induction 1 as [|[k b] x l xs Hd _ IH]; [done|]. simpl in *.
    apply decode_json_Ok in Hd. by rewrite Hd, IH. }
  rewrite (Hom _ _ Hf). clear Hom Hf.
  rewrite redb_iter_all, omap_values. done.
Qed.

(** Reading the shelf or the sources changes nothing and returns exactly the stored
    records, newest first. *)
Theorem reads_newest_first w w' cards sources :
  (read_offer_shelf w = (Ok cards, w') →
     w_db w' = w_db w ∧ StronglySorted (newest_le card_received_sequence) cards ∧
     cards ≡ₚ (map_to_list (cards_of (w_db w))).*2) ∧
  (read_offer_sources w = (Ok sources, w') →
     w_db w' = w_db w ∧ StronglySorted (newest_le src_creation_sequence) sources ∧
     sources ≡ₚ (map_to_list (sources_of (w_db w))).*2).
Proof. split; apply read_newest_Ok; apply _. Qed.

(** *** The operations as transitions *)

Inductive StoreOp :=
| Op_insert_offer_source (input : OfferSourceInput)
| Op_get_offer_source (offer_id : OfferId)
| Op_remove_explicit_refusal (offer_id : OfferId) (recipient : DeviceId)
| Op_read_offer_sources
| Op_insert_offer_card (input : OfferCardInput)
| Op_get_offer_card (source_device : DeviceId) (offer_id : OfferId)
| Op_read_offer_shelf
| Op_record_offer_attempt (source_device : DeviceId) (offer_id : OfferId)
    (status : OfferAttemptStatus)
| Op_journal_activation (entry : ActivationJournalEntry)
| Op_get_activation_journal (activation_id : ActivationId)
| Op_prepare_staging (entry : ActivationJournalEntry)
| Op_update_activation_state (activation_id : ActivationId) (state : ActivationState)
| Op_remove_activation_journal (activation_id : ActivationId)
| Op_startup_cleanup
| Op_has_uncertain_side_effect
| Op_set_clipboard_cache (record : ClipboardCacheRecord)
| Op_get_clipboard_cache (state : ClipboardCacheState)
| Op_clear_clipboard_cache (state : ClipboardCacheState)
| Op_promote_clipboard_cache (candidate : ClipboardCacheRecord)
| Op_migrate_legacy_state (incoming_directory : PathBuf).

Definition st_void {T} (m : M T) : M () := m;; mret ().

Definition run_op (op : StoreOp) : M () :=
  match op with
  | Op_insert_offer_source input => st_void (insert_offer_source input)
  | Op_get_offer_source id => st_void (get_offer_source id)
  | Op_remove_explicit_refusal id recipient => st_void (remove_explicit_refusal id recipient)
  | Op_read_offer_sources => st_void read_offer_sources
  | Op_insert_offer_card input => st_void (insert_offer_card input)
  | Op_get_offer_card source id => st_void (get_offer_card source id)
  | Op_read_offer_shelf => st_void read_offer_shelf
  | Op_record_offer_attempt source id status => record_offer_attempt source id status
  | Op_journal_activation entry => journal_activation entry
  | Op_get_activation_journal id => st_void (get_activation_journal id)
  | Op_prepare_staging entry => prepare_staging entry
  | Op_update_activation_state id state => update_activation_state id state
  | Op_remove_activation_journal id => remove_activation_journal id
  | Op_startup_cleanup => st_void startup_cleanup
  | Op_has_uncertain_side_effect => st_void has_uncertain_side_effect
  | Op_set_clipboard_cache record => set_clipboard_cache record
  | Op_get_clipboard_cache state => st_void (get_clipboard_cache state)
  | Op_clear_clipboard_cache state => clear_clipboard_cache state
  | Op_promote_clipboard_cache candidate => st_void (promote_clipboard_cache candidate)
  | Op_migrate_legacy_state dir => st_void (migrate_legacy_state dir)
  end.

(** One operation, with any outcome and any failures of the calls it makes; the calls that
    precede the next operation may fail differently. *)
Inductive store_step : World FS → World FS → Prop :=
| store_step_op w op r w' faults :
    run_op op w = (r, w') →
    store_step w (mkWorld (w_db w') faults (w_fs w')).

(** *** Preservation *)

(** The relation "if the invariant held, it holds" on worlds. *)
Definition inv_step : relation (World FS) := inv_kept (λ w, store_inv (w_db w)).

Lemma set_sources_inv db t :
  store_inv db → sequenced_ok source_row_key src_creation_sequence t →
  store_inv (t_set OFFER_SOURCES_V2 t db).
Proof. intros [] ?. by split. Qed.
Lemma set_cards_inv db t :
  store_inv db → sequenced_ok card_row_key card_received_sequence t →
  store_inv (t_set OFFER_CARDS_V2 t db).
Proof. intros [] ?. by split. Qed.
Lemma set_journal_inv db t :
  store_inv db → keyed_ok journal_row_key t → store_inv (t_set ACTIVATION_JOURNAL_V2 t db).
Proof. intros [] ?. by split. Qed.
Lemma set_cache_inv db t :
  store_inv db → keyed_ok cache_row_key t → store_inv (t_set CLIPBOARD_CACHE_V2 t db).
Proof. intros [] ?. by split. Qed.
Lemma set_ledger_inv db t : store_inv db → store_inv (t_set RECEIVE_LEDGER t db).
Proof. intros []. by split. Qed.

Lemma keeps_write_inv (I : Db → Prop) {T} (body : M T) :
  (∀ w x w', body w = (Ok x, w') → I (w_db w) → I (w_db w')) →
  keeps (inv_kept (λ w, I (w_db w))) (with_write body).
Proof.
  intros Hbody w Hw. destruct (with_write body w) as [[x|e] w'] eqn:Hrun; simpl.
  - apply with_write_Ok in Hrun as (w1 & w2 & Hw1 & _ & Hb & -> & _).
    rewrite <- Hw1 in Hw. by eapply Hbody.
  - apply with_write_Err in Hrun as ->. done.
Qed.
Lemma keeps_write {T} (body : M T) :
  (∀ w x w', body w = (Ok x, w') → store_inv (w_db w) → store_inv (w_db w')) →
  keeps inv_step (with_write body).
Proof. apply keeps_write_inv. Qed.

(** Calls that do not touch the database keep every invariant of it. *)
Definition db_same : relation (World FS) := same_on w_db.
Lemma keeps_db_any (I : Db → Prop) {T} (m : M T) :
  keeps db_same m → keeps (inv_kept (λ w, I (w_db w))) m.
Proof. intros Hm w Hw. unfold db_same, same_on in Hm. by rewrite Hm. Qed.
Lemma keeps_db_inv {T} (m : M T) : keeps db_same m → keeps inv_step m.
Proof. apply keeps_db_any. Qed.

Lemma keeps_call : keeps db_same (redb_call : M ()).
Proof. intros w. destruct (redb_call w) eqn:Hc. by apply redb_call_db in Hc as [? _]. Qed.
Lemma keeps_fs_call {T} prefix (op : St FS IoError T) : keeps db_same (fs_call prefix op).
Proof. intros w. unfold fs_call, db_same, same_on. by destruct (op (w_fs w)) as [[] ?]. Qed.
Lemma keeps_try_fs {T} (op : St FS IoError T) : keeps db_same (try_fs op).
Proof. intros w. unfold try_fs, db_same, same_on. by destruct (op (w_fs w)). Qed.
Lemma keeps_fs_store_call {T} (op : St FS StoreError T) : keeps db_same (fs_store_call op).
Proof. intros w. unfold fs_store_call, db_same, same_on. by destruct (op (w_fs w)). Qed.
Lemma keeps_table_get {K} `{Countable K} (table : Table K) key :
  keeps db_same (table_get table key : M _).
Proof. unfold table_get. apply keeps_bind; [apply _|apply keeps_call|]. intros. by keeps_tac. Qed.
Lemma keeps_table_rows {K} `{Countable K} (table : Table K) {A}
    (row : K → bytes → result StoreError A) : keeps db_same (table_rows table row : M _).
Proof.
  unfold table_rows. apply keeps_bind; [apply _|apply keeps_call|]. intros _.
  apply keeps_bind; [apply _|keeps_tac|]. intros w. generalize (redb_iter (t_get table (w_db w))).
  intros l. induction l as [|[k v] l IH]; simpl; [keeps_tac|].
  apply keeps_bind; [apply _|apply keeps_call|]. keeps_tac.
Qed.

Lemma keeps_read {T} (body : M T) : keeps db_same body → keeps db_same (with_read body).
Proof. intros Hb. unfold with_read. apply keeps_bind; [apply _|apply keeps_call|done]. Qed.
Lemma keeps_open_table : keeps db_same (open_table : M ()).
Proof. apply keeps_call. Qed.

Hint Resolve keeps_call keeps_fs_call keeps_try_fs keeps_fs_store_call keeps_table_get
  keeps_table_rows keeps_open_table keeps_read : keeps.

Lemma keeps_get_opt {A K} `{!Json A} `{Countable K} (table : Table K) key :
  keeps db_same (with_read (open_table;; bytes ← table_get table key;
                            st_lift (decode_opt (A := A) bytes)) : M _).
Proof. apply keeps_read. keeps_tac. Qed.
Lemma keeps_read_newest {A K} `{!Json A} `{Countable K} (table : Table K) (sequence : A → Z) :
  keeps db_same (read_newest table sequence : M _).
Proof. apply keeps_read. keeps_tac. Qed.
Lemma keeps_journal_entries : keeps db_same (activation_journal_entries : M _).
Proof. apply keeps_read. keeps_tac. Qed.
Lemma keeps_get_clipboard_cache state : keeps db_same (get_clipboard_cache state : M _).
Proof. apply keeps_get_opt. Qed.
Hint Resolve keeps_get_opt keeps_read_newest keeps_journal_entries keeps_get_clipboard_cache
  : keeps.

Lemma keeps_sweep entries s : keeps db_same (sweep entries s : M _).
Proof.
  revert s. induction entries as [|e entries IH]; intros s; cbn [sweep]; [keeps_tac|].
  apply keeps_bind; [apply _| |done]. unfold sweep_entry. keeps_tac.
Qed.

Lemma keeps_void {T} (R : relation (World FS)) `{!PreOrder R} (m : M T) :
  keeps R m → keeps R (st_void m).
Proof. intros Hm. unfold st_void. by apply keeps_bind; [|done|intros; apply keeps_ret]. Qed.

(** *** Every operation preserves the invariant *)

Lemma insert_offer_source_keeps input : keeps inv_step (insert_offer_source input : M _).
Proof.
  unfold insert_offer_source. apply keeps_bind; [apply _|keeps_tac|intros _].
  apply keeps_write. intros w out w' Hrun Hinv. inv_db.
  match goal with H : decode_opt _ = Ok ?e |- _ => destruct e as [r|] end.
  - destruct (negb _); by inv_db.
  - inv_db. inv_append. inv_db. rewrite Hd. apply set_sources_inv; [done|].
    eapply appended_ok; [by apply inv_sources|done| | |exact Happ]; done.
Qed.

Lemma insert_offer_card_keeps input : keeps inv_step (insert_offer_card input : M _).
Proof.
  unfold insert_offer_card. apply keeps_bind; [apply _|keeps_tac|intros _].
  apply keeps_write. intros w out w' Hrun Hinv. inv_db.
  match goal with H : decode_opt _ = Ok ?e |- _ => destruct e as [r|] end.
  - destruct (negb _); by inv_db.
  - inv_db. inv_append. inv_db. rewrite Hd. apply set_cards_inv; [done|].
    eapply appended_ok; [by apply inv_cards|done| | |exact Happ]; done.
Qed.

Lemma remove_explicit_refusal_keeps offer_id recipient :
  keeps inv_step (remove_explicit_refusal offer_id recipient : M _).
Proof.
  apply keeps_write. intros w out w' Hrun Hinv. inv_db.
  destruct (t_get OFFER_SOURCES_V2 (w_db w) !! source_key offer_id) as [b|] eqn:Hb; subst; inv_db.
  match goal with H : decode_json _ = Ok ?x |- _ => rename x into r; apply decode_json_Ok in H as Hr end.
  cbv zeta in *. case_bool_decide; cbn [negb] in *; [case_bool_decide|]; inv_db; [| |done].
  - db_after. apply set_sources_inv; [done|]. apply delete_row_ok. by apply inv_sources.
  - match goal with H : encode_json _ = _ |- _ => apply encode_json_decoded in H as Henc end.
    db_after.
    apply set_sources_inv; [done|].
    eapply rewrite_row_ok; [by apply inv_sources|exact Hb|exact Hr|exact Henc|done|done].
Qed.

Lemma record_offer_attempt_keeps source_device offer_id status :
  keeps inv_step (record_offer_attempt source_device offer_id status : M _).
Proof.
  apply keeps_bind; [apply _|keeps_tac|intros _].
  apply keeps_write. intros w out w' Hrun Hinv. inv_db.
  destruct (t_get OFFER_CARDS_V2 (w_db w) !! card_key source_device offer_id) as [b|] eqn:Hb;
    subst; inv_db.
  match goal with H : decode_json _ = Ok ?x |- _ => rename x into r; apply decode_json_Ok in H as Hr end.
  match goal with H : encode_json _ = _ |- _ => apply encode_json_decoded in H as Henc end.
  db_after.
  apply set_cards_inv; [done|].
  eapply rewrite_row_ok; [by apply inv_cards|exact Hb|exact Hr|exact Henc|done|done].
Qed.

Lemma journal_activation_keeps entry : keeps inv_step (journal_activation entry : M _).
Proof.
  apply keeps_bind; [apply _|keeps_tac|intros _].
  apply keeps_lift_bind; [apply _|intros b He].
  apply keeps_write. intros w out w' Hrun Hinv. inv_db.
  apply encode_json_decoded in He.
  db_after.
  apply set_journal_inv; [done|].
  apply (keyed_insert journal_row_key); [by apply inv_journal | done].
Qed.

Lemma update_activation_state_keeps id state :
  keeps inv_step (update_activation_state id state : M _).
Proof.
  apply keeps_write. intros w out w' Hrun Hinv. inv_db.
  destruct (t_get ACTIVATION_JOURNAL_V2 (w_db w) !! journal_key id) as [b|] eqn:Hb;
    subst; inv_db.
  match goal with H : decode_json _ = Ok ?x |- _ => rename x into r; apply decode_json_Ok in H as Hr end.
  match goal with H : encode_json _ = _ |- _ => apply encode_json_decoded in H as Henc end.
  db_after.
  apply set_journal_inv; [done|]. pose proof (inv_journal _ Hinv) as Hj.
  assert (journal_row_key r = journal_key id) as Hk.
  { apply (ko_keyed _ _ Hj). apply lookup_view. eauto. }
  rewrite <- Hk. change (journal_row_key r) with (journal_row_key (set_state state r)).
  by apply (keyed_insert journal_row_key).
Qed.

Lemma remove_activation_journal_keeps id :
  keeps inv_step (remove_activation_journal id : M _).
Proof.
  apply keeps_write. intros w out w' Hrun Hinv. inv_db.
  db_after.
  apply set_journal_inv; [done|]. apply keyed_delete. by apply inv_journal.
Qed.

Lemma startup_cleanup_keeps : keeps inv_step (startup_cleanup : M _).
Proof.
  unfold startup_cleanup.
  apply keeps_bind; [apply _|apply keeps_db_inv; keeps_tac|intros entries].
  apply keeps_bind; [apply _|keeps_tac|intros journaled].
  apply keeps_bind; [apply _|apply keeps_db_inv, keeps_sweep|intros s].
  apply keeps_bind; [apply _| |intros _].
  - case_bool_decide; [keeps_tac|]. apply keeps_write. intros w out w' Hrun Hinv. inv_db.
    match goal with H : st_for _ _ _ = _ |- _ =>
      apply (table_remove_all_Ok ACTIVATION_JOURNAL_V2 journal_key) in H as [Hd _] end.
    rewrite Hd. inv_db. apply set_journal_inv; [done|]. apply keyed_foldr_delete.
    by apply inv_journal.
  - apply keeps_bind; [apply _| |keeps_tac].
    apply keeps_for; [apply _|]. intros. apply update_activation_state_keeps.
Qed.

Lemma set_clipboard_cache_keeps record : keeps inv_step (set_clipboard_cache record : M _).
Proof.
  apply keeps_bind; [apply _|keeps_tac|intros _].
  apply keeps_lift_bind; [apply _|intros b He].
  apply keeps_write. intros w out w' Hrun Hinv. inv_db.
  apply encode_json_decoded in He.
  db_after.
  apply set_cache_inv; [done|].
  apply (keyed_insert cache_row_key); [by apply inv_cache | done].
Qed.

Lemma clear_clipboard_cache_keeps state : keeps inv_step (clear_clipboard_cache state : M _).
Proof.
  apply keeps_write. intros w out w' Hrun Hinv. inv_db.
  db_after.
  apply set_cache_inv; [done|]. apply keyed_delete. by apply inv_cache.
Qed.

Lemma promote_clipboard_cache_keeps candidate :
  keeps inv_step (promote_clipboard_cache candidate : M _).
Proof.
  apply keeps_bind; [apply _|keeps_tac|intros _].
  apply keeps_bind; [apply _|keeps_tac|intros _].
  apply keeps_lift_bind; [apply _|intros b He].
  apply keeps_write. intros w out w' Hrun Hinv. inv_db.
  apply encode_json_decoded in He.
  do 2 db_after.
  apply set_cache_inv; [apply set_cache_inv; [done|]|].
  - change CACHE_COMPLETED with (cache_row_key
      (mkClipboardCacheRecord (cc_activation_id candidate) Cache_Completed
         (cc_payload_path candidate))).
    apply (keyed_insert cache_row_key); [by apply inv_cache | done].
  - apply keyed_delete. rewrite t_get_set.
    change CACHE_COMPLETED with (cache_row_key
      (mkClipboardCacheRecord (cc_activation_id candidate) Cache_Completed
         (cc_payload_path candidate))).
    apply (keyed_insert cache_row_key); [by apply inv_cache | done].
Qed.

Lemma migrate_legacy_state_keeps dir : keeps inv_step (migrate_legacy_state dir : M _).
Proof.
  unfold migrate_legacy_state.
  apply keeps_bind; [apply _| |intros; apply keeps_db_inv; keeps_tac].
  apply keeps_write. intros w out w' Hrun Hinv. inv_db.
  match goal with H : table_rows _ _ _ = _ |- _ => apply table_rows_Ok in H as (_ & ? & _) end.
  match goal with H : st_for _ _ _ = _ |- _ =>
    apply (table_remove_all_Ok RECEIVE_LEDGER (λ k, k)) in H as [Hd _] end.
  rewrite Hd. inv_db. by apply set_ledger_inv.
Qed.

Lemma prepare_staging_keeps entry : keeps inv_step (prepare_staging entry : M _).
Proof.
  unfold prepare_staging. apply keeps_bind; [apply _|keeps_tac|intros parent].
  apply keeps_bind; [apply _|apply keeps_db_inv; keeps_tac|intros _].
  apply keeps_bind; [apply _|apply journal_activation_keeps|intros _].
  apply keeps_db_inv. keeps_tac.
Qed.

Lemma has_uncertain_same : keeps db_same (has_uncertain_side_effect : M _).
Proof. unfold has_uncertain_side_effect. keeps_tac. Qed.

Lemma run_op_keeps op : keeps inv_step (run_op op).
Proof.
  destruct op; cbn [run_op]; try apply keeps_void; try apply _;
    eauto using insert_offer_source_keeps, insert_offer_card_keeps,
      remove_explicit_refusal_keeps, record_offer_attempt_keeps, journal_activation_keeps,
      prepare_staging_keeps, update_activation_state_keeps,
      remove_activation_journal_keeps, startup_cleanup_keeps, set_clipboard_cache_keeps,
      clear_clipboard_cache_keeps, promote_clipboard_cache_keeps,
      migrate_legacy_state_keeps, keeps_db_inv, has_uncertain_same with keeps;
    apply keeps_db_inv; first [apply keeps_get_opt | apply keeps_read_newest].
Qed.

Lemma store_inv_empty : store_inv db_empty.
Proof.
  split; split; try (intros ?? Hl; by rewrite ?lookup_empty in Hl);
    try (unfold view; rewrite omap_empty; intros * Hl; by rewrite lookup_empty in Hl).
  all: done.
Qed.

(** C11: every database reachable from an empty store, by any sequence of store operations
    with any outcomes and any redb, encoding or filesystem failures in between, is well
    formed: every row decodes and is filed under its own key, the source and card
    sequences are distinct and within 64 bits, and neither table exceeds ten rows. *)
Theorem reachable_store_inv faults fs w :
  rtc store_step (mkWorld db_empty faults fs) w → store_inv (w_db w).
Proof.
  assert (store_inv (w_db (mkWorld db_empty faults fs))) as H0' by apply store_inv_empty.
  revert H0'. generalize (mkWorld db_empty faults fs) as w0. intros w0 Hw0 Hsteps.
  induction Hsteps as [|w0 w1 w2 Hstep _ IH]; [done|]. apply IH.
  destruct Hstep as [w0 op r w1 faults' Hrun]. simpl.
  pose proof (run_op_keeps op w0 Hw0) as Hk. by rewrite Hrun in Hk.
Qed.

(** *** Atomicity *)

Definition err_same {T} (m : M T) : Prop :=
  ∀ w e w', m w = (Err e, w') → w_db w' = w_db w.

Lemma err_same_db {T} (m : M T) : keeps db_same m → err_same m.
Proof. intros Hm w e w' Hrun. specialize (Hm w). by rewrite Hrun in Hm. Qed.
Lemma err_same_write {T} (body : M T) : err_same (with_write body).
Proof. intros w e w'. apply with_write_Err. Qed.
Lemma err_same_bind {T U} (m : M T) (f : T → M U) :
  keeps db_same m → (∀ x, err_same (f x)) → err_same (m ≫= f).
Proof.
  intros Hm Hf w e w' [Hrun|(x & w1 & Hrun & Hrun')]%st_bind_Err;
    specialize (Hm w); rewrite Hrun in Hm; [done|].
  apply Hf in Hrun'. unfold db_same, same_on in Hm. simpl in Hm. congruence.
Qed.

(** *** Startup cleanup *)

(** The uncertain rows of [j0] are still in [j], at most marked [UncertainNoReplay]. *)
Definition uncertain_kept (j0 j : gmap rstr ActivationJournalEntry) : Prop :=
  ∀ k e, j0 !! k = Some e → is_uncertain_side_effect (je_state e) = true →
    j !! k = Some e ∨ j !! k = Some (set_state State_UncertainNoReplay e).

Definition not_uncertain (e : ActivationJournalEntry) : bool :=
  negb (is_uncertain_side_effect (je_state e)).
Definition to_record (e : ActivationJournalEntry) : bool :=
  is_uncertain_side_effect (je_state e)
  && negb (bool_decide (je_state e = State_UncertainNoReplay)).
Definition ids_with (p : ActivationJournalEntry → bool) (entries : list ActivationJournalEntry)
    : list ActivationId :=
  je_activation_id <$> filter (λ e, p e = true) entries.

Lemma ids_with_cons p e es : ids_with p (e :: es) = ids_with p [e] ++ ids_with p es.
Proof. unfold ids_with. rewrite !filter_cons, filter_nil. by destruct (decide _). Qed.
Lemma elem_of_ids_with p es id :
  id ∈ ids_with p es ↔ ∃ e, e ∈ es ∧ p e = true ∧ je_activation_id e = id.
Proof.
  unfold ids_with. rewrite list_elem_of_fmap. setoid_rewrite list_elem_of_filter. naive_solver.
Qed.

Lemma sweep_entry_spec e s w r w' :
  sweep_entry e s w = (r, w') →
  w_db w' = w_db w ∧ ∃ s', r = Ok s' ∧
    record_uncertain s' = record_uncertain s ++ ids_with to_record [e] ∧
    removed s' ++ failures s' ≡ₚ removed s ++ failures s ++ ids_with not_uncertain [e].
Proof.
  unfold sweep_entry, mbind, st_bind, try_fs.
  destruct (staging_remove_tree (je_staging_root e) (w_fs w)) as [out fs].
  unfold ids_with. rewrite !filter_cons, !filter_nil.
  unfold to_record, not_uncertain.
  destruct (is_uncertain_side_effect (je_state e)) eqn:Hunc; simpl.
  - destruct (bool_decide (je_state e = State_UncertainNoReplay)); simpl;
      destruct out; intros [= <- <-]; (split; [done|]); eexists; (split; [done|]); simpl;
      by rewrite !app_nil_r.
  - destruct out as [|error]; [|destruct (bool_decide (io_kind error = NotFound))];
      intros [= <- <-]; (split; [done|]); eexists; (split; [done|]); simpl;
      rewrite app_nil_r; (split; [done|]); rewrite <- ?(assoc_L (++)); [| |done];
      apply Permutation_app_head, Permutation_app_comm.
Qed.

(** The sweep never fails and classifies every entry. *)
Lemma sweep_spec entries s w r w' :
  sweep entries s w = (r, w') →
  w_db w' = w_db w ∧ ∃ s', r = Ok s' ∧
    record_uncertain s' = record_uncertain s ++ ids_with to_record entries ∧
    removed s' ++ failures s' ≡ₚ removed s ++ failures s ++ ids_with not_uncertain entries.
Proof.
  revert s w. induction entries as [|e entries IH]; intros s w; cbn [sweep].
  { intros [= <- <-]. split; [done|]. exists s. unfold ids_with. simpl. by rewrite !app_nil_r. }
  unfold mbind, st_bind. destruct (sweep_entry e s w) as [r1 w1] eqn:He.
  apply sweep_entry_spec in He as (Hd1 & s1 & -> & Hrec1 & Hrem1).
  intros (Hd & s' & -> & Hrec & Hrem)%IH. split; [congruence|]. exists s'. split; [done|].
  rewrite (ids_with_cons to_record e entries), (ids_with_cons not_uncertain e entries).
  rewrite Hrec, Hrec1, Hrem, (assoc_L (++) (removed s1)), Hrem1.
  by rewrite <- !(assoc_L (++)).
Qed.

(** What the two transactions of the cleanup do to the journal. *)
Lemma update_activation_state_Ok id state w u w' :
  update_activation_state id state w = (Ok u, w') →
  ∃ e, journal_of (w_db w) !! journal_key id = Some e ∧
    journal_of (w_db w') = <[journal_key id := set_state state e]> (journal_of (w_db w)).
Proof.
  unfold update_activation_state. intros Hrun. inv_db.
  destruct (t_get ACTIVATION_JOURNAL_V2 (w_db w) !! journal_key id) as [b|] eqn:Hb;
    subst; inv_db.
  match goal with H : decode_json _ = Ok ?x |- _ => rename x into r; apply decode_json_Ok in H as Hr end.
  match goal with H : encode_json _ = _ |- _ => apply encode_json_decoded in H as Henc end.
  exists r. split; [apply lookup_view; eauto|]. unfold journal_of. db_after. by apply view_insert.
Qed.

Lemma uncertain_kept_insert j0 j k e :
  uncertain_kept j0 j → j !! k = Some e →
  uncertain_kept j0 (<[k := set_state State_UncertainNoReplay e]> j).
Proof.
  intros Hk He k' e0 He0 Hunc. destruct (decide (k = k')) as [<-|Hne].
  - rewrite lookup_insert_eq. destruct (Hk _ _ He0 Hunc) as [?|?]; simplify_eq; by right.
  - rewrite lookup_insert_ne by done. by apply Hk.
Qed.

(** The keys the cleanup removes belong to rows that are not uncertain. *)
Lemma uncertain_kept_delete j0 j k e :
  uncertain_kept j0 j → j0 !! k = Some e → is_uncertain_side_effect (je_state e) = false →
  uncertain_kept j0 (delete k j).
Proof.
  intros Hk He Hf k' e0 He0 Hunc. destruct (decide (k = k')) as [<-|Hne]; [congruence|].
  rewrite lookup_delete_ne by done. by apply Hk.
Qed.

Lemma journal_entries_Ok w entries w' :
  activation_journal_entries w = (Ok entries, w') →
  w_db w' = w_db w ∧ zlen entries = Z.of_nat (size (journal_of (w_db w))) ∧
  ∀ e, e ∈ entries ↔ ∃ k, journal_of (w_db w) !! k = Some e.
Proof.
  unfold activation_journal_entries, with_read. intros Hrun. inv_db.
  match goal with H : table_rows _ _ _ = _ |- _ => apply table_rows_Ok in H as (Hf & Hd & _) end.
  inv_db. split; [done|].
  assert (Forall2 (λ kv e, (record ← decode_json kv.2; mret record) = Ok e)
            (redb_iter (db_journal (w_db w))) entries) as Hf'.
  { eapply Forall2_impl; [exact Hf|]. intros [k b] e He. simpl in *. by rewrite He. }
  apply (rows_Forall2_decodes _ (λ _ r, r)) in Hf' as (Hdec & Hin & Hlen).
  split; [unfold zlen, journal_of; by rewrite Hlen, decodes_size|].
  intros e. rewrite Hin. naive_solver.
Qed.

(** What holds of the database throughout the cleanup that started from [db0]. *)
Definition cleanup_inv (db0 db : Db) : Prop :=
  uncertain_kept (journal_of db0) (journal_of db) ∧
  db = t_set ACTIVATION_JOURNAL_V2 (db_journal db) db0.

Lemma cleanup_inv_refl db : cleanup_inv db db.
Proof. split; [by left | by destruct db]. Qed.

Lemma cleanup_inv_set db0 db t :
  cleanup_inv db0 db → uncertain_kept (journal_of db0) (view t) →
  cleanup_inv db0 (t_set ACTIVATION_JOURNAL_V2 t db).
Proof. intros [_ ->] Hk. split; done. Qed.

(** Ids the cleanup may remove: their rows are not uncertain. *)
Definition removable (db0 : Db) (ids : list ActivationId) : Prop :=
  ∀ id, id ∈ ids → ∃ e, journal_of db0 !! journal_key id = Some e ∧
                        is_uncertain_side_effect (je_state e) = false.

Lemma cleanup_delete_all db0 j ids :
  removable db0 ids → uncertain_kept (journal_of db0) (view j) →
  uncertain_kept (journal_of db0) (view (foldr delete j (journal_key <$> ids))).
Proof.
  intros Hids Hk. induction ids as [|id ids IH]; [done|].
  destruct (Hids id ltac:(set_solver)) as (e & He & Hf). rewrite fmap_cons. cbn [foldr].
  rewrite view_delete. eapply uncertain_kept_delete; [apply IH|done|done].
  intros id' ?. apply Hids. set_solver.
Qed.

Lemma removal_keeps_cleanup db0 ids :
  removable db0 ids →
  keeps (inv_kept (λ w, cleanup_inv db0 (w_db w)))
    (with_write (open_table;;
       st_for ids (λ id, table_remove ACTIVATION_JOURNAL_V2 (journal_key id))) : M _).
Proof.
  intros Hids. apply keeps_write_inv. intros w u w' Hrun Hinv. inv_db.
  match goal with H : st_for _ _ _ = _ |- _ =>
    apply (table_remove_all_Ok ACTIVATION_JOURNAL_V2 journal_key) in H as [Hd _] end.
  rewrite Hd. inv_db. apply cleanup_inv_set; [done|].
  apply cleanup_delete_all; [done|]. apply Hinv.
Qed.

Lemma update_keeps_cleanup db0 id :
  keeps (inv_kept (λ w, cleanup_inv db0 (w_db w)))
    (update_activation_state id State_UncertainNoReplay : M _).
Proof.
  apply keeps_write_inv. intros w u w' Hrun Hinv. inv_db.
  destruct (t_get ACTIVATION_JOURNAL_V2 (w_db w) !! journal_key id) as [b|] eqn:Hb;
    subst; inv_db.
  match goal with H : decode_json _ = Ok ?x |- _ => rename x into r; apply decode_json_Ok in H as Hr end.
  match goal with H : encode_json _ = _ |- _ => apply encode_json_decoded in H as Henc end.
  db_after. apply cleanup_inv_set; [done|]. rewrite (view_insert _ _ _ _ Henc).
  apply uncertain_kept_insert; [apply Hinv|]. apply lookup_view. eauto.
Qed.

Lemma startup_cleanup_inv w r w' :
  store_inv (w_db w) → startup_cleanup w = (r, w') → cleanup_inv (w_db w) (w_db w').
Proof.
  intros Hinv Hrun.
  assert (stays (inv_kept (λ w0, cleanup_inv (w_db w) (w_db w0))) startup_cleanup w) as Hs.
  2: { unfold stays in Hs. rewrite Hrun in Hs. apply Hs, cleanup_inv_refl. }
  unfold startup_cleanup. apply stays_bind; [apply _| |].
  { apply stays_keeps, keeps_db_any, keeps_journal_entries. }
  intros entries w1 (Hd1 & _ & Hin)%journal_entries_Ok.
  apply stays_bind; [apply _|apply stays_keeps; keeps_tac|intros journaled w2 _].
  apply stays_bind; [apply _|apply stays_keeps, keeps_db_any, keeps_sweep|].
  intros s w3 Hsweep. apply sweep_spec in Hsweep as (_ & s' & [= <-] & _ & Hrem).
  assert (removable (w_db w) (removed s)) as Hids.
  { intros id Hid. assert (id ∈ ids_with not_uncertain entries) as He.
    { simpl in Hrem. rewrite <- Hrem. set_solver. }
    apply elem_of_ids_with in He as (e & He & Hf & <-). apply Hin in He as [k He].
    exists e. apply negb_true_iff in Hf. split; [|done].
    by pose proof (ko_keyed _ _ (inv_journal _ Hinv) _ _ He) as <-. }
  apply stays_keeps, keeps_bind; [apply _| |intros _].
  { case_bool_decide; [keeps_tac | by apply removal_keeps_cleanup]. }
  apply keeps_bind; [apply _| |keeps_tac].
  apply keeps_for; [apply _|]. intros id. apply update_keeps_cleanup.
Qed.

(** no startup cleanup, whatever its outcome and whatever fails while it runs, loses
    the record of an uncertain clipboard effect: the row is still there, unchanged or
    marked [UncertainNoReplay].  Only the journal is written. *)
Theorem startup_cleanup_keeps_uncertain w r w' :
  store_inv (w_db w) → startup_cleanup w = (r, w') →
  uncertain_kept (journal_of (w_db w)) (journal_of (w_db w')) ∧
  w_db w' = t_set ACTIVATION_JOURNAL_V2 (db_journal (w_db w')) (w_db w).
Proof. apply startup_cleanup_inv. Qed.

Lemma record_all_Ok ids w u w' :
  st_for ids (λ id, update_activation_state id State_UncertainNoReplay) w = (Ok u, w') →
  ∀ k e', journal_of (w_db w') !! k = Some e' →
    (je_state e' = State_UncertainNoReplay ∨
     (journal_of (w_db w) !! k = Some e' ∧ ∀ id, id ∈ ids → journal_key id ≠ k)) ∧
    is_Some (journal_of (w_db w) !! k).
Proof.
  revert w. induction ids as [|id ids IH]; intros w; cbn [st_for]; intros Hrun; inv_st.
  { intros k e' He'. split; [|by eexists]. right. split; [done|]. set_solver. }
  match goal with H : update_activation_state _ _ _ = _ |- _ =>
    apply update_activation_state_Ok in H as (e & He & Hj) end.
  intros k e' He'.
  match goal with H : st_for _ _ _ = _ |- _ => destruct (IH _ H _ _ He') as [Hor Hsome] end.
  rewrite Hj in Hor, Hsome. destruct (decide (journal_key id = k)) as [<-|Hne].
  - rewrite lookup_insert_eq in Hor. split; [|by eexists].
    destruct Hor as [|[[= <-] _]]; by left.
  - rewrite lookup_insert_ne in Hor, Hsome by done. split; [|done].
    destruct Hor as [|[Hw Hids]]; [by left|]. right. split; [done|].
    intros id' [->|?]%elem_of_cons; [done | by apply Hids].
Qed.

Lemma removal_Ok ids w u w' :
  (if bool_decide (ids = []) then mret () else with_write (open_table;;
     st_for ids (λ id, table_remove ACTIVATION_JOURNAL_V2 (journal_key id))) : M _) w
  = (Ok u, w') →
  journal_of (w_db w') = foldr delete (journal_of (w_db w)) (journal_key <$> ids).
Proof.
  case_bool_decide as Hids; intros Hrun; [subst ids; by inv_db|]. inv_db.
  match goal with H : st_for _ _ _ = _ |- _ =>
    apply (table_remove_all_Ok ACTIVATION_JOURNAL_V2 journal_key) in H as [Hd _] end.
  inv_db. unfold journal_of. rewrite Hd. simpl. clear.
  induction (journal_key <$> ids) as [|k ks IH]; [done|]. cbn [foldr].
  by rewrite view_delete, IH.
Qed.

Lemma startup_cleanup_Ok w report w' :
  store_inv (w_db w) → startup_cleanup w = (Ok report, w') →
  (∀ k, is_Some (journal_of (w_db w') !! k) ↔
     ∃ e, journal_of (w_db w) !! k = Some e ∧ is_uncertain_side_effect (je_state e) = true) ∧
  (∀ k e, journal_of (w_db w') !! k = Some e → je_state e = State_UncertainNoReplay) ∧
  journaled_entries report = Z.of_nat (size (journal_of (w_db w))).
Proof.
  intros Hinv Hrun. destruct (startup_cleanup_inv _ _ _ Hinv Hrun) as [Hkept _].
  unfold startup_cleanup in Hrun. inv_st.
  match goal with H : activation_journal_entries _ = (Ok ?es, _) |- _ =>
    rename es into entries; apply journal_entries_Ok in H as (Hd1 & Hlen & Hin) end.
  match goal with H : sweep _ _ _ = _ |- _ =>
    apply sweep_spec in H as (Hd2 & s & [= ->] & Hrec & Hrem) end.
  match goal with H : (if _ then _ else _) _ = _ |- _ => apply removal_Ok in H as Hj1 end.
  match goal with H : st_for (record_uncertain _) _ _ = _ |- _ =>
    pose proof (record_all_Ok _ _ _ _ H) as Hfinal end.
  repeat match goal with H : refuse_if _ _ = _ |- _ => apply refuse_if_Ok in H
                    | H : ok_or _ _ = Ok _ |- _ => rewrite ok_or_Ok, try_from_Some in H end.
  bool_facts. simpl in *.
  match goal with H : failures _ = [] |- _ => rewrite H, app_nil_r in Hrem end.
  rewrite Hd2, Hd1 in Hj1. rewrite Hj1 in Hfinal.
  assert (∀ k e, foldr delete (journal_of (w_db w)) (journal_key <$> removed s) !! k = Some e →
    journal_of (w_db w) !! k = Some e ∧ journal_key (je_activation_id e) = k ∧
    e ∈ entries ∧ is_uncertain_side_effect (je_state e) = true) as Hleft.
  { intros k e He. destruct (decide (k ∈ journal_key <$> removed s)) as [Hk|Hk].
    { by rewrite lookup_foldr_delete in He. }
    rewrite lookup_foldr_delete_not_elem_of in He by done.
    pose proof (ko_keyed _ _ (inv_journal _ Hinv) _ _ He) as Hkey.
    assert (e ∈ entries) as Hee by (apply Hin; eauto).
    split_and!; [done..|]. apply not_false_iff_true. intros Hf. apply Hk.
    rewrite <- Hkey. apply list_elem_of_fmap. exists (je_activation_id e). split; [done|].
    rewrite Hrem. apply elem_of_ids_with. exists e. unfold not_uncertain. by rewrite Hf. }
  split_and!.
  - intros k. split.
    + intros [e' He']. destruct (Hfinal _ _ He') as [_ [e He]].
      apply Hleft in He as (? & _ & _ & ?). eauto.
    + intros (e & He & Hunc). destruct (Hkept _ _ He Hunc) as [->| ->]; by eexists.
  - intros k e' He'. destruct (Hfinal _ _ He') as [[?|[He Hnot]] _]; [done|].
    apply Hleft in He as (He & Hkey & Hee & Hunc).
    destruct (decide (je_state e' = State_UncertainNoReplay)) as [|Hne]; [done|].
    exfalso. apply (Hnot (je_activation_id e')); [|done].
    rewrite Hrec. apply elem_of_ids_with. exists e'. unfold to_record.
    by rewrite Hunc, bool_decide_false.
  - naive_solver.
Qed.

(** a successful startup cleanup leaves exactly the uncertain rows in the journal,
    all of them marked [UncertainNoReplay], so no later activation can replay one of
    them; its report counts the rows it found. *)
Theorem startup_cleanup_complete w report w' :
  store_inv (w_db w) → startup_cleanup w = (Ok report, w') →
  (∀ k, is_Some (journal_of (w_db w') !! k) ↔
     ∃ e, journal_of (w_db w) !! k = Some e ∧ is_uncertain_side_effect (je_state e) = true) ∧
  (∀ k e, journal_of (w_db w') !! k = Some e → je_state e = State_UncertainNoReplay) ∧
  journaled_entries report = Z.of_nat (size (journal_of (w_db w))).
Proof. apply startup_cleanup_Ok. Qed.

(** The promotion moves the candidate to the completed slot and frees the in-flight
    slot in one transaction, and returns the record it replaced; the candidate it accepts
    is an in-flight record with an absolute path. *)
Theorem promote_clipboard_cache_spec candidate w previous w' :
  promote_clipboard_cache candidate w = (Ok previous, w') →
  cc_state candidate = Cache_InFlight ∧ path_is_absolute (cc_payload_path candidate) = true ∧
  previous = cache_of (w_db w) !! CACHE_COMPLETED ∧
  cache_of (w_db w') =
    delete CACHE_IN_FLIGHT (<[CACHE_COMPLETED :=
      mkClipboardCacheRecord (cc_activation_id candidate) Cache_Completed
        (cc_payload_path candidate)]> (cache_of (w_db w))).
Proof.
  unfold promote_clipboard_cache. intros Hrun. inv_db.
  repeat match goal with H : refuse_if _ _ = Ok _ |- _ => apply refuse_if_Ok in H end.
  unfold cache_record_validate in *.
  repeat match goal with H : refuse_if _ _ = Ok _ |- _ => apply refuse_if_Ok in H end.
  bool_facts.
  match goal with H : encode_json _ = _ |- _ => apply encode_json_decoded in H as Henc end.
  split_and!; [done..| |].
  - match goal with H : decode_opt _ = _ |- _ => rename H into Hdec end.
    subst. apply decode_opt_Ok in Hdec as [[Hnone ->]|(b & r & Hsome & Hr & ->)]; symmetry.
    + apply eq_None_not_Some. intros [r (b & Hb & _)%lookup_view]. simpl in Hnone. congruence.
    + apply lookup_view. eauto.
  - unfold cache_of. do 2 db_after. rewrite t_set_set. simpl.
    by rewrite view_delete, (view_insert _ _ _ _ Henc).
Qed.

Lemma has_uncertain_Ok w answer w' :
  has_uncertain_side_effect w = (Ok answer, w') →
  w_db w' = w_db w ∧
  (answer = true ↔
     (∃ k e, journal_of (w_db w) !! k = Some e ∧ je_mode e = Mode_Clipboard ∧
             is_uncertain_side_effect (je_state e) = true) ∨
     is_Some (cache_of (w_db w) !! CACHE_IN_FLIGHT)).
Proof.
  intros Hrun. split.
  { pose proof (has_uncertain_same w) as Hs. by rewrite Hrun in Hs. }
  unfold has_uncertain_side_effect in Hrun. inv_st.
  match goal with H : activation_journal_entries _ = (Ok ?es, _) |- _ =>
    rename es into entries; apply journal_entries_Ok in H as (Hd1 & _ & Hin) end.
  assert (existsb (λ entry, bool_decide (je_mode entry = Mode_Clipboard)
                    && is_uncertain_side_effect (je_state entry)) entries = true ↔
    ∃ k e, journal_of (w_db w) !! k = Some e ∧ je_mode e = Mode_Clipboard ∧
           is_uncertain_side_effect (je_state e) = true) as Hex.
  { rewrite existsb_exists. split.
    - intros (e & He%list_elem_of_In & [Hm Hu]%andb_true_iff). bool_facts.
      apply Hin in He as [k He]. eauto 10.
    - intros (k & e & He & Hm & Hu). exists e. split; [apply list_elem_of_In, Hin; eauto|].
      rewrite bool_decide_true by done. done. }
  destruct (existsb _ entries).
  - inv_st. split; [intros _; left; by apply Hex | done].
  - unfold get_clipboard_cache, with_read in *. inv_db.
    match goal with H : decode_opt _ = _ |- _ => rename H into Hdec end.
    subst. apply decode_opt_Ok in Hdec as [[Hnone ->]|(b & r & Hsome & Hr & ->)].
    + split; [done|]. intros [?%Hex|[r (b & Hb & _)%lookup_view]]; [done|].
      cbn [cache_key t_get CLIPBOARD_CACHE_V2] in Hnone. congruence.
    + split; [intros _; right; exists r; apply lookup_view; eauto|done].
Qed.

(** [has_uncertain_side_effect] answers whether a clipboard activation may have
    changed the clipboard without a recorded outcome: a clipboard row of the journal in
    [ApplyingClipboard] or [UncertainNoReplay], or an in-flight cache record. *)
Theorem has_uncertain_side_effect_spec w answer w' :
  has_uncertain_side_effect w = (Ok answer, w') →
  w_db w' = w_db w ∧
  (answer = true ↔
     (∃ k e, journal_of (w_db w) !! k = Some e ∧ je_mode e = Mode_Clipboard ∧
             is_uncertain_side_effect (je_state e) = true) ∨
     is_Some (cache_of (w_db w) !! CACHE_IN_FLIGHT)).
Proof. apply has_uncertain_Ok. Qed.

Lemma insert_offer_card_Err input : err_same (insert_offer_card (FS := FS) input).
Proof. repeat (apply err_same_bind; [unfold db_same; keeps_tac|intros]). apply err_same_write. Qed.

(** The conditions under which a card is stored: it is valid, an offer that is already known
    has the same descriptor, and neither redb nor the encoder fails. *)
Record card_insertable (input : OfferCardInput) (w : World FS) : Prop := {
  ins_faults : no_faults w;
  ins_valid : card_input_validate input = Ok ();
  ins_same r : cards_of (w_db w) !! card_key (ci_source_device input) (ci_offer_id input) = Some r →
    card_descriptor r = ci_descriptor input;
  ins_sequence k r : cards_of (w_db w) !! k = Some r → card_received_sequence r < U64_MAX;
  ins_encoded (r : OfferCardRecord) : ∃ b, json_to_vec r = Ok b;
}.
Lemma insert_offer_card_live input w :
  store_inv (w_db w) → card_insertable input w → ∃ out w', insert_offer_card input w = (Ok out, w').
Proof.
  intros Hinv [Hw Hvalid Hsame Hseq Henc]. pose proof (inv_cards _ Hinv) as [Hdec _ _ Hsize].
  unfold insert_offer_card. unfold mbind at 1, st_bind at 1, st_lift at 1. rewrite Hvalid.
  cbv zeta. set (key := card_key _ _) in *. set (body := _ ≫= _).
  enough (∃ out w', body w = (Ok out, w') ∧ no_faults w') as (out & w' & Hb & Hw').
  { exists out, w'. by apply with_write_live. }
  unfold body, open_table, table_get, mbind, st_bind.
  rewrite !redb_call_live by done. cbn [st_get mret st_ret].
  unfold st_lift at 1. change (t_get OFFER_CARDS_V2 (w_db w)) with (db_cards (w_db w)).
  destruct (db_cards (w_db w) !! key) as [b|] eqn:Hb.
  - destruct (Hdec _ _ Hb) as [r Hr]. cbn [decode_opt].
    rewrite (proj2 (decode_json_Ok b r)) by done. cbn.
    rewrite bool_decide_true by (apply Hsame, lookup_view; eauto). cbn. eauto.
  - cbn [decode_opt].
    destruct (append_row_live (FS := FS) OFFER_CARDS_V2 pair_leb card_received_sequence
      too_many_cards card_overflow key (λ received_sequence,
        mkOfferCardRecord (ci_source_device input) (ci_offer_id input) (ci_descriptor input)
          received_sequence (ci_availability input) None) w Hw Hdec Hsize Hseq
      (λ n, Henc _)) as (record & purged & w' & Happ & Hw').
    rewrite Happ. eexists _, _. split; [reflexivity | done].
Qed.

(** C16: [insert_offer_card], on every way: a card that is already known with the descriptor is
    returned, and nothing changes; a new one is stored under its source device and its offer
    with a sequence number above all others, after exactly the oldest cards beyond nine are
    purged; otherwise an error is reported and nothing has changed, and that happens only to
    an invalid card, one that contradicts a known one, or when redb or the encoder fails, or
    the sequence numbers are used up, however full the shelf is. *)
Theorem insert_offer_card_spec input w r w' :
  store_inv (w_db w) → insert_offer_card input w = (r, w') →
  let before := cards_of (w_db w) in let after := cards_of (w_db w') in
  let key := card_key (ci_source_device input) (ci_offer_id input) in
  match r with
  | Ok out =>
      (before !! key = Some (ic_record out) ∧
       card_descriptor (ic_record out) = ci_descriptor input ∧
       ic_inserted out = false ∧ ic_purged out = 0 ∧ w_db w' = w_db w) ∨
      (before !! key = None ∧ ic_inserted out = true ∧
       ic_record out = mkOfferCardRecord (ci_source_device input) (ci_offer_id input)
         (ci_descriptor input) (card_received_sequence (ic_record out))
         (ci_availability input) None ∧
       appended card_received_sequence before after key (ic_record out) (ic_purged out) ∧
       w_db w' = t_set OFFER_CARDS_V2 (db_cards (w_db w')) (w_db w))
  | Err _ => w_db w' = w_db w ∧ ¬ card_insertable input w
  end.
Proof.
  intros Hinv Hrun. destruct r as [out|e]; [by apply insert_offer_card_Ok in Hrun|]. split.
  - by eapply insert_offer_card_Err.
  - intros Hins. destruct (insert_offer_card_live input w Hinv Hins) as (out & w1 & Hok). congruence.
Qed.
End store_theorems.

(** ** Witnesses

    A store whose rows are encoded with concrete codecs, whose keys are the identifiers
    themselves and whose staging filesystem always succeeds. *)

Module StoreSample.
Definition sample_uuid : UuidText := λ n, [n].
Definition sample_iter : RedbIter := λ K _ _ t, map_to_list t.
Lemma sample_iter_laws : @RedbIterLaws sample_iter.
Proof. by intros K ? ? t. Qed.
Definition sample_fs : StagingFs () := {|
  path_is_absolute p := starts_with_char 47 p;
  path_parent p := Some (str "/staging");
  staging_ensure_tree _ := mret ();
  staging_create_dir _ := mret ();
  staging_remove_tree _ := mret ();
  legacy_remove_partials _ := mret false;
  legacy_remove_markers _ := mret 0;
|}.
#[local] Existing Instances sample_uuid sample_iter sample_fs sample_iter_laws.

Definition text_offer : OfferDescriptor := Descriptor_Text 5 1 (str "hello").
Definition card_input (n : Z) : OfferCardInput :=
  mkOfferCardInput (mkDeviceId 1) (mkOfferId n) text_offer Available.
Definition source_row (n : Z) (to : gset DeviceId) : OfferSourceRecord :=
  mkOfferSourceRecord (mkOfferId 1) text_offer n to (Source_Text (str "hello")).
Definition source_input : OfferSourceInput :=
  mkOfferSourceInput (mkOfferId 1) text_offer {[mkDeviceId 2]} (Source_Text (str "hello")).
Definition journal_entry (n : Z) (state : ActivationState) : ActivationJournalEntry :=
  mkActivationJournalEntry (mkActivationId n) (mkDeviceId 1) (mkOfferId 1) Mode_Clipboard
    (str "/staging/a") state 1 5.
Definition cache_record (state : ClipboardCacheState) : ClipboardCacheRecord :=
  mkClipboardCacheRecord (mkActivationId 3) state (str "/cache/a").

Definition source_json : Json OfferSourceRecord :=
  table_json [source_row 1 {[mkDeviceId 2]}; source_row 1 ∅].
Definition card_json : Json OfferCardRecord := countable_json OfferCardRecord.
Definition journal_json : Json ActivationJournalEntry :=
  table_json [journal_entry 1 State_Staging; journal_entry 2 State_ApplyingClipboard;
              journal_entry 2 State_UncertainNoReplay].
Definition cache_json : Json ClipboardCacheRecord :=
  table_json [cache_record Cache_InFlight; cache_record Cache_Completed].
#[local] Existing Instances source_json card_json journal_json cache_json.
Lemma source_laws : JsonLaws OfferSourceRecord.
Proof. apply table_json_laws. Qed.
Lemma card_laws : JsonLaws OfferCardRecord.
Proof. apply countable_json_laws. Qed.
Lemma journal_laws' : JsonLaws ActivationJournalEntry.
Proof. apply table_json_laws. Qed.
Lemma cache_laws' : JsonLaws ClipboardCacheRecord.
Proof. apply table_json_laws. Qed.
#[local] Existing Instances source_laws card_laws journal_laws' cache_laws'.

Definition empty_world : World () := mkWorld db_empty [] tt.
(** The state after a run. *)
Definition after {T} (m : St (World ()) StoreError T) (w : World ()) : World () := (m w).2.
(** Eleven cards inserted one after the other. *)
Definition shelf_world : World () :=
  after (st_for (map card_input [1; 2; 3; 4; 5; 6; 7; 8; 9; 10; 11])
           (λ input, st_void (insert_offer_card input))) empty_world.
Definition source_world : World () := after (insert_offer_source source_input) empty_world.
Definition journal_world : World () :=
  after (journal_activation (journal_entry 1 State_Staging);;
         journal_activation (journal_entry 2 State_ApplyingClipboard);;
         set_clipboard_cache (cache_record Cache_InFlight)) empty_world.

(** Run an operation on a world and keep its successful result. *)
Ltac run_sample Hrun :=
  lazymatch goal with
  | |- ∃ a b, ?run = (Ok _, _) ∧ _ =>
      destruct run as [[out|e] w'] eqn:Hrun;
      [exists out, w'; split; [reflexivity|]
      |exfalso; vm_compute in Hrun; discriminate Hrun]
  end.

Lemma insert_offer_source_witness :
  ∃ out w', insert_offer_source source_input empty_world = (Ok out, w') ∧
    si_inserted out = true ∧ is_Some (sources_of (w_db w') !! source_key (mkOfferId 1)).
Proof.
  run_sample Hrun.
  destruct (insert_offer_source_spec _ _ _ _ Hrun) as [(H & _)|(_ & Hins & _ & Happ & _)].
  - by vm_compute in H.
  - split; [exact Hins|]. destruct Happ as (kept & _ & -> & _).
    rewrite lookup_insert_eq. by eexists.
Defined.

(** The eleventh and twelfth cards each purge one. *)
Lemma shelf_world_inv : store_inv (w_db shelf_world).
Proof.
  assert (keeps inv_step (st_for (map card_input [1; 2; 3; 4; 5; 6; 7; 8; 9; 10; 11])
    (λ input, st_void (insert_offer_card input)) : St (World ()) _ _)) as Hk.
  { apply keeps_for; [apply _|]. intros input. apply keeps_void; [apply _|].
    apply insert_offer_card_keeps. }
  apply (Hk empty_world), store_inv_empty.
Qed.
Lemma insert_offer_card_witness :
  ∃ out w', insert_offer_card (card_input 12) shelf_world = (Ok out, w') ∧
    ic_purged out = 1 ∧ card_received_sequence (ic_record out) = 12 ∧
    appended card_received_sequence (cards_of (w_db shelf_world)) (cards_of (w_db w'))
      (card_key (mkDeviceId 1) (mkOfferId 12)) (ic_record out) 1.
Proof.
  run_sample Hrun. assert (ic_purged out = 1 ∧ card_received_sequence (ic_record out) = 12) as [Hp Hn].
  { vm_compute in Hrun. injection Hrun as <- _. done. }
  split; [exact Hp|]. split; [exact Hn|].
  destruct (insert_offer_card_spec _ _ _ _ shelf_world_inv Hrun) as [(H & _)|(_ & _ & _ & Happ & _)].
  - exfalso. revert H. vm_compute. discriminate.
  - rewrite Hp in Happ. exact Happ.
Defined.

Lemma remove_explicit_refusal_witness :
  ∃ out w', remove_explicit_refusal (mkOfferId 1) (mkDeviceId 2) source_world = (Ok out, w') ∧
    offer_deleted out = true ∧ sources_of (w_db w') = delete (source_key (mkOfferId 1))
                                                       (sources_of (w_db source_world)).
Proof.
  run_sample Hrun.
  destruct (remove_explicit_refusal_spec _ _ _ _ _ Hrun) as (r & Hr & Hel & _ & Hdel & Hafter).
  assert (r = source_row 1 {[mkDeviceId 2]}) as ->.
  { vm_compute in Hr. injection Hr as <-. reflexivity. }
  rewrite Hel in Hdel, Hafter. split; [rewrite Hdel; vm_compute; reflexivity|].
  revert Hafter. rewrite !bool_decide_true by (vm_compute; reflexivity). done.
Defined.

Lemma reads_newest_first_witness :
  ∃ cards w', read_offer_shelf shelf_world = (Ok cards, w') ∧ length cards = 10%nat ∧
    StronglySorted (newest_le card_received_sequence) cards.
Proof.
  run_sample Hrun.
  destruct (proj1 (reads_newest_first shelf_world w' out []) Hrun) as (_ & Hs & _).
  split; [|exact Hs]. vm_compute in Hrun. injection Hrun as <- _. reflexivity.
Defined.

(** Two cards are inserted in sequence, the second with a failing commit. *)
Lemma reachable_store_inv_witness :
  ∃ w, rtc store_step empty_world w ∧ size (cards_of (w_db w)) = 1%nat ∧ store_inv (w_db w).
Proof.
  set (r1 := (run_op (Op_insert_offer_card (card_input 1)) empty_world).2).
  set (w1 := mkWorld (w_db r1) [None; None; None; None; None; None; None; None;
                                Some (mkStoreError (str "commit"))] (w_fs r1)).
  set (r2 := (run_op (Op_insert_offer_card (card_input 2)) w1).2).
  set (w2 := mkWorld (w_db r2) [] (w_fs r2)).
  assert (rtc store_step empty_world w2) as Hsteps.
  { apply rtc_l with w1; [|apply rtc_once];
      eapply store_step_op; apply surjective_pairing. }
  exists w2. split; [exact Hsteps|]. split; [vm_compute; reflexivity|].
  exact (reachable_store_inv [] tt w2 Hsteps).
Defined.

Lemma journal_world_inv : store_inv (w_db journal_world).
Proof.
  assert (keeps inv_step
    (journal_activation (journal_entry 1 State_Staging);;
     journal_activation (journal_entry 2 State_ApplyingClipboard);;
     set_clipboard_cache (cache_record Cache_InFlight) : St (World ()) _ _)) as Hk.
  { repeat (apply keeps_bind; [apply _|apply journal_activation_keeps|intros _]).
    apply set_clipboard_cache_keeps. }
  apply (Hk empty_world), store_inv_empty.
Qed.

Lemma startup_cleanup_keeps_uncertain_witness :
  let w := mkWorld (w_db journal_world) [None; None; None; None; None;
                                         Some (mkStoreError (str "begin"))] tt in
  ∃ r w', startup_cleanup w = (r, w') ∧ is_ok r = false ∧
    uncertain_kept (journal_of (w_db w)) (journal_of (w_db w')).
Proof.
  intros w. destruct (startup_cleanup w) as [r w'] eqn:Hrun. exists r, w'.
  split; [reflexivity|]. split.
  - vm_compute in Hrun. injection Hrun as <- _. reflexivity.
  - apply (startup_cleanup_keeps_uncertain w r w' journal_world_inv Hrun).
Defined.

Lemma startup_cleanup_complete_witness :
  ∃ report w', startup_cleanup journal_world = (Ok report, w') ∧
    journaled_entries report = 2 ∧
    ∀ k e, journal_of (w_db w') !! k = Some e → je_state e = State_UncertainNoReplay.
Proof.
  run_sample Hrun.
  destruct (startup_cleanup_complete _ _ _ journal_world_inv Hrun) as (_ & Hall & Hn).
  split; [rewrite Hn; vm_compute; reflexivity | exact Hall].
Defined.

Lemma promote_clipboard_cache_witness :
  ∃ previous w', promote_clipboard_cache (cache_record Cache_InFlight) journal_world
                 = (Ok previous, w') ∧ previous = None.
Proof.
  run_sample Hrun. destruct (promote_clipboard_cache_spec _ _ _ _ Hrun) as (_ & _ & -> & _).
  vm_compute. reflexivity.
Defined.

Lemma has_uncertain_side_effect_witness :
  ∃ answer w', has_uncertain_side_effect journal_world = (Ok answer, w') ∧ answer = true.
Proof.
  run_sample Hrun. apply (proj2 (has_uncertain_side_effect_spec _ _ _ Hrun)).
  right. vm_compute. by eexists.
Defined.

Lemma insert_offer_card_live_witness :
  ∃ out w', insert_offer_card (card_input 1) empty_world = (Ok out, w').
Proof.
  apply insert_offer_card_live; [apply store_inv_empty|]. split.
  - reflexivity.
  - vm_compute. reflexivity.
  - intros r H. vm_compute in H. discriminate H.
  - intros k r H. apply lookup_view in H as (b & H & _). simpl in H.
    rewrite lookup_empty in H. discriminate H.
  - intros r. eexists. reflexivity.
Defined.
End StoreSample.
