(* ===== verification/Ledger.v ===== *)
(** * The reservation ledger

    Models [ReservationLedger] and [ReservationPermit] of
    [crates/meshelf-net/src/fetch_receiver.rs]: the per-filesystem sum of reserved bytes that
    admission checks against the free space, and the permits whose [Drop] gives them back.
    The ledger is shared by every activation of the process, so its life is a sequence of
    reservations and drops in any order ([ledger_step]). *)

From S2P Require Import Prelude RustStr StdIo.

Record FilesystemKey := mkFilesystemKey { fskey_text : rstr }.
#[export] Instance FilesystemKey_eq_dec : EqDecision FilesystemKey.
Proof. solve_decision. Defined.
#[export] Program Instance FilesystemKey_countable : Countable FilesystemKey :=
  inj_countable' fskey_text mkFilesystemKey _.
Next Obligation. by intros []. Qed.

Inductive ReservationError :=
| Reservation_Filesystem (error : IoError)
| LedgerPoisoned
| Overflow
| Reservation_InsufficientSpace (available active_reserved required : Z).

(** The mutex around the map, and whether it is poisoned. *)
Record ReservationLedger := mkLedger {
  reservations : gmap FilesystemKey Z;
  ledger_poisoned : bool;
}.
Definition ledger_default : ReservationLedger := mkLedger ∅ false.

Record ReservationPermit := mkPermit {
  permit_key : FilesystemKey;
  reserved_bytes : Z;
}.

Definition GIB : Z := 1024 * 1024 * 1024.

(** The free space kept on top of the payload: a twentieth of the filesystem, between 2 and
    16 GiB. *)
Definition safety_headroom (total : Z) : Z :=
  Z.max (saturating_mul U64_MAX 2 (1024 * 1024 * 1024))
        (Z.min (total / 20) (16 * 1024 * 1024 * 1024)).

Definition already_reserved (ledger : ReservationLedger) (key : FilesystemKey) : Z :=
  default 0 (reservations ledger !! key).

(** [reserve_with_capacity]; the lock is held from the check to the insertion. *)
Definition reserve_with_capacity (key : FilesystemKey) (available total payload_bytes : Z)
    : St ReservationLedger ReservationError ReservationPermit :=
  let headroom := safety_headroom total in
  required ← st_lift (ok_or (checked_add U64_MAX payload_bytes headroom) Overflow);
  active ← st_get;
  st_lift (refuse_if (ledger_poisoned active) LedgerPoisoned);;
  let already := already_reserved active key in
  st_lift (refuse_if (saturating_sub available already <? required)
    (Reservation_InsufficientSpace available already required));;
  next ← st_lift (ok_or (checked_add U64_MAX already required) Overflow);
  st_modify (λ l, mkLedger (<[key := next]> (reservations l)) (ledger_poisoned l));;
  mret (mkPermit key required).

(** What [reserve] asks the host. *)
Record SpaceProbe := mkSpaceProbe {
  probe_key : result IoError FilesystemKey;
  probe_available : result IoError Z;
  probe_total : result IoError Z;
}.
Definition reserve (probe : SpaceProbe) (payload_bytes : Z)
    : St ReservationLedger ReservationError ReservationPermit :=
  key ← st_lift (map_err Reservation_Filesystem (probe_key probe));
  available ← st_lift (map_err Reservation_Filesystem (probe_available probe));
  total ← st_lift (map_err Reservation_Filesystem (probe_total probe));
  reserve_with_capacity key available total payload_bytes.

(** [Drop for ReservationPermit] *)
Definition permit_drop (permit : ReservationPermit) (ledger : ReservationLedger)
    : ReservationLedger :=
  if ledger_poisoned ledger then ledger
  else match reservations ledger !! permit_key permit with
       | Some value =>
           let value := saturating_sub value (reserved_bytes permit) in
           mkLedger (if value =? 0 then delete (permit_key permit) (reservations ledger)
                     else <[permit_key permit := value]> (reservations ledger))
             (ledger_poisoned ledger)
       | None => ledger
       end.

(** ** The ledger over time *)

(** The ledger together with the permits that are still alive. *)
Record LedgerState := mkLedgerState {
  ls_ledger : ReservationLedger;
  ls_permits : list ReservationPermit;
}.

Inductive ledger_step : LedgerState → LedgerState → Prop :=
| step_reserved key available total payload l l' permit permits :
    is_u64 available → is_u64 total → is_u64 payload →
    reserve_with_capacity key available total payload l = (Ok permit, l') →
    ledger_step (mkLedgerState l permits) (mkLedgerState l' (permit :: permits))
| step_refused key available total payload l l' e permits :
    reserve_with_capacity key available total payload l = (Err e, l') →
    ledger_step (mkLedgerState l permits) (mkLedgerState l' permits)
| step_dropped l permit before after :
    ledger_step (mkLedgerState l (before ++ permit :: after))
                (mkLedgerState (permit_drop permit l) (before ++ after)).

(** What the live permits of one filesystem add up to. *)
Definition permits_on (key : FilesystemKey) (permits : list ReservationPermit) : Z :=
  sum_with (λ p, if bool_decide (permit_key p = key) then reserved_bytes p else 0) permits.

Arguments permits_on : simpl never.

(** The ledger records exactly the live permits, without a zero entry. *)
Record ledger_inv (s : LedgerState) : Prop := {
  li_open : ledger_poisoned (ls_ledger s) = false;
  li_exact : ∀ key, already_reserved (ls_ledger s) key = permits_on key (ls_permits s);
  li_nonzero : map_Forall (λ _ n, 0 < n ≤ U64_MAX) (reservations (ls_ledger s));
  li_positive : Forall (λ p, 0 < reserved_bytes p) (ls_permits s);
}.

Lemma headroom_bounds total : 0 ≤ total → 2 * GIB ≤ safety_headroom total ≤ 16 * GIB.
Proof.
  intros. unfold safety_headroom, saturating_mul, GIB, U64_MAX. lia.
Qed.

Lemma permits_on_nonneg key permits :
  Forall (λ p, 0 < reserved_bytes p) permits → 0 ≤ permits_on key permits.
Proof.
  intros H. apply sum_with_nonneg. eapply Forall_impl; [exact H|].
  intros p Hp. simpl in *. case_bool_decide; lia.
Qed.

(** A reservation that succeeds: the arithmetic that was checked. *)
Lemma reserve_Ok key available total payload l permit l' :
  reserve_with_capacity key available total payload l = (Ok permit, l') ↔
  ledger_poisoned l = false ∧
  permit = mkPermit key (payload + safety_headroom total) ∧
  payload + safety_headroom total ≤ U64_MAX ∧
  payload + safety_headroom total ≤ saturating_sub available (already_reserved l key) ∧
  already_reserved l key + (payload + safety_headroom total) ≤ U64_MAX ∧
  l' = mkLedger (<[key := already_reserved l key + (payload + safety_headroom total)]>
                   (reservations l)) (ledger_poisoned l).
Proof.
  unfold reserve_with_capacity. split.
  - intros Hrun. inv_st.
    repeat match goal with
           | H : refuse_if _ _ = Ok _ |- _ => apply refuse_if_Ok in H
           | H : ok_or _ _ = Ok _ |- _ => rewrite ok_or_Ok, checked_add_Some in H; destruct H as [-> ?]
           end. bool_facts. split_and!; auto; lia.
  - intros (Hp & -> & Hreq & Hfit & Hnext & ->). unfold mbind, st_bind, st_lift, st_get, st_modify.
    rewrite (proj2 (checked_add_Some _ _ _ _)) by (split; [done|lia]). cbn [ok_or].
    cbv beta iota zeta. rewrite Hp. cbn [refuse_if].
    rewrite (proj2 (Z.ltb_ge _ _)) by lia. cbn [refuse_if].
    rewrite (proj2 (checked_add_Some _ _ _ _)) by (split; [done|lia]). cbn [ok_or].
    done.
Qed.

Lemma reserve_Err key available total payload l e l' :
  reserve_with_capacity key available total payload l = (Err e, l') → l' = l.
Proof.
  unfold reserve_with_capacity. intros Hrun.
  repeat (apply st_bind_Err in Hrun as [Hrun|(? & ? & ? & Hrun)]; inv_st;
    [unfold st_lift, st_get, st_modify in Hrun; by injection Hrun|]).
  done.
Qed.

Lemma already_insert l key n k b :
  already_reserved (mkLedger (<[key := n]> (reservations l)) b) k
  = if bool_decide (key = k) then n else already_reserved l k.
Proof.
  unfold already_reserved. simpl. case_bool_decide as Hk.
  - subst. by rewrite lookup_insert_eq.
  - by rewrite lookup_insert_ne.
Qed.
Lemma already_delete l key k b :
  already_reserved (mkLedger (delete key (reservations l)) b) k
  = if bool_decide (key = k) then 0 else already_reserved l k.
Proof.
  unfold already_reserved. simpl. case_bool_decide as Hk.
  - subst. by rewrite lookup_delete_eq.
  - by rewrite lookup_delete_ne.
Qed.

Lemma permits_on_app key l k :
  permits_on key (l ++ k) = permits_on key l + permits_on key k.
Proof. apply sum_with_app. Qed.

Lemma permits_on_cons key p l :
  permits_on key (p :: l)
  = (if bool_decide (permit_key p = key) then reserved_bytes p else 0) + permits_on key l.
Proof. done. Qed.

Lemma ledger_step_inv s s' : ledger_inv s → ledger_step s s' → ledger_inv s'.
Proof.
  intros [Hopen Hexact Hnz Hpos] Hstep. destruct Hstep as
    [key available total payload l l' permit permits Ha Ht Hpay Hrun
    |key available total payload l l' e permits Hrun
    |l permit before after]; simpl in *.
  - apply reserve_Ok in Hrun as (_ & -> & Hreq & Hfit & Hnext & ->).
    pose proof (headroom_bounds total). unfold is_u64 in *.
    assert (0 ≤ already_reserved l key).
    { rewrite Hexact. by apply permits_on_nonneg. }
    split; simpl; [done| | |constructor; [unfold GIB in *; simpl; lia|done]].
    + intros k. rewrite already_insert, permits_on_cons, !Hexact. simpl.
      case_bool_decide; subst; lia.
    + apply map_Forall_insert_2; [unfold GIB in *; lia|done].
  - apply reserve_Err in Hrun as ->. by split.
  - apply Forall_app in Hpos as [Hp1 [Hp Hp2]%Forall_cons].
    assert (∀ k, already_reserved l k = permits_on k before + permits_on k after
                 + (if bool_decide (permit_key permit = k) then reserved_bytes permit else 0)) as Hx.
    { intros k. rewrite Hexact, permits_on_app, permits_on_cons. lia. }
    unfold permit_drop. rewrite Hopen.
    pose proof (Hx (permit_key permit)) as Hk. rewrite bool_decide_true in Hk by done.
    pose proof (permits_on_nonneg (permit_key permit) _ Hp1).
    pose proof (permits_on_nonneg (permit_key permit) _ Hp2).
    destruct (reservations l !! permit_key permit) as [n|] eqn:Hn.
    2: { unfold already_reserved in Hk. rewrite Hn in Hk. simpl in Hk. lia. }
    assert (already_reserved l (permit_key permit) = n) as Hal
      by (unfold already_reserved; by rewrite Hn).
    assert (saturating_sub n (reserved_bytes permit) = n - reserved_bytes permit) as ->
      by (unfold saturating_sub; lia).
    destruct (Z.eqb_spec (n - reserved_bytes permit) 0); simpl;
      (split; simpl; [done| | |by apply Forall_app]).
    + intros k. rewrite already_delete, permits_on_app, Hx. case_bool_decide; subst; lia.
    + by apply map_Forall_delete.
    + intros k. rewrite already_insert, permits_on_app, Hx. case_bool_decide; subst; lia.
    + apply map_Forall_insert_2; [|done]. pose proof (Hnz _ _ Hn) as Hbound. simpl in Hbound. lia.
Qed.

Lemma reachable_ledger_inv s :
  rtc ledger_step (mkLedgerState ledger_default []) s → ledger_inv s.
Proof.
  intros Hsteps. assert (ledger_inv (mkLedgerState ledger_default [])) as H0.
  { split; simpl; [done|done|apply map_Forall_empty|done]. }
  revert H0. induction Hsteps as [|s0 s1 s2 Hstep _ IH]; [done|]. eauto using ledger_step_inv.
Qed.

(** In every history of reservations and drops, in any order, the ledger holds for each
    filesystem exactly the sum of the permits still alive: nothing leaks, nothing is given
    back twice, and the saturating subtraction of a drop never saturates.  When no permit
    is alive the ledger is empty. *)
Theorem ledger_exact s :
  rtc ledger_step (mkLedgerState ledger_default []) s →
  (∀ key, already_reserved (ls_ledger s) key = permits_on key (ls_permits s)) ∧
  (ls_permits s = [] → reservations (ls_ledger s) = ∅).
Proof.
  intros [_ Hexact Hnz _]%reachable_ledger_inv.
  split; [done|]. intros Hnil. rewrite Hnil in Hexact.
  apply map_empty. intros key. destruct (reservations (ls_ledger s) !! key) as [n|] eqn:Hn; [|done].
  pose proof (Hnz _ _ Hn) as Hb. specialize (Hexact key). unfold already_reserved in Hexact.
  rewrite Hn in Hexact. change (permits_on key []) with 0 in Hexact. simpl in *. lia.
Qed.

(** C25: a reservation is granted exactly when, on top of everything already reserved on that
    filesystem, the payload and its headroom fit in the space that was available; the
    headroom is a twentieth of the filesystem, at least 2 and at most 16 GiB.  A refused
    reservation changes nothing. *)
Theorem reserve_never_overcommits s key available total payload :
  rtc ledger_step (mkLedgerState ledger_default []) s →
  is_u64 available → is_u64 total → is_u64 payload →
  let run := reserve_with_capacity key available total payload (ls_ledger s) in
  let needed := payload + safety_headroom total in
  2 * GIB ≤ safety_headroom total ≤ 16 * GIB ∧
  (permits_on key (ls_permits s) + needed ≤ available ↔
     ∃ l', run = (Ok (mkPermit key needed), l')) ∧
  (available < permits_on key (ls_permits s) + needed ↔
     ∃ e, run = (Err e, ls_ledger s)).
Proof.
  intros [Hopen Hexact _ Hpos]%reachable_ledger_inv Ha Ht Hp. cbv zeta.
  unfold is_u64 in *. pose proof (headroom_bounds total ltac:(lia)).
  pose proof (permits_on_nonneg key _ Hpos). pose proof (reserve_Ok key available total payload
    (ls_ledger s)) as Hok. rewrite Hexact in Hok. unfold saturating_sub, GIB in *.
  split_and!; [lia|lia| |].
  - split; [intros Hfit; eexists; apply Hok; split_and!; (done || lia)|].
    intros [l' (_ & _ & _ & Hfit & _)%Hok]. lia.
  - split.
    + intros Hover. destruct (reserve_with_capacity _ _ _ _ _) as [[permit|e] l'] eqn:Hrun.
      * pose proof (proj1 (Hok _ _) eq_refl). lia.
      * exists e. by rewrite (reserve_Err _ _ _ _ _ _ _ Hrun).
    + intros [e Hrun]. apply Znot_ge_lt. intros Hge.
      assert (∃ l', reserve_with_capacity key available total payload (ls_ledger s) =
        (Ok (mkPermit key (payload + safety_headroom total)), l')) as [l' Hrun'].
      { eexists. apply Hok. split_and!; (done || lia). }
      congruence.
Qed.

(** ** Witnesses *)

Definition disk : FilesystemKey := mkFilesystemKey (str "unix-device:1").
Definition two_gib : Z := 2 * GIB.

(** Two reservations on a 64 GiB filesystem with 20 GiB free, then the first one dropped. *)
Definition sample_permit (payload : Z) : ReservationPermit :=
  mkPermit disk (payload + safety_headroom (64 * GIB)).
Definition sample_history : LedgerState :=
  let l1 := (reserve_with_capacity disk (20 * GIB) (64 * GIB) GIB ledger_default).2 in
  let l2 := (reserve_with_capacity disk (20 * GIB) (64 * GIB) 5 l1).2 in
  mkLedgerState (permit_drop (sample_permit GIB) l2) [sample_permit 5].

Lemma sample_history_reachable :
  rtc ledger_step (mkLedgerState ledger_default []) sample_history.
Proof.
  eapply rtc_l.
  { eapply (step_reserved disk (20 * GIB) (64 * GIB) GIB _ _ (sample_permit GIB) []);
      [done|done|done|vm_compute; reflexivity]. }
  eapply rtc_l.
  { eapply (step_reserved disk (20 * GIB) (64 * GIB) 5 _ _ (sample_permit 5) [sample_permit GIB]);
      [done|done|done|vm_compute; reflexivity]. }
  apply rtc_once. eapply (step_dropped _ (sample_permit GIB) [sample_permit 5] []).
Qed.

Lemma ledger_exact_witness :
  already_reserved (ls_ledger sample_history) disk = 5 + safety_headroom (64 * GIB).
Proof.
  rewrite (proj1 (ledger_exact _ sample_history_reachable) disk). vm_compute. reflexivity.
Defined.

Lemma reserve_never_overcommits_witness :
  ∃ e, reserve_with_capacity disk (4 * GIB) (64 * GIB) GIB (ls_ledger sample_history)
       = (Err e, ls_ledger sample_history).
Proof.
  apply (reserve_never_overcommits sample_history disk (4 * GIB) (64 * GIB) GIB);
    [apply sample_history_reachable|done|done|done|]. vm_compute. reflexivity.
Defined.
