(* ===== verification/Activation.v ===== *)
(** * Activation outcomes and the activation service

    Models [crates/meshelf-net/src/activation.rs] with the error type of
    [crates/meshelf-net/src/lib.rs]: the terminal results and their conversions, the
    classification of transport errors, and the owner shared by all [ActivationService]s of
    one store, which recovers once and admits at most two activations.  The awaits of
    [activate] are its interleaving points, so the service is a transition system over the
    owner and the futures in flight ([service_step]).  Startup cleanup of the receiver
    ([FetchReceiver::startup_cleanup]) is included, over the store of [OfferStore]. *)

From S2P Require Import Prelude RustStr StdIo Offer Records Protocol OfferStore.

(** ** Errors of the network crate *)

Inductive NetError :=
| Net_Io (error : IoError)
| Net_Protocol (error : ProtocolError)
| Net_Timeout (operation : rstr)
| Net_Rejected (reason : rstr)
| ProtocolMismatch (peer : rstr) (version expected : Z)
| Unavailable (reason : rstr)
| UnexpectedMessage (detail : rstr)
| IdentityMismatch (detail : rstr)
| UnsafeBind (detail : rstr)
| FileTransfer (detail : rstr)
| OfferStorage (detail : rstr)
| FetchService (detail : rstr)
| FetchServiceOwned (detail : rstr)
| FetchRefused (code : FetchRefusalCode) (active_streams max_active_streams : Z)
    (detail : option rstr)
| FetchAdmissionRefused (code : FetchAdmissionCode) (entries_reserved bytes_reserved : Z)
    (detail : option rstr)
| FetchTerminal (code : FetchReceiptCode) (files_processed bytes_processed : Z)
    (detail : option rstr)
| FetchAborted (code : FetchAbortCode) (files_processed bytes_processed : Z)
    (detail : option rstr)
| FetchLocalIo (files_processed bytes_processed : Z) (detail : option rstr)
| HandlerLimitClosed.

(** ** Terminal results *)

Definition MAX_CONCURRENT_ACTIVATIONS : Z := 2.

Inductive ActivationRefuseCode :=
| Refuse_UnknownOffer
| Refuse_NotAnnouncedToRequester
| Refuse_SourceUnavailable
| Refuse_SourceChanged
| Refuse_Busy
| Refuse_Malformed
| Refuse_Unsupported
| Refuse_InvalidManifest
| Refuse_TooLarge
| Refuse_InsufficientSpace
| Refuse_DestinationUnavailable
| Refuse_AllocationFailed
| Refuse_UnsupportedMode
| Refuse_DuplicateActivation.
#[export] Instance ActivationRefuseCode_eq_dec : EqDecision ActivationRefuseCode.
Proof. solve_decision. Defined.

Inductive ActivationFailCode :=
| Fail_SourceUnavailable
| Fail_SourceChanged
| Fail_VerificationFailed
| Fail_ClipboardFailed
| Fail_ConnectionLost
| Fail_LocalIo
| Fail_Protocol
| Fail_InternalError.
#[export] Instance ActivationFailCode_eq_dec : EqDecision ActivationFailCode.
Proof. solve_decision. Defined.

Inductive ActivationOutcome :=
| Outcome_Completed
| Outcome_Refused (code : ActivationRefuseCode)
| Outcome_Failed (code : ActivationFailCode)
| Outcome_Cancelled
| Outcome_UncertainNoReplay.
#[export] Instance ActivationOutcome_eq_dec : EqDecision ActivationOutcome.
Proof. solve_decision. Defined.

Definition refuse_code_text (code : ActivationRefuseCode) : rstr :=
  match code with
  | Refuse_UnknownOffer => str "unknown offer"
  | Refuse_NotAnnouncedToRequester => str "not announced to requester"
  | Refuse_SourceUnavailable => str "source unavailable"
  | Refuse_SourceChanged => str "source changed"
  | Refuse_Busy => str "busy"
  | Refuse_Malformed => str "malformed"
  | Refuse_Unsupported => str "unsupported"
  | Refuse_InvalidManifest => str "invalid manifest"
  | Refuse_TooLarge => str "too large"
  | Refuse_InsufficientSpace => str "insufficient space"
  | Refuse_DestinationUnavailable => str "destination unavailable"
  | Refuse_AllocationFailed => str "allocation failed"
  | Refuse_UnsupportedMode => str "unsupported mode"
  | Refuse_DuplicateActivation => str "duplicate activation"
  end.

Definition fail_code_text (code : ActivationFailCode) : rstr :=
  match code with
  | Fail_SourceUnavailable => str "source unavailable"
  | Fail_SourceChanged => str "source changed"
  | Fail_VerificationFailed => str "verification failed"
  | Fail_ClipboardFailed => str "clipboard failed"
  | Fail_ConnectionLost => str "connection lost"
  | Fail_LocalIo => str "local storage failed"
  | Fail_Protocol => str "protocol error"
  | Fail_InternalError => str "internal error"
  end.

Definition desktop_status (outcome : ActivationOutcome) : rstr :=
  match outcome with
  | Outcome_Completed => str "Offer activation completed"
  | Outcome_Refused code => str "Offer activation refused (" ++ refuse_code_text code ++ str ")"
  | Outcome_Failed code => str "Offer activation failed (" ++ fail_code_text code ++ str ")"
  | Outcome_Cancelled => str "Offer activation cancelled"
  | Outcome_UncertainNoReplay => str "Offer activation is uncertain and will not be replayed"
  end.

Definition is_completed (outcome : ActivationOutcome) : bool :=
  match outcome with Outcome_Completed => true | _ => false end.

(** The [From] conversions. *)
Definition refuse_of_refusal (code : FetchRefusalCode) : ActivationRefuseCode :=
  match code with
  | Refusal_UnknownOffer => Refuse_UnknownOffer
  | Refusal_NotAnnouncedToRequester => Refuse_NotAnnouncedToRequester
  | Refusal_SourceUnavailable => Refuse_SourceUnavailable
  | Refusal_SourceChanged => Refuse_SourceChanged
  | Refusal_Busy => Refuse_Busy
  | Refusal_Malformed => Refuse_Malformed
  | Refusal_Unsupported => Refuse_Unsupported
  end.
Definition outcome_of_admission (code : FetchAdmissionCode) : ActivationOutcome :=
  match code with
  | Admission_Accepted => Outcome_Completed
  | Admission_Cancelled => Outcome_Cancelled
  | Admission_RefusedBusy => Outcome_Refused Refuse_Busy
  | Admission_InvalidManifest => Outcome_Refused Refuse_InvalidManifest
  | Admission_TooLarge => Outcome_Refused Refuse_TooLarge
  | Admission_InsufficientSpace => Outcome_Refused Refuse_InsufficientSpace
  | Admission_DestinationUnavailable => Outcome_Refused Refuse_DestinationUnavailable
  | Admission_AllocationFailed => Outcome_Refused Refuse_AllocationFailed
  | Admission_UnsupportedMode => Outcome_Refused Refuse_UnsupportedMode
  end.
Definition outcome_of_abort (code : FetchAbortCode) : ActivationOutcome :=
  match code with
  | Abort_Cancelled => Outcome_Cancelled
  | Abort_SourceUnavailable => Outcome_Failed Fail_SourceUnavailable
  | Abort_SourceChanged => Outcome_Failed Fail_SourceChanged
  | Abort_InternalError => Outcome_Failed Fail_InternalError
  end.
Definition outcome_of_receipt (code : FetchReceiptCode) : ActivationOutcome :=
  match code with
  | Receipt_Completed => Outcome_Completed
  | Receipt_Cancelled => Outcome_Cancelled
  | Receipt_UncertainNoReplay => Outcome_UncertainNoReplay
  | Receipt_VerificationFailed => Outcome_Failed Fail_VerificationFailed
  | Receipt_ClipboardFailed => Outcome_Failed Fail_ClipboardFailed
  | Receipt_ConnectionLost => Outcome_Failed Fail_ConnectionLost
  | Receipt_InternalError => Outcome_Failed Fail_InternalError
  end.

(** [classify_activation_result], the arms in the order of the match. *)
Definition classify_activation_result (r : result NetError ())
    : result NetError ActivationOutcome :=
  match r with
  | Ok _ => Ok Outcome_Completed
  | Err error =>
      match error with
      | FetchRefused code _ _ _ => Ok (Outcome_Refused (refuse_of_refusal code))
      | FetchAdmissionRefused code _ _ _ => Ok (outcome_of_admission code)
      | FetchTerminal code _ _ _ => Ok (outcome_of_receipt code)
      | FetchAborted code _ _ _ => Ok (outcome_of_abort code)
      | Net_Rejected reason =>
          if contains_str (str "cleanup is unresolved") reason
             || contains_str (str "uncertain") reason
          then Ok (Outcome_Refused Refuse_Busy)
          else if contains_str (str "destination") reason
                  || contains_str (str "absolute") reason
          then Ok (Outcome_Refused Refuse_DestinationUnavailable)
          else Err error
      | IdentityMismatch _ => Ok (Outcome_Refused Refuse_Malformed)
      | Net_Timeout _ => Ok (Outcome_Failed Fail_ConnectionLost)
      | Net_Protocol _ | UnexpectedMessage _ => Ok (Outcome_Failed Fail_Protocol)
      | FetchLocalIo _ _ _ => Ok (Outcome_Failed Fail_LocalIo)
      | Net_Io _ => Ok (Outcome_Failed Fail_ConnectionLost)
      | FetchServiceOwned _ | FetchService _ | OfferStorage _ =>
          Ok (Outcome_Failed Fail_InternalError)
      | ProtocolMismatch _ _ _ | Unavailable _ | UnsafeBind _ | FileTransfer _
      | HandlerLimitClosed => Err error
      end
  end.

(** ** The owner shared by the services of one store *)

(** A poisoned mutex refuses every later [lock]. *)
Record SharedActivationOwner := mkOwner {
  ow_recovered : bool;
  ow_recovery_runs : Z;
  ow_recovery_poisoned : bool;
  ow_live : gset ActivationId;
  ow_live_poisoned : bool;
  ow_cleanup_blocked : bool;
  ow_uncertain_clipboard : bool;
}.
Definition owner_new : SharedActivationOwner := mkOwner false 0 false ∅ false false false.

(** [shared_owner]: the registry of the process, keyed by the path of the store.  The handle a
    service keeps is the key, so that services with the same key share the owner. *)
Definition shared_owner (store_path : PathBuf) (registry : gmap PathBuf SharedActivationOwner)
    : PathBuf * gmap PathBuf SharedActivationOwner :=
  (store_path, match registry !! store_path with
               | Some _ => registry
               | None => <[store_path := owner_new]> registry
               end).

(** Field updates. *)
Definition set_live (live : gset ActivationId) (o : SharedActivationOwner) :=
  mkOwner (ow_recovered o) (ow_recovery_runs o) (ow_recovery_poisoned o) live
    (ow_live_poisoned o) (ow_cleanup_blocked o) (ow_uncertain_clipboard o).
Definition set_cleanup_blocked (o : SharedActivationOwner) :=
  mkOwner (ow_recovered o) (ow_recovery_runs o) (ow_recovery_poisoned o) (ow_live o)
    (ow_live_poisoned o) true (ow_uncertain_clipboard o).
Definition set_uncertain_clipboard (o : SharedActivationOwner) :=
  mkOwner (ow_recovered o) (ow_recovery_runs o) (ow_recovery_poisoned o) (ow_live o)
    (ow_live_poisoned o) (ow_cleanup_blocked o) true.
Definition set_recovered (o : SharedActivationOwner) :=
  mkOwner true (ow_recovery_runs o + 1) (ow_recovery_poisoned o) (ow_live o)
    (ow_live_poisoned o) (ow_cleanup_blocked o) (ow_uncertain_clipboard o).

(** ** Startup recovery *)

(** The path operations and [fs::read_dir] of the cache directory. *)
Class CacheFs (FS : Type) := {
  path_join : PathBuf → rstr → PathBuf;
  (** [path.file_name().and_then(OsStr::to_str)] *)
  path_file_name : PathBuf → option rstr;
  (** [Path] equality, which compares components. *)
  path_eqb : PathBuf → PathBuf → bool;
  cache_read_dir : PathBuf → St FS IoError (list (result IoError PathBuf));
}.

Section recovery.
Context {FS : Type} `{!StagingFs FS} `{!CacheFs FS} `{!RedbIter} `{!UuidText}.
Context `{!Json ActivationJournalEntry} `{!Json ClipboardCacheRecord}.

(** What a receiver of the process sees: the owner and the world of its store. *)
Record Proc := mkProc { pr_owner : SharedActivationOwner; pr_world : World FS }.

Definition on_world {E T} (m : St (World FS) E T) : St Proc E T := λ p,
  let '(r, w) := m (pr_world p) in (r, mkProc (pr_owner p) w).
Definition update_owner {E} (f : SharedActivationOwner → SharedActivationOwner)
    : St Proc E () := st_modify (λ p, mkProc (f (pr_owner p)) (pr_world p)).
Definition on_fs {T} (op : St FS IoError T) : St (World FS) IoError T := λ w,
  let '(r, fs) := op (w_fs w) in (r, mkWorld (w_db w) (w_faults w) fs).

(** [|error| std::io::Error::other(error.to_string())] *)
Definition io_other (error : StoreError) : IoError :=
  mkIoError OtherKind (store_error_to_string error).
Definition service_owned (error : StoreError) : NetError :=
  FetchServiceOwned (store_error_to_string error).

Definition candidate_name (path : PathBuf) : bool :=
  match path_file_name path with
  | Some name => starts_with (str "candidate-") name
  | None => false
  end.
Definition indexed (record : option ClipboardCacheRecord) (path : PathBuf) : bool :=
  match record with Some r => path_eqb (cc_payload_path r) path | None => false end.

(** The loop over the directory entries. *)
Fixpoint remove_unindexed (completed in_flight : option ClipboardCacheRecord)
    (entries : list (result IoError PathBuf)) : St (World FS) IoError () :=
  match entries with
  | [] => mret ()
  | entry :: rest =>
      path ← st_lift entry;
      (if negb (candidate_name path) then mret ()
       else if indexed completed path || indexed in_flight path then mret ()
       else on_fs (staging_remove_tree path));;
      remove_unindexed completed in_flight rest
  end.

Definition cleanup_unindexed_cache_objects (state_root : PathBuf) : St (World FS) IoError () :=
  let cache_root := path_join state_root (str "clipboard-cache") in
  completed ← st_map_err io_other (get_clipboard_cache Cache_Completed);
  in_flight ← st_map_err io_other (get_clipboard_cache Cache_InFlight);
  entries ← st_try (on_fs (cache_read_dir cache_root));
  match entries with
  | Ok entries => remove_unindexed completed in_flight entries
  | Err error =>
      if bool_decide (io_kind error = NotFound) then mret () else st_err error
  end.

(** [FetchReceiver::startup_cleanup] *)
Definition receiver_startup_cleanup (state_root : PathBuf) : St Proc NetError () :=
  outcome ← st_try (on_world startup_cleanup);
  match outcome with
  | Err error => update_owner set_cleanup_blocked;; st_err (service_owned error)
  | Ok _ =>
      uncertain ← st_map_err service_owned (on_world has_uncertain_side_effect);
      (if uncertain : bool then update_owner set_uncertain_clipboard else mret ());;
      outcome ← st_try (on_world (cleanup_unindexed_cache_objects state_root));
      match outcome with
      | Err error => update_owner set_cleanup_blocked;; st_err (FetchServiceOwned (io_message error))
      | Ok _ => mret ()
      end
  end.

(** [ActivationService::recover], under the recovery lock. *)
Definition recover (state_root : PathBuf) : St Proc NetError () :=
  p ← st_get;
  if ow_recovery_poisoned (pr_owner p)
  then st_err (FetchServiceOwned (str "activation recovery lock is poisoned"))
  else if ow_recovered (pr_owner p) then mret ()
  else receiver_startup_cleanup state_root;; update_owner set_recovered.

(** ** Activations *)

(** The section of [activate] under the live lock: an early refusal, or admission. *)
Definition admit_activation (request_id : ActivationId)
    : St Proc NetError (option ActivationOutcome) :=
  p ← st_get;
  let live := ow_live (pr_owner p) in
  if ow_live_poisoned (pr_owner p)
  then st_err (FetchServiceOwned (str "activation lock is poisoned"))
  else if bool_decide (request_id ∈ live)
  then mret (Some (Outcome_Refused Refuse_DuplicateActivation))
  else if MAX_CONCURRENT_ACTIVATIONS <=? Z.of_nat (size live)
  then mret (Some (Outcome_Refused Refuse_Busy))
  else update_owner (set_live ({[request_id]} ∪ live));; mret None.

(** What [activate] does when its fetch has returned. *)
Definition release_activation (request_id : ActivationId) : St Proc NetError () :=
  p ← st_get;
  if ow_live_poisoned (pr_owner p) then mret ()
  else update_owner (set_live (ow_live (pr_owner p) ∖ {[request_id]})).

(** [ActivationService::activate], around the fetch it awaits. *)
Definition activate (state_root : PathBuf) (fetch : St Proc NetError ActivationOutcome)
    (request_id : ActivationId) : St Proc NetError ActivationOutcome :=
  recover state_root;;
  refusal ← admit_activation request_id;
  match refusal with
  | Some outcome => mret outcome
  | None =>
      outcome ← st_try fetch;
      release_activation request_id;;
      st_lift outcome
  end.

(** ** The service as a transition system

    The futures of [activate] in flight, each between [recover] and the admission or at the
    await of its fetch.  Each section under a lock is one step, and steps of different futures
    interleave.  While a fetch runs, its receiver changes the world and may set the two flags
    of the owner.  [drops] says whether futures may be dropped by their caller. *)

Inductive Phase := Admitting | Fetching.
#[export] Instance Phase_eq_dec : EqDecision Phase.
Proof. solve_decision. Defined.

Record Service := mkService {
  sv_proc : Proc;
  sv_futures : list (ActivationId * Phase);
}.

(** The flags a receiver may set. *)
Definition mark_owner (blocked uncertain : bool) (o : SharedActivationOwner) :=
  mkOwner (ow_recovered o) (ow_recovery_runs o) (ow_recovery_poisoned o) (ow_live o)
    (ow_live_poisoned o) (ow_cleanup_blocked o || blocked)
    (ow_uncertain_clipboard o || uncertain).

Inductive service_step (state_root : PathBuf) (drops : bool) : Service → Service → Prop :=
| step_recovered p p' futures id :
    recover state_root p = (Ok (), p') →
    service_step state_root drops (mkService p futures) (mkService p' ((id, Admitting) :: futures))
| step_recovery_failed p p' futures e :
    recover state_root p = (Err e, p') →
    service_step state_root drops (mkService p futures) (mkService p' futures)
| step_admitted p p' before id after :
    admit_activation id p = (Ok None, p') →
    service_step state_root drops (mkService p (before ++ (id, Admitting) :: after))
      (mkService p' (before ++ (id, Fetching) :: after))
| step_refused p p' before id after r :
    admit_activation id p = (r, p') → r ≠ Ok None →
    service_step state_root drops (mkService p (before ++ (id, Admitting) :: after))
      (mkService p' (before ++ after))
| step_fetching o w w' blocked uncertain futures id :
    (id, Fetching) ∈ futures →
    service_step state_root drops (mkService (mkProc o w) futures)
      (mkService (mkProc (mark_owner blocked uncertain o) w') futures)
| step_finished p before id after :
    service_step state_root drops (mkService p (before ++ (id, Fetching) :: after))
      (mkService (release_activation id p).2 (before ++ after))
| step_dropped p before future after :
    drops = true →
    service_step state_root drops (mkService p (before ++ future :: after))
      (mkService p (before ++ after)).

(** The activations at their await. *)
Definition fetching (futures : list (ActivationId * Phase)) : list ActivationId :=
  omap (λ f, if bool_decide (f.2 = Fetching) then Some f.1 else None) futures.

Definition service_new (w : World FS) : Service := mkService (mkProc owner_new w) [].
End recovery.
Arguments Proc : clear implicits.
Arguments Service : clear implicits.

(** ** Properties *)

Section recovery_lemmas.
Context {FS : Type} `{!StagingFs FS} `{!CacheFs FS} `{!RedbIter} `{!UuidText}.
Context `{!Json ActivationJournalEntry} `{!Json ClipboardCacheRecord}.
Implicit Types (p : Proc FS) (o : SharedActivationOwner).

(** The fields of the owner that recovery and the fetches leave alone. *)
Definition admission_state o : bool * Z * bool * gset ActivationId * bool :=
  (ow_recovered o, ow_recovery_runs o, ow_recovery_poisoned o, ow_live o, ow_live_poisoned o).
Definition admission_same : relation (Proc FS) := same_on (λ p, admission_state (pr_owner p)).

Lemma keeps_on_world {E T} (m : St (World FS) E T) : keeps admission_same (on_world m).
Proof. intros p. unfold on_world. by destruct (m (pr_world p)). Qed.
Lemma keeps_update_owner {E} f :
  (∀ o, admission_state (f o) = admission_state o) →
  keeps admission_same (update_owner (FS := FS) (E := E) f).
Proof. intros Hf p. unfold admission_same, same_on. simpl. by rewrite Hf. Qed.

#[local] Hint Resolve keeps_on_world : keeps.
#[local] Hint Extern 1 (keeps _ (update_owner _)) => apply keeps_update_owner; done : keeps.

Lemma keeps_receiver_cleanup state_root :
  keeps admission_same (receiver_startup_cleanup state_root).
Proof. unfold receiver_startup_cleanup. keeps_tac. Qed.

(** What [recover] does to the fields that decide admission, on every outcome. *)
Lemma recover_admission state_root p r p' :
  recover state_root p = (r, p') →
  let o := pr_owner p in let o' := pr_owner p' in
  ow_live o' = ow_live o ∧ ow_live_poisoned o' = ow_live_poisoned o ∧
  (r = Ok () → ow_recovered o' = true) ∧
  (ow_recovered o = true → ow_recovered o' = true) ∧
  (ow_recovery_runs o = (if ow_recovered o then 1 else 0) →
   ow_recovery_runs o' = (if ow_recovered o' then 1 else 0)).
Proof.
  unfold recover. intros Hrun. unfold mbind at 1, st_bind at 1, st_get in Hrun.
  destruct (ow_recovery_poisoned (pr_owner p)) eqn:Hpoison; [by injection Hrun as <- <-|].
  destruct (ow_recovered (pr_owner p)) eqn:Hrec.
  { injection Hrun as <- <-. by rewrite Hrec. }
  unfold mbind, st_bind in Hrun. pose proof (keeps_receiver_cleanup state_root p) as Hk.
  destruct (receiver_startup_cleanup state_root p) as [[u|e] p1]; simpl in *;
    unfold admission_same, same_on, admission_state in Hk; injection Hk as Hr Hn Hp Hl Hlp;
    injection Hrun as <- <-; simpl.
  - rewrite Hl, Hlp, Hn. naive_solver lia.
  - rewrite Hr, Hl, Hlp, Hn, Hrec. done.
Qed.

(** [admit_activation], by outcome. *)
Lemma admit_activation_spec id p r p' :
  admit_activation id p = (r, p') →
  let live := ow_live (pr_owner p) in
  pr_world p' = pr_world p ∧
  ((ow_live_poisoned (pr_owner p) = true ∧ p' = p ∧ ∃ e, r = Err e) ∨
   (ow_live_poisoned (pr_owner p) = false ∧ id ∈ live ∧ p' = p ∧
    r = Ok (Some (Outcome_Refused Refuse_DuplicateActivation))) ∨
   (ow_live_poisoned (pr_owner p) = false ∧ id ∉ live ∧ (2 ≤ size live)%nat ∧ p' = p ∧
    r = Ok (Some (Outcome_Refused Refuse_Busy))) ∨
   (ow_live_poisoned (pr_owner p) = false ∧ id ∉ live ∧ (size live < 2)%nat ∧ r = Ok None ∧
    pr_owner p' = set_live ({[id]} ∪ live) (pr_owner p))).
Proof.
  unfold admit_activation, MAX_CONCURRENT_ACTIVATIONS. intros Hrun.
  unfold mbind at 1, st_bind at 1, st_get in Hrun. cbv zeta in *.
  destruct (ow_live_poisoned (pr_owner p)).
  { injection Hrun as <- <-. split; [done|]. left. eauto. }
  case_bool_decide as Hin; [injection Hrun as <- <-; split; [done|]; naive_solver|].
  destruct (Z.leb_spec 2 (Z.of_nat (size (ow_live (pr_owner p))))).
  { injection Hrun as <- <-. split; [done|]. do 2 right. left. split_and!; [done..|lia|done|done]. }
  injection Hrun as <- <-. split; [done|]. do 3 right. split_and!; [done..|lia|done|done].
Qed.

Lemma release_activation_live id p :
  ow_live_poisoned (pr_owner p) = false →
  pr_owner (release_activation id p).2 = set_live (ow_live (pr_owner p) ∖ {[id]}) (pr_owner p).
Proof.
  intros Hp. unfold release_activation, mbind, st_bind, st_get. by rewrite Hp.
Qed.
End recovery_lemmas.

Section service_theorems.
Context {FS : Type} `{!StagingFs FS} `{!CacheFs FS} `{!RedbIter} `{!UuidText}.
Context `{!Json ActivationJournalEntry} `{!Json ClipboardCacheRecord}.
Context (state_root : PathBuf).
Implicit Types (s : Service FS) (futures : list (ActivationId * Phase)).

Definition sv_owner s : SharedActivationOwner := pr_owner (sv_proc s).
Definition sv_live s : gset ActivationId := ow_live (sv_owner s).
Definition live_fetches s : gset ActivationId := list_to_set (fetching (sv_futures s)).

Lemma fetching_app f1 f2 : fetching (f1 ++ f2) = fetching f1 ++ fetching f2.
Proof. apply omap_app. Qed.
Lemma elem_of_fetching futures id : id ∈ fetching futures ↔ (id, Fetching) ∈ futures.
Proof.
  unfold fetching. rewrite list_elem_of_omap. split.
  - intros ([id' ph] & Hin & Hf). simpl in Hf. case_bool_decide; naive_solver.
  - intros Hin. exists (id, Fetching). done.
Qed.

(** The invariant of the service.  [drops] is whether futures may have been dropped. *)
Record service_inv (drops : bool) s : Prop := {
  si_unpoisoned : ow_live_poisoned (sv_owner s) = false;
  si_runs : ow_recovery_runs (sv_owner s) = (if ow_recovered (sv_owner s) then 1 else 0);
  si_recovered : sv_futures s ≠ [] → ow_recovered (sv_owner s) = true;
  si_nodup : NoDup (fetching (sv_futures s));
  si_bound : (size (sv_live s) ≤ 2)%nat;
  si_live : live_fetches s ⊆ sv_live s;
  si_exact : drops = false → sv_live s = live_fetches s;
}.

Lemma service_inv_new w drops : service_inv drops (service_new w).
Proof. split; try done; try apply NoDup_nil_2; set_solver. Qed.

(** A future before its admission neither holds a slot nor a fetch. *)
Lemma fetching_middle before id ph after :
  fetching (before ++ (id, ph) :: after) =
    fetching before ++ (if bool_decide (ph = Fetching) then [id] else []) ++ fetching after.
Proof. rewrite fetching_app. simpl. by case_bool_decide. Qed.

(** Futures may leave the list as long as their slots do, or stay behind as leaks. *)
Lemma service_inv_shrink drops p futures p' futures' :
  service_inv drops (mkService p futures) →
  ow_live_poisoned (pr_owner p') = false →
  ow_recovered (pr_owner p') = ow_recovered (pr_owner p) →
  ow_recovery_runs (pr_owner p') = ow_recovery_runs (pr_owner p) →
  (futures' ≠ [] → futures ≠ []) → sublist (fetching futures') (fetching futures) →
  ow_live (pr_owner p') ⊆ ow_live (pr_owner p) →
  live_fetches (mkService p' futures') ⊆ ow_live (pr_owner p') →
  (drops = false → ow_live (pr_owner p') ⊆ live_fetches (mkService p' futures')) →
  service_inv drops (mkService p' futures').
Proof.
  intros [Hpo Hruns Hrec Hnd Hb Hl He] Hpo' Hrec' Hruns' Hfs Hsub Hlive Hl' He'.
  unfold sv_live, sv_owner in *; simpl in *.
  split; unfold sv_live, sv_owner; simpl; try done.
  - by rewrite Hrec', Hruns'.
  - intros ?. rewrite Hrec'. auto.
  - by eapply sublist_NoDup.
  - etrans; [by apply subseteq_size | done].
  - intros Hd. apply set_eq. set_solver.
Qed.

Lemma service_step_inv drops s s' :
  service_step state_root drops s s' → service_inv drops s → service_inv drops s'.
Proof.
  intros Hstep Hinv. pose proof Hinv as [Hpo Hruns Hrec Hnd Hb Hl He].
  destruct Hstep as [p p' futures id Hrun|p p' futures e Hrun|p p' before id after Hadm
    |p p' before id after r Hadm Hr|o w w' blocked uncertain futures id Hin
    |p before id after|p before [id ph] after Hd];
    unfold sv_live, sv_owner in *; simpl in *.
  - apply recover_admission in Hrun as (Hlive & Hlp & Hok & _ & Hn).
    split; unfold sv_live, sv_owner; simpl; rewrite ?Hlive, ?Hlp; auto.
  - apply recover_admission in Hrun as (Hlive & Hlp & _ & Hok & Hn).
    split; unfold sv_live, sv_owner; simpl; rewrite ?Hlive, ?Hlp; auto.
  - apply admit_activation_spec in Hadm as (_ & Hcase).
    destruct Hcase as [(? & _)|[(_ & _ & _ & ?)|[(_ & _ & _ & _ & ?)|(_ & Hid & Hsz & _ & Ho)]]];
      [congruence|done|done|].
    assert (ow_recovered (pr_owner p) = true) by (apply Hrec; by destruct before).
    unfold live_fetches in *; simpl in *. rewrite fetching_middle in *. simpl in *.
    split; unfold sv_live, sv_owner, live_fetches; simpl; rewrite ?Ho; simpl; try done.
    + rewrite fetching_middle. simpl. apply NoDup_app in Hnd as (N1 & N2 & N3).
      apply NoDup_app. split_and!; [done| |apply NoDup_cons; split; [|done]].
      * intros x Hx [->|?]%elem_of_cons; [set_solver | by eapply N2].
      * set_solver.
    + rewrite size_union by set_solver. rewrite size_singleton. lia.
    + rewrite fetching_middle. set_solver.
    + intros Hd. rewrite fetching_middle, (He Hd). set_solver.
  - apply admit_activation_spec in Hadm as (_ & Hcase).
    assert (p' = p) as ->.
    { destruct Hcase as [(_ & ? & _)|[(_ & _ & ? & _)|[(_ & _ & _ & ? & _)|(_ & _ & _ & ? & _)]]];
        done. }
    unfold live_fetches in *; simpl in *. rewrite fetching_middle in *. simpl in *.
    eapply service_inv_shrink; [exact Hinv|done..| | |done| |]; unfold live_fetches; simpl;
      rewrite ?fetching_middle, ?fetching_app; simpl; [by destruct before|done|done|].
    intros Hd. by rewrite (He Hd).
  - by split.
  - unfold live_fetches in *; simpl in *. rewrite fetching_middle in *. simpl in *.
    apply NoDup_app in Hnd as (_ & N2 & [N3 _]%NoDup_cons).
    eapply service_inv_shrink; [exact Hinv|rewrite ?release_activation_live by done; try done..].
    + by destruct before.
    + rewrite fetching_middle, fetching_app. simpl.
      apply sublist_app; [done|]. by constructor.
    + simpl. set_solver.
    + unfold live_fetches; simpl. rewrite fetching_app. set_solver.
    + unfold live_fetches; simpl. rewrite fetching_app. intros Hd. rewrite (He Hd). set_solver.
  - eapply service_inv_shrink; [exact Hinv|done..| | |done| |intros; congruence];
      unfold live_fetches in *; simpl in *; rewrite ?fetching_middle, ?fetching_app in *.
    + by destruct before.
    + apply sublist_app; [done|]. apply sublist_inserts_l. done.
    + set_solver.
Qed.

Lemma reachable_service_inv drops w s :
  rtc (service_step state_root drops) (service_new w) s → service_inv drops s.
Proof.
  intros Hsteps. assert (service_inv drops (service_new w)) as Hinv by apply service_inv_new.
  revert Hinv. induction Hsteps as [|s1 s2 s3 Hstep _ IH]; [done|].
  intros Hinv. apply IH. by eapply service_step_inv.
Qed.

(** C15: whatever the interleaving of activations, failures and dropped futures, at most two
    fetches run at a time, never two for the same activation; each holds a slot of the
    shared set; recovery ran at most once, and before the first activation got past it.  If
    no future was ever dropped, the set holds exactly the running fetches. *)
Theorem reachable_service drops w s :
  rtc (service_step state_root drops) (service_new w) s →
  NoDup (fetching (sv_futures s)) ∧ (length (fetching (sv_futures s)) ≤ 2)%nat ∧
  live_fetches s ⊆ sv_live s ∧ (size (sv_live s) ≤ 2)%nat ∧
  ow_recovery_runs (sv_owner s) ≤ 1 ∧
  (sv_futures s ≠ [] → ow_recovered (sv_owner s) = true ∧ ow_recovery_runs (sv_owner s) = 1) ∧
  (drops = false → sv_live s = live_fetches s).
Proof.
  intros [_ Hruns Hrec Hnd Hb Hl He]%reachable_service_inv. split_and!; try done.
  - etrans; [|exact Hb]. etrans; [|by apply subseteq_size].
    unfold live_fetches. by rewrite size_list_to_set.
  - rewrite Hruns. by destruct (ow_recovered _).
  - intros Hf. rewrite Hruns. by rewrite (Hrec Hf).
Qed.

(** Slots whose future is gone. *)
Definition leaked s : gset ActivationId := sv_live s ∖ live_fetches s.

Lemma leaked_monotone drops s s' :
  service_step state_root drops s s' → service_inv drops s → leaked s ⊆ leaked s'.
Proof.
  intros Hstep [Hpo _ _ Hnd _ Hl _].
  unfold leaked, live_fetches, sv_live, sv_owner in *.
  destruct Hstep as [p p' futures id Hrun|p p' futures e Hrun|p p' before id after Hadm
    |p p' before id after r Hadm Hr|o w w' blocked uncertain futures id Hin
    |p before id after|p before [id ph] after Hd]; simpl in *.
  - apply recover_admission in Hrun as (-> & _). done.
  - apply recover_admission in Hrun as (-> & _). done.
  - apply admit_activation_spec in Hadm as (_ & Hcase).
    destruct Hcase as [(? & _)|[(_ & _ & _ & ?)|[(_ & _ & _ & _ & ?)|(_ & Hid & _ & _ & Ho)]]];
      [congruence|done|done|].
    rewrite Ho, !fetching_middle in *. simpl in *. set_solver.
  - apply admit_activation_spec in Hadm as (_ & Hcase).
    assert (p' = p) as ->.
    { destruct Hcase as [(_ & ? & _)|[(_ & _ & ? & _)|[(_ & _ & _ & ? & _)|(_ & _ & _ & ? & _)]]];
        done. }
    rewrite fetching_middle, fetching_app in *. done.
  - done.
  - rewrite release_activation_live by done. rewrite !fetching_middle, !fetching_app in *.
    simpl. set_solver.
  - rewrite !fetching_middle, !fetching_app in *. set_solver.
Qed.

(** a slot is released only by the future that took it.  Once the futures of two
    activations have been dropped at their await, the service never runs a fetch again:
    however it continues, every activation is refused. *)
Theorem dropped_slots_never_return w s s' id :
  rtc (service_step state_root true) (service_new w) s → size (leaked s) = 2%nat →
  rtc (service_step state_root true) s s' →
  fetching (sv_futures s') = [] ∧
  ∃ code, admit_activation id (sv_proc s') =
            (Ok (Some (Outcome_Refused code)), sv_proc s') ∧
          (code = Refuse_Busy ∨ code = Refuse_DuplicateActivation).
Proof.
  intros Hinv%reachable_service_inv Hsize Hsteps.
  assert (service_inv true s' ∧ leaked s ⊆ leaked s') as [[Hpo _ _ _ Hb Hl _] Hleak].
  { revert Hinv. clear Hsize. induction Hsteps as [s|s1 s2 s3 Hstep _ IH]; [done|].
    intros Hinv. pose proof (leaked_monotone _ _ _ Hstep Hinv).
    destruct IH as [? ?]; [by eapply service_step_inv|]. split; [done | by etrans]. }
  assert (size (leaked s') = 2%nat ∧ leaked s' = sv_live s') as [Hsize' Hlive].
  { apply subseteq_size in Hleak.
    assert (leaked s' ⊆ sv_live s') as Hsub by (unfold leaked; set_solver).
    pose proof (subseteq_size _ _ Hsub). split; [lia|].
    apply set_eq, set_equiv_subseteq. split; [done|].
    rewrite (set_subseteq_size_eq _ _ Hsub); [done|lia]. }
  split.
  - destruct (fetching (sv_futures s')) as [|x l] eqn:Hf; [done|]. exfalso.
    assert (x ∈ live_fetches s') as Hx by (unfold live_fetches; rewrite Hf; set_solver).
    assert (x ∈ leaked s') as Hx' by (rewrite Hlive; by apply Hl). unfold leaked in Hx'. set_solver.
  - destruct (admit_activation id (sv_proc s')) as [r p'] eqn:Hadm.
    apply admit_activation_spec in Hadm as (_ & Hcase). fold (sv_owner s') (sv_live s') in Hcase.
    destruct Hcase as [(? & _)|[(_ & _ & -> & ->)|[(_ & _ & _ & -> & ->)|(_ & _ & Hsz & _ & _)]]];
      [congruence|eauto..|].
    rewrite <- Hlive, Hsize' in Hsz. lia.
Qed.
End service_theorems.

Section recover_theorem.
Context {FS : Type} `{!StagingFs FS} `{!CacheFs FS} `{!RedbIter} `{!RedbIterLaws} `{!UuidText}.
Context `{!Json ActivationJournalEntry} `{!Json ClipboardCacheRecord}.
Context `{!JsonLaws ActivationJournalEntry} `{!JsonLaws ClipboardCacheRecord}.
Context `{!Json OfferSourceRecord} `{!Json OfferCardRecord}.
Context `{!JsonLaws OfferSourceRecord} `{!JsonLaws OfferCardRecord}.
Context (state_root : PathBuf).
Implicit Types (p : Proc FS).

Definition pr_db p : Db := w_db (pr_world p).
Definition pr_db_same : relation (Proc FS) := same_on pr_db.

Lemma keeps_on_fs {T} (op : St FS IoError T) : keeps db_same (on_fs op).
Proof. intros w. unfold on_fs. by destruct (op (w_fs w)). Qed.
Lemma keeps_remove_unindexed completed in_flight entries :
  keeps db_same (remove_unindexed (FS := FS) completed in_flight entries).
Proof.
  induction entries as [|entry rest IH]; simpl; [apply keeps_ret; apply _|].
  keeps_tac; try apply keeps_on_fs; done.
Qed.
Lemma keeps_cleanup_unindexed :
  keeps db_same (cleanup_unindexed_cache_objects (FS := FS) state_root).
Proof.
  unfold cleanup_unindexed_cache_objects.
  repeat (apply keeps_bind; [apply _| |intros ?]);
    try (apply keeps_map_err, keeps_get_clipboard_cache).
  - apply keeps_try, keeps_on_fs.
  - destruct x1; [apply keeps_remove_unindexed|]. keeps_tac.
Qed.

Lemma keeps_db_on_world {E T} (m : St (World FS) E T) :
  keeps db_same m → keeps pr_db_same (on_world m).
Proof.
  intros Hm p. specialize (Hm (pr_world p)). unfold on_world.
  by destruct (m (pr_world p)).
Qed.
Lemma keeps_db_owner {E} f : keeps pr_db_same (update_owner (FS := FS) (E := E) f).
Proof. intros p. done. Qed.
#[local] Hint Resolve keeps_db_owner : keeps.

(** What follows the cleanup of the journal leaves the database alone. *)
Lemma after_cleanup_same (outcome : result StoreError CleanupReport) :
  keeps pr_db_same (match outcome with
    | Err error => update_owner set_cleanup_blocked;; st_err (service_owned error)
    | Ok _ =>
        uncertain ← st_map_err service_owned (on_world (FS := FS) has_uncertain_side_effect);
        (if uncertain : bool then update_owner set_uncertain_clipboard else mret ());;
        outcome ← st_try (on_world (cleanup_unindexed_cache_objects state_root));
        match outcome with
        | Err error =>
            update_owner set_cleanup_blocked;; st_err (FetchServiceOwned (io_message error))
        | Ok _ => mret ()
        end
    end).
Proof.
  keeps_tac.
  - apply keeps_map_err, keeps_db_on_world, has_uncertain_same.
  - apply keeps_try, keeps_db_on_world, keeps_cleanup_unindexed.
Qed.

Lemma receiver_cleanup_inv p r p' :
  store_inv (pr_db p) → receiver_startup_cleanup state_root p = (r, p') →
  cleanup_inv (pr_db p) (pr_db p').
Proof.
  intros Hinv. unfold receiver_startup_cleanup, mbind at 1, st_bind at 1, st_try at 1, on_world at 1.
  destruct (startup_cleanup (pr_world p)) as [out w1] eqn:Hrun. cbn [pr_world pr_owner].
  apply startup_cleanup_inv in Hrun; [|done]. intros Hrest.
  pose proof (after_cleanup_same out (mkProc (pr_owner p) w1)) as Hs.
  rewrite Hrest in Hs. unfold pr_db_same, same_on in Hs. cbn [snd] in Hs. by rewrite Hs.
Qed.

Lemma on_world_run {E T} (m : St (World FS) E T) p r p' :
  on_world m p = (r, p') ↔
    pr_owner p' = pr_owner p ∧ m (pr_world p) = (r, pr_world p').
Proof.
  unfold on_world. destruct (m (pr_world p)) as [r1 w1], p'; simpl. naive_solver.
Qed.

(** A cleanup that succeeded: the rows left are uncertain, and the flag of the owner tells
    whether an uncertain clipboard effect is recorded. *)
Lemma receiver_cleanup_Ok p p' :
  store_inv (pr_db p) → receiver_startup_cleanup state_root p = (Ok (), p') →
  (∀ k e, journal_of (pr_db p') !! k = Some e → je_state e = State_UncertainNoReplay) ∧
  (ow_uncertain_clipboard (pr_owner p') = true ↔
     ow_uncertain_clipboard (pr_owner p) = true ∨
     (∃ k e, journal_of (pr_db p') !! k = Some e ∧ je_mode e = Mode_Clipboard) ∨
     is_Some (cache_of (pr_db p') !! CACHE_IN_FLIGHT)).
Proof.
  intros Hinv Hrun. unfold receiver_startup_cleanup in Hrun. inv_st.
  match goal with H : on_world startup_cleanup _ = (?x, ?q) |- _ =>
    rename H into Hclean, q into p1; destruct x as [report|e] end; inv_st.
  match goal with H : on_world has_uncertain_side_effect _ = (Ok ?x, _) |- _ =>
    rename H into Hunc, x into uncertain end.
  match goal with H : on_world (cleanup_unindexed_cache_objects _) ?q = (?x, _) |- _ =>
    rename H into Hcache, q into p4; destruct x as [[]|e] end; inv_st.
  apply on_world_run in Hclean as [Ho1 Hclean], Hunc as [Ho2 Hunc], Hcache as [Ho3 Hcache].
  apply startup_cleanup_Ok in Hclean as (_ & Hall & _); [|done].
  apply has_uncertain_Ok in Hunc as [Hdb2 Hunc].
  pose proof (keeps_cleanup_unindexed (pr_world p4)) as Hdb3. rewrite Hcache in Hdb3.
  unfold db_same, same_on in Hdb3. simpl in Hdb3.
  assert (pr_owner p4 = (if uncertain then set_uncertain_clipboard (pr_owner p) else pr_owner p)
          ∧ pr_db p4 = pr_db p1) as [Ho4 Hdb4].
  { unfold pr_db. destruct uncertain; unfold update_owner in *; inv_st; simpl;
      by rewrite Ho2, Ho1, Hdb2. }
  unfold pr_db in *. rewrite Hdb3, Hdb4. split; [done|].
  rewrite Ho3, Ho4.
  assert (ow_uncertain_clipboard (if uncertain then set_uncertain_clipboard (pr_owner p)
                                  else pr_owner p) = true ↔
          ow_uncertain_clipboard (pr_owner p) = true ∨ uncertain = true) as ->.
  { destruct uncertain; simpl; naive_solver. }
  rewrite Hunc. split.
  - naive_solver.
  - intros [?|[(k & e & He & Hm)|?]]; [by left| |auto].
    right; left. exists k, e. by rewrite (Hall _ _ He).
Qed.

(** C24: [recover] on a service that has not recovered.  Whatever fails, no record of an
    uncertain clipboard effect is lost and a failed recovery is not counted as one, so the
    next activation tries again; a successful one leaves only uncertain rows in the journal,
    and the owner blocks clipboard activations exactly if one of them, or an in-flight cache
    record, is a clipboard effect without a known outcome. *)
Theorem recover_spec p r p' :
  store_inv (pr_db p) → ow_recovered (pr_owner p) = false →
  ow_uncertain_clipboard (pr_owner p) = false → recover state_root p = (r, p') →
  uncertain_kept (journal_of (pr_db p)) (journal_of (pr_db p')) ∧
  ow_recovered (pr_owner p') = is_ok r ∧
  (r = Ok () →
     (∀ k e, journal_of (pr_db p') !! k = Some e → je_state e = State_UncertainNoReplay) ∧
     (ow_uncertain_clipboard (pr_owner p') = true ↔
        (∃ k e, journal_of (pr_db p') !! k = Some e ∧ je_mode e = Mode_Clipboard) ∨
        is_Some (cache_of (pr_db p') !! CACHE_IN_FLIGHT))).
Proof.
  intros Hinv Hrec Hunc Hrun. unfold recover in Hrun.
  unfold mbind at 1, st_bind at 1, st_get in Hrun. rewrite Hrec in Hrun.
  destruct (ow_recovery_poisoned (pr_owner p)) eqn:Hpoison.
  { injection Hrun as <- <-. split_and!; [apply cleanup_inv_refl | done | done]. }
  unfold mbind, st_bind in Hrun.
  destruct (receiver_startup_cleanup state_root p) as [[[]|e] p1] eqn:Hclean; simpl in Hrun;
    injection Hrun as <- <-; pose proof (receiver_cleanup_inv _ _ _ Hinv Hclean) as [Hkept _];
    (split; [exact Hkept|]).
  - split; [done|]. intros _. apply receiver_cleanup_Ok in Hclean as [Hall Hiff]; [|done].
    rewrite Hunc in Hiff. split; [exact Hall|]. simpl. naive_solver.
  - pose proof (keeps_receiver_cleanup state_root p) as Hk. rewrite Hclean in Hk.
    unfold admission_same, same_on, admission_state in Hk. injection Hk as Hr _ _ _ _.
    simpl in Hr. rewrite Hr, Hrec. done.
Qed.
End recover_theorem.

(** *** Results *)

(** An activation is reported completed only if its fetch ended without an error or
    with a receipt that says so, and uncertain exactly on an uncertain receipt; the status
    line says completed exactly then. *)
Theorem classification_faithful r :
  (classify_activation_result r = Ok Outcome_Completed ↔
     r = Ok () ∨ (∃ files bytes detail, r = Err (FetchTerminal Receipt_Completed files bytes detail))
     ∨ (∃ entries bytes detail,
          r = Err (FetchAdmissionRefused Admission_Accepted entries bytes detail))) ∧
  (classify_activation_result r = Ok Outcome_UncertainNoReplay ↔
     ∃ files bytes detail,
       r = Err (FetchTerminal Receipt_UncertainNoReplay files bytes detail)) ∧
  (∀ outcome, classify_activation_result r = Ok outcome →
     contains_str (str "completed") (desktop_status outcome) = is_completed outcome) ∧
  (∀ e, classify_activation_result r = Err e → r = Err e).
Proof.
  split_and!.
  - destruct r as [[]|[]]; try destruct code; simpl; repeat case_match; naive_solver.
  - destruct r as [[]|[]]; try destruct code; simpl; repeat case_match; naive_solver.
  - intros [|[]|[]| |] _; vm_compute; reflexivity.
  - intros e. destruct r as [[]|[]]; try destruct code; simpl; repeat case_match; naive_solver.
Qed.

(** ** Witnesses *)

Module ActivationSample.
Import StoreSample.
#[local] Existing Instances sample_uuid sample_iter sample_fs sample_iter_laws.
#[local] Existing Instances source_json card_json journal_json cache_json.
#[local] Existing Instances source_laws card_laws journal_laws' cache_laws'.

Definition sample_cache : CacheFs () := {|
  path_join p name := p ++ str "/" ++ name;
  path_file_name p := Some (str "candidate-1");
  path_eqb p q := bool_decide (p = q);
  cache_read_dir _ := mret [Ok (str "/cache/a"); Ok (str "/cache/b")];
|}.
#[local] Existing Instance sample_cache.

Definition id (n : Z) : ActivationId := mkActivationId n.
Definition state_root : PathBuf := str "/state".
Definition step_of (m : St (Proc ()) NetError ()) (p : Proc ()) : Proc () := (m p).2.
Definition idle_proc : Proc () := mkProc owner_new empty_world.
Definition recovered_proc : Proc () := step_of (recover state_root) idle_proc.
Definition admitted (n : Z) (p : Proc ()) : Proc () := (admit_activation (id n) p).2.

(** Two activations reach their await. *)
Definition two_fetches : Service () :=
  mkService (admitted 2 (admitted 1 recovered_proc)) [(id 2, Fetching); (id 1, Fetching)].
Lemma two_fetches_reachable drops :
  rtc (service_step state_root drops) (service_new empty_world) two_fetches.
Proof.
  apply rtc_l with (mkService recovered_proc [(id 1, Admitting)]).
  { apply step_recovered. vm_compute. reflexivity. }
  apply rtc_l with (mkService (admitted 1 recovered_proc) [(id 1, Fetching)]).
  { apply (step_admitted _ _ _ _ [] (id 1) []). vm_compute. reflexivity. }
  apply rtc_l with (mkService (admitted 1 recovered_proc) [(id 2, Admitting); (id 1, Fetching)]).
  { apply step_recovered. vm_compute. reflexivity. }
  apply rtc_once. apply (step_admitted _ _ _ _ [] (id 2) [(id 1, Fetching)]).
  vm_compute. reflexivity.
Qed.

Lemma reachable_service_witness :
  ∃ s, rtc (service_step state_root false) (service_new empty_world) s ∧
    length (fetching (sv_futures s)) = 2%nat ∧ sv_live s = live_fetches s.
Proof.
  exists two_fetches. pose proof (two_fetches_reachable false) as Hs.
  split; [exact Hs|]. split; [vm_compute; reflexivity|].
  apply (reachable_service state_root false _ _ Hs). reflexivity.
Defined.

(** Both are dropped; a third activation is refused. *)
Lemma dropped_slots_never_return_witness :
  let s := mkService (sv_proc two_fetches) [] in
  rtc (service_step state_root true) (service_new empty_world) s ∧
  ∃ code, admit_activation (id 3) (sv_proc s) = (Ok (Some (Outcome_Refused code)), sv_proc s).
Proof.
  intros s.
  assert (rtc (service_step state_root true) (service_new empty_world) s) as Hs.
  { etrans; [apply two_fetches_reachable|].
    apply rtc_l with (mkService (sv_proc two_fetches) [(id 1, Fetching)]).
    - apply (step_dropped _ _ _ [] _ [(id 1, Fetching)]). reflexivity.
    - apply rtc_once, (step_dropped _ _ _ [] _ []). reflexivity. }
  split; [exact Hs|].
  assert (size (leaked s) = 2%nat) as Hsize by (vm_compute; reflexivity).
  destruct (dropped_slots_never_return state_root _ s s (id 3) Hs Hsize (rtc_refl _ _))
    as (_ & code & Hadm & _).
  exists code. exact Hadm.
Defined.

(** Recovery of a store whose clipboard effect is uncertain. *)
Definition uncertain_proc : Proc () := mkProc owner_new journal_world.
Lemma recover_spec_witness :
  ∃ p', recover state_root uncertain_proc = (Ok (), p') ∧
    ow_recovered (pr_owner p') = true ∧ ow_uncertain_clipboard (pr_owner p') = true.
Proof.
  destruct (recover state_root uncertain_proc) as [[[]|e] p'] eqn:Hrun;
    [|exfalso; vm_compute in Hrun; discriminate Hrun].
  exists p'. split; [reflexivity|].
  destruct (recover_spec state_root uncertain_proc _ p' journal_world_inv eq_refl eq_refl Hrun)
    as (_ & Hrec & Hok). destruct (Hok eq_refl) as [_ Hunc]. split; [exact Hrec|].
  apply Hunc. right. vm_compute in Hrun. injection Hrun as <-. vm_compute. by eexists.
Defined.
End ActivationSample.
