(* ===== verification/Filesystem.v ===== *)
(** * The filesystem and the platform's primitives on it

    Models [crates/meshelf-platform/src/filesystem.rs] over the part of [std::fs] and
    [std::path] it uses, on Unix: a disk is a finite map from absolute paths to directories,
    regular files and symbolic links, with the contents of files behind inode numbers, so that
    a hard link and an open handle share them.  Path lookup follows symbolic links as the
    system does; every call may fail ([dk_faults]), and a failed call leaves the disk as it
    was, except that a failed write may have written a part.  The process runs in the root
    directory, so relative and absolute paths name the same places.  Permissions, timestamps and
    changes made by other processes are not modelled.  The order of [read_dir] is a
    parameter, and so are the third-party calls [renamore::rename_exclusive] and
    [FileExt::allocate] of fs2. *)

From S2P Require Import Prelude RustStr StdIo Offer Records Names OfferStore Activation.

(** ** Paths *)

(** [Path::components] without the root: empty and [.] pieces disappear. *)
Definition components (path : PathBuf) : list rstr :=
  filter (λ c, c ≠ [] ∧ c ≠ str ".") (split_char 47 path).
Definition is_absolute (path : PathBuf) : bool := starts_with_char 47 path.
(** [Path::join]: an absolute argument replaces the path. *)
Definition join (path name : PathBuf) : PathBuf :=
  if is_absolute name then name
  else if bool_decide (path = []) || ends_with_char 47 path then path ++ name
  else path ++ 47 :: name.
(** The path with the given components. *)
Definition of_components (absolute : bool) (names : list rstr) : PathBuf :=
  (if absolute : bool then [47] else []) ++ join_char 47 names.
(** [Path::parent] and [Path::file_name], up to the spelling of separators. *)
Definition parent (path : PathBuf) : option PathBuf :=
  match components path with
  | [] => None
  | names => Some (of_components (is_absolute path) (removelast names))
  end.
Definition file_name (path : PathBuf) : option rstr :=
  match last (components path) with
  | Some name => if bool_decide (name = str "..") then None else Some name
  | None => None
  end.
(** [PartialEq for Path] *)
Definition path_eq (a b : PathBuf) : bool :=
  eqb (is_absolute a) (is_absolute b) && bool_decide (components a = components b).

(** ** Disks *)

(** Where a path leads: the names from the root. *)
Notation place := (list rstr).

Inductive Node :=
| Dir
| File (inode : nat)
| Symlink (target : PathBuf).
#[export] Instance Node_eq_dec : EqDecision Node.
Proof. solve_decision. Defined.

(** What becomes of a call: a failed write has written [progress] bytes.  The system says
    [NotFound] only of what is not there, so a fault of that kind is none. *)
Inductive FsFault :=
| FsFine
| FsFails (error : IoError) (progress : nat).

Record Disk := mkDisk {
  dk_nodes : gmap place Node;
  dk_inodes : gmap nat bytes;
  dk_faults : list FsFault;
}.

(** An open file: its inode and the position of the next write. *)
Record Handle := mkHandle { hd_inode : nat; hd_position : nat }.
#[export] Instance Handle_eq_dec : EqDecision Handle.
Proof. solve_decision. Defined.

(** The root exists and is a directory. *)
Definition node_at (nodes : gmap place Node) (q : place) : option Node :=
  match q with [] => Some Dir | _ => nodes !! q end.

Definition os_not_found : IoError :=
  mkIoError NotFound (str "No such file or directory (os error 2)").
Definition os_exists : IoError := mkIoError AlreadyExists (str "File exists (os error 17)").
Definition os_not_a_directory : IoError :=
  mkIoError NotADirectory (str "Not a directory (os error 20)").
Definition os_is_a_directory : IoError :=
  mkIoError IsADirectory (str "Is a directory (os error 21)").
Definition os_not_empty : IoError :=
  mkIoError DirectoryNotEmpty (str "Directory not empty (os error 39)").
Definition os_loop : IoError :=
  mkIoError OtherKind (str "Too many levels of symbolic links (os error 40)").
Definition os_busy : IoError :=
  mkIoError OtherKind (str "Device or resource busy (os error 16)").
Definition os_not_permitted : IoError :=
  mkIoError PermissionDenied (str "Operation not permitted (os error 1)").

(** Path lookup from the directory [here]: the place a path names.  Links on the way are
    followed, at most [links] of them, and a link at the end if [follow] says so; everything
    before the last name has to be a directory. *)
Fixpoint resolve (links : nat) (nodes : gmap place Node) (follow : bool) (here todo : place)
    {struct links} : result IoError place :=
  (fix walk (here todo : place) {struct todo} : result IoError place :=
     match todo with
     | [] => Ok here
     | name :: rest =>
         if bool_decide (name = str "..") then walk (removelast here) rest
         else
           let next := here ++ [name] in
           match nodes !! next with
           | Some Dir => walk next rest
           | Some (File _) =>
               match rest with [] => Ok next | _ => Err os_not_a_directory end
           | Some (Symlink target) =>
               if negb follow && bool_decide (rest = []) then Ok next
               else
                 match links with
                 | O => Err os_loop
                 | S links =>
                     resolve links nodes follow
                       (if is_absolute target then [] else here) (components target ++ rest)
                 end
           | None => match rest with [] => Ok next | _ => Err os_not_found end
           end
     end) here todo.

Definition MAX_LINKS : nat := 40.
Definition lookup_path (follow : bool) (path : PathBuf) (d : Disk) : result IoError place :=
  resolve MAX_LINKS (dk_nodes d) follow [] (components path).

(** ** The calls of [std::fs] *)

Notation FsM := (St Disk IoError).

Definition set_nodes (nodes : gmap place Node) (d : Disk) : Disk :=
  mkDisk nodes (dk_inodes d) (dk_faults d).
Definition set_inode (i : nat) (content : bytes) (d : Disk) : Disk :=
  mkDisk (dk_nodes d) (<[i := content]> (dk_inodes d)) (dk_faults d).
Definition set_faults (faults : list FsFault) (d : Disk) : Disk :=
  mkDisk (dk_nodes d) (dk_inodes d) faults.

Definition fs_fault (d : Disk) : FsFault * Disk :=
  match dk_faults d with
  | [] => (FsFine, d)
  | FsFine :: rest => (FsFine, set_faults rest d)
  | FsFails error n :: rest =>
      (if bool_decide (io_kind error = NotFound) then FsFine else FsFails error n,
       set_faults rest d)
  end.
Definition fs_begin : FsM () := λ d,
  match fs_fault d with
  | (FsFine, d) => (Ok (), d)
  | (FsFails error _, d) => (Err error, d)
  end.
Definition fs_lookup (follow : bool) (path : PathBuf) : FsM place := λ d,
  (lookup_path follow path d, d).

Inductive FileType := Type_Dir | Type_File | Type_Symlink.
#[export] Instance FileType_eq_dec : EqDecision FileType.
Proof. solve_decision. Defined.
Definition node_type (n : Node) : FileType :=
  match n with Dir => Type_Dir | File _ => Type_File | Symlink _ => Type_Symlink end.

Definition fs_node (q : place) : FsM Node := λ d,
  (ok_or (node_at (dk_nodes d) q) os_not_found, d).

(** [fs::symlink_metadata], of which the code uses the file type. *)
Definition symlink_metadata (path : PathBuf) : FsM FileType :=
  fs_begin;;
  q ← fs_lookup false path;
  n ← fs_node q;
  mret (node_type n).

(** A name that must be free. *)
Definition fs_free (path : PathBuf) : FsM place :=
  q ← fs_lookup false path;
  d ← st_get;
  st_lift (refuse_if (bool_decide (is_Some (node_at (dk_nodes d) q))) os_exists);;
  mret q.

(** [fs::create_dir] and [OpenOptions::new().read(true).write(true).create_new(true)] *)
Definition create_dir (path : PathBuf) : FsM () :=
  fs_begin;;
  q ← fs_free path;
  st_modify (λ d, set_nodes (<[q := Dir]> (dk_nodes d)) d).
Definition open_create_new (path : PathBuf) : FsM Handle :=
  fs_begin;;
  q ← fs_free path;
  d ← st_get;
  let i := fresh (dom (dk_inodes d)) in
  st_modify (λ d, set_inode i [] (set_nodes (<[q := File i]> (dk_nodes d)) d));;
  mret (mkHandle i 0).

(** The names in a directory. *)
Definition children (nodes : gmap place Node) (q : place) : list rstr :=
  omap (λ '(p, _), match last p with
                   | Some name => if bool_decide (p = q ++ [name]) then Some name else None
                   | None => None
                   end) (map_to_list nodes).

(** [fs::remove_file], [fs::remove_dir] and [fs::hard_link].  Removing a file is never refused
    because something exists: [unlink] has no such error. *)
Definition unlink_error (error : IoError) : IoError :=
  if bool_decide (io_kind error = AlreadyExists) then mkIoError OtherKind (io_message error) else error.
Definition remove_file (path : PathBuf) : FsM () :=
  st_map_err unlink_error fs_begin;;
  q ← fs_lookup false path;
  n ← fs_node q;
  match n with
  | Dir => st_err os_is_a_directory
  | _ => st_modify (λ d, set_nodes (delete q (dk_nodes d)) d)
  end.
Definition remove_dir (path : PathBuf) : FsM () :=
  fs_begin;;
  q ← fs_lookup false path;
  n ← fs_node q;
  d ← st_get;
  match n with
  | Dir =>
      if bool_decide (q = []) then st_err os_busy
      else if bool_decide (children (dk_nodes d) q = [])
      then st_modify (λ d, set_nodes (delete q (dk_nodes d)) d)
      else st_err os_not_empty
  | _ => st_err os_not_a_directory
  end.
Definition hard_link (original link : PathBuf) : FsM () :=
  fs_begin;;
  q ← fs_lookup false original;
  n ← fs_node q;
  match n with
  | Dir => st_err os_not_permitted
  | _ =>
      q ← fs_free link;
      st_modify (λ d, set_nodes (<[q := n]> (dk_nodes d)) d)
  end.

(** [Write::write_all] on an open file: the bytes replace what lies at the position. *)
Definition write_at (content data : bytes) (position : nat) : bytes :=
  take position content ++ replicate (position - length content) Byte.x00
    ++ data ++ drop (position + length data) content.
Definition file_write_all (h : Handle) (data : bytes) : FsM Handle := λ d,
  let content d := default [] (dk_inodes d !! hd_inode h) in
  match fs_fault d with
  | (FsFine, d) =>
      (Ok (mkHandle (hd_inode h) (hd_position h + length data)),
       set_inode (hd_inode h) (write_at (content d) data (hd_position h)) d)
  | (FsFails error n, d) =>
      (Err error,
       set_inode (hd_inode h) (write_at (content d) (take n data) (hd_position h)) d)
  end.
(** [File::sync_all] *)
Definition sync_all : FsM () := fs_begin.

(** The order in which [fs::read_dir] yields the names of a directory. *)
Class ReadDirOrder := read_dir_order : list rstr → list rstr.
Class ReadDirOrderLaws `{ReadDirOrder} :=
  read_dir_order_all : ∀ names, read_dir_order names ≡ₚ names.

Definition read_dir `{ReadDirOrder} (path : PathBuf) : FsM (list rstr) :=
  fs_begin;;
  q ← fs_lookup true path;
  n ← fs_node q;
  d ← st_get;
  match n with
  | Dir => mret (read_dir_order (children (dk_nodes d) q))
  | _ => st_err os_not_a_directory
  end.

(** ** The platform's primitives *)

(** [path_error]; the path is displayed as it is spelled. *)
Definition path_error (action : rstr) (path : PathBuf) (error : IoError) : IoError :=
  mkIoError (io_kind error) (action ++ str " " ++ path ++ str ": " ++ io_message error).
Definition io_error (action : rstr) (error : IoError) : IoError :=
  mkIoError (io_kind error) (action ++ str ": " ++ io_message error).

Definition reject_reparse_metadata (path : PathBuf) (t : FileType) : result IoError () :=
  refuse_if (bool_decide (t = Type_Symlink))
    (mkIoError PermissionDenied (str "destination component is a symbolic link: " ++ path)).

Definition reject_reparse_point (path : PathBuf) : FsM FileType :=
  t ← st_map_err (path_error (str "inspect destination component") path)
        (symlink_metadata path);
  st_lift (reject_reparse_metadata path t);;
  mret t.

(** The body of the loop of [ensure_directory_tree] for the path up to a component. *)
Definition ensure_directory (current : PathBuf) : FsM () :=
  outcome ← st_try (symlink_metadata current);
  match outcome with
  | Ok t =>
      st_lift (reject_reparse_metadata current t);;
      st_lift (refuse_if (negb (bool_decide (t = Type_Dir)))
        (mkIoError AlreadyExists
           (str "destination component is not a directory: " ++ current)))
  | Err error =>
      if bool_decide (io_kind error = NotFound) then
        st_map_err (path_error (str "create destination directory") current)
          (create_dir current);;
        t ← reject_reparse_point current;
        st_lift (refuse_if (negb (bool_decide (t = Type_Dir)))
          (mkIoError OtherKind (str "created destination is not a directory: " ++ current)))
      else st_err (path_error (str "inspect destination component") current error)
  end.
(** [current.push(component)] for each component in turn. *)
Definition ancestors (path : PathBuf) : list PathBuf :=
  let names := components path in
  map (λ n, of_components (is_absolute path) (take n names)) (seq 1 (length names)).
Definition ensure_directory_tree (path : PathBuf) : FsM () :=
  st_for (ancestors path) ensure_directory.

Definition require_directory (path : PathBuf) : FsM () :=
  t ← reject_reparse_point path;
  st_lift (refuse_if (negb (bool_decide (t = Type_Dir)))
    (mkIoError InvalidInput (str "expected directory: " ++ path))).

Definition create_new_file (path : PathBuf) : FsM Handle :=
  file ← st_map_err (path_error (str "create staging file") path) (open_create_new path);
  outcome ← st_try (reject_reparse_point path);
  match outcome with
  | Ok _ => mret file
  | Err error =>
      (st_try (remove_file path) : FsM (result IoError ()));;
      st_err error
  end.

Section remove.
Context `{!ReadDirOrder}.

(** The loop body of [remove_owned_directory], where [remove] is the recursive call. *)
Definition remove_entry (remove : PathBuf → FsM ()) (path : PathBuf) (name : rstr) : FsM () :=
  st_map_err (path_error (str "read owned staging entry") path) fs_begin;;
  let child := join path name in
  t ← st_map_err (path_error (str "inspect owned staging entry") child)
        (symlink_metadata child);
  st_lift (reject_reparse_metadata child t);;
  if bool_decide (t = Type_Dir) then remove child
  else st_map_err (path_error (str "remove owned staging file") child) (remove_file child).

(** [remove_owned_directory]; [fuel] bounds the depth of the recursion. *)
Fixpoint remove_owned_directory (fuel : nat) (path : PathBuf) : FsM () :=
  match fuel with
  | O => st_err (mkIoError OtherKind (str "out of fuel"))
  | S fuel =>
      entries ← st_map_err (path_error (str "read owned staging root") path) (read_dir path);
      st_for entries (remove_entry (remove_owned_directory fuel) path);;
      st_map_err (path_error (str "remove owned staging root") path) (remove_dir path)
  end.

(** A directory is never nested deeper than the disk has nodes. *)
Definition remove_fuel (d : Disk) : nat := S (size (dk_nodes d)).

Definition remove_owned_tree (path : PathBuf) : FsM () :=
  outcome ← st_try (symlink_metadata path);
  match outcome with
  | Err error =>
      if bool_decide (io_kind error = NotFound) then mret ()
      else st_err (path_error (str "inspect owned cleanup root") path error)
  | Ok t =>
      st_lift (reject_reparse_metadata path t);;
      if bool_decide (t = Type_Dir) then
        d ← st_get;
        remove_owned_directory (remove_fuel d) path
      else st_err (mkIoError InvalidInput
             (str "owned cleanup root is not a directory: " ++ path))
  end.
End remove.

Definition sync_directory (path : PathBuf) : FsM () :=
  t ← reject_reparse_point path;
  st_lift (refuse_if (negb (bool_decide (t = Type_Dir)))
    (mkIoError InvalidInput (str "directory sync requires a directory: " ++ path)));;
  st_map_err (path_error (str "open directory for sync") path) fs_begin;;
  st_map_err (path_error (str "sync directory") path) sync_all.

(** ** The store's and the cache's filesystem *)

(** [path_exists], [remove_completion_markers] and the removal of the legacy partials in
    [migrate_legacy_state] of [crates/meshelf-store/src/v2.rs]. *)
Definition path_exists (path : PathBuf) : FsM bool :=
  outcome ← st_try (symlink_metadata path);
  mret (is_ok outcome).

Definition fs_text (error : IoError) : StoreError := mkStoreError (io_message error).

Section legacy.
Context `{!ReadDirOrder}.

Fixpoint remove_markers (directory : PathBuf) (names : list rstr) (removed : Z)
    : St Disk StoreError Z :=
  match names with
  | [] => mret removed
  | name :: rest =>
      st_map_err fs_text fs_begin;;
      let path := join directory name in
      t ← st_map_err fs_text (symlink_metadata path);
      st_lift (refuse_if (bool_decide (t = Type_Dir))
        (mkStoreError (str "legacy completion marker is a directory: " ++ path)));;
      st_map_err fs_text (remove_file path);;
      remove_markers directory rest (saturating_add U64_MAX removed 1)
  end.
Definition remove_completion_markers (directory : PathBuf) : St Disk StoreError Z :=
  outcome ← st_try (symlink_metadata directory);
  match outcome with
  | Err error =>
      if bool_decide (io_kind error = NotFound) then mret 0 else st_err (fs_text error)
  | Ok t =>
      st_map_err fs_text (reject_reparse_point directory);;
      st_lift (refuse_if (negb (bool_decide (t = Type_Dir)))
        (mkStoreError (str "legacy completion marker path is not a directory")));;
      names ← st_map_err fs_text (read_dir directory);
      remove_markers directory names 0
  end.

#[export] Instance disk_staging : StagingFs Disk := {|
  path_is_absolute := is_absolute;
  path_parent := parent;
  staging_ensure_tree := ensure_directory_tree;
  staging_create_dir := create_dir;
  staging_remove_tree := remove_owned_tree;
  legacy_remove_partials incoming :=
    let partials := join incoming (str ".meshelf-partials") in
    remove_owned_tree partials;;
    path_exists partials;; (* the value of the first assignment is overwritten *)
    path_exists partials;
  legacy_remove_markers incoming :=
    remove_completion_markers (join incoming (str ".meshelf-completed"));
|}.

#[export] Instance disk_cache : CacheFs Disk := {|
  path_join := join;
  path_file_name := file_name;
  path_eqb := path_eq;
  cache_read_dir path :=
    names ← read_dir path;
    mret (map (λ name, Ok (join path name)) names);
|}.
End legacy.

(** What [renamore] documents of [rename_exclusive]: it moves what [original] names to the
    free name [target] in one step, or fails and changes nothing. *)
Definition relocated (p q : place) (before after : gmap place Node) : Prop :=
  ∀ k, after !! k =
    match decide (q `prefix_of` k) with
    | left _ => before !! (p ++ drop (length q) k)
    | right _ => if decide (p `prefix_of` k) then None else before !! k
    end.
Class Renamore := renamore_rename_exclusive : PathBuf → PathBuf → FsM ().
Class RenamoreLaws `{Renamore} := {
  rename_Ok : ∀ original target d d',
    renamore_rename_exclusive original target d = (Ok (), d') →
    ∃ p q, lookup_path false original d = Ok p ∧ lookup_path false target d = Ok q ∧
      p ≠ [] ∧ is_Some (dk_nodes d !! p) ∧ node_at (dk_nodes d) q = None ∧
      ¬ p `prefix_of` q ∧ relocated p q (dk_nodes d) (dk_nodes d') ∧
      dk_inodes d' = dk_inodes d;
  rename_Err : ∀ original target d e d',
    renamore_rename_exclusive original target d = (Err e, d') →
    dk_nodes d' = dk_nodes d ∧ dk_inodes d' = dk_inodes d;
}.

(** What fs2 and [posix_fallocate] document of [allocate]: the file grows to the length if it
    was shorter, filled with zeros; on failure it may have grown. *)
Class Fs2 := fs2_allocate : Handle → Z → FsM ().
Class Fs2Laws `{Fs2} := {
  allocate_frame : ∀ h len d r d',
    fs2_allocate h len d = (r, d') →
    dk_nodes d' = dk_nodes d ∧ dom (dk_inodes d') = dom (dk_inodes d) ∧
    (∀ i, i ≠ hd_inode h → dk_inodes d' !! i = dk_inodes d !! i);
  allocate_Ok : ∀ h len content d d',
    fs2_allocate h len d = (Ok (), d') → dk_inodes d !! hd_inode h = Some content →
    dk_inodes d' !! hd_inode h =
      Some (content ++ replicate (Z.to_nat len - length content) Byte.x00);
}.

(** [preallocate]; an open file is a regular file. *)
Definition preallocate `{Fs2} (h : Handle) (len : Z) : FsM () :=
  st_map_err (io_error (str "inspect file for preallocation")) fs_begin;;
  st_map_err (io_error (str "preallocate regular file")) (fs2_allocate h len);;
  st_map_err (io_error (str "verify preallocated file length")) fs_begin;;
  d ← st_get;
  let resulting_length := zlen (default [] (dk_inodes d !! hd_inode h)) in
  st_lift (refuse_if (resulting_length <? len)
    (mkIoError OtherKind (str "preallocation returned a file of " ++ show_int resulting_length
       ++ str " bytes, below the declared " ++ show_int len ++ str " bytes"))).

Definition rename_exclusive_portable `{Renamore} (payload final_path : PathBuf) : FsM () :=
  reject_reparse_point payload;;
  match parent final_path with
  | Some parent => require_directory parent
  | None => mret ()
  end;;
  renamore_rename_exclusive payload final_path.

(** ** Lemmas: path text *)

(** A name a directory can hold. *)
Definition valid_name (name : rstr) : Prop :=
  name ≠ [] ∧ name ≠ str "." ∧ name ≠ str ".." ∧ 47 ∉ name.
(** The same without the exclusion of [..], which occurs in paths. *)
Definition path_name (name : rstr) : Prop := name ≠ [] ∧ name ≠ str "." ∧ 47 ∉ name.

Lemma valid_path_name name : valid_name name → path_name name.
Proof. unfold valid_name, path_name. tauto. Qed.

Lemma split_char_no_sep sep s : Forall (λ piece, sep ∉ piece) (split_char sep s).
Proof.
  induction s as [|c s IH]; simpl; [repeat constructor; set_solver|].
  destruct (Z.eqb_spec c sep) as [->|Hc]; [constructor; [set_solver|done]|].
  destruct (split_char sep s) as [|piece rest]; [repeat constructor; set_solver|].
  apply Forall_cons in IH as [Hp Hr]. constructor; [set_solver|done].
Qed.

Lemma split_char_app sep a b :
  split_char sep (a ++ sep :: b) = split_char sep a ++ split_char sep b.
Proof.
  induction a as [|c a IH]; simpl; [by rewrite Z.eqb_refl|].
  destruct (c =? sep); [by rewrite IH|]. rewrite IH.
  destruct (split_char sep a) as [|p rest] eqn:Ha; [|done].
  exfalso. destruct a as [|x a]; simpl in Ha; [done|].
  destruct (x =? sep); [done|]. by destruct (split_char sep a).
Qed.

Lemma split_char_single sep s : sep ∉ s → split_char sep s = [s].
Proof.
  induction s as [|c s IH]; simpl; [done|]. intros Hs.
  destruct (Z.eqb_spec c sep) as [->|]; [set_solver|]. rewrite IH by set_solver. done.
Qed.

Lemma components_valid path : Forall path_name (components path).
Proof.
  apply Forall_forall. intros name [[? ?] Hin]%list_elem_of_filter.
  pose proof (split_char_no_sep 47 path) as Hall. rewrite Forall_forall in Hall.
  split_and!; [done..|by apply Hall].
Qed.

Lemma components_single name : path_name name → components name = [name].
Proof.
  intros (? & ? & ?). unfold components. rewrite split_char_single by done.
  by rewrite filter_cons_True, filter_nil.
Qed.

Lemma components_app a b : components (a ++ 47 :: b) = components a ++ components b.
Proof. unfold components. by rewrite split_char_app, filter_app. Qed.

Lemma components_nil : components [] = [].
Proof. done. Qed.

Lemma join_relative name : path_name name → is_absolute name = false.
Proof.
  intros (Hne & _ & Hs). unfold is_absolute, starts_with_char.
  destruct name as [|c name]; [done|]. apply Z.eqb_neq. set_solver.
Qed.

Lemma components_join path name :
  path_name name → components (join path name) = components path ++ [name].
Proof.
  intros Hn. unfold join. rewrite join_relative by done.
  destruct (decide (path = [])) as [->|Hp].
  { rewrite bool_decide_true by done. cbn [orb app]. by rewrite components_single. }
  rewrite bool_decide_false by done. cbn [orb]. unfold ends_with_char.
  destruct (last path) as [c|] eqn:Hl; [|by apply last_None in Hl].
  destruct (Z.eqb_spec c 47) as [->|Hc].
  - apply last_Some in Hl as [a ->]. rewrite <- (assoc_L (++)). cbn [app].
    rewrite !components_app, components_nil, app_nil_r. by rewrite (components_single name).
  - by rewrite components_app, (components_single name).
Qed.

Lemma components_of_components absolute names :
  Forall path_name names → components (of_components absolute names) = names.
Proof.
  intros Hall. unfold of_components.
  assert (components (join_char 47 names) = names) as Hj.
  { induction Hall as [|n [|m rest] Hn _ IH]; [done|by apply components_single|].
    change (join_char 47 (n :: m :: rest)) with (n ++ 47 :: join_char 47 (m :: rest)).
    by rewrite components_app, IH, (components_single n). }
  destruct absolute; [|done]. change ([47] ++ join_char 47 names)
    with ([] ++ 47 :: join_char 47 names). by rewrite components_app.
Qed.

Lemma parent_components path q :
  parent path = Some q → components q = removelast (components path).
Proof.
  unfold parent. pose proof (components_valid path) as Hv.
  destruct (components path) as [|n ns] eqn:Hc; [done|]. intros [= <-].
  apply components_of_components. rewrite Forall_forall in *. intros x Hx.
  apply Hv. apply list_elem_of_In in Hx. apply list_elem_of_In.
  rewrite (app_removelast_last n) by done. apply in_or_app. by left.
Qed.

Lemma parent_join path name : path_name name →
  ∃ q, parent (join path name) = Some q ∧ components q = components path.
Proof.
  intros Hn. unfold parent. rewrite components_join by done.
  destruct (components path ++ [name]) as [|n ns] eqn:Hc; [by destruct (components path)|].
  rewrite <- Hc. eexists. split; [done|]. rewrite removelast_last.
  apply components_of_components, components_valid.
Qed.

(** ** Lemmas: lookup *)

(** The directories of a disk form a tree. *)
Record tree_ok (nodes : gmap place Node) : Prop := {
  tk_names : ∀ q n, nodes !! q = Some n → q ≠ [] ∧ Forall valid_name q;
  tk_closed : ∀ q name n, nodes !! (q ++ [name]) = Some n → node_at nodes q = Some Dir;
}.

Section lookup.
Context (nodes : gmap place Node).

Lemma resolve_nil links follow here : resolve links nodes follow here [] = Ok here.
Proof. by destruct links. Qed.

Lemma resolve_cons links follow here name rest :
  resolve links nodes follow here (name :: rest) =
  if bool_decide (name = str "..") then resolve links nodes follow (removelast here) rest
  else
    match nodes !! (here ++ [name]) with
    | Some Dir => resolve links nodes follow (here ++ [name]) rest
    | Some (File _) =>
        match rest with [] => Ok (here ++ [name]) | _ => Err os_not_a_directory end
    | Some (Symlink target) =>
        if negb follow && bool_decide (rest = []) then Ok (here ++ [name])
        else match links with
             | O => Err os_loop
             | S links => resolve links nodes follow (if is_absolute target then [] else here)
                            (components target ++ rest)
             end
    | None => match rest with [] => Ok (here ++ [name]) | _ => Err os_not_found end
    end.
Proof. by destruct links. Qed.

Lemma node_at_ne q : q ≠ [] → node_at nodes q = nodes !! q.
Proof. by destruct q. Qed.

Context (Hok : tree_ok nodes).

Lemma node_at_valid q n : node_at nodes q = Some n → Forall valid_name q.
Proof. destruct q; [done|]. intros Hq. by apply Hok in Hq as [_ ?]. Qed.

Lemma node_at_parent q : is_Some (node_at nodes q) → node_at nodes (removelast q) = Some Dir.
Proof.
  intros [n Hn]. destruct q as [|x q _] using rev_ind; [done|].
  rewrite removelast_last. eapply tk_closed; [done|].
  rewrite <- Hn. symmetry. apply node_at_ne. by destruct q.
Qed.

(** What a lookup arrives at: the directory itself, or a name in an existing directory. *)
Lemma resolve_Ok links follow here todo q :
  node_at nodes here = Some Dir → Forall path_name todo →
  resolve links nodes follow here todo = Ok q →
  node_at nodes q = Some Dir ∨
  ∃ dir name, q = dir ++ [name] ∧ valid_name name ∧ node_at nodes dir = Some Dir.
Proof.
  revert here todo. induction links as [|links IHl]; intros here todo; revert here;
    induction todo as [|name rest IH]; intros here Hdir Hall Hrun;
    try (rewrite resolve_nil in Hrun; injection Hrun as <-; by left);
    rewrite resolve_cons in Hrun; apply Forall_cons in Hall as [Hname Hall];
    case_bool_decide as Hdots;
    try (eapply IH; [eapply node_at_parent; eauto|done|exact Hrun]).
  all: assert (valid_name name) as Hv by (unfold valid_name, path_name in *; tauto).
  all: destruct (nodes !! (here ++ [name])) as [[|i|target]|] eqn:Hn.
  all: try (eapply IH; [rewrite node_at_ne; [done|by destruct here]|done|exact Hrun]).
  all: try (destruct rest; [injection Hrun as <-; right; eauto|discriminate Hrun]).
  all: destruct (negb follow && bool_decide (rest = [])); [injection Hrun as <-; right; eauto|].
  - discriminate Hrun.
  - eapply IHl in Hrun; [done| |].
    + by destruct (is_absolute target).
    + apply Forall_app. split; [apply components_valid|done].
Qed.

(** A lookup never fails because something exists. *)
Lemma resolve_kind links follow here todo e :
  resolve links nodes follow here todo = Err e → io_kind e ≠ AlreadyExists.
Proof.
  revert here todo. induction links as [|links IHl]; intros here todo; revert here;
    induction todo as [|name rest IH]; intros here Hrun; try (by rewrite resolve_nil in Hrun);
    rewrite resolve_cons in Hrun; case_bool_decide; try (by eapply IH).
  all: destruct (nodes !! (here ++ [name])) as [[|i|target]|].
  all: try (by eapply IH).
  all: try (by destruct rest; simplify_eq).
  all: destruct (negb follow && bool_decide (rest = [])); [done|].
  - by injection Hrun as <-.
  - by eapply IHl.
Qed.

(** Without a link or [..] on the way, a path leads where it says. *)
Lemma resolve_plain links follow here todo q :
  Forall valid_name todo →
  (∀ p target, p `prefix_of` todo → nodes !! (here ++ p) = Some (Symlink target) →
    p = todo ∧ follow = false) →
  resolve links nodes follow here todo = Ok q → q = here ++ todo.
Proof.
  revert here. induction todo as [|name rest IH]; intros here Hall Hno Hrun.
  { rewrite resolve_nil in Hrun. injection Hrun as <-. by rewrite app_nil_r. }
  rewrite resolve_cons in Hrun. apply Forall_cons in Hall as [(_ & _ & Hdots & _) Hall].
  rewrite bool_decide_false in Hrun by done.
  assert (here ++ name :: rest = (here ++ [name]) ++ rest) as ->.
  { rewrite <- app_assoc. done. }
  destruct (nodes !! (here ++ [name])) as [[|i|target]|] eqn:Hn.
  - apply IH; [done| |exact Hrun]. intros p target Hp Hl.
    rewrite <- (assoc_L (++)) in Hl. destruct (Hno (name :: p) target) as [[= ->] ?]; [|done|done].
    by apply prefix_cons.
  - destruct rest; [injection Hrun as <-; by rewrite app_nil_r|done].
  - destruct (Hno [name] target) as [[= <-] ->]; [by exists rest|done|].
    injection Hrun as <-. by rewrite app_nil_r.
  - destruct rest; [injection Hrun as <-; by rewrite app_nil_r|done].
Qed.

(** A name in an existing directory is found there. *)
Lemma resolve_in links follow dir name :
  node_at nodes dir = Some Dir → valid_name name →
  (∀ target, nodes !! (dir ++ [name]) = Some (Symlink target) → follow = false) →
  resolve links nodes follow [] (dir ++ [name]) = Ok (dir ++ [name]).
Proof.
  intros Hdir Hname Hno.
  assert (∀ here rest, here ++ rest = dir →
    resolve links nodes follow here (rest ++ [name]) = Ok (dir ++ [name])) as Hgen; [|by apply Hgen].
  intros here rest. revert here. induction rest as [|x rest IH]; intros here Hh.
  - rewrite app_nil_r in Hh. subst here. cbn [app]. rewrite resolve_cons.
    rewrite bool_decide_false by apply Hname.
    destruct (nodes !! (dir ++ [name])) as [[|i|target]|] eqn:Hn; rewrite ?resolve_nil; [done..| |done].
    by rewrite (Hno _ eq_refl).
  - cbn [app]. rewrite resolve_cons.
    pose proof (node_at_valid _ _ Hdir) as Hv. rewrite <- Hh, Forall_app, Forall_cons in Hv.
    destruct Hv as (_ & (_ & _ & Hx & _) & _). rewrite bool_decide_false by done.
    assert (nodes !! (here ++ [x]) = Some Dir) as ->.
    { clear IH Hno. assert (node_at nodes (here ++ [x]) = Some Dir) as <-;
        [|symmetry; apply node_at_ne; by destruct here].
      revert dir Hdir Hh. induction rest as [|y rest IH] using rev_ind; intros dir Hdir Hh.
      - by rewrite Hh.
      - apply (IH (removelast dir)).
        + apply node_at_parent. by rewrite Hdir.
        + rewrite <- Hh, app_comm_cons, (assoc_L (++)), removelast_last. done. }
    apply IH. by rewrite <- (assoc_L (++)).
Qed.

(** Everything above a node is a directory. *)
Lemma node_above p q n : nodes !! (p ++ q) = Some n → q ≠ [] → node_at nodes p = Some Dir.
Proof.
  revert n. induction q as [|x q IH] using rev_ind; intros n Hn Hq; [done|].
  rewrite (assoc_L (++)) in Hn. apply (tk_closed _ Hok) in Hn.
  destruct (decide (q = [])) as [->|Hq']; [by rewrite app_nil_r in Hn|].
  rewrite node_at_ne in Hn; [by eapply IH|]. by destruct p, q.
Qed.

Lemma elem_of_children q name : name ∈ children nodes q ↔ is_Some (nodes !! (q ++ [name])).
Proof.
  unfold children. rewrite list_elem_of_omap. split.
  - intros ([p n] & Hin & Hm). apply elem_of_map_to_list in Hin.
    destruct (last p) as [x|]; [|done]. case_bool_decide; [|done]. simplify_eq. eauto.
  - intros [n Hn]. exists (q ++ [name], n). rewrite elem_of_map_to_list. split; [done|].
    by rewrite last_snoc, bool_decide_true.
Qed.

Lemma children_valid q : Forall valid_name (children nodes q).
Proof.
  apply Forall_forall. intros name [n Hn]%elem_of_children.
  apply (tk_names _ Hok) in Hn as [_ Hv]. rewrite Forall_app, Forall_singleton in Hv. tauto.
Qed.

Lemma children_nil q p : children nodes q = [] → p ≠ [] → nodes !! (q ++ p) = None.
Proof.
  intros Hc Hp. destruct (nodes !! (q ++ p)) as [n|] eqn:Hn; [|done]. exfalso.
  destruct p as [|x p]; [done|].
  assert (is_Some (nodes !! (q ++ [x]))) as Hx.
  { destruct p as [|y p]; [by rewrite Hn|].
    change (x :: y :: p) with ([x] ++ y :: p) in Hn. rewrite (assoc_L (++)) in Hn.
    apply node_above in Hn; [|done]. rewrite node_at_ne in Hn; [by rewrite Hn|]. by destruct q. }
  apply elem_of_children in Hx. rewrite Hc in Hx. by apply elem_of_nil in Hx.
Qed.
End lookup.

(** ** Lemmas: what calls change

    A footprint says what a run may do: [roots] are the places whose trees it may remove,
    [exempt] the other nodes it may remove, [allowed] where it may create,
    [fixed] the inodes it must not write, which existed before it started, and [solid] the
    directories it relies on. *)

Definition owned (roots : list place) (q : place) : Prop := ∃ s, s ∈ roots ∧ s `prefix_of` q.
Definition on_way (roots : list place) (q : place) : Prop := ∃ s, s ∈ roots ∧ q `prefix_of` s.

Record Footprint := mkFootprint {
  fp_roots : list place;
  fp_exempt : place → Node → Prop;
  fp_allowed : place → Prop;
  fp_fixed : gset nat;
  fp_solid : list place;
  fp_solid_kept : ∀ q, q ∈ fp_solid → ¬ owned fp_roots q ∧ ¬ fp_exempt q Dir;
}.

Section changes.
Context (F : Footprint).
Notation roots := (fp_roots F).
Notation exempt := (fp_exempt F).
Notation allowed := (fp_allowed F).
Notation fixed := (fp_fixed F).
Notation solid := (fp_solid F).

Record good (d : Disk) : Prop := {
  gd_tree : tree_ok (dk_nodes d);
  gd_clean : ∀ q target, dk_nodes d !! q = Some (Symlink target) →
    ¬ owned roots q ∧ ¬ on_way roots q;
  gd_fixed : fixed ⊆ dom (dk_inodes d);
  gd_files : ∀ q i, dk_nodes d !! q = Some (File i) → i ∈ dom (dk_inodes d);
  gd_solid : ∀ q, q ∈ solid → node_at (dk_nodes d) q = Some Dir;
}.

Record changed (d d' : Disk) : Prop := {
  ch_kept : ∀ q n, dk_nodes d !! q = Some n →
    dk_nodes d' !! q = Some n ∨ owned roots q ∨ exempt q n;
  ch_inodes : ∀ i, i ∈ fixed → dk_inodes d' !! i = dk_inodes d !! i;
  ch_new : ∀ q, is_Some (dk_nodes d' !! q) → is_Some (dk_nodes d !! q) ∨ allowed q;
}.
Definition fs_step : relation Disk := λ d d', good d → good d' ∧ changed d d'.

Lemma changed_trans d1 d2 d3 : changed d1 d2 → changed d2 d3 → changed d1 d3.
Proof.
  intros [Ka Ia Na] [Kb Ib Nb]. split.
  - intros q n Hq. destruct (Ka _ _ Hq) as [Hq2|?]; [by apply Kb|by right].
  - intros i Hi. by rewrite Ib, Ia.
  - intros q Hq. destruct (Nb _ Hq) as [?|?]; [by apply Na|by right].
Qed.
#[export] Instance fs_step_preorder : PreOrder fs_step.
Proof.
  split.
  - intros d Hd. split; [done|]. split; eauto.
  - intros d1 d2 d3 H12 H23 H1. destruct (H12 H1) as [H2 ?], (H23 H2) as [H3 ?].
    split; [done|]. by eapply changed_trans.
Qed.

Lemma step_same d d' : dk_nodes d' = dk_nodes d → dk_inodes d' = dk_inodes d → fs_step d d'.
Proof.
  intros Hn Hi [Ht Hc Hf Hfi Hs]. split; [split; rewrite ?Hn, ?Hi; done|].
  split; rewrite ?Hn, ?Hi; eauto.
Qed.

Lemma step_insert d q n :
  (∃ dir name, q = dir ++ [name] ∧ valid_name name ∧ node_at (dk_nodes d) dir = Some Dir) →
  dk_nodes d !! q = None →
  (∀ target, n = Symlink target → ¬ owned roots q ∧ ¬ on_way roots q) →
  (∀ i, n = File i → i ∈ dom (dk_inodes d)) →
  allowed q → fs_step d (set_nodes (<[q := n]> (dk_nodes d)) d).
Proof.
  intros (dir & name & -> & Hname & Hdir) Hfree Hlink Hfile Hall [[Hn Hcl] Hc Hf Hfi Hs].
  split; [split; cbn [dk_nodes dk_inodes set_nodes]|split; cbn [dk_nodes dk_inodes set_nodes]].
  - split.
    + intros q m [[<- <-]|[_ Hq]]%lookup_insert_Some; [|by apply Hn in Hq].
      split; [by destruct dir|]. apply Forall_app. split; [|by apply Forall_singleton].
      eapply node_at_valid; [|exact Hdir]. by split.
    + intros q x m Hq. destruct (decide (q = [])) as [->|Hne]; [done|].
      assert (node_at (dk_nodes d) q = Some Dir) as Hd.
      { apply lookup_insert_Some in Hq as [[Heq _]|[_ Hq]]; [|by eapply Hcl].
        apply app_inj_tail in Heq as [-> _]. done. }
      rewrite node_at_ne in Hd by done; rewrite node_at_ne by done. rewrite lookup_insert_ne; [done|]. congruence.
  - intros q target [[<- ->]|[_ Hq]]%lookup_insert_Some; eauto.
  - done.
  - intros q i [[<- ->]|[_ Hq]]%lookup_insert_Some; eauto.
  - intros q Hq. specialize (Hs q Hq). destruct (decide (q = [])) as [->|Hne]; [done|].
    rewrite node_at_ne in Hs by done; rewrite node_at_ne by done. rewrite lookup_insert_ne; [done|]. congruence.
  - intros q m Hq. left. rewrite lookup_insert_ne; [done|]. congruence.
  - done.
  - intros q. destruct (decide (q = dir ++ [name])) as [->|Hne]; [by right|].
    rewrite lookup_insert_ne by done. by left.
Qed.

Lemma tree_delete nodes q :
  tree_ok nodes → (∀ p, p ≠ [] → nodes !! (q ++ p) = None) → tree_ok (delete q nodes).
Proof.
  intros [Hn Hcl] Hleaf. split.
  - intros p m [_ Hp]%lookup_delete_Some. by apply Hn in Hp.
  - intros p x m [_ Hp]%lookup_delete_Some. destruct (decide (p = [])) as [->|Hne]; [done|].
    assert (q ≠ p) by (intros <-; by rewrite Hleaf in Hp).
    apply Hcl in Hp. rewrite node_at_ne in Hp by done; rewrite node_at_ne by done. by rewrite lookup_delete_ne.
Qed.
Lemma step_delete d q n :
  dk_nodes d !! q = Some n → (∀ p, p ≠ [] → dk_nodes d !! (q ++ p) = None) →
  owned roots q ∨ exempt q n → fs_step d (set_nodes (delete q (dk_nodes d)) d).
Proof.
  intros Hq Hleaf Hown [Htree Hc Hf Hfi Hs].
  split; [split; cbn [dk_nodes dk_inodes set_nodes]|split; cbn [dk_nodes dk_inodes set_nodes]].
  - by apply tree_delete.
  - intros p target [_ Hp]%lookup_delete_Some. eauto.
  - done.
  - intros p i [_ Hp]%lookup_delete_Some. eauto.
  - intros p Hp. pose proof (Hs p Hp) as Hd. destruct (fp_solid_kept F p Hp) as [Hno Hne].
    destruct (decide (p = [])) as [->|Hp0]; [done|]. rewrite node_at_ne in Hd by done; rewrite node_at_ne by done.
    rewrite lookup_delete_ne; [done|]. intros <-. rewrite Hq in Hd. injection Hd as ->. tauto.
  - intros p m Hp. destruct (decide (q = p)) as [<-|Hne]; [|left; by rewrite lookup_delete_ne].
    right. rewrite Hq in Hp. injection Hp as <-. tauto.
  - done.
  - intros p [m [_ Hp]%lookup_delete_Some]. left. eauto.
Qed.

Lemma step_write d i content :
  i ∉ fixed → fs_step d (set_inode i content d).
Proof.
  intros Hi [Ht Hc Hf Hfi Hs].
  split; [split|split]; cbn [dk_nodes dk_inodes set_inode]; try done.
  - rewrite dom_insert. set_solver.
  - intros q j Hj. rewrite dom_insert. apply Hfi in Hj. set_solver.
  - by left.
  - intros j Hj. rewrite lookup_insert_ne; [done|]. congruence.
  - by left.
Qed.
End changes.

(** A footprint with another permission to create. *)
Definition narrow (F : Footprint) (allowed : place → Prop) : Footprint :=
  mkFootprint (fp_roots F) (fp_exempt F) allowed (fp_fixed F) (fp_solid F) (fp_solid_kept F).
Lemma good_narrow F allowed d : good F d → good (narrow F allowed) d.
Proof. intros []; by split. Qed.
Lemma good_widen F allowed d : good (narrow F allowed) d → good F d.
Proof. intros []; by split. Qed.
Lemma changed_narrow F (allowed allowed' : place → Prop) d d' :
  (∀ q, allowed q → allowed' q) → changed (narrow F allowed) d d' → changed (narrow F allowed') d d'.
Proof. intros Hall [? ? Hn]. split; [done..|]. intros q Hq. destruct (Hn q Hq); [by left|right; by apply Hall]. Qed.

(** ** Lemmas: the calls, one by one *)

Definition disk_view (d : Disk) : gmap place Node * gmap nat bytes := (dk_nodes d, dk_inodes d).
Notation disk_same := (same_on disk_view).

Lemma keeps_begin : keeps disk_same fs_begin.
Proof.
  intros d. unfold fs_begin, fs_fault. destruct (dk_faults d) as [|[|e n] ?]; [done..|].
  by case_bool_decide.
Qed.
Lemma keeps_lookup follow path : keeps disk_same (fs_lookup follow path).
Proof. by intros d. Qed.
Lemma keeps_node q : keeps disk_same (fs_node q).
Proof. by intros d. Qed.
#[export] Hint Resolve keeps_begin keeps_lookup keeps_node : keeps.
Lemma keeps_metadata path : keeps disk_same (symlink_metadata path).
Proof. unfold symlink_metadata. keeps_tac. Qed.
Lemma keeps_free path : keeps disk_same (fs_free path).
Proof. unfold fs_free. keeps_tac. Qed.
#[export] Hint Resolve keeps_metadata keeps_free : keeps.
Lemma keeps_reject path : keeps disk_same (reject_reparse_point path).
Proof. unfold reject_reparse_point. keeps_tac. Qed.
#[export] Hint Resolve keeps_reject : keeps.
Lemma keeps_require path : keeps disk_same (require_directory path).
Proof. unfold require_directory. keeps_tac. Qed.
Lemma keeps_sync path : keeps disk_same (sync_directory path).
Proof. unfold sync_directory, sync_all. keeps_tac. Qed.
Lemma keeps_read_dir `{!ReadDirOrder} path : keeps disk_same (read_dir path).
Proof. unfold read_dir. keeps_tac. Qed.
#[export] Hint Resolve keeps_require keeps_sync keeps_read_dir : keeps.

Lemma disk_same_run {E T} (m : St Disk E T) d r d' :
  keeps disk_same m → m d = (r, d') → dk_nodes d' = dk_nodes d ∧ dk_inodes d' = dk_inodes d.
Proof. intros Hk Hrun. specialize (Hk d). rewrite Hrun in Hk. by injection Hk. Qed.

Lemma lookup_path_nodes follow path d d' :
  dk_nodes d' = dk_nodes d → lookup_path follow path d' = lookup_path follow path d.
Proof. unfold lookup_path. by intros ->. Qed.

(** [same_disk H]: the run [H] of a reading call left the disk as it was. *)
Ltac same_disk H :=
  let Hk := fresh in let Hn := fresh "Hn" in let Hi := fresh "Hi" in
  match type of H with
  | ?m ?d = _ =>
      assert (keeps disk_same m) as Hk by eauto with keeps;
      destruct (disk_same_run m d _ _ Hk H) as [Hn Hi]; clear Hk
  end.

Lemma fs_lookup_run follow path d r d' :
  fs_lookup follow path d = (r, d') → r = lookup_path follow path d ∧ d' = d.
Proof. by intros [= <- <-]. Qed.
Lemma fs_node_run q d r d' :
  fs_node q d = (r, d') → r = ok_or (node_at (dk_nodes d) q) os_not_found ∧ d' = d.
Proof. by intros [= <- <-]. Qed.

Lemma fs_begin_Err d e d' : fs_begin d = (Err e, d') → io_kind e ≠ NotFound.
Proof.
  unfold fs_begin, fs_fault. destruct (dk_faults d) as [|[|e' n] ?]; [done..|].
  case_bool_decide; [done|]. by intros [= <- <-].
Qed.

Lemma symlink_metadata_Err path d e d' :
  symlink_metadata path d = (Err e, d') → io_kind e = NotFound →
  ∀ q, lookup_path false path d = Ok q → node_at (dk_nodes d) q = None.
Proof.
  unfold symlink_metadata. intros Hrun He q Hl.
  step_in Hrun as u d1 H1; [by apply fs_begin_Err in H1; congruence|]. same_disk H1.
  step_in Hrun as q' d2 H2; apply fs_lookup_run in H2 as [H2 ->];
    rewrite (lookup_path_nodes _ _ d d1 Hn) in H2; [congruence|].
  assert (q' = q) as -> by congruence. rewrite <- Hn.
  step_in Hrun as n d2 H3; apply fs_node_run in H3 as [H3 ->]; [|done].
  destruct (node_at (dk_nodes d1) q); [done|done].
Qed.

Lemma symlink_metadata_Ok path d t d' :
  symlink_metadata path d = (Ok t, d') →
  ∃ q n, lookup_path false path d = Ok q ∧ node_at (dk_nodes d) q = Some n ∧ t = node_type n.
Proof.
  unfold symlink_metadata. intros Hrun. apply st_bind_Ok in Hrun as ([] & d1 & H1 & Hrun).
  same_disk H1.
  apply st_bind_Ok in Hrun as (q & d2 & Hl & Hrun). apply fs_lookup_run in Hl as [Hl ->].
  apply st_bind_Ok in Hrun as (n & d3 & Hnode & Hrun). apply fs_node_run in Hnode as [Hnode ->].
  apply st_ret_Ok in Hrun as [-> ->]. symmetry in Hnode. apply ok_or_Ok in Hnode.
  exists q, n. rewrite <- Hn. split_and!; [|done..].
  symmetry. by rewrite <- (lookup_path_nodes _ _ d d1).
Qed.

Lemma reject_reparse_Ok path d t d' :
  reject_reparse_point path d = (Ok t, d') →
  ∃ q n, lookup_path false path d = Ok q ∧ node_at (dk_nodes d) q = Some n ∧
    t = node_type n ∧ t ≠ Type_Symlink.
Proof.
  unfold reject_reparse_point. intros Hrun. inv_st.
  match goal with H : symlink_metadata _ _ = _ |- _ =>
    apply symlink_metadata_Ok in H as (q & n & ? & ? & ->) end.
  match goal with H : reject_reparse_metadata _ _ = Ok _ |- _ =>
    apply refuse_if_Ok in H; apply bool_decide_eq_false in H end. eauto 6.
Qed.

Lemma require_directory_Ok path d d' :
  require_directory path d = (Ok (), d') →
  ∃ q, lookup_path false path d = Ok q ∧ node_at (dk_nodes d) q = Some Dir.
Proof.
  unfold require_directory. intros Hrun. inv_st.
  match goal with H : reject_reparse_point _ _ = _ |- _ =>
    apply reject_reparse_Ok in H as (q & n & ? & ? & -> & ?) end.
  match goal with H : refuse_if _ _ = Ok _ |- _ =>
    apply refuse_if_Ok, negb_false_iff, bool_decide_eq_true in H end.
  exists q. split; [done|]. by destruct n.
Qed.

Lemma fs_free_Ok path d q d' :
  fs_free path d = (Ok q, d') →
  d' = d ∧ lookup_path false path d = Ok q ∧ node_at (dk_nodes d) q = None.
Proof.
  unfold fs_free. intros Hrun. inv_st.
  match goal with H : fs_lookup _ _ _ = _ |- _ => apply fs_lookup_run in H as [? ->] end.
  match goal with H : refuse_if _ _ = Ok _ |- _ =>
    apply refuse_if_Ok, bool_decide_eq_false in H; apply eq_None_not_Some in H end. eauto.
Qed.

(** The calls that change the disk: either they fail and change nothing, or they make one
    change at the place the path leads to. *)
Definition unchanged (d d' : Disk) : Prop :=
  dk_nodes d' = dk_nodes d ∧ dk_inodes d' = dk_inodes d.

Lemma create_dir_run path d r d' :
  create_dir path d = (r, d') →
  (∃ e, r = Err e ∧ unchanged d d') ∨
  (r = Ok () ∧ ∃ q, lookup_path false path d = Ok q ∧ node_at (dk_nodes d) q = None ∧
     dk_nodes d' = <[q := Dir]> (dk_nodes d) ∧ dk_inodes d' = dk_inodes d).
Proof.
  unfold create_dir. intros Hrun. step_in Hrun as u d1 H1; same_disk H1; [left; by eexists|].
  step_in Hrun as q d2 H2; same_disk H2; [left; eexists; split; [done|]; split; congruence|].
  right. injection Hrun as <- <-. split; [done|].
  apply fs_free_Ok in H2 as (-> & Hl & Hfree). exists q. simpl. rewrite <- Hn, <- Hi.
  by rewrite <- (lookup_path_nodes _ _ d d1).
Qed.

Lemma open_create_new_run path d r d' :
  open_create_new path d = (r, d') →
  (∃ e, r = Err e ∧ unchanged d d') ∨
  ∃ q, r = Ok (mkHandle (fresh (dom (dk_inodes d))) 0) ∧
    lookup_path false path d = Ok q ∧ node_at (dk_nodes d) q = None ∧
    dk_nodes d' = <[q := File (fresh (dom (dk_inodes d)))]> (dk_nodes d) ∧
    dk_inodes d' = <[fresh (dom (dk_inodes d)) := []]> (dk_inodes d).
Proof.
  unfold open_create_new. intros Hrun. step_in Hrun as u d1 H1; same_disk H1; [left; by eexists|].
  step_in Hrun as q d2 H2; same_disk H2; [left; eexists; split; [done|]; split; congruence|].
  right. apply fs_free_Ok in H2 as (-> & Hl & Hfree). exists q.
  injection Hrun as <- <-. simpl. rewrite Hn, Hi. rewrite <- Hn at 1.
  by rewrite <- (lookup_path_nodes _ _ d d1).
Qed.

Lemma unlink_begin_Err d e d' :
  st_map_err unlink_error fs_begin d = (Err e, d') →
  io_kind e ≠ NotFound ∧ io_kind e ≠ AlreadyExists ∧ unchanged d d'.
Proof.
  intros Hrun. same_disk Hrun. apply st_map_err_inv in Hrun as ([u|e1] & Hrun & [=]). subst e.
  apply fs_begin_Err in Hrun. unfold unlink_error. case_bool_decide; [|done]. done.
Qed.
Lemma remove_file_run path d r d' :
  remove_file path d = (r, d') →
  (∃ e, r = Err e ∧ unchanged d d') ∨
  (r = Ok () ∧ ∃ q n, lookup_path false path d = Ok q ∧ dk_nodes d !! q = Some n ∧ n ≠ Dir ∧
     dk_nodes d' = delete q (dk_nodes d) ∧ dk_inodes d' = dk_inodes d).
Proof.
  unfold remove_file. intros Hrun. step_in Hrun as u d1 H1; same_disk H1; [left; by eexists|].
  step_in Hrun as q d2 H2; apply fs_lookup_run in H2 as [H2 ->]; [left; by eexists|].
  step_in Hrun as n d2 H3; apply fs_node_run in H3 as [H3 ->]; [left; by eexists|].
  symmetry in H2, H3. apply ok_or_Ok in H3. rewrite (lookup_path_nodes _ _ d d1) in H2 by done.
  destruct n; injection Hrun as <- <-; [left; by eexists|right..].
  all: split; [done|]; exists q; eexists; rewrite <- Hn, <- Hi.
  all: destruct q; [done|]; split_and!; [done|exact H3|done..].
Qed.

Lemma remove_file_not_exists path d e d' :
  remove_file path d = (Err e, d') → io_kind e ≠ AlreadyExists.
Proof.
  unfold remove_file. intros Hrun. step_in Hrun as u d1 H1; [by apply unlink_begin_Err in H1 as (_ & ? & _)|].
  step_in Hrun as q d2 H2; apply fs_lookup_run in H2 as [H2 ->];
    [symmetry in H2; by eapply resolve_kind|].
  step_in Hrun as n d2 H3; apply fs_node_run in H3 as [H3 ->];
    [unfold ok_or in H3; destruct (node_at _ _) in H3; [done|by injection H3 as ->]|].
  destruct n; [by injection Hrun as <- _|done..].
Qed.

Lemma remove_dir_run path d r d' :
  remove_dir path d = (r, d') →
  (∃ e, r = Err e ∧ unchanged d d') ∨
  (r = Ok () ∧ ∃ q, lookup_path false path d = Ok q ∧ dk_nodes d !! q = Some Dir ∧
     children (dk_nodes d) q = [] ∧
     dk_nodes d' = delete q (dk_nodes d) ∧ dk_inodes d' = dk_inodes d).
Proof.
  unfold remove_dir. intros Hrun. step_in Hrun as u d1 H1; same_disk H1; [left; by eexists|].
  step_in Hrun as q d2 H2; apply fs_lookup_run in H2 as [H2 ->]; [left; by eexists|].
  step_in Hrun as n d2 H3; apply fs_node_run in H3 as [H3 ->]; [left; by eexists|].
  symmetry in H2, H3. apply ok_or_Ok in H3. rewrite (lookup_path_nodes _ _ d d1) in H2 by done.
  step_in Hrun as d2 d3 H4; [done|]. apply st_get_Ok in H4 as [-> ->].
  destruct n; [|injection Hrun as <- <-; left; by eexists..].
  case_bool_decide; [injection Hrun as <- <-; left; by eexists|].
  case_bool_decide; injection Hrun as <- <-; [right|left; by eexists].
  split; [done|]. exists q. rewrite <- Hn, <- Hi.
  rewrite node_at_ne in H3 by done. done.
Qed.

Lemma hard_link_run original link d r d' :
  hard_link original link d = (r, d') →
  (∃ e, r = Err e ∧ unchanged d d') ∨
  (r = Ok () ∧ ∃ p q n, lookup_path false original d = Ok p ∧ dk_nodes d !! p = Some n ∧ n ≠ Dir ∧
     lookup_path false link d = Ok q ∧ node_at (dk_nodes d) q = None ∧
     dk_nodes d' = <[q := n]> (dk_nodes d) ∧ dk_inodes d' = dk_inodes d).
Proof.
  unfold hard_link. intros Hrun. step_in Hrun as u d1 H1; same_disk H1; [left; by eexists|].
  step_in Hrun as p d2 H2; apply fs_lookup_run in H2 as [H2 ->]; [left; by eexists|].
  step_in Hrun as n d2 H3; apply fs_node_run in H3 as [H3 ->]; [left; by eexists|].
  symmetry in H2, H3. apply ok_or_Ok in H3. rewrite (lookup_path_nodes _ _ d d1) in H2 by done.
  destruct n; [injection Hrun as <- <-; left; by eexists|..].
  all: step_in Hrun as q d2 H4; same_disk H4;
    [left; eexists; split; [done|]; split; congruence|].
  all: right; apply fs_free_Ok in H4 as (-> & Hl & Hfree); injection Hrun as <- <-.
  all: rewrite (lookup_path_nodes _ _ d d1 Hn) in Hl; rewrite Hn in H3, Hfree.
  all: split; [done|]; simpl; rewrite Hn, Hi.
  1: exists p, q, (File inode). 2: exists p, q, (Symlink target).
  all: destruct p; [done|]; split_and!; done.
Qed.

Lemma file_write_run h data d r d' :
  file_write_all h data d = (r, d') →
  ∃ written, dk_nodes d' = dk_nodes d ∧
    dk_inodes d' = <[hd_inode h := write_at (default [] (dk_inodes d !! hd_inode h)) written
                                     (hd_position h)]> (dk_inodes d) ∧
    (∀ h', r = Ok h' → written = data ∧
       h' = mkHandle (hd_inode h) (hd_position h + length data)).
Proof.
  unfold file_write_all, fs_fault.
  destruct (dk_faults d) as [|[|e n] rest]; [..|case_bool_decide]; intros [= <- <-]; simpl.
  1-3: exists data; naive_solver.
  exists (take n data). naive_solver.
Qed.

Lemma read_dir_Ok `{!ReadDirOrder} path d names d' :
  read_dir path d = (Ok names, d') →
  ∃ q, lookup_path true path d = Ok q ∧ names = read_dir_order (children (dk_nodes d) q).
Proof.
  unfold read_dir. intros Hrun. ok_in Hrun as u d1 H1. same_disk H1.
  ok_in Hrun as q d2 H2. apply fs_lookup_run in H2 as [H2 ->].
  ok_in Hrun as n d2 H3. apply fs_node_run in H3 as [H3 ->].
  ok_in Hrun as d2 d3 H4. apply st_get_Ok in H4 as [-> ->].
  symmetry in H2. rewrite (lookup_path_nodes _ _ d d1) in H2 by done.
  destruct n; [|done..]. injection Hrun as <- <-. exists q. by rewrite <- Hn.
Qed.

(** *** What a rename does to the tree *)

Section relocation.
Context (p q : place) (before after : gmap place Node) (Hrel : relocated p q before after).

(** Where a node of the new tree was before. *)
Lemma relocated_from k n : after !! k = Some n →
  (∃ r, k = q ++ r ∧ before !! (p ++ r) = Some n) ∨
  (¬ q `prefix_of` k ∧ ¬ p `prefix_of` k ∧ before !! k = Some n).
Proof.
  intros Hk. rewrite Hrel in Hk. destruct (decide (q `prefix_of` k)) as [[r ->]|Hnq].
  - left. exists r. split; [done|]. by rewrite drop_app_length in Hk.
  - case_decide; [done|]. by right.
Qed.
Lemma relocated_moved r : after !! (q ++ r) = before !! (p ++ r).
Proof.
  rewrite Hrel. destruct (decide (q `prefix_of` q ++ r)) as [_|Hbad]; [by rewrite drop_app_length|].
  exfalso. apply Hbad. by eexists.
Qed.
Lemma relocated_elsewhere k : ¬ q `prefix_of` k → ¬ p `prefix_of` k → after !! k = before !! k.
Proof.
  intros Hk1 Hk2. rewrite Hrel. destruct (decide (q `prefix_of` k)); [done|]. by rewrite decide_False.
Qed.

Lemma relocated_tree dir name :
  tree_ok before → is_Some (before !! p) → q = dir ++ [name] → valid_name name →
  node_at before dir = Some Dir → ¬ p `prefix_of` q → tree_ok after.
Proof.
  intros Htree [np Hp] Hq Hname Hdir Hpq.
  assert (p ≠ []) as Hp0 by (intros ->; by apply (tk_names _ Htree) in Hp as [? _]).
  assert (¬ q `prefix_of` dir) as Hqdir.
  { intros [r Hr]. apply (f_equal length) in Hr. rewrite Hq, !length_app in Hr. simpl in Hr. lia. }
  assert (¬ p `prefix_of` dir) as Hpdir.
  { intros Hpre. apply Hpq. rewrite Hq. etrans; [exact Hpre|by eexists]. }
  assert (q ≠ [] ∧ Forall valid_name q) as [Hq0 Hqv].
  { rewrite Hq, Forall_app, Forall_singleton. split; [by destruct dir|]. split; [|done].
    by eapply node_at_valid. }
  split.
  - intros k n [(r & -> & Hk)|(_ & _ & Hk)]%relocated_from.
    + apply (tk_names _ Htree) in Hk as [_ Hv]. apply Forall_app in Hv as [_ Hv].
      split; [by destruct q|]. by apply Forall_app.
    + by apply (tk_names _ Htree) in Hk.
  - intros k x n Hk. destruct (decide (k = [])) as [->|Hk0]; [done|]. rewrite node_at_ne by done.
    apply relocated_from in Hk as [(r & Heq & Hk)|(Hnq & Hnp & Hk)].
    + destruct r as [|y r _] using rev_ind.
      * rewrite app_nil_r, Hq in Heq. apply app_inj_tail in Heq as [-> ->].
        rewrite node_at_ne in Hdir by done. by rewrite relocated_elsewhere.
      * rewrite (assoc_L (++)) in Heq, Hk. apply app_inj_tail in Heq as [-> ->].
        rewrite relocated_moved. apply (tk_closed _ Htree) in Hk. rewrite node_at_ne in Hk; [done|].
        by destruct p.
    + apply (tk_closed _ Htree) in Hk. rewrite node_at_ne in Hk by done.
      rewrite relocated_elsewhere; [done|..]; intros Hpre; [apply Hnq|apply Hnp];
        (etrans; [exact Hpre|by eexists]).
Qed.
End relocation.

(** ** What the primitives change *)

Section primitives.
Context (F : Footprint).
Notation roots := (fp_roots F).
Notation exempt := (fp_exempt F).
Notation allowed := (fp_allowed F).
Notation fixed := (fp_fixed F).
Notation solid := (fp_solid F).
Notation good := (good F).
Notation fs_step := (fs_step F).
Implicit Types (d : Disk) (path : PathBuf).

Lemma unchanged_step d d' : unchanged d d' → fs_step d d'.
Proof. intros [? ?]. by apply step_same. Qed.
Lemma keeps_same_step {E T} (m : St Disk E T) : keeps disk_same m → keeps fs_step m.
Proof. intros Hk d. specialize (Hk d). injection Hk as ? ?. by apply step_same. Qed.

(** Paths to, or on the way to, an owned place lead where they say. *)
Definition ours (path : PathBuf) : Prop :=
  Forall valid_name (components path) ∧
  (owned roots (components path) ∨ on_way roots (components path)).

Lemma leads_ours follow d path q :
  good d → ours path → lookup_path follow path d = Ok q → q = components path.
Proof.
  intros [Htree Hclean _ _ _] [Hv Hour]. unfold lookup_path. intros Hrun.
  eapply (resolve_plain _ _ _ []) in Hrun; [done..|].
  intros p target [r Hp] Hl. exfalso. simpl in Hl. apply Hclean in Hl as [Hno Hnw].
  destruct Hour as [(s & Hs & Hpre)|(s & Hs & Hpre)].
  - rewrite Hp in Hpre. destruct (prefix_weak_total s p (p ++ r)) as [?|?]; [done|by exists r|..].
    + apply Hno. by exists s.
    + apply Hnw. by exists s.
  - apply Hnw. exists s. split; [done|]. destruct Hpre as [k ->]. rewrite Hp.
    exists (r ++ k). by rewrite (assoc_L (++)).
Qed.

Lemma leads_solid d dir name path :
  good d → dir ∈ solid → valid_name name → components path = dir ++ [name] →
  lookup_path false path d = Ok (dir ++ [name]).
Proof.
  intros Hd Hdir Hname Hc. unfold lookup_path. rewrite Hc.
  apply resolve_in; [apply Hd|by apply Hd|done|done].
Qed.

(** The place of a path, for a lookup that found something free or taken. *)
Lemma lookup_in_dir d follow path q :
  good d → lookup_path follow path d = Ok q → q ≠ [] → dk_nodes d !! q ≠ Some Dir →
  ∃ dir name, q = dir ++ [name] ∧ valid_name name ∧ node_at (dk_nodes d) dir = Some Dir.
Proof.
  intros Hd Hl Hne Hnot. apply resolve_Ok in Hl as [Hq|?]; [|done|apply Hd|done|apply components_valid].
  by rewrite node_at_ne in Hq.
Qed.

Lemma create_at d d' q n :
  good d → (∃ follow path, lookup_path follow path d = Ok q) →
  node_at (dk_nodes d) q = None →
  (∀ target, n = Symlink target → ¬ owned roots q ∧ ¬ on_way roots q) →
  (∀ i, n = File i → i ∈ dom (dk_inodes d)) → allowed q →
  dk_nodes d' = <[q := n]> (dk_nodes d) → dk_inodes d' = dk_inodes d → fs_step d d'.
Proof.
  intros Hd (follow & path & Hl) Hfree Hlink Hfile Hall Hn Hi.
  assert (q ≠ []) as Hne by by intros ->.
  rewrite node_at_ne in Hfree by done.
  etrans; [apply (step_insert F d q n)|apply step_same]; try done.
  eapply lookup_in_dir; [done..|]. by rewrite Hfree.
Qed.

Lemma delete_at d d' q n :
  good d → dk_nodes d !! q = Some n → n ≠ Dir ∨ children (dk_nodes d) q = [] →
  owned roots q ∨ exempt q n →
  dk_nodes d' = delete q (dk_nodes d) → dk_inodes d' = dk_inodes d → fs_step d d'.
Proof.
  intros Hd Hq Hleaf Hown Hn Hi.
  etrans; [eapply (step_delete F d q n)|apply step_same];
    try done.
  intros p Hp. destruct Hleaf as [Hnd|Hc]; [|eapply children_nil; [apply Hd|done..]].
  destruct (dk_nodes d !! (q ++ p)) as [m|] eqn:Hm; [|done].
  apply node_above in Hm; [|apply Hd|done]. exfalso. apply Hnd.
  assert (q ≠ []) as Hne by (intros ->; by apply (tk_names _ (gd_tree _ _ Hd)) in Hq as [? _]).
  rewrite node_at_ne in Hm by done. congruence.
Qed.

(** *** [ensure_directory_tree] *)

Lemma ensure_directory_run dir name current d r d' :
  components current = dir ++ [name] → valid_name name → node_at (dk_nodes d) dir = Some Dir →
  allowed (dir ++ [name]) → good d → ensure_directory current d = (r, d') →
  fs_step d d' ∧ (r = Ok () → node_at (dk_nodes d') (dir ++ [name]) = Some Dir).
Proof.
  intros Hc Hname Hdir Hall Hd Hrun. unfold ensure_directory in Hrun.
  assert (lookup_path false current d = Ok (dir ++ [name])) as Hlead.
  { unfold lookup_path. rewrite Hc. apply resolve_in; [apply Hd|done..]. }
  apply st_try_inv in Hrun as (o & d1 & H1 & Hrun). same_disk H1.
  destruct o as [t|e].
  - apply symlink_metadata_Ok in H1 as (q & n & Hl & Hq & ->). rewrite Hlead in Hl.
    injection Hl as <-.
    step_in Hrun as u d2 H2; injection H2 as H2 <-; [split; [by apply step_same|done]|].
    injection Hrun as Hr <-. split; [by apply step_same|]. intros ->. rewrite Hn.
    apply refuse_if_Ok, negb_false_iff, bool_decide_eq_true in Hr. by destruct n.
  - case_bool_decide; [|injection Hrun as <- <-; split; [by apply step_same|done]].
    step_in Hrun as u d2 H2; apply st_map_err_inv in H2 as (o & H2 & Ho);
      apply create_dir_run in H2 as [(e' & -> & Hun)|(-> & q & Hl & Hfree & Hn2 & Hi2)];
      try discriminate Ho.
    { destruct Hun. split; [by apply step_same; congruence|done]. }
    rewrite (lookup_path_nodes _ _ d d1) in Hl by done. rewrite Hlead in Hl. injection Hl as <-.
    rewrite Hn in Hfree, Hn2. rewrite Hi in Hi2.
    assert (keeps disk_same (t ← reject_reparse_point current;
      st_lift (refuse_if (negb (bool_decide (t = Type_Dir)))
        (mkIoError OtherKind (str "created destination is not a directory: " ++ current)))))
      as Hk by keeps_tac.
    destruct (disk_same_run _ _ _ _ Hk Hrun) as [Hn3 Hi3]. split.
    + eapply (create_at d d' _ Dir); try done; [eauto|congruence..].
    + intros _. rewrite Hn3, Hn2, node_at_ne by (by destruct dir). by rewrite lookup_insert_eq.
Qed.

(** Either way the disk gains only directories on the path; if it succeeds, the path is a
    directory, reached without a link. *)
Lemma ensure_directory_tree_run path d r d' :
  Forall valid_name (components path) →
  (∀ q, q `prefix_of` components path → allowed q) → good d →
  ensure_directory_tree path d = (r, d') →
  fs_step d d' ∧ (r = Ok () → node_at (dk_nodes d') (components path) = Some Dir).
Proof.
  intros Hv Hall. unfold ensure_directory_tree, ancestors.
  assert (∀ n k d r d', (n + k = length (components path))%nat → good d →
    node_at (dk_nodes d) (take n (components path)) = Some Dir →
    st_for (map (λ n, of_components (is_absolute path) (take n (components path))) (seq (S n) k))
      ensure_directory d = (r, d') →
    fs_step d d' ∧ (r = Ok () → node_at (dk_nodes d') (components path) = Some Dir)) as Hgen.
  { clear d r d'. intros n k. revert n. induction k as [|k IH]; intros n d r d' Hlen Hd Hdir Hrun.
    { injection Hrun as <- <-. split; [reflexivity|]. intros _. by rewrite take_ge in Hdir by lia. }
    cbn [seq map st_for] in Hrun.
    destruct (lookup_lt_is_Some_2 (components path) n) as [name Hname]; [lia|].
    assert (valid_name name) as Hvn by (by eapply Forall_lookup_1).
    pose proof (take_S_r _ _ _ Hname) as Htake.
    assert (components (of_components (is_absolute path) (take (S n) (components path)))
      = take n (components path) ++ [name]) as Hcur.
    { rewrite components_of_components; [done|]. pose proof (components_valid path). by apply Forall_take. }
    assert (allowed (take n (components path) ++ [name])) as Ha.
    { apply Hall. rewrite <- Htake. exists (drop (S n) (components path)). by rewrite take_drop. }
    step_in Hrun as u d1 H1; eapply ensure_directory_run in H1; try done;
      destruct H1 as [Hs Hok]; [done|]. destruct u.
    destruct (Hs Hd) as [Hd1 _]. eapply IH in Hrun; [|lia|done|rewrite Htake; by apply Hok].
    destruct Hrun as [Hs2 ?]. split; [by etrans|done]. }
  intros Hd Hrun. eapply (Hgen 0%nat); [|done| |exact Hrun]; done.
Qed.

(** *** Removal *)

(** A path whose tree may be removed: its place is ours, or everything may go. *)
Definition removable (path : PathBuf) : Prop :=
  (ours path ∧ owned roots (components path)) ∨ (∀ q n, exempt q n).

Lemma removable_at d follow path q n :
  good d → removable path → lookup_path follow path d = Ok q → owned roots q ∨ exempt q n.
Proof.
  intros Hd [[Hours Hown]|Hex] Hl; [left|by right].
  by apply leads_ours in Hl as ->.
Qed.

Lemma remove_file_step path d r d' :
  good d → removable path → remove_file path d = (r, d') → fs_step d d'.
Proof.
  intros Hd Hrem Hrun.
  apply remove_file_run in Hrun as [(e & _ & Hun)|(_ & q & n & Hl & Hq & Hn & Hd1 & Hd2)];
    [by apply unchanged_step|].
  eapply (delete_at _ _ _ n); try done; [by left|by eapply removable_at].
Qed.

Lemma remove_dir_step path d r d' :
  good d → removable path ∨ (ours path ∧ exempt (components path) Dir) →
  remove_dir path d = (r, d') →
  fs_step d d' ∧ (r = Ok () → ours path → ∀ p, dk_nodes d' !! (components path ++ p) = None).
Proof.
  intros Hd Hrem Hrun.
  apply remove_dir_run in Hrun as [(e & -> & Hun)|(-> & q & Hl & Hq & Hc & Hd1 & Hd2)];
    [split; [by apply unchanged_step|done]|]. split.
  - eapply (delete_at _ _ _ Dir); try done; [by right|].
    destruct Hrem as [Hrem|[Hours Hex]]; [by eapply removable_at|].
    right. by apply leads_ours in Hl as ->.
  - intros _ Hours p. apply leads_ours in Hl as ->; [|done..]. rewrite Hd1.
    destruct (decide (p = [])) as [->|Hp].
    + by rewrite app_nil_r, lookup_delete_eq.
    + rewrite lookup_delete_None. right. eapply children_nil; [apply Hd|done..].
Qed.

Lemma ours_child path name :
  ours path → owned roots (components path) → valid_name name →
  ours (join path name) ∧ owned roots (components (join path name)).
Proof.
  intros [Hv _] (s & Hs & Hpre) Hname. unfold ours.
  rewrite components_join by (by apply valid_path_name).
  assert (owned roots (components path ++ [name])) as Hown.
  { exists s. split; [done|]. etrans; [exact Hpre|]. by eexists. }
  split; [|done]. split; [|by left]. apply Forall_app. split; [done|by apply Forall_singleton].
Qed.
Lemma removable_child path name :
  removable path → valid_name name → removable (join path name).
Proof. intros [[? ?]|?] ?; [left; by apply ours_child|by right]. Qed.

Context {order : ReadDirOrder} {order_laws : ReadDirOrderLaws}.

(** A step in two parts, the second with what the first preserves. *)
Lemma step_then d1 d2 d3 : fs_step d1 d2 → (good d2 → fs_step d2 d3) → fs_step d1 d3.
Proof. intros H12 H23 Hd. destruct (H12 Hd) as [Hd2 ?]. by eapply (transitivity H12 (H23 Hd2)). Qed.

Lemma remove_entry_step remove path name d r d' :
  (∀ child d r d', good d → removable child → remove child d = (r, d') → fs_step d d') →
  removable (join path name) →
  good d → remove_entry remove path name d = (r, d') → fs_step d d'.
Proof.
  intros Hrec Hchild Hd Hrun. unfold remove_entry in Hrun.
  step_in Hrun as u d1 H1; apply st_map_err_inv in H1 as (o1 & H1 & _);
    same_disk H1; [by apply step_same|].
  cbv zeta in Hrun. step_in Hrun as t d2 H2; apply st_map_err_inv in H2 as (o2 & H2 & _);
    same_disk H2; [apply step_same; congruence|].
  step_in Hrun as u2 d3 H3; injection H3 as _ <-; [apply step_same; congruence|].
  eapply (step_then _ d2); [apply step_same; congruence|]. intros Hd2.
  case_bool_decide; [by eapply Hrec|].
  apply st_map_err_inv in Hrun as (o4 & H4 & _). by eapply remove_file_step in H4.
Qed.

Lemma remove_owned_directory_run fuel path d r d' :
  good d → removable path → remove_owned_directory fuel path d = (r, d') →
  fs_step d d' ∧ (r = Ok () → ours path → ∀ p, dk_nodes d' !! (components path ++ p) = None).
Proof.
  revert path d r d'. induction fuel as [|fuel IH]; intros path d r d' Hd Hrem Hrun.
  { injection Hrun as <- <-. split; [reflexivity|done]. }
  cbn [remove_owned_directory] in Hrun. step_in Hrun as names d1 H1;
    apply st_map_err_inv in H1 as (o & H1 & Ho); same_disk H1; [split; [by apply step_same|done]|].
  destruct o as [names'|]; [|done]. injection Ho as ->.
  assert (fs_step d d1) as Hs1 by (by apply step_same). destruct (Hs1 Hd) as [Hd1 _].
  apply read_dir_Ok in H1 as (q & _ & Hnames).
  assert (Forall valid_name names') as Hv.
  { rewrite Hnames, read_dir_order_all. apply children_valid, Hd. }
  assert (keeps fs_step (st_for names' (remove_entry (remove_owned_directory fuel) path))) as Hk.
  { apply (keeps_for_in _ _ _). intros name Hname d3 Hd3.
    destruct (remove_entry _ path name d3) as [r3 d4] eqn:Hrun3. rewrite Forall_forall in Hv.
    eapply remove_entry_step in Hrun3;
      [by apply Hrun3|intros; by eapply IH|by apply removable_child; [|apply Hv]|done]. }
  specialize (Hk d1). step_in Hrun as u d2 H2; rewrite H2 in Hk; simpl in Hk.
  { split; [by etrans|done]. }
  apply st_map_err_inv in Hrun as (o & H3 & ->). destruct (Hk Hd1) as [Hd2 _].
  eapply remove_dir_step in H3 as [Hs3 Hgone]; [|done|by left]. split.
  - etrans; [exact Hs1|]. by etrans.
  - intros Ho. apply Hgone. destruct o as [[]|]; [done|discriminate Ho].
Qed.

(** What is not there is found missing, and then nothing is below it. *)
Lemma lookup_existing d path p n :
  good d → ours path → components path ≠ [] →
  dk_nodes d !! (components path ++ p) = Some n →
  lookup_path false path d = Ok (components path) ∧ is_Some (node_at (dk_nodes d) (components path)).
Proof.
  intros Hd [Hv _] Hne Hn.
  assert (is_Some (dk_nodes d !! components path)) as [m Hm].
  { destruct (decide (p = [])) as [->|Hp]; [rewrite app_nil_r in Hn; eauto|].
    apply node_above in Hn; [|apply Hd|done]. rewrite node_at_ne in Hn by done. eauto. }
  split; [|rewrite node_at_ne by done; by eexists]. unfold lookup_path.
  destruct (components path) as [|name dir _] using rev_ind; [done|].
  rewrite Forall_app, Forall_singleton in Hv.
  apply resolve_in; [apply Hd| |tauto|done]. eapply tk_closed; [apply Hd|done].
Qed.

Lemma remove_owned_tree_run path d r d' :
  good d → removable path → remove_owned_tree path d = (r, d') →
  fs_step d d' ∧ (r = Ok () → ours path → components path ≠ [] →
    ∀ p, dk_nodes d' !! (components path ++ p) = None).
Proof.
  intros Hd Hrem Hrun. unfold remove_owned_tree in Hrun.
  apply st_try_inv in Hrun as (o & d1 & H1 & Hrun). same_disk H1.
  assert (fs_step d d1) as Hs1 by (by apply step_same). destruct (Hs1 Hd) as [Hd1 _].
  destruct o as [t|e].
  - step_in Hrun as u d2 H2; injection H2 as _ <-; [done|].
    case_bool_decide; [|by injection Hrun as <- <-].
    step_in Hrun as d2 d3 H3; [done|]. apply st_get_Ok in H3 as [-> ->].
    apply remove_owned_directory_run in Hrun as [Hs Hgone]; [|done..].
    split; [by etrans|]. intros Hr Hours _. by apply Hgone.
  - case_bool_decide as He; injection Hrun as <- <-; [|done]. split; [done|].
    intros _ Hours Hne p. apply eq_None_not_Some. intros [n Hn']. rewrite Hn in Hn'.
    destruct (lookup_existing d path p n) as [Hl [m Hm]]; [done..|].
    rewrite (symlink_metadata_Err _ _ _ _ H1 He _ Hl) in Hm. done.
Qed.

(** *** Creation *)

Lemma create_dir_step path d r d' :
  good d → ours path → allowed (components path) → create_dir path d = (r, d') →
  fs_step d d' ∧ (r = Ok () → dk_nodes d' !! components path = Some Dir).
Proof.
  intros Hd Hours Hall Hrun.
  apply create_dir_run in Hrun as [(e & -> & Hun)|(-> & q & Hl & Hfree & Hn & Hi)];
    [split; [by apply unchanged_step|done]|].
  pose proof (leads_ours _ _ _ _ Hd Hours Hl) as ->. split.
  - eapply (create_at d d' _ Dir); try done. eauto.
  - intros _. rewrite Hn. by rewrite lookup_insert_eq.
Qed.

(** What a new file is: a name of our own for an inode that did not exist. *)
Definition created (path : PathBuf) (h : Handle) (d d' : Disk) : Prop :=
  h = mkHandle (fresh (dom (dk_inodes d))) 0 ∧ hd_inode h ∉ fixed ∧
  dk_nodes d !! components path = None ∧
  dk_nodes d' = <[components path := File (hd_inode h)]> (dk_nodes d) ∧
  dk_inodes d' = <[hd_inode h := []]> (dk_inodes d).

Lemma create_new_file_run path d r d' :
  good d → ours path → owned roots (components path) → allowed (components path) →
  create_new_file path d = (r, d') →
  fs_step d d' ∧ (∀ h, r = Ok h → created path h d d').
Proof.
  intros Hd Hours Hown Hall Hrun. unfold create_new_file in Hrun.
  step_in Hrun as h d1 H1; apply st_map_err_inv in H1 as (o & H1 & Ho);
    apply open_create_new_run in H1 as [(e' & -> & Hun)|(q & -> & Hl & Hfree & Hn & Hi)];
    try discriminate Ho; [split; [by apply unchanged_step|done]|].
  pose proof (leads_ours _ _ _ _ Hd Hours Hl) as ->. injection Ho as ->.
  set (i := fresh (dom (dk_inodes d))) in *.
  assert (i ∉ dom (dk_inodes d)) as Hi0 by apply is_fresh.
  assert (i ∉ fixed) as Hfix by (intros Hin; apply Hi0; by apply Hd).
  assert (components path ≠ []) as Hne by (by intros Heq; rewrite Heq in Hfree).
  assert (fs_step d d1) as Hs1.
  { etrans; [apply (step_write F d i [] Hfix)|]. intros Hd'.
    revert Hd'. eapply (step_then _ (set_inode i [] d)); [reflexivity|]. intros Hd'.
    eapply (create_at (set_inode i [] d) d1 _ (File i)); try done.
    - exists false, path. by rewrite (lookup_path_nodes _ _ d).
    - intros j [= <-]. simpl. rewrite dom_insert. set_solver. }
  rewrite node_at_ne in Hfree by done.
  apply st_try_inv in Hrun as (o & d2 & H2 & Hrun). same_disk H2.
  destruct o as [t|e].
  - injection Hrun as <- <-. split; [etrans; [exact Hs1|by apply step_same]|].
    intros h [= <-]. unfold created. cbn [hd_inode]. split_and!; try done; congruence.
  - apply st_try_inv in Hrun as (o & d3 & H3 & Hrun). injection Hrun as <- <-.
    split; [|done]. eapply (step_then _ d2); [etrans; [exact Hs1|by apply step_same]|].
    intros Hd2. eapply remove_file_step in H3; [done..|]. by left.
Qed.

Context {fs2 : Fs2} {fs2_laws : Fs2Laws}.

Lemma preallocate_run h len d r d' :
  hd_inode h ∉ fixed → preallocate h len d = (r, d') →
  fs_step d d' ∧ dk_nodes d' = dk_nodes d ∧ dom (dk_inodes d') = dom (dk_inodes d) ∧
  (∀ i, i ≠ hd_inode h → dk_inodes d' !! i = dk_inodes d !! i) ∧
  (r = Ok () → ∀ content, dk_inodes d !! hd_inode h = Some content →
    dk_inodes d' !! hd_inode h =
      Some (content ++ replicate (Z.to_nat len - length content) Byte.x00)).
Proof.
  intros Hfix Hrun. unfold preallocate in Hrun.
  step_in Hrun as u d1 H1; apply st_map_err_inv in H1 as (o & H1 & Ho); same_disk H1.
  { split; [by apply step_same|]. rewrite Hn, Hi. done. }
  assert (∀ r2 d2, fs2_allocate h len d1 = (r2, d2) → fs_step d d2 ∧ dk_nodes d2 = dk_nodes d ∧
    dom (dk_inodes d2) = dom (dk_inodes d) ∧
    ∀ i, i ≠ hd_inode h → dk_inodes d2 !! i = dk_inodes d !! i) as Hstep.
  { intros r2 d2 H2. destruct (allocate_frame _ _ _ _ _ H2) as (Hn2 & Hdom & Hi2).
    split_and!; [|congruence..|intros i Hne; by rewrite Hi2, Hi].
    intros Hd. split.
    - destruct Hd. split; rewrite ?Hn2, ?Hdom, ?Hn, ?Hi; done.
    - split; rewrite ?Hn2, ?Hn; [by left| |by left]. intros i Hin.
      rewrite Hi2, Hi; [done|]. congruence. }
  step_in Hrun as u2 d2 H2; apply st_map_err_inv in H2 as (o2 & H2 & Ho2);
    destruct (Hstep _ _ H2) as (Hs & Hn2 & Hdom & Hi2); [done|].
  destruct o2 as [[]|]; [|discriminate Ho2].
  assert (dk_nodes d' = dk_nodes d2 ∧ dk_inodes d' = dk_inodes d2) as [Hn3 Hi3].
  { eapply disk_same_run; [|exact Hrun]. keeps_tac. }
  split_and!; [etrans; [exact Hs|by apply step_same]|congruence|congruence| |].
  - intros i Hne. by rewrite Hi3, Hi2.
  - intros _ content Hc. rewrite Hi3. apply (allocate_Ok _ _ content _ _ H2). by rewrite Hi.
Qed.

Lemma file_write_step h data d r d' :
  hd_inode h ∉ fixed → file_write_all h data d = (r, d') → fs_step d d'.
Proof.
  intros Hfix Hrun. apply file_write_run in Hrun as (written & Hn & Hi & _).
  etrans; [|by apply (step_same F (set_inode (hd_inode h) (write_at
    (default [] (dk_inodes d !! hd_inode h)) written (hd_position h)) d))].
  by apply step_write.
Qed.

(** *** Renaming *)

Lemma step_relocate d d' p q dir name :
  good d → owned roots p → is_Some (dk_nodes d !! p) →
  q = dir ++ [name] → valid_name name → node_at (dk_nodes d) dir = Some Dir →
  dk_nodes d !! q = None → ¬ p `prefix_of` q →
  relocated p q (dk_nodes d) (dk_nodes d') → dk_inodes d' = dk_inodes d →
  (∀ k, allowed (q ++ k)) → fs_step d d'.
Proof.
  intros Hd Hown [np Hp] Hq Hname Hdir Hfree Hpq Hrel Hi Hall _.
  pose proof (gd_tree _ _ Hd) as Htree.
  pose proof (relocated_from _ _ _ _ Hrel) as Hold.
  assert (∀ k, owned roots (p ++ k)) as Hownk.
  { intros k. destruct Hown as (s & Hs & Hpre). exists s. split; [done|].
    etrans; [exact Hpre|by eexists]. }
  assert (∀ k n, dk_nodes d !! k = Some n → ¬ q `prefix_of` k) as Hnew.
  { intros k n Hk [r ->]. destruct (decide (r = [])) as [->|Hr0];
      [rewrite app_nil_r in Hk; congruence|].
    apply node_above in Hk; [|done|done]. rewrite node_at_ne in Hk by (subst q; by destruct dir).
    congruence. }
  split; [split|split].
  - by eapply relocated_tree.
  - intros k target [(r & -> & Hk)|(_ & _ & Hk)]%Hold.
    + apply (gd_clean _ _ Hd) in Hk as [Hno _]. by destruct (Hno (Hownk r)).
    + by apply (gd_clean _ _ Hd) in Hk.
  - rewrite Hi. apply Hd.
  - intros k i [(r & -> & Hk)|(_ & _ & Hk)]%Hold; rewrite Hi; by eapply (gd_files _ _ Hd).
  - intros k Hk. pose proof (gd_solid _ _ Hd k Hk) as Hdk.
    destruct (fp_solid_kept F k Hk) as [Hno _].
    destruct (decide (k = [])) as [->|Hk0]; [done|]. rewrite node_at_ne in Hdk by done.
    rewrite node_at_ne by done. rewrite (relocated_elsewhere _ _ _ _ Hrel); [done|by eapply Hnew|].
    intros [r ->]. by apply Hno.
  - intros k n Hk. destruct (decide (p `prefix_of` k)) as [[r ->]|Hnp]; [right; left; apply Hownk|].
    left. rewrite (relocated_elsewhere _ _ _ _ Hrel); [done|by eapply Hnew|done].
  - intros i _. by rewrite Hi.
  - intros k [n [(r & -> & _)|(_ & _ & Hk)]%Hold]; [right; apply Hall|left; by eexists].
Qed.

(** *** Publication and cleanup *)

Lemma hard_link_step original link d r d' :
  good d → ours original → owned roots (components original) →
  (∀ q, lookup_path false link d = Ok q → allowed q) →
  hard_link original link d = (r, d') → fs_step d d'.
Proof.
  intros Hd Hours Hown Hall Hrun.
  apply hard_link_run in Hrun
    as [(e & -> & Hun)|(-> & p & q & n & Hp & Hn & Hnd & Hq & Hfree & Hn' & Hi')];
    [by apply unchanged_step|].
  apply leads_ours in Hp as ->; [|done..].
  eapply (create_at d d' q n); try done; [by eauto| | |by apply Hall].
  - intros target ->. by apply (gd_clean _ _ Hd) in Hn as [Hno _].
  - intros i ->. by eapply (gd_files _ _ Hd).
Qed.

Lemma rename_step `{!Renamore} `{!RenamoreLaws} payload target d r d' :
  good d → ours payload → owned roots (components payload) →
  (∀ q, lookup_path false target d = Ok q → ∀ k, allowed (q ++ k)) →
  rename_exclusive_portable payload target d = (r, d') → fs_step d d'.
Proof.
  intros Hd Hours Hown Hall Hrun. unfold rename_exclusive_portable in Hrun.
  step_in Hrun as t d1 H1; same_disk H1; [by apply step_same|].
  assert (keeps disk_same (match parent target with
    | Some parent => require_directory parent | None => mret () end)) as Hk by keeps_tac.
  step_in Hrun as u d2 H2; destruct (disk_same_run _ _ _ _ Hk H2) as [Hn2 Hi2];
    [apply step_same; congruence|].
  eapply (step_then _ d2); [apply step_same; congruence|]. intros Hd2.
  destruct r as [[]|e].
  - apply rename_Ok in Hrun as (p & q & Hp & Hq & Hp0 & Hsome & Hfree & Hpq & Hrel & Hi').
    pose proof (leads_ours _ _ _ _ Hd2 Hours Hp) as ->.
    assert (q ≠ []) as Hq0 by (by intros ->). rewrite node_at_ne in Hfree by done.
    destruct (lookup_in_dir d2 false target q) as (dir & name & Hdn & Hname & Hdir);
      [done..|by rewrite Hfree|].
    eapply (step_relocate d2 d' (components payload) q dir name); try done.
    intros k. apply Hall. rewrite <- Hq. apply lookup_path_nodes. congruence.
  - apply rename_Err in Hrun as [? ?]. by apply step_same.
Qed.
End primitives.

(** A node that is there is found. *)
Lemma lookup_calm follow path d c n :
  tree_ok (dk_nodes d) → components path = c → dk_nodes d !! c = Some n →
  (∀ target, n = Symlink target → follow = false) → lookup_path follow path d = Ok c.
Proof.
  intros Htree Hc Hn Hlink. pose proof (tk_names _ Htree _ _ Hn) as [Hne Hv].
  unfold lookup_path. rewrite Hc. destruct c as [|name dir _] using rev_ind; [done|].
  rewrite Forall_app, Forall_singleton in Hv.
  apply resolve_in; [done|by eapply tk_closed|tauto|]. intros target Ht. apply (Hlink target).
  congruence.
Qed.

Lemma NoDup_children nodes c : NoDup (children nodes c).
Proof.
  unfold children. pose proof (NoDup_fst_map_to_list nodes) as Hnd.
  induction (map_to_list nodes) as [|[p n] l IH]; simpl; [constructor|].
  apply NoDup_cons in Hnd as [Hp Hnd]. destruct (last p) as [x|]; [|by apply IH].
  case_bool_decide as Hpx; [|by apply IH]. constructor; [|by apply IH].
  rewrite list_elem_of_omap. intros ([p' n'] & Hin & Hm). apply Hp.
  destruct (last p') as [y|]; [|done]. case_bool_decide; [|done]. simplify_eq.
  apply list_elem_of_fmap. by exists (c ++ [x], n').
Qed.

(** ** Removal does not report what is missing *)

(** The footprint of a removal at [c]: it may take away that tree and nothing else. *)
Program Definition only (c : place) : Footprint :=
  mkFootprint [c] (λ _ _, False) (λ _, True) ∅ [] _.
Next Obligation. by intros c q ?%elem_of_nil. Qed.

Lemma owned_only c q : owned [c] q ↔ c `prefix_of` q.
Proof. unfold owned. setoid_rewrite list_elem_of_singleton. naive_solver. Qed.
Lemma on_way_only c q : on_way [c] q ↔ q `prefix_of` c.
Proof. unfold on_way. setoid_rewrite list_elem_of_singleton. naive_solver. Qed.

Lemma good_only F d c :
  good F d → owned (fp_roots F) c → good (only c) d.
Proof.
  intros [Ht Hc _ Hf _] (s & Hs & Hpre). split; simpl; [done| |set_solver|done|].
  - intros q target Hq. rewrite owned_only, on_way_only. destruct (Hc _ _ Hq) as [Hno Hnw].
    split; intros Hp.
    + apply Hno. exists s. split; [done|by etrans].
    + destruct (prefix_weak_total q s c) as [?|?]; [done..| |].
      * apply Hnw. by exists s.
      * apply Hno. by exists s.
  - by intros q ?%elem_of_nil.
Qed.

Section missing.
Context {order : ReadDirOrder} {order_laws : ReadDirOrderLaws}.

Lemma fs_calls_found path d c n :
  tree_ok (dk_nodes d) → components path = c → dk_nodes d !! c = Some n →
  lookup_path false path d = Ok c ∧ node_at (dk_nodes d) c = Some n.
Proof.
  intros Htree Hc Hn. pose proof (tk_names _ Htree _ _ Hn) as [Hne _]. split.
  - by eapply lookup_calm.
  - by rewrite node_at_ne.
Qed.

Lemma remove_file_kind path d c n e d' :
  tree_ok (dk_nodes d) → components path = c → dk_nodes d !! c = Some n →
  remove_file path d = (Err e, d') → io_kind e ≠ NotFound.
Proof.
  intros Htree Hc Hn Hrun. destruct (fs_calls_found path d c n) as [Hl Hnode]; [done..|].
  unfold remove_file in Hrun. step_in Hrun as u d1 H1; [by apply unlink_begin_Err in H1 as [? _]|]. same_disk H1.
  step_in Hrun as q d2 H2; apply fs_lookup_run in H2 as [H2 ->];
    rewrite (lookup_path_nodes _ _ d d1), Hl in H2 by done; [done|]. injection H2 as ->.
  step_in Hrun as m d3 H3; apply fs_node_run in H3 as [H3 ->]; rewrite Hn0, Hnode in H3; [done|].
  injection H3 as ->. destruct n; [by injection Hrun as <- _|done..].
Qed.

Lemma remove_dir_kind path d c e d' :
  tree_ok (dk_nodes d) → components path = c → dk_nodes d !! c = Some Dir →
  remove_dir path d = (Err e, d') → io_kind e ≠ NotFound.
Proof.
  intros Htree Hc Hn Hrun. destruct (fs_calls_found path d c Dir) as [Hl Hnode]; [done..|].
  unfold remove_dir in Hrun. step_in Hrun as u d1 H1; [by apply fs_begin_Err in H1|]. same_disk H1.
  step_in Hrun as q d2 H2; apply fs_lookup_run in H2 as [H2 ->];
    rewrite (lookup_path_nodes _ _ d d1), Hl in H2 by done; [done|]. injection H2 as ->.
  step_in Hrun as m d3 H3; apply fs_node_run in H3 as [H3 ->]; rewrite Hn0, Hnode in H3; [done|].
  injection H3 as ->. step_in Hrun as d2 d3 H4; [done|].
  repeat case_bool_decide; by injection Hrun as <- _ || discriminate Hrun.
Qed.

Lemma metadata_kind path d c n e d' :
  tree_ok (dk_nodes d) → components path = c → dk_nodes d !! c = Some n →
  symlink_metadata path d = (Err e, d') → io_kind e ≠ NotFound.
Proof.
  intros Htree Hc Hn Hrun He. destruct (fs_calls_found path d c n) as [Hl Hnode]; [done..|].
  rewrite (symlink_metadata_Err _ _ _ _ Hrun He _ Hl) in Hnode. done.
Qed.

Lemma map_err_kind {T} action path (m : FsM T) d e d' :
  (∀ e, m d = (Err e, d') → io_kind e ≠ NotFound) →
  st_map_err (path_error action path) m d = (Err e, d') → io_kind e ≠ NotFound.
Proof.
  intros Hm Hrun. apply st_map_err_inv in Hrun as ([x|e0] & Hrun & Ho); [done|].
  injection Ho as ->. simpl. by eapply Hm.
Qed.

Lemma removable_only F path d :
  good F d → ours F path → owned (fp_roots F) (components path) →
  good (only (components path)) d ∧ removable (only (components path)) path.
Proof.
  intros Hd [Hv _] Hown. split; [by eapply good_only|]. left.
  unfold ours. simpl. rewrite owned_only. auto.
Qed.

Lemma read_dir_kind path d c e d' :
  tree_ok (dk_nodes d) → components path = c → dk_nodes d !! c = Some Dir →
  read_dir path d = (Err e, d') → io_kind e ≠ NotFound.
Proof.
  intros Htree Hc Hn Hrun. pose proof (tk_names _ Htree _ _ Hn) as [Hne Hv].
  assert (lookup_path true path d = Ok c) as Hl by (by eapply lookup_calm).
  unfold read_dir in Hrun. step_in Hrun as u d1 H1; [by apply fs_begin_Err in H1|]. same_disk H1.
  step_in Hrun as q d2 H2; apply fs_lookup_run in H2 as [H2 ->];
    rewrite (lookup_path_nodes _ _ d d1), Hl in H2 by done; [done|]. injection H2 as ->.
  step_in Hrun as m d3 H3; apply fs_node_run in H3 as [H3 ->];
    rewrite Hn0, node_at_ne, Hn in H3 by done; [done|].
  injection H3 as ->. by step_in Hrun as d2 d3 H4.
Qed.

(** What the removal of one entry does to the others. *)
Definition removes_well (remove : PathBuf → FsM ()) : Prop :=
  (∀ F child d r d', good F d → removable F child → remove child d = (r, d') → fs_step F d d') ∧
  (∀ child d e d', good (only (components child)) d →
    dk_nodes d !! components child = Some Dir →
    remove child d = (Err e, d') → io_kind e ≠ NotFound).

Lemma removable_self c path :
  components path = c → Forall valid_name c → removable (only c) path.
Proof.
  intros <- Hv. left. unfold ours. simpl. rewrite owned_only. auto.
Qed.

Lemma remove_entry_kind remove path d c x e d' :
  removes_well remove → components path = c → good (only c) d →
  is_Some (dk_nodes d !! (c ++ [x])) →
  remove_entry remove path x d = (Err e, d') → io_kind e ≠ NotFound.
Proof.
  intros [_ Hkind] Hc Hd [n Hn] Hrun. unfold remove_entry in Hrun.
  pose proof (gd_tree _ _ Hd) as Htree. pose proof (tk_names _ Htree _ _ Hn) as [_ Hv].
  rewrite Forall_app, Forall_singleton in Hv. destruct Hv as [Hvc Hvx].
  assert (components (join path x) = c ++ [x]) as Hcj.
  { rewrite components_join; [by rewrite Hc|]. by apply valid_path_name. }
  step_in Hrun as u d1 H1; [by eapply map_err_kind in H1; [|intros ?; apply fs_begin_Err]|].
  apply st_map_err_inv in H1 as (o1 & H1 & _). same_disk H1. cbv zeta in Hrun.
  rewrite <- Hn0 in Htree, Hn.
  step_in Hrun as t d2 H2.
  { eapply map_err_kind in H2; [done|]. intros e'. by eapply metadata_kind. }
  apply st_map_err_inv in H2 as (o2 & H2 & Ho2). destruct o2 as [t2|]; [|done]. injection Ho2 as ->.
  same_disk H2. apply symlink_metadata_Ok in H2 as (q & n' & Hl & Hq & ->).
  destruct (fs_calls_found (join path x) d1 (c ++ [x]) n) as [Hl' Hnode]; [done..|].
  rewrite Hl in Hl'. injection Hl' as ->. rewrite Hnode in Hq. injection Hq as <-.
  step_in Hrun as u2 d3 H3; injection H3 as H3 <-.
  { unfold reject_reparse_metadata in H3. apply refuse_if_Err in H3 as [_ ->]. done. }
  rewrite <- Hn1 in Htree, Hn. destruct n as [|i|target]; simpl in Hrun.
  - eapply Hkind; [|by rewrite Hcj|exact Hrun]. rewrite Hcj.
    eapply (good_only (only c)); [|simpl; rewrite owned_only; by eexists].
    assert (fs_step (only c) d d2) as Hs by (apply step_same; congruence). by apply Hs.
  - eapply map_err_kind in Hrun; [done|]. intros e'. by eapply remove_file_kind.
  - eapply map_err_kind in Hrun; [done|]. intros e'. by eapply remove_file_kind.
Qed.

Lemma remove_entries_kind remove path c names d r d' :
  removes_well remove → components path = c → good (only c) d → NoDup names →
  dk_nodes d !! c = Some Dir → (∀ x, x ∈ names → is_Some (dk_nodes d !! (c ++ [x]))) →
  st_for names (remove_entry remove path) d = (r, d') →
  (∀ e, r = Err e → io_kind e ≠ NotFound) ∧
  (r = Ok () → good (only c) d' ∧ dk_nodes d' !! c = Some Dir).
Proof.
  intros Hrem Hc. revert d. induction names as [|x l IH]; intros d Hd Hnd Hdir Hall Hrun.
  { injection Hrun as <- <-. done. }
  cbn [st_for] in Hrun. apply NoDup_cons in Hnd as [Hx Hnd].
  destruct (Hall x) as [n Hn]; [set_solver|].
  pose proof (tk_names _ (gd_tree _ _ Hd) _ _ Hn) as [_ Hv].
  pose proof Hv as Hv'. rewrite Forall_app, Forall_singleton in Hv'. destruct Hv' as [Hvc Hvx].
  step_in Hrun as u d1 H1.
  { split; [|done]. intros e' [= <-]. eapply remove_entry_kind in H1; [done..|].
    apply Hall. set_solver. }
  pose proof (proj1 Hrem) as Hstep.
  assert (∀ F, good F d → removable F (join path x) → fs_step F d d1) as Hs.
  { intros F HF HrF. eapply remove_entry_step; [|exact HrF|exact HF|exact H1].
    intros. by eapply Hstep. }
  assert (components (join path x) = c ++ [x]) as Hcj.
  { rewrite components_join; [by rewrite Hc|]. by apply valid_path_name. }
  assert (good (only c) d1) as Hd1.
  { apply Hs; [done| |done]. apply removable_child; [by apply removable_self|done]. }
  assert (∀ k m, dk_nodes d !! k = Some m → ¬ (c ++ [x]) `prefix_of` k →
    dk_nodes d1 !! k = Some m) as Hkept.
  { intros k m Hk Hno. destruct (Hs (only (c ++ [x]))) as [_ [Hkept _ _]].
    - eapply (good_only (only c)); [done|]. simpl. rewrite owned_only. by eexists.
    - by apply removable_self.
    - eapply (good_only (only c)); [done|]. simpl. rewrite owned_only. by eexists.
    - simpl in Hkept. setoid_rewrite owned_only in Hkept. naive_solver. }
  eapply IH; [done|done| | |exact Hrun].
  - apply Hkept; [done|]. intros [k Hk]. apply (f_equal length) in Hk.
    rewrite !length_app in Hk. simpl in Hk. lia.
  - intros y Hy. destruct (Hall y) as [m Hm]; [set_solver|]. exists m. apply Hkept; [done|].
    intros [k Hk]. rewrite <- (assoc_L (++)) in Hk. apply app_inv_head in Hk.
    injection Hk as <- _. done.
Qed.

Lemma remove_owned_directory_removes fuel : removes_well (remove_owned_directory fuel).
Proof.
  induction fuel as [|fuel IH].
  { split.
    - intros F child d r d' Hd _ [= <- <-]. reflexivity.
    - by intros child d e d' _ _ [= <- <-]. }
  split; [intros F child d r d' Hd Hrem Hrun; by eapply remove_owned_directory_run|].
  intros child d e d' Hd Hdir Hrun. cbn [remove_owned_directory] in Hrun.
  pose proof (gd_tree _ _ Hd) as Htree. pose proof (tk_names _ Htree _ _ Hdir) as [_ Hv].
  step_in Hrun as names d1 H1.
  { eapply map_err_kind in H1; [done|]. intros e'. by eapply read_dir_kind. }
  apply st_map_err_inv in H1 as ([names'|] & H1 & Ho); [|done]. injection Ho as ->. same_disk H1.
  apply read_dir_Ok in H1 as (q & Hl & Hnames).
  assert (q = components child) as ->.
  { eapply leads_ours in Hl; [done|exact Hd|]. split; [done|]. left. simpl. by rewrite owned_only. }
  assert (fs_step (only (components child)) d d1) as Hs1 by (by apply step_same).
  destruct (Hs1 Hd) as [Hd1 _]. rewrite <- Hn in Hdir, Hnames.
  assert (NoDup names') as Hnd by (rewrite Hnames, read_dir_order_all; apply NoDup_children).
  assert (∀ x, x ∈ names' → is_Some (dk_nodes d1 !! (components child ++ [x]))) as Hex.
  { intros x. by rewrite Hnames, read_dir_order_all, elem_of_children. }
  step_in Hrun as u d2 H2;
    destruct (remove_entries_kind _ _ _ _ _ _ _ IH eq_refl Hd1 Hnd Hdir Hex H2) as [Hk Hok];
    [by apply Hk|].
  destruct u, Hok as [Hd2 Hdir2]; [done|]. eapply map_err_kind in Hrun; [done|].
  intros e'. eapply remove_dir_kind; [apply Hd2|done|done].
Qed.

(** If an owned tree is reported missing, it is. *)
Lemma remove_owned_tree_kind F path d e d' :
  good F d → ours F path → owned (fp_roots F) (components path) → components path ≠ [] →
  remove_owned_tree path d = (Err e, d') → io_kind e ≠ NotFound.
Proof.
  intros Hd Hours Hown Hne Hrun. destruct (removable_only F path d Hd Hours Hown) as [Hd' _].
  unfold remove_owned_tree in Hrun. apply st_try_inv in Hrun as (o & d1 & H1 & Hrun). same_disk H1.
  destruct o as [t|e0].
  - apply symlink_metadata_Ok in H1 as (q & n & Hl & Hq & ->).
    apply leads_ours with (F := F) in Hl as ->; [|done..]. rewrite node_at_ne in Hq by done.
    step_in Hrun as u d2 H2; injection H2 as H2 <-.
    { unfold reject_reparse_metadata in H2. apply refuse_if_Err in H2 as [_ ->]. done. }
    destruct n as [|i|target]; [|injection Hrun as <- _; done..].
    rewrite bool_decide_true in Hrun by done.
    step_in Hrun as d2 d3 H3; [done|]. apply st_get_Ok in H3 as [-> ->].
    eapply remove_owned_directory_removes; [|by rewrite Hn|exact Hrun].
    assert (fs_step (only (components path)) d d1) as Hs by (by apply step_same). by apply Hs.
  - case_bool_decide; [done|]. by injection Hrun as <- _.
Qed.
End missing.

(** ** Removal succeeds *)

Section live.
Context {order : ReadDirOrder} {order_laws : ReadDirOrderLaws}.
Implicit Types (d : Disk) (c : place).

Definition prune (c : place) (nodes : gmap place Node) : gmap place Node :=
  filter (λ kv, ¬ c `prefix_of` kv.1) nodes.
Definition pruned c d : Disk := set_nodes (prune c (dk_nodes d)) d.

(** A disk on which calls do not fail and the tree at [c] holds no link. *)
Record calm c d : Prop := {
  ca_tree : tree_ok (dk_nodes d);
  ca_faults : dk_faults d = [];
  ca_links : ∀ k target, dk_nodes d !! (c ++ k) ≠ Some (Symlink target);
}.

Lemma prune_lookup c nodes k :
  prune c nodes !! k = if decide (c `prefix_of` k) then None else nodes !! k.
Proof.
  unfold prune. rewrite map_lookup_filter. destruct (nodes !! k) as [n|]; simpl; [|by case_decide].
  case_guard; case_decide; simpl; done.
Qed.

Lemma prune_tree c nodes : c ≠ [] → tree_ok nodes → tree_ok (prune c nodes).
Proof.
  intros Hc [Hn Hcl]. split.
  - intros q n. rewrite prune_lookup. case_decide; [done|]. apply Hn.
  - intros q x n. rewrite prune_lookup. case_decide as Hp; [done|]. intros Hq%Hcl.
    destruct (decide (q = [])) as [->|Hq0]; [done|]. rewrite node_at_ne in Hq by done.
    rewrite node_at_ne by done. rewrite prune_lookup. rewrite decide_False; [done|].
    intros Hpre. apply Hp. etrans; [exact Hpre|by eexists].
Qed.

(** The nodes of a tree. *)
Definition tree_size c (nodes : gmap place Node) : nat :=
  size (filter (λ k, c `prefix_of` k) (dom nodes)).

Lemma tree_size_child c name nodes :
  nodes !! c = Some Dir → (tree_size (c ++ [name]) nodes < tree_size c nodes)%nat.
Proof.
  intros Hc. apply subset_size. split.
  - intros k. rewrite !elem_of_filter. intros [Hp ?]. split; [|done].
    etrans; [by eexists|exact Hp].
  - intros Hsub. specialize (Hsub c). rewrite !elem_of_filter in Hsub. destruct Hsub as [[r Hr] _].
    + split; [done|]. by apply elem_of_dom_2 in Hc.
    + apply (f_equal length) in Hr. rewrite !length_app in Hr. simpl in Hr. lia.
Qed.

Lemma tree_size_prune c c' nodes : (tree_size c (prune c' nodes) ≤ tree_size c nodes)%nat.
Proof.
  apply subseteq_size. intros k. rewrite !elem_of_filter, !elem_of_dom, prune_lookup.
  case_decide; [|done]. by intros [_ [? ?]].
Qed.

Lemma begin_calm d : dk_faults d = [] → fs_begin d = (Ok (), d).
Proof. unfold fs_begin, fs_fault. by intros ->. Qed.

Lemma metadata_calm path d c n :
  tree_ok (dk_nodes d) → dk_faults d = [] → components path = c → dk_nodes d !! c = Some n →
  symlink_metadata path d = (Ok (node_type n), d).
Proof.
  intros Htree Hf Hc Hn. unfold symlink_metadata. rewrite (st_bind_run _ _ _ _ _ (begin_calm d Hf)).
  pose proof (lookup_calm false path d c n Htree Hc Hn ltac:(done)) as Hl.
  erewrite st_bind_run; [|unfold fs_lookup; by rewrite Hl].
  pose proof (tk_names _ Htree _ _ Hn) as [Hne _].
  erewrite st_bind_run; [|unfold fs_node; by rewrite node_at_ne, Hn]. done.
Qed.

Lemma remove_file_calm path d c i :
  tree_ok (dk_nodes d) → dk_faults d = [] → components path = c → dk_nodes d !! c = Some (File i) →
  remove_file path d = (Ok (), pruned c d).
Proof.
  intros Htree Hf Hc Hn. unfold remove_file.
  erewrite st_bind_run; [|unfold st_map_err; by rewrite (begin_calm d Hf)].
  pose proof (lookup_calm false path d c _ Htree Hc Hn ltac:(done)) as Hl.
  erewrite st_bind_run; [|unfold fs_lookup; by rewrite Hl].
  pose proof (tk_names _ Htree _ _ Hn) as [Hne _].
  erewrite st_bind_run; [|unfold fs_node; by rewrite node_at_ne, Hn].
  unfold st_modify, pruned. do 2 f_equal. apply map_eq. intros k. rewrite prune_lookup.
  case_decide as Hp.
  - destruct Hp as [r ->]. destruct (decide (r = [])) as [->|Hr]; [by rewrite app_nil_r, lookup_delete_eq|].
    rewrite lookup_delete_None. right. destruct (dk_nodes d !! (c ++ r)) eqn:Hk; [|done].
    apply node_above in Hk; [|done|done]. rewrite node_at_ne in Hk by done. congruence.
  - rewrite lookup_delete_ne; [done|]. by intros <-.
Qed.

Lemma pruned_calm c c' d : c' ≠ [] → calm c d → calm c (pruned c' d).
Proof.
  intros Hc' [Ht Hf Hl]. split; [by apply prune_tree|done|]. intros k target. simpl.
  rewrite prune_lookup. case_decide; [done|]. apply Hl.
Qed.

Definition prune_names c (names : list rstr) d : Disk :=
  foldl (λ d name, pruned (c ++ [name]) d) d names.

Lemma prune_names_calm c names d : calm c d → calm c (prune_names c names d).
Proof.
  revert d. induction names as [|x l IH]; intros d Hd; [done|]. apply IH, pruned_calm; [|done].
  by destruct c.
Qed.
Lemma prune_names_other c names d k :
  (¬ c `prefix_of` k ∨ k = c) → dk_nodes (prune_names c names d) !! k = dk_nodes d !! k.
Proof.
  intros Hk. revert d. induction names as [|x l IH]; intros d; [done|]. cbn [prune_names foldl].
  unfold prune_names in IH. rewrite IH. simpl. rewrite prune_lookup. rewrite decide_False; [done|].
  intros Hpre. destruct Hk as [Hk| ->].
  - apply Hk. etrans; [by eexists|exact Hpre].
  - destruct Hpre as [r Hr]. apply (f_equal length) in Hr. rewrite !length_app in Hr.
    simpl in Hr. lia.
Qed.
Lemma prune_names_none c names d k :
  dk_nodes d !! k = None ∨ (∃ x, x ∈ names ∧ (c ++ [x]) `prefix_of` k) →
  dk_nodes (prune_names c names d) !! k = None.
Proof.
  revert d. induction names as [|x l IH]; intros d Hk.
  { by destruct Hk as [Hk|(x & Hx & _)]; [|apply elem_of_nil in Hx]. }
  cbn [prune_names foldl]. apply IH. simpl. rewrite prune_lookup.
  destruct Hk as [Hk|(y & [->|Hy]%elem_of_cons & Hp)].
  - left. by case_decide.
  - left. by rewrite decide_True.
  - right. by exists y.
Qed.
Lemma prune_names_faults c names d :
  dk_faults (prune_names c names d) = dk_faults d ∧ dk_inodes (prune_names c names d) = dk_inodes d.
Proof. revert d. induction names as [|x l IH]; intros d; [done|]. by destruct (IH (pruned (c ++ [x]) d)). Qed.

Definition removes (remove : PathBuf → FsM ()) (fuel : nat) : Prop := ∀ path d c,
  components path = c → calm c d → dk_nodes d !! c = Some Dir →
  (tree_size c (dk_nodes d) ≤ fuel)%nat → remove path d = (Ok (), pruned c d).

Lemma remove_entry_calm remove fuel path d c name :
  removes remove fuel → components path = c → calm c d → is_Some (dk_nodes d !! (c ++ [name])) →
  (tree_size (c ++ [name]) (dk_nodes d) ≤ fuel)%nat →
  remove_entry remove path name d = (Ok (), pruned (c ++ [name]) d).
Proof.
  intros Hrec Hc Hd [n Hn] Hsize. unfold remove_entry. destruct Hd as [Htree Hf Hlinks].
  erewrite st_bind_run; [|unfold st_map_err; by rewrite (begin_calm d Hf)]. cbv zeta.
  pose proof (tk_names _ Htree _ _ Hn) as [_ Hv]. rewrite Forall_app, Forall_singleton in Hv.
  assert (components (join path name) = c ++ [name]) as Hcj.
  { destruct Hv as [_ Hv]. rewrite components_join; [by rewrite Hc|]. by apply valid_path_name. }
  erewrite st_bind_run; [|unfold st_map_err; by rewrite (metadata_calm _ d _ n Htree Hf Hcj Hn)].
  unfold reject_reparse_metadata.
  assert (node_type n ≠ Type_Symlink) as Hns.
  { destruct n as [| |target]; [done..|]. exfalso. by apply (Hlinks [name] target). }
  rewrite (bool_decide_eq_false_2 _ Hns). erewrite st_bind_run; [|reflexivity].
  destruct n as [|i|target]; [| |done]; simpl.
  - apply Hrec; [done| |done|done]. split; [done..|]. intros k target. rewrite <- (assoc_L (++)).
    apply Hlinks.
  - unfold st_map_err. by erewrite remove_file_calm.
Qed.

Lemma remove_entries_calm remove fuel path names c d :
  removes remove fuel → components path = c → calm c d → NoDup names →
  (∀ x, x ∈ names → is_Some (dk_nodes d !! (c ++ [x])) ∧
    (tree_size (c ++ [x]) (dk_nodes d) ≤ fuel)%nat) →
  st_for names (remove_entry remove path) d = (Ok (), prune_names c names d).
Proof.
  intros Hrec Hc. revert d. induction names as [|x l IH]; intros d Hd Hnd Hall; [done|].
  cbn [st_for]. apply NoDup_cons in Hnd as [Hx Hnd].
  destruct (Hall x) as [Hs Hsz]; [set_solver|].
  erewrite st_bind_run; [|by eapply remove_entry_calm].
  apply IH; [|done|].
  - apply pruned_calm; [by destruct c|done].
  - intros y Hy. destruct (Hall y) as [Hs' Hsz']; [set_solver|]. simpl. split.
    + rewrite prune_lookup. rewrite decide_False; [done|]. intros [r Hr].
      rewrite <- (assoc_L (++)) in Hr. apply app_inv_head in Hr. injection Hr as <- _. done.
    + etrans; [apply tree_size_prune|done].
Qed.

Lemma remove_owned_directory_live fuel : removes (remove_owned_directory fuel) fuel.
Proof.
  induction fuel as [|fuel IH]; intros path d c Hc Hd Hdir Hsize.
  { exfalso. unfold tree_size in Hsize. apply Nat.le_0_r, size_empty_inv in Hsize.
    apply (not_elem_of_empty (C := gset place) c), Hsize, elem_of_filter. split; [done|].
    by eapply elem_of_dom_2. }
  cbn [remove_owned_directory]. pose proof (ca_tree _ _ Hd) as Htree.
  pose proof (ca_faults _ _ Hd) as Hf. pose proof (tk_names _ Htree _ _ Hdir) as [Hne _].
  set (names := read_dir_order (children (dk_nodes d) c)).
  assert (read_dir path d = (Ok names, d)) as Hread.
  { unfold read_dir. rewrite (st_bind_run _ _ _ _ _ (begin_calm d Hf)).
    erewrite st_bind_run; [|unfold fs_lookup; by erewrite lookup_calm].
    erewrite st_bind_run; [|unfold fs_node; by rewrite node_at_ne, Hdir]. done. }
  erewrite st_bind_run; [|unfold st_map_err; by rewrite Hread].
  assert (∀ x, x ∈ names ↔ is_Some (dk_nodes d !! (c ++ [x]))) as Hnames.
  { intros x. unfold names. rewrite read_dir_order_all. apply elem_of_children. }
  erewrite st_bind_run; [|eapply remove_entries_calm; [exact IH|done|done|..]].
  2: { unfold names. rewrite read_dir_order_all. apply NoDup_children. }
  2: { intros x Hx. split; [by apply Hnames|].
       pose proof (tree_size_child c x _ Hdir). lia. }
  destruct (prune_names_calm c names d Hd) as [Htree' Hf' _].
  destruct (prune_names_faults c names d) as [_ Hin].
  assert (dk_nodes (prune_names c names d) !! c = Some Dir) as Hdir'.
  { rewrite prune_names_other by (by right). done. }
  unfold st_map_err, remove_dir. rewrite (st_bind_run _ _ _ _ _ (begin_calm _ Hf')).
  erewrite st_bind_run; [|unfold fs_lookup; by erewrite lookup_calm].
  erewrite st_bind_run; [|unfold fs_node; by rewrite node_at_ne, Hdir'].
  erewrite st_bind_run; [|reflexivity]. rewrite bool_decide_false by done.
  rewrite bool_decide_true.
  2: { apply elem_of_nil_inv. intros x [n Hx]%elem_of_children. rewrite prune_names_none in Hx; [done|].
       destruct (decide (x ∈ names)) as [Hin'|Hnot]; [right; by exists x|left].
       apply eq_None_not_Some. by rewrite <- Hnames. }
  simpl. unfold pruned, set_nodes. rewrite Hin, Hf', Hf. do 2 f_equal.
  apply map_eq. intros k. rewrite prune_lookup. case_decide as Hp.
  - destruct Hp as [r ->]. destruct r as [|x r]; [by rewrite app_nil_r, lookup_delete_eq|].
    rewrite lookup_delete_None. right. apply prune_names_none.
    destruct (decide (x ∈ names)) as [Hx|Hx].
    + right. exists x. split; [done|]. exists r. by rewrite <- (assoc_L (++)).
    + left. rewrite Hnames in Hx. apply eq_None_not_Some. intros [n Hn]. apply Hx.
      destruct r as [|y r]; [by eexists|]. change (x :: y :: r) with ([x] ++ y :: r) in Hn.
      rewrite (assoc_L (++)) in Hn. apply node_above in Hn; [|done|done].
      rewrite node_at_ne in Hn by (by destruct c). by eexists.
  - rewrite lookup_delete_ne by (by intros <-). by apply prune_names_other; left.
Qed.

(** C13: when calls do not fail, [remove_owned_tree] removes the whole tree of a directory that
    holds no symbolic link, and nothing else; the recursion ends. *)
Theorem remove_owned_tree_live path d :
  calm (components path) d → dk_nodes d !! components path = Some Dir →
  remove_owned_tree path d = (Ok (), pruned (components path) d).
Proof.
  intros Hd Hdir. unfold remove_owned_tree. pose proof (ca_tree _ _ Hd) as Htree.
  pose proof (ca_faults _ _ Hd) as Hf.
  erewrite st_bind_run;
    [|unfold st_try; by rewrite (metadata_calm _ d _ Dir Htree Hf eq_refl Hdir)].
  simpl. erewrite st_bind_run; [|reflexivity]. erewrite st_bind_run; [|reflexivity].
  refine (remove_owned_directory_live (remove_fuel d) path d _ eq_refl Hd Hdir _).
  unfold tree_size, remove_fuel.
  rewrite <- size_dom. apply Nat.le_le_succ_r, subseteq_size.
  intros k. rewrite elem_of_filter. tauto.
Qed.
End live.

(** ** Removal stops at links *)

Section links.
Context {order : ReadDirOrder} {order_laws : ReadDirOrderLaws}.
Implicit Types (d : Disk) (c : place).

(** Something of the tree at [c] is gone, but no link, and nothing else has changed. *)
Record shrunk c d d' : Prop := {
  sk_tree : tree_ok (dk_nodes d');
  sk_outside : ∀ q, ¬ c `prefix_of` q → dk_nodes d' !! q = dk_nodes d !! q;
  sk_kept : ∀ q n, dk_nodes d' !! q = Some n → dk_nodes d !! q = Some n;
  sk_links : ∀ q target, dk_nodes d !! q = Some (Symlink target) →
    dk_nodes d' !! q = Some (Symlink target);
  sk_inodes : dk_inodes d' = dk_inodes d;
}.
Lemma shrunk_same c d d' : tree_ok (dk_nodes d) → unchanged d d' → shrunk c d d'.
Proof. intros Ht [Hn Hi]. split; rewrite ?Hn; done. Qed.
Lemma shrunk_trans c d1 d2 d3 : shrunk c d1 d2 → shrunk c d2 d3 → shrunk c d1 d3.
Proof.
  intros [? O1 K1 L1 I1] [? O2 K2 L2 I2]. split; [done|..].
  - intros q Hq. by rewrite O2, O1.
  - intros q n Hq. by apply K1, K2.
  - intros q target Hq. by apply L2, L1.
  - congruence.
Qed.
Lemma shrunk_below c name d d' : shrunk (c ++ [name]) d d' → shrunk c d d'.
Proof.
  intros [? O K L I]. split; [done| |done..]. intros q Hq. apply O. intros Hp. apply Hq.
  etrans; [by eexists|exact Hp].
Qed.
(** The end of a removal that found no link at [q]. *)
Lemma shrunk_delete c q n d d' :
  tree_ok (dk_nodes d) → dk_nodes d !! q = Some n → (∀ target, n ≠ Symlink target) →
  n ≠ Dir ∨ children (dk_nodes d) q = [] → c `prefix_of` q →
  dk_nodes d' = delete q (dk_nodes d) → dk_inodes d' = dk_inodes d → shrunk c d d'.
Proof.
  intros Ht Hq Hlink Hleaf Hc Hn Hi.
  assert (∀ p, p ≠ [] → dk_nodes d !! (q ++ p) = None) as Hnone.
  { intros p Hp. destruct Hleaf as [Hnd|Hch]; [|by apply children_nil].
    destruct (dk_nodes d !! (q ++ p)) as [m|] eqn:Hm; [|done].
    apply node_above in Hm; [|done..]. pose proof (tk_names _ Ht _ _ Hq) as [Hne _].
    rewrite node_at_ne in Hm by done. congruence. }
  split; rewrite ?Hn; [by apply tree_delete| |by intros p m [_ ?]%lookup_delete_Some|intros p target Hp|done].
  - intros p Hp. apply lookup_delete_ne. by intros <-.
  - rewrite lookup_delete_ne; [done|]. intros <-. rewrite Hq in Hp. injection Hp as ->. by eapply Hlink.
Qed.

(** Where a path leads whose directory is reached without a link. *)
Lemma leads_in d path c name :
  tree_ok (dk_nodes d) → dk_nodes d !! c = Some Dir → components path = c ++ [name] → valid_name name →
  lookup_path false path d = Ok (c ++ [name]).
Proof.
  intros Ht Hc Hp Hname. pose proof (tk_names _ Ht _ _ Hc) as [Hne _].
  unfold lookup_path. rewrite Hp. apply resolve_in; [done|by rewrite node_at_ne|done|done].
Qed.
Lemma remove_entry_links remove path c name d r d' :
  (∀ child d r d', tree_ok (dk_nodes d) → dk_nodes d !! components child = Some Dir →
     remove child d = (r, d') → shrunk (components child) d d') →
  components path = c → tree_ok (dk_nodes d) → dk_nodes d !! c = Some Dir → valid_name name →
  remove_entry remove path name d = (r, d') → shrunk (c ++ [name]) d d'.
Proof.
  intros Hrec Hc Ht Hdir Hname Hrun. unfold remove_entry in Hrun.
  assert (components (join path name) = c ++ [name]) as Hchild.
  { rewrite components_join by (by apply valid_path_name). by rewrite Hc. }
  step_in Hrun as u d1 H1; apply st_map_err_inv in H1 as (o1 & H1 & _);
    same_disk H1; [by apply shrunk_same|].
  cbv zeta in Hrun. step_in Hrun as t d2 H2; apply st_map_err_inv in H2 as (o2 & H2 & Ho);
    same_disk H2; [apply shrunk_same; [done|split; congruence]|].
  destruct o2 as [t'|]; [|done]. injection Ho as <-.
  apply symlink_metadata_Ok in H2 as (q & n & Hl & Hq & ->).
  rewrite (leads_in d1 _ c name) in Hl by (by rewrite ?Hn). injection Hl as <-.
  assert (dk_nodes d2 !! (c ++ [name]) = Some n) as Hn2.
  { rewrite node_at_ne in Hq by (by destruct c). by rewrite Hn0. }
  assert (dk_nodes d2 = dk_nodes d) as Hsame by congruence.
  assert (shrunk (c ++ [name]) d d2) as H02 by (apply shrunk_same; [done|split; congruence]).
  step_in Hrun as u2 d3 H3; injection H3 as H3 <-; [done|].
  unfold reject_reparse_metadata in H3. apply refuse_if_Ok, bool_decide_eq_false in H3.
  eapply shrunk_trans; [exact H02|]. case_bool_decide as Hkind.
  - rewrite <- Hchild. eapply Hrec; [by rewrite Hsame| |exact Hrun].
    rewrite Hchild, Hn2. by destruct n.
  - apply st_map_err_inv in Hrun as (o4 & H4 & _).
    apply remove_file_run in H4 as [(e & _ & Hun)|(_ & q & m & Hl & Hm & Hnd & Hd1 & Hd2)];
      [apply shrunk_same; [by rewrite Hsame|done]|].
    rewrite (leads_in d2 _ c name) in Hl by (by rewrite ?Hsame). injection Hl as <-.
    rewrite Hn2 in Hm. injection Hm as <-.
    eapply (shrunk_delete _ _ n); [by rewrite Hsame|done|by intros target ->|by left|done..].
Qed.

Lemma remove_directory_links fuel path d r d' :
  tree_ok (dk_nodes d) → dk_nodes d !! components path = Some Dir →
  remove_owned_directory fuel path d = (r, d') →
  shrunk (components path) d d' ∧ (r = Ok () → ∀ p, dk_nodes d' !! (components path ++ p) = None).
Proof.
  revert path d r d'. induction fuel as [|fuel IH]; intros path d r d' Ht Hdir Hrun.
  { injection Hrun as <- <-. split; [by apply shrunk_same|done]. }
  cbn [remove_owned_directory] in Hrun. step_in Hrun as names d1 H1;
    apply st_map_err_inv in H1 as (o & H1 & Ho); same_disk H1; [split; [by apply shrunk_same|done]|].
  destruct o as [names'|]; [|done]. injection Ho as ->.
  assert (shrunk (components path) d d1) as Hs1 by (by apply shrunk_same).
  apply read_dir_Ok in H1 as (q & _ & Hnames).
  assert (Forall valid_name names') as Hv.
  { rewrite Hnames, read_dir_order_all. apply children_valid. done. }
  set (I := λ d, tree_ok (dk_nodes d) ∧ dk_nodes d !! components path = Some Dir ∧
    shrunk (components path) d1 d).
  assert (keeps (inv_kept I) (st_for names' (remove_entry (remove_owned_directory fuel) path))) as Hk.
  { apply (keeps_for_in _ _ _). intros name Hname d3 (Ht3 & Hd3 & Hs3).
    destruct (remove_entry _ path name d3) as [r3 d4] eqn:Hrun3. rewrite Forall_forall in Hv.
    eapply remove_entry_links in Hrun3; [|intros; by eapply IH|done..|by apply Hv].
    split_and!; [apply Hrun3| |eapply shrunk_trans; [done|by eapply shrunk_below]].
    cbn. rewrite (sk_outside _ _ _ Hrun3); [done|]. intros Hp. apply prefix_length in Hp.
    rewrite length_app in Hp. cbn in Hp. lia. }
  specialize (Hk d1). assert (I d1) as HI1.
  { split_and!; [by rewrite Hn..|]. apply shrunk_same; [by rewrite Hn|done]. }
  step_in Hrun as u d2 H2; rewrite H2 in Hk; destruct (Hk HI1) as (Ht2 & Hd2 & Hs2);
    [split; [by eapply shrunk_trans|done]|].
  apply st_map_err_inv in Hrun as (o & H3 & ->).
  apply remove_dir_run in H3 as [(e & -> & Hun)|(-> & q3 & Hl & Hq & Hc & Hd3 & Hi3)].
  { split; [|done]. eapply shrunk_trans; [by eapply shrunk_trans|by apply shrunk_same]. }
  assert (q3 = components path) as ->.
  { pose proof (lookup_calm false path d2 _ Dir Ht2 eq_refl Hd2) as Hl'. rewrite Hl' in Hl; [congruence|done]. }
  split.
  - eapply shrunk_trans; [by eapply shrunk_trans|].
    eapply (shrunk_delete _ _ Dir); [done|done|done|by right|done..].
  - intros _ p. rewrite Hd3. destruct (decide (p = [])) as [->|Hp].
    + by rewrite app_nil_r, lookup_delete_eq.
    + rewrite lookup_delete_None. right. by apply children_nil.
Qed.

(** C17: [remove_owned_tree] never follows or removes a symbolic link, whatever fails on the
    way: it changes nothing outside the tree, writes and creates nothing, and every link of the
    tree is still there; if it succeeds, the whole tree is gone, so that there was no link in
    it.  The directory the tree is in has to be one that is reached without a link. *)
Theorem removal_stops_at_links path c name d r d' :
  tree_ok (dk_nodes d) → components path = c ++ [name] → valid_name name →
  node_at (dk_nodes d) c = Some Dir → remove_owned_tree path d = (r, d') →
  (∀ q, ¬ components path `prefix_of` q → dk_nodes d' !! q = dk_nodes d !! q) ∧
  (∀ q n, dk_nodes d' !! q = Some n → dk_nodes d !! q = Some n) ∧
  (∀ q target, dk_nodes d !! q = Some (Symlink target) → dk_nodes d' !! q = Some (Symlink target)) ∧
  dk_inodes d' = dk_inodes d ∧
  (r = Ok () → ∀ p, dk_nodes d' !! (components path ++ p) = None).
Proof.
  intros Ht Hc Hname Hin Hrun.
  enough (shrunk (components path) d d' ∧ (r = Ok () → ∀ p, dk_nodes d' !! (components path ++ p) = None))
    as [[] ?] by done.
  assert (lookup_path false path d = Ok (components path)) as Hl.
  { unfold lookup_path. rewrite Hc. by apply resolve_in. }
  unfold remove_owned_tree in Hrun. apply st_try_inv in Hrun as (o & d1 & H1 & Hrun). same_disk H1.
  assert (shrunk (components path) d d1) as Hs1 by (by apply shrunk_same).
  assert (components path ≠ []) as Hne by (rewrite Hc; by destruct c).
  destruct o as [t|e].
  - apply symlink_metadata_Ok in H1 as (q & n & Hlq & Hq & ->). rewrite Hl in Hlq. injection Hlq as <-.
    rewrite node_at_ne in Hq by done.
    step_in Hrun as u d2 H2; injection H2 as _ <-; [by split|].
    case_bool_decide as Hkind; [|by injection Hrun as <- <-].
    step_in Hrun as d2 d3 H3; [done|]. apply st_get_Ok in H3 as [-> ->].
    apply remove_directory_links in Hrun as [Hs Hgone];
      [|by rewrite Hn|rewrite Hn, Hq; by destruct n].
    split; [by eapply shrunk_trans|done].
  - case_bool_decide as He; injection Hrun as <- <-; [|done]. split; [done|]. intros _ p.
    apply eq_None_not_Some. intros [n Hn']. rewrite Hn in Hn'.
    pose proof (symlink_metadata_Err _ _ _ _ H1 He _ Hl) as Hnone. rewrite node_at_ne in Hnone by done.
    destruct (decide (p = [])) as [->|Hp]; [by rewrite app_nil_r, Hnone in Hn'|].
    apply node_above in Hn'; [|done..]. rewrite node_at_ne in Hn' by done. congruence.
Qed.
End links.
