(* ===== verification/Announce.v ===== *)
(** * Offer announcements

    Models the trust gates and [OfferAnnouncementHandler] of [crates/meshelf-net/src/lib.rs].
    The handler sees its store through the [OfferCardStore] trait: here a class of operations,
    with the laws a store promises ([OfferCardStoreSpec]) against which the handler is
    verified.  The redb store of [OfferStore] is the instance that discharges them.

    [handle_sync] runs its second half under the mutation lock; before the lock it only reads
    the number of cards.  The two halves are definitions of their own, so that the properties
    of the locked half hold whatever other handlers did in between. *)

From S2P Require Import Prelude RustStr StdIo Offer Records Protocol OfferStore Activation.

(** ** Trust gates *)

(** [IpAddr] and [SocketAddr] *)
Inductive IpAddr := V4 (bits : Z) | V6 (bits : Z).
#[export] Instance IpAddr_eq_dec : EqDecision IpAddr.
Proof. solve_decision. Defined.
#[export] Program Instance IpAddr_countable : Countable IpAddr :=
  inj_countable' (λ ip, match ip with V4 b => inl b | V6 b => inr b end)
    (λ s : Z + Z, match s with inl b => V4 b | inr b => V6 b end) _.
Next Obligation. by intros []. Qed.
Record SocketAddr := mkSocketAddr { sa_ip : IpAddr; sa_port : Z }.
#[export] Instance SocketAddr_eq_dec : EqDecision SocketAddr.
Proof. solve_decision. Defined.

Inductive TrustDecision := Allow | Deny (reason : rstr).
#[export] Instance TrustDecision_eq_dec : EqDecision TrustDecision.
Proof. solve_decision. Defined.

(** The [TrustGate] trait. *)
Definition TrustGate : Type := SocketAddr → ClientHello → TrustDecision.

Definition DenyAll : TrustGate := λ _ _, Deny (str "secure pairing is not configured").

Definition ExactDeviceAllowList (allowed : gset DeviceId) : TrustGate := λ _ hello,
  if bool_decide (ch_device_id hello ∈ allowed) then Allow
  else Deny (str "claimed device ID is not in the development allowlist").

(** The registry behind its lock, [None] when the lock is poisoned. *)
Definition TailnetPeerAllowList (registry : option (gmap DeviceId (gset IpAddr))) : TrustGate :=
  λ remote hello,
    match registry with
    | None => Deny (str "tailnet peer registry is unavailable")
    | Some allowed =>
        match allowed !! ch_device_id hello with
        | Some addresses =>
            if bool_decide (sa_ip remote ∈ addresses) then Allow
            else Deny (str "accepted meshelf identity arrived from an unrecognized Tailscale address")
        | None => Deny (str "meshelf device has not been accepted")
        end
    end.

(** [TailnetPeerAllowList::new]: a later entry for a device replaces an earlier one, as
    [collect] into a map does. *)
Definition allow_list_new (peers : list (DeviceId * list IpAddr)) : gmap DeviceId (gset IpAddr) :=
  foldl (λ m peer, <[peer.1 := list_to_set peer.2]> m) ∅ peers.

(** ** The store as the handler sees it *)

Class OfferCardStore (S : Type) := {
  ocs_get_offer_card : DeviceId → OfferId → St S StoreError (option OfferCardRecord);
  ocs_read_offer_shelf : St S StoreError (list OfferCardRecord);
  ocs_insert_offer_card : OfferCardInput → St S StoreError OfferCardInsert;
}.

(** What a card store promises, in terms of the cards it holds: reads report them and change
    nothing; an insertion that succeeds either found the offer with the same descriptor, or
    added it and evicted others; an insertion that fails changes nothing; there are never more
    cards than the capacity. *)
Class OfferCardStoreSpec (S : Type) `{OfferCardStore S} := {
  ocs_view : Type;
  ocs_cards : S → ocs_view;
  ocs_card : ocs_view → DeviceId → OfferId → option OfferCardRecord;
  ocs_count : ocs_view → Z;
  ocs_ok : S → Prop;
  ocs_bound s : ocs_ok s → 0 ≤ ocs_count (ocs_cards s) ≤ V2_MAX_LIVE_ENTRIES;
  ocs_get_spec s d o r s' :
    ocs_ok s → ocs_get_offer_card d o s = (r, s') →
    ocs_ok s' ∧ ocs_cards s' = ocs_cards s ∧
    (∀ c, r = Ok c → c = ocs_card (ocs_cards s) d o);
  ocs_shelf_spec s r s' :
    ocs_ok s → ocs_read_offer_shelf s = (r, s') →
    ocs_ok s' ∧ ocs_cards s' = ocs_cards s ∧
    (∀ l, r = Ok l → zlen l = ocs_count (ocs_cards s));
  ocs_insert_spec s input r s' :
    ocs_ok s → ocs_insert_offer_card input s = (r, s') →
    ocs_ok s' ∧
    match r with
    | Err _ => ocs_cards s' = ocs_cards s
    | Ok out =>
        let d := ci_source_device input in let o := ci_offer_id input in
        (ic_inserted out = false ∧ ocs_cards s' = ocs_cards s ∧
         ocs_card (ocs_cards s) d o = Some (ic_record out) ∧
         card_descriptor (ic_record out) = ci_descriptor input) ∨
        (ic_inserted out = true ∧ ocs_card (ocs_cards s) d o = None ∧
         ocs_card (ocs_cards s') d o = Some (ic_record out) ∧
         card_descriptor (ic_record out) = ci_descriptor input ∧
         (∀ d' o' c, (d', o') ≠ (d, o) →
            ocs_card (ocs_cards s') d' o' = Some c → ocs_card (ocs_cards s) d' o' = Some c))
    end;
}.

(** ** The announcement handler *)

(** [ProtocolError]'s [Display] *)
Definition protocol_error_to_string (e : ProtocolError) : rstr :=
  match e with
  | Proto_Io error => str "I/O error: " ++ io_message error
  | Proto_Json error => str "JSON error: " ++ error
  | EmptyFrame => str "frame is empty"
  | FrameTooLarge bytes maximum =>
      str "frame length " ++ show_int bytes ++ str " exceeds maximum " ++ show_int maximum
  | LengthOverflow => str "frame length cannot be represented as u32"
  | V2Validation detail => str "v2 message validation failed: " ++ detail
  end.

Section handler.
Context {S : Type} `{!OfferCardStore S}.
Notation M := (St S NetError).

Definition offer_storage (error : StoreError) : NetError :=
  OfferStorage (store_error_to_string error).

Definition live_count : M Z :=
  shelf ← st_map_err offer_storage ocs_read_offer_shelf;
  st_lift (ok_or (try_from U32_MAX (zlen shelf))
    (OfferStorage (str "offer card count exceeds u32"))).

(** [OfferAnnouncementHandler::ack] *)
Definition ack (offer_id : OfferId) (code : OfferAckCode) (live_entries pruned_entries : Z)
    (detail : option rstr) : OfferAck :=
  mkOfferAck offer_id code live_entries V2_MAX_LIVE_ENTRIES pruned_entries detail.

(** Before the lock: the refusals that need no card. *)
Definition handle_unlocked (authenticated_source listener_device : DeviceId)
    (announcement : OfferAnnouncement) : M (option OfferAck) :=
  let offer_id := an_offer_id announcement in
  live_entries ← live_count;
  if negb (bool_decide (an_source_device announcement = authenticated_source)) then
    mret (Some (ack offer_id Ack_RefusedInvalid live_entries 0
      (Some (str "source device does not match authenticated client"))))
  else if negb (bool_decide (an_target_device announcement = listener_device)) then
    mret (Some (ack offer_id Ack_RefusedInvalid live_entries 0
      (Some (str "target device does not match listener"))))
  else
    match announcement_validate announcement with
    | Err error =>
        mret (Some (ack offer_id Ack_RefusedInvalid live_entries 0
          (Some (str "invalid offer announcement: " ++ protocol_error_to_string error))))
    | Ok _ => mret None
    end.

(** Under the lock: look the card up, answer for a known one, insert a new one. *)
Definition handle_locked (authenticated_source : DeviceId) (announcement : OfferAnnouncement)
    : M OfferAck :=
  let offer_id := an_offer_id announcement in
  live_entries ← live_count;
  existing ← st_map_err offer_storage (ocs_get_offer_card authenticated_source offer_id);
  match existing with
  | Some existing =>
      let '(code, detail) :=
        if bool_decide (card_descriptor existing = an_descriptor announcement)
        then (Ack_Duplicate, None)
        else (Ack_RefusedConflict,
              Some (str "offer ID is already stored with a different descriptor")) in
      mret (ack offer_id code live_entries 0 detail)
  | None =>
      inserted ← st_map_err offer_storage (ocs_insert_offer_card
        (mkOfferCardInput authenticated_source offer_id (an_descriptor announcement) Available));
      let code := if ic_inserted inserted then Ack_Stored else Ack_Duplicate in
      live_entries ← live_count;
      mret (ack offer_id code live_entries (ic_purged inserted) None)
  end.

(** [handle_sync]; a poisoned lock is reported as a storage error. *)
Definition handle_sync (lock_poisoned : bool) (authenticated_source listener_device : DeviceId)
    (announcement : OfferAnnouncement) : M OfferAck :=
  refusal ← handle_unlocked authenticated_source listener_device announcement;
  match refusal with
  | Some refusal => mret refusal
  | None =>
      st_lift (refuse_if lock_poisoned (OfferStorage (str "offer card lock is poisoned")));;
      handle_locked authenticated_source announcement
  end.
End handler.

(** ** Properties of the handler *)

Section handler_lemmas.
Context {S : Type} `{!OfferCardStore S} `{!OfferCardStoreSpec S}.
Implicit Types (s : S) (a : OfferAnnouncement).

Lemma live_count_spec s r s' :
  ocs_ok s → live_count s = (r, s') →
  ocs_ok s' ∧ ocs_cards s' = ocs_cards s ∧ (∀ n, r = Ok n → 0 ≤ n ≤ V2_MAX_LIVE_ENTRIES).
Proof.
  intros Hok Hrun. unfold live_count, mbind, st_bind, st_map_err in Hrun.
  destruct (ocs_read_offer_shelf s) as [shelf s1] eqn:Hshelf.
  destruct (ocs_shelf_spec _ _ _ Hok Hshelf) as (Hok1 & Hcards & Hlen).
  pose proof (ocs_bound _ Hok1) as Hb. rewrite Hcards in Hb.
  destruct shelf as [l|e]; simpl in Hrun; injection Hrun as <- <-; split_and!; try done.
  intros n Hn%ok_or_Ok%try_from_Some. rewrite (Hlen _ eq_refl) in Hn. lia.
Qed.

(** The announcement comes from the authenticated device, is meant for this one, and is
    well formed. *)
Definition authentic (source listener : DeviceId) a : Prop :=
  an_source_device a = source ∧ an_target_device a = listener ∧ announcement_validate a = Ok ().

Definition refusal_detail (source listener : DeviceId) a (detail : option rstr) : Prop :=
  detail = Some (str "source device does not match authenticated client") ∨
  detail = Some (str "target device does not match listener") ∨
  ∃ e, announcement_validate a = Err e ∧
       detail = Some (str "invalid offer announcement: " ++ protocol_error_to_string e).

Lemma handle_unlocked_spec source listener a s r s' :
  ocs_ok s → handle_unlocked source listener a s = (r, s') →
  ocs_ok s' ∧ ocs_cards s' = ocs_cards s ∧
  (∀ o, r = Ok o →
    match o with
    | None => authentic source listener a
    | Some k => ¬ authentic source listener a ∧ ack_offer_id k = an_offer_id a ∧
        ack_code k = Ack_RefusedInvalid ∧ 0 ≤ ack_live_entries k ≤ V2_MAX_LIVE_ENTRIES ∧
        ack_max_live_entries k = V2_MAX_LIVE_ENTRIES ∧
        refusal_detail source listener a (ack_detail k)
    end).
Proof.
  intros Hok Hrun. unfold handle_unlocked, mbind, st_bind in Hrun.
  destruct (live_count s) as [n s1] eqn:Hn.
  destruct (live_count_spec _ _ _ Hok Hn) as (Hok1 & Hcards & Hb).
  destruct n as [n|err]; [|by injection Hrun as <- <-]. specialize (Hb _ eq_refl).
  unfold authentic, refusal_detail.
  destruct (bool_decide_reflect (an_source_device a = source)); simpl in Hrun;
    [destruct (bool_decide_reflect (an_target_device a = listener)); simpl in Hrun;
     [destruct (announcement_validate a) as [[]|err] eqn:Hv; simpl in Hrun|]|];
    injection Hrun as <- <-; (split_and!; [done..|intros ? [= <-]; simpl]);
    split_and!; try naive_solver lia.
Qed.

(** What the locked half did, by answer. *)
Definition handled source a s (r : result NetError OfferAck) s' : Prop :=
  let before := ocs_card (ocs_cards s) source (an_offer_id a) in
  let after := ocs_card (ocs_cards s') source (an_offer_id a) in
  let stored := before = None ∧ ∃ c, after = Some c ∧ card_descriptor c = an_descriptor a in
  match r with
  | Ok k =>
      match ack_code k with
      | Ack_Stored => stored
      | Ack_Duplicate => ocs_cards s' = ocs_cards s ∧
          ∃ c, before = Some c ∧ card_descriptor c = an_descriptor a
      | Ack_RefusedConflict => ocs_cards s' = ocs_cards s ∧
          ∃ c, before = Some c ∧ card_descriptor c ≠ an_descriptor a
      | Ack_RefusedInvalid | Ack_RefusedCapacity => False
      end
  | Err _ => ocs_cards s' = ocs_cards s ∨ stored
  end.

Lemma handle_locked_spec source a s r s' :
  ocs_ok s → handle_locked source a s = (r, s') →
  ocs_ok s' ∧ handled source a s r s' ∧
  (∀ k, r = Ok k → ack_offer_id k = an_offer_id a ∧
     0 ≤ ack_live_entries k ≤ V2_MAX_LIVE_ENTRIES ∧
     ack_max_live_entries k = V2_MAX_LIVE_ENTRIES ∧
     (ack_detail k = None ∨
      ack_detail k = Some (str "offer ID is already stored with a different descriptor"))).
Proof.
  intros Hok Hrun. unfold handle_locked, mbind, st_bind in Hrun.
  destruct (live_count s) as [n s1] eqn:Hn.
  destruct (live_count_spec _ _ _ Hok Hn) as (Hok1 & Hcards1 & Hb).
  destruct n as [n|e]; [|injection Hrun as <- <-; split_and!; [done|by left|done]].
  specialize (Hb _ eq_refl). unfold st_map_err in Hrun.
  destruct (ocs_get_offer_card _ _ s1) as [got s2] eqn:Hget.
  destruct (ocs_get_spec _ _ _ _ _ Hok1 Hget) as (Hok2 & Hcards2 & Hgot).
  rewrite Hcards1 in Hcards2, Hgot.
  destruct got as [existing|e]; simpl in Hrun;
    [|injection Hrun as <- <-; split_and!; [done|by left|done]].
  pose proof (Hgot _ eq_refl) as Hexisting. unfold handled.
  destruct existing as [c|]; simpl in Hrun.
  { case_bool_decide; injection Hrun as <- <-; simpl;
      (split_and!; [done|done|eauto|intros ? [= <-]; simpl; auto]). }
  destruct (ocs_insert_offer_card _ s2) as [ins s3] eqn:Hins.
  destruct (ocs_insert_spec _ _ _ _ Hok2 Hins) as (Hok3 & Hcases). rewrite Hcards2 in Hcases.
  destruct ins as [out|e]; simpl in Hrun, Hcases;
    [|injection Hrun as <- <-; split_and!; [done|by left|done]].
  destruct Hcases as [(_ & _ & Hsome & _)|(Hi & Hnone & Hcard & Hd & _)]; [congruence|].
  rewrite Hi in Hrun.
  destruct (live_count s3) as [n4 s4] eqn:Hn4.
  destruct (live_count_spec _ _ _ Hok3 Hn4) as (Hok4 & Hcards4 & Hb4).
  destruct n4 as [n4|e]; injection Hrun as <- <-; rewrite Hcards4; simpl.
  - specialize (Hb4 _ eq_refl). split_and!; [done|done|eauto|intros ? [= <-]; simpl; auto].
  - split_and!; [done|right; split; eauto|done].
Qed.

Lemma handle_sync_run poisoned source listener a s r s' :
  ocs_ok s → handle_sync poisoned source listener a s = (r, s') →
  ocs_ok s' ∧
  (authentic source listener a ∧ handled source a s r s' ∨
   ocs_cards s' = ocs_cards s ∧
   ∀ k, r = Ok k → ack_code k = Ack_RefusedInvalid ∧ ¬ authentic source listener a).
Proof.
  intros Hok Hrun. unfold handle_sync, mbind, st_bind in Hrun.
  destruct (handle_unlocked source listener a s) as [early s1] eqn:Hun.
  destruct (handle_unlocked_spec _ _ _ _ _ _ Hok Hun) as (Hok1 & Hcards1 & Hearly).
  destruct early as [[k|]|e].
  - injection Hrun as <- <-. destruct (Hearly _ eq_refl) as (? & ? & ? & _).
    split; [done|]. right. split; [done|]. naive_solver.
  - pose proof (Hearly _ eq_refl) as Hauth. destruct poisoned; simpl in Hrun.
    { injection Hrun as <- <-. split; [done|]. right. by split. }
    apply handle_locked_spec in Hrun as (Hok' & Hh & _); [|done].
    split; [done|]. left. split; [done|]. unfold handled in *. by rewrite Hcards1 in Hh.
  - injection Hrun as <- <-. split; [done|]. right. by split.
Qed.

(** C22: the answer to an announcement tells what happened.  [Stored]: it was authentic, the
    offer was unknown and now has a card with its descriptor.  [Duplicate] and
    [RefusedConflict]: it was authentic and the card already there, with the same or another
    descriptor, stays as it is.  [RefusedInvalid]: it was not authentic, and nothing changed.
    [RefusedCapacity] is never answered.  Even when the handler fails, nothing but an
    authentic announcement is ever stored. *)
Theorem handle_sync_spec poisoned source listener a s r s' :
  ocs_ok s → handle_sync poisoned source listener a s = (r, s') →
  ocs_ok s' ∧
  (authentic source listener a ∧ handled source a s r s' ∨
   ocs_cards s' = ocs_cards s ∧
   ∀ k, r = Ok k → ack_code k = Ack_RefusedInvalid ∧ ¬ authentic source listener a).
Proof. apply handle_sync_run. Qed.
End handler_lemmas.

(** *** Every answer can be sent *)

(** The values of an announcement are machine integers and its strings fit memory. *)
Definition descriptor_typed (d : OfferDescriptor) : Prop :=
  match d with
  | Descriptor_Text utf8_bytes line_count preview =>
      is_u64 utf8_bytes ∧ is_u64 line_count ∧ is_u64 (str_len preview)
  | Descriptor_File root_name total_bytes => is_u64 (str_len root_name) ∧ is_u64 total_bytes
  | Descriptor_Folder root_name total_bytes entry_count file_count directory_count =>
      is_u64 (str_len root_name) ∧ is_u64 total_bytes ∧ is_u64 entry_count ∧
      is_u64 file_count ∧ is_u64 directory_count
  end.
Definition announcement_typed (a : OfferAnnouncement) : Prop :=
  is_u64 (an_protocol_version a) ∧ descriptor_typed (an_descriptor a).

(** Evaluate the lengths of the literals, and bound those of the numbers. *)
Ltac text_len :=
  rewrite ?str_len_app;
  repeat match goal with
  | |- context [str_len (str ?s)] =>
      let n := eval vm_compute in (str_len (str s)) in change (str_len (str s)) with n
  end;
  repeat match goal with
  | |- context [str_len (show_int ?n)] =>
      let H := fresh in
      assert (str_len (show_int n) ≤ 20) as H
        by (apply show_int_len; first [assumption | vm_compute; split; discriminate]);
      generalize dependent (str_len (show_int n)); intros
  end; lia.

Lemma descriptor_error_len d e :
  descriptor_typed d → descriptor_validate d = Err e →
  str_len (descriptor_error_to_string e) ≤ 200.
Proof.
  assert (∀ name e', validate_root_name name = Err e' → is_u64 (str_len name) →
            str_len (descriptor_error_to_string e') ≤ 200) as Hroot.
  { intros name e' Hv ?. unfold validate_root_name in Hv.
    repeat (apply bind_Err in Hv as [Hv|(? & _ & Hv)]); apply refuse_if_Err in Hv as [_ ->];
      cbn [descriptor_error_to_string]; text_len. }
  intros Ht Hv. destruct d; simpl in Ht, Hv; destruct_and?;
    repeat (apply bind_Err in Hv as [Hv|(? & _ & Hv)]);
    first [by eapply Hroot | apply refuse_if_Err in Hv as [_ ->];
      cbn [descriptor_error_to_string]; text_len].
Qed.

Lemma announcement_error_len a e :
  announcement_typed a → announcement_validate a = Err e →
  str_len (protocol_error_to_string e) ≤ 300.
Proof.
  intros [? Ht] [Hv|(? & _ & Hv)]%bind_Err.
  - apply refuse_if_Err in Hv as [_ ->]. cbn [protocol_error_to_string v2_validation]. text_len.
  - apply map_err_Err in Hv as (err & Hv & ->).
    cbn [protocol_error_to_string v2_validation descriptor_validation_error].
    pose proof (descriptor_error_len _ _ Ht Hv). text_len.
Qed.

Section handler_ack.
Context {S : Type} `{!OfferCardStore S} `{!OfferCardStoreSpec S}.

Lemma refusal_detail_len source listener a detail :
  announcement_typed a → refusal_detail source listener a detail →
  validate_detail detail = Ok ().
Proof.
  intros Ht [->|[->|(e & He & ->)]]; [by vm_compute..|].
  unfold validate_detail. apply refuse_if_Ok, Z.ltb_ge. pose proof (announcement_error_len _ _ Ht He).
  unfold V2_MAX_STATUS_DETAIL_BYTES. text_len.
Qed.

(** every answer of the handler passes the validation that [write_v2_frame_async] runs
    before sending, and is about the announced offer: an announcement that reaches the
    handler is never left unanswered because of its own text, however it is malformed. *)
Theorem handler_answers_are_sendable poisoned source listener a (s : S) k s' :
  ocs_ok s → announcement_typed a →
  handle_sync poisoned source listener a s = (Ok k, s') →
  validate_v2_message (Msg_OfferAck k) = Ok () ∧ ack_offer_id k = an_offer_id a.
Proof.
  intros Hok Ht Hrun. unfold handle_sync, mbind, st_bind in Hrun.
  assert (0 ≤ ack_live_entries k ≤ V2_MAX_LIVE_ENTRIES ∧
          ack_max_live_entries k = V2_MAX_LIVE_ENTRIES ∧ ack_offer_id k = an_offer_id a ∧
          validate_detail (ack_detail k) = Ok ()) as (Hlive & Hmax & Hid & Hdetail).
  { destruct (handle_unlocked source listener a s) as [early s1] eqn:Hun.
    destruct (handle_unlocked_spec _ _ _ _ _ _ Hok Hun) as (Hok1 & _ & Hearly).
    destruct early as [[early|]|e]; [| |done].
    - injection Hrun as <- <-. destruct (Hearly _ eq_refl) as (_ & ? & _ & ? & ? & Hd).
      split_and!; try done; try lia. by eapply refusal_detail_len.
    - destruct poisoned; simpl in Hrun; [done|].
      apply handle_locked_spec in Hrun as (_ & _ & Hk); [|done].
      destruct (Hk _ eq_refl) as (? & ? & ? & [-> | ->]); split_and!; try done; lia. }
  split; [|done]. simpl. rewrite refuse_seq_Ok, Hmax, Hdetail. split; [|done].
  apply orb_false_iff. split; [lia|]. by rewrite Z.eqb_refl.
Qed.

(** Announcing an offer again after it was stored is answered [Duplicate] and changes
    nothing, whatever happened to other offers in between. *)
Theorem announcement_idempotent p1 p2 source listener a (s s1 s2 : S) k1 k2 s3 :
  ocs_ok s → ocs_ok s2 →
  handle_sync p1 source listener a s = (Ok k1, s1) → ack_code k1 = Ack_Stored →
  ocs_card (ocs_cards s2) source (an_offer_id a) =
    ocs_card (ocs_cards s1) source (an_offer_id a) →
  handle_sync p2 source listener a s2 = (Ok k2, s3) →
  ack_code k2 = Ack_Duplicate ∧ ocs_cards s3 = ocs_cards s2.
Proof.
  intros Hok Hok2 H1 Hk1 Hsame H2.
  apply handle_sync_run in H1 as (_ & [[Hauth Hh1]|[_ Hno]]); [| |done].
  2: { destruct (Hno _ eq_refl). congruence. }
  apply handle_sync_run in H2 as (_ & [[_ Hh2]|[_ Hno]]); [| |done].
  2: { by destruct (Hno _ eq_refl) as [_ []]. }
  unfold handled in *. rewrite Hk1 in Hh1. destruct Hh1 as [_ (c & Hc & Hd)].
  rewrite Hsame, Hc in Hh2. destruct (ack_code k2); naive_solver.
Qed.
End handler_ack.

(** ** The redb store keeps the promise *)

Section redb_store.
Context {FS : Type} `{!StagingFs FS} `{!RedbIter} `{!RedbIterLaws}.
Context `{!UuidText} `{!UuidTextLaws}.
Context `{!Json OfferSourceRecord} `{!Json OfferCardRecord}.
Context `{!Json ActivationJournalEntry} `{!Json ClipboardCacheRecord}.
Context `{!JsonLaws OfferSourceRecord} `{!JsonLaws OfferCardRecord}.
Context `{!JsonLaws ActivationJournalEntry} `{!JsonLaws ClipboardCacheRecord}.
Implicit Types (w : World FS).

(** [impl OfferCardStore for RedbV2Store] *)
#[export] Instance redb_offer_card_store : OfferCardStore (World FS) := {|
  ocs_get_offer_card := get_offer_card;
  ocs_read_offer_shelf := read_offer_shelf;
  ocs_insert_offer_card := insert_offer_card;
|}.

Lemma card_key_inj d o d' o' : card_key d o = card_key d' o' → (d, o) = (d', o').
Proof.
  unfold card_key. intros [= E1%uuid_to_string_inj E2%uuid_to_string_inj].
  destruct d, o, d', o'; simpl in *. by subst.
Qed.

Lemma redb_get_spec w d o r w' :
  store_inv (w_db w) → get_offer_card d o w = (r, w') →
  store_inv (w_db w') ∧ cards_of (w_db w') = cards_of (w_db w) ∧
  (∀ c, r = Ok c → c = cards_of (w_db w) !! card_key d o).
Proof.
  intros Hinv Hrun.
  assert (keeps db_same (get_offer_card (FS := FS) d o)) as Hk by apply keeps_get_opt.
  specialize (Hk w). rewrite Hrun in Hk. unfold db_same, same_on in Hk. simpl in Hk.
  rewrite Hk. split_and!; [done..|]. intros c ->.
  unfold get_offer_card, with_read in Hrun. inv_db. subst.
  match goal with H : decode_opt _ = _ |- _ =>
    apply decode_opt_Ok in H as [[Hnone ->]|(b & rec & Hsome & Hrec & ->)] end; symmetry.
  - apply eq_None_not_Some. intros [rec (b & Hb & _)%lookup_view]. simpl in Hnone. congruence.
  - apply lookup_view. eauto.
Qed.

Lemma redb_shelf_spec w r w' :
  store_inv (w_db w) → read_offer_shelf w = (r, w') →
  store_inv (w_db w') ∧ cards_of (w_db w') = cards_of (w_db w) ∧
  (∀ l, r = Ok l → zlen l = Z.of_nat (size (cards_of (w_db w)))).
Proof.
  intros Hinv Hrun. unfold read_offer_shelf in Hrun.
  pose proof (keeps_read_newest (FS := FS) OFFER_CARDS_V2 card_received_sequence w) as Hk.
  rewrite Hrun in Hk. unfold db_same, same_on in Hk. simpl in Hk.
  rewrite Hk. split_and!; [done..|]. intros l ->.
  apply read_newest_Ok in Hrun as (_ & _ & Hperm); [|apply _].
  unfold zlen. rewrite Hperm, length_fmap. simpl. by rewrite length_map_to_list.
Qed.

Lemma redb_insert_spec w input r w' :
  store_inv (w_db w) → insert_offer_card input w = (r, w') →
  let d := ci_source_device input in let o := ci_offer_id input in
  let before := cards_of (w_db w) in let after := cards_of (w_db w') in
  store_inv (w_db w') ∧
  match r with
  | Err _ => after = before
  | Ok out =>
      (ic_inserted out = false ∧ after = before ∧
       before !! card_key d o = Some (ic_record out) ∧
       card_descriptor (ic_record out) = ci_descriptor input) ∨
      (ic_inserted out = true ∧ before !! card_key d o = None ∧
       after !! card_key d o = Some (ic_record out) ∧
       card_descriptor (ic_record out) = ci_descriptor input ∧
       (∀ d' o' c, (d', o') ≠ (d, o) →
          after !! card_key d' o' = Some c → before !! card_key d' o' = Some c))
  end.
Proof.
  intros Hinv Hrun. cbv zeta. split.
  { pose proof (insert_offer_card_keeps input w Hinv) as Hk. by rewrite Hrun in Hk. }
  destruct r as [out|e].
  - apply insert_offer_card_Ok in Hrun as
      [(Hb & Hd & Hi & _ & Hw)|(Hb & Hi & Hrec & (kept & Hsub & Ha & _) & _)]; [left|right].
    + rewrite Hw. done.
    + split_and!; [done..| | |].
      * by rewrite Ha, lookup_insert_eq.
      * by rewrite Hrec.
      * intros d' o' c Hne. rewrite Ha, lookup_insert_ne; [intros; by eapply lookup_weaken|].
        intros Heq. apply Hne. symmetry. by apply card_key_inj.
  - assert (w_db w' = w_db w) as ->; [|done]. revert Hrun. unfold insert_offer_card.
    intros [Hrun|(x & w1 & Hrun & Hrun')]%st_bind_Err; [by injection Hrun as _ <-|].
    injection Hrun as _ <-. by apply with_write_Err in Hrun'.
Qed.

#[export, refine] Instance redb_offer_card_store_spec : OfferCardStoreSpec (World FS) := {|
  ocs_view := gmap (rstr * rstr) OfferCardRecord;
  ocs_cards w := cards_of (w_db w);
  ocs_card cards d o := cards !! card_key d o;
  ocs_count cards := Z.of_nat (size cards);
  ocs_ok w := store_inv (w_db w);
|}.
Proof.
  - intros w Hinv. pose proof (inv_cards _ Hinv) as [Hdec _ _ Hb].
    unfold cards_of. rewrite decodes_size by done. lia.
  - intros. by eapply redb_get_spec.
  - intros. by eapply redb_shelf_spec.
  - intros. by eapply redb_insert_spec.
Defined.
End redb_store.

(** ** The tailnet gate *)

Lemma allow_list_lookup peers d :
  allow_list_new peers !! d = list_to_set <$> last (omap (λ p : DeviceId * list IpAddr,
    if bool_decide (p.1 = d) then Some p.2 else None) peers).
Proof.
  induction peers as [|p peers IH] using rev_ind; [apply lookup_empty|].
  unfold allow_list_new. rewrite foldl_app, omap_app. simpl.
  fold (allow_list_new peers). case_bool_decide as Hp.
  - subst d. by rewrite lookup_insert_eq, last_snoc.
  - by rewrite lookup_insert_ne, app_nil_r.
Qed.

(** The tailnet gate admits a connection exactly if the device it claims was accepted
    and the connection comes from one of the addresses last registered for that device. *)
Theorem tailnet_gate_spec peers remote hello :
  TailnetPeerAllowList (Some (allow_list_new peers)) remote hello = Allow ↔
  ∃ before addresses after,
    peers = before ++ (ch_device_id hello, addresses) :: after ∧
    ch_device_id hello ∉ after.*1 ∧ sa_ip remote ∈ addresses.
Proof.
  unfold TailnetPeerAllowList. rewrite allow_list_lookup.
  set (d := ch_device_id hello). clearbody d.
  set (own := λ p : DeviceId * list IpAddr, if bool_decide (p.1 = d) then Some p.2 else None).
  transitivity (∃ addresses, last (omap own peers) = Some addresses ∧ sa_ip remote ∈ addresses).
  { destruct (last (omap own peers)) as [addresses|]; simpl; [|naive_solver].
    case_bool_decide as Hin; rewrite elem_of_list_to_set in Hin; naive_solver. }
  induction peers as [|[d' addresses'] peers IH] using rev_ind.
  { split; [naive_solver|]. intros ([|] & ? & ? & ? & _); done. }
  rewrite omap_app. simpl. unfold own at 2. simpl. case_bool_decide as Hd.
  - subst d'. rewrite last_snoc. split.
    + intros (? & [= <-] & Hin). exists peers, addresses', []. split_and!; [done|set_solver|done].
    + intros (before & addresses & after & Heq & Hnot & Hin).
      destruct after as [|x after _] using rev_ind.
      * apply app_inj_tail in Heq as [_ [= <-]]. eauto.
      * rewrite app_comm_cons, app_assoc in Heq. apply app_inj_tail in Heq as [_ <-].
        rewrite fmap_app in Hnot. set_solver.
  - rewrite app_nil_r, IH. split.
    + intros (before & addresses & after & -> & Hnot & Hin).
      exists before, addresses, (after ++ [(d', addresses')]).
      rewrite <- app_assoc, fmap_app. split_and!; [done|set_solver|done].
    + intros (before & addresses & after & Heq & Hnot & Hin).
      destruct after as [|x after _] using rev_ind.
      * apply app_inj_tail in Heq as [_ [= -> _]]. done.
      * rewrite app_comm_cons, app_assoc in Heq. apply app_inj_tail in Heq as [-> _].
        exists before, addresses, after. rewrite fmap_app in Hnot. set_solver.
Qed.

(** ** Witnesses *)

Module AnnounceSample.
Import StoreSample.
#[export] Existing Instances sample_uuid sample_iter sample_fs sample_iter_laws.
#[export] Existing Instances source_json card_json journal_json cache_json.
#[export] Existing Instances source_laws card_laws journal_laws' cache_laws'.
#[export] Instance sample_uuid_laws : UuidTextLaws.
Proof. by intros n m [= ->]. Qed.

Definition own_device : DeviceId := mkDeviceId 7.
Definition peer_device : DeviceId := mkDeviceId 1.
Definition announcement : OfferAnnouncement :=
  announcement_new (mkOfferId 9) peer_device own_device 0 text_offer.
(** A root name of 300 bytes. *)
Definition malformed : OfferAnnouncement :=
  announcement_new (mkOfferId 9) peer_device own_device 0 (Descriptor_File (repeat 97 300) 1).

Lemma empty_ok : ocs_ok empty_world.
Proof. exact store_inv_empty. Qed.

Definition handle (a : OfferAnnouncement) : St (World ()) NetError OfferAck :=
  handle_sync false peer_device own_device a.

Lemma handle_sync_spec_witness :
  ∃ k w', handle announcement empty_world = (Ok k, w') ∧ ack_code k = Ack_Stored ∧
    ∃ c, cards_of (w_db w') !! card_key peer_device (mkOfferId 9) = Some c.
Proof.
  destruct (handle announcement empty_world) as [[k|e] w'] eqn:Hrun;
    [|exfalso; vm_compute in Hrun; discriminate Hrun].
  exists k, w'. split; [reflexivity|].
  assert (ack_code k = Ack_Stored) as Hk by (vm_compute in Hrun; injection Hrun as <- _; reflexivity).
  split; [exact Hk|].
  destruct (handle_sync_spec false peer_device own_device announcement empty_world (Ok k) w'
    empty_ok Hrun) as [_ [[_ Hh]|[_ Hno]]].
  - unfold handled in Hh. rewrite Hk in Hh. destruct Hh as (_ & c & Hc & _). exists c. exact Hc.
  - exfalso. destruct (Hno _ eq_refl) as [Hbad _]. rewrite Hk in Hbad. discriminate Hbad.
Defined.

Lemma handler_answers_are_sendable_witness :
  ∃ k w', handle malformed empty_world = (Ok k, w') ∧ ack_code k = Ack_RefusedInvalid ∧
    validate_v2_message (Msg_OfferAck k) = Ok ().
Proof.
  destruct (handle malformed empty_world) as [[k|e] w'] eqn:Hrun;
    [|exfalso; vm_compute in Hrun; discriminate Hrun].
  exists k, w'. split; [reflexivity|].
  split; [vm_compute in Hrun; injection Hrun as <- _; reflexivity|].
  apply (handler_answers_are_sendable false peer_device own_device malformed empty_world k w'
    empty_ok); [|exact Hrun].
  vm_compute. repeat split; discriminate.
Defined.

Lemma announcement_idempotent_witness :
  ∃ k1 w1 k2 w2, handle announcement empty_world = (Ok k1, w1) ∧
    handle announcement w1 = (Ok k2, w2) ∧ ack_code k2 = Ack_Duplicate.
Proof.
  destruct (handle announcement empty_world) as [[k1|e] w1] eqn:Hrun1;
    [|exfalso; vm_compute in Hrun1; discriminate Hrun1].
  destruct (handle announcement w1) as [[k2|e] w2] eqn:Hrun2.
  2: { exfalso. vm_compute in Hrun1. injection Hrun1 as _ <-. vm_compute in Hrun2. discriminate Hrun2. }
  exists k1, w1, k2, w2. split; [reflexivity|]. split; [exact Hrun2|].
  assert (ocs_ok w1) as Hok1.
  { apply (handle_sync_run _ _ _ _ _ _ _ empty_ok Hrun1). }
  apply (announcement_idempotent false false peer_device own_device announcement
    empty_world w1 w1 k1 k2 w2 empty_ok Hok1 Hrun1); [|reflexivity|exact Hrun2].
  vm_compute in Hrun1. injection Hrun1 as <- _. reflexivity.
Defined.
End AnnounceSample.
