(* ===== verification/Connection.v ===== *)
(** * Peer connections

    Models the client and the server of [crates/meshelf-net/src/lib.rs]: the hello exchange
    and its checks, [PeerClient], [handle_v2_connection] and the accept loop.

    A TCP stream is the bytes the peer will have sent, the bytes written so far and a schedule
    of what the network does: each read or write under [io_timeout] may time out or fail after
    any number of bytes ([Fault]).  After such a fault the connection is given up, as in the
    code.  Serializing a hello to sign it may panic in the code ([expect]); [Panicked] is that
    outcome.  The services behind the connection are the two traits of [V2OfferServices]; the
    client hands an accepted fetch to the receiver, here the interface [FetchReceive]. *)

From S2P Require Import Prelude RustStr StdIo Offer Records Identity Protocol OfferStore Activation Announce.

(** ** Streams *)

Inductive Fault :=
| Fine
| TimesOut (progress : nat)
| Breaks (progress : nat) (error : IoError).

Record Conn := mkConn {
  cn_in : bytes;
  cn_out : bytes;
  cn_schedule : list Fault;
}.

Inductive Failure := Failed (error : NetError) | Panicked.

(** The next event of the schedule; an exhausted schedule is a network without faults. *)
Definition next_fault (c : Conn) : Fault * Conn :=
  match cn_schedule c with
  | [] => (Fine, c)
  | f :: rest => (f, mkConn (cn_in c) (cn_out c) rest)
  end.

(** [io_timeout(duration, read(stream), operation)] *)
Definition io_read {T} (read : St bytes ProtocolError T) (operation : rstr)
    : St Conn Failure T := λ c,
  let '(f, c) := next_fault c in
  match f with
  | TimesOut n => (Err (Failed (Net_Timeout operation)),
                   mkConn (drop n (cn_in c)) (cn_out c) (cn_schedule c))
  | Breaks n error => (Err (Failed (Net_Protocol (Proto_Io error))),
                       mkConn (drop n (cn_in c)) (cn_out c) (cn_schedule c))
  | Fine =>
      let '(r, rest) := read (cn_in c) in
      (map_err (λ e, Failed (Net_Protocol e)) r, mkConn rest (cn_out c) (cn_schedule c))
  end.

(** [io_timeout(duration, write(stream, message), operation)]: the frame is encoded first. *)
Definition io_write (frame : result ProtocolError bytes) (operation : rstr)
    : St Conn Failure () := λ c,
  match frame with
  | Err e => (Err (Failed (Net_Protocol e)), c)
  | Ok frame =>
      let '(f, c) := next_fault c in
      let wrote b := mkConn (cn_in c) (cn_out c ++ b) (cn_schedule c) in
      match f with
      | TimesOut n => (Err (Failed (Net_Timeout operation)), wrote (take n frame))
      | Breaks n error => (Err (Failed (Net_Protocol (Proto_Io error))), wrote (take n frame))
      | Fine => (Ok (), wrote frame)
      end
  end.

(** [stream.shutdown().await?] *)
Definition shutdown : St Conn Failure () := λ c,
  let '(f, c) := next_fault c in
  match f with
  | Breaks _ error => (Err (Failed (Net_Io error)), c)
  | _ => (Ok (), c)
  end.

Definition or_panic {T} (o : option T) : result Failure T := ok_or o Panicked.
Definition refuse (condition : bool) (error : NetError) : result Failure () :=
  refuse_if condition (Failed error).

(** ** Hello checks *)

Section hello.
Context {SigningKey : Type} `{!Ed25519 SigningKey}.
Context `{!Json ClientHello} `{!Json ServerHello} `{!Json WireMessage} `{!Json V2Message}.

Record ServerIdentity := mkServerIdentity {
  signing_identity : InstallationIdentity SigningKey;
  si_device_name : rstr;
}.
Definition server_device_id (i : ServerIdentity) : DeviceId := ii_device_id (signing_identity i).

Definition has_capability (capabilities : list rstr) : bool :=
  existsb (λ capability, bool_decide (capability = CAP_OFFER_PULL_V2)) capabilities.

Definition require_v2_client_hello (hello : ClientHello) (operation : rstr)
    : result Failure () :=
  refuse (negb (ch_protocol_version hello =? V2_PROTOCOL_VERSION)
          || negb (has_capability (ch_capabilities hello)))
    (Net_Rejected (operation ++ str " requires protocol 2 and offer-pull-v2")).

(** The checks of [read_server_hello] after the frame is read. *)
Definition check_server_hello (expected_key : bytes) (expected_device : DeviceId)
    (operation : rstr) (server : ServerHello) : result Failure ServerHello :=
  valid ← or_panic (server_has_valid_signature server);
  refuse (negb valid
          || (negb (bool_decide (expected_key = []))
              && negb (bool_decide (sh_public_key server = expected_key))))
    (IdentityMismatch (operation ++ str " server hello signature or public key is invalid"));;
  refuse (negb (bool_decide (sh_device_id server = expected_device)))
    (IdentityMismatch (operation ++ str " server hello device does not match request"));;
  mret server.

Definition read_server_hello (expected_key : bytes) (expected_device : DeviceId)
    (operation : rstr) : St Conn Failure ServerHello :=
  response ← io_read read_frame (str "read server hello");
  match response with
  | Wire_ServerHello server =>
      st_lift (check_server_hello expected_key expected_device operation server)
  | Wire_ClientHello _ => st_err (Failed (UnexpectedMessage (str "expected server_hello")))
  end.

Definition require_v2_server_hello (server : ServerHello) (require_accepted : bool)
    (operation : rstr) : result Failure () :=
  refuse (negb (sh_protocol_version server =? V2_PROTOCOL_VERSION))
    (ProtocolMismatch
       (if bool_decide (trim (sh_device_name server) = []) then str "peer"
        else sh_device_name server)
       (sh_protocol_version server) V2_PROTOCOL_VERSION);;
  refuse (negb (has_capability (sh_capabilities server)))
    (Net_Rejected (operation ++ str " server does not advertise offer-pull-v2"));;
  refuse (require_accepted && negb (sh_accepted server))
    (Net_Rejected (default (operation ++ str " server rejected connection")
                     (sh_reason server))).

(** ** The client *)

(** What [timeout(connect_timeout, TcpStream::connect(address))] came to. *)
Inductive Connect := Connected | ConnectTimedOut | ConnectFails (error : IoError).

Definition connect_or (timed_out : NetError) (outcome : Connect) : result Failure () :=
  match outcome with
  | Connected => Ok ()
  | ConnectTimedOut => Err (Failed timed_out)
  | ConnectFails error => Err (Failed (Net_Io error))
  end.

(** [PeerClient::probe], with the device id it generates and that id as text. *)
Definition probe (outcome : Connect) (probe_device : DeviceId) (nonce : rstr)
    : St Conn Failure ServerHello :=
  st_lift (connect_or (Net_Timeout (str "probe connect")) outcome);;
  io_write (encode_frame (Wire_ClientHello
    (client_hello_v2 probe_device (str "meshelf-discovery") nonce)))
    (str "write probe hello");;
  response ← io_read read_frame (str "read probe response");
  match response with
  | Wire_ServerHello server => mret server
  | Wire_ClientHello _ => st_err (Failed (UnexpectedMessage (str "expected server_hello")))
  end.

(** [PeerClient::announce_offer_v2] *)
Definition announce_offer_v2 (outcome : Connect) (hello : ClientHello)
    (announcement : OfferAnnouncement) (expected_server_public_key : bytes)
    : St Conn Failure OfferAck :=
  st_lift (map_err (λ e, Failed (Net_Protocol e)) (announcement_validate announcement));;
  st_lift (refuse (negb (bool_decide (ch_device_id hello = an_source_device announcement)))
    (IdentityMismatch (str "client hello and offer announcement source differ")));;
  st_lift (require_v2_client_hello hello (str "v2 announcement"));;
  st_lift (connect_or (Unavailable (str "announce connect timed out")) outcome);;
  io_write (encode_frame (Wire_ClientHello hello)) (str "write v2 announce client hello");;
  server ← read_server_hello expected_server_public_key (an_target_device announcement)
    (str "announcement");
  st_lift (require_v2_server_hello server true (str "announcement"));;
  io_write (encode_v2_frame (Msg_OfferAnnouncement announcement))
    (str "write v2 offer announcement");;
  response ← io_read read_v2_frame (str "read offer acknowledgement");
  st_lift (map_err (λ e, Failed (Net_Protocol e)) (validate_v2_message response));;
  match response with
  | Msg_OfferAck ack =>
      st_lift (refuse (negb (bool_decide (ack_offer_id ack = an_offer_id announcement)))
        (IdentityMismatch (str "offer acknowledgement ID does not match announcement")));;
      mret ack
  | _ => st_err (Failed (UnexpectedMessage (str "expected offer_ack")))
  end.
End hello.
Arguments ServerIdentity : clear implicits.
Arguments mkServerIdentity {_} _ _.
Arguments signing_identity {_} _.
Arguments si_device_name {_} _.
Arguments server_device_id {_} _.

(** ** The server *)

(** The connection together with the state behind the services. *)
Record Session (S : Type) := mkSession { ss_conn : Conn; ss_services : S }.
Arguments mkSession {_} _ _.
Arguments ss_conn {_} _.
Arguments ss_services {_} _.

(** [V2OfferServices]: the announcement receiver only sees its own state, the fetch sender is
    given the stream. *)
Record V2OfferServices (S : Type) := mkServices {
  announcement_receiver : DeviceId → DeviceId → OfferAnnouncement → St S NetError OfferAck;
  fetch_sender : DeviceId → FetchRequest → St (Session S) Failure ();
}.
Arguments mkServices {_} _ _.
Arguments announcement_receiver {_} _ _ _ _.
Arguments fetch_sender {_} _ _ _.

Section server.
Context {SigningKey : Type} `{!Ed25519 SigningKey} `{!UuidText}.
Context `{!Json ClientHello} `{!Json ServerHello} `{!Json WireMessage} `{!Json V2Message}.
Context {S : Type}.
Notation M := (St (Session S) Failure).

Definition on_conn {T} (m : St Conn Failure T) : M T := λ s,
  let '(r, c) := m (ss_conn s) in (r, mkSession c (ss_services s)).
Definition on_services {T} (m : St S NetError T) : M T := λ s,
  let '(r, services) := m (ss_services s) in
  (map_err Failed r, mkSession (ss_conn s) services).

Definition v1_client_refusal_reason (device_name : rstr) (device_id : DeviceId)
    (protocol_version : Z) : rstr :=
  str "Peer " ++ device_name ++ str " (" ++ uuid_to_string (DeviceId_as_uuid device_id)
  ++ str ") uses protocol version " ++ show_int protocol_version
  ++ str "; update it to meshelf protocol 2".

(** The signed hello of this server. *)
Definition own_hello (identity : ServerIdentity SigningKey) (accepted : bool)
    (reason : option rstr) : result Failure ServerHello :=
  or_panic (server_signed V2_PROTOCOL_VERSION (server_device_id identity)
    (si_device_name identity) accepted reason [CAP_OFFER_PULL_V2] (signing_identity identity)).

(** The decision about a protocol-2 client. *)
Definition client_trust (gate : TrustGate) (remote : SocketAddr) (hello : ClientHello)
    : result Failure TrustDecision :=
  valid ← or_panic (client_has_valid_signature hello);
  mret (if negb valid then Deny (str "client hello signature is invalid")
        else if negb (has_capability (ch_capabilities hello))
        then Deny (str "client hello does not advertise offer-pull-v2")
        else gate remote hello).

(** The operation of an accepted client. *)
Definition run_operation (identity : ServerIdentity SigningKey)
    (services : V2OfferServices S) (client : DeviceId) (message : V2Message) : M () :=
  match message with
  | Msg_OfferAnnouncement announcement =>
      ack ← on_services (announcement_receiver services client (server_device_id identity)
                           announcement);
      on_conn (io_write (encode_v2_frame (Msg_OfferAck ack))
                 (str "write v2 offer acknowledgement"))
  | Msg_FetchRequest request =>
      st_lift (map_err (λ e, Failed (Net_Protocol e))
        (validate_v2_message (Msg_FetchRequest request)));;
      fetch_sender services client request
  | _ => st_err (Failed (UnexpectedMessage
           (str "unsupported v2 operation; announcement and fetch request are enabled")))
  end.

Definition handle_v2_connection (identity : ServerIdentity SigningKey) (gate : TrustGate)
    (services : V2OfferServices S) (remote : SocketAddr) : M () :=
  hello ← on_conn (io_read read_client_hello_async (str "read v2 client hello"));
  if negb (ch_protocol_version hello =? V2_PROTOCOL_VERSION) then
    refusal ← st_lift (own_hello identity false (Some (v1_client_refusal_reason
      (ch_device_name hello) (ch_device_id hello) (ch_protocol_version hello))));
    on_conn (io_write (encode_frame (Wire_ServerHello refusal)) (str "write v1 refusal"));;
    on_conn shutdown
  else
    trust ← st_lift (client_trust gate remote hello);
    let '(accepted, reason) :=
      match trust with
      | Allow => (true, None)
      | Deny reason => (false, Some reason)
      end in
    server_hello ← st_lift (own_hello identity accepted reason);
    on_conn (io_write (encode_frame (Wire_ServerHello server_hello))
               (str "write v2 server hello"));;
    if negb accepted then on_conn shutdown
    else
      message ← on_conn (io_read read_v2_frame (str "read v2 operation"));
      run_operation identity services (ch_device_id hello) message.

Definition refuse_excess_connection (identity : ServerIdentity SigningKey)
    : St Conn Failure () :=
  hello ← st_lift (own_hello identity false (Some (
    str "inbound handler capacity exhausted: active=" ++ show_int V2_MAX_INBOUND_HANDLERS
    ++ str ", maximum=" ++ show_int V2_MAX_INBOUND_HANDLERS ++ str "; update peer "
    ++ uuid_to_string (DeviceId_as_uuid (server_device_id identity))
    ++ str " to meshelf protocol 2")));
  io_write (encode_frame (Wire_ServerHello hello)) (str "write handler-capacity refusal").

(** ** The accept loop

    [serve_inner]: the handlers that hold a permit, and how the loop ended if it did.  Each
    event of the [select!] is one step; a handler gives its permit back when it finishes,
    whatever its outcome.  When the loop returns, so do its handlers: every caller runs it
    with [block_on] on a runtime of its own. *)

Inductive Loop := Running (active : Z) | Stopped (outcome : result Failure ()).

Inductive ServeEvent :=
| Accepted (c : Conn)
| AcceptFails (error : IoError)
| HandlerEnds
| ShutdownChanged (value : bool)
| ShutdownSenderDropped.

Definition serve_event (identity : ServerIdentity SigningKey) (l : Loop) (e : ServeEvent) : Loop :=
  match l with
  | Stopped _ => l
  | Running active =>
      match e with
      | Accepted c =>
          if active <? V2_MAX_INBOUND_HANDLERS then Running (active + 1)
          else match (refuse_excess_connection identity c).1 with
               | Ok _ => Running active
               | Err f => Stopped (Err f)
               end
      | AcceptFails error => Stopped (Err (Failed (Net_Io error)))
      | HandlerEnds => Running (Z.max 0 (active - 1))
      | ShutdownChanged value => if value then Stopped (Ok ()) else l
      | ShutdownSenderDropped => Stopped (Ok ())
      end
  end.
Definition serve_inner (identity : ServerIdentity SigningKey) : list ServeEvent → Loop :=
  foldl (serve_event identity) (Running 0).
End server.

(** ** Listener addresses *)

Definition is_ipv4 (ip : IpAddr) : bool := match ip with V4 _ => true | V6 _ => false end.
Definition is_unspecified (ip : IpAddr) : bool :=
  match ip with V4 bits | V6 bits => bits =? 0 end.

Definition select_discovered_ip (addresses : list IpAddr) : option IpAddr :=
  match find is_ipv4 addresses with
  | Some ip => Some ip
  | None => head addresses
  end.
Definition select_discovered_socket (addresses : list IpAddr) (port : Z) : option SocketAddr :=
  (λ ip, mkSocketAddr ip port) <$> select_discovered_ip addresses.

(** The checks of [bind_discovered_tailscale_std_listener], and the bind they guard. *)
Definition bind_discovered_tailscale_std_listener {L} (bind : SocketAddr → result IoError L)
    (address : SocketAddr) (discovered_local_addresses : list IpAddr) : result NetError L :=
  refuse_if (is_unspecified (sa_ip address))
    (UnsafeBind (str "unspecified listener addresses are forbidden"));;
  refuse_if (negb (bool_decide (sa_ip address ∈ discovered_local_addresses)))
    (UnsafeBind (str "listener address is not one of the currently discovered local Tailscale addresses"));;
  map_err Net_Io (bind address).

(** ** Fetching

    [PeerClient::fetch_v2_with_cancel].  [cancel] is what the cancellation signal reads at the
    points where the code looks at it, absent when there is no signal. *)

Record FetchActivation := mkFetchActivation {
  fa_request_id : ActivationId;
  fa_source_device : DeviceId;
  fa_offer_id : OfferId;
  fa_mode : ActivationMode;
  fa_destination : option PathBuf;
}.

(** What ends the [select!] of [connect_v2_cancellable]: the connect, or a change of the
    signal, whose result and new value follow; after a change that does not cancel, the code
    connects again. *)
Inductive ConnectRace :=
| RaceConnect (outcome : Connect)
| RaceSignal (changed_ok value : bool) (outcome : Connect).

Record CancelSignal := mkCancelSignal {
  cs_at_start : bool;
  cs_at_connect : bool;
  cs_after_connect : bool;
}.

(** What the client needs of [FetchReceiver::receive] and [receive_with_cancel]. *)
Class FetchReceive :=
  fetch_receive : bool → DeviceId → FetchActivation → St Conn NetError ActivationOutcome.

Definition connect_cancelled : Failure :=
  Failed (FetchTerminal Receipt_Cancelled 0 0 None).

Definition connect_v2_cancellable (cancel : option CancelSignal) (race : ConnectRace)
    : result Failure () :=
  let connect := connect_or (Net_Timeout (str "fetch v2 connect")) in
  match cancel with
  | None => connect (match race with RaceConnect o | RaceSignal _ _ o => o end)
  | Some signal =>
      if cs_at_connect signal then Err connect_cancelled
      else match race with
           | RaceConnect outcome => connect outcome
           | RaceSignal changed_ok value outcome =>
               if changed_ok && value then Err connect_cancelled else connect outcome
           end
  end.

(** [classify_activation_result(Err(error))] for the errors that are not panics. *)
Definition classify_failure (f : Failure) : result Failure ActivationOutcome :=
  match f with
  | Failed e => map_err Failed (classify_activation_result (Err e))
  | Panicked => Err Panicked
  end.

Section fetch.
Context {SigningKey : Type} `{!Ed25519 SigningKey} `{!FetchReceive}.
Context `{!Json ClientHello} `{!Json ServerHello} `{!Json WireMessage} `{!Json V2Message}.

(** Up to the request: an outcome without a fetch, or the authenticated device that will
    answer. *)
Definition open_fetch (race : ConnectRace) (hello : ClientHello)
    (request : FetchRequest) (activation : FetchActivation)
    (expected_server_public_key : bytes) (cancel : option CancelSignal)
    : St Conn Failure (ActivationOutcome + DeviceId) :=
  st_lift (refuse
    (negb (bool_decide (ch_device_id hello = fr_requester_device request))
     || negb (bool_decide (fa_request_id activation = fr_request_id request))
     || negb (bool_decide (fa_source_device activation = fr_source_device request))
     || negb (bool_decide (fa_offer_id activation = fr_offer_id request)))
    (IdentityMismatch (str "fetch request, activation, and client identity differ")));;
  st_lift (require_v2_client_hello hello (str "v2 fetch"));;
  if from_option cs_at_start false cancel then mret (inl Outcome_Cancelled)
  else
    match connect_v2_cancellable cancel race with
    | Err error => st_lift (inl <$> classify_failure error)
    | Ok _ =>
        if from_option cs_after_connect false cancel then
          st_try shutdown;; mret (inl Outcome_Cancelled)
        else
          io_write (encode_frame (Wire_ClientHello hello)) (str "write v2 fetch client hello");;
          server ← read_server_hello (SigningKey := SigningKey) expected_server_public_key
            (fr_source_device request) (str "fetch");
          st_lift (require_v2_server_hello server true (str "fetch"));;
          io_write (encode_v2_frame (Msg_FetchRequest request)) (str "write v2 fetch request");;
          mret (inr (sh_device_id server))
    end.

Definition fetch_v2_with_cancel (race : ConnectRace) (hello : ClientHello)
    (request : FetchRequest) (activation : FetchActivation)
    (expected_server_public_key : bytes) (cancel : option CancelSignal)
    : St Conn Failure ActivationOutcome :=
  opened ← open_fetch race hello request activation expected_server_public_key cancel;
  match opened with
  | inl outcome => mret outcome
  | inr source =>
      st_map_err Failed (fetch_receive (bool_decide (is_Some cancel)) source activation)
  end.
End fetch.

(** ** Properties of the client *)

Section client_lemmas.
Context {SigningKey : Type} `{!Ed25519 SigningKey}.
Context `{!Json ClientHello} `{!Json ServerHello} `{!Json WireMessage} `{!Json V2Message}.
Implicit Types (c : Conn).

Lemma io_write_run frame operation c r c' :
  io_write frame operation c = (r, c') →
  cn_in c' = cn_in c ∧
  match r with
  | Ok _ => ∃ b, frame = Ok b ∧ cn_out c' = cn_out c ++ b
  | Err _ => ∃ n, cn_out c' = cn_out c ++ take n (default [] (result_ok frame))
  end.
Proof.
  unfold io_write. destruct frame as [b|e]; simpl.
  - unfold next_fault. intros Hrun.
    repeat (case_match; simplify_eq/=); split; eauto.
  - intros [= <- <-]. split; [done|]. exists 0%nat. by rewrite app_nil_r.
Qed.

Lemma io_read_run {T} (read : St bytes ProtocolError T) operation c r c' :
  io_read read operation c = (r, c') →
  cn_out c' = cn_out c ∧
  (∀ x, r = Ok x → ∃ rest, read (cn_in c) = (Ok x, rest) ∧ cn_in c' = rest).
Proof.
  unfold io_read, next_fault. intros Hrun.
  repeat (case_match; simplify_eq/=); (split; [done|]); try done;
    intros x Hx; apply map_err_Ok in Hx as ->; eauto.
Qed.

(** The server answered with a hello that proves it is the expected one, speaks protocol 2
    and accepts us. *)
Definition authenticated (expected_key : bytes) (expected_device : DeviceId)
    (server : ServerHello) : Prop :=
  server_has_valid_signature (SigningKey := SigningKey) server = Some true ∧
  (expected_key ≠ [] → sh_public_key server = expected_key) ∧
  sh_device_id server = expected_device ∧ sh_protocol_version server = V2_PROTOCOL_VERSION ∧
  CAP_OFFER_PULL_V2 ∈ sh_capabilities server ∧ sh_accepted server = true.

Lemma has_capability_true capabilities :
  has_capability capabilities = true ↔ CAP_OFFER_PULL_V2 ∈ capabilities.
Proof.
  unfold has_capability. rewrite existsb_exists. split.
  - intros (x & Hx%list_elem_of_In & ->%bool_decide_eq_true). done.
  - intros Hin. exists CAP_OFFER_PULL_V2. split; [by apply list_elem_of_In|].
    by apply bool_decide_eq_true.
Qed.

Lemma refuse_Ok b e u : refuse b e = Ok u ↔ b = false.
Proof. apply refuse_if_Ok. Qed.

Lemma check_server_hello_Ok key device operation server server' :
  check_server_hello (SigningKey := SigningKey) key device operation server = Ok server' →
  require_v2_server_hello server true operation = Ok () →
  server' = server ∧ authenticated key device server.
Proof.
  unfold check_server_hello, require_v2_server_hello, or_panic.
  intros (valid & Hv%ok_or_Ok & ([] & H1%refuse_Ok & ([] & H2%refuse_Ok & [= <-])%bind_Ok)%bind_Ok)%bind_Ok.
  intros ([] & H3%refuse_Ok & ([] & H4%refuse_Ok & H5%refuse_Ok)%bind_Ok)%bind_Ok.
  split; [done|]. apply orb_false_iff in H1 as [Hsig Hkey]. apply negb_false_iff in Hsig as ->.
  apply andb_false_iff in Hkey. bool_facts.
  unfold authenticated. rewrite <- has_capability_true. split_and!; try done.
  - intros Hne. destruct Hkey as [Hkey|Hkey]; by bool_facts.
  - by destruct (sh_accepted server).
Qed.

(** The opening of every client operation: until the server is authenticated, nothing but
    our hello is written. *)
Lemma client_opening {T} (hello : ClientHello) op1 key device operation
    (rest : ServerHello → St Conn Failure T) c r c' :
  (io_write (encode_frame (Wire_ClientHello hello)) op1;;
   server ← read_server_hello (SigningKey := SigningKey) key device operation;
   st_lift (require_v2_server_hello server true operation);;
   rest server) c = (r, c') →
  (∃ n e, r = Err e ∧
     cn_out c' = cn_out c ++ take n (default [] (result_ok (encode_frame (Wire_ClientHello hello))))) ∨
  (∃ server b tail c1, encode_frame (Wire_ClientHello hello) = Ok b ∧
     read_frame (cn_in c) = (Ok (Wire_ServerHello server), tail) ∧
     authenticated key device server ∧
     cn_out c1 = cn_out c ++ b ∧ cn_in c1 = tail ∧ rest server c1 = (r, c')).
Proof.
  intros Hrun. unfold mbind at 1, st_bind at 1 in Hrun.
  destruct (io_write _ op1 c) as [[[]|e] c1] eqn:Hw; apply io_write_run in Hw as [Hin Hw].
  2: { injection Hrun as <- <-. left. destruct Hw as [n Hw]. eauto. }
  destruct Hw as (b & Hb & Hout).
  assert (cn_out c1 = cn_out c ++ take (length b)
            (default [] (result_ok (encode_frame (Wire_ClientHello hello))))) as Hout'.
  { rewrite Hb. simpl. by rewrite take_ge. }
  unfold mbind at 1, st_bind at 1 in Hrun. unfold read_server_hello in Hrun.
  unfold mbind at 1, st_bind at 1 in Hrun.
  destruct (io_read read_frame _ c1) as [[msg|e] c2] eqn:Hr; apply io_read_run in Hr as [Hout2 Hr].
  2: { injection Hrun as <- <-. left. rewrite Hout2. eauto. }
  destruct (Hr _ eq_refl) as (tail & Hread & Htail). rewrite Hin in Hread.
  destruct msg as [ch|server].
  { injection Hrun as <- <-. left. rewrite Hout2. eauto. }
  unfold st_lift at 1 in Hrun.
  destruct (check_server_hello key device operation server) as [server'|e] eqn:Hcheck.
  2: { injection Hrun as <- <-. left. rewrite Hout2. eauto. }
  assert (server' = server) as ->.
  { unfold check_server_hello, or_panic in Hcheck.
    by apply bind_Ok in Hcheck as (? & _ & (? & _ & (? & _ & [= <-])%bind_Ok)%bind_Ok). }
  unfold mbind at 1, st_bind at 1, st_lift at 1 in Hrun.
  destruct (require_v2_server_hello server true operation) as [[]|e] eqn:Hreq.
  2: { injection Hrun as <- <-. left. rewrite Hout2. eauto. }
  right. destruct (check_server_hello_Ok _ _ _ _ _ Hcheck Hreq) as [_ Hauth].
  exists server, b, tail, c2. split_and!; try done. by rewrite Hout2.
Qed.
End client_lemmas.

Section client_theorems.
Context {SigningKey : Type} `{!Ed25519 SigningKey}.
Context `{!Json ClientHello} `{!Json ServerHello} `{!Json WireMessage} `{!Json V2Message}.
Implicit Types (c : Conn).

(** The frame a message is sent as. *)
Definition hello_frame (hello : ClientHello) : bytes :=
  default [] (result_ok (encode_frame (Wire_ClientHello hello))).
Definition message_frame (message : V2Message) : bytes :=
  default [] (result_ok (encode_v2_frame message)).

(** The server whose hello is the first frame of a connection. *)
Definition served_by c (server : ServerHello) : Prop :=
  ∃ tail, read_frame (cn_in c) = (Ok (Wire_ServerHello server), tail).

(** C23: the client announces an offer only to the device it is for.  Whatever the network
    and the peer do, all that is written before the peer has presented a hello with a valid
    signature, the expected public key and the target device, for protocol 2 and accepting
    us, is (part of) our own hello; after that, only the announcement follows.  If an
    acknowledgement is returned, that peer was authenticated, the whole announcement was
    written, and the acknowledgement is valid and names the announced offer. *)
Theorem announce_offer_v2_spec outcome hello announcement expected_key c r c' :
  announce_offer_v2 (SigningKey := SigningKey) outcome hello announcement expected_key c
    = (r, c') →
  (∃ n e, r = Err e ∧ cn_out c' = cn_out c ++ take n (hello_frame hello)) ∨
  (∃ server n, served_by c server ∧
     authenticated (SigningKey := SigningKey) expected_key (an_target_device announcement) server ∧
     cn_out c' = cn_out c ++ hello_frame hello
                 ++ take n (message_frame (Msg_OfferAnnouncement announcement)) ∧
     ∀ ack, r = Ok ack →
       cn_out c' = cn_out c ++ hello_frame hello
                   ++ message_frame (Msg_OfferAnnouncement announcement) ∧
       ack_offer_id ack = an_offer_id announcement ∧
       validate_v2_message (Msg_OfferAck ack) = Ok ()).
Proof.
  assert (∀ e, (Err e : result Failure OfferAck, c) = (r, c') →
    (∃ n e, r = Err e ∧ cn_out c' = cn_out c ++ take n (hello_frame hello))) as Hearly.
  { intros e [= <- <-]. exists 0%nat, e. by rewrite app_nil_r. }
  intros Hrun. unfold announce_offer_v2 in Hrun.
  do 4 (unfold mbind at 1, st_bind at 1, st_lift at 1 in Hrun;
        match type of Hrun with
        | context [match ?x with _ => _ end] => destruct x as [[]|?]; [|left; by eapply Hearly]
        end).
  apply client_opening in Hrun as [(n & e & Hr & Hout)|
    (server & b & tail & c1 & Hb & Hread & Hauth & Hout1 & Hin1 & Hrun)].
  { left. exists n, e. done. }
  right. exists server. unfold hello_frame. rewrite Hb. cbn [result_ok default from_option].
  unfold mbind at 1, st_bind at 1 in Hrun.
  destruct (io_write _ _ c1) as [[[]|e] c2] eqn:Hw; apply io_write_run in Hw as [Hin2 Hw].
  2: { destruct Hw as [n Hw]. injection Hrun as <- <-. exists n. split_and!; [by exists tail|done| |done].
       by rewrite Hw, Hout1, <- app_assoc. }
  destruct Hw as (frame & Hframe & Hout2). rewrite Hout1, <- app_assoc in Hout2.
  assert (message_frame (Msg_OfferAnnouncement announcement) = frame) as Hmsg
    by (unfold message_frame; by rewrite Hframe).
  rewrite Hmsg. exists (length frame). rewrite take_ge by done.
  assert (cn_out c' = cn_out c2 ∧ ∀ ack, r = Ok ack →
    ack_offer_id ack = an_offer_id announcement ∧
    validate_v2_message (Msg_OfferAck ack) = Ok ()) as [-> Hack].
  2: { split_and!; [by exists tail|done|done|]. intros ack Hr. by destruct (Hack _ Hr). }
  unfold mbind at 1, st_bind at 1 in Hrun.
  destruct (io_read read_v2_frame _ c2) as [[msg|e] c3] eqn:Hr; apply io_read_run in Hr as [Hout3 _].
  2: { injection Hrun as <- <-. split; [done|]. done. }
  unfold mbind at 1, st_bind at 1, st_lift at 1 in Hrun.
  destruct (validate_v2_message msg) as [[]|e] eqn:Hv; simpl in Hrun;
    [|injection Hrun as <- <-; done].
  destruct msg; try (injection Hrun as <- <-; done).
  unfold mbind, st_bind, st_lift, refuse in Hrun.
  case_bool_decide; simpl in Hrun; injection Hrun as <- <-; split; try done.
  by intros ? [= <-].
Qed.

(** What the opening of a fetch has written, and when it hands over to the receiver: to the
    authenticated source of the request, for the activation that matches it. *)
Lemma open_fetch_spec race hello request activation expected_key cancel c r c' :
  open_fetch (SigningKey := SigningKey) race hello request activation expected_key cancel c
    = (r, c') →
  (∃ n, cn_out c' = cn_out c ++ take n (hello_frame hello)) ∧ (∀ source, r ≠ Ok (inr source)) ∨
  (∃ server, served_by c server ∧
     authenticated (SigningKey := SigningKey) expected_key (fr_source_device request) server ∧
     fa_source_device activation = fr_source_device request ∧
     fa_request_id activation = fr_request_id request ∧
     fa_offer_id activation = fr_offer_id request ∧
     from_option cs_at_start false cancel = false ∧
     ((∃ n e, cn_out c' = cn_out c ++ hello_frame hello
                        ++ take n (message_frame (Msg_FetchRequest request)) ∧ r = Err e) ∨
      (r = Ok (inr (fr_source_device request)) ∧
       cn_out c' = cn_out c ++ hello_frame hello ++ message_frame (Msg_FetchRequest request) ∧
       read_frame (cn_in c) = (Ok (Wire_ServerHello server), cn_in c')))).
Proof.
  assert (∀ r', (r', c) = (r, c') → (∀ source, r' ≠ Ok (inr source)) →
    (∃ n, cn_out c' = cn_out c ++ take n (hello_frame hello)) ∧ (∀ source, r ≠ Ok (inr source)))
    as Hearly.
  { intros r' [= <- <-] Hr. split; [|done]. exists 0%nat. by rewrite app_nil_r. }
  intros Hrun. unfold open_fetch in Hrun.
  unfold mbind at 1, st_bind at 1, st_lift at 1 in Hrun.
  destruct (refuse _ _) as [[]|e] eqn:Hids; [|left; by eapply Hearly].
  apply refuse_Ok in Hids.
  apply orb_false_iff in Hids as [Hids Hoffer]. apply orb_false_iff in Hids as [Hids Hsource].
  apply orb_false_iff in Hids as [Hdevice Hid]. bool_facts.
  unfold mbind at 1, st_bind at 1, st_lift at 1 in Hrun.
  destruct (require_v2_client_hello hello _) as [[]|e]; [|left; by eapply Hearly].
  destruct (from_option cs_at_start false cancel) eqn:Hstart; [left; by eapply Hearly|].
  destruct (connect_v2_cancellable cancel race) as [[]|e].
  2: { left. eapply Hearly; [exact Hrun|]. intros source. by destruct (classify_failure e). }
  destruct (from_option cs_after_connect false cancel).
  { left. unfold mbind, st_bind, st_try, shutdown, next_fault in Hrun.
    assert (cn_out c' = cn_out c ∧ r = Ok (inl Outcome_Cancelled)) as [-> ->]
      by (repeat (case_match; simplify_eq/=); by injection Hrun as <- <-).
    split; [|done]. exists 0%nat. by rewrite app_nil_r. }
  apply client_opening in Hrun as [(n & e & -> & Hout)|
    (server & b & tail & c1 & Hb & Hread & Hauth & Hout1 & Hin1 & Hrun)].
  { left. split; [by exists n|done]. }
  right. exists server. pose proof Hauth as (_ & _ & Hsrc & _). rewrite Hsrc in Hrun.
  split_and!; [by exists tail|done..|].
  unfold hello_frame. rewrite Hb. cbn [result_ok default from_option].
  unfold mbind at 1, st_bind at 1 in Hrun.
  destruct (io_write _ _ c1) as [[[]|e] c2] eqn:Hw; apply io_write_run in Hw as [Hin Hw].
  - right. destruct Hw as (frame & Hframe & Hout2). rewrite Hout1, <- app_assoc in Hout2.
    injection Hrun as <- <-. unfold message_frame. rewrite Hframe, Hin, Hin1. done.
  - left. destruct Hw as [n Hw]. injection Hrun as <- <-. exists n, e.
    by rewrite Hw, Hout1, <- app_assoc.
Qed.

(** the same for fetches: nothing but our hello is written before the peer is
    authenticated as the source of the request, then only the request, and the receiver runs
    only on such a connection, for the activation that matches the request, as the
    authenticated device, and not when the signal was cancelled before. *)
Theorem fetch_v2_spec `{!FetchReceive} race hello request activation expected_key cancel c r c' :
  fetch_v2_with_cancel (SigningKey := SigningKey) race hello request activation expected_key
    cancel c = (r, c') →
  (∃ n, cn_out c' = cn_out c ++ take n (hello_frame hello)) ∨
  (∃ server, served_by c server ∧
     authenticated (SigningKey := SigningKey) expected_key (fr_source_device request) server ∧
     fa_source_device activation = fr_source_device request ∧
     fa_request_id activation = fr_request_id request ∧
     fa_offer_id activation = fr_offer_id request ∧
     from_option cs_at_start false cancel = false ∧
     ((∃ n, cn_out c' = cn_out c ++ hello_frame hello
                        ++ take n (message_frame (Msg_FetchRequest request))) ∨
      (∃ c1 r1, cn_out c1 = cn_out c ++ hello_frame hello
                            ++ message_frame (Msg_FetchRequest request) ∧
         fetch_receive (bool_decide (is_Some cancel)) (fr_source_device request) activation c1
           = (r1, c') ∧ r = map_err Failed r1))).
Proof.
  unfold fetch_v2_with_cancel. intros Hrun. unfold mbind at 1, st_bind at 1 in Hrun.
  destruct (open_fetch _ _ _ _ _ _ c) as [o c1] eqn:Hopen.
  apply open_fetch_spec in Hopen as [[Hout Hno]|
    (server & Hs & Ha & H1 & H2 & H3 & H4 & [(n & e & Hout & ->)|(-> & Hout & _)])].
  - left. destruct o as [[outcome|source]|e]; [by injection Hrun as _ <-|by destruct (Hno source)|].
    by injection Hrun as _ <-.
  - right. exists server. split_and!; [done..|]. left. injection Hrun as _ <-. by exists n.
  - right. exists server. split_and!; [done..|]. right.
    unfold st_map_err in Hrun. destruct (fetch_receive _ _ _ c1) as [r1 c2] eqn:Hrecv.
    injection Hrun as <- <-. by exists c1, r1.
Qed.
End client_theorems.

(** ** Properties of the server *)

Section server_theorems.
Context {SigningKey : Type} `{!Ed25519 SigningKey} `{!UuidText}.
Context `{!Json ClientHello} `{!Json ServerHello} `{!Json WireMessage} `{!Json V2Message}.
Context {S : Type} (identity : ServerIdentity SigningKey) (gate : TrustGate).
Context (services : V2OfferServices S) (remote : SocketAddr).
Implicit Types (s : Session S).

Lemma on_conn_run {T} (m : St Conn Failure T) s r s' :
  on_conn m s = (r, s') →
  ss_services s' = ss_services s ∧ m (ss_conn s) = (r, ss_conn s').
Proof. unfold on_conn. destruct (m (ss_conn s)) as [r1 c]. intros [= <- <-]. done. Qed.

(** Split the first step of a run. *)
Tactic Notation "step_run" hyp(Hrun) ident(x) ident(s1) ident(Hstep) :=
  unfold mbind at 1, st_bind at 1 in Hrun;
  match type of Hrun with
  | (let (_, _) := ?m ?s in _) = _ => destruct (m s) as [[x|?] s1] eqn:Hstep
  end.

Lemma client_trust_allow hello :
  client_trust (SigningKey := SigningKey) gate remote hello = Ok Allow →
  client_has_valid_signature (SigningKey := SigningKey) hello = Some true ∧
  CAP_OFFER_PULL_V2 ∈ ch_capabilities hello ∧ gate remote hello = Allow.
Proof.
  unfold client_trust, or_panic. intros (valid & Hv%ok_or_Ok & Heq)%bind_Ok.
  rewrite <- has_capability_true. injection Heq as Heq.
  destruct valid; [|done]. simpl in Heq. by destruct (has_capability _).
Qed.

(** An operation reaches a service with the identity of the client's hello. *)
Definition operated (client : DeviceId) (message : V2Message) s s' : Prop :=
  (∃ announcement, message = Msg_OfferAnnouncement announcement ∧
     ss_services s' = (announcement_receiver services client (server_device_id identity)
                         announcement (ss_services s)).2) ∨
  (∃ request s1, message = Msg_FetchRequest request ∧ ss_services s1 = ss_services s ∧
     s' = (fetch_sender services client request s1).2).

Lemma run_operation_run client message s r s' :
  run_operation identity services client message s = (r, s') →
  ss_services s' = ss_services s ∨ operated client message s s'.
Proof.
  destruct message; simpl; intros Hrun; try (injection Hrun as <- <-; by left).
  - step_run Hrun ack s1 Hann; unfold on_services in Hann;
      destruct (announcement_receiver _ _ _ _ _) as [r1 s2] eqn:Hrecv;
      injection Hann as _ <-.
    + apply on_conn_run in Hrun as [Hs _]. right; left. eexists. by rewrite Hrecv.
    + injection Hrun as <- <-. right; left. eexists. by rewrite Hrecv.
  - right; right. unfold mbind, st_bind, st_lift in Hrun.
    destruct (fetch_sender services client _ s) as [r1 s1] eqn:Hf in Hrun.
    injection Hrun as <- <-. eexists _, s. by rewrite Hf.
Qed.

(** The operation of an admitted client is the only way to the state behind the services. *)
Lemma handle_v2_connection_cases s r s' :
  handle_v2_connection identity gate services remote s = (r, s') →
  ss_services s' = ss_services s ∨
  ∃ hello tail message tail',
    read_client_hello_async (cn_in (ss_conn s)) = (Ok hello, tail) ∧
    ch_protocol_version hello = V2_PROTOCOL_VERSION ∧
    client_has_valid_signature (SigningKey := SigningKey) hello = Some true ∧
    CAP_OFFER_PULL_V2 ∈ ch_capabilities hello ∧ gate remote hello = Allow ∧
    read_v2_frame tail = (Ok message, tail') ∧ operated (ch_device_id hello) message s s'.
Proof.
  intros Hrun. unfold handle_v2_connection in Hrun.
  step_run Hrun hello s1 Hhello; apply on_conn_run in Hhello as [Hs1 Hhello].
  2: { injection Hrun as <- <-. by left. }
  apply io_read_run in Hhello as [_ Hread].
  destruct (Hread _ eq_refl) as (tail & Hhello & Htail). clear Hread.
  destruct (Z.eqb_spec (ch_protocol_version hello) V2_PROTOCOL_VERSION) as [Hversion|_];
    simpl in Hrun.
  2: { left. step_run Hrun own s2 Hown; [|injection Hrun as _ <-; by injection Hown as _ <-].
       injection Hown as _ <-. step_run Hrun u s3 Hw; apply on_conn_run in Hw as [Hs2 _].
       - apply on_conn_run in Hrun as [Hs3 _]. congruence.
       - injection Hrun as _ <-. congruence. }
  step_run Hrun trust s2 Htrust; injection Htrust as Htrust <-; [|injection Hrun as _ <-; by left].
  destruct (match trust with Allow => (true, None) | Deny reason => (false, Some reason) end)
    as [accepted reason] eqn:Haccept.
  step_run Hrun own s3 Hown; injection Hown as _ <-; [|injection Hrun as _ <-; by left].
  step_run Hrun u s4 Hw; apply on_conn_run in Hw as [Hs2 Hw]; [|injection Hrun as _ <-; left; congruence].
  apply io_write_run in Hw as [Hin2 _].
  destruct accepted; simpl in Hrun.
  2: { left. apply on_conn_run in Hrun as [Hs3 _]. congruence. }
  assert (trust = Allow) as -> by (by destruct trust). apply client_trust_allow in Htrust as (Hsig & Hcap & Hgate).
  step_run Hrun message s5 Hmsg; apply on_conn_run in Hmsg as [Hs3 Hmsg];
    [|injection Hrun as _ <-; left; congruence].
  apply io_read_run in Hmsg as [_ Hread]. destruct (Hread _ eq_refl) as (tail' & Hmsg & _).
  rewrite Hin2, Htail in Hmsg.
  apply run_operation_run in Hrun as [Hsame|Hop]; [left; congruence|right].
  exists hello, tail, message, tail'. split_and!; try done.
  assert (ss_services s5 = ss_services s) as Heq by congruence. revert Hop.
  unfold operated. by rewrite Heq.
Qed.

(** C14: the server runs an operation only for an authenticated client.  Whatever bytes a
    connection delivers and whatever the network does, the state behind the services changes
    only if the first frame is a protocol-2 hello whose signature verifies, which advertises
    the capability and which the trust gate admits from the remote address; the operation is
    then the next frame, and it runs under the device id of that hello. *)
Theorem handle_v2_connection_gate s r s' :
  handle_v2_connection identity gate services remote s = (r, s') →
  ss_services s' = ss_services s ∨
  ∃ hello tail message tail',
    read_client_hello_async (cn_in (ss_conn s)) = (Ok hello, tail) ∧
    ch_protocol_version hello = V2_PROTOCOL_VERSION ∧
    client_has_valid_signature (SigningKey := SigningKey) hello = Some true ∧
    CAP_OFFER_PULL_V2 ∈ ch_capabilities hello ∧ gate remote hello = Allow ∧
    read_v2_frame tail = (Ok message, tail') ∧ operated (ch_device_id hello) message s s'.
Proof. apply handle_v2_connection_cases. Qed.
End server_theorems.

Section loop_theorems.
Context {SigningKey : Type} `{!Ed25519 SigningKey} `{!UuidText}.
Context `{!Json ServerHello} `{!Json WireMessage}.
Context (identity : ServerIdentity SigningKey).
Implicit Types (events : list ServeEvent).

Lemma serve_inner_app events later :
  serve_inner identity (events ++ later) =
    foldl (serve_event identity) (serve_inner identity events) later.
Proof. apply foldl_app. Qed.

Lemma serve_stopped outcome events :
  foldl (serve_event identity) (Stopped outcome) events = Stopped outcome.
Proof. by induction events. Qed.

(** At no time do more handlers run than there are permits. *)
Theorem serve_inner_bounded events active :
  serve_inner identity events = Running active → 0 ≤ active ≤ V2_MAX_INBOUND_HANDLERS.
Proof.
  revert active. induction events as [|e events IH] using rev_ind; intros active.
  { intros [= <-]. done. }
  rewrite serve_inner_app. destruct (serve_inner identity events) as [n|]; [|done].
  specialize (IH _ eq_refl). unfold V2_MAX_INBOUND_HANDLERS in *. simpl.
  destruct e; simpl; try done.
  - destruct (Z.ltb_spec n V2_MAX_INBOUND_HANDLERS); [intros [= <-]|].
    + unfold V2_MAX_INBOUND_HANDLERS in *. lia.
    + destruct (refuse_excess_connection identity c).1; [intros [= <-]; lia | done].
  - intros [= <-]. lia.
  - destruct value; [done|]. intros [= <-]. lia.
Qed.

(** when every permit is taken, one excess connection on which the refusal cannot be
    written, because the peer has gone or does not read in time, ends the accept loop for
    good: no later connection is served. *)
Theorem excess_failure_stops_listener events c f later :
  serve_inner identity events = Running V2_MAX_INBOUND_HANDLERS →
  (refuse_excess_connection identity c).1 = Err f →
  serve_inner identity (events ++ Accepted c :: later) = Stopped (Err f).
Proof.
  intros Hfull Hf. rewrite serve_inner_app, Hfull. simpl. rewrite Hf. apply serve_stopped.
Qed.
End loop_theorems.

(** ** Both ends *)

Section both_ends.
Context {SigningKey : Type} `{!Ed25519 SigningKey} `{!Ed25519Laws SigningKey} `{!UuidText}.
Context `{!Json ClientHello} `{!Json ServerHello} `{!Json WireMessage} `{!Json V2Message}.
Context `{!JsonLaws WireMessage} `{!JsonLaws V2Message}.
Context {S : Type}.

Lemma encode_frame_Ok message frame :
  encode_frame message = Ok frame →
  ∃ payload, json_to_vec message = Ok payload ∧ validate_payload_len (zlen payload) = Ok () ∧
    zlen payload ≤ U32_MAX ∧ frame = u32_to_be_bytes (zlen payload) ++ payload.
Proof.
  intros (payload & Hp%map_err_Ok & ([] & Hv & Hf%frame_payload_Ok)%bind_Ok)%bind_Ok.
  destruct Hf as [? ->]. eauto.
Qed.

Lemma read_frame_encoded message frame rest :
  encode_frame message = Ok frame → read_frame (frame ++ rest) = (Ok message, rest).
Proof.
  intros (payload & Hp & Hv & Hlen & ->)%encode_frame_Ok.
  unfold read_frame, mbind, st_bind. rewrite <- (assoc_L (++)), read_payload_frame by done.
  unfold st_lift. by rewrite (json_round_trip _ _ Hp).
Qed.

Lemma read_client_hello_encoded hello frame rest :
  encode_frame (Wire_ClientHello hello) = Ok frame →
  read_client_hello_async (frame ++ rest) = (Ok hello, rest).
Proof.
  intros (payload & Hp & Hv & Hlen & ->)%encode_frame_Ok.
  unfold read_client_hello_async, mbind, st_bind.
  rewrite <- (assoc_L (++)), read_payload_frame by done.
  unfold st_lift. by rewrite (json_round_trip _ _ Hp).
Qed.

Lemma client_signed_valid device name nonce identity hello :
  client_signed_v2 (SigningKey := SigningKey) device name nonce identity = Some hello →
  client_has_valid_signature (SigningKey := SigningKey) hello = Some true ∧
  ch_protocol_version hello = V2_PROTOCOL_VERSION ∧ ch_device_id hello = device ∧
  has_capability (ch_capabilities hello) = true.
Proof.
  unfold client_signed_v2. intros (b & Hb & [= <-])%bind_Some.
  split_and!; try done. unfold client_has_valid_signature, client_signing_bytes in *.
  cbn [ch_protocol_version ch_device_id ch_device_name ch_nonce ch_capabilities ch_public_key
       ch_signature] in *. rewrite Hb. cbn. by rewrite verify_sign.
Qed.

Lemma own_hello_valid identity accepted reason server :
  own_hello (SigningKey := SigningKey) identity accepted reason = Ok server →
  server_has_valid_signature (SigningKey := SigningKey) server = Some true ∧
  sh_protocol_version server = V2_PROTOCOL_VERSION ∧
  sh_device_id server = server_device_id identity ∧
  has_capability (sh_capabilities server) = true ∧ sh_accepted server = accepted ∧
  sh_public_key server = public_key (signing_identity identity).
Proof.
  unfold own_hello, or_panic, server_signed. rewrite ok_or_Ok.
  intros (b & Hb & [= <-])%bind_Some. split_and!; try done.
  unfold server_has_valid_signature, server_signing_bytes in *.
  cbn [sh_protocol_version sh_device_id sh_device_name sh_accepted sh_reason sh_capabilities
       sh_public_key sh_signature] in *. rewrite Hb. cbn. by rewrite verify_sign.
Qed.

(** Reads and writes on a network without faults. *)
Lemma io_read_fine {T} (read : St bytes ProtocolError T) operation inp out x rest :
  read inp = (Ok x, rest) →
  io_read read operation (mkConn inp out []) = (Ok x, mkConn rest out []).
Proof. intros Hr. unfold io_read, next_fault. simpl. by rewrite Hr. Qed.
Lemma io_write_fine frame b operation inp out :
  frame = Ok b → io_write frame operation (mkConn inp out []) = (Ok (), mkConn inp (out ++ b) []).
Proof. by intros ->. Qed.

Lemma on_conn_fine {T} (m : St Conn Failure T) c (services : S) x c' :
  m c = (Ok x, c') → on_conn m (mkSession c services) = (Ok x, mkSession c' services).
Proof. unfold on_conn. cbn [ss_conn ss_services]. by intros ->. Qed.

(** The client accepts the hello of the server it expects. *)
Lemma check_own_hello identity accepted reason server key device operation :
  own_hello identity accepted reason = Ok server → device = server_device_id identity →
  key = [] ∨ key = public_key (signing_identity identity) →
  check_server_hello (SigningKey := SigningKey) key device operation server = Ok server.
Proof.
  intros (Hsig & _ & Hdev & _ & _ & Hpk)%own_hello_valid -> Hkey.
  unfold check_server_hello, or_panic. rewrite bind_Ok. exists true. rewrite Hsig.
  split; [done|]. rewrite bind_Ok. exists (). rewrite refuse_Ok, bind_Ok. split.
  - simpl. destruct Hkey as [->| ->]; [done|]. by rewrite (bool_decide_true (sh_public_key _ = _)), andb_false_r.
  - exists (). rewrite refuse_Ok, Hdev. by rewrite bool_decide_true.
Qed.

(** C18: the two ends of an announcement understand each other.  A client that signed its
    hello, and that the gate admits, announces a valid offer meant for this server; the
    network has no faults.  Then the server, reading exactly what the client writes, hands
    the announcement to its receiver and writes its acknowledgement, and the client, reading
    exactly what the server writes, authenticates it and returns that acknowledgement. *)
Theorem announcement_exchange (identity : ServerIdentity SigningKey) gate services remote
    client name nonce hello announcement expected_key (before after : S) ack own
    hello_bytes own_bytes announcement_bytes ack_bytes :
  client_signed_v2 (an_source_device announcement) name nonce client = Some hello →
  gate remote hello = Allow →
  an_target_device announcement = server_device_id identity →
  expected_key = [] ∨ expected_key = public_key (signing_identity identity) →
  own_hello identity true None = Ok own →
  announcement_receiver services (an_source_device announcement) (server_device_id identity)
    announcement before = (Ok ack, after) →
  ack_offer_id ack = an_offer_id announcement →
  encode_frame (Wire_ClientHello hello) = Ok hello_bytes →
  encode_frame (Wire_ServerHello own) = Ok own_bytes →
  encode_v2_frame (Msg_OfferAnnouncement announcement) = Ok announcement_bytes →
  encode_v2_frame (Msg_OfferAck ack) = Ok ack_bytes →
  let client_writes := hello_bytes ++ announcement_bytes in
  let server_writes := own_bytes ++ ack_bytes in
  handle_v2_connection identity gate services remote
    (mkSession (mkConn client_writes [] []) before)
  = (Ok (), mkSession (mkConn [] server_writes []) after) ∧
  announce_offer_v2 (SigningKey := SigningKey) Connected hello announcement expected_key
    (mkConn server_writes [] [])
  = (Ok ack, mkConn [] client_writes []).
Proof.
  intros Hsigned Hgate Htarget Hkey Hown Hrecv Hackid Hhb Hob Hab Hkb. cbv zeta.
  destruct (client_signed_valid _ _ _ _ _ Hsigned) as (Hsig & Hversion & Hdevice & Hcap).
  destruct (own_hello_valid _ _ _ _ Hown) as (Hosig & Hover & Hodev & Hocap & Hoacc & Hopk).
  pose proof Hab as (pa & Hav & _)%encode_v2_frame_Ok.
  pose proof Hkb as (pk & Hkv & _)%encode_v2_frame_Ok.
  pose proof (read_v2_frame_encoded _ _ [] Hab) as Hra. rewrite app_nil_r in Hra.
  pose proof (read_v2_frame_encoded _ _ [] Hkb) as Hrk. rewrite app_nil_r in Hrk.
  assert ((ch_protocol_version hello =? V2_PROTOCOL_VERSION) = true) as Hv1
    by (by rewrite Hversion).
  assert ((sh_protocol_version own =? V2_PROTOCOL_VERSION) = true) as Hv2 by (by rewrite Hover).
  split.
  - unfold handle_v2_connection.
    rewrite (st_bind_run _ _ _ _ _ (on_conn_fine _ _ _ _ _ (io_read_fine _ _ _ _ _ _
      (read_client_hello_encoded _ _ announcement_bytes Hhb)))).
    rewrite Hv1. cbn [negb].
    rewrite (st_lift_run _ _ _ Allow)
      by (unfold client_trust, or_panic; rewrite Hsig; cbn; by rewrite Hcap, Hgate).
    rewrite (st_lift_run _ _ _ own) by done.
    rewrite (st_bind_run _ _ _ _ _ (on_conn_fine _ _ _ _ _ (io_write_fine _ _ _ _ _ Hob))).
    cbn [negb].
    rewrite (st_bind_run _ _ _ _ _ (on_conn_fine _ _ _ _ _ (io_read_fine _ _ _ _ _ _ Hra))).
    unfold run_operation. rewrite Hdevice.
    rewrite (st_bind_run _ _ _ ack (mkSession (mkConn [] ([] ++ own_bytes) []) after))
      by (unfold on_services; cbn [ss_services ss_conn]; by rewrite Hrecv).
    apply on_conn_fine. by apply io_write_fine.
  - unfold announce_offer_v2.
    rewrite (st_lift_run _ _ _ ()) by (simpl in Hav; by rewrite Hav).
    rewrite (st_lift_run _ _ _ ()) by (apply refuse_Ok; by rewrite bool_decide_true).
    rewrite (st_lift_run _ _ _ ()) by (apply refuse_Ok; by rewrite Hv1, Hcap).
    rewrite (st_lift_run _ _ _ ()) by done.
    rewrite (st_bind_run _ _ _ _ _ (io_write_fine _ _ _ _ _ Hhb)).
    rewrite (st_bind_run _ _ _ own (mkConn ack_bytes ([] ++ hello_bytes) [])).
    2: { unfold read_server_hello.
         rewrite (st_bind_run _ _ _ _ _ (io_read_fine _ _ _ _ _ _ (read_frame_encoded _ _ ack_bytes Hob))).
         unfold st_lift. f_equal. by eapply check_own_hello. }
    rewrite (st_lift_run _ _ _ ()).
    2: { unfold require_v2_server_hello. rewrite !bind_Ok.
         exists (). rewrite refuse_Ok, Hv2. split; [done|].
         rewrite bind_Ok. exists (). by rewrite !refuse_Ok, Hocap, Hoacc. }
    rewrite (st_bind_run _ _ _ _ _ (io_write_fine _ _ _ _ _ Hab)).
    rewrite (st_bind_run _ _ _ _ _ (io_read_fine _ _ _ _ _ _ Hrk)).
    rewrite (st_lift_run _ _ _ ()) by (by rewrite Hkv).
    by rewrite (st_lift_run _ _ _ ()) by (apply refuse_Ok; by rewrite bool_decide_true).
Qed.
End both_ends.

(** ** Listener addresses *)

(** A listener is only ever bound to an address that Tailscale currently reports for this
    host and that names one interface, whatever address is configured; the address chosen
    from a discovered list is one of it, an IPv4 one if there is any, so dialler and listener
    that discover the same addresses choose the same one. *)
Theorem bind_only_discovered {L} (bind : SocketAddr → result IoError L) address addresses port l :
  (bind_discovered_tailscale_std_listener bind address addresses = Ok l ↔
     is_unspecified (sa_ip address) = false ∧ sa_ip address ∈ addresses ∧ bind address = Ok l) ∧
  (select_discovered_socket addresses port = None ↔ addresses = []) ∧
  (∀ socket, select_discovered_socket addresses port = Some socket →
     sa_port socket = port ∧ sa_ip socket ∈ addresses ∧
     (is_ipv4 (sa_ip socket) = false → Forall (λ ip, is_ipv4 ip = false) addresses)).
Proof.
  split; [|split].
  - unfold bind_discovered_tailscale_std_listener.
    rewrite !refuse_seq_Ok, map_err_Ok, negb_false_iff, bool_decide_eq_true. done.
  - unfold select_discovered_socket, select_discovered_ip. destruct addresses as [|ip ips]; [done|].
    simpl. case_match; done.
  - unfold select_discovered_socket, select_discovered_ip.
    intros socket (ip & Hip & ->)%fmap_Some. simpl. split; [done|].
    destruct (find is_ipv4 addresses) as [v4|] eqn:Hfind.
    + apply find_some in Hfind as [Hin%list_elem_of_In Hv4]. injection Hip as <-.
      split; [done|congruence].
    + split; [by apply head_Some_elem_of|]. intros _. apply Forall_forall. intros x Hx.
      apply (find_none _ _ Hfind). by apply list_elem_of_In.
Qed.

(** ** Witnesses *)

Module ConnectionSample.
Import StoreSample AnnounceSample.

(** Two signing keys; a signature is the key followed by the message. *)
Definition sample_ed25519 : Ed25519 bool := {|
  verifying_key_to_bytes k := repeat (if k : bool then Byte.x01 else Byte.x02) 32;
  signing_key_to_bytes k := repeat (if k : bool then Byte.x01 else Byte.x02) 32;
  signing_key_from_bytes b := bool_decide (head b = Some Byte.x01);
  dalek_sign k m := (if k : bool then Byte.x01 else Byte.x02) :: m;
  signature_from_slice_ok _ := true;
  verifying_key_from_bytes_ok _ := true;
  dalek_verify pk m s :=
    match head pk with Some b => bool_decide (s = b :: m) | None => false end;
|}.
#[local] Existing Instance sample_ed25519.
Lemma sample_ed25519_laws : Ed25519Laws bool.
Proof. split; intros []; try done; intros m; apply bool_decide_eq_true; done. Qed.
#[local] Existing Instance sample_ed25519_laws.

Definition client_json : Json ClientHello := {|
  json_to_vec h := Ok [byte_of_Z (ch_protocol_version h)];
  json_from_slice b := Err (str "not decoded");
|}.
Definition server_json : Json ServerHello := {|
  json_to_vec h := Ok [byte_of_Z (sh_protocol_version h)];
  json_from_slice b := Err (str "not decoded");
|}.
#[local] Existing Instances client_json server_json.

Definition identity : ServerIdentity bool :=
  mkServerIdentity (mkInstallationIdentity own_device true) (str "desk").
Definition client : InstallationIdentity bool := mkInstallationIdentity peer_device false.
Definition hello : ClientHello :=
  default (client_hello_v2 peer_device (str "lap") (str "n"))
    (client_signed_v2 peer_device (str "lap") (str "n") client).
Definition own : ServerHello :=
  match own_hello identity true None with
  | Ok server => server
  | Err _ => mkServerHello 0 own_device [] false None [] [] []
  end.
Definition excess : ServerHello :=
  match own_hello identity false (Some (
    str "inbound handler capacity exhausted: active=" ++ show_int V2_MAX_INBOUND_HANDLERS
    ++ str ", maximum=" ++ show_int V2_MAX_INBOUND_HANDLERS ++ str "; update peer "
    ++ uuid_to_string (DeviceId_as_uuid (server_device_id identity))
    ++ str " to meshelf protocol 2")) with
  | Ok server => server
  | Err _ => mkServerHello 0 own_device [] false None [] [] []
  end.
Definition stored_ack : OfferAck := ack (mkOfferId 9) Ack_Stored 1 0 None.
Definition request : FetchRequest :=
  mkFetchRequest (mkActivationId 1) (mkOfferId 9) own_device peer_device.
Definition activation : FetchActivation :=
  mkFetchActivation (mkActivationId 1) own_device (mkOfferId 9) Mode_Clipboard None.

Definition wire_json : Json WireMessage :=
  table_json [Wire_ClientHello hello; Wire_ServerHello own; Wire_ServerHello excess].
Definition v2_json : Json V2Message :=
  table_json [Msg_OfferAnnouncement announcement; Msg_OfferAck stored_ack;
              Msg_FetchRequest request].
#[local] Existing Instances wire_json v2_json.
Lemma wire_laws : JsonLaws WireMessage.
Proof. apply table_json_laws. Qed.
Lemma v2_laws : JsonLaws V2Message.
Proof. apply table_json_laws. Qed.
#[local] Existing Instances wire_laws v2_laws.

Definition remote : SocketAddr := mkSocketAddr (V4 1) 4242.
Definition gate : TrustGate :=
  TailnetPeerAllowList (Some (allow_list_new [(peer_device, [V4 1])])).
Definition services : V2OfferServices (World ()) :=
  mkServices (λ source listener a, handle_sync false source listener a) (λ _ _, mret ()).

Definition client_writes : bytes :=
  hello_frame hello ++ message_frame (Msg_OfferAnnouncement announcement).
Definition fetch_writes : bytes := hello_frame hello ++ message_frame (Msg_FetchRequest request).
Definition server_writes : bytes :=
  default [] (result_ok (encode_frame (Wire_ServerHello own)))
  ++ message_frame (Msg_OfferAck stored_ack).
Definition key : bytes := public_key (signing_identity identity).

Lemma announcement_exchange_witness :
  ∃ after, handle_v2_connection identity gate services remote
             (mkSession (mkConn client_writes [] []) empty_world)
           = (Ok (), mkSession (mkConn [] server_writes []) after) ∧
    announce_offer_v2 (SigningKey := bool) Connected hello announcement key
      (mkConn server_writes [] []) = (Ok stored_ack, mkConn [] client_writes []).
Proof.
  exists (handle announcement empty_world).2.
  apply (announcement_exchange identity gate services remote client (str "lap") (str "n") hello
           announcement key empty_world _ stored_ack own);
    first [right; reflexivity | vm_compute; reflexivity].
Defined.

Lemma announce_offer_v2_spec_witness :
  ∃ c', announce_offer_v2 (SigningKey := bool) Connected hello announcement key
          (mkConn server_writes [] []) = (Ok stored_ack, c') ∧
    ∃ server, authenticated (SigningKey := bool) key own_device server.
Proof.
  destruct (announce_offer_v2 (SigningKey := bool) Connected hello announcement key
              (mkConn server_writes [] [])) as [r c'] eqn:Hrun.
  assert (r = Ok stored_ack) as Hr by (vm_compute in Hrun; injection Hrun as <- _; reflexivity).
  exists c'. split; [rewrite Hr; reflexivity|].
  destruct (announce_offer_v2_spec _ _ _ _ _ _ _ Hrun)
    as [(n & e & He & _)|(server & n & _ & Hauth & _)].
  - exfalso. rewrite Hr in He. discriminate He.
  - exists server. exact Hauth.
Defined.

Lemma handle_v2_connection_gate_witness :
  ∃ s', handle_v2_connection identity gate services remote
          (mkSession (mkConn client_writes [] []) empty_world) = (Ok (), s') ∧
    ss_services s' ≠ empty_world ∧
    ∃ h, CAP_OFFER_PULL_V2 ∈ ch_capabilities h ∧ gate remote h = Allow.
Proof.
  destruct (handle_v2_connection identity gate services remote
              (mkSession (mkConn client_writes [] []) empty_world)) as [r s'] eqn:Hrun.
  assert (r = Ok ()) as Hr by (vm_compute in Hrun; injection Hrun as <- _; reflexivity).
  assert (ss_services s' ≠ empty_world) as Hne.
  { intros Heq. apply (f_equal (λ w, size (cards_of (w_db w)))) in Heq. revert Heq.
    vm_compute in Hrun. injection Hrun as _ <-. vm_compute. discriminate. }
  exists s'. split; [rewrite Hr; reflexivity|]. split; [exact Hne|].
  destruct (handle_v2_connection_gate identity gate services remote _ r s' Hrun)
    as [Hsame|(h & _ & _ & _ & _ & _ & _ & Hcap & Hgate & _)].
  - exfalso. apply Hne, Hsame.
  - exists h. split; [exact Hcap | exact Hgate].
Defined.

Definition sample_receive : FetchReceive := λ _ _ _, mret Outcome_Completed.
#[local] Existing Instance sample_receive.
Lemma fetch_v2_spec_witness :
  ∃ c', fetch_v2_with_cancel (SigningKey := bool) (RaceConnect Connected) hello request activation
          key None (mkConn server_writes [] []) = (Ok Outcome_Completed, c') ∧
    ∃ server, authenticated (SigningKey := bool) key own_device server.
Proof.
  destruct (fetch_v2_with_cancel (SigningKey := bool) (RaceConnect Connected) hello request
    activation key None (mkConn server_writes [] [])) as [r c'] eqn:Hrun.
  assert (r = Ok Outcome_Completed ∧
          (length (hello_frame hello) <? length (cn_out c') = true)%nat) as [Hr Hlen]
    by (vm_compute in Hrun; injection Hrun as <- <-; vm_compute; done).
  exists c'. split; [rewrite Hr; reflexivity|].
  destruct (fetch_v2_spec _ _ _ _ _ _ _ _ _ Hrun) as [(n & Hout)|(server & _ & Hauth & _)].
  - exfalso. apply Nat.ltb_lt in Hlen. cbn [cn_out app] in Hout.
    rewrite Hout, length_take in Hlen. lia.
  - exists server. exact Hauth.
Defined.

Lemma serve_inner_bounded_witness :
  0 ≤ 2 ≤ V2_MAX_INBOUND_HANDLERS.
Proof.
  apply (serve_inner_bounded identity
    [Accepted (mkConn [] [] []); Accepted (mkConn [] [] []); Accepted (mkConn [] [] []);
     HandlerEnds] 2). vm_compute. reflexivity.
Defined.

(** Sixteen handlers run; the seventeenth peer does not read. *)
Lemma excess_failure_stops_listener_witness :
  let busy := replicate 16 (Accepted (mkConn [] [] [])) in
  ∃ f, serve_inner identity (busy ++ Accepted (mkConn [] [] [TimesOut 0]) ::
                               [HandlerEnds; Accepted (mkConn client_writes [] [])])
       = Stopped (Err f).
Proof.
  eexists. apply excess_failure_stops_listener; vm_compute; reflexivity.
Defined.
End ConnectionSample.
