(* ===== verification/Manifest.v ===== *)
(** * What the receiver accepts

    Models the checks of [crates/meshelf-net/src/fetch_receiver.rs] between the header and the
    admission of a fetch: [validate_header], which builds the [ReceivePlan], and
    [validate_manifest], which decides whether the manifest describes the announced tree.
    The main theorem says exactly which manifests are accepted; its consequence is that the
    staged files of an accepted manifest never collide, also where the filesystem ignores
    case.  SHA-256 is an interface, and so is the Unicode table behind [str::to_lowercase]. *)

From S2P Require Import Prelude RustStr StdIo Offer Records Names Protocol OfferStore Activation Filesystem Connection.

(** [sha2::Sha256::digest] *)
Class Sha256 := sha256 : bytes → bytes.

(** [str::to_lowercase], and what the standard library documents of it: a path separator maps
    to itself and no context rule reaches across it, so folding a path folds its components. *)
Class Lowercase := to_lowercase : rstr → rstr.
Class LowercaseLaws `{Lowercase} :=
  to_lowercase_split : ∀ s, split_char 47 (to_lowercase s) = map to_lowercase (split_char 47 s).

(** ** The plan *)

(** A staged file: its manifest entry, its path and its handle while that is open. *)
Record StagedFile := mkStagedFile {
  sf_entry_index : Z;
  sf_path : PathBuf;
  sf_file : option Handle;
}.

Record ReceivePlan := mkReceivePlan {
  rp_content_kind : ContentKind;
  rp_total_bytes : Z;
  rp_file_count : Z;
  rp_entries : list ManifestEntry;
  rp_manifest_end : option ManifestEnd;
  rp_manifest_encoded_bytes : Z;
  rp_manifest_sha256 : option bytes;
  rp_text : option rstr;
  rp_staged_files : list StagedFile;
}.

Notation checked T := (result FetchAdmissionCode T).

(** [.as_ref().is_none_or(|hash| hash.len() != 32)] *)
Definition hash_missing (hash : option bytes) : bool :=
  match hash with Some h => negb (zlen h =? 32) | None => true end.

Definition header_kind (h : FetchHeader) : ContentKind :=
  match fh_descriptor h with
  | Descriptor_Text _ _ _ => Kind_Text
  | Descriptor_File _ _ => Kind_File
  | Descriptor_Folder _ _ _ _ _ => Kind_Folder
  end.
Definition header_total_bytes (h : FetchHeader) : Z :=
  match fh_descriptor h with
  | Descriptor_Text utf8_bytes _ _ => utf8_bytes
  | Descriptor_File _ total_bytes => total_bytes
  | Descriptor_Folder _ total_bytes _ _ _ => total_bytes
  end.
Definition header_file_count (h : FetchHeader) : Z :=
  match fh_descriptor h with
  | Descriptor_Text _ _ _ => 0
  | Descriptor_File _ _ => 1
  | Descriptor_Folder _ _ _ file_count _ => file_count
  end.

Definition validate_header (header : FetchHeader) (card : OfferCardRecord)
    (activation : FetchActivation) : checked ReceivePlan :=
  refuse_if (negb (bool_decide (fh_request_id header = fa_request_id activation))
             || negb (bool_decide (fh_offer_id header = fa_offer_id activation)))
    Admission_InvalidManifest;;
  refuse_if (negb (bool_decide (fh_descriptor header = card_descriptor card)))
    Admission_InvalidManifest;;
  (if descriptor_is_text (fh_descriptor header) then
     refuse_if (negb (fh_manifest_entries header =? 0)
                || negb (fh_manifest_encoded_bytes header =? 0)
                || bool_decide (is_Some (fh_manifest_sha256 header))
                || hash_missing (fh_text_sha256 header)) Admission_InvalidManifest
   else
     refuse_if (bool_decide (is_Some (fh_text_sha256 header))
                || hash_missing (fh_manifest_sha256 header)) Admission_InvalidManifest);;
  mret (mkReceivePlan (header_kind header) (header_total_bytes header)
          (header_file_count header) [] None 0 (fh_manifest_sha256 header) None []).

Definition needs_filesystem_reservation (content_kind : ContentKind) (payload_bytes : Z) : bool :=
  negb (bool_decide (content_kind = Kind_Text)) && (0 <? payload_bytes).

(** ** The manifest *)

Section validate.
Context `{!Lowercase} `{!Sha256} `{!Json (list ManifestEntry)}.

Definition folded (e : ManifestEntry) : rstr := to_lowercase (me_relative_path e).

(** The variables of the loop over the entries. *)
Record Tally := mkTally {
  ta_seen : gset rstr;
  ta_directories : gset rstr;
  ta_files : gset rstr;
  ta_total_bytes : Z;
  ta_file_count : Z;
  ta_directory_count : Z;
}.
Definition tally_empty : Tally := mkTally ∅ ∅ ∅ 0 0 0.

Definition check_path (e : ManifestEntry) : checked () :=
  refuse_if (V2_MAX_RELATIVE_PATH_BYTES <? str_len (me_relative_path e))
    Admission_InvalidManifest;;
  if bool_decide (me_relative_path e = []) then
    refuse_if (negb (bool_decide (me_kind e = Entry_File))) Admission_InvalidManifest
  else
    map_err (λ _, Admission_InvalidManifest) (validate_relative_path (me_relative_path e)).

(** One iteration of the loop. *)
Definition tally_entry (e : ManifestEntry) (t : Tally) : checked Tally :=
  check_path e;;
  refuse_if (bool_decide (folded e ∈ ta_seen t)) Admission_InvalidManifest;;
  let seen := {[folded e]} ∪ ta_seen t in
  match me_kind e with
  | Entry_File =>
      refuse_if (V2_MAX_FILE_BYTES <? me_byte_len e) Admission_TooLarge;;
      file_count ← ok_or (checked_add U32_MAX (ta_file_count t) 1) Admission_TooLarge;
      total_bytes ← ok_or (checked_add U64_MAX (ta_total_bytes t) (me_byte_len e))
                      Admission_TooLarge;
      mret (mkTally seen (ta_directories t) ({[folded e]} ∪ ta_files t) total_bytes
              file_count (ta_directory_count t))
  | Entry_Directory =>
      refuse_if (negb (me_byte_len e =? 0)) Admission_InvalidManifest;;
      directory_count ← ok_or (checked_add U32_MAX (ta_directory_count t) 1) Admission_TooLarge;
      mret (mkTally seen ({[folded e]} ∪ ta_directories t) (ta_files t) (ta_total_bytes t)
              (ta_file_count t) directory_count)
  end.
Fixpoint tally_entries (entries : list ManifestEntry) (t : Tally) : checked Tally :=
  match entries with
  | [] => mret t
  | e :: rest => t ← tally_entry e t; tally_entries rest t
  end.

(** [for end in 1..components.len() { components[..end].join("/") }] *)
Definition parents (path : rstr) : list rstr :=
  let components := split_char 47 path in
  map (λ n, join_char 47 (take n components)) (seq 1 (length components - 1)).
Fixpoint check_parents (t : Tally) (ps : list rstr) : checked () :=
  match ps with
  | [] => mret ()
  | parent :: rest =>
      refuse_if (bool_decide (parent ∈ ta_files t)) Admission_InvalidManifest;;
      refuse_if (negb (bool_decide (parent ∈ ta_directories t))) Admission_InvalidManifest;;
      check_parents t rest
  end.
(** The second loop, over the entries with a path. *)
Fixpoint check_tree (t : Tally) (entries : list ManifestEntry) : checked () :=
  match entries with
  | [] => mret ()
  | e :: rest =>
      (if bool_decide (me_relative_path e = []) then mret ()
       else check_parents t (parents (folded e)));;
      check_tree t rest
  end.

(** The match over the descriptor: the number of entries it announces. *)
Definition expected_entries (descriptor : OfferDescriptor) (entries : list ManifestEntry)
    (t : Tally) : checked Z :=
  match descriptor with
  | Descriptor_Text _ _ _ => mret 0
  | Descriptor_File _ expected =>
      refuse_if (match entries with
                 | [e] => negb (bool_decide (me_kind e = Entry_File))
                          || negb (bool_decide (me_relative_path e = []))
                          || negb (ta_total_bytes t =? expected)
                 | _ => true
                 end) Admission_InvalidManifest;;
      mret 1
  | Descriptor_Folder _ expected_total entry_count expected_files expected_directories =>
      refuse_if (negb (ta_total_bytes t =? expected_total)
                 || negb (ta_file_count t =? expected_files)
                 || negb (ta_directory_count t =? expected_directories))
        Admission_InvalidManifest;;
      mret entry_count
  end.

Definition check_digest (header : FetchHeader) (plan : ReceivePlan) (t : Tally) : checked () :=
  match fh_manifest_sha256 header with
  | None => mret ()
  | Some end_ =>
      json ← map_err (λ _, Admission_InvalidManifest) (json_to_vec (rp_entries plan));
      refuse_if (negb (bool_decide (sha256 json = end_))) Admission_InvalidManifest;;
      match rp_manifest_end plan with
      | None => Err Admission_InvalidManifest
      | Some manifest_end =>
          refuse_if
            (negb (mend_entry_count manifest_end
                   =? default U32_MAX (try_from U32_MAX (zlen (rp_entries plan))))
             || negb (mend_file_count manifest_end =? ta_file_count t)
             || negb (mend_total_bytes manifest_end =? ta_total_bytes t)
             || negb (bool_decide (mend_manifest_sha256 manifest_end = end_)))
            Admission_InvalidManifest
      end
  end.

Definition validate_manifest (header : FetchHeader) (descriptor : OfferDescriptor)
    (plan : ReceivePlan) : checked () :=
  let entries := rp_entries plan in
  refuse_if (negb (zlen entries =? fh_manifest_entries header)) Admission_InvalidManifest;;
  t ← tally_entries entries tally_empty;
  check_tree t entries;;
  refuse_if (V2_MAX_TRANSFER_BYTES <? ta_total_bytes t) Admission_TooLarge;;
  expected ← expected_entries descriptor entries t;
  refuse_if (negb (default U32_MAX (try_from U32_MAX (zlen entries)) =? expected))
    Admission_InvalidManifest;;
  check_digest header plan t.
End validate.

(** ** Text sent to the peer *)

(** [safe_detail]; [None] is the panic of [String::truncate] inside a character. *)
Definition safe_detail (detail : rstr) : option rstr :=
  str_truncate (map (λ c, if (c =? 10) || (c =? 13) then 32 else c) detail) 256.

(** ** What is accepted *)

Section accepted.
Context `{!Lowercase} `{!Sha256} `{!Json (list ManifestEntry)}.
Implicit Types (e : ManifestEntry) (es : list ManifestEntry).

Definition is_file e : bool := bool_decide (me_kind e = Entry_File).
Definition files_of es : list ManifestEntry := filter (λ e, is_file e = true) es.
Definition directories_of es : list ManifestEntry := filter (λ e, is_file e = false) es.

Definition entry_ok e : Prop :=
  check_path e = Ok () ∧
  match me_kind e with
  | Entry_File => me_byte_len e ≤ V2_MAX_FILE_BYTES
  | Entry_Directory => me_byte_len e = 0
  end.

(** Every folder on the way to an entry is an entry of its own, and not a file. *)
Definition tree_ok es : Prop :=
  Forall (λ e, me_relative_path e ≠ [] →
    Forall (λ parent, parent ∉ map folded (files_of es) ∧ parent ∈ map folded (directories_of es))
      (parents (folded e))) es.

Definition describes (descriptor : OfferDescriptor) es : Prop :=
  match descriptor with
  | Descriptor_Text _ _ _ => es = []
  | Descriptor_File _ total =>
      ∃ e, es = [e] ∧ me_kind e = Entry_File ∧ me_relative_path e = [] ∧ me_byte_len e = total
  | Descriptor_Folder _ total entry_count file_count directory_count =>
      sum_with file_size es = total ∧ zlen (files_of es) = file_count ∧
      zlen (directories_of es) = directory_count ∧ zlen es = entry_count
  end.

Definition digest_ok (header : FetchHeader) (plan : ReceivePlan) : Prop :=
  match fh_manifest_sha256 header with
  | None => True
  | Some hash =>
      ∃ json manifest_end, json_to_vec (rp_entries plan) = Ok json ∧ sha256 json = hash ∧
        rp_manifest_end plan = Some manifest_end ∧ mend_entry_count manifest_end = zlen (rp_entries plan) ∧
        mend_file_count manifest_end = zlen (files_of (rp_entries plan)) ∧
        mend_total_bytes manifest_end = sum_with file_size (rp_entries plan) ∧
        mend_manifest_sha256 manifest_end = hash
  end.

Record manifest_ok header descriptor plan : Prop := {
  mo_count : zlen (rp_entries plan) = fh_manifest_entries header;
  mo_entries : Forall entry_ok (rp_entries plan);
  mo_distinct : NoDup (map folded (rp_entries plan));
  mo_tree : tree_ok (rp_entries plan);
  mo_total : sum_with file_size (rp_entries plan) ≤ V2_MAX_TRANSFER_BYTES;
  mo_describes : describes descriptor (rp_entries plan);
  mo_digest : digest_ok header plan;
}.

(** *** The loop over the entries *)

Definition merged (t : Tally) es : Tally :=
  mkTally (list_to_set (map folded es) ∪ ta_seen t)
    (list_to_set (map folded (directories_of es)) ∪ ta_directories t)
    (list_to_set (map folded (files_of es)) ∪ ta_files t)
    (ta_total_bytes t + sum_with file_size es)
    (ta_file_count t + zlen (files_of es))
    (ta_directory_count t + zlen (directories_of es)).

Lemma tally_eq s1 d1 f1 n1 c1 k1 s2 d2 f2 n2 c2 k2 :
  s1 = s2 → d1 = d2 → f1 = f2 → n1 = n2 → c1 = c2 → k1 = k2 →
  mkTally s1 d1 f1 n1 c1 k1 = mkTally s2 d2 f2 n2 c2 k2.
Proof. by intros -> -> -> -> -> ->. Qed.
(** Two tallies given by fields: sets by [set_solver], counts by [lia]. *)
Ltac solve_tally :=
  apply tally_eq; [set_solver..| | |]; rewrite ?zlen_cons, ?zlen_nil; lia.

Lemma files_nil : files_of [] = [].
Proof. done. Qed.
Lemma directories_nil : directories_of [] = [].
Proof. done. Qed.
Lemma merged_nil t : merged t [] = t.
Proof.
  destruct t. unfold merged. rewrite files_nil, directories_nil. simpl. solve_tally.
Qed.

Lemma files_cons e es : files_of (e :: es) = if is_file e then e :: files_of es else files_of es.
Proof. unfold files_of. rewrite filter_cons. destruct (is_file e); by case_decide. Qed.
Lemma directories_cons e es :
  directories_of (e :: es) = if is_file e then directories_of es else e :: directories_of es.
Proof. unfold directories_of. rewrite filter_cons. destruct (is_file e); by case_decide. Qed.

Lemma merged_cons t e es : merged t (e :: es) = merged (merged t [e]) es.
Proof.
  unfold merged. rewrite !files_cons, !directories_cons, !files_nil, !directories_nil.
  simpl. destruct (is_file e); simpl; solve_tally.
Qed.

(** Counts within range: what the checked additions guard. *)
Definition in_range (t : Tally) : Prop :=
  ta_total_bytes t ≤ U64_MAX ∧ ta_file_count t ≤ U32_MAX ∧ ta_directory_count t ≤ U32_MAX.

Lemma tally_entry_Ok e t t' :
  entry_typed e → in_range t →
  tally_entry e t = Ok t' ↔
  entry_ok e ∧ folded e ∉ ta_seen t ∧ t' = merged t [e] ∧ in_range (merged t [e]).
Proof.
  intros Hty Hr. unfold tally_entry, entry_ok, in_range in *.
  rewrite unit_seq_Ok, refuse_seq_Ok, bool_decide_eq_false. cbv zeta.
  assert (merged t [e] = mkTally ({[folded e]} ∪ ta_seen t)
    (if is_file e then ta_directories t else {[folded e]} ∪ ta_directories t)
    (if is_file e then {[folded e]} ∪ ta_files t else ta_files t)
    (ta_total_bytes t + file_size e)
    (ta_file_count t + (if is_file e then 1 else 0))
    (ta_directory_count t + (if is_file e then 0 else 1))) as ->.
  { unfold merged. rewrite files_cons, directories_cons, files_nil, directories_nil.
    destruct (is_file e); simpl; solve_tally. }
  unfold is_file, file_size. unfold entry_typed, is_u64 in Hty.
  cbn [ta_total_bytes ta_file_count ta_directory_count].
  destruct (me_kind e); simpl.
  - rewrite refuse_seq_Ok, bind_Ok. setoid_rewrite bind_Ok. setoid_rewrite ok_or_Ok.
    setoid_rewrite checked_add_Some. rewrite Z.ltb_ge. split.
    + intros (Hp & Hs & Hb & c & [-> ?] & b & [-> ?] & [= <-]).
      rewrite Z.add_0_r. repeat split; try done; lia.
    + intros ((Hp & Hb) & Hs & -> & ? & ? & _). rewrite Z.add_0_r. eauto 12.
  - rewrite refuse_seq_Ok, bind_Ok. setoid_rewrite ok_or_Ok. setoid_rewrite checked_add_Some.
    rewrite negb_false_iff, Z.eqb_eq. split.
    + intros (Hp & Hs & Hb & c & [-> ?] & [= <-]).
      rewrite !Z.add_0_r. repeat split; try done; lia.
    + intros ((Hp & Hb) & Hs & -> & ? & ? & ?). rewrite !Z.add_0_r. eauto 12.
Qed.

Lemma in_range_nonneg t es :
  Forall entry_typed es → in_range (merged t es) → in_range t.
Proof.
  intros Ht%sum_file_size_nonneg (H1 & H2 & H3). unfold in_range, merged in *. simpl in *.
  pose proof (zlen_nonneg (files_of es)). pose proof (zlen_nonneg (directories_of es)). lia.
Qed.

Lemma tally_entries_Ok es t t' :
  Forall entry_typed es → in_range t →
  tally_entries es t = Ok t' ↔
  Forall entry_ok es ∧ NoDup (map folded es) ∧ (∀ e, e ∈ es → folded e ∉ ta_seen t) ∧
  t' = merged t es ∧ in_range (merged t es).
Proof.
  intros Hty. revert t. induction Hty as [|e es He Hes IH]; intros t Hr.
  { cbn [tally_entries]. rewrite merged_nil. split.
    - intros [= <-]. split_and!; try done; [constructor | set_solver].
    - by intros (_ & _ & _ & -> & _). }
  cbn [tally_entries map]. rewrite bind_Ok, Forall_cons, NoDup_cons, merged_cons. split.
  - intros (t1 & (Hok & Hnew & -> & Hr1)%tally_entry_Ok & Hrest); [|done..].
    apply IH in Hrest as (Hoks & Hnd & Hseen & -> & Hr2); [|done].
    split_and!; try done; try apply Hr2.
    + intros (e' & Heq & Hin)%list_elem_of_fmap. specialize (Hseen _ Hin). simpl in Hseen.
      rewrite <- Heq in Hseen. set_solver.
    + intros e' [->|Hin]%elem_of_cons; [done|]. specialize (Hseen _ Hin). simpl in Hseen.
      set_solver.
  - intros ((Hok & Hoks) & (Hnew & Hnd) & Hseen & -> & Hr2).
    assert (in_range (merged t [e])) as Hr1 by (by eapply in_range_nonneg).
    exists (merged t [e]). split.
    + apply tally_entry_Ok; [done..|]. split_and!; try done; try apply Hr1. apply Hseen. set_solver.
    + apply IH; [done|]. split_and!; try done; try apply Hr2.
      intros e' Hin. simpl. intros [[Heq%elem_of_singleton|?%elem_of_empty]%elem_of_union|Hs]%elem_of_union;
        [|done|].
      * apply Hnew. rewrite <- Heq. apply list_elem_of_fmap. eauto.
      * eapply Hseen; [|done]. set_solver.
Qed.

(** *** The loop over the folders *)

Lemma check_parents_Ok t ps :
  check_parents t ps = Ok () ↔
  Forall (λ parent, parent ∉ ta_files t ∧ parent ∈ ta_directories t) ps.
Proof.
  induction ps as [|p ps IH]; cbn [check_parents]; [by split|].
  rewrite !refuse_seq_Ok, IH, Forall_cons, negb_false_iff.
  rewrite bool_decide_eq_false, bool_decide_eq_true. tauto.
Qed.

Lemma check_tree_Ok t es :
  check_tree t es = Ok () ↔
  Forall (λ e, me_relative_path e ≠ [] →
    Forall (λ parent, parent ∉ ta_files t ∧ parent ∈ ta_directories t) (parents (folded e))) es.
Proof.
  induction es as [|e es IH]; cbn [check_tree]; [by split|].
  rewrite unit_seq_Ok, IH, Forall_cons. case_bool_decide as Hp.
  - naive_solver.
  - rewrite check_parents_Ok. naive_solver.
Qed.

(** *** The rest *)

Lemma filter_sizes es : zlen (files_of es) + zlen (directories_of es) = zlen es.
Proof.
  induction es as [|e es IH]; [done|]. rewrite files_cons, directories_cons.
  destruct (is_file e); rewrite !zlen_cons; lia.
Qed.

Lemma expected_entries_Ok descriptor es n :
  0 ≤ zlen es ≤ U32_MAX →
  expected_entries descriptor es (merged tally_empty es) = Ok n ∧
  default U32_MAX (try_from U32_MAX (zlen es)) = n ↔ describes descriptor es ∧ n = zlen es.
Proof.
  intros Hlen. rewrite (proj2 (try_from_Some U32_MAX (zlen es) (zlen es))) by done.
  simpl. destruct descriptor as [b l p|name total|name total n' f d]; simpl.
  - split.
    + intros [[= <-] Hn]. split; [|done]. by destruct es.
    + intros [-> ->]. done.
  - rewrite refuse_seq_Ok. split.
    + intros [[Hb [= <-]] Hn]. split; [|done]. destruct es as [|e [|]]; try done.
      rewrite !orb_false_iff, !negb_false_iff, !bool_decide_eq_true, Z.eqb_eq in Hb.
      destruct Hb as [[Hk Hp] Ht]. exists e. split_and!; try done.
      simpl in Ht. unfold file_size in Ht. rewrite Hk in Ht. lia.
    + intros [(e & -> & Hk & Hp & Ht) ->]. split; [|done]. split; [|done].
      rewrite !orb_false_iff, !negb_false_iff, !bool_decide_eq_true, Z.eqb_eq.
      split_and!; try done. simpl. unfold file_size. rewrite Hk. lia.
  - rewrite refuse_seq_Ok, !orb_false_iff, !negb_false_iff, !Z.eqb_eq. unfold mret, result_ret.
    naive_solver lia.
Qed.

Lemma check_digest_Ok header plan :
  0 ≤ zlen (rp_entries plan) ≤ U32_MAX →
  check_digest header plan (merged tally_empty (rp_entries plan)) = Ok () ↔ digest_ok header plan.
Proof.
  intros Hlen. unfold check_digest, digest_ok. destruct (fh_manifest_sha256 header) as [h|]; [|done].
  rewrite (proj2 (try_from_Some U32_MAX (zlen (rp_entries plan)) (zlen (rp_entries plan)))) by done.
  cbn [default from_option]. rewrite bind_Ok. setoid_rewrite map_err_Ok.
  setoid_rewrite refuse_seq_Ok. setoid_rewrite negb_false_iff. setoid_rewrite bool_decide_eq_true.
  destruct (rp_manifest_end plan) as [me|].
  - setoid_rewrite refuse_if_Ok. setoid_rewrite orb_false_iff. setoid_rewrite orb_false_iff.
    setoid_rewrite orb_false_iff. setoid_rewrite negb_false_iff. setoid_rewrite Z.eqb_eq.
    setoid_rewrite bool_decide_eq_true. simpl. setoid_rewrite Z.add_0_l. split.
    + intros (json & Hj & Hh & ((? & ?) & ?) & ?). exists json, me. done.
    + intros (json & me' & Hj & Hh & [= <-] & ? & ? & ? & ?). exists json. done.
  - split; [by intros (? & _ & _ & ?)|]. by intros (? & ? & _ & _ & ? & _).
Qed.

Lemma validate_manifest_run header descriptor plan :
  Forall entry_typed (rp_entries plan) → is_u32 (fh_manifest_entries header) →
  validate_manifest header descriptor plan = Ok () ↔ manifest_ok header descriptor plan.
Proof.
  intros Hty Hu. unfold validate_manifest, is_u32 in *.
  assert (in_range tally_empty) as Hr by (unfold in_range, U64_MAX, U32_MAX; simpl; lia).
  rewrite refuse_seq_Ok, negb_false_iff, Z.eqb_eq, bind_Ok.
  setoid_rewrite (tally_entries_Ok _ _ _ Hty Hr). setoid_rewrite unit_seq_Ok.
  setoid_rewrite refuse_seq_Ok. setoid_rewrite bind_Ok. setoid_rewrite refuse_seq_Ok. split.
  - intros (Hcount & t & (Hoks & Hnd & _ & -> & _) & Htree & Htotal & n & Hexp & Hn & Hdig).
    rewrite negb_false_iff, Z.eqb_eq in Hn.
    assert (0 ≤ zlen (rp_entries plan) ≤ U32_MAX) as Hlen by (rewrite Hcount; done).
    destruct (proj1 (expected_entries_Ok descriptor _ n Hlen) (conj Hexp Hn)) as [Hdesc _].
    apply check_digest_Ok in Hdig; [|done]. apply check_tree_Ok in Htree.
    split; try done.
    + eapply Forall_impl; [exact Htree|]. intros e He Hp. specialize (He Hp).
      eapply Forall_impl; [exact He|]. simpl. intros p. set_solver.
    + apply Z.ltb_ge in Htotal. cbn [merged ta_total_bytes tally_empty] in Htotal. lia.
  - intros [Hcount Hoks Hnd Htree Htotal Hdesc Hdig]. split; [done|].
    assert (0 ≤ zlen (rp_entries plan) ≤ U32_MAX) as Hlen by (rewrite Hcount; done).
    exists (merged tally_empty (rp_entries plan)). split_and!; try done; try set_solver.
    + pose proof (filter_sizes (rp_entries plan)).
      pose proof (zlen_nonneg (directories_of (rp_entries plan))).
      pose proof (zlen_nonneg (files_of (rp_entries plan))).
      unfold in_range, V2_MAX_TRANSFER_BYTES, MAX_OFFER_TRANSFER_BYTES, U64_MAX in *.
      cbn [merged tally_empty ta_total_bytes ta_file_count ta_directory_count]. lia.
    + apply check_tree_Ok. eapply Forall_impl; [exact Htree|]. intros e He Hp. specialize (He Hp).
      eapply Forall_impl; [exact He|]. simpl. intros p. set_solver.
    + apply Z.ltb_ge. cbn [merged tally_empty ta_total_bytes ta_file_count ta_directory_count]. lia.
    + destruct (proj2 (expected_entries_Ok descriptor _ _ Hlen) (conj Hdesc eq_refl)) as [He Hn].
      exists (zlen (rp_entries plan)). rewrite negb_false_iff, Z.eqb_eq.
      split_and!; [done..|]. by apply check_digest_Ok.
Qed.

(** C33: [validate_manifest] accepts exactly the manifests that describe the announced tree:
    as many entries as the header says, every path portable and within 4096 bytes, no two
    paths equal up to case, every folder on the way to an entry itself an entry, sizes within
    their limits and adding up to the announced totals, and, when the header has a digest,
    digest and counts of the manifest end as announced. *)
Theorem validate_manifest_spec header descriptor plan :
  Forall entry_typed (rp_entries plan) → is_u32 (fh_manifest_entries header) →
  validate_manifest header descriptor plan = Ok () ↔ manifest_ok header descriptor plan.
Proof. apply validate_manifest_run. Qed.
End accepted.

Section staging.
Context `{!Lowercase} `{!LowercaseLaws} `{!Sha256} `{!Json (list ManifestEntry)}.

(** The host path of an entry, as a filesystem that ignores case sees it. *)
Definition folded_path (e : ManifestEntry) : list rstr :=
  map to_lowercase (relative_path (me_relative_path e)).

Lemma folded_path_split e : split_char 47 (folded e) = folded_path e.
Proof. apply to_lowercase_split. Qed.

Lemma elem_of_parents path n :
  (1 ≤ n < length (split_char 47 path))%nat → join_char 47 (take n (split_char 47 path)) ∈ parents path.
Proof.
  intros Hn. unfold parents. apply list_elem_of_fmap. exists n. split; [done|].
  apply elem_of_seq. lia.
Qed.

Lemma split_char_ne s : split_char 47 s ≠ [].
Proof. destruct s as [|c s]; simpl; [done|]. destruct (c =? 47); [done|]. by destruct (split_char 47 s). Qed.

(** in an accepted manifest no file lies at, or above, the place of another entry, even
    on a filesystem that ignores case: the files staged for it are all different, and none
    has to be a folder for another. *)
Theorem accepted_files_disjoint header descriptor plan i j e1 e2 :
  Forall entry_typed (rp_entries plan) → is_u32 (fh_manifest_entries header) →
  validate_manifest header descriptor plan = Ok () →
  rp_entries plan !! i = Some e1 → rp_entries plan !! j = Some e2 → is_file e1 = true →
  folded_path e1 `prefix_of` folded_path e2 → i = j.
Proof.
  intros Hty Hu Hv Hi Hj Hfile [k Hk].
  apply validate_manifest_run in Hv as [_ _ Hnd Htree _ _ _]; [|done..].
  rewrite <- !folded_path_split in Hk.
  destruct k as [|c k].
  - rewrite app_nil_r in Hk.
    assert (folded e1 = folded e2) as Heq
      by (rewrite <- (join_split_char 47 (folded e1)), <- Hk; apply join_split_char).
    eapply NoDup_lookup; [exact Hnd| |]; rewrite list_lookup_fmap.
    + by rewrite Hi.
    + by rewrite Hj, Heq.
  - exfalso. unfold tree_ok in Htree. rewrite Forall_lookup in Htree. specialize (Htree _ _ Hj).
    pose proof (split_char_ne (folded e1)) as Hne.
    assert (me_relative_path e2 ≠ []) as Hp2.
    { intros Hp. rewrite (folded_path_split e2) in Hk. unfold folded_path in Hk.
      rewrite Hp in Hk. apply (f_equal length) in Hk. rewrite length_app in Hk. simpl in Hk.
      destruct (split_char 47 (folded e1)); [done|]. simpl in Hk. lia. }
    specialize (Htree Hp2). rewrite Forall_forall in Htree.
    destruct (Htree (folded e1)) as [Hnot _].
    + rewrite <- (join_split_char 47 (folded e1)).
      rewrite <- (take_app_length (split_char 47 (folded e1)) (c :: k)), <- Hk.
      apply elem_of_parents. rewrite Hk, length_app. simpl.
      destruct (split_char 47 (folded e1)); [done|]. simpl. lia.
    + apply Hnot, list_elem_of_fmap. exists e1. split; [done|].
      apply list_elem_of_filter. split; [done|]. by eapply list_elem_of_lookup_2.
Qed.
End staging.

(** [safe_detail] does not return on every text: it truncates at byte 256 without looking
    for a character boundary, which panics in the middle of a character.  Texts that a peer
    may send, within the 512 bytes the protocol allows, reach it. *)
Theorem safe_detail_panics :
  ∃ detail, valid_str detail ∧ validate_detail (Some detail) = Ok () ∧ safe_detail detail = None.
Proof.
  exists (repeat 97 255 ++ [233]). split_and!; [|by vm_compute..].
  unfold valid_str. apply Forall_app. split; [|repeat constructor; unfold is_scalar; lia].
  apply Forall_forall. intros x Hx%list_elem_of_In%repeat_spec. subst. unfold is_scalar. lia.
Qed.

(** ** Witnesses *)

Module ManifestSample.
(** Case folding of ASCII, which satisfies the law for every string. *)
Definition ascii_lowercase : Lowercase := map to_ascii_lowercase.
#[local] Existing Instance ascii_lowercase.
Lemma ascii_lowercase_laws : LowercaseLaws.
Proof.
  intros s. unfold to_lowercase, ascii_lowercase. induction s as [|c s IH]; [done|].
  simpl. destruct (Z.eqb_spec c 47) as [->|Hc]; [by rewrite IH|].
  assert ((to_ascii_lowercase c =? 47) = false) as ->.
  { apply Z.eqb_neq. unfold to_ascii_lowercase. case_match; [|done]. bool_facts. lia. }
  rewrite IH. by destruct (split_char 47 s).
Qed.
#[local] Existing Instance ascii_lowercase_laws.
Definition sample_sha256 : Sha256 := λ b, take 32 (b ++ repeat Byte.x00 32).
#[local] Existing Instance sample_sha256.
Definition entries : list ManifestEntry :=
  [mkManifestEntry (str "Docs") Entry_Directory 0;
   mkManifestEntry (str "docs/a.txt") Entry_File 5;
   mkManifestEntry (str "b.txt") Entry_File 7].
Definition entries_json : Json (list ManifestEntry) := table_json [entries].
#[local] Existing Instance entries_json.
Definition digest : bytes := sha256 [Byte.x7b].
Definition descriptor : OfferDescriptor := Descriptor_Folder (str "root") 12 3 2 1.
Definition header : FetchHeader :=
  mkFetchHeader (mkActivationId 1) (mkOfferId 1) descriptor 3 100 None (Some digest).
Definition plan : ReceivePlan :=
  mkReceivePlan Kind_Folder 12 2 entries
    (Some (mkManifestEnd (mkActivationId 1) 3 2 12 digest)) 100 (Some digest) None [].

Lemma entries_typed : Forall entry_typed (rp_entries plan).
Proof. repeat constructor; vm_compute; discriminate. Qed.

Lemma validate_manifest_spec_witness : manifest_ok header descriptor plan.
Proof.
  apply (validate_manifest_spec header descriptor plan entries_typed).
  - split; vm_compute; discriminate.
  - vm_compute. reflexivity.
Defined.

Lemma accepted_files_disjoint_witness :
  ¬ folded_path (mkManifestEntry (str "docs/a.txt") Entry_File 5)
      `prefix_of` folded_path (mkManifestEntry (str "b.txt") Entry_File 7).
Proof.
  intros Hp. assert (1 = 2)%nat as Hbad; [|discriminate Hbad].
  eapply (accepted_files_disjoint header descriptor plan 1 2 _ _ entries_typed);
    [split; vm_compute; discriminate|vm_compute; reflexivity|reflexivity..|exact Hp].
Defined.
End ManifestSample.
