(* ===== verification/Transfer.v ===== *)
(** * Reading a transfer

    The reading half of [crates/meshelf-net/src/fetch_receiver.rs]: the reads of control
    frames and payload under a timeout, their races with the cancellation signal, and the
    failures they are classified into.  A [Peer] is the connection together with everything
    outside that decides how a read ends: how many bytes each [read] delivers, what the signal
    says at each look, which side of each [select!] finishes first, and at which await the
    future is dropped.  [Stop] distinguishes an error the code handles from a panic and from
    being dropped, which nothing handles. *)

From S2P Require Import Prelude RustStr StdIo Utf8 Offer Records Protocol OfferStore Activation Announce Connection.
From Stdlib Require Import Strings.Byte.

(** ** Errors *)

Inductive Stop (E : Type) :=
| Fails (error : E)
| Panics
| Drops.
Arguments Fails {E} _.
Arguments Panics {E}.
Arguments Drops {E}.

(** [match operation { .. }]: only errors are observed. *)
Definition try_stop {S E E' T} (m : St S (Stop E) T) : St S (Stop E') (result E T) := λ s,
  match m s with
  | (Ok x, s) => (Ok (Ok x), s)
  | (Err (Fails e), s) => (Ok (Err e), s)
  | (Err Panics, s) => (Err Panics, s)
  | (Err Drops, s) => (Err Drops, s)
  end.
Definition map_stop {S E E' T} (f : E → E') : St S (Stop E) T → St S (Stop E') T :=
  st_map_err (λ stop, match stop with
                      | Fails e => Fails (f e)
                      | Panics => Panics
                      | Drops => Drops
                      end).
Definition fail {S E T} (e : E) : St S (Stop E) T := st_err (Fails e).
Definition lift_stop {S E T} (r : result E T) : St S (Stop E) T := st_lift (map_err Fails r).

Inductive ReceiveFailure :=
| RF_Disconnected (files bytes : Z)
| RF_LocalCancelled (files bytes : Z)
| RF_Aborted (code : FetchAbortCode) (files bytes : Z)
| RF_Verification (files bytes : Z) (detail : rstr)
| RF_Protocol (files bytes : Z) (detail : rstr)
| RF_LocalIo (files bytes : Z) (detail : rstr)
| RF_Io (error : NetError).

Definition is_disconnect_io (error : IoError) : bool :=
  match io_kind error with
  | UnexpectedEof | ConnectionReset | BrokenPipe | ConnectionAborted | NotConnected => true
  | _ => false
  end.

Definition protocol_read_failure (error : ProtocolError) (files bytes : Z) : ReceiveFailure :=
  match error with
  | Proto_Io error =>
      if is_disconnect_io error then RF_Disconnected files bytes else RF_Io (Net_Io error)
  | error => RF_Protocol files bytes (protocol_error_to_string error)
  end.

Definition abort_failure (abort : FetchAbort) : ReceiveFailure :=
  RF_Aborted (ab_code abort) (ab_files_sent abort) (ab_bytes_sent abort).

Definition manifest_invalid : ReceiveFailure := RF_Verification 0 0 (str "invalid manifest").

(** ** The peer *)

(** Which branch of a [select!] finishes first; when the signal does, the read that is given
    up has already taken [consumed] bytes from the stream. *)
Inductive Race := ReadFirst | SignalFirst (consumed : nat).

Record Peer := mkPeer {
  pe_conn : Conn;
  pe_chunks : list nat;
  pe_signal : option (list bool);
  pe_races : list Race;
  pe_drops : list bool;
}.
Notation PeerM := (St Peer (Stop ReceiveFailure)).

Definition set_conn (c : Conn) (p : Peer) : Peer :=
  mkPeer c (pe_chunks p) (pe_signal p) (pe_races p) (pe_drops p).

(** A point where the future waits, and may be dropped. *)
Definition await {E} : St Peer (Stop E) () := λ p,
  match pe_drops p with
  | [] => (Ok (), p)
  | dropped :: rest =>
      (if dropped : bool then Err Drops else Ok (),
       mkPeer (pe_conn p) (pe_chunks p) (pe_signal p) (pe_races p) rest)
  end.

(** [timeout(duration, read(stream)).await]: [None] is the elapsed timeout. *)
Definition timed_read {E T} (broken : IoError → E) (read : St bytes E T)
    : St Conn (option E) T := λ c,
  let '(f, c) := next_fault c in
  match f with
  | TimesOut n => (Err None, mkConn (drop n (cn_in c)) (cn_out c) (cn_schedule c))
  | Breaks n error =>
      (Err (Some (broken error)), mkConn (drop n (cn_in c)) (cn_out c) (cn_schedule c))
  | Fine =>
      let '(r, rest) := read (cn_in c) in
      (map_err Some r, mkConn rest (cn_out c) (cn_schedule c))
  end.
Definition on_stream {E T} (classify : E → ReceiveFailure) (m : St Conn E T) : PeerM T :=
  await;;
  ((λ p, let '(r, c) := m (pe_conn p) in
         (map_err (λ e, Fails (classify e)) r, set_conn c p)) : PeerM T).

(** [cancel_requested]: what the signal says at this look. *)
Definition cancel_requested {E} : St Peer (Stop E) bool := λ p,
  match pe_signal p with
  | Some (value :: rest) =>
      (Ok value, mkPeer (pe_conn p) (pe_chunks p) (Some rest) (pe_races p) (pe_drops p))
  | _ => (Ok false, p)
  end.
Definition has_signal {E} : St Peer (Stop E) bool := λ p,
  (Ok (bool_decide (is_Some (pe_signal p))), p).
Definition next_race {E} : St Peer (Stop E) Race := λ p,
  match pe_races p with
  | [] => (Ok ReadFirst, p)
  | race :: rest =>
      (Ok race, mkPeer (pe_conn p) (pe_chunks p) (pe_signal p) rest (pe_drops p))
  end.
(** What a read that is given up has taken from the stream. *)
Definition lose (n : nat) : PeerM () := st_modify (λ p,
  set_conn (mkConn (drop n (cn_in (pe_conn p))) (cn_out (pe_conn p)) (cn_schedule (pe_conn p))) p).

(** The shape of the three cancellable reads: look at the signal, then read, or race the read
    against the signal; if the signal changes without asking to cancel, the code reads again
    from wherever the first read had got to. *)
Definition cancellable {T} (files bytes : Z) (read : PeerM T) : PeerM T :=
  cancelled ← cancel_requested;
  if cancelled : bool then fail (RF_LocalCancelled files bytes)
  else
    signal ← has_signal;
    if negb signal then read
    else
      race ← next_race;
      match race with
      | ReadFirst => read
      | SignalFirst consumed =>
          lose consumed;;
          await;;
          cancelled ← cancel_requested;
          if cancelled : bool then fail (RF_LocalCancelled files bytes) else read
      end.

Section reads.
Context `{!Json V2Message}.

Definition read_v2_timeout (files bytes : Z) : PeerM V2Message :=
  message ← on_stream (λ e, match e with
                            | None => RF_Io (Net_Timeout (str "read fetch control"))
                            | Some error => protocol_read_failure error files bytes
                            end) (timed_read Proto_Io read_v2_frame);
  lift_stop (map_err (λ error, RF_Protocol files bytes (protocol_error_to_string error))
               (validate_v2_message message));;
  mret message.
Definition read_v2_cancellable (files bytes : Z) : PeerM V2Message :=
  cancellable files bytes (read_v2_timeout files bytes).
Definition read_manifest_frame : PeerM V2Message := read_v2_cancellable 0 0.

Definition payload_failure (operation : rstr) (e : option IoError) : ReceiveFailure :=
  match e with
  | None => RF_Io (Net_Timeout operation)
  | Some error => RF_Io (Net_Io error)
  end.

Definition read_exact_timeout (n : Z) : PeerM bytes :=
  on_stream (payload_failure (str "read payload")) (timed_read id (read_exact n)).
Definition read_exact_cancellable (n files received : Z) : PeerM bytes :=
  cancellable files received (read_exact_timeout n).

(** [AsyncReadExt::read] into a buffer of [wanted] bytes, when [chunk] bytes have arrived; no
    bytes at the end of the stream. *)
Definition read_some (wanted chunk : nat) : St bytes IoError bytes := λ stream,
  let n := Nat.min wanted (Nat.max 1 chunk) in (Ok (take n stream), drop n stream).
Definition next_chunk : PeerM nat := λ p,
  match pe_chunks p with
  | [] => (Ok (length (cn_in (pe_conn p))), p)
  | n :: rest => (Ok n, mkPeer (pe_conn p) rest (pe_signal p) (pe_races p) (pe_drops p))
  end.
(** [stream.read] gives nothing up when it is dropped. *)
Definition lossless (race : Race) : Race :=
  match race with ReadFirst => ReadFirst | SignalFirst _ => SignalFirst 0 end.
Definition read_chunk_timeout (wanted : nat) : PeerM bytes :=
  chunk ← next_chunk;
  on_stream (payload_failure (str "read file payload")) (timed_read id (read_some wanted chunk)).
Definition read_chunk_cancellable (wanted : nat) (files received : Z) : PeerM bytes :=
  st_modify (λ p, mkPeer (pe_conn p) (pe_chunks p) (pe_signal p)
                    (match pe_races p with r :: rest => lossless r :: rest | [] => [] end)
                    (pe_drops p));;
  cancellable files received (read_chunk_timeout wanted).

Definition read_complete : PeerM FetchComplete :=
  message ← read_v2_cancellable 0 0;
  match message with
  | Msg_FetchComplete complete => mret complete
  | Msg_FetchAbort abort => fail (abort_failure abort)
  | _ => fail (RF_Verification 0 0 (str "expected fetch_complete"))
  end.
End reads.
