(* ===== verification/Source.v ===== *)
(** * Sources

    How the origin of an offer looks at what it offers: [prepare_source] of
    [crates/meshelf-control/src/offer_source.rs], which inspects a path once and commits to its
    metadata, and [build_source_plan] of [crates/meshelf-net/src/fetch_sender.rs], which
    inspects it again for every fetch and lists its manifest.  The filesystem of a source
    belongs to the user, whose programs change it at any time: every call sees a view of its
    own ([view_at n] for the [n]-th call), and nothing relates two views unless a theorem says
    so.  Host paths are Unicode; names in a directory are bytes. *)

From S2P Require Import Prelude RustStr StdIo Utf8 Offer Records Names Protocol OfferStore Filesystem Manifest.
From Stdlib Require Import Strings.Byte.

(** ** What a call sees *)

(** [std::fs::Metadata]: the type is [None] for neither a file, a directory nor a link;
    [md_modified] is [None] when there is no time or it lies before 1970. *)
Record Metadata := mkMetadata {
  md_type : option FileType;
  md_len : Z;
  md_dev : Z;
  md_ino : Z;
  md_readonly : bool;
  md_modified : option (Z * Z);
}.
Definition md_is (t : FileType) (metadata : Metadata) : bool := bool_decide (md_type metadata = Some t).

(** The filesystem at one moment: [symlink_metadata], [canonicalize], [read_dir] (whose
    iteration may fail at any entry), [File::open], and of an open file its metadata and what
    a read at a position delivers. *)
Record SourceView := mkSourceView {
  sv_metadata : PathBuf → result IoError Metadata;
  sv_canonicalize : PathBuf → result IoError PathBuf;
  sv_read_dir : PathBuf → result IoError (list (result IoError bytes));
  sv_open : PathBuf → result IoError nat;
  sv_file_metadata : nat → result IoError Metadata;
  sv_file_read : nat → Z → nat → result IoError bytes;
}.
Class Views := view_at : nat → SourceView.

(** The state counts the calls. *)
Notation Obs E := (St nat E).
Definition observe `{Views} {E T} (f : SourceView → result E T) : Obs E T := λ n,
  (f (view_at n), S n).

(** [child.path()] and [children.sort_by_key(|child| child.file_name())]: names are ordered by
    their bytes. *)
Definition name_le (a b : bytes) : Prop :=
  rstr_leb (map byte_to_Z a) (map byte_to_Z b) = true.
#[export] Instance name_le_dec : RelDecision name_le.
Proof. intros a b. unfold name_le. apply _. Defined.

Fixpoint collect {E T} (items : list (result E T)) : result E (list T) :=
  match items with
  | [] => Ok []
  | item :: rest => x ← item; xs ← collect rest; Ok (x :: xs)
  end.
Definition children `{Views} {E} (failed : IoError → E) (directory : PathBuf) : Obs E (list bytes) :=
  names ← observe (λ v, map_err failed (entries ← sv_read_dir v directory; collect entries));
  mret (merge_sort name_le names).

(** ** What is hashed *)

(** [to_le_bytes] of an integer of [n] bytes. *)
Fixpoint le_bytes (n : nat) (x : Z) : bytes :=
  match n with O => [] | S n => byte_of_Z x :: le_bytes n (x / 256) end.
Definition flag (b : bool) : Byte.byte := if b then Byte.x01 else Byte.x00.

(** The Unix branch of [source_identity_bytes]. *)
Definition source_identity_bytes (metadata : Metadata) : bytes :=
  as_bytes (str "unix") ++ le_bytes 8 (md_dev metadata) ++ le_bytes 8 (md_ino metadata).

(** The bytes the two copies of [hash_metadata] feed to the hasher; they differ only in the
    error for a time that cannot be had. *)
Definition metadata_bytes (kind relative_name : rstr) (metadata : Metadata) : option bytes :=
  '(secs, nanos) ← md_modified metadata;
  mret (as_bytes kind ++ [Byte.x00] ++ as_bytes relative_name ++ [Byte.x00]
        ++ source_identity_bytes metadata ++ le_bytes 8 (md_len metadata)
        ++ [flag (md_is Type_File metadata); flag (md_is Type_Dir metadata)]
        ++ [flag (md_readonly metadata)] ++ le_bytes 8 secs ++ le_bytes 4 nanos).

(** ** Preparing an offer *)

Inductive OfferInput := Input_Text (text : rstr) | Input_Path (path : PathBuf).

Inductive SourcePreparationError :=
| Prep_Text (error : OfferDescriptorError)
| Prep_Inspect (error : IoError)
| Prep_Symlink
| Prep_SpecialFile
| Prep_NonUtf8Name
| Prep_InvalidName
| Prep_FileTooLarge
| Prep_TreeTooLarge
| Prep_Commitment.

Record PreparedOfferSource := mkPrepared {
  po_descriptor : OfferDescriptor;
  po_source : OfferSource;
}.

(** The hasher and [TreeStats] of a walk. *)
Record Tree := mkTree {
  tr_commitment : bytes;
  tr_total_bytes : Z;
  tr_entry_count : Z;
  tr_file_count : Z;
  tr_directory_count : Z;
}.
Definition tree_start (commitment : bytes) : Tree := mkTree commitment 0 0 0 0.

Section prepare.
Context `{!Views} `{!Sha256}.

Definition prep_name (name : rstr) : result SourcePreparationError () :=
  map_err (λ _, Prep_InvalidName) (prepare_validate_component name).
Definition prep_hash (kind relative_name : rstr) (metadata : Metadata)
    : result SourcePreparationError bytes :=
  ok_or (metadata_bytes kind relative_name metadata) Prep_Commitment.
Definition prep_metadata (path : PathBuf) : Obs SourcePreparationError Metadata :=
  observe (λ v, map_err Prep_Inspect (sv_metadata v path)).

(** [portable_relative_name] of the names on the way. *)
Definition portable_relative_name (relative : list rstr) : result SourcePreparationError rstr :=
  validate_all prep_name relative;; mret (join_char 47 relative).

(** The loop body of [walk_directory], where [descend] is the recursive call; a relative path
    is the list of its names. *)
Definition walk_directory_entry (descend : PathBuf → list rstr → Tree → Obs SourcePreparationError Tree)
    (directory : PathBuf) (relative_directory : list rstr) (t : Tree) (child : bytes)
    : Obs SourcePreparationError Tree :=
  name ← st_lift (ok_or (from_utf8 child) Prep_NonUtf8Name);
  st_lift (prep_name name);;
  let relative := relative_directory ++ [name] in
  let path := join directory name in
  metadata ← prep_metadata path;
  st_lift (refuse_if (md_is Type_Symlink metadata) Prep_Symlink);;
  entry_count ← st_lift (ok_or (checked_add U32_MAX (tr_entry_count t) 1) Prep_TreeTooLarge);
  st_lift (refuse_if (MAX_OFFER_MANIFEST_ENTRIES <? entry_count) Prep_TreeTooLarge);;
  relative_name ← st_lift (portable_relative_name relative);
  hashed ← st_lift (prep_hash (str "entry") relative_name metadata);
  let commitment := tr_commitment t ++ hashed in
  if md_is Type_File metadata then
    file_count ← st_lift (ok_or (checked_add U32_MAX (tr_file_count t) 1) Prep_TreeTooLarge);
    total_bytes ← st_lift (ok_or (checked_add U64_MAX (tr_total_bytes t) (md_len metadata))
                             Prep_TreeTooLarge);
    st_lift (refuse_if ((MAX_OFFER_FILE_BYTES <? md_len metadata)
                        || (MAX_OFFER_TRANSFER_BYTES <? total_bytes)) Prep_TreeTooLarge);;
    mret (mkTree commitment total_bytes entry_count file_count (tr_directory_count t))
  else if md_is Type_Dir metadata then
    directory_count ← st_lift (ok_or (checked_add U32_MAX (tr_directory_count t) 1)
                                 Prep_TreeTooLarge);
    descend path relative
      (mkTree commitment (tr_total_bytes t) entry_count (tr_file_count t) directory_count)
  else st_err Prep_SpecialFile.

Fixpoint walk_directory_entries (descend : PathBuf → list rstr → Tree → Obs SourcePreparationError Tree)
    (directory : PathBuf) (relative_directory : list rstr) (names : list bytes) (t : Tree)
    : Obs SourcePreparationError Tree :=
  match names with
  | [] => mret t
  | child :: rest =>
      t ← walk_directory_entry descend directory relative_directory t child;
      walk_directory_entries descend directory relative_directory rest t
  end.

(** [fuel] bounds the depth: every level counts an entry, of which there are at most
    [MAX_OFFER_MANIFEST_ENTRIES]. *)
Fixpoint walk_directory (fuel : nat) (directory : PathBuf) (relative_directory : list rstr)
    (t : Tree) : Obs SourcePreparationError Tree :=
  match fuel with
  | O => st_err Prep_TreeTooLarge
  | S fuel =>
      names ← children Prep_Inspect directory;
      walk_directory_entries (walk_directory fuel) directory relative_directory names t
  end.
Definition walk_directory_fuel : nat := S (Z.to_nat MAX_OFFER_MANIFEST_ENTRIES).

Definition prepare_path (path : PathBuf) : Obs SourcePreparationError PreparedOfferSource :=
  initial_metadata ← prep_metadata path;
  st_lift (refuse_if (md_is Type_Symlink initial_metadata) Prep_Symlink);;
  canonical_path ← observe (λ v, map_err Prep_Inspect (sv_canonicalize v path));
  metadata ← prep_metadata canonical_path;
  st_lift (refuse_if (md_is Type_Symlink metadata) Prep_Symlink);;
  root_name ← st_lift (ok_or (file_name canonical_path) Prep_NonUtf8Name);
  st_lift (prep_name root_name);;
  commitment ← st_lift (prep_hash (str "root") root_name metadata);
  if md_is Type_File metadata then
    let total_bytes := md_len metadata in
    st_lift (refuse_if (MAX_OFFER_FILE_BYTES <? total_bytes) Prep_FileTooLarge);;
    let descriptor := Descriptor_File root_name total_bytes in
    st_lift (map_err Prep_Text (descriptor_validate descriptor));;
    mret (mkPrepared descriptor (Source_File canonical_path (sha256 commitment)))
  else
    st_lift (refuse_if (negb (md_is Type_Dir metadata)) Prep_SpecialFile);;
    t ← walk_directory walk_directory_fuel canonical_path [] (tree_start commitment);
    let descriptor := Descriptor_Folder root_name (tr_total_bytes t) (tr_entry_count t)
                        (tr_file_count t) (tr_directory_count t) in
    st_lift (map_err Prep_Text (descriptor_validate descriptor));;
    mret (mkPrepared descriptor (Source_Folder canonical_path (sha256 (tr_commitment t)))).

Definition prepare_source (input : OfferInput) : Obs SourcePreparationError PreparedOfferSource :=
  match input with
  | Input_Text text =>
      descriptor ← st_lift (map_err Prep_Text (descriptor_text text));
      mret (mkPrepared descriptor (Source_Text text))
  | Input_Path path => prepare_path path
  end.
End prepare.

(** ** Building the plan of a fetch *)

Inductive SourceFailure := Source_Unavailable | Source_Changed | Source_Malformed.

Record LiveFile := mkLiveFile {
  lf_entry_index : Z;
  lf_metadata_kind : rstr;
  lf_relative_name : rstr;
  lf_path : PathBuf;
  lf_byte_len : Z;
  lf_metadata_digest : bytes;
}.

Record SourcePlan := mkSourcePlan {
  sp_descriptor : OfferDescriptor;
  sp_text : option rstr;
  sp_manifest : list ManifestEntry;
  sp_manifest_chunks : list ManifestChunk;
  sp_manifest_encoded_bytes : Z;
  sp_manifest_sha256 : option bytes;
  sp_files : list LiveFile;
  sp_total_bytes : Z;
  sp_source_commitment : option bytes;
}.

Definition same_source (self other : SourcePlan) : bool :=
  bool_decide (sp_descriptor self = sp_descriptor other)
  && bool_decide (sp_manifest self = sp_manifest other)
  && bool_decide (sp_manifest_sha256 self = sp_manifest_sha256 other)
  && bool_decide (sp_source_commitment self = sp_source_commitment other).

(** The variables [walk_folder] is given: the hasher, [FolderStats], manifest and files. *)
Record Walk := mkWalk {
  wk_tree : Tree;
  wk_manifest : list ManifestEntry;
  wk_files : list LiveFile;
}.

Definition relative_join (relative_directory name : rstr) : rstr :=
  if bool_decide (relative_directory = []) then name else relative_directory ++ 47 :: name.

Section plan.
Context `{!Views} `{!Sha256} `{!Json V2Message} `{!Json (list ManifestEntry)}.

Definition source_metadata (path : PathBuf) : Obs SourceFailure Metadata :=
  observe (λ v, map_err (λ _, Source_Unavailable) (sv_metadata v path)).
Definition hash_metadata (kind relative_name : rstr) (metadata : Metadata)
    : result SourceFailure bytes :=
  ok_or (metadata_bytes kind relative_name metadata) Source_Unavailable.
Definition metadata_digest (kind relative_name : rstr) (metadata : Metadata)
    : result SourceFailure bytes :=
  hashed ← hash_metadata kind relative_name metadata; mret (sha256 hashed).
Definition manifest_digest (entries : list ManifestEntry) : result SourceFailure bytes :=
  encoded ← map_err (λ _, Source_Malformed) (json_to_vec entries); mret (sha256 encoded).

(** The loop body of [walk_folder], where [descend] is the recursive call. *)
Definition walk_folder_entry (descend : PathBuf → rstr → Walk → Obs SourceFailure Walk)
    (directory : PathBuf) (relative_directory : rstr) (w : Walk) (child : bytes)
    : Obs SourceFailure Walk :=
  name ← st_lift (ok_or (from_utf8 child) Source_Changed);
  st_lift (map_err (λ _, Source_Changed) (validate_source_component name));;
  let relative_name := relative_join relative_directory name in
  st_lift (refuse_if (V2_MAX_RELATIVE_PATH_BYTES <? str_len relative_name) Source_Changed);;
  let child_path := join directory name in
  metadata ← source_metadata child_path;
  st_lift (refuse_if (md_is Type_Symlink metadata) Source_Changed);;
  let t := wk_tree w in
  entry_count ← st_lift (ok_or (checked_add U32_MAX (tr_entry_count t) 1) Source_Changed);
  st_lift (refuse_if (V2_MAX_MANIFEST_ENTRIES <? entry_count) Source_Changed);;
  hashed ← st_lift (hash_metadata (str "entry") relative_name metadata);
  let commitment := tr_commitment t ++ hashed in
  entry_index ← st_lift (ok_or (try_from U32_MAX (zlen (wk_manifest w))) Source_Changed);
  if md_is Type_File metadata then
    let byte_len := md_len metadata in
    st_lift (refuse_if (MAX_OFFER_FILE_BYTES <? byte_len) Source_Changed);;
    file_count ← st_lift (ok_or (checked_add U32_MAX (tr_file_count t) 1) Source_Changed);
    total_bytes ← st_lift (ok_or (checked_add U64_MAX (tr_total_bytes t) byte_len) Source_Changed);
    st_lift (refuse_if (MAX_OFFER_TRANSFER_BYTES <? total_bytes) Source_Changed);;
    digest ← st_lift (metadata_digest (str "entry") relative_name metadata);
    mret (mkWalk (mkTree commitment total_bytes entry_count file_count (tr_directory_count t))
            (wk_manifest w ++ [mkManifestEntry relative_name Entry_File byte_len])
            (wk_files w ++ [mkLiveFile entry_index (str "entry") relative_name child_path byte_len
                              digest]))
  else if md_is Type_Dir metadata then
    directory_count ← st_lift (ok_or (checked_add U32_MAX (tr_directory_count t) 1) Source_Changed);
    descend child_path relative_name
      (mkWalk (mkTree commitment (tr_total_bytes t) entry_count (tr_file_count t) directory_count)
         (wk_manifest w ++ [mkManifestEntry relative_name Entry_Directory 0]) (wk_files w))
  else st_err Source_Changed.

Fixpoint walk_folder_entries (descend : PathBuf → rstr → Walk → Obs SourceFailure Walk)
    (directory : PathBuf) (relative_directory : rstr) (names : list bytes) (w : Walk)
    : Obs SourceFailure Walk :=
  match names with
  | [] => mret w
  | child :: rest =>
      w ← walk_folder_entry descend directory relative_directory w child;
      walk_folder_entries descend directory relative_directory rest w
  end.

(** [fuel] bounds the depth: the relative path grows at every level, and is at most
    [V2_MAX_RELATIVE_PATH_BYTES] long. *)
Fixpoint walk_folder (fuel : nat) (directory : PathBuf) (relative_directory : rstr) (w : Walk)
    : Obs SourceFailure Walk :=
  match fuel with
  | O => st_err Source_Changed
  | S fuel =>
      names ← children (λ _, Source_Unavailable) directory;
      walk_folder_entries (walk_folder fuel) directory relative_directory names w
  end.
Definition walk_folder_fuel : nat := S (Z.to_nat V2_MAX_RELATIVE_PATH_BYTES).

(** The chunks of a manifest with their encoded size and digest. *)
Definition encode_manifest (request_id : ActivationId) (manifest : list ManifestEntry)
    : result SourceFailure (list ManifestChunk * Z) :=
  chunks ← map_err (λ _, Source_Malformed) (chunk_manifest request_id manifest);
  encoded ← map_err (λ _, Source_Malformed) (encoded_manifest_bytes chunks);
  mret (chunks, encoded).

Definition build_file_plan (descriptor : OfferDescriptor) (root_name : rstr) (total_bytes : Z)
    (path : PathBuf) (stored_commitment : bytes) (request_id : ActivationId)
    : Obs SourceFailure SourcePlan :=
  metadata ← source_metadata path;
  st_lift (refuse_if (negb (md_is Type_File metadata) || md_is Type_Symlink metadata
                      || negb (bool_decide (file_name path = Some root_name))) Source_Changed);;
  st_lift (refuse_if (negb (md_len metadata =? total_bytes)
                      || (MAX_OFFER_FILE_BYTES <? md_len metadata)) Source_Changed);;
  hashed ← st_lift (hash_metadata (str "root") root_name metadata);
  let commitment := sha256 hashed in
  st_lift (refuse_if (negb (bool_decide (commitment = stored_commitment))) Source_Changed);;
  digest ← st_lift (metadata_digest (str "root") root_name metadata);
  let manifest := [mkManifestEntry [] Entry_File total_bytes] in
  '(chunks, encoded) ← st_lift (encode_manifest request_id manifest);
  manifest_sha256 ← st_lift (manifest_digest manifest);
  mret (mkSourcePlan descriptor None manifest chunks encoded (Some manifest_sha256)
          [mkLiveFile 0 (str "root") root_name path total_bytes digest] total_bytes
          (Some commitment)).

Definition build_folder_plan (descriptor : OfferDescriptor) (root_name : rstr)
    (total_bytes entry_count file_count directory_count : Z) (path : PathBuf)
    (stored_commitment : bytes) (request_id : ActivationId) : Obs SourceFailure SourcePlan :=
  metadata ← source_metadata path;
  st_lift (refuse_if (negb (md_is Type_Dir metadata) || md_is Type_Symlink metadata
                      || negb (bool_decide (file_name path = Some root_name))) Source_Changed);;
  hashed ← st_lift (hash_metadata (str "root") root_name metadata);
  w ← walk_folder walk_folder_fuel path [] (mkWalk (tree_start hashed) [] []);
  let t := wk_tree w in
  st_lift (refuse_if (negb (tr_total_bytes t =? total_bytes) || negb (tr_entry_count t =? entry_count)
                      || negb (tr_file_count t =? file_count)
                      || negb (tr_directory_count t =? directory_count)
                      || (MAX_OFFER_TRANSFER_BYTES <? tr_total_bytes t)
                      || (MAX_OFFER_MANIFEST_ENTRIES <? tr_entry_count t)) Source_Changed);;
  let commitment := sha256 (tr_commitment t) in
  st_lift (refuse_if (negb (bool_decide (commitment = stored_commitment))) Source_Changed);;
  '(chunks, encoded) ← st_lift (encode_manifest request_id (wk_manifest w));
  st_lift (refuse_if (V2_MAX_MANIFEST_BYTES <? encoded) Source_Malformed);;
  manifest_sha256 ← st_lift (manifest_digest (wk_manifest w));
  mret (mkSourcePlan descriptor None (wk_manifest w) chunks encoded (Some manifest_sha256)
          (wk_files w) total_bytes (Some commitment)).

Definition build_source_plan (record : OfferSourceRecord) (request_id : ActivationId)
    : Obs SourceFailure SourcePlan :=
  let descriptor := src_descriptor record in
  match descriptor, src_source record with
  | Descriptor_Text _ _ _, Source_Text text =>
      mret (mkSourcePlan descriptor (Some text) [] [] 0 None [] (str_len text) None)
  | Descriptor_File root_name total_bytes, Source_File path commitment =>
      build_file_plan descriptor root_name total_bytes path commitment request_id
  | Descriptor_Folder root_name total_bytes entry_count file_count directory_count,
    Source_Folder path commitment =>
      build_folder_plan descriptor root_name total_bytes entry_count file_count directory_count
        path commitment request_id
  | _, _ => st_err Source_Malformed
  end.
End plan.

(** ** Termination

    The fuel of the two walks is enough: more of it changes nothing. *)

Section fuel.
Context {views : Views} {sha : Sha256} {message_json : Json V2Message}.
Context {entries_json : Json (list ManifestEntry)}.

Lemma relative_join_len rel name :
  name ≠ [] → str_len rel < str_len (relative_join rel name).
Proof.
  intros Hne. apply str_len_pos in Hne. unfold relative_join. case_bool_decide as Hr.
  - subst rel. unfold str_len at 1. simpl. lia.
  - rewrite str_len_app, str_len_cons. pose proof (char_len_pos 47). lia.
Qed.

Lemma source_component_portable name :
  validate_source_component name = Ok () → portable_component name.
Proof.
  intros H. apply validate_component_spec. pose proof (validate_source_component_agrees name) as Ha.
  rewrite H in Ha. by apply is_ok_unit.
Qed.

Lemma walk_folder_entry_ext d1 d2 directory rel w child n :
  (∀ path rel' w n, str_len rel < str_len rel' ≤ V2_MAX_RELATIVE_PATH_BYTES →
     d1 path rel' w n = d2 path rel' w n) →
  walk_folder_entry d1 directory rel w child n = walk_folder_entry d2 directory rel w child n.
Proof.
  intros Hd. unfold walk_folder_entry.
  apply st_bind_ext; intros name n1 _. apply st_bind_ext; intros [] n2 Hname.
  apply st_lift_Ok in Hname as [Hname _]. apply map_err_Ok, source_component_portable in Hname.
  destruct Hname as (Hne & _).
  apply st_bind_ext; intros [] n3 Hlen. apply st_lift_Ok in Hlen as [Hlen _].
  apply refuse_if_Ok, Z.ltb_ge in Hlen.
  do 6 (apply st_bind_ext; intros ? ? _). destruct (md_is Type_File _); [done|].
  destruct (md_is Type_Dir _); [|done]. apply st_bind_ext; intros ? ? _.
  apply Hd. split; [by apply relative_join_len|done].
Qed.

Lemma walk_folder_entries_ext d1 d2 directory rel names w n :
  (∀ path rel' w n, str_len rel < str_len rel' ≤ V2_MAX_RELATIVE_PATH_BYTES →
     d1 path rel' w n = d2 path rel' w n) →
  walk_folder_entries d1 directory rel names w n = walk_folder_entries d2 directory rel names w n.
Proof.
  intros Hd. revert w n. induction names as [|child names IH]; intros w n; [done|].
  cbn [walk_folder_entries]. unfold mbind, st_bind. rewrite (walk_folder_entry_ext d1 d2) by done.
  destruct (walk_folder_entry d2 _ _ _ _ _) as [[w1|e] n1]; [apply IH|done].
Qed.

(** the walk of the fetch sender ends: from a relative path of [str_len rel] bytes it
    descends less than [4097 - str_len rel] times, so any two amounts of fuel above that give
    the same run, on every filesystem and however it changes meanwhile. *)
Theorem walk_folder_terminates fuel1 fuel2 directory rel w n :
  V2_MAX_RELATIVE_PATH_BYTES - str_len rel < Z.of_nat fuel1 →
  V2_MAX_RELATIVE_PATH_BYTES - str_len rel < Z.of_nat fuel2 → str_len rel ≤ V2_MAX_RELATIVE_PATH_BYTES →
  walk_folder fuel1 directory rel w n = walk_folder fuel2 directory rel w n.
Proof.
  revert fuel2 directory rel w n. induction fuel1 as [|fuel1 IH]; intros fuel2 directory rel w n H1 H2 Hr;
    [lia|]. destruct fuel2 as [|fuel2]; [lia|].
  cbn [walk_folder]. apply st_bind_ext; intros names n1 _.
  apply walk_folder_entries_ext. intros path rel' w' n' Hlen. apply IH; lia.
Qed.
End fuel.

Section prepare_fuel.
Context {views : Views}.
Implicit Types d : PathBuf → list rstr → Tree → Obs SourcePreparationError Tree.

Definition counts_up d : Prop := ∀ path rel t n t' n',
  d path rel t n = (Ok t', n') → tr_entry_count t ≤ tr_entry_count t'.

Lemma walk_directory_entry_up d directory rel t child n t' n' :
  counts_up d → walk_directory_entry d directory rel t child n = (Ok t', n') →
  tr_entry_count t < tr_entry_count t'.
Proof.
  intros Hd Hrun. unfold walk_directory_entry in Hrun.
  do 4 apply st_bind_Ok in Hrun as (? & ? & _ & Hrun).
  apply st_bind_Ok in Hrun as (entry_count & n1 & Hec & Hrun). apply st_lift_Ok in Hec as [Hec ->].
  apply ok_or_Ok, checked_add_Some in Hec as [-> _].
  do 3 apply st_bind_Ok in Hrun as (? & ? & _ & Hrun).
  destruct (md_is Type_File _).
  - do 3 apply st_bind_Ok in Hrun as (? & ? & _ & Hrun). apply st_ret_Ok in Hrun as [-> _]. simpl. lia.
  - destruct (md_is Type_Dir _); [|by apply st_err_Ok in Hrun].
    apply st_bind_Ok in Hrun as (? & ? & _ & Hrun). apply Hd in Hrun. simpl in Hrun. lia.
Qed.

Lemma walk_directory_entries_up d directory rel names t n t' n' :
  counts_up d → walk_directory_entries d directory rel names t n = (Ok t', n') →
  tr_entry_count t ≤ tr_entry_count t'.
Proof.
  intros Hd. revert t n. induction names as [|child names IH]; intros t n Hrun.
  { apply st_ret_Ok in Hrun as [-> _]. done. }
  apply st_bind_Ok in Hrun as (t1 & n1 & H1 & Hrun). apply walk_directory_entry_up in H1; [|done].
  apply IH in Hrun. lia.
Qed.

Lemma walk_directory_up fuel : counts_up (walk_directory fuel).
Proof.
  induction fuel as [|fuel IH]; intros path rel t n t' n' Hrun; [by apply st_err_Ok in Hrun|].
  apply st_bind_Ok in Hrun as (names & n1 & _ & Hrun). by apply walk_directory_entries_up in Hrun.
Qed.

Definition agree_above (count : Z) d1 d2 : Prop := ∀ path rel t n,
  count < tr_entry_count t ≤ MAX_OFFER_MANIFEST_ENTRIES → d1 path rel t n = d2 path rel t n.

Lemma walk_directory_entry_ext d1 d2 directory rel t child n :
  agree_above (tr_entry_count t) d1 d2 →
  walk_directory_entry d1 directory rel t child n = walk_directory_entry d2 directory rel t child n.
Proof.
  intros Hd. unfold walk_directory_entry. do 4 (apply st_bind_ext; intros ? ? _).
  apply st_bind_ext; intros entry_count n1 Hec. apply st_lift_Ok in Hec as [Hec _].
  apply ok_or_Ok, checked_add_Some in Hec as [-> _].
  apply st_bind_ext; intros [] n2 Hmax. apply st_lift_Ok in Hmax as [Hmax _].
  apply refuse_if_Ok, Z.ltb_ge in Hmax. do 2 (apply st_bind_ext; intros ? ? _).
  destruct (md_is Type_File _); [done|]. destruct (md_is Type_Dir _); [|done].
  apply st_bind_ext; intros ? ? _. apply Hd. simpl. lia.
Qed.

Lemma walk_directory_entries_ext d1 d2 directory rel names t n :
  counts_up d2 → agree_above (tr_entry_count t) d1 d2 →
  walk_directory_entries d1 directory rel names t n = walk_directory_entries d2 directory rel names t n.
Proof.
  intros Hup. revert t n. induction names as [|child names IH]; intros t n Hd; [done|].
  cbn [walk_directory_entries].
  assert (walk_directory_entry d1 directory rel t child n
          = walk_directory_entry d2 directory rel t child n) as Heq by (by apply walk_directory_entry_ext).
  unfold mbind, st_bind. rewrite Heq.
  destruct (walk_directory_entry d2 _ _ _ _ _) as [[t1|e] n1] eqn:H1; [|done]. apply IH.
  intros path rel' t2 n2 Hlt. apply walk_directory_entry_up in H1; [|done]. apply Hd. lia.
Qed.

(** Neither does more fuel change the walk of the preparation: every level of it counts one of
    the at most [MAX_OFFER_MANIFEST_ENTRIES] entries. *)
Lemma walk_directory_terminates fuel1 fuel2 directory rel t n :
  MAX_OFFER_MANIFEST_ENTRIES - tr_entry_count t < Z.of_nat fuel1 →
  MAX_OFFER_MANIFEST_ENTRIES - tr_entry_count t < Z.of_nat fuel2 →
  tr_entry_count t ≤ MAX_OFFER_MANIFEST_ENTRIES →
  walk_directory fuel1 directory rel t n = walk_directory fuel2 directory rel t n.
Proof.
  revert fuel2 directory rel t n. induction fuel1 as [|fuel1 IH]; intros fuel2 directory rel t n H1 H2 Ht;
    [lia|]. destruct fuel2 as [|fuel2]; [lia|].
  cbn [walk_directory]. apply st_bind_ext; intros names n1 _.
  apply walk_directory_entries_ext; [apply walk_directory_up|].
  intros path rel' t' n' Hlt. apply IH; lia.
Qed.
End prepare_fuel.

(** ** What a walk lists *)

(** The components of a relative path; the root of the walk has none. *)
Definition names_of (path : rstr) : list rstr :=
  if bool_decide (path = []) then [] else split_char 47 path.

(** An entry below [rel]: its further names are portable, and each folder on the way is listed
    too. *)
Definition entry_under (rel : rstr) (es : list ManifestEntry) (e : ManifestEntry) : Prop :=
  ∃ names, names ≠ [] ∧ Forall portable_component names ∧ me_relative_path e ≠ [] ∧
    str_len (me_relative_path e) ≤ V2_MAX_RELATIVE_PATH_BYTES ∧
    names_of (me_relative_path e) = names_of rel ++ names ∧
    ∀ k, (0 < k < length names)%nat → ∃ d, d ∈ es ∧ me_kind d = Entry_Directory ∧
      names_of (me_relative_path d) = names_of rel ++ take k names.
Definition entry_sized (e : ManifestEntry) : Prop :=
  entry_typed e ∧
  match me_kind e with
  | Entry_File => me_byte_len e ≤ V2_MAX_FILE_BYTES
  | Entry_Directory => me_byte_len e = 0
  end.

(** The index and the length of each file of a manifest, counting from [start]. *)
Fixpoint file_list (start : Z) (es : list ManifestEntry) : list (Z * Z) :=
  match es with
  | [] => []
  | e :: es => if is_file e then (start, me_byte_len e) :: file_list (start + 1) es
               else file_list (start + 1) es
  end.
Definition live_key (f : LiveFile) : Z * Z := (lf_entry_index f, lf_byte_len f).

(** What a walk adds to the walk it is given. *)
Record counted (w w' : Walk) (es : list ManifestEntry) : Prop := {
  gr_manifest : wk_manifest w' = wk_manifest w ++ es;
  gr_sized : Forall entry_sized es;
  gr_total : tr_total_bytes (wk_tree w') = tr_total_bytes (wk_tree w) + sum_with file_size es;
  gr_count : tr_entry_count (wk_tree w') = tr_entry_count (wk_tree w) + zlen es;
  gr_file_count : tr_file_count (wk_tree w') = tr_file_count (wk_tree w) + zlen (files_of es);
  gr_directory_count :
    tr_directory_count (wk_tree w') = tr_directory_count (wk_tree w) + zlen (directories_of es);
  gr_files : map live_key (wk_files w') =
    map live_key (wk_files w) ++ file_list (zlen (wk_manifest w)) es;
}.
Definition grown (rel : rstr) (w w' : Walk) (es : list ManifestEntry) : Prop :=
  counted w w' es ∧ Forall (entry_under rel es) es.

Lemma names_of_join rel name :
  portable_component name → names_of (relative_join rel name) = names_of rel ++ [name].
Proof.
  intros Hn. pose proof (portable_component_no_separator _ Hn) as [Hs _].
  destruct Hn as (Hne & _). unfold names_of, relative_join.
  destruct (decide (rel = [])) as [->|Hr].
  - rewrite (bool_decide_true ([] = [])) by done. rewrite bool_decide_false by done.
    by apply split_char_single.
  - rewrite !(bool_decide_false (rel = [])) by done.
    rewrite bool_decide_false by (intros H; destruct rel; discriminate).
    by rewrite split_char_app, (split_char_single 47 name Hs).
Qed.

Lemma relative_join_ne rel name : name ≠ [] → relative_join rel name ≠ [].
Proof. intros Hn. unfold relative_join. case_bool_decide; [done|]. by destruct rel. Qed.

Lemma file_list_app start es1 es2 :
  file_list start (es1 ++ es2) = file_list start es1 ++ file_list (start + zlen es1) es2.
Proof.
  revert start. induction es1 as [|e es1 IH]; intros start; cbn [file_list app].
  - by rewrite zlen_nil, Z.add_0_r.
  - rewrite IH, zlen_cons. replace (start + 1 + zlen es1) with (start + (1 + zlen es1)) by lia.
    replace (start + (zlen es1 + 1)) with (start + (1 + zlen es1)) by lia.
    by destruct (is_file e).
Qed.

Lemma entry_under_mono rel es es' e : es ⊆ es' → entry_under rel es e → entry_under rel es' e.
Proof.
  intros Hs (names & ? & ? & ? & ? & ? & Hk). exists names. split_and!; try done.
  intros k Hlen. destruct (Hk k Hlen) as (d & Hd & ?). exists d. split; [by apply Hs|done].
Qed.

Lemma grown_nil rel w : grown rel w w [].
Proof.
  split; [|constructor].
  split; cbn [file_list]; rewrite ?files_nil, ?directories_nil, ?zlen_nil, ?app_nil_r;
    first [by constructor | unfold sum_with; simpl; lia | done].
Qed.

Lemma counted_app w w1 w2 es1 es2 :
  counted w w1 es1 → counted w1 w2 es2 → counted w w2 (es1 ++ es2).
Proof.
  intros [M1 S1 T1 C1 F1 D1 L1] [M2 S2 T2 C2 F2 D2 L2]. split.
  - by rewrite M2, M1, app_assoc.
  - by apply Forall_app.
  - rewrite T2, T1, sum_with_app. lia.
  - rewrite C2, C1, zlen_app. lia.
  - unfold files_of in *. rewrite filter_app, zlen_app. lia.
  - unfold directories_of in *. rewrite filter_app, zlen_app. lia.
  - rewrite L2, L1, M1, zlen_app, file_list_app. by rewrite app_assoc.
Qed.

Lemma grown_app rel w w1 w2 es1 es2 :
  grown rel w w1 es1 → grown rel w1 w2 es2 → grown rel w w2 (es1 ++ es2).
Proof.
  intros [H1 E1] [H2 E2]. split; [by eapply counted_app|].
  apply Forall_app. split; eapply Forall_impl; [exact E1| |exact E2|];
    intros e; apply entry_under_mono; set_solver.
Qed.

(** One entry of the directory [rel] itself. *)
Lemma entry_under_self rel name kind len es :
  portable_component name → str_len (relative_join rel name) ≤ V2_MAX_RELATIVE_PATH_BYTES →
  entry_under rel es (mkManifestEntry (relative_join rel name) kind len).
Proof.
  intros Hn Hl. exists [name]. split_and!; try done.
  - by apply Forall_singleton.
  - apply relative_join_ne. by destruct Hn.
  - by apply names_of_join.
  - simpl. lia.
Qed.

(** A directory with what is below it. *)
Lemma grown_descend rel name w w1 w2 es :
  portable_component name → str_len (relative_join rel name) ≤ V2_MAX_RELATIVE_PATH_BYTES →
  let d := mkManifestEntry (relative_join rel name) Entry_Directory 0 in
  counted w w1 [d] → grown (relative_join rel name) w1 w2 es → grown rel w w2 (d :: es).
Proof.
  intros Hn Hl d H1 [H2 E2]. split; [by apply (counted_app _ _ _ [d] es H1)|].
  constructor; [by apply entry_under_self|]. eapply Forall_impl; [exact E2|].
  intros e (names & Hne & Hp & Hpath & Hlen & Hof & Hk). exists (name :: names).
  rewrite names_of_join, <- app_assoc in Hof by done. split_and!; try done.
  { by constructor. }
  intros [|k] Hlt; [lia|]. simpl in Hlt. destruct k as [|k].
  - exists d. split_and!; [set_solver|done|]. by apply names_of_join.
  - destruct (Hk (S k) ltac:(lia)) as (d' & Hd' & Hkind & Hd'of). exists d'.
    rewrite names_of_join, <- app_assoc in Hd'of by done. split_and!; [set_solver|done..].
Qed.

Section grown.
Context {views : Views} {sha : Sha256} {message_json : Json V2Message}.
Context {entries_json : Json (list ManifestEntry)}.
(** A length is a [u64]. *)
Definition lengths_typed : Prop :=
  ∀ n path metadata, sv_metadata (view_at n) path = Ok metadata → is_u64 (md_len metadata).
Hypothesis typed : lengths_typed.

Lemma source_metadata_Ok path metadata n n' :
  source_metadata path n = (Ok metadata, n') → is_u64 (md_len metadata).
Proof.
  unfold source_metadata, observe. intros [= Hm _]. apply map_err_Ok in Hm. by eapply typed.
Qed.

Lemma walk_folder_entry_grown descend directory rel w child n w' n' :
  (∀ path rel w n w' n', descend path rel w n = (Ok w', n') → ∃ es, grown rel w w' es) →
  walk_folder_entry descend directory rel w child n = (Ok w', n') → ∃ es, grown rel w w' es.
Proof.
  intros Hd Hrun. unfold walk_folder_entry in Hrun.
  apply st_bind_Ok in Hrun as (name & n1 & _ & Hrun).
  apply st_bind_Ok in Hrun as ([] & n2 & Hname & Hrun).
  apply st_lift_Ok in Hname as [Hname ->]. apply map_err_Ok, source_component_portable in Hname.
  apply st_bind_Ok in Hrun as ([] & n3 & Hlen & Hrun).
  apply st_lift_Ok in Hlen as [Hlen ->]. apply refuse_if_Ok, Z.ltb_ge in Hlen.
  apply st_bind_Ok in Hrun as (metadata & n4 & Hmd & Hrun). apply source_metadata_Ok in Hmd.
  apply st_bind_Ok in Hrun as ([] & n5 & _ & Hrun).
  apply st_bind_Ok in Hrun as (entry_count & n6 & Hcount & Hrun).
  apply st_lift_Ok in Hcount as [Hcount ->]. apply ok_or_Ok, checked_add_Some in Hcount as [-> _].
  apply st_bind_Ok in Hrun as ([] & n7 & _ & Hrun).
  apply st_bind_Ok in Hrun as (hashed & n8 & _ & Hrun).
  apply st_bind_Ok in Hrun as (entry_index & n9 & Hi & Hrun).
  apply st_lift_Ok in Hi as [Hi ->]. apply ok_or_Ok, try_from_Some in Hi as [-> _].
  destruct (md_is Type_File metadata).
  - inv_st. set (e := mkManifestEntry _ Entry_File _). exists [e].
    repeat match goal with
    | H : ok_or _ _ = Ok _ |- _ => apply ok_or_Ok in H
    | H : checked_add _ _ _ = Some _ |- _ => apply checked_add_Some in H as [-> _]
    end.
    match goal with H : refuse_if (MAX_OFFER_FILE_BYTES <? _) _ = _ |- _ =>
      apply refuse_if_Ok, Z.ltb_ge in H; rename H into Hmax end.
    split; [|apply Forall_singleton; by apply entry_under_self].
    split; cbn [wk_manifest wk_files wk_tree tr_total_bytes tr_entry_count tr_file_count
      tr_directory_count]; try done.
    + apply Forall_singleton. by split.
    + unfold sum_with, file_size, e. simpl. lia.
    + change (directories_of [e]) with ([] : list ManifestEntry). rewrite zlen_nil. lia.
    + by rewrite map_app.
  - destruct (md_is Type_Dir metadata); [|by inv_st].
    apply st_bind_Ok in Hrun as (directory_count & n10 & Hdc & Hrun).
    apply st_lift_Ok in Hdc as [Hdc ->]. apply ok_or_Ok, checked_add_Some in Hdc as [-> _].
    apply Hd in Hrun as [es Hes]. set (e := mkManifestEntry _ Entry_Directory 0) in Hes.
    exists (e :: es). eapply grown_descend; [done|done| |exact Hes]. fold e.
    split; cbn [wk_manifest wk_files wk_tree tr_total_bytes tr_entry_count tr_file_count
      tr_directory_count]; try done.
    + apply Forall_singleton. split; [|done]. unfold entry_typed, is_u64, U64_MAX. simpl. lia.
    + unfold sum_with, file_size, e. simpl. lia.
    + change (files_of [e]) with ([] : list ManifestEntry). rewrite zlen_nil. lia.
    + by rewrite app_nil_r.
Qed.

Lemma walk_folder_entries_grown descend directory rel names w n w' n' :
  (∀ path rel w n w' n', descend path rel w n = (Ok w', n') → ∃ es, grown rel w w' es) →
  walk_folder_entries descend directory rel names w n = (Ok w', n') → ∃ es, grown rel w w' es.
Proof.
  intros Hd. revert w n. induction names as [|child names IH]; intros w n Hrun.
  { apply st_ret_Ok in Hrun as [-> _]. exists []. apply grown_nil. }
  apply st_bind_Ok in Hrun as (w1 & n1 & H1 & Hrun).
  apply walk_folder_entry_grown in H1 as [es1 H1]; [|done]. apply IH in Hrun as [es2 H2].
  exists (es1 ++ es2). by eapply grown_app.
Qed.

Lemma walk_folder_grown fuel directory rel w n w' n' :
  walk_folder fuel directory rel w n = (Ok w', n') → ∃ es, grown rel w w' es.
Proof.
  revert directory rel w n w' n'. induction fuel as [|fuel IH]; intros directory rel w n w' n' Hrun;
    [by apply st_err_Ok in Hrun|].
  apply st_bind_Ok in Hrun as (names & n1 & _ & Hrun).
  by eapply walk_folder_entries_grown in Hrun.
Qed.
End grown.

(** ** A listed manifest is accepted *)

Section listed.
Context {lower : Lowercase} {lower_laws : LowercaseLaws}.
Implicit Types (e d : ManifestEntry) (es : list ManifestEntry).

Lemma names_of_ne path : path ≠ [] → names_of path = split_char 47 path.
Proof. intros H. unfold names_of. by rewrite bool_decide_false. Qed.

Lemma entry_under_ok es e : entry_under [] es e → entry_sized e → entry_ok e.
Proof.
  intros (names & Hne & Hp & Hpath & Hlen & Hof & _) [_ Hsize]. split; [|exact Hsize].
  rewrite (names_of_ne _ Hpath) in Hof. unfold check_path.
  rewrite refuse_seq_Ok, Z.ltb_ge, bool_decide_false by done. split; [done|].
  apply map_err_Ok, validate_relative_path_Ok. split; [exact Hlen|].
  unfold relative_path. by rewrite Hof.
Qed.

(** An entry is the only one with its folded path. *)
Lemma folded_inj es e d :
  NoDup (map folded es) → e ∈ es → d ∈ es → folded e = folded d → e = d.
Proof.
  intros Hnd [i Hi]%list_elem_of_lookup [j Hj]%list_elem_of_lookup Heq.
  assert (i = j) as <-; [|congruence].
  eapply NoDup_lookup; [exact Hnd| |]; rewrite list_lookup_fmap; [by rewrite Hi|by rewrite Hj, Heq].
Qed.

Lemma listed_tree_ok es :
  Forall (entry_under [] es) es → NoDup (map folded es) → Manifest.tree_ok es.
Proof.
  intros Hes Hnd. apply Forall_forall. intros e He Hpath. rewrite Forall_forall in Hes.
  destruct (Hes e He) as (names & _ & _ & _ & _ & Hof & Hk).
  rewrite (names_of_ne _ Hpath) in Hof. simpl in Hof, Hk.
  apply Forall_forall. intros parent Hparent. unfold parents in Hparent.
  apply list_elem_of_fmap in Hparent as (k & -> & Hin%elem_of_seq).
  assert (split_char 47 (folded e) = map to_lowercase names) as Hsplit
    by (unfold folded; by rewrite to_lowercase_split, Hof).
  rewrite Hsplit, length_map in *. destruct (Hk k ltac:(lia)) as (d & Hd & Hkind & Hdof).
  assert (me_relative_path d ≠ []) as Hdne.
  { intros Hd0. rewrite Hd0 in Hdof. destruct names, k; simpl in Hin; try lia; done. }
  assert (join_char 47 (take k (map to_lowercase names)) = folded d) as ->.
  { rewrite <- (join_split_char 47 (folded d)). unfold folded. rewrite to_lowercase_split.
    rewrite (names_of_ne _ Hdne) in Hdof. rewrite Hdof. f_equal. symmetry. apply fmap_take. }
  split.
  - intros (f & Hf & Hin')%list_elem_of_fmap. apply list_elem_of_filter in Hin' as [Hfile Hin'].
    apply (folded_inj es) in Hf; [|done..]. subst f. unfold is_file in Hfile.
    rewrite Hkind in Hfile. done.
  - apply list_elem_of_fmap. exists d. split; [done|]. apply list_elem_of_filter. split; [|done].
    unfold is_file. by rewrite Hkind.
Qed.
End listed.

(** ** An unchanged source is neither gone nor changed *)

Section still.
Context {views : Views} {sha : Sha256} {message_json : Json V2Message}.
Context {entries_json : Json (list ManifestEntry)}.
Context (v : SourceView) (root : PathBuf).

(** The directories below the root, with their relative paths. *)
Inductive below : PathBuf → rstr → Prop :=
| below_root : below root []
| below_child directory rel items child name :
    below directory rel → sv_read_dir v directory = Ok items → Ok child ∈ items →
    from_utf8 child = Some name → below (join directory name) (relative_join rel name).
(** All names below the root pass the rule of the fetch sender, in paths of legal length. *)
Definition portable_below : Prop :=
  ∀ directory rel items child name,
    below directory rel → sv_read_dir v directory = Ok items → Ok child ∈ items →
    from_utf8 child = Some name →
    validate_source_component name = Ok () ∧
    str_len (relative_join rel name) ≤ V2_MAX_RELATIVE_PATH_BYTES.

Hypothesis still : ∀ n, view_at n = v.
Hypothesis portable : portable_below.

Lemma collect_Ok {E T} (items : list (result E T)) xs : collect items = Ok xs → items = map Ok xs.
Proof.
  revert xs. induction items as [|item items IH]; intros xs H; simpl in H; [by injection H as <-|].
  apply bind_Ok in H as (x & -> & H). apply bind_Ok in H as (xs' & H & Hx). injection Hx as <-.
  by rewrite (IH _ H).
Qed.

Lemma children_Ok {E} (failed : IoError → E) directory names n n' :
  children failed directory n = (Ok names, n') →
  n' = S n ∧ ∃ items, sv_read_dir v directory = Ok items ∧ (∀ child, child ∈ names → Ok child ∈ items) ∧
    ∀ E' (failed' : IoError → E') m, children failed' directory m = (Ok names, S m).
Proof.
  unfold children. intros H. apply st_bind_Ok in H as (xs & n1 & Hobs & H).
  apply st_ret_Ok in H as [-> ->]. unfold observe in Hobs. rewrite still in Hobs.
  injection Hobs as Hobs <-. split; [done|]. apply map_err_Ok, bind_Ok in Hobs as (items & Hd & Hc).
  exists items. split; [done|]. split.
  - intros child Hin. apply collect_Ok in Hc as ->. apply list_elem_of_fmap. exists child.
    split; [done|]. by rewrite (merge_sort_Permutation name_le xs) in Hin.
  - intros E' failed' m. unfold mbind, st_bind, observe. rewrite still, Hd. simpl. by rewrite Hc.
Qed.

Definition agrees (t : Tree) (w : Walk) : Prop :=
  wk_tree w = t ∧ zlen (wk_manifest w) = tr_entry_count t ∧ 0 ≤ tr_entry_count t.
Definition proper (rel : list rstr) : Prop := Forall (λ name, name ≠ []) rel.

Lemma relative_join_snoc rel name :
  proper rel → join_char 47 (rel ++ [name]) = relative_join (join_char 47 rel) name.
Proof.
  unfold relative_join. destruct rel as [|x rel]; [done|]. intros Hp.
  rewrite bool_decide_false.
  - clear Hp. revert x. induction rel as [|y rel IH]; intros x; [done|].
    change (x ++ 47 :: join_char 47 ((y :: rel) ++ [name])
            = (x ++ 47 :: join_char 47 (y :: rel)) ++ 47 :: name).
    by rewrite IH, <- app_assoc.
  - apply Forall_cons in Hp as [Hx _]. destruct x; [done|]. by destruct rel.
Qed.

(** [d2] follows [d1] on every directory below the root. *)
Definition follows (fuel : nat)
    (d1 : PathBuf → list rstr → Tree → Obs SourcePreparationError Tree)
    (d2 : PathBuf → rstr → Walk → Obs SourceFailure Walk) : Prop :=
  ∀ path rel t n t' n' w m,
    below path (join_char 47 rel) → proper rel →
    V2_MAX_RELATIVE_PATH_BYTES - str_len (join_char 47 rel) < Z.of_nat fuel →
    d1 path rel t n = (Ok t', n') → agrees t w →
    ∃ w' m', d2 path (join_char 47 rel) w m = (Ok w', m') ∧ agrees t' w'.

Lemma walk_entry_follows fuel d1 d2 directory rel items t child n t' n' w m :
  follows fuel d1 d2 → below directory (join_char 47 rel) → proper rel →
  V2_MAX_RELATIVE_PATH_BYTES - str_len (join_char 47 rel) ≤ Z.of_nat fuel →
  sv_read_dir v directory = Ok items → Ok child ∈ items →
  walk_directory_entry d1 directory rel t child n = (Ok t', n') → agrees t w →
  ∃ w' m', walk_folder_entry d2 directory (join_char 47 rel) w child m = (Ok w', m') ∧ agrees t' w'.
Proof.
  intros Hfollows Hbelow Hproper Hfuel Hread Hchild Hrun (Htree & Hmanifest & Hcount0).
  unfold walk_directory_entry in Hrun.
  apply st_bind_Ok in Hrun as (name & n1 & Hname & Hrun). apply st_lift_Ok in Hname as [Hname ->].
  apply ok_or_Ok in Hname. destruct (portable _ _ _ _ _ Hbelow Hread Hchild Hname) as [Hvalid Hlen].
  pose proof (source_component_portable _ Hvalid) as (Hne & _).
  pose proof (relative_join_len (join_char 47 rel) name Hne) as Hlonger.
  apply st_bind_Ok in Hrun as ([] & n2 & _ & Hrun).
  apply st_bind_Ok in Hrun as (metadata & n3 & Hmd & Hrun).
  unfold prep_metadata, observe in Hmd. rewrite still in Hmd. injection Hmd as Hmd _.
  apply map_err_Ok in Hmd.
  apply st_bind_Ok in Hrun as ([] & n4 & Hlink & Hrun). apply st_lift_Ok in Hlink as [Hlink ->].
  apply refuse_if_Ok in Hlink.
  apply st_bind_Ok in Hrun as (entry_count & n5 & Hec & Hrun). apply st_lift_Ok in Hec as [Hec ->].
  apply ok_or_Ok in Hec. pose proof Hec as [-> _]%checked_add_Some.
  apply st_bind_Ok in Hrun as ([] & n6 & Hmax & Hrun). apply st_lift_Ok in Hmax as [Hmax ->].
  apply refuse_if_Ok in Hmax.
  apply st_bind_Ok in Hrun as (relative_name & n7 & Hrel & Hrun).
  apply st_lift_Ok in Hrel as [Hrel ->]. unfold portable_relative_name in Hrel.
  apply bind_Ok in Hrel as (? & _ & Hrel). injection Hrel as <-.
  rewrite relative_join_snoc in Hrun by done.
  apply st_bind_Ok in Hrun as (hashed & n8 & Hhash & Hrun). apply st_lift_Ok in Hhash as [Hhash ->].
  apply ok_or_Ok in Hhash.
  (* the same steps of the sender *)
  unfold walk_folder_entry. rewrite (st_lift_run _ _ _ name) by (by rewrite Hname).
  rewrite (st_lift_run _ _ _ ()) by (by rewrite Hvalid).
  rewrite (st_lift_run _ _ _ ()) by (apply refuse_if_Ok; by apply Z.ltb_ge).
  rewrite (st_bind_run _ _ _ metadata (S m))
    by (unfold source_metadata, observe; by rewrite still, Hmd).
  rewrite (st_lift_run _ _ _ ()) by (by rewrite Hlink). rewrite Htree.
  rewrite (st_lift_run _ _ _ (tr_entry_count t + 1)) by (by rewrite Hec).
  rewrite (st_lift_run _ _ _ ()) by (by apply refuse_if_Ok).
  rewrite (st_lift_run _ _ _ hashed) by (unfold hash_metadata; by rewrite Hhash).
  apply Z.ltb_ge in Hmax. unfold MAX_OFFER_MANIFEST_ENTRIES in Hmax.
  rewrite (st_lift_run _ _ _ (zlen (wk_manifest w))).
  2: { rewrite (proj2 (try_from_Some _ _ (zlen (wk_manifest w)))); [done|]. unfold U32_MAX. lia. }
  destruct (md_is Type_File metadata).
  - apply st_bind_Ok in Hrun as (file_count & n9 & Hfc & Hrun). apply st_lift_Ok in Hfc as [Hfc ->].
    apply ok_or_Ok in Hfc.
    apply st_bind_Ok in Hrun as (total & n10 & Htb & Hrun). apply st_lift_Ok in Htb as [Htb ->].
    apply ok_or_Ok in Htb.
    apply st_bind_Ok in Hrun as ([] & n11 & Hlim & Hrun). apply st_lift_Ok in Hlim as [Hlim ->].
    apply refuse_if_Ok, orb_false_iff in Hlim as [Hf Hx].
    apply st_ret_Ok in Hrun as [-> ->].
    rewrite (st_lift_run _ _ _ ()) by (by rewrite Hf).
    rewrite (st_lift_run _ _ _ file_count) by (by rewrite Hfc).
    rewrite (st_lift_run _ _ _ total) by (by rewrite Htb).
    rewrite (st_lift_run _ _ _ ()) by (by rewrite Hx).
    rewrite (st_lift_run _ _ _ (sha256 hashed))
      by (unfold metadata_digest, hash_metadata; by rewrite Hhash).
    eexists _, _. split; [reflexivity|]. unfold agrees. simpl. rewrite zlen_app, zlen_cons, zlen_nil.
    split_and!; [done|lia|lia].
  - destruct (md_is Type_Dir metadata); [|by apply st_err_Ok in Hrun].
    apply st_bind_Ok in Hrun as (dc & n9 & Hdc & Hrun). apply st_lift_Ok in Hdc as [Hdc ->].
    apply ok_or_Ok in Hdc.
    rewrite (st_lift_run _ _ _ dc) by (by rewrite Hdc).
    rewrite <- relative_join_snoc by done.
    eapply Hfollows; [| | |exact Hrun|].
    + rewrite relative_join_snoc by done. by eapply below_child.
    + apply Forall_app. split; [done|]. by apply Forall_singleton.
    + rewrite relative_join_snoc by done. lia.
    + unfold agrees. simpl. rewrite zlen_app, zlen_cons, zlen_nil. split_and!; [done|lia|lia].
Qed.

Lemma walk_entries_follows fuel d1 d2 directory rel items names t n t' n' w m :
  follows fuel d1 d2 → below directory (join_char 47 rel) → proper rel →
  V2_MAX_RELATIVE_PATH_BYTES - str_len (join_char 47 rel) ≤ Z.of_nat fuel →
  sv_read_dir v directory = Ok items → (∀ child, child ∈ names → Ok child ∈ items) →
  walk_directory_entries d1 directory rel names t n = (Ok t', n') → agrees t w →
  ∃ w' m', walk_folder_entries d2 directory (join_char 47 rel) names w m = (Ok w', m') ∧ agrees t' w'.
Proof.
  intros Hfollows Hbelow Hproper Hfuel Hread. revert t n w m.
  induction names as [|child names IH]; intros t n w m Hin Hrun Hw.
  { apply st_ret_Ok in Hrun as [-> _]. by eexists _, _. }
  apply st_bind_Ok in Hrun as (t1 & n1 & H1 & Hrun).
  edestruct (walk_entry_follows fuel d1 d2) as (w1 & m1 & Hw1 & Hag); [done..| | |exact H1|exact Hw|].
  { exact Hread. } { apply Hin. set_solver. }
  cbn [walk_folder_entries]. rewrite (st_bind_run _ _ _ w1 m1 Hw1).
  eapply IH; [|exact Hrun|done]. set_solver.
Qed.

Lemma walk_follows fuel1 fuel2 : follows fuel2 (walk_directory fuel1) (walk_folder fuel2).
Proof.
  revert fuel2. induction fuel1 as [|fuel1 IH];
    intros fuel2 path rel t n t' n' w m Hbelow Hproper Hfuel Hrun Hw; [by apply st_err_Ok in Hrun|].
  assert (str_len (join_char 47 rel) ≤ V2_MAX_RELATIVE_PATH_BYTES) as Hlen.
  { inversion Hbelow as [|directory rel' items child name Hb Hread Hin Hname]; subst.
    - unfold str_len, V2_MAX_RELATIVE_PATH_BYTES. simpl. lia.
    - by eapply portable. }
  destruct fuel2 as [|fuel2]; [lia|].
  apply st_bind_Ok in Hrun as (names & n1 & Hnames & Hrun).
  apply children_Ok in Hnames as (-> & items & Hread & Hin & Hagain).
  cbn [walk_folder]. rewrite (st_bind_run _ _ _ names (S m)) by apply Hagain.
  eapply walk_entries_follows; [apply IH|done|done| |done..]. lia.
Qed.

(** What encoding the manifest comes to. *)
Lemma encoded_or_malformed {T} request manifest (f : list ManifestChunk * Z → Obs SourceFailure T) n r n' :
  (st_lift (encode_manifest request manifest) ≫= f) n = (r, n') →
  r = Err Source_Malformed ∨ ∃ encoded, f encoded n = (r, n').
Proof.
  unfold encode_manifest, mbind at 1, st_bind, st_lift. intros Hrun.
  destruct (chunk_manifest request manifest) as [chunks|e]; simpl in Hrun;
    [|left; by injection Hrun as <- _].
  destruct (encoded_manifest_bytes chunks) as [encoded|e]; simpl in Hrun;
    [|left; by injection Hrun as <- _].
  by right; eexists.
Qed.

Lemma digest_or_malformed {T} manifest (f : bytes → Obs SourceFailure T) n r n' :
  (st_lift (manifest_digest manifest) ≫= f) n = (r, n') →
  r = Err Source_Malformed ∨ ∃ digest, f digest n = (r, n').
Proof.
  unfold manifest_digest, mbind at 1, st_bind, st_lift. intros Hrun.
  destruct (json_to_vec manifest) as [json|e]; simpl in Hrun; [|left; by injection Hrun as <- _].
  by right; eexists.
Qed.

Lemma file_plan_follows descriptor root_name path metadata hashed request m r m' :
  sv_metadata v path = Ok metadata → md_is Type_File metadata = true →
  file_name path = Some root_name → md_len metadata ≤ MAX_OFFER_FILE_BYTES →
  metadata_bytes (str "root") root_name metadata = Some hashed →
  build_file_plan descriptor root_name (md_len metadata) path (sha256 hashed) request m = (r, m') →
  r = Err Source_Malformed ∨ ∃ plan, r = Ok plan ∧ sp_descriptor plan = descriptor.
Proof.
  intros Hmd Hfile Hname Hlen Hhash. unfold build_file_plan.
  rewrite (st_bind_run _ _ _ metadata (S m)) by (unfold source_metadata, observe; by rewrite still, Hmd).
  rewrite (st_lift_run _ _ _ ()).
  2: { apply refuse_if_Ok. rewrite Hfile, Hname, bool_decide_true by done.
       unfold md_is in *. apply bool_decide_eq_true in Hfile. by rewrite Hfile. }
  rewrite (st_lift_run _ _ _ ())
    by (apply refuse_if_Ok; rewrite Z.eqb_refl; by apply Z.ltb_ge).
  rewrite (st_lift_run _ _ _ hashed) by (unfold hash_metadata; by rewrite Hhash).
  rewrite (st_lift_run _ _ _ ()) by (apply refuse_if_Ok; by rewrite bool_decide_true).
  rewrite (st_lift_run _ _ _ (sha256 hashed))
    by (unfold metadata_digest, hash_metadata; by rewrite Hhash).
  intros [?|[[chunks encoded] Hrun]]%encoded_or_malformed; [by left|].
  apply digest_or_malformed in Hrun as [?|[digest Hrun]]; [by left|].
  injection Hrun as <- _. right. by eexists.
Qed.

Lemma folder_plan_follows descriptor root_name metadata hashed t n n' request m r m' :
  sv_metadata v root = Ok metadata → md_is Type_Dir metadata = true →
  file_name root = Some root_name →
  metadata_bytes (str "root") root_name metadata = Some hashed →
  walk_directory walk_directory_fuel root [] (tree_start hashed) n = (Ok t, n') →
  tr_total_bytes t ≤ MAX_OFFER_TRANSFER_BYTES → tr_entry_count t ≤ MAX_OFFER_MANIFEST_ENTRIES →
  build_folder_plan descriptor root_name (tr_total_bytes t) (tr_entry_count t) (tr_file_count t)
    (tr_directory_count t) root (sha256 (tr_commitment t)) request m = (r, m') →
  r = Err Source_Malformed ∨ ∃ plan, r = Ok plan ∧ sp_descriptor plan = descriptor.
Proof.
  intros Hmd Hdir Hname Hhash Hwalk Htotal Hcount. unfold build_folder_plan.
  rewrite (st_bind_run _ _ _ metadata (S m)) by (unfold source_metadata, observe; by rewrite still, Hmd).
  rewrite (st_lift_run _ _ _ ()).
  2: { apply refuse_if_Ok. rewrite Hdir, Hname, bool_decide_true by done.
       unfold md_is in *. apply bool_decide_eq_true in Hdir. by rewrite Hdir. }
  rewrite (st_lift_run _ _ _ hashed) by (unfold hash_metadata; by rewrite Hhash).
  destruct (walk_follows walk_directory_fuel walk_folder_fuel root [] (tree_start hashed) n t n'
              (mkWalk (tree_start hashed) [] []) (S m)) as (w & m1 & Hw & <- & _); [|by constructor| |done|done|].
  { apply below_root. }
  { unfold walk_folder_fuel, str_len, V2_MAX_RELATIVE_PATH_BYTES. simpl join_char. simpl sum_with.
    rewrite Nat2Z.inj_succ, Z2Nat.id; lia. }
  rewrite (st_bind_run _ _ _ w m1) by exact Hw.
  rewrite (st_lift_run _ _ _ ()).
  2: { apply refuse_if_Ok. rewrite !Z.eqb_refl. simpl. apply orb_false_iff. by rewrite !Z.ltb_ge. }
  rewrite (st_lift_run _ _ _ ()) by (apply refuse_if_Ok; by rewrite bool_decide_true).
  intros [?|[[chunks encoded] Hrun]]%encoded_or_malformed; [by left|].
  destruct (V2_MAX_MANIFEST_BYTES <? encoded); [left; by injection Hrun as <- _|].
  cbn [refuse_if] in Hrun. rewrite (st_lift_run _ _ _ ()) in Hrun by done.
  apply digest_or_malformed in Hrun as [?|[digest Hrun]]; [by left|].
  injection Hrun as <- _. right. by eexists.
Qed.
End still.

(** while a source stays as it was when it was prepared, and every name below it passes the
    rule of the fetch sender, building its plan never reports it gone or changed: the two
    crates walk, count and hash it alike.  The only refusal left is that of a manifest that
    cannot be encoded. *)
Theorem prepared_source_builds `{!Views} `{!Sha256} `{!Json V2Message} `{!Json (list ManifestEntry)}
    v path root n p n' id sequence announced request m r m' :
  (∀ k, view_at k = v) → sv_canonicalize v path = Ok root → portable_below v root →
  prepare_source (Input_Path path) n = (Ok p, n') →
  build_source_plan (mkOfferSourceRecord id (po_descriptor p) sequence announced (po_source p))
    request m = (r, m') →
  r = Err Source_Malformed ∨ ∃ plan, r = Ok plan ∧ sp_descriptor plan = po_descriptor p.
Proof.
  intros Hstill Hroot Hportable Hprep Hrun. cbn [prepare_source] in Hprep. unfold prepare_path in Hprep.
  apply st_bind_Ok in Hprep as (md0 & n1 & _ & Hprep). apply st_bind_Ok in Hprep as ([] & n2 & _ & Hprep).
  apply st_bind_Ok in Hprep as (root' & n3 & Hc & Hprep). unfold observe in Hc.
  rewrite Hstill, Hroot in Hc. injection Hc as <- _.
  apply st_bind_Ok in Hprep as (metadata & n4 & Hmd & Hprep). unfold prep_metadata, observe in Hmd.
  rewrite Hstill in Hmd. injection Hmd as Hmd _. apply map_err_Ok in Hmd.
  apply st_bind_Ok in Hprep as ([] & n5 & _ & Hprep).
  apply st_bind_Ok in Hprep as (root_name & n6 & Hname & Hprep). apply st_lift_Ok in Hname as [Hname ->].
  apply ok_or_Ok in Hname. apply st_bind_Ok in Hprep as ([] & n7 & _ & Hprep).
  apply st_bind_Ok in Hprep as (hashed & n8 & Hhash & Hprep). apply st_lift_Ok in Hhash as [Hhash ->].
  apply ok_or_Ok in Hhash. destruct (md_is Type_File metadata) eqn:Hfile.
  - apply st_bind_Ok in Hprep as ([] & n9 & Hlen & Hprep). apply st_lift_Ok in Hlen as [Hlen ->].
    apply refuse_if_Ok, Z.ltb_ge in Hlen. inv_st. by eapply file_plan_follows in Hrun.
  - apply st_bind_Ok in Hprep as ([] & n9 & Hdir & Hprep). apply st_lift_Ok in Hdir as [Hdir ->].
    apply refuse_if_Ok, negb_false_iff in Hdir.
    apply st_bind_Ok in Hprep as (t & n10 & Hwalk & Hprep).
    apply st_bind_Ok in Hprep as ([] & n11 & Hv & Hprep). apply st_lift_Ok in Hv as [Hv ->].
    apply map_err_Ok in Hv. cbn [descriptor_validate] in Hv.
    rewrite unit_seq_Ok, !refuse_seq_Ok, !Z.ltb_ge in Hv. apply st_ret_Ok in Hprep as [-> _].
    eapply folder_plan_follows in Hrun; try done; tauto.
Qed.
