(* ===== verification/Sender.v ===== *)
(** * Sending a fetch

    Models [OfferFetchHandler] of [crates/meshelf-net/src/fetch_sender.rs]: the authorization of
    a fetch request, the plan of its source ([Source]), the header and the manifest, the wait
    for the admission, the streaming of text or files with the checks that the source did not
    change meanwhile, and the receipt.  The state [Origin] is what one handler touches besides
    its connection: the store, the permits of the shared semaphore, and the count of the calls
    made to the source's filesystem, each of which sees a view of its own.  The store is the
    trait [OfferSourceStore]; the redb store of [OfferStore] is its instance. *)

From S2P Require Import Prelude RustStr StdIo Utf8 Offer Records Protocol OfferStore Activation Filesystem Connection Manifest Source.
From Stdlib Require Import Strings.Byte.

(** ** The store interface *)

Class OfferSourceStore (S : Type) := {
  oss_insert_offer_source : OfferSourceInput → St S StoreError OfferSourceInsert;
  oss_remove_explicit_refusal : OfferId → DeviceId → St S StoreError OfferEligibilityUpdate;
  oss_get_offer_source : OfferId → St S StoreError (option OfferSourceRecord);
}.

(** What the sender relies on: reading an offer changes no offer and returns the stored one. *)
Class OfferSourceStoreSpec (S : Type) `{OfferSourceStore S} := {
  oss_source : S → OfferId → option OfferSourceRecord;
  oss_ok : S → Prop;
  oss_get_spec s id r s' :
    oss_ok s → oss_get_offer_source id s = (r, s') →
    oss_ok s' ∧ (∀ other, oss_source s' other = oss_source s other) ∧
    (∀ record, r = Ok record → record = oss_source s id);
}.

(** ** State *)

(** [or_available] and [or_closed] are the semaphore [active_streams]; nothing in the crate
    closes it. *)
Record Origin (S : Type) := mkOrigin {
  or_store : S;
  or_available : Z;
  or_closed : bool;
  or_calls : nat;
}.
Arguments mkOrigin {_} _ _ _ _.
Arguments or_store {_} _.
Arguments or_available {_} _.
Arguments or_closed {_} _.
Arguments or_calls {_} _.

Definition set_available {S} (n : Z) (o : Origin S) : Origin S :=
  mkOrigin (or_store o) n (or_closed o) (or_calls o).

Inductive FileStreamFailure :=
| FS_Unavailable
| FS_Changed
| FS_MidStream
| FS_AfterFileUnavailable (digest : bytes)
| FS_AfterFileChanged (digest : bytes)
| FS_Io (error : Failure).

(** [timeout(duration, stream.write_all(data))]: the errors of a payload write. *)
Definition write_payload (operation : rstr) (data : bytes) : St Conn Failure () := λ c,
  let '(f, c) := next_fault c in
  let wrote b := mkConn (cn_in c) (cn_out c ++ b) (cn_schedule c) in
  match f with
  | TimesOut n => (Err (Failed (Net_Timeout operation)), wrote (take n data))
  | Breaks n error => (Err (Failed (Net_Io error)), wrote (take n data))
  | Fine => (Ok (), wrote data)
  end.

(** [slice::chunks] *)
Fixpoint chunks_of (tries : nat) (size : nat) (data : bytes) : list bytes :=
  match tries, data with
  | O, _ | _, [] => []
  | S tries, _ => take size data :: chunks_of tries size (drop size data)
  end.
Definition chunks (size : nat) (data : bytes) : list bytes := chunks_of (length data) size data.

(** ** Checks of the answers *)

Definition validate_receipt_identity (receipt : FetchReceipt) (request_id : ActivationId)
    (expected_offer_id : option OfferId) : result NetError () :=
  refuse_if (negb (bool_decide (rc_request_id receipt = request_id)))
    (IdentityMismatch (str "fetch receipt request ID does not match"));;
  match expected_offer_id with
  | Some expected =>
      refuse_if (negb (bool_decide (rc_offer_id receipt = expected)))
        (IdentityMismatch (str "fetch receipt offer ID does not match"))
  | None => mret ()
  end.

Definition require_completed_receipt (receipt : FetchReceipt) : result NetError () :=
  refuse_if (negb (bool_decide (rc_code receipt = Receipt_Completed)))
    (FetchTerminal (rc_code receipt) (rc_files_received receipt) (rc_bytes_received receipt)
       (rc_detail receipt)).

Definition require_accepted_admission (admission : FetchAdmission) (request_id : ActivationId)
    : result NetError () :=
  refuse_if (negb (bool_decide (ad_request_id admission = request_id)))
    (IdentityMismatch (str "fetch admission request ID does not match"));;
  refuse_if (negb (bool_decide (ad_code admission = Admission_Accepted)))
    (FetchAdmissionRefused (ad_code admission) (ad_entries_reserved admission)
       (ad_bytes_reserved admission) (ad_detail admission)).

(** ** The messages of a plan *)

Section frames.
Context `{!Sha256}.

Definition plan_header (request : FetchRequest) (plan : SourcePlan) : FetchHeader :=
  mkFetchHeader (fr_request_id request) (fr_offer_id request) (sp_descriptor plan)
    (default U32_MAX (try_from U32_MAX (zlen (sp_manifest plan))))
    (default U64_MAX (try_from U64_MAX (sp_manifest_encoded_bytes plan)))
    ((λ text, sha256 (as_bytes text)) <$> sp_text plan)
    (sp_manifest_sha256 plan).
Definition plan_end (request : FetchRequest) (plan : SourcePlan) : ManifestEnd :=
  mkManifestEnd (fr_request_id request)
    (default U32_MAX (try_from U32_MAX (zlen (sp_manifest plan))))
    (default U32_MAX (try_from U32_MAX (zlen (sp_files plan))))
    (sp_total_bytes plan) (default [] (sp_manifest_sha256 plan)).
End frames.

(** ** The handler *)

Section sender.
Context `{!Views} `{!Sha256} `{!Json V2Message} `{!Json (list ManifestEntry)}.
Context {S : Type} `{!OfferSourceStore S} (origin_device : DeviceId).
Implicit Types (request : FetchRequest) (record : OfferSourceRecord) (plan : SourcePlan).
Notation TxM := (St (Session (Origin S))).
Notation M := (TxM Failure).

Definition net {T} (r : result NetError T) : M T := st_lift (map_err Failed r).
(** A call on the source's filesystem. *)
Definition on_source {E T} (m : Obs E T) : TxM E T := λ s,
  let o := ss_services s in
  let '(r, n) := m (or_calls o) in
  (r, mkSession (ss_conn s) (mkOrigin (or_store o) (or_available o) (or_closed o) n)).
Definition on_store {T} (m : St S StoreError T) : TxM StoreError T := λ s,
  let o := ss_services s in
  let '(r, store) := m (or_store o) in
  (r, mkSession (ss_conn s) (mkOrigin store (or_available o) (or_closed o) (or_calls o))).

Definition active_counts (o : Origin S) : Z * Z :=
  let available := default 0 (try_from U32_MAX (or_available o)) in
  (saturating_sub V2_MAX_ACTIVE_PAYLOAD_STREAMS available, V2_MAX_ACTIVE_PAYLOAD_STREAMS).

(** *** Messages *)

Definition write_control (message : V2Message) : M () :=
  on_conn (io_write (encode_v2_frame message) (str "write fetch control frame")).

Definition send_refusal_with_counts request (code : FetchRefusalCode) (counts : Z * Z)
    (detail : option rstr) : M () :=
  let '(active_streams, max_active_streams) := counts in
  on_conn (io_write (encode_v2_frame (Msg_FetchRefusal
    (mkFetchRefusal (fr_request_id request) (fr_offer_id request) code active_streams
       max_active_streams detail))) (str "write fetch refusal")).
Definition send_refusal request (code : FetchRefusalCode) (counts : option (Z * Z))
    (detail : option rstr) : M () :=
  s ← st_get;
  send_refusal_with_counts request code (default (active_counts (ss_services s)) counts) detail.

Definition await_receipt (request_id : ActivationId) (expected_offer_id : option OfferId)
    : M FetchReceipt :=
  response ← on_conn (io_read read_v2_frame (str "read fetch receipt"));
  net (map_err Net_Protocol (validate_v2_message response));;
  match response with
  | Msg_FetchReceipt receipt =>
      net (validate_receipt_identity receipt request_id expected_offer_id);;
      mret receipt
  | _ => net (Err (UnexpectedMessage (str "expected fetch receipt")))
  end.
Definition await_completed_receipt (request_id : ActivationId)
    (expected_offer_id : option OfferId) : M () :=
  receipt ← await_receipt request_id expected_offer_id;
  net (require_completed_receipt receipt).

Definition send_abort (request_id : ActivationId) (offer_id : OfferId) (code : FetchAbortCode)
    (files_sent bytes_sent : Z) : M () :=
  write_control (Msg_FetchAbort (mkFetchAbort request_id code files_sent bytes_sent None));;
  await_receipt request_id (Some offer_id);;
  mret ().

(** *** Streaming *)

Definition stream_text (request_id : ActivationId) (text : rstr) : M () :=
  let data := as_bytes text in
  let pieces := chunks (Z.to_nat V2_STREAM_BUFFER_BYTES) data in
  st_for pieces (λ piece, on_conn (write_payload (str "write text payload") piece));;
  let digest := sha256 (concat pieces) in
  write_control (Msg_TextEnd (mkTextEnd request_id digest));;
  write_control (Msg_FetchComplete (mkFetchComplete request_id 0
    (default U64_MAX (try_from U64_MAX (zlen data))) digest)).

(** The digest of the metadata the call finds, compared with that of the plan. *)
Definition same_metadata (file : LiveFile) (metadata : Metadata) (other : FileStreamFailure)
    : result FileStreamFailure () :=
  digest ← map_err (λ _, other)
             (metadata_digest (lf_metadata_kind file) (lf_relative_name file) metadata);
  refuse_if (negb (bool_decide (digest = lf_metadata_digest file))) other.
Definition verify_path_metadata (file : LiveFile) : Obs FileStreamFailure () :=
  metadata ← st_map_err (λ error, match error with
                                  | Source_Unavailable => FS_Unavailable
                                  | Source_Changed | Source_Malformed => FS_Changed
                                  end) (source_metadata (lf_path file));
  st_lift (same_metadata file metadata FS_Changed).
Definition open_and_verify_file (file : LiveFile) : Obs FileStreamFailure nat :=
  verify_path_metadata file;;
  source ← observe (λ v, map_err (λ _, FS_Unavailable) (sv_open v (lf_path file)));
  metadata ← observe (λ v, map_err (λ _, FS_Unavailable) (sv_file_metadata v source));
  st_lift (same_metadata file metadata FS_Changed);;
  mret source.

(** [while remaining > 0]; each turn sends at least one byte, so [tries] is at most
    [remaining]. *)
Fixpoint stream_bytes (tries : nat) (source : nat) (position remaining : Z) (hashed : bytes)
    : TxM FileStreamFailure bytes :=
  if remaining <=? 0 then mret hashed
  else
    match tries with
    | O => st_err FS_MidStream
    | Datatypes.S tries =>
        let wanted := Z.to_nat (Z.min remaining V2_STREAM_BUFFER_BYTES) in
        data ← on_source (observe (λ v,
                 map_err (λ _, FS_MidStream) (sv_file_read v source position wanted)));
        let data := take wanted data in
        if bool_decide (data = []) then st_err FS_MidStream
        else
          st_map_err FS_Io (on_conn (write_payload (str "write file payload") data));;
          stream_bytes tries source (position + zlen data) (saturating_sub remaining (zlen data))
            (hashed ++ data)
    end.

Definition stream_file (request_id : ActivationId) (file : LiveFile)
    : TxM FileStreamFailure bytes :=
  source ← on_source (open_and_verify_file file);
  st_map_err FS_Io (write_control (Msg_FileStart
    (mkFileStart request_id (lf_entry_index file) (lf_byte_len file))));;
  hashed ← stream_bytes (Z.to_nat (lf_byte_len file)) source 0 (lf_byte_len file) [];
  metadata ← on_source (observe (λ v, map_err (λ _, FS_MidStream) (sv_file_metadata v source)));
  st_lift (same_metadata file metadata FS_MidStream);;
  let digest := sha256 hashed in
  st_map_err FS_Io (write_control (Msg_FileEnd
    (mkFileEnd request_id (lf_entry_index file) digest)));;
  outcome ← st_try (on_source (verify_path_metadata file));
  match outcome with
  | Ok _ => mret digest
  | Err FS_Unavailable => st_err (FS_AfterFileUnavailable digest)
  | Err FS_Changed => st_err (FS_AfterFileChanged digest)
  | Err error => st_err error
  end.

(** The variables of the loop over the files. *)
Record Sent := mkSent { sn_files : Z; sn_bytes : Z; sn_content_set : bytes }.
Definition sent_file (file : LiveFile) (digest : bytes) (sent : Sent) : Sent :=
  mkSent (saturating_add U32_MAX (sn_files sent) 1)
    (saturating_add U64_MAX (sn_bytes sent) (lf_byte_len file)) (sn_content_set sent ++ digest).

Definition abort_with request (code : FetchAbortCode) (sent : Sent) : M () :=
  send_abort (fr_request_id request) (fr_offer_id request) code (sn_files sent) (sn_bytes sent).

(** [None]: the transfer ended early, and [send_plan] returns [Ok(())]. *)
Fixpoint stream_files request (files : list LiveFile) (sent : Sent) : M (option Sent) :=
  match files with
  | [] => mret (Some sent)
  | file :: rest =>
      outcome ← st_try (stream_file (fr_request_id request) file);
      match outcome with
      | Ok digest => stream_files request rest (sent_file file digest sent)
      | Err FS_MidStream => mret None
      | Err FS_Unavailable => abort_with request Abort_SourceUnavailable sent;; mret None
      | Err FS_Changed => abort_with request Abort_SourceChanged sent;; mret None
      | Err (FS_AfterFileUnavailable digest) =>
          abort_with request Abort_SourceUnavailable (sent_file file digest sent);; mret None
      | Err (FS_AfterFileChanged digest) =>
          abort_with request Abort_SourceChanged (sent_file file digest sent);; mret None
      | Err (FS_Io error) => st_err error
      end
  end.

(** *** [send_plan] *)

(** The header, the chunks, and the end of a manifest that is not empty. *)
Definition send_manifest request plan : M () :=
  write_control (Msg_FetchHeader (plan_header request plan));;
  st_for (sp_manifest_chunks plan) (λ chunk, write_control (Msg_ManifestChunk chunk));;
  if bool_decide (sp_manifest plan = []) then mret ()
  else write_control (Msg_ManifestEnd (plan_end request plan)).

Definition await_admission request : M () :=
  admission ← on_conn (io_read read_v2_frame (str "read fetch admission"));
  net (map_err Net_Protocol (validate_v2_message admission));;
  match admission with
  | Msg_FetchAdmission admission =>
      net (require_accepted_admission admission (fr_request_id request))
  | _ => net (Err (UnexpectedMessage (str "expected fetch_admission")))
  end.

(** The plan is built again and compared; [false] when the source was found to be different,
    of which the receiver has then been told. *)
Definition recheck request record plan (sent : Sent) : M bool :=
  outcome ← st_try (on_source (build_source_plan record (fr_request_id request)));
  match outcome with
  | Ok current =>
      if same_source current plan then mret true
      else abort_with request Abort_SourceChanged sent;; mret false
  | Err Source_Changed => abort_with request Abort_SourceChanged sent;; mret false
  | Err Source_Unavailable => abort_with request Abort_SourceUnavailable sent;; mret false
  | Err Source_Malformed => abort_with request Abort_InternalError sent;; mret false
  end.

Definition send_files request record plan : M () :=
  sent ← stream_files request (sp_files plan)
           (mkSent 0 0 (default [] (sp_manifest_sha256 plan)));
  match sent with
  | None => mret ()
  | Some sent =>
      same ← recheck request record plan sent;
      if same : bool then
        write_control (Msg_FetchComplete (mkFetchComplete (fr_request_id request)
          (sn_files sent) (sn_bytes sent) (sha256 (sn_content_set sent))));;
        await_completed_receipt (fr_request_id request) (Some (fr_offer_id request))
      else mret ()
  end.

Definition send_plan request record plan : M () :=
  send_manifest request plan;;
  await_admission request;;
  match sp_text plan with
  | Some text =>
      stream_text (fr_request_id request) text;;
      await_completed_receipt (fr_request_id request) (Some (fr_offer_id request))
  | None =>
      same ← recheck request record plan (mkSent 0 0 []);
      if same : bool then send_files request record plan else mret ()
  end.

(** *** [handle_fetch] *)

(** The record of the offer, or the refusal that was sent. *)
Definition authorize (authenticated_requester : DeviceId) request
    : M (option OfferSourceRecord) :=
  let refuse code detail := send_refusal request code None detail;; mret None in
  if negb (bool_decide (fr_source_device request = origin_device)) then
    refuse Refusal_Malformed (Some (str "source device does not match this origin"))
  else if negb (bool_decide (fr_requester_device request = authenticated_requester)) then
    refuse Refusal_Malformed
      (Some (str "requester device does not match the authenticated peer"))
  else
    record ← st_map_err (λ error, Failed (OfferStorage (store_error_to_string error)))
               (on_store (oss_get_offer_source (fr_offer_id request)));
    match record with
    | None => refuse Refusal_UnknownOffer None
    | Some record =>
        if negb (bool_decide (authenticated_requester ∈ src_announced_to record)) then
          refuse Refusal_NotAnnouncedToRequester None
        else if negb (is_ok (source_validate_for is_absolute (src_source record)
                               (src_descriptor record))) then
          refuse Refusal_Malformed (Some (str "stored offer source does not match its descriptor"))
        else mret (Some record)
    end.

(** [try_acquire_owned]; the permit is dropped before a refusal is sent, and otherwise when
    the handler returns. *)
Definition acquire request : M bool :=
  s ← st_get;
  let o := ss_services s in
  if or_closed o then net (Err (FetchService (str "payload stream limit is closed")))
  else if or_available o <=? 0 then
    send_refusal_with_counts request Refusal_Busy (active_counts o)
      (Some (str "origin payload capacity is full"));;
    mret false
  else
    st_modify (λ s, mkSession (ss_conn s) (set_available (or_available o - 1) (ss_services s)));;
    mret true.
Definition release : M () :=
  st_modify (λ s, mkSession (ss_conn s)
                    (set_available (or_available (ss_services s) + 1) (ss_services s))).
(** Run with the permit, and drop it whatever the outcome. *)
Definition holding_permit (m : M ()) : M () := λ s,
  let '(r, s) := m s in (r, (release s).2).

Definition serve_authorized request record : M () :=
  acquired ← acquire request;
  if negb (acquired : bool) then mret ()
  else
    outcome ← st_try (on_source (build_source_plan record (fr_request_id request)));
    match outcome with
    | Ok plan => holding_permit (send_plan request record plan)
    | Err Source_Unavailable =>
        release;; send_refusal request Refusal_SourceUnavailable None None
    | Err Source_Changed => release;; send_refusal request Refusal_SourceChanged None None
    | Err Source_Malformed =>
        release;; send_refusal request Refusal_Malformed None
          (Some (str "source cannot be represented by the v2 manifest"))
    end.

Definition handle_fetch (authenticated_requester : DeviceId) request : M () :=
  record ← authorize authenticated_requester request;
  match record with
  | None => mret ()
  | Some record => serve_authorized request record
  end.
End sender.

(** ** What the handler touches *)

Section frame.
Context {views : Views} {sha : Sha256} {message_json : Json V2Message}.
Context {entries_json : Json (list ManifestEntry)}.
Context {S : Type} {store : OfferSourceStore S} (origin_device : DeviceId).
Implicit Types (s : Session (Origin S)) (request : FetchRequest).
Notation TxM := (St (Session (Origin S))).

(** Everything but the connection and the count of the calls. *)
Definition held s : S * Z * bool :=
  (or_store (ss_services s), or_available (ss_services s), or_closed (ss_services s)).
Notation held_same := (same_on held).

Lemma held_conn {T} (m : St Conn Failure T) : keeps held_same (on_conn m).
Proof.
  intros s. unfold on_conn, same_on, held. by destruct (m (ss_conn s)).
Qed.
Lemma held_source {E T} (m : Obs E T) : keeps held_same (on_source (S := S) m).
Proof. intros s. unfold on_source, same_on, held. by destruct (m (or_calls (ss_services s))). Qed.
Lemma held_control message : keeps held_same (write_control (S := S) message).
Proof. apply held_conn. Qed.
#[local] Hint Resolve held_conn held_source held_control : keeps.

Lemma held_net {T} (r : result NetError T) : keeps held_same (net (S := S) r).
Proof. by intros s. Qed.
#[local] Hint Resolve held_net : keeps.

Lemma held_receipt id offer : keeps held_same (await_receipt (S := S) id offer).
Proof. unfold await_receipt. keeps_tac. Qed.
#[local] Hint Resolve held_receipt : keeps.
Lemma held_completed id offer : keeps held_same (await_completed_receipt (S := S) id offer).
Proof. unfold await_completed_receipt. keeps_tac. Qed.
Lemma held_abort request code sent : keeps held_same (abort_with (S := S) request code sent).
Proof. unfold abort_with, send_abort. keeps_tac. Qed.
Lemma held_text id text : keeps held_same (stream_text (S := S) id text).
Proof. unfold stream_text. keeps_tac. Qed.
#[local] Hint Resolve held_completed held_abort held_text : keeps.

Lemma held_map_err {E E' T} (f : E → E') (m : TxM E T) :
  keeps held_same m → keeps held_same (st_map_err f m).
Proof. apply keeps_map_err. Qed.
Lemma held_try {E E' T} (m : TxM E T) :
  keeps held_same m → keeps held_same (st_try m : TxM E' _).
Proof. apply keeps_try. Qed.
#[local] Hint Resolve held_map_err held_try : keeps.

Lemma held_bytes tries source position remaining hashed :
  keeps held_same (stream_bytes (S := S) tries source position remaining hashed).
Proof.
  revert position remaining hashed.
  induction tries as [|tries IH]; intros position remaining hashed; cbn [stream_bytes]; keeps_tac.
Qed.
#[local] Hint Resolve held_bytes : keeps.
Lemma held_file id file : keeps held_same (stream_file (S := S) id file).
Proof. unfold stream_file. keeps_tac. Qed.
#[local] Hint Resolve held_file : keeps.
Lemma held_files request files sent : keeps held_same (stream_files (S := S) request files sent).
Proof. revert sent. induction files as [|file files IH]; intros sent; cbn [stream_files]; keeps_tac. Qed.
#[local] Hint Resolve held_files : keeps.
Lemma held_recheck request record plan sent :
  keeps held_same (recheck (S := S) request record plan sent).
Proof. unfold recheck. keeps_tac. Qed.
#[local] Hint Resolve held_recheck : keeps.
Lemma held_plan request record plan : keeps held_same (send_plan (S := S) request record plan).
Proof. unfold send_plan, send_manifest, await_admission, send_files. keeps_tac. Qed.
Lemma held_refusal request code counts detail :
  keeps held_same (send_refusal_with_counts (S := S) request code counts detail).
Proof. unfold send_refusal_with_counts. destruct counts. keeps_tac. Qed.
#[local] Hint Resolve held_plan held_refusal : keeps.

(** ** The authorization boundary *)

(** At most one refusal was written, possibly not to its end, and no call was made to the
    filesystem. *)
Definition only_refused request s s' : Prop :=
  or_calls (ss_services s') = or_calls (ss_services s) ∧
  ∃ code active detail n,
    cn_out (ss_conn s') = cn_out (ss_conn s) ++ take n (default [] (result_ok (encode_v2_frame
      (Msg_FetchRefusal (mkFetchRefusal (fr_request_id request) (fr_offer_id request) code active
         V2_MAX_ACTIVE_PAYLOAD_STREAMS detail))))).

Lemma refusal_run request code active detail s r s' :
  send_refusal_with_counts request code (active, V2_MAX_ACTIVE_PAYLOAD_STREAMS) detail s = (r, s') →
  only_refused request s s'.
Proof.
  unfold send_refusal_with_counts. intros Hrun. apply on_conn_run in Hrun as [Hs Hrun].
  apply io_write_run in Hrun as [_ Hout]. split; [by rewrite Hs|]. exists code, active, detail.
  destruct r as [[]|e].
  - destruct Hout as (b & Hb & ->). exists (length b). by rewrite Hb, firstn_all.
  - destruct Hout as [n ->]. by exists n.
Qed.

Lemma send_refusal_run request code detail s r s' :
  send_refusal request code None detail s = (r, s') → only_refused request s s'.
Proof. apply refusal_run. Qed.

Lemma only_refused_refl request s : only_refused request s s.
Proof.
  split; [done|]. exists Refusal_Busy, 0, None, 0%nat. by rewrite take_0, app_nil_r.
Qed.

(** Who may have a source read: the authenticated device that asks under its own id for an
    offer of this device, was announced it, and finds a free permit. *)
Definition authorized `{!OfferSourceStoreSpec S} (requester : DeviceId) request s : Prop :=
  fr_source_device request = origin_device ∧ fr_requester_device request = requester ∧
  0 < or_available (ss_services s) ∧
  ∃ record, oss_source (or_store (ss_services s)) (fr_offer_id request) = Some record ∧
    requester ∈ src_announced_to record ∧
    source_validate_for is_absolute (src_source record) (src_descriptor record) = Ok ().

Lemma on_store_run {T} (m : St S StoreError T) s r s' :
  on_store m s = (r, s') →
  ss_conn s' = ss_conn s ∧ m (or_store (ss_services s)) = (r, or_store (ss_services s')) ∧
  or_available (ss_services s') = or_available (ss_services s) ∧
  or_closed (ss_services s') = or_closed (ss_services s) ∧
  or_calls (ss_services s') = or_calls (ss_services s).
Proof. unfold on_store. destruct (m _) as [r1 st]. intros [= <- <-]. done. Qed.

Lemma held_holding (m : TxM Failure ()) s r s' :
  keeps held_same m → holding_permit m s = (r, s') →
  or_store (ss_services s') = or_store (ss_services s) ∧
  or_available (ss_services s') = or_available (ss_services s) + 1.
Proof.
  intros Hm. unfold holding_permit. specialize (Hm s). destruct (m s) as [r1 s1].
  intros [= <- <-]. simpl. unfold same_on, held in Hm. simpl in Hm. by injection Hm as -> -> _.
Qed.

(** A refusal written before anything else happened. *)
Definition refused_only request s s' : Prop := held s' = held s ∧ only_refused request s s'.

Lemma refuse_with_counts request code detail s r s' :
  send_refusal_with_counts request code (active_counts (ss_services s)) detail s = (r, s') →
  refused_only request s s'.
Proof.
  intros Hrun. pose proof (held_refusal request code (active_counts (ss_services s)) detail s) as Hh.
  rewrite Hrun in Hh. split; [exact Hh|]. by apply refusal_run in Hrun.
Qed.

Lemma refuse_now request code detail s r s' :
  send_refusal request code None detail s = (r, s') → refused_only request s s'.
Proof. intros Hrun. exact (refuse_with_counts request code detail s r s' Hrun). Qed.

Lemma refuse_run {T} request code detail s r s' :
  (send_refusal request code None detail;; mret (None : option T)) s = (r, s') →
  refused_only request s s' ∧ (r = Ok None ∨ ∃ e, r = Err e).
Proof.
  intros Hrun. apply st_bind_inv in Hrun as [(e & Hsend & ->)|([] & s1 & Hsend & Hrun)].
  - split; [|by right; exists e]. by eapply refuse_now.
  - injection Hrun as <- <-. split; [|by left]. by eapply refuse_now.
Qed.

Lemma acquire_run request s r s' :
  acquire request s = (r, s') →
  (refused_only request s s' ∧ (r = Ok false ∨ ∃ e, r = Err e)) ∨
  r = Ok true ∧ 0 < or_available (ss_services s) ∧
    s' = mkSession (ss_conn s) (set_available (or_available (ss_services s) - 1) (ss_services s)).
Proof.
  unfold acquire. intros Hrun. erewrite st_bind_run in Hrun by reflexivity. cbv zeta in Hrun.
  destruct (or_closed (ss_services s)).
  { injection Hrun as <- <-. left. split; [|by right; eexists]. split; [done|]. apply only_refused_refl. }
  destruct (Z.leb_spec (or_available (ss_services s)) 0) as [Hnone|Hfree].
  - left. apply st_bind_inv in Hrun as [(e & Hsend & ->)|([] & s1 & Hsend & Hrun)].
    + split; [by eapply refuse_with_counts|]. by right; eexists.
    + injection Hrun as <- <-. split; [by eapply refuse_with_counts|by left].
  - erewrite st_bind_run in Hrun by reflexivity. injection Hrun as <- <-. by right.
Qed.

Lemma release_refuse request code detail s r s' :
  (release;; send_refusal request code None detail) s = (r, s') →
  or_store (ss_services s') = or_store (ss_services s) ∧
  or_available (ss_services s') = or_available (ss_services s) + 1.
Proof.
  intros Hrun. erewrite st_bind_run in Hrun by reflexivity.
  apply refuse_now in Hrun as [Hh _]. unfold held in Hh. simpl in Hh.
  by injection Hh as -> -> _.
Qed.

(** With the record: the permit is returned on every way out. *)
Lemma serve_authorized_run request record s r s' :
  serve_authorized request record s = (r, s') →
  or_store (ss_services s') = or_store (ss_services s) ∧
  or_available (ss_services s') = or_available (ss_services s) ∧
  (only_refused request s s' ∨ 0 < or_available (ss_services s)).
Proof.
  intros Hrun. unfold serve_authorized in Hrun.
  apply st_bind_inv in Hrun as [(e & Hacq & ->)|(acquired & s1 & Hacq & Hrun)];
    apply acquire_run in Hacq as [[[Hheld Hrefused] Hr]|(Hr & Hfree & Hs1)]; try done.
  - unfold held in Hheld. injection Hheld as -> -> _. split_and!; [done..|by left].
  - destruct Hr as [[= ->]|[e ?]]; [|done]. injection Hrun as <- <-.
    unfold held in Hheld. injection Hheld as -> -> _. split_and!; [done..|by left].
  - injection Hr as ->. cbn [negb] in Hrun. apply st_try_inv in Hrun as (o & s2 & Hbuild & Hrun).
    pose proof (held_source (build_source_plan record (fr_request_id request)) s1) as Hb.
    rewrite Hbuild in Hb. unfold same_on, held in Hb. subst s1. simpl in Hb. injection Hb as Hst Hav _.
    assert (or_store (ss_services s') = or_store (ss_services s2) ∧
            or_available (ss_services s') = or_available (ss_services s2) + 1) as [-> ->].
    { destruct o as [plan|[| |]]; [|by eapply release_refuse..].
      eapply held_holding; [|exact Hrun]. apply held_plan. }
    rewrite Hst, Hav. split_and!; [done|lia|by right].
Qed.

Lemma authorize_run `{!OfferSourceStoreSpec S} requester request s r s' :
  oss_ok (or_store (ss_services s)) →
  authorize origin_device requester request s = (r, s') →
  (∀ id, oss_source (or_store (ss_services s')) id = oss_source (or_store (ss_services s)) id) ∧
  or_available (ss_services s') = or_available (ss_services s) ∧
  ((only_refused request s s' ∧ (r = Ok None ∨ ∃ e, r = Err e)) ∨
   ∃ record, r = Ok (Some record) ∧ ss_conn s' = ss_conn s ∧
     or_calls (ss_services s') = or_calls (ss_services s) ∧
     (0 < or_available (ss_services s) → authorized requester request s)).
Proof.
  intros Hok Hrun. unfold authorize in Hrun. cbv zeta in Hrun.
  assert (∀ s', refused_only request s s' → (r = Ok None ∨ ∃ e, r = Err e) →
    (∀ id, oss_source (or_store (ss_services s')) id = oss_source (or_store (ss_services s)) id) ∧
    or_available (ss_services s') = or_available (ss_services s) ∧
    only_refused request s s' ∧ (r = Ok None ∨ ∃ e, r = Err e)) as Hfirst.
  { intros s1 [Hh Hre] Hr. unfold held in Hh. by injection Hh as -> -> _. }
  destruct (decide (fr_source_device request = origin_device)) as [Horigin|Hne].
  2: { rewrite bool_decide_false in Hrun by done. apply refuse_run in Hrun as [Href Hr].
       destruct (Hfirst _ Href Hr) as (? & ? & ?). split_and!; [done..|by left]. }
  rewrite (bool_decide_true (fr_source_device request = _)) in Hrun by done.
  destruct (decide (fr_requester_device request = requester)) as [Hreq|Hne].
  2: { rewrite bool_decide_false in Hrun by done. apply refuse_run in Hrun as [Href Hr].
       destruct (Hfirst _ Href Hr) as (? & ? & ?). split_and!; [done..|by left]. }
  rewrite bool_decide_true in Hrun by done. cbn [negb] in Hrun.
  apply st_bind_inv in Hrun as [(e & Hget & ->)|(found & s1 & Hget & Hrun)];
    apply st_map_err_inv in Hget as (o & Hget & Ho);
    apply on_store_run in Hget as (Hconn & Hget & Hav & Hcl & Hcalls);
    apply oss_get_spec in Hget as (_ & Hsame & Hfound); try done.
  { split_and!; [done..|]. left. split; [|by right; eexists].
    split; [done|]. exists Refusal_Busy, 0, None, 0%nat. by rewrite take_0, app_nil_r, Hconn. }
  assert (∀ code detail s', (send_refusal request code None detail;; mret None) s1 = (r, s') →
    (∀ id, oss_source (or_store (ss_services s')) id = oss_source (or_store (ss_services s)) id) ∧
    or_available (ss_services s') = or_available (ss_services s) ∧
    only_refused request s s' ∧ (r = Ok None ∨ ∃ e, r = Err e)) as Hthen.
  { intros code detail s2 Hr. apply refuse_run in Hr as [[Hh [Hc Hout]] Hr]. unfold held in Hh.
    injection Hh as -> -> _. unfold only_refused. rewrite Hc, Hcalls, <- Hconn. done. }
  symmetry in Ho. apply map_err_Ok in Ho. specialize (Hfound found Ho).
  destruct found as [record|]; [|apply Hthen in Hrun as (? & ? & ?); split_and!; [done..|by left]].
  destruct (decide (requester ∈ src_announced_to record)) as [Hann|Hnot].
  2: { rewrite bool_decide_false in Hrun by done. apply Hthen in Hrun as (? & ? & ?).
       split_and!; [done..|by left]. }
  rewrite bool_decide_true in Hrun by done. cbn [negb] in Hrun.
  destruct (source_validate_for _ _ _) as [[]|e] eqn:Hvalid; cbn [is_ok negb] in Hrun.
  2: { apply Hthen in Hrun as (? & ? & ?). split_and!; [done..|by left]. }
  injection Hrun as <- <-. split_and!; [done..|]. right. exists record. split_and!; try done.
  intros Hfree. split_and!; try done. by exists record.
Qed.

(** The run of the whole handler. *)
Lemma handle_fetch_run `{!OfferSourceStoreSpec S} requester request s r s' :
  oss_ok (or_store (ss_services s)) →
  handle_fetch origin_device requester request s = (r, s') →
  (∀ id, oss_source (or_store (ss_services s')) id = oss_source (or_store (ss_services s)) id) ∧
  or_available (ss_services s') = or_available (ss_services s) ∧
  (only_refused request s s' ∨ authorized requester request s).
Proof.
  intros Hok Hrun. unfold handle_fetch in Hrun.
  apply st_bind_inv in Hrun as [(e & Hauth & ->)|(found & s1 & Hauth & Hrun)];
    apply authorize_run in Hauth as (Hsame & Hav & [[Href Hr]|(record & Hr & Hconn & Hcalls & Hauth)]);
    try done.
  - split_and!; [done..|by left].
  - destruct Hr as [[= ->]|[e ?]]; [|done]. injection Hrun as <- <-. split_and!; [done..|by left].
  - injection Hr as ->. apply serve_authorized_run in Hrun as (Hst & Hav' & Hrest).
    rewrite Hst, Hav', Hav. split_and!; [done..|].
    destruct Hrest as [[Hc Hout]|Hfree]; [|right; apply Hauth; by rewrite <- Hav].
    left. unfold only_refused. by rewrite Hc, Hcalls, <- Hconn.
Qed.

(** C10: the authorization boundary of the sender.  Whatever the request, the store, the network
    and the source do, no offer changes and every permit is given back; and either nothing
    was written but one refusal and no call was made to the source's filesystem, or the
    request comes from the authenticated device it names, for an offer of this device that
    was announced to it and matches its descriptor, and a permit was free. *)
Theorem handle_fetch_authorized `{!OfferSourceStoreSpec S} requester request s r s' :
  oss_ok (or_store (ss_services s)) →
  handle_fetch origin_device requester request s = (r, s') →
  (∀ id, oss_source (or_store (ss_services s')) id = oss_source (or_store (ss_services s)) id) ∧
  or_available (ss_services s') = or_available (ss_services s) ∧
  (only_refused request s s' ∨ authorized requester request s).
Proof. apply handle_fetch_run. Qed.
End frame.

(** ** What the sender announces, the receiver accepts *)

Section accepted.
Context {views : Views} {sha : Sha256} {message_json : Json V2Message}.
Context {entries_json : Json (list ManifestEntry)}.
Hypothesis typed : lengths_typed.
Implicit Types (plan : SourcePlan) (record : OfferSourceRecord).

Lemma length_file_list start es : zlen (file_list start es) = zlen (files_of es).
Proof.
  revert start. induction es as [|e es IH]; intros start; [done|].
  cbn [file_list]. rewrite files_cons. destruct (is_file e); rewrite ?zlen_cons, IH; done.
Qed.

(** What is known of a plan for files. *)
Record plan_ok (request_id : ActivationId) record plan : Prop := {
  pl_descriptor : sp_descriptor plan = src_descriptor record;
  pl_not_text : descriptor_is_text (src_descriptor record) = false;
  pl_described : describes (src_descriptor record) (sp_manifest plan);
  pl_sized : Forall entry_sized (sp_manifest plan);
  pl_entries : Forall entry_ok (sp_manifest plan);
  pl_tree : ∀ lower : Lowercase, LowercaseLaws → NoDup (map folded (sp_manifest plan)) →
    Manifest.tree_ok (sp_manifest plan);
  pl_count : zlen (sp_manifest plan) ≤ MAX_OFFER_MANIFEST_ENTRIES;
  pl_total : sp_total_bytes plan = sum_with file_size (sp_manifest plan);
  pl_limit : sp_total_bytes plan ≤ MAX_OFFER_TRANSFER_BYTES;
  pl_files : map live_key (sp_files plan) = file_list 0 (sp_manifest plan);
  pl_digest : ∃ json, json_to_vec (sp_manifest plan) = Ok json ∧
    sp_manifest_sha256 plan = Some (sha256 json);
  pl_chunks : chunk_manifest request_id (sp_manifest plan) = Ok (sp_manifest_chunks plan) ∧
    encoded_manifest_bytes (sp_manifest_chunks plan) = Ok (sp_manifest_encoded_bytes plan);
}.

Lemma encode_manifest_Ok request_id manifest chunks encoded :
  encode_manifest request_id manifest = Ok (chunks, encoded) →
  chunk_manifest request_id manifest = Ok chunks ∧ encoded_manifest_bytes chunks = Ok encoded.
Proof.
  unfold encode_manifest. intros (c & Hc%map_err_Ok & H)%bind_Ok.
  apply bind_Ok in H as (n & Hn%map_err_Ok & H). by injection H as <- <-.
Qed.
Lemma manifest_digest_Ok manifest digest :
  manifest_digest manifest = Ok digest → ∃ json, json_to_vec manifest = Ok json ∧ Some digest = Some (sha256 json).
Proof.
  unfold manifest_digest. intros (json & Hjson%map_err_Ok & H)%bind_Ok. exists json.
  by injection H as <-.
Qed.

Lemma build_file_plan_Ok record root_name total_bytes path commitment request_id n plan n' :
  src_descriptor record = Descriptor_File root_name total_bytes →
  build_file_plan (src_descriptor record) root_name total_bytes path commitment request_id n
    = (Ok plan, n') →
  plan_ok request_id record plan.
Proof.
  intros Hdesc Hrun. unfold build_file_plan in Hrun.
  apply st_bind_Ok in Hrun as (metadata & n1 & Hmd & Hrun).
  apply (source_metadata_Ok typed) in Hmd.
  apply st_bind_Ok in Hrun as ([] & n2 & _ & Hrun).
  apply st_bind_Ok in Hrun as ([] & n3 & Hlen & Hrun). apply st_lift_Ok in Hlen as [Hlen _].
  apply refuse_if_Ok, orb_false_iff in Hlen as [Hlen Hmax].
  apply negb_false_iff, Z.eqb_eq in Hlen. apply Z.ltb_ge in Hmax.
  do 3 apply st_bind_Ok in Hrun as (? & ? & _ & Hrun).
  apply st_bind_Ok in Hrun as ([chunks encoded] & n5 & Henc & Hrun).
  apply st_lift_Ok in Henc as [Henc%encode_manifest_Ok _].
  apply st_bind_Ok in Hrun as (digest & n6 & Hdig & Hrun).
  apply st_lift_Ok in Hdig as [Hdig%manifest_digest_Ok _]. apply st_ret_Ok in Hrun as [-> _].
  split; cbn [sp_descriptor sp_manifest sp_total_bytes sp_files sp_manifest_sha256
    sp_manifest_chunks sp_manifest_encoded_bytes]; try done.
  - by rewrite Hdesc.
  - rewrite Hdesc. by eexists.
  - apply Forall_singleton. unfold entry_sized, entry_typed. simpl. subst total_bytes.
    split; [done|]. unfold V2_MAX_FILE_BYTES. lia.
  - apply Forall_singleton. split; [done|]. simpl. subst total_bytes. unfold V2_MAX_FILE_BYTES. lia.
  - intros lower _ _. apply Forall_singleton. done.
  - unfold sum_with, file_size. simpl. lia.
  - unfold MAX_OFFER_FILE_BYTES, MAX_OFFER_TRANSFER_BYTES in *. lia.
Qed.

Lemma build_folder_plan_Ok record root_name total_bytes entry_count file_count directory_count
    path commitment request_id n plan n' :
  src_descriptor record = Descriptor_Folder root_name total_bytes entry_count file_count directory_count →
  build_folder_plan (src_descriptor record) root_name total_bytes entry_count file_count
    directory_count path commitment request_id n = (Ok plan, n') →
  plan_ok request_id record plan.
Proof.
  intros Hdesc Hrun. unfold build_folder_plan in Hrun.
  do 3 apply st_bind_Ok in Hrun as (? & ? & _ & Hrun).
  apply st_bind_Ok in Hrun as (w & n2 & Hwalk & Hrun).
  apply (walk_folder_grown typed) in Hwalk as [es [[M Sz T C F D L] E]]. simpl in M, T, C, F, D, L.
  apply st_bind_Ok in Hrun as ([] & n3 & Hcheck & Hrun). apply st_lift_Ok in Hcheck as [Hcheck _].
  apply refuse_if_Ok in Hcheck. rewrite !orb_false_iff, !negb_false_iff, !Z.eqb_eq, !Z.ltb_ge in Hcheck.
  destruct Hcheck as (((((Ht & Hc) & Hf) & Hd) & Hlt) & Hlc).
  apply st_bind_Ok in Hrun as ([] & n4 & _ & Hrun).
  apply st_bind_Ok in Hrun as ([chunks encoded] & n5 & Henc & Hrun).
  apply st_lift_Ok in Henc as [Henc%encode_manifest_Ok _].
  apply st_bind_Ok in Hrun as ([] & n6 & _ & Hrun).
  apply st_bind_Ok in Hrun as (digest & n7 & Hdig & Hrun).
  apply st_lift_Ok in Hdig as [Hdig%manifest_digest_Ok _]. apply st_ret_Ok in Hrun as [-> _].
  split; cbn [sp_descriptor sp_manifest sp_total_bytes sp_files sp_manifest_sha256
    sp_manifest_chunks sp_manifest_encoded_bytes]; rewrite ?M in *; try done.
  - by rewrite Hdesc.
  - rewrite Hdesc. simpl. split_and!; lia.
  - apply Forall_forall. intros e He. rewrite Forall_forall in E, Sz.
    eapply entry_under_ok; [by apply E|by apply Sz].
  - intros lower laws Hnd. by apply listed_tree_ok.
  - lia.
  - lia.
  - lia.
Qed.

Lemma build_source_plan_Ok record request_id n plan n' :
  build_source_plan record request_id n = (Ok plan, n') → sp_text plan = None →
  plan_ok request_id record plan.
Proof.
  unfold build_source_plan. intros Hrun Htext.
  destruct (src_descriptor record) eqn:Hdesc, (src_source record);
    try (by apply st_err_Ok in Hrun); rewrite <- Hdesc in Hrun.
  - apply st_ret_Ok in Hrun as [-> _]. done.
  - by eapply build_file_plan_Ok.
  - by eapply build_folder_plan_Ok.
Qed.

(** The plan of the receiver when it has read what [send_manifest] writes. *)
Definition received_plan (header : FetchHeader) request plan : ReceivePlan :=
  mkReceivePlan (header_kind header) (header_total_bytes header) (header_file_count header)
    (sp_manifest plan)
    (if bool_decide (sp_manifest plan = []) then None else Some (plan_end request plan))
    (sp_manifest_encoded_bytes plan) (fh_manifest_sha256 header) None [].

Lemma plan_files_count request_id record plan :
  plan_ok request_id record plan → zlen (sp_files plan) = zlen (files_of (sp_manifest plan)).
Proof.
  intros Hp. rewrite <- (length_file_list 0), <- (pl_files _ _ _ Hp). unfold zlen. by rewrite length_map.
Qed.
End accepted.

(** C32: sender and receiver agree about manifests.  Every plan the sender can build for a file
    or a folder, on whatever the source's filesystem shows it, has a header the receiver of
    this offer accepts; and the receiver accepts the manifest exactly if it is not empty and no
    two of its paths coincide when case is ignored.  So an empty folder, which can be offered
    and whose plan the sender builds, is refused by every receiver: the sender leaves out the
    end of an empty manifest, and the receiver insists on it. *)
Theorem sent_manifest_accepted {views : Views} {sha : Sha256} {message_json : Json V2Message}
    {entries_json : Json (list ManifestEntry)} {lower : Lowercase} {laws : LowercaseLaws}
    request record card activation n plan n' :
  lengths_typed → (∀ data, zlen (sha256 data) = 32) →
  build_source_plan record (fr_request_id request) n = (Ok plan, n') → sp_text plan = None →
  fa_request_id activation = fr_request_id request → fa_offer_id activation = fr_offer_id request →
  card_descriptor card = src_descriptor record →
  let header := plan_header request plan in
  is_ok (validate_header header card activation) = true ∧
  (validate_manifest header (card_descriptor card) (received_plan header request plan) = Ok () ↔
   sp_manifest plan ≠ [] ∧ NoDup (map folded (sp_manifest plan))).
Proof.
  intros Htyped Hsha Hbuild Htext Hid Hoffer Hcard header.
  pose proof (build_source_plan_Ok Htyped _ _ _ _ _ Hbuild Htext) as Hp.
  pose proof (plan_files_count _ _ _ Hp) as Hfiles.
  destruct Hp as [Hdesc Hnot Hdescribed Hsized Hentries Htree Hcount Htotal Hlimit _ (json & Hjson & Hdig) _].
  pose proof (zlen_nonneg (sp_manifest plan)) as Hpos.
  unfold MAX_OFFER_MANIFEST_ENTRIES in Hcount.
  assert (try_from U32_MAX (zlen (sp_manifest plan)) = Some (zlen (sp_manifest plan))) as Hlen
    by (apply try_from_Some; unfold U32_MAX; lia).
  assert (Forall entry_typed (sp_manifest plan)) as Hety
    by (eapply Forall_impl; [exact Hsized|]; by intros e [? _]).
  split.
  - unfold validate_header, header, plan_header. cbn [fh_request_id fh_offer_id fh_descriptor
      fh_manifest_entries fh_manifest_encoded_bytes fh_text_sha256 fh_manifest_sha256].
    rewrite Hid, Hoffer, Hcard, Hdesc, Hnot, Htext, Hdig.
    rewrite !(bool_decide_true (_ = _)) by done. cbn. by rewrite Hsha.
  - assert (is_u32 (fh_manifest_entries header)) as Hu32.
    { unfold header, plan_header. cbn [fh_manifest_entries]. rewrite Hlen. unfold is_u32, U32_MAX. simpl. lia. }
    rewrite validate_manifest_run; [|exact Hety|exact Hu32]. split.
    + intros [_ _ Hnd _ _ _ Hdigest]. split; [|exact Hnd]. intros Hnil.
      unfold digest_ok, header, plan_header, received_plan in Hdigest.
      cbn [fh_manifest_sha256 rp_manifest_end] in Hdigest. rewrite Hdig in Hdigest.
      destruct Hdigest as (? & ? & _ & _ & Hend & _). by rewrite bool_decide_true in Hend.
    + intros [Hne Hnd]. split; unfold received_plan, header, plan_header;
        cbn [rp_entries fh_manifest_entries fh_manifest_sha256].
      * by rewrite Hlen.
      * done.
      * exact Hnd.
      * by apply Htree.
      * rewrite <- Htotal. exact Hlimit.
      * by rewrite Hcard.
      * unfold digest_ok. cbn [fh_manifest_sha256 rp_entries rp_manifest_end]. rewrite Hdig.
        exists json, (plan_end request plan). rewrite bool_decide_false by done.
        unfold plan_end. cbn [mend_entry_count mend_file_count mend_total_bytes mend_manifest_sha256].
        rewrite Hlen, Hdig, Hfiles, Htotal. simpl. split_and!; try done.
        rewrite (proj2 (try_from_Some _ _ (zlen (files_of (sp_manifest plan))))); [done|].
        pose proof (filter_sizes (sp_manifest plan)).
        pose proof (zlen_nonneg (directories_of (sp_manifest plan))).
        pose proof (zlen_nonneg (files_of (sp_manifest plan))). unfold U32_MAX. lia.
Qed.

(** ** The redb store keeps the promise *)

Section redb_store.
Context {FS : Type} `{!StagingFs FS} `{!RedbIter} `{!RedbIterLaws}.
Context `{!UuidText}.
Context `{!Json OfferSourceRecord} `{!Json OfferCardRecord}.
Context `{!Json ActivationJournalEntry} `{!Json ClipboardCacheRecord}.
Context `{!JsonLaws OfferSourceRecord} `{!JsonLaws OfferCardRecord}.
Context `{!JsonLaws ActivationJournalEntry} `{!JsonLaws ClipboardCacheRecord}.
Implicit Types (w : World FS).

(** [impl OfferSourceStore for RedbV2Store] *)
#[export] Instance redb_offer_source_store : OfferSourceStore (World FS) := {|
  oss_insert_offer_source := insert_offer_source;
  oss_remove_explicit_refusal := remove_explicit_refusal;
  oss_get_offer_source := get_offer_source;
|}.

Lemma redb_get_source_spec w id r w' :
  get_offer_source id w = (r, w') →
  w_db w' = w_db w ∧ ∀ record, r = Ok record → record = sources_of (w_db w) !! source_key id.
Proof.
  intros Hrun.
  assert (keeps db_same (get_offer_source (FS := FS) id)) as Hk by apply keeps_get_opt.
  specialize (Hk w). rewrite Hrun in Hk. unfold db_same, same_on in Hk. simpl in Hk.
  split; [done|]. intros record ->. unfold get_offer_source, with_read in Hrun. inv_db. subst.
  match goal with H : decode_opt _ = _ |- _ =>
    apply decode_opt_Ok in H as [[Hnone ->]|(b & rec & Hsome & Hrec & ->)] end; symmetry.
  - apply eq_None_not_Some. intros [rec (b & Hb & _)%lookup_view]. simpl in Hnone. congruence.
  - apply lookup_view. eauto.
Qed.

#[export, refine] Instance redb_offer_source_store_spec : OfferSourceStoreSpec (World FS) := {|
  oss_source w id := sources_of (w_db w) !! source_key id;
  oss_ok w := store_inv (w_db w);
|}.
Proof.
  intros w id r w' Hok Hrun. apply redb_get_source_spec in Hrun as [Hdb Hr]. by rewrite Hdb.
Defined.
End redb_store.
