(* ===== verification/SenderStream.v ===== *)
(** * What the sender has written

    The byte stream of a transfer and what a run of [Sender] adds to it, on every network and
    every source: when the sender returns, either the whole payload is out, file by file between
    its two frames and followed by the counts and digests, or a prefix of it that ends within a
    file or with an abort. *)

From S2P Require Import Prelude RustStr StdIo Utf8 Offer Records Protocol OfferStore Activation Filesystem Connection Manifest Source Sender.
From Stdlib Require Import Strings.Byte.

(** ** The stream *)

Section wire.
Context {sha : Sha256} {message_json : Json V2Message}.
Implicit Types (id : ActivationId) (file : LiveFile) (data : bytes).

(** A control frame; no bytes if it cannot be encoded. *)
Definition wire (message : V2Message) : bytes := default [] (result_ok (encode_v2_frame message)).
Definition sendable (message : V2Message) : Prop := encode_v2_frame message = Ok (wire message).

Definition start_of id file : V2Message :=
  Msg_FileStart (mkFileStart id (lf_entry_index file) (lf_byte_len file)).
Definition end_of id file data : V2Message :=
  Msg_FileEnd (mkFileEnd id (lf_entry_index file) (sha256 data)).
Definition file_wire id file data : bytes := wire (start_of id file) ++ data ++ wire (end_of id file data).
Definition files_wire id (files : list LiveFile) (contents : list bytes) : bytes :=
  concat (zip_with (file_wire id) files contents).

(** The counters after some files. *)
Definition sent_files (files : list LiveFile) (contents : list bytes) (sent : Sent) : Sent :=
  foldl (λ sent fc, sent_file fc.1 (sha256 fc.2) sent) sent (zip files contents).
Definition complete_of id (sent : Sent) : V2Message :=
  Msg_FetchComplete (mkFetchComplete id (sn_files sent) (sn_bytes sent) (sha256 (sn_content_set sent))).
End wire.

(** The text and the two frames after it. *)
Definition text_end_of {sha : Sha256} (id : ActivationId) (text : rstr) : V2Message :=
  Msg_TextEnd (mkTextEnd id (sha256 (as_bytes text))).
Definition text_complete_of {sha : Sha256} (id : ActivationId) (text : rstr) : V2Message :=
  Msg_FetchComplete (mkFetchComplete id 0 (default U64_MAX (try_from U64_MAX (str_len text)))
    (sha256 (as_bytes text))).
Definition text_wire {sha : Sha256} {message_json : Json V2Message} (id : ActivationId) (text : rstr)
    : bytes :=
  as_bytes text ++ wire (text_end_of id text) ++ wire (text_complete_of id text).

(** ** What the sender writes *)

Section sending.
Context {views : Views} {sha : Sha256} {message_json : Json V2Message}.
Context {entries_json : Json (list ManifestEntry)}.
Context {S : Type}.
Implicit Types (s : Session (Origin S)) (file : LiveFile).
Notation TxM := (St (Session (Origin S))).

(** The step added [b] to what was written, and time did not run backwards. *)
Definition wrote (b : bytes) s s' : Prop :=
  cn_out (ss_conn s') = cn_out (ss_conn s) ++ b ∧
  (or_calls (ss_services s) ≤ or_calls (ss_services s'))%nat.

Lemma wrote_nil s : wrote [] s s.
Proof. split; [by rewrite app_nil_r|done]. Qed.
Lemma wrote_app b1 b2 s s1 s' : wrote b1 s s1 → wrote b2 s1 s' → wrote (b1 ++ b2) s s'.
Proof. intros [H1 C1] [H2 C2]. split; [by rewrite H2, H1, app_assoc|lia]. Qed.

Definition forward {T} (m : Obs FileStreamFailure T) : Prop := ∀ n, (n ≤ (m n).2)%nat.
Lemma on_source_wrote {E T} (m : Obs E T) s r s' :
  (∀ n, (n ≤ (m n).2)%nat) → on_source (S := S) m s = (r, s') →
  wrote [] s s' ∧ ∃ n, m (or_calls (ss_services s)) = (r, n) ∧ n = or_calls (ss_services s').
Proof.
  intros Hm. unfold on_source. specialize (Hm (or_calls (ss_services s))).
  destruct (m _) as [r1 n]. intros [= <- <-]. simpl in *. split; [|by eexists].
  split; [by rewrite app_nil_r|done].
Qed.

Lemma frame_wrote operation message s s' :
  on_conn (S := Origin S) (io_write (encode_v2_frame message) operation) s = (Ok (), s') →
  wrote (wire message) s s' ∧ sendable message.
Proof.
  unfold sendable. intros Hrun. apply on_conn_run in Hrun as [Hs Hrun].
  apply io_write_run in Hrun as [_ (b & Hb & Hout)]. unfold wrote, wire. rewrite Hb, Hout, Hs. done.
Qed.
Lemma control_wrote message s s' :
  write_control (S := S) message s = (Ok (), s') →
  wrote (wire message) s s' ∧ sendable message.
Proof. apply frame_wrote. Qed.

Lemma payload_wrote operation data s s' :
  on_conn (S := Origin S) (write_payload operation data) s = (Ok (), s') → wrote data s s'.
Proof.
  intros Hrun. apply on_conn_run in Hrun as [Hs Hrun]. unfold wrote. rewrite Hs. split; [|done].
  unfold write_payload, next_fault in Hrun.
  destruct (cn_schedule (ss_conn s)) as [|[| |] rest]; try discriminate Hrun;
    injection Hrun as <-; done.
Qed.

Lemma st_map_err_run {E E' T} (f : E → E') (m : TxM E T) s r s' :
  st_map_err f m s = (r, s') → ∃ o, m s = (o, s') ∧ r = map_err f o.
Proof. apply st_map_err_inv. Qed.

(** The observations of the sender count forward. *)
Lemma forward_observe {E T} (f : SourceView → result E T) n : (n ≤ (observe f n).2)%nat.
Proof. unfold observe. simpl. lia. Qed.

(** Time within an observation: [keeps] of the order on counts. *)
Lemma forward_keeps {E T} (m : Obs E T) n : keeps le m → (n ≤ (m n).2)%nat.
Proof. intros H. apply H. Qed.
Lemma keeps_observe {E T} (f : SourceView → result E T) : keeps le (observe f).
Proof. intros n. unfold observe. simpl. lia. Qed.
#[local] Hint Resolve keeps_observe : keeps.
Lemma keeps_verify_path file : keeps le (verify_path_metadata file).
Proof.
  unfold verify_path_metadata, source_metadata. apply keeps_bind; [typeclasses eauto| |].
  - apply keeps_map_err, keeps_observe.
  - intros metadata. apply keeps_lift; typeclasses eauto.
Qed.
#[local] Hint Resolve keeps_verify_path : keeps.
Lemma keeps_open_verify file : keeps le (open_and_verify_file file).
Proof. unfold open_and_verify_file. keeps_tac. Qed.

(** Reads of the open file deliver pieces of [content], which need not be whole. *)
Definition reads_as (v : SourceView) (source : nat) (content : bytes) : Prop :=
  ∀ position wanted got, sv_file_read v source position wanted = Ok got →
    take wanted got `prefix_of` drop (Z.to_nat position) content.
(** As long as a file reads as one content, the calls from [n] to [n'] delivered its bytes. *)
Definition delivered (n n' source : nat) (position : Z) (data : bytes) : Prop :=
  ∀ content, (∀ k, (n ≤ k < n')%nat → reads_as (view_at k) source content) →
    data `prefix_of` drop (Z.to_nat position) content.

Lemma delivered_cons n n' source position wanted got more :
  sv_file_read (view_at n) source position wanted = Ok got → 0 ≤ position → (Datatypes.S n ≤ n')%nat →
  delivered (Datatypes.S n) n' source (position + zlen (take wanted got)) more →
  delivered n n' source position (take wanted got ++ more).
Proof.
  intros Hread Hpos Hn Hmore content Hall.
  pose proof (Hall n ltac:(lia) _ _ _ Hread) as [rest Hrest].
  destruct (Hmore content) as [last Hlast]; [intros k Hk; apply Hall; lia|].
  exists last. rewrite Hrest, <- app_assoc. f_equal. rewrite <- Hlast.
  rewrite Z2Nat.inj_add, <- drop_drop, Hrest by (try apply zlen_nonneg; done).
  unfold zlen. by rewrite Nat2Z.id, drop_app_length.
Qed.

(** The bytes of a file: all of them, or what was sent when the source failed. *)
Lemma stream_bytes_wrote tries source position remaining hashed s r s' :
  0 ≤ position → stream_bytes tries source position remaining hashed s = (r, s') →
  match r with
  | Ok all => ∃ data, all = hashed ++ data ∧ zlen data = Z.max 0 remaining ∧ wrote data s s' ∧
      delivered (or_calls (ss_services s)) (or_calls (ss_services s')) source position data
  | Err FS_MidStream => ∃ data, zlen data ≤ Z.max 0 remaining ∧ wrote data s s'
  | Err (FS_Io _) => True
  | Err _ => False
  end.
Proof.
  revert position remaining hashed s. induction tries as [|tries IH];
    intros position remaining hashed s Hpos Hrun; cbn [stream_bytes] in Hrun;
    destruct (Z.leb_spec remaining 0) as [Hdone|Hmore].
  1, 3: injection Hrun as <- <-; exists []; rewrite app_nil_r, zlen_nil;
    split_and!; [done|lia|apply wrote_nil|intros content _; apply prefix_nil].
  - injection Hrun as <- <-. exists []. rewrite zlen_nil. split; [lia|apply wrote_nil].
  - apply st_bind_inv in Hrun as [(e & Hread & ->)|(read & s1 & Hread & Hrun)];
      apply on_source_wrote in Hread as [Hw1 (n & Hobs & Hn)]; try apply forward_observe.
    { unfold observe in Hobs. injection Hobs as Hobs _. apply map_err_Err in Hobs as (? & _ & ->).
      exists []. rewrite zlen_nil. split; [lia|exact Hw1]. }
    unfold observe in Hobs. injection Hobs as Hobs Hcalls. apply map_err_Ok in Hobs.
    set (data := take (Z.to_nat (Z.min remaining V2_STREAM_BUFFER_BYTES)) read) in *.
    assert (zlen data ≤ remaining) as Hlen.
    { unfold data, zlen. rewrite length_take. unfold V2_STREAM_BUFFER_BYTES. lia. }
    case_bool_decide as Hempty.
    { injection Hrun as <- <-. exists []. rewrite zlen_nil. split; [lia|exact Hw1]. }
    apply st_bind_inv in Hrun as [(e & Hsend & ->)|([] & s2 & Hsend & Hrun)];
      apply st_map_err_run in Hsend as (o & Hsend & Ho).
    { symmetry in Ho. by apply map_err_Err in Ho as (? & _ & ->). }
    symmetry in Ho. apply map_err_Ok in Ho as ->. apply payload_wrote in Hsend.
    pose proof (wrote_app _ _ _ _ _ Hw1 Hsend) as Hw2. simpl in Hw2.
    apply IH in Hrun; [|pose proof (zlen_nonneg data); lia].
    unfold saturating_sub in Hrun. destruct r as [all|[]]; try done.
    + destruct Hrun as (more & -> & Hmore' & Hw3 & Hdel). exists (data ++ more).
      rewrite app_assoc, zlen_app. split_and!; [done|lia|by eapply wrote_app|].
      destruct Hsend as [_ Hc2], Hw3 as [_ Hc3]. apply delivered_cons; [exact Hobs|done|lia|].
      intros content Hall. apply Hdel. intros k Hk. apply Hall. lia.
    + destruct Hrun as (more & Hmore' & Hw3). exists (data ++ more).
      rewrite zlen_app. split; [lia|]. by eapply wrote_app.
Qed.

Lemma concat_chunks_of tries size data :
  (0 < size)%nat → (length data ≤ tries)%nat → concat (chunks_of tries size data) = data.
Proof.
  intros Hs. revert data. induction tries as [|tries IH]; intros data Hl.
  { destruct data; [done|simpl in Hl; lia]. }
  destruct data as [|b data]; [done|]. cbn [chunks_of concat].
  rewrite IH; [apply take_drop|]. rewrite length_drop. simpl in *. lia.
Qed.
Lemma concat_chunks data : concat (chunks (Z.to_nat V2_STREAM_BUFFER_BYTES) data) = data.
Proof. apply concat_chunks_of; [unfold V2_STREAM_BUFFER_BYTES; lia|done]. Qed.

Lemma pieces_wrote operation pieces s s' :
  st_for pieces (λ piece, on_conn (S := Origin S) (write_payload operation piece)) s = (Ok (), s') →
  wrote (concat pieces) s s'.
Proof.
  revert s. induction pieces as [|piece pieces IH]; intros s Hrun; cbn [st_for] in Hrun.
  - apply st_ret_Ok in Hrun as [_ ->]. apply wrote_nil.
  - apply st_bind_Ok in Hrun as ([] & s1 & H1 & Hrun). apply payload_wrote in H1.
    apply IH in Hrun. by eapply wrote_app.
Qed.

(** A text goes out whole, whatever the pieces. *)
Lemma stream_text_wrote id text s s' :
  stream_text id text s = (Ok (), s') →
  wrote (text_wire id text) s s' ∧
  encode_v2_frame (text_end_of id text) = Ok (wire (text_end_of id text)) ∧
  encode_v2_frame (text_complete_of id text) = Ok (wire (text_complete_of id text)).
Proof.
  intros Hrun. unfold stream_text in Hrun. cbv zeta in Hrun.
  apply st_bind_Ok in Hrun as ([] & s1 & Hp & Hrun). apply pieces_wrote in Hp.
  rewrite concat_chunks in Hp, Hrun. rewrite length_as_bytes in Hrun.
  apply st_bind_Ok in Hrun as ([] & s2 & Hend & Hrun). apply control_wrote in Hend as [Hw2 He2].
  apply control_wrote in Hrun as [Hw3 He3]. split; [|by split].
  unfold text_wire. eapply wrote_app; [exact Hp|]. by eapply wrote_app.
Qed.

(** A file that was cut off: nothing of it, or its first frame and some of its bytes. *)
Definition cut_file id file (tail : bytes) : Prop :=
  tail = [] ∨ ∃ data, zlen data ≤ Z.max 0 (lf_byte_len file) ∧ sendable (start_of id file) ∧
    tail = wire (start_of id file) ++ data.
(** The bytes come from one opening of the file, between the calls [n] and [n']. *)
Definition read_from (n n' : nat) file data : Prop :=
  ∃ k source, (n ≤ k < n')%nat ∧ sv_open (view_at k) (lf_path file) = Ok source ∧
    delivered n n' source 0 data.
(** A file that was sent in full. *)
Record sent_as id (n n' : nat) file data : Prop := {
  sa_length : zlen data = Z.max 0 (lf_byte_len file);
  sa_read : read_from n n' file data;
  sa_start : sendable (start_of id file);
  sa_end : sendable (end_of id file data);
}.
Definition calls s : nat := or_calls (ss_services s).
Definition whole_file id file (digest data : bytes) s s' : Prop :=
  digest = sha256 data ∧ sent_as id (calls s) (calls s') file data ∧ wrote (file_wire id file data) s s'.

Lemma sent_as_widen id n n' m m' file data :
  sent_as id n n' file data → (m ≤ n)%nat → (n' ≤ m')%nat → sent_as id m m' file data.
Proof.
  intros [Hl (k & source & Hk & Hopen & Hdel) Hs He] Hm Hm'. split; [done| |done..].
  exists k, source. split_and!; [lia|lia|done|]. intros content Hall. apply Hdel.
  intros j Hj. apply Hall. lia.
Qed.

Lemma verify_path_wrote file s o s' :
  on_source (S := S) (verify_path_metadata file) s = (o, s') →
  wrote [] s s' ∧ ∀ e, o = Err e → e = FS_Unavailable ∨ e = FS_Changed.
Proof.
  intros Hrun. apply on_source_wrote in Hrun as [Hw (n & Hobs & _)];
    [|intros; apply forward_keeps, keeps_verify_path].
  split; [exact Hw|]. intros e ->. unfold verify_path_metadata in Hobs.
  apply st_bind_Err in Hobs as [Hobs|(metadata & n1 & _ & Hobs)].
  - apply st_map_err_inv in Hobs as (o & Hobs & Ho). symmetry in Ho.
    apply map_err_Err in Ho as (e' & -> & ->). destruct e'; auto.
  - unfold st_lift in Hobs. injection Hobs as Hobs _. right. unfold same_metadata in Hobs.
    apply bind_Err in Hobs as [Hobs|(digest & _ & Hobs)].
    + by apply map_err_Err in Hobs as (? & _ & ->).
    + by apply refuse_if_Err in Hobs as [_ ->].
Qed.

Lemma open_verify_wrote file s o s' :
  on_source (S := S) (open_and_verify_file file) s = (o, s') →
  wrote [] s s' ∧ (∀ e, o = Err e → e = FS_Unavailable ∨ e = FS_Changed) ∧
  ∀ source, o = Ok source → ∃ k, (calls s ≤ k < calls s')%nat ∧
    sv_open (view_at k) (lf_path file) = Ok source.
Proof.
  intros Hrun. pose proof Hrun as Hrun'. apply on_source_wrote in Hrun as [Hw (n & Hobs & Hcalls)];
    [|intros; apply forward_keeps, keeps_open_verify].
  split; [exact Hw|]. split.
  2: { intros source ->. unfold open_and_verify_file in Hobs.
       apply st_bind_Ok in Hobs as (? & n1 & H1 & Hobs).
       apply st_bind_Ok in Hobs as (h & n2 & H2 & Hobs).
       apply st_bind_Ok in Hobs as (? & n3 & H3 & Hobs).
       apply st_bind_Ok in Hobs as (? & n4 & H4 & Hobs). apply st_ret_Ok in Hobs as [-> ->].
       apply st_lift_Ok in H4 as [_ ->]. unfold observe in H2, H3. injection H2 as H2 <-.
       injection H3 as H3 <-. apply map_err_Ok in H2. exists n1. split; [|exact H2].
       unfold calls. rewrite <- Hcalls. pose proof (forward_keeps (verify_path_metadata file)
         (or_calls (ss_services s)) (keeps_verify_path file)) as Hle. rewrite H1 in Hle.
       simpl in Hle. lia. }
  clear Hobs Hcalls n. intros e ->. unfold on_source in Hrun'.
  destruct (open_and_verify_file file (or_calls (ss_services s))) as [r n] eqn:Hobs.
  injection Hrun' as -> _. unfold open_and_verify_file in Hobs.
  apply st_bind_Err in Hobs as [Hobs|(x & n1 & _ & Hobs)].
  { apply (verify_path_wrote file s (Err e)
      (mkSession (ss_conn s) (mkOrigin (or_store (ss_services s)) (or_available (ss_services s))
         (or_closed (ss_services s)) n))); [|done]. unfold on_source. by rewrite Hobs. }
  unfold observe in Hobs. apply st_bind_Err in Hobs as [Hobs|(h & n2 & _ & Hobs)].
  { injection Hobs as Hobs _. apply map_err_Err in Hobs as (? & _ & ->). by left. }
  apply st_bind_Err in Hobs as [Hobs|(md & n3 & _ & Hobs)].
  { injection Hobs as Hobs _. apply map_err_Err in Hobs as (? & _ & ->). by left. }
  apply st_bind_Err in Hobs as [Hobs|(y & n4 & _ & Hobs)]; [|done].
  unfold st_lift in Hobs. injection Hobs as Hobs _. right. unfold same_metadata in Hobs.
  apply bind_Err in Hobs as [Hobs|(digest & _ & Hobs)].
  - by apply map_err_Err in Hobs as (? & _ & ->).
  - by apply refuse_if_Err in Hobs as [_ ->].
Qed.

Lemma io_control_wrote message s o s' :
  st_map_err FS_Io (write_control (S := S) message) s = (o, s') →
  match o with
  | Ok _ => wrote (wire message) s s' ∧ sendable message
  | Err (FS_Io _) => True
  | Err _ => False
  end.
Proof.
  intros (r & Hrun & ->)%st_map_err_run. destruct r as [[]|e]; simpl; [|done].
  by apply control_wrote in Hrun.
Qed.

Lemma stream_file_wrote id file s r s' :
  stream_file id file s = (r, s') →
  match r with
  | Ok digest | Err (FS_AfterFileUnavailable digest) | Err (FS_AfterFileChanged digest) =>
      ∃ data, whole_file id file digest data s s'
  | Err FS_Unavailable | Err FS_Changed => wrote [] s s'
  | Err FS_MidStream => ∃ tail, cut_file id file tail ∧ wrote tail s s'
  | Err (FS_Io _) => True
  end.
Proof.
  intros Hrun. unfold stream_file in Hrun.
  apply st_bind_inv in Hrun as [(e & Hopen & ->)|(source & s1 & Hopen & Hrun)];
    apply open_verify_wrote in Hopen as (Hw1 & He & Hsource).
  { destruct (He e eq_refl) as [->| ->]; exact Hw1. }
  destruct (Hsource source eq_refl) as (k & Hk & Hview). clear He Hsource.
  apply st_bind_inv in Hrun as [(e & Hstart & ->)|([] & s2 & Hstart & Hrun)];
    apply io_control_wrote in Hstart; [by destruct e|]. destruct Hstart as [Hw2 Henc1].
  pose proof (wrote_app _ _ _ _ _ Hw1 Hw2) as Hw. simpl in Hw.
  apply st_bind_inv in Hrun as [(e & Hbytes & ->)|(data & s3 & Hbytes & Hrun)];
    apply stream_bytes_wrote in Hbytes; try done.
  { destruct e; try done. destruct Hbytes as (data & Hlen & Hw3). exists (wire (start_of id file) ++ data).
    split; [right; by eexists|]. by eapply wrote_app. }
  destruct Hbytes as (data' & Hd & Hlen & Hw3 & Hdel). simpl in Hd. subst data'.
  pose proof (wrote_app _ _ _ _ _ Hw Hw3) as Hw4.
  assert (∀ s', wrote [] s3 s' → ∃ tail, cut_file id file tail ∧ wrote tail s s') as Hcut.
  { intros s4 Hw5. exists (wire (start_of id file) ++ data). split.
    - right. exists data. split_and!; [lia|done..].
    - rewrite <- (app_nil_r (wire _ ++ data)). by eapply wrote_app. }
  apply st_bind_inv in Hrun as [(e & Hmd & ->)|(metadata & s4 & Hmd & Hrun)];
    apply on_source_wrote in Hmd as [Hw5 (n & Hobs & _)]; try apply forward_observe.
  { unfold observe in Hobs. injection Hobs as Hobs _. apply map_err_Err in Hobs as (? & _ & ->).
    by apply Hcut. }
  apply st_bind_inv in Hrun as [(e & Hsame & ->)|([] & s5 & Hsame & Hrun)];
    unfold st_lift in Hsame; injection Hsame as Hsame <-.
  { assert (e = FS_MidStream) as ->; [|by apply Hcut].
    unfold same_metadata in Hsame. apply bind_Err in Hsame as [Hsame|(digest & _ & Hsame)].
    - by apply map_err_Err in Hsame as (? & _ & ->).
    - by apply refuse_if_Err in Hsame as [_ ->]. }
  apply st_bind_inv in Hrun as [(e & Hend & ->)|([] & s6 & Hend & Hrun)];
    apply io_control_wrote in Hend; [by destruct e|]. destruct Hend as [Hw6 Henc2].
  apply st_try_inv in Hrun as (o & s7 & Hverify & Hrun).
  apply verify_path_wrote in Hverify as [Hw7 Hv].
  assert (whole_file id file (sha256 data) data s s7) as Hwhole.
  { pose proof (wrote_app _ _ _ _ _ Hw5 Hw6) as H56. pose proof (wrote_app _ _ _ _ _ H56 Hw7) as H57.
    rewrite app_nil_r in H57. split_and!; [done| |unfold file_wire; rewrite app_assoc; by eapply wrote_app].
    split; [done| |done|done]. exists k, source.
    destruct Hw as [_ Hc1], Hw3 as [_ Hc3], H57 as [_ Hc5], Hw2 as [_ Hc2]. unfold calls in *.
    split_and!; [lia|lia|done|]. intros content Hall. apply Hdel. intros j Hj. apply Hall. lia. }
  destruct o as [[]|e]; [injection Hrun as <- <-; by exists data|].
  destruct (Hv e eq_refl) as [->| ->]; injection Hrun as <- <-; by exists data.
Qed.

Lemma await_receipt_wrote id offer s receipt s' :
  await_receipt (S := S) id offer s = (Ok receipt, s') →
  wrote [] s s' ∧ rc_request_id receipt = id.
Proof.
  intros Hrun. unfold await_receipt in Hrun.
  apply st_bind_Ok in Hrun as (response & s1 & Hread & Hrun).
  apply on_conn_run in Hread as [Hs Hread]. apply io_read_run in Hread as [Hout _].
  apply st_bind_Ok in Hrun as ([] & s2 & Hnet & Hrun). unfold net in Hnet.
  apply st_lift_Ok in Hnet as [_ ->].
  destruct response; try (unfold net in Hrun; by apply st_lift_Ok in Hrun as [? _]).
  apply st_bind_Ok in Hrun as ([] & s2 & Hid & Hrun). unfold net in Hid.
  apply st_lift_Ok in Hid as [Hid ->]. apply map_err_Ok in Hid. apply st_ret_Ok in Hrun as [-> ->].
  split; [split; [by rewrite app_nil_r|by rewrite Hs]|].
  unfold validate_receipt_identity in Hid. rewrite refuse_seq_Ok in Hid.
  destruct Hid as [Hid _]. by apply negb_false_iff, bool_decide_eq_true in Hid.
Qed.

(** A transfer that ended early: within a file, or with an abort. *)
Definition cut_stream request (files : list LiveFile) (contents : list bytes) (tail : bytes) : Prop :=
  (∃ file, files !! length contents = Some file ∧ cut_file (fr_request_id request) file tail) ∨
  (∃ code files_sent bytes_sent,
     sendable (Msg_FetchAbort (mkFetchAbort (fr_request_id request) code files_sent bytes_sent None)) ∧
     tail = wire (Msg_FetchAbort (mkFetchAbort (fr_request_id request) code files_sent bytes_sent None))).
(** Each file has its content, which was read from it during the transfer. *)
Definition filled id s s' (files : list LiveFile) (contents : list bytes) : Prop :=
  Forall2 (sent_as id (calls s) (calls s')) files contents.
Lemma filled_widen id s1 s2 s s' files contents :
  filled id s1 s2 files contents → (calls s ≤ calls s1)%nat → (calls s2 ≤ calls s')%nat →
  filled id s s' files contents.
Proof. intros Hf H1 H2. eapply Forall2_impl; [exact Hf|]. intros. by eapply sent_as_widen. Qed.

Lemma abort_wrote request code sent s s' :
  abort_with (S := S) request code sent s = (Ok (), s') →
  ∃ tail, wrote tail s s' ∧ ∀ files contents, cut_stream request files contents tail.
Proof.
  intros Hrun. unfold abort_with, send_abort in Hrun.
  apply st_bind_Ok in Hrun as ([] & s1 & Hw & Hrun). apply control_wrote in Hw as [Hw Henc].
  apply st_bind_Ok in Hrun as (receipt & s2 & Hr & Hrun). apply await_receipt_wrote in Hr as [Hw2 _].
  apply st_ret_Ok in Hrun as [_ ->]. eexists. split; [exact (wrote_app _ _ _ _ _ Hw Hw2)|].
  intros files contents. right. eexists _, _, _. rewrite app_nil_r. by split.
Qed.

Definition files_outcome request files (sent : Sent) (r : option Sent) s s' : Prop :=
  match r with
  | Some sent' => ∃ contents, filled (fr_request_id request) s s' files contents ∧ sent' = sent_files files contents sent ∧
      wrote (files_wire (fr_request_id request) files contents) s s'
  | None => ∃ contents tail, (length contents ≤ length files)%nat ∧
      filled (fr_request_id request) s s' (take (length contents) files) contents ∧ cut_stream request files contents tail ∧
      wrote (files_wire (fr_request_id request) files contents ++ tail) s s'
  end.

(** One more file in front. *)
Lemma files_outcome_cons request file files sent digest data r s s1 s' :
  whole_file (fr_request_id request) file digest data s s1 →
  files_outcome request files (sent_file file digest sent) r s1 s' →
  files_outcome request (file :: files) sent r s s'.
Proof.
  intros (-> & Hsent & Hw1) Hrest. pose proof Hw1 as [_ Hc1].
  destruct r as [sent'|]; simpl in Hrest.
  - destruct Hrest as (contents & Hf & -> & Hw2). pose proof Hw2 as [_ Hc2]. exists (data :: contents).
    split_and!; [|done|by eapply wrote_app].
    constructor; [by eapply sent_as_widen|by eapply filled_widen].
  - destruct Hrest as (contents & tail & Hl & Hf & Hcut & Hw2). pose proof Hw2 as [_ Hc2].
    exists (data :: contents), tail. split_and!; [simpl; lia| |done|].
    { constructor; [by eapply sent_as_widen|by eapply filled_widen]. }
    unfold files_wire. cbn [zip_with concat]. rewrite <- app_assoc. by eapply wrote_app.
Qed.

Lemma stream_files_wrote request files sent s r s' :
  stream_files request files sent s = (Ok r, s') → files_outcome request files sent r s s'.
Proof.
  revert sent s. induction files as [|file files IH]; intros sent s Hrun; cbn [stream_files] in Hrun.
  { apply st_ret_Ok in Hrun as [-> ->]. exists []. split_and!; [constructor|done|apply wrote_nil]. }
  apply st_try_inv in Hrun as (o & s1 & Hfile & Hrun). apply stream_file_wrote in Hfile.
  assert (∀ digest data, whole_file (fr_request_id request) file digest data s s1 → ∀ code,
    (abort_with request code (sent_file file digest sent);; mret None) s1 = (Ok r, s') →
    files_outcome request (file :: files) sent r s s') as Hafter.
  { intros digest data Hwhole code Hr. apply st_bind_Ok in Hr as ([] & s2 & Ha & Hr).
    apply st_ret_Ok in Hr as [-> ->]. apply abort_wrote in Ha as (tail & Hw & Hcut).
    eapply files_outcome_cons; [exact Hwhole|]. exists [], tail.
    split_and!; [simpl; lia|constructor|apply Hcut|]. by destruct files. }
  assert (wrote [] s s1 → ∀ code, (abort_with request code sent;; mret None) s1 = (Ok r, s') →
    files_outcome request (file :: files) sent r s s') as Hbefore.
  { intros Hw1 code Hr. apply st_bind_Ok in Hr as ([] & s2 & Ha & Hr).
    apply st_ret_Ok in Hr as [-> ->]. apply abort_wrote in Ha as (tail & Hw & Hcut).
    exists [], tail. split_and!; [simpl; lia|constructor|apply Hcut|].
    by apply (wrote_app [] tail _ s1). }
  destruct o as [digest|[| | |digest|digest|e]].
  - destruct Hfile as [data Hwhole]. apply IH in Hrun. by eapply files_outcome_cons.
  - by eapply Hbefore.
  - by eapply Hbefore.
  - destruct Hfile as (tail & Hcut & Hw). apply st_ret_Ok in Hrun as [-> ->].
    exists [], tail. split_and!; [simpl; lia|constructor|left; by exists file|done].
  - destruct Hfile as [data Hwhole]. by eapply Hafter.
  - destruct Hfile as [data Hwhole]. by eapply Hafter.
  - by apply st_err_Ok in Hrun.
Qed.

(** The plan was built again at a later call and found to be the same. *)
Definition rebuilt request record plan s : Prop :=
  ∃ n current n', (or_calls (ss_services s) ≤ n)%nat ∧
    build_source_plan record (fr_request_id request) n = (Ok current, n') ∧
    same_source current plan = true.

Lemma keeps_source_metadata path : keeps le (source_metadata path).
Proof. apply keeps_observe. Qed.
#[local] Hint Resolve keeps_source_metadata : keeps.
Lemma keeps_children {E} (failed : IoError → E) directory : keeps le (children failed directory).
Proof. unfold children. keeps_tac. Qed.
#[local] Hint Resolve keeps_children : keeps.

Lemma keeps_walk_entry descend directory rel w child :
  (∀ path rel w, keeps le (descend path rel w)) →
  keeps le (walk_folder_entry descend directory rel w child).
Proof. intros Hd. unfold walk_folder_entry. keeps_tac. Qed.
Lemma keeps_walk_entries descend directory rel names w :
  (∀ path rel w, keeps le (descend path rel w)) →
  keeps le (walk_folder_entries descend directory rel names w).
Proof.
  intros Hd. revert w. induction names as [|child names IH]; intros w; cbn [walk_folder_entries].
  - keeps_tac.
  - apply keeps_bind; [typeclasses eauto|by apply keeps_walk_entry|done].
Qed.
Lemma keeps_walk fuel directory rel w : keeps le (walk_folder fuel directory rel w).
Proof.
  revert directory rel w. induction fuel as [|fuel IH]; intros directory rel w; cbn [walk_folder].
  - keeps_tac.
  - apply keeps_bind; [typeclasses eauto|apply keeps_children|]. intros names.
    by apply keeps_walk_entries.
Qed.
#[local] Hint Resolve keeps_walk : keeps.
Lemma keeps_build record id : keeps le (build_source_plan record id).
Proof.
  unfold build_source_plan, build_file_plan, build_folder_plan.
  destruct (src_descriptor record), (src_source record); keeps_tac.
Qed.

Lemma recheck_wrote request record plan sent same s s' :
  recheck (S := S) request record plan sent s = (Ok same, s') →
  if same : bool then wrote [] s s' ∧ rebuilt request record plan s
  else ∃ tail, wrote tail s s' ∧ ∀ files contents, cut_stream request files contents tail.
Proof.
  intros Hrun. unfold recheck in Hrun. apply st_try_inv in Hrun as (o & s1 & Hbuild & Hrun).
  apply on_source_wrote in Hbuild as [Hw (n & Hobs & _)];
    [|intros; apply forward_keeps, keeps_build].
  assert (∀ code, (abort_with request code sent;; mret false) s1 = (Ok same, s') →
    if same then wrote [] s s' ∧ rebuilt request record plan s
    else ∃ tail, wrote tail s s' ∧ ∀ files contents, cut_stream request files contents tail) as Habort.
  { intros code Hr. apply st_bind_Ok in Hr as ([] & s2 & Ha & Hr). apply st_ret_Ok in Hr as [-> ->].
    apply abort_wrote in Ha as (tail & Hw2 & Hcut). exists tail. split; [|done].
    by apply (wrote_app [] tail _ s1). }
  destruct o as [current|[]]; [|by eapply Habort..].
  destruct (same_source current plan) eqn:Hsame; [|by eapply Habort].
  apply st_ret_Ok in Hrun as [-> ->]. split; [exact Hw|].
  exists (or_calls (ss_services s)), current, n. split_and!; [done|exact Hobs|done].
Qed.

(** What the sender has written when it ends a transfer of files without an error, however
    its source changed meanwhile and however its reads were cut.  The files went out in the
    order of the plan, each in full between its two frames, with the bytes one opening of it
    delivered and their digest; then either the transfer was cut, within a file or with an
    abort, or every file was sent, the source was found to be what the plan says once more, and
    the frame with the counts and the digest of all contents came last. *)
Lemma send_files_wrote request record plan s s' :
  send_files request record plan s = (Ok (), s') →
  ∃ contents tail,
    filled (fr_request_id request) s s' (take (length contents) (sp_files plan)) contents ∧
    wrote (files_wire (fr_request_id request) (sp_files plan) contents ++ tail) s s' ∧
    (cut_stream request (sp_files plan) contents tail ∨
     let complete := complete_of (fr_request_id request)
       (sent_files (sp_files plan) contents (mkSent 0 0 (default [] (sp_manifest_sha256 plan)))) in
     length contents = length (sp_files plan) ∧ rebuilt request record plan s ∧
     sendable complete ∧ tail = wire complete).
Proof.
  intros Hrun. unfold send_files in Hrun. apply st_bind_Ok in Hrun as (sent & s1 & Hfiles & Hrun).
  apply stream_files_wrote in Hfiles. destruct sent as [sent|]; simpl in Hfiles.
  2: { apply st_ret_Ok in Hrun as [_ ->]. destruct Hfiles as (contents & tail & _ & Hf & Hcut & Hw).
       exists contents, tail. split_and!; [done|done|by left]. }
  destruct Hfiles as (contents & Hf & -> & Hw). pose proof (Forall2_length _ _ _ Hf) as Hlen.
  assert (∀ s2, (calls s1 ≤ calls s2)%nat →
    filled (fr_request_id request) s s2 (take (length contents) (sp_files plan)) contents) as Hf'.
  { intros s2 Hc. rewrite <- Hlen, firstn_all. by eapply filled_widen. }
  apply st_bind_Ok in Hrun as (same & s2 & Hre & Hrun). apply recheck_wrote in Hre.
  destruct same.
  - destruct Hre as [Hw2 (n & current & n' & Hn & Hre)].
    apply st_bind_Ok in Hrun as ([] & s3 & Hc & Hrun). apply control_wrote in Hc as [Hw3 Henc].
    unfold await_completed_receipt in Hrun. apply st_bind_Ok in Hrun as (receipt & s4 & Hr & Hrun).
    apply await_receipt_wrote in Hr as [Hw4 _]. unfold net in Hrun. apply st_lift_Ok in Hrun as [_ ->].
    pose proof (wrote_app _ _ _ _ _ Hw2 Hw3) as H23. pose proof (wrote_app _ _ _ _ _ H23 Hw4) as H24.
    rewrite app_nil_r in H24.
    eexists contents, _. split_and!; [by apply Hf', H24|by eapply wrote_app|].
    right. split_and!; [done| |exact Henc|reflexivity].
    exists n, current, n'. split; [|exact Hre]. destruct Hw as [_ Hw]. lia.
  - apply st_ret_Ok in Hrun as [_ ->]. destruct Hre as (tail & Hw2 & Hcut).
    exists contents, tail. split_and!; [by apply Hf', Hw2|by eapply wrote_app|by left].
Qed.
End sending.
