(* ===== verification/Receiver.v ===== *)
(** * Receiving a fetch

    Models [FetchReceiver::receive_one] of [crates/meshelf-net/src/fetch_receiver.rs] with
    everything it calls: header and manifest, admission, staging, payload verification,
    publication ([crates/meshelf-net/src/destination.rs]), the clipboard, cleanup, and the
    [Drop] of the staging guard, which also runs when the future is dropped or panics.  The
    state [Rx] is all a receiver touches: the connection, the process with its store and its
    disk, the reservation ledger, the clipboard and the locals that outlive an early return.
    Every call may fail, and every await may be the last. *)

From S2P Require Import Prelude RustStr StdIo Utf8 Offer Records Names Protocol OfferStore Ledger Activation Filesystem Announce Connection Manifest Transfer.

(** ** State *)

Inductive ClipboardCall := SetText (text : rstr) | SetFiles (paths : list PathBuf).

(** The outcomes of the next calls, and the calls made so far, each with the world (database
    and disk) as it stood at that moment. *)
Record Clipboard := mkClipboard {
  cb_outcomes : list (option ClipboardError);
  cb_calls : list (ClipboardCall * World Disk);
}.

(** The three options of the guard are set together. *)
Record StagingGuard := mkStagingGuard {
  gu_armed : option (PathBuf * ActivationId);
  gu_disarmed : bool;
  gu_keep : bool;
}.
Definition guard_inactive : StagingGuard := mkStagingGuard None true false.

Record Rx := mkRx {
  rx_peer : Peer;
  rx_proc : Proc Disk;
  rx_ledger : ReservationLedger;
  rx_probe : SpaceProbe;
  rx_clipboard : Clipboard;
  rx_guard : StagingGuard;
  rx_permit : option ReservationPermit;
  rx_plan : ReceivePlan;
}.
Definition rx_world (s : Rx) : World Disk := pr_world (rx_proc s).
Definition rx_owner (s : Rx) : SharedActivationOwner := pr_owner (rx_proc s).
Definition rx_disk (s : Rx) : Disk := w_fs (rx_world s).

Definition set_peer (x : Peer) (s : Rx) : Rx :=
  mkRx x (rx_proc s) (rx_ledger s) (rx_probe s) (rx_clipboard s) (rx_guard s) (rx_permit s) (rx_plan s).
Definition set_proc (x : Proc Disk) (s : Rx) : Rx :=
  mkRx (rx_peer s) x (rx_ledger s) (rx_probe s) (rx_clipboard s) (rx_guard s) (rx_permit s) (rx_plan s).
Definition set_ledger (x : ReservationLedger) (s : Rx) : Rx :=
  mkRx (rx_peer s) (rx_proc s) x (rx_probe s) (rx_clipboard s) (rx_guard s) (rx_permit s) (rx_plan s).
Definition set_clipboard (x : Clipboard) (s : Rx) : Rx :=
  mkRx (rx_peer s) (rx_proc s) (rx_ledger s) (rx_probe s) x (rx_guard s) (rx_permit s) (rx_plan s).
Definition set_guard (x : StagingGuard) (s : Rx) : Rx :=
  mkRx (rx_peer s) (rx_proc s) (rx_ledger s) (rx_probe s) (rx_clipboard s) x (rx_permit s) (rx_plan s).
Definition set_permit (x : option ReservationPermit) (s : Rx) : Rx :=
  mkRx (rx_peer s) (rx_proc s) (rx_ledger s) (rx_probe s) (rx_clipboard s) (rx_guard s) x (rx_plan s).
Definition set_plan (x : ReceivePlan) (s : Rx) : Rx :=
  mkRx (rx_peer s) (rx_proc s) (rx_ledger s) (rx_probe s) (rx_clipboard s) (rx_guard s) (rx_permit s) x.
Definition set_world (w : World Disk) (s : Rx) : Rx := set_proc (mkProc (rx_owner s) w) s.

(** ** Operations of the parts *)

Notation RxM E := (St Rx (Stop E)).
Notation M := (RxM NetError).
Notation R := (RxM ReceiveFailure).

Definition on_peer {E T} (m : St Peer (Stop E) T) : RxM E T := λ s,
  let '(r, p) := m (rx_peer s) in (r, set_peer p s).
(** Writes and [shutdown] of the connection. *)
Definition on_conn {T} (m : St Conn Failure T) : M T :=
  on_peer await;;
  ((λ s, let '(r, c) := m (pe_conn (rx_peer s)) in
         (map_err (λ f, match f with Failed e => Fails e | Panicked => Panics end) r,
          set_peer (set_conn c (rx_peer s)) s)) : M T).
Definition on_store {T} (m : St (World Disk) StoreError T) : RxM StoreError T := λ s,
  let '(r, w) := m (rx_world s) in (map_err Fails r, set_world w s).
Definition on_disk {T} (m : FsM T) : RxM IoError T := λ s,
  let '(r, d) := m (rx_disk s) in
  (map_err Fails r, set_world (mkWorld (w_db (rx_world s)) (w_faults (rx_world s)) d) s).
Definition update_flags {E} (f : SharedActivationOwner → SharedActivationOwner) : RxM E () :=
  st_modify (λ s, set_proc (mkProc (f (rx_owner s)) (rx_world s)) s).
Definition block_cleanup {E} : RxM E () := update_flags set_cleanup_blocked.
Definition set_uncertain (value : bool) (o : SharedActivationOwner) : SharedActivationOwner :=
  mkOwner (ow_recovered o) (ow_recovery_runs o) (ow_recovery_poisoned o) (ow_live o)
    (ow_live_poisoned o) (ow_cleanup_blocked o) value.
Definition get_plan {E} : RxM E ReceivePlan := s ← st_get; mret (rx_plan s).
Definition update_plan {E} (f : ReceivePlan → ReceivePlan) : RxM E () :=
  st_modify (λ s, set_plan (f (rx_plan s)) s).
Definition is_cancelled {E} : RxM E bool := on_peer cancel_requested.

(** [safe_detail], which may panic. *)
Definition safe {E} (detail : rstr) : RxM E rstr := st_lift (ok_or (safe_detail detail) Panics).
(** [let _ = stream.shutdown().await] *)
Definition shutdown_stream : M () :=
  (try_stop (on_conn shutdown) : M (result NetError ()));; mret ().

(** The staging guard. *)
Definition guard_arm (staging_root : PathBuf) (id : ActivationId) : M () :=
  st_modify (λ s, set_guard (mkStagingGuard (Some (staging_root, id)) false false) s).
Definition guard_disarm : M () :=
  st_modify (λ s, set_guard (mkStagingGuard (gu_armed (rx_guard s)) true (gu_keep (rx_guard s))) s).
Definition guard_keep : M () :=
  st_modify (λ s, set_guard (mkStagingGuard (gu_armed (rx_guard s)) (gu_disarmed (rx_guard s)) true) s).

(** [drop(permit)], or the end of its scope. *)
Definition drop_permit (s : Rx) : Rx :=
  match rx_permit s with
  | Some permit => set_permit None (set_ledger (permit_drop permit (rx_ledger s)) s)
  | None => s
  end.
Definition release_permit : M () := st_modify drop_permit.

(** Field updates of the plan. *)
Definition plan_with_manifest (entries : list ManifestEntry) (end_ : option ManifestEnd)
    (encoded : Z) (p : ReceivePlan) : ReceivePlan :=
  mkReceivePlan (rp_content_kind p) (rp_total_bytes p) (rp_file_count p) entries end_ encoded
    (rp_manifest_sha256 p) (rp_text p) (rp_staged_files p).
Definition plan_with_text (text : rstr) (p : ReceivePlan) : ReceivePlan :=
  mkReceivePlan (rp_content_kind p) (rp_total_bytes p) (rp_file_count p) (rp_entries p)
    (rp_manifest_end p) (rp_manifest_encoded_bytes p) (rp_manifest_sha256 p) (Some text)
    (rp_staged_files p).
Definition plan_with_staged (staged : list StagedFile) (p : ReceivePlan) : ReceivePlan :=
  mkReceivePlan (rp_content_kind p) (rp_total_bytes p) (rp_file_count p) (rp_entries p)
    (rp_manifest_end p) (rp_manifest_encoded_bytes p) (rp_manifest_sha256 p) (rp_text p) staged.

(** ** Error texts *)

(** [{:?}] of a string, whose escapes depend on tables of Unicode. *)
Class DebugText := debug_text : rstr → rstr.

Definition debug_refusal (code : FetchRefusalCode) : rstr :=
  match code with
  | Refusal_UnknownOffer => str "UnknownOffer"
  | Refusal_NotAnnouncedToRequester => str "NotAnnouncedToRequester"
  | Refusal_SourceUnavailable => str "SourceUnavailable"
  | Refusal_SourceChanged => str "SourceChanged"
  | Refusal_Busy => str "Busy"
  | Refusal_Malformed => str "Malformed"
  | Refusal_Unsupported => str "Unsupported"
  end.
Definition debug_admission (code : FetchAdmissionCode) : rstr :=
  match code with
  | Admission_Accepted => str "Accepted"
  | Admission_RefusedBusy => str "RefusedBusy"
  | Admission_InvalidManifest => str "InvalidManifest"
  | Admission_TooLarge => str "TooLarge"
  | Admission_InsufficientSpace => str "InsufficientSpace"
  | Admission_DestinationUnavailable => str "DestinationUnavailable"
  | Admission_AllocationFailed => str "AllocationFailed"
  | Admission_UnsupportedMode => str "UnsupportedMode"
  | Admission_Cancelled => str "Cancelled"
  end.
Definition debug_receipt (code : FetchReceiptCode) : rstr :=
  match code with
  | Receipt_Completed => str "Completed"
  | Receipt_ConnectionLost => str "ConnectionLost"
  | Receipt_Cancelled => str "Cancelled"
  | Receipt_VerificationFailed => str "VerificationFailed"
  | Receipt_ClipboardFailed => str "ClipboardFailed"
  | Receipt_UncertainNoReplay => str "UncertainNoReplay"
  | Receipt_InternalError => str "InternalError"
  end.
Definition debug_abort (code : FetchAbortCode) : rstr :=
  match code with
  | Abort_SourceUnavailable => str "SourceUnavailable"
  | Abort_SourceChanged => str "SourceChanged"
  | Abort_Cancelled => str "Cancelled"
  | Abort_InternalError => str "InternalError"
  end.

Section texts.
Context `{!DebugText}.

Definition debug_detail (detail : option rstr) : rstr :=
  match detail with
  | Some text => str "Some(" ++ debug_text text ++ str ")"
  | None => str "None"
  end.

(** [NetError]'s [Display] *)
Definition net_error_to_string (e : NetError) : rstr :=
  let progress code files bytes detail :=
    code ++ str " (files " ++ show_int files ++ str ", bytes " ++ show_int bytes ++ str "): "
      ++ debug_detail detail in
  match e with
  | Net_Io error => str "I/O error: " ++ io_message error
  | Net_Protocol error => str "protocol error: " ++ protocol_error_to_string error
  | Net_Timeout operation => str "operation timed out during " ++ operation
  | Net_Rejected reason => str "peer rejected connection: " ++ reason
  | ProtocolMismatch peer version expected =>
      peer ++ str " is running Meshelf protocol " ++ show_int version
        ++ str "; update it to protocol " ++ show_int expected ++ str "."
  | Unavailable reason => str "peer unavailable: " ++ reason
  | UnexpectedMessage detail => str "unexpected wire message: " ++ detail
  | IdentityMismatch detail => str "identity mismatch: " ++ detail
  | UnsafeBind detail => str "unsafe bind refused: " ++ detail
  | FileTransfer detail => str "file transfer failed: " ++ detail
  | OfferStorage detail => str "offer card storage failed: " ++ detail
  | FetchService detail => str "fetch service failed: " ++ detail
  | FetchServiceOwned detail => str "fetch service failed: " ++ detail
  | FetchRefused code active maximum detail =>
      str "origin refused fetch with " ++ debug_refusal code ++ str " (active streams "
        ++ show_int active ++ str "/" ++ show_int maximum ++ str "): " ++ debug_detail detail
  | FetchAdmissionRefused code entries bytes detail =>
      str "receiver refused fetch admission with " ++ debug_admission code
        ++ str " (reserved entries " ++ show_int entries ++ str ", reserved bytes "
        ++ show_int bytes ++ str "): " ++ debug_detail detail
  | FetchTerminal code files bytes detail =>
      progress (str "fetch ended with " ++ debug_receipt code) files bytes detail
  | FetchAborted code files bytes detail =>
      progress (str "origin aborted fetch with " ++ debug_abort code) files bytes detail
  | FetchLocalIo files bytes detail => progress (str "local storage failed") files bytes detail
  | HandlerLimitClosed => str "inbound handler limit was closed"
  end.

(** [ReservationError]'s [Display] *)
Definition reservation_error_to_string (e : ReservationError) : rstr :=
  match e with
  | Reservation_Filesystem error => str "filesystem operation failed: " ++ io_message error
  | LedgerPoisoned => str "reservation ledger is poisoned"
  | Overflow => str "reservation arithmetic overflow"
  | Reservation_InsufficientSpace available active_reserved required =>
      str "insufficient space: available=" ++ show_int available ++ str ", active_reserved="
        ++ show_int active_reserved ++ str ", required=" ++ show_int required
  end.

(** The texts of [validate_component] and of the generated names. *)
Definition name_error_to_string (e : NameError) : rstr :=
  match e with
  | UnsafeComponent component => str "unsafe file name component: " ++ debug_text component
  | ReservedName component => str "platform-reserved file name: " ++ component
  | PathEmptyOrTooLong => str "file path is empty or too long"
  | UnsafePath path => str "unsafe file path: " ++ path
  end.
Definition naming_error (e : NamingError) : NetError :=
  FileTransfer
    match e with
    | InvalidGeneratedName error =>
        str "generated destination name is invalid: " ++ name_error_to_string error
    | NameLengthOverflow => str "generated destination name length overflow"
    | SuffixTooLong suffix_bytes =>
        str "generated destination suffix is " ++ show_int suffix_bytes
          ++ str " bytes; maximum component is " ++ show_int MAX_OFFER_PORTABLE_COMPONENT_BYTES
    | NoRoomForName =>
        str "generated destination suffix leaves no complete UTF-8 character for the name"
    end.
End texts.

(** ** Publication ([crates/meshelf-net/src/destination.rs]) *)

Section publication.
Context `{!DebugText} `{!Renamore}.

(** [?] on an I/O error, by [From<std::io::Error> for NetError]. *)
Definition disk_net {T} (m : FsM T) : M T := map_stop Net_Io (on_disk m).

Definition collision_candidate (directory : PathBuf) (root_name : rstr)
    (content_kind : ContentKind) (index : Z) : result NetError PathBuf :=
  name ← map_err naming_error (collision_name root_name content_kind index);
  mret (join directory name).

(** The hard link is the publication of a file; a folder is renamed. *)
Definition finalize_payload (payload final_path : PathBuf) (content_kind : ContentKind) : M () :=
  disk_net (reject_reparse_point payload);;
  parent ← lift_stop (ok_or (parent final_path) (FileTransfer (str "destination has no parent")));
  disk_net (require_directory parent);;
  if bool_decide (content_kind = Kind_File) then
    disk_net (hard_link payload final_path);;
    on_peer await;;
    disk_net (remove_file payload)
  else disk_net (rename_exclusive_portable payload final_path).

Definition is_exists (error : NetError) : bool :=
  match error with Net_Io error => bool_decide (io_kind error = AlreadyExists) | _ => false end.

(** The loop over the indexes: [None] when every name was taken. *)
Fixpoint publish_loop (payload directory : PathBuf) (root_name : rstr)
    (content_kind : ContentKind) (index : Z) (tries : nat) : M (option PathBuf) :=
  match tries with
  | O => mret None
  | S tries =>
      final_path ← lift_stop (collision_candidate directory root_name content_kind index);
      outcome ← try_stop (finalize_payload payload final_path content_kind);
      match outcome with
      | Ok _ => mret (Some final_path)
      | Err error =>
          if is_exists error
          then publish_loop payload directory root_name content_kind (index + 1) tries
          else fail error
      end
  end.

(** [fresh_id] is the text of the [MessageId] generated after the loop. *)
Definition finalize_payload_without_overwrite (fresh_id : rstr) (payload directory : PathBuf)
    (root_name : rstr) (content_kind : ContentKind) : M PathBuf :=
  disk_net (require_directory directory);;
  published ← publish_loop payload directory root_name content_kind 1 (Z.to_nat 9999);
  match published with
  | Some final_path => mret final_path
  | None =>
      name ← lift_stop (map_err naming_error
                          (component_with_suffix root_name (str "." ++ fresh_id)));
      let final_path := join directory name in
      finalize_payload payload final_path content_kind;;
      mret final_path
  end.
End publication.

(** ** Staging *)

(** [meshelf_core::relative_path] as a path. *)
Definition relative_path_buf (value : rstr) : PathBuf := foldl join [] (relative_path value).

(** The order in which a [HashSet] is iterated. *)
Class HashSetOrder := hash_set_order : list PathBuf → list PathBuf.
Class HashSetOrderLaws `{HashSetOrder} :=
  hash_set_order_all : ∀ paths, hash_set_order paths ≡ₚ paths.

Definition is_directory_entry (e : ManifestEntry) : bool := bool_decide (me_kind e = Entry_Directory).
Definition depth_le (a b : PathBuf) : Prop := (length (components a) ≤ length (components b))%nat.
#[export] Instance depth_le_dec : RelDecision depth_le.
Proof. intros a b. unfold depth_le. apply _. Defined.

(** The folders to create, parents before children. *)
Definition staged_directories `{HashSetOrder} (payload_root : PathBuf)
    (entries : list ManifestEntry) : list PathBuf :=
  merge_sort depth_le (hash_set_order (remove_dups
    (map (λ e, join payload_root (relative_path_buf (me_relative_path e)))
       (filter (λ e, is_directory_entry e = true) entries)))).

(** The file entries with their positions. *)
Definition file_entries (entries : list ManifestEntry) : list (nat * ManifestEntry) :=
  filter (λ '(_, e), is_file e = true) (imap (λ i e, (i, e)) entries).

Definition staged_path (payload_root : PathBuf) (content_kind : ContentKind) (e : ManifestEntry)
    : PathBuf :=
  if bool_decide (content_kind = Kind_File) then payload_root
  else join payload_root (relative_path_buf (me_relative_path e)).

Section staging.
Context `{!HashSetOrder} `{!Fs2}.

Definition stage_file (payload_root : PathBuf) (content_kind : ContentKind)
    (indexed : nat * ManifestEntry) : RxM IoError () :=
  let '(i, entry) := indexed in
  let path := staged_path payload_root content_kind entry in
  match parent path with
  | Some parent => on_disk (ensure_directory_tree parent)
  | None => mret ()
  end;;
  file ← on_disk (create_new_file path);
  on_disk (reject_reparse_point path);;
  on_disk (preallocate file (me_byte_len entry));;
  update_plan (λ p, plan_with_staged
    (rp_staged_files p ++ [mkStagedFile (as_u32 (Z.of_nat i)) path (Some file)]) p).

Definition receiver_prepare_staging (staging_root : PathBuf) : RxM IoError () :=
  parent ← lift_stop (ok_or (parent staging_root)
                        (mkIoError OtherKind (str "staging root has no parent")));
  on_disk (ensure_directory_tree parent);;
  on_disk (create_dir staging_root);;
  on_disk (reject_reparse_point staging_root);;
  plan ← get_plan;
  let payload_root := join staging_root (str "payload") in
  (if bool_decide (rp_content_kind plan = Kind_Folder)
   then on_disk (ensure_directory_tree payload_root) else mret ());;
  st_for (staged_directories payload_root (rp_entries plan))
    (λ directory, on_disk (ensure_directory_tree directory));;
  st_for (file_entries (rp_entries plan)) (stage_file payload_root (rp_content_kind plan));;
  on_disk (sync_directory staging_root).
End staging.

(** ** Cleanup *)

Definition close_handle (f : StagedFile) : StagedFile :=
  mkStagedFile (sf_entry_index f) (sf_path f) None.
Definition close_staged_handles {E} : RxM E () :=
  update_plan (λ p, plan_with_staged (map close_handle (rp_staged_files p)) p).

Section cleanup.
Context `{!ReadDirOrder} `{!RedbIter} `{!UuidText}.
Context `{!Json ActivationJournalEntry} `{!Json ClipboardCacheRecord}.

Definition cleanup_staging (path : PathBuf) : FsM () :=
  remove_owned_tree path;;
  match parent path with
  | None => mret ()
  | Some parent =>
      outcome ← st_try (symlink_metadata parent);
      match outcome with
      | Err error => if bool_decide (io_kind error = NotFound) then mret () else st_err error
      | Ok t =>
          reject_reparse_point parent;;
          if negb (bool_decide (t = Type_Dir)) then mret ()
          else
            outcome ← st_try (remove_dir parent);
            match outcome with
            | Ok _ => mret ()
            | Err error =>
                if bool_decide (io_kind error = NotFound)
                   || bool_decide (io_kind error = DirectoryNotEmpty)
                then mret () else st_err error
            end
      end
  end.

Definition cleanup_activation (staging_root : PathBuf) : RxM IoError () :=
  close_staged_handles;;
  on_disk (cleanup_staging staging_root).

Definition store_owned {T} (m : St (World Disk) StoreError T) : M T :=
  map_stop service_owned (on_store m).

Definition cleanup_activation_state (staging_root : PathBuf) (activation_id : ActivationId)
    : M () :=
  map_stop (λ error, FetchServiceOwned (str "activation cleanup failed: " ++ io_message error))
    (cleanup_activation staging_root);;
  store_owned (remove_activation_journal activation_id).

Definition remove_published_cache_object (path : PathBuf) : FsM () :=
  outcome ← st_try (symlink_metadata path);
  match outcome with
  | Err error => if bool_decide (io_kind error = NotFound) then mret () else st_err error
  | Ok t =>
      reject_reparse_point path;;
      if bool_decide (t = Type_Dir) then remove_owned_tree path else remove_file path
  end.

(** [Drop for StagingGuard] *)
Definition guard_drop (s : Rx) : Rx :=
  if gu_disarmed (rx_guard s) || gu_keep (rx_guard s) then s
  else
    match gu_armed (rx_guard s) with
    | None => s
    | Some (staging_root, activation_id) =>
        let '(removed, s) := on_disk (remove_owned_tree staging_root) s in
        let staging_failed :=
          match removed with
          | Err (Fails error) => negb (bool_decide (io_kind error = NotFound))
          | _ => false
          end in
        let '(removed, s) := on_store (remove_activation_journal activation_id) s in
        let journal_failed := negb (is_ok removed) in
        if staging_failed || journal_failed
        then (block_cleanup (E := NetError) s).2 else s
    end.

(** The locals that live to the end of [receive_one], on every way out of it. *)
Definition end_of_scope (s : Rx) : Rx := guard_drop (drop_permit s).
End cleanup.

(** ** Reading the header and the manifest *)

Section reading.
Context `{!Json V2Message}.

Definition fetch_lost : NetError := FetchTerminal Receipt_ConnectionLost 0 0 None.
Definition fetch_cancelled (files count : Z) : NetError :=
  FetchTerminal Receipt_Cancelled files count None.

(** The match over the outcome of the first read. *)
Definition header_failure (f : ReceiveFailure) : NetError :=
  match f with
  | RF_LocalCancelled _ _ => fetch_cancelled 0 0
  | RF_Io error => error
  | RF_Protocol _ _ detail => Net_Protocol (V2Validation detail)
  | RF_Disconnected _ _ => fetch_lost
  | _ => UnexpectedMessage (str "expected fetch header or refusal")
  end.

Definition read_header (activation : FetchActivation) (card : OfferCardRecord) : M FetchHeader :=
  message ← map_stop header_failure (on_peer (read_v2_cancellable 0 0));
  lift_stop (map_err Net_Protocol (validate_v2_message message));;
  match message with
  | Msg_FetchHeader header => mret header
  | Msg_FetchRefusal refusal =>
      lift_stop (refuse_if
        (negb (bool_decide (rf_request_id refusal = fa_request_id activation))
         || negb (bool_decide (rf_offer_id refusal = fa_offer_id activation)))
        (IdentityMismatch (str "fetch refusal does not match the activation")));;
      lift_stop (map_err Net_Protocol (refusal_validate_for refusal (card_descriptor card)));;
      fail (FetchRefused (rf_code refusal) (rf_active_streams refusal)
              (rf_max_active_streams refusal) (rf_detail refusal))
  | _ => fail (UnexpectedMessage (str "expected fetch header or refusal"))
  end.

(** A frame of the manifest, validated again. *)
Definition manifest_message : R V2Message :=
  message ← on_peer read_manifest_frame;
  lift_stop (map_err (λ error, RF_Protocol 0 0 (protocol_error_to_string error))
               (validate_v2_message message));;
  mret message.

(** The loop over the chunks; each takes at least one entry, so [tries] is at most the number
    of entries. *)
Fixpoint read_chunks (tries : nat) (header : FetchHeader) (expected_index : Z) : R () :=
  if fh_manifest_entries header <=? expected_index then mret ()
  else
    match tries with
    | O => fail manifest_invalid
    | S tries =>
        message ← manifest_message;
        match message with
        | Msg_ManifestChunk chunk =>
            lift_stop (refuse_if
              (negb (bool_decide (mc_request_id chunk = fh_request_id header))
               || negb (mc_first_index chunk =? expected_index)
               || bool_decide (mc_entries chunk = [])) manifest_invalid);;
            n ← lift_stop (ok_or (try_from U32_MAX (zlen (mc_entries chunk))) manifest_invalid);
            expected_index ← lift_stop (ok_or (checked_add U32_MAX expected_index n)
                                          manifest_invalid);
            lift_stop (refuse_if (fh_manifest_entries header <? expected_index)
                         manifest_invalid);;
            encoded ← lift_stop (map_err (λ _, manifest_invalid)
                                   (json_to_vec (Msg_ManifestChunk chunk)));
            plan ← get_plan;
            total ← lift_stop (ok_or (checked_add USIZE_MAX (rp_manifest_encoded_bytes plan)
                                        (zlen encoded)) manifest_invalid);
            update_plan (λ p, plan_with_manifest (rp_entries p ++ mc_entries chunk)
                                (rp_manifest_end p) total p);;
            read_chunks tries header expected_index
        | _ => fail manifest_invalid
        end
    end.

Definition read_manifest (header : FetchHeader) : R () :=
  if fh_manifest_entries header =? 0 then mret ()
  else
    read_chunks (Z.to_nat (fh_manifest_entries header)) header 0;;
    message ← manifest_message;
    match message with
    | Msg_ManifestEnd end_ =>
        lift_stop (refuse_if (negb (bool_decide (mend_request_id end_ = fh_request_id header)))
                     manifest_invalid);;
        update_plan (λ p, plan_with_manifest (rp_entries p) (Some end_)
                            (rp_manifest_encoded_bytes p) p);;
        plan ← get_plan;
        lift_stop (refuse_if
          ((V2_MAX_MANIFEST_BYTES <? rp_manifest_encoded_bytes plan)
           || negb (rp_manifest_encoded_bytes plan
                    =? default USIZE_MAX (try_from USIZE_MAX (fh_manifest_encoded_bytes header))))
          manifest_invalid)
    | _ => fail manifest_invalid
    end.
End reading.

(** ** Receiving the payload *)

Section payload.
Context `{!Json V2Message} `{!Sha256}.

Definition verify (ok : bool) (files count : Z) (detail : rstr) : R () :=
  lift_stop (refuse_if (negb ok) (RF_Verification files count detail)).

Definition receive_text (activation : FetchActivation) : R () :=
  plan ← get_plan;
  let expected := rp_total_bytes plan in
  payload ← on_peer (read_exact_cancellable expected 0 0);
  let digest := sha256 payload in
  message ← on_peer (read_v2_cancellable 0 expected);
  match message with
  | Msg_TextEnd end_ =>
      verify (bool_decide (te_request_id end_ = fa_request_id activation)
              && bool_decide (te_sha256 end_ = digest)) 0 expected (str "text digest mismatch");;
      complete ← on_peer read_complete;
      verify (bool_decide (fc_request_id complete = fa_request_id activation)
              && (fc_files_sent complete =? 0) && (fc_bytes_sent complete =? expected)
              && bool_decide (fc_content_set_sha256 complete = digest)) 0 expected
        (str "text completion counts or digest mismatch");;
      text ← lift_stop (ok_or (from_utf8 payload)
                          (RF_Verification 0 expected (str "text payload is not UTF-8")));
      update_plan (plan_with_text text)
  | Msg_FetchAbort abort =>
      if bool_decide (ab_request_id abort = fa_request_id activation)
      then fail (abort_failure abort)
      else fail (RF_Verification 0 expected (str "expected text_end"))
  | _ => fail (RF_Verification 0 expected (str "expected text_end"))
  end.

(** The variables of the loop over the files; a hasher is the bytes it was given. *)
Record Progress := mkProgress {
  pg_files : Z;
  pg_bytes : Z;
  pg_content_set : bytes;
}.

(** A message, or the abort of this request. *)
Definition message_or_abort (activation : FetchActivation) (files count : Z) : R V2Message :=
  message ← on_peer (read_v2_cancellable files count);
  match message with
  | Msg_FetchAbort abort =>
      if bool_decide (ab_request_id abort = fa_request_id activation)
      then fail (abort_failure abort) else mret message
  | _ => mret message
  end.

(** A call on the open file; it is awaited. *)
Definition on_file {T} (files count : Z) (m : FsM T) : R T :=
  on_peer await;;
  map_stop (λ error, RF_LocalIo files count (io_message error)) (on_disk m).

(** [while remaining > 0]; every turn takes at least one byte, so [tries] is at most
    [remaining].  A write that fails says so at once; [tokio::fs::File] may say so at the next
    write, or at the [sync_all] that comes before the file counts as received. *)
Fixpoint receive_bytes (tries : nat) (file : Handle) (remaining files count : Z) (hashed : bytes)
    : R (bytes * Z) :=
  if remaining <=? 0 then mret (hashed, count)
  else
    match tries with
    | O => fail (RF_LocalIo files count (str "out of fuel"))
    | S tries =>
        cancelled ← is_cancelled;
        if cancelled : bool then fail (RF_LocalCancelled files count)
        else
          let wanted := Z.to_nat (Z.min remaining V2_STREAM_BUFFER_BYTES) in
          data ← on_peer (read_chunk_cancellable wanted files count);
          if bool_decide (data = []) then fail (RF_Disconnected files count)
          else
            file ← on_file files count (file_write_all file data);
            receive_bytes tries file (remaining - zlen data) files
              (saturating_add U64_MAX count (zlen data)) (hashed ++ data)
    end.

(** [staged.file.take()] *)
Definition take_file (k : nat) : R (option Handle) :=
  plan ← get_plan;
  update_plan (λ p, plan_with_staged (alter close_handle k (rp_staged_files p)) p);;
  mret (rp_staged_files plan !! k ≫= sf_file).

(** One turn of the loop over the staged files. *)
Definition receive_file (activation : FetchActivation) (k : nat) (staged : StagedFile)
    (pg : Progress) : R Progress :=
  let files := pg_files pg in
  message ← message_or_abort activation files (pg_bytes pg);
  match message with
  | Msg_FileStart start =>
      plan ← get_plan;
      entry ← lift_stop (ok_or (rp_entries plan !! Z.to_nat (sf_entry_index staged))
                           (RF_Verification files (pg_bytes pg)
                              (str "file entry index is out of range")));
      verify (bool_decide (fs_request_id start = fa_request_id activation)
              && (fs_entry_index start =? sf_entry_index staged)
              && (fs_byte_len start =? me_byte_len entry)) files (pg_bytes pg)
        (str "file_start ordering or length mismatch");;
      taken ← take_file k;
      file ← lift_stop (ok_or taken (RF_Verification files (pg_bytes pg)
                                       (str "staging file was not preallocated")));
      '(hashed, count) ← receive_bytes (Z.to_nat (me_byte_len entry)) file (me_byte_len entry)
                           files (pg_bytes pg) [];
      on_file files count sync_all;;
      let digest := sha256 hashed in
      message ← message_or_abort activation files count;
      match message with
      | Msg_FileEnd end_ =>
          verify (bool_decide (fe_request_id end_ = fa_request_id activation)
                  && (fe_entry_index end_ =? sf_entry_index staged)
                  && bool_decide (fe_sha256 end_ = digest)) files count
            (str "file digest or ordering mismatch");;
          mret (mkProgress (files + 1) count (pg_content_set pg ++ digest))
      | _ => fail (RF_Verification files count (str "expected file_end"))
      end
  | _ => fail (RF_Verification files (pg_bytes pg) (str "expected file_start"))
  end.
Fixpoint receive_files (activation : FetchActivation) (k : nat) (staged : list StagedFile)
    (pg : Progress) : R Progress :=
  match staged with
  | [] => mret pg
  | f :: rest =>
      pg ← receive_file activation k f pg;
      receive_files activation (S k) rest pg
  end.

Definition receive_payload (activation : FetchActivation) (staging_root : PathBuf) : R () :=
  plan ← get_plan;
  if bool_decide (rp_content_kind plan = Kind_Text) then receive_text activation
  else
    pg ← receive_files activation 0 (rp_staged_files plan)
           (mkProgress 0 0 (default [] (rp_manifest_sha256 plan)));
    complete ← on_peer read_complete;
    verify (bool_decide (fc_request_id complete = fa_request_id activation)
            && (fc_files_sent complete =? pg_files pg) && (fc_bytes_sent complete =? pg_bytes pg)
            && bool_decide (fc_content_set_sha256 complete = sha256 (pg_content_set pg)))
      (pg_files pg) (pg_bytes pg) (str "fetch completion counts or content-set digest mismatch");;
    map_stop (λ error, RF_LocalIo (pg_files pg) (pg_bytes pg) (io_message error))
      (on_disk (sync_directory staging_root)).
End payload.

(** ** The receiver *)

Inductive SideEffectFailure :=
| SE_Terminal (error : NetError)
| SE_Uncertain (error : NetError).

Section receiver.
Context `{!ReadDirOrder} `{!HashSetOrder} `{!Renamore} `{!Fs2} `{!RedbIter} `{!UuidText}.
Context `{!DebugText} `{!Lowercase} `{!Sha256}.
Context `{!Json OfferSourceRecord} `{!Json OfferCardRecord}.
Context `{!Json ActivationJournalEntry} `{!Json ClipboardCacheRecord}.
Context `{!Json V2Message} `{!Json (list ManifestEntry)}.
(** The state directory; the fresh identifiers [ActivationId::default()] and
    [OfferId::default()] return; the text of the [MessageId] a publication may generate. *)
Context (state_root : PathBuf) (fresh_activation : ActivationId) (fresh_offer : OfferId)
  (fresh_id : rstr).
Implicit Types (activation : FetchActivation).

(** *** Messages to the source *)

Definition write_admission (request_id : ActivationId) (code : FetchAdmissionCode)
    (entries_reserved bytes_reserved : Z) (detail : option rstr) : M () :=
  on_conn (io_write (encode_v2_frame (Msg_FetchAdmission
    (mkFetchAdmission request_id code entries_reserved bytes_reserved detail)))
    (str "write fetch admission")).

Definition send_receipt (code : FetchReceiptCode) (files count : Z) (detail : option rstr)
    activation : M () :=
  on_conn (io_write (encode_v2_frame (Msg_FetchReceipt
    (mkFetchReceipt (fa_request_id activation) (fa_offer_id activation) code files count detail)))
    (str "write fetch receipt")).

Definition finish_terminal {T} (code : FetchReceiptCode) (files count : Z) (detail : option rstr)
    activation : M T :=
  send_receipt code files count detail activation;;
  fail (FetchTerminal code files count detail).

(** *** The attempt on the card *)

Definition record_attempt_with_counts activation (code : OfferAttemptCode) (files count : Z)
    (detail : option rstr) : M () :=
  status ← lift_stop (map_err service_owned (attempt_status_new code 1 files count detail));
  store_owned (record_offer_attempt (fa_source_device activation) (fa_offer_id activation) status).

Definition record_attempt activation (code : OfferAttemptCode) (detail : option rstr) : M () :=
  plan ← get_plan;
  record_attempt_with_counts activation code (rp_file_count plan) (rp_total_bytes plan) detail.

Definition attempt_of_admission (code : FetchAdmissionCode) : OfferAttemptCode :=
  match code with
  | Admission_RefusedBusy => Attempt_Busy
  | Admission_Cancelled => Attempt_Cancelled
  | _ => Attempt_Failed
  end.
Definition refuse_admission {T} activation (code : FetchAdmissionCode) (detail : option rstr)
    : M T :=
  write_admission (fa_request_id activation) code 0 0 detail;;
  let attempt_detail :=
    match detail with
    | Some text => text
    | None => str "fetch admission refused with " ++ debug_admission code
    end in
  record_attempt_with_counts activation (attempt_of_admission code) 0 0 (Some attempt_detail);;
  fail (FetchAdmissionRefused code 0 0 detail).

Definition finish_uncertain {T} activation (files count : Z) (detail : rstr) : M T :=
  outcome ← try_stop (on_store (update_activation_state (fa_request_id activation)
                                  State_UncertainNoReplay));
  match outcome with
  | Err error =>
      block_cleanup;;
      fail (FetchServiceOwned (str "could not record uncertain activation: "
                               ++ store_error_to_string error))
  | Ok _ =>
      outcome ← try_stop (record_attempt activation Attempt_UncertainNoReplay (Some detail));
      match outcome with
      | Err error => block_cleanup;; fail error
      | Ok _ =>
          (if bool_decide (fa_mode activation = Mode_Clipboard)
           then update_flags (set_uncertain true) else mret ());;
          text ← safe detail;
          finish_terminal Receipt_UncertainNoReplay files count (Some text) activation
      end
  end.

(** *** Admission *)

Definition destination_for activation (descriptor : OfferDescriptor)
    : result FetchAdmissionCode (option PathBuf) :=
  if descriptor_is_text descriptor then Ok None
  else
    path ← match fa_mode activation with
           | Mode_Save => ok_or (fa_destination activation) Admission_DestinationUnavailable
           | Mode_Clipboard => Ok (join state_root (str "clipboard-cache"))
           end;
    refuse_if (negb (is_absolute path)) Admission_DestinationUnavailable;;
    Ok (Some path).

Definition reserve_space (destination : PathBuf) (payload_bytes : Z) : RxM ReservationError () :=
  λ s,
    let '(r, ledger) := reserve (rx_probe s) payload_bytes (rx_ledger s) in
    match r with
    | Ok permit => (Ok (), set_permit (Some permit) (set_ledger ledger s))
    | Err error => (Err (Fails error), set_ledger ledger s)
    end.

(** *** Publication and the side effect *)

Definition root_name_of (descriptor : OfferDescriptor) : rstr :=
  match descriptor with
  | Descriptor_File root_name _ | Descriptor_Folder root_name _ _ _ _ => root_name
  | Descriptor_Text _ _ _ => []
  end.

Definition publish activation (descriptor : OfferDescriptor) (staging_root : PathBuf)
    (destination : option PathBuf) : M (option PathBuf) :=
  store_owned (update_activation_state (fa_request_id activation) State_Publishing);;
  if descriptor_is_text descriptor then mret None
  else
    destination ← lift_stop (ok_or destination
                               (Net_Rejected (str "file activation has no destination")));
    disk_net (require_directory destination);;
    plan ← get_plan;
    let payload := join staging_root (str "payload") in
    final_path ←
      (if bool_decide (fa_mode activation = Mode_Clipboard) then
         let candidate :=
           join destination (str "candidate-"
             ++ uuid_to_string (ActivationId_as_uuid (fa_request_id activation))) in
         finalize_payload payload candidate (rp_content_kind plan);;
         mret candidate
       else
         finalize_payload_without_overwrite fresh_id payload destination (root_name_of descriptor)
           (rp_content_kind plan));
    match parent final_path with
    | Some parent => disk_net (sync_directory parent)
    | None => mret ()
    end;;
    mret (Some final_path).

Notation SideM := (RxM SideEffectFailure).

(** A call to the clipboard worker: it is recorded, then its outcome is known. *)
Definition call_clipboard (call : ClipboardCall) : RxM ClipboardError () := λ s,
  let c := rx_clipboard s in
  let calls := cb_calls c ++ [(call, rx_world s)] in
  match cb_outcomes c with
  | [] => (Ok (), set_clipboard (mkClipboard [] calls) s)
  | None :: rest => (Ok (), set_clipboard (mkClipboard rest calls) s)
  | Some error :: rest => (Err (Fails error), set_clipboard (mkClipboard rest calls) s)
  end.

Definition terminal_owned (error : StoreError) : SideEffectFailure :=
  SE_Terminal (service_owned error).

Definition mark_clipboard_application activation : SideM () :=
  map_stop terminal_owned (on_store (update_activation_state (fa_request_id activation)
                                       State_ApplyingClipboard)).

Definition classify_clipboard_failure (error : ClipboardError) : SideEffectFailure :=
  let detail := FetchServiceOwned (clipboard_error_message error) in
  if clipboard_error_uncertain error then SE_Uncertain detail else SE_Terminal detail.

Definition apply_text activation (text : option rstr) : SideM () :=
  text ← lift_stop (ok_or text (SE_Terminal (FetchServiceOwned
                                  (str "text payload was not retained"))));
  mark_clipboard_application activation;;
  outcome ← try_stop (call_clipboard (SetText text));
  match outcome with
  | Ok _ => mret ()
  | Err error =>
      (if clipboard_error_uncertain error then update_flags (set_uncertain true) else mret ());;
      fail (classify_clipboard_failure error)
  end.

(** An undo whose failure blocks later cleanups; its text is appended to the detail. *)
Definition undo {E} (detail prefix : rstr) (outcome : result rstr ()) : RxM E rstr :=
  match outcome with
  | Ok _ => mret detail
  | Err text => block_cleanup;; mret (detail ++ prefix ++ text)
  end.

Definition apply_files activation (path : PathBuf) : SideM () :=
  mark_clipboard_application activation;;
  let candidate := mkClipboardCacheRecord (fa_request_id activation) Cache_InFlight path in
  outcome ← try_stop (on_store (set_clipboard_cache candidate));
  match outcome with
  | Err error =>
      cleanup ← try_stop (on_disk (remove_published_cache_object path));
      detail ← undo (store_error_to_string error) (str "; candidate cleanup failed: ")
                 (map_err io_message cleanup);
      fail (SE_Terminal (FetchServiceOwned detail))
  | Ok _ =>
      outcome ← try_stop (call_clipboard (SetFiles [path]));
      match outcome with
      | Err error =>
          if clipboard_error_uncertain error then
            update_flags (set_uncertain true);;
            fail (SE_Uncertain (FetchServiceOwned (clipboard_error_message error)))
          else
            cache_cleanup ← try_stop (on_store (clear_clipboard_cache Cache_InFlight));
            path_cleanup ← try_stop (on_disk (remove_published_cache_object path));
            detail ← undo (clipboard_error_message error) (str "; cache index cleanup failed: ")
                       (map_err store_error_to_string cache_cleanup);
            detail ← undo detail (str "; candidate cleanup failed: ")
                       (map_err io_message path_cleanup);
            fail (SE_Terminal (FetchServiceOwned detail))
      | Ok _ =>
          previous ← map_stop (λ error, SE_Uncertain (service_owned error))
                       (on_store (promote_clipboard_cache candidate));
          match previous with
          | Some previous =>
              if path_eq (cc_payload_path previous) path then mret ()
              else
                outcome ← try_stop (on_disk (remove_published_cache_object
                                               (cc_payload_path previous)));
                match outcome with
                | Ok _ => mret ()
                | Err error =>
                    update_flags (set_uncertain true);;
                    fail (SE_Uncertain (FetchServiceOwned (io_message error)))
                end
          | None => mret ()
          end;;
          update_flags (set_uncertain false)
      end
  end.

Definition apply_side_effect activation (descriptor : OfferDescriptor) (text : option rstr)
    (published : option PathBuf) : SideM () :=
  match descriptor_is_text descriptor, fa_mode activation, published with
  | true, Mode_Clipboard, None => apply_text activation text
  | true, Mode_Save, None =>
      fail (SE_Terminal (Net_Rejected (str "text save activation is unsupported")))
  | _, Mode_Clipboard, Some path => apply_files activation path
  | _, Mode_Save, Some _ => mret ()
  | _, _, _ => fail (SE_Terminal (FetchServiceOwned
                       (str "activation side-effect shape is invalid")))
  end.

(** *** [receive_one] *)

(** The refusals before anything is read, and the card. *)
Definition check_activation (authenticated_source : DeviceId) activation : M OfferCardRecord :=
  s ← st_get;
  lift_stop (refuse_if (ow_cleanup_blocked (rx_owner s))
    (FetchAdmissionRefused Admission_RefusedBusy 0 0
       (Some (str "receiver cleanup is unresolved; listener admission is blocked"))));;
  cancelled ← is_cancelled;
  (if cancelled : bool then shutdown_stream;; fail (fetch_cancelled 0 0) else mret ());;
  lift_stop (refuse_if
    (negb (bool_decide (authenticated_source = fa_source_device activation))
     || bool_decide (fa_request_id activation = fresh_activation)
     || bool_decide (fa_offer_id activation = fresh_offer))
    (IdentityMismatch (str "fetch activation does not match the authenticated request")));;
  card ← map_stop (λ error, OfferStorage (store_error_to_string error))
           (on_store (get_offer_card (fa_source_device activation) (fa_offer_id activation)));
  lift_stop (ok_or card (Net_Rejected (str "offer card is not available"))).

Definition attempt_of_header_error (error : NetError) : OfferAttemptCode :=
  match error with
  | FetchRefused Refusal_SourceUnavailable _ _ _ => Attempt_SourceUnavailable
  | FetchRefused Refusal_SourceChanged _ _ _ => Attempt_SourceChanged
  | FetchRefused Refusal_Busy _ _ _ => Attempt_Busy
  | _ => Attempt_Failed
  end.
Definition receive_header activation (card : OfferCardRecord) : M FetchHeader :=
  outcome ← try_stop (read_header activation card);
  match outcome with
  | Ok header => mret header
  | Err error =>
      detail ← safe (net_error_to_string error);
      record_attempt_with_counts activation (attempt_of_header_error error) 0 0 (Some detail);;
      fail error
  end.

(** From the header to an accepted manifest; the plan is in the state. *)
Definition receive_manifest activation (card : OfferCardRecord) (header : FetchHeader) : M () :=
  match validate_header header card activation with
  | Err code => refuse_admission activation code None
  | Ok plan => st_modify (set_plan plan)
  end;;
  outcome ← try_stop (read_manifest header);
  match outcome with
  | Ok _ => mret ()
  | Err (RF_LocalCancelled _ _) => refuse_admission activation Admission_Cancelled None
  | Err (RF_Protocol _ _ detail) => fail (Net_Protocol (V2Validation detail))
  | Err (RF_Io error) => fail error
  | Err (RF_Disconnected _ _) => fail fetch_lost
  | Err _ => refuse_admission activation Admission_InvalidManifest None
  end;;
  plan ← get_plan;
  match validate_manifest header (card_descriptor card) plan with
  | Err code => refuse_admission activation code None
  | Ok _ => mret ()
  end.

(** A directory for the content, and a refusal when it is not to be had. *)
Definition prepare_destination activation (destination : PathBuf) : M () :=
  let unavailable error :=
    text ← safe (io_message error);
    refuse_admission activation Admission_DestinationUnavailable (Some text) in
  outcome ← try_stop (on_disk (ensure_directory_tree destination));
  match outcome with Err error => unavailable error | Ok _ => mret () end;;
  outcome ← try_stop (on_disk (require_directory destination));
  match outcome with Err error => unavailable error | Ok _ => mret () end.

(** The checks between the manifest and the journal. *)
Definition admit_fetch activation (descriptor : OfferDescriptor) : M (option PathBuf) :=
  destination ←
    match destination_for activation descriptor with
    | Err code => refuse_admission activation code None
    | Ok destination => mret destination
    end;
  s ← st_get;
  uncertain ← (if ow_uncertain_clipboard (rx_owner s) then mret true
               else store_owned has_uncertain_side_effect);
  (if bool_decide (fa_mode activation = Mode_Clipboard) && (uncertain : bool)
   then refuse_admission activation Admission_RefusedBusy
          (Some (str "clipboard activation is uncertain after recovery"))
   else mret ());;
  match destination with
  | Some destination => prepare_destination activation destination
  | None => mret ()
  end;;
  plan ← get_plan;
  (if negb (needs_filesystem_reservation (rp_content_kind plan) (rp_total_bytes plan)) then mret ()
   else
     destination ← lift_stop (ok_or destination
       (FetchServiceOwned (str "file transfer has no destination filesystem")));
     outcome ← try_stop (reserve_space destination (rp_total_bytes plan));
     match outcome with
     | Ok _ => mret ()
     | Err (Reservation_InsufficientSpace _ _ _) =>
         refuse_admission activation Admission_InsufficientSpace None
     | Err error =>
         text ← safe (reservation_error_to_string error);
         refuse_admission activation Admission_DestinationUnavailable (Some text)
     end);;
  mret destination.

Definition staging_root_of activation : PathBuf :=
  join (join state_root (str "staging"))
    (uuid_to_string (ActivationId_as_uuid (fa_request_id activation))).

(** Cleanup on the way out: the permit is dropped, and the guard is disarmed unless the
    cleanup failed, which blocks later activations. *)
Definition abandon activation (failed : NetError → NetError) : M () :=
  outcome ← try_stop (cleanup_activation_state (staging_root_of activation)
                        (fa_request_id activation));
  release_permit;;
  match outcome with
  | Err error => block_cleanup;; guard_keep;; fail (failed error)
  | Ok _ => guard_disarm
  end.

(** The journal row and the staging area. *)
Definition stage activation : M () :=
  plan ← get_plan;
  let staging_root := staging_root_of activation in
  store_owned (journal_activation
    (mkActivationJournalEntry (fa_request_id activation) (fa_source_device activation)
       (fa_offer_id activation) (fa_mode activation) staging_root State_Staging
       (rp_file_count plan) (rp_total_bytes plan)));;
  guard_arm staging_root (fa_request_id activation);;
  outcome ← try_stop (receiver_prepare_staging staging_root);
  match outcome with
  | Ok _ => mret ()
  | Err error =>
      abandon activation (λ cleanup_error, FetchServiceOwned
        (str "allocation failed: " ++ io_message error ++ str "; "
           ++ net_error_to_string cleanup_error));;
      text ← safe (io_message error);
      refuse_admission activation Admission_AllocationFailed (Some text)
  end;;
  disk_net (reject_reparse_point staging_root);;
  mret ().

(** A local cancellation seen between two phases. *)
Definition cancel_between activation (files count : Z) : M () :=
  cancelled ← is_cancelled;
  if cancelled : bool then
    abandon activation id;;
    record_attempt_with_counts activation Attempt_Cancelled files count None;;
    shutdown_stream;;
    fail (fetch_cancelled files count)
  else mret ().

Definition attempt_of_abort (code : FetchAbortCode) : OfferAttemptCode :=
  match code with
  | Abort_SourceUnavailable => Attempt_SourceUnavailable
  | Abort_SourceChanged => Attempt_SourceChanged
  | Abort_Cancelled => Attempt_Cancelled
  | Abort_InternalError => Attempt_Failed
  end.
Definition receipt_of_abort (code : FetchAbortCode) : FetchReceiptCode :=
  match code with Abort_Cancelled => Receipt_Cancelled | _ => Receipt_InternalError end.

(** The arms of the match over a failed [receive_payload]. *)
Definition report_failure activation (failure : ReceiveFailure) : M () :=
  match failure with
  | RF_Disconnected files count =>
      let detail := str "connection lost after " ++ show_int files ++ str " files and "
                      ++ show_int count ++ str " bytes" in
      record_attempt_with_counts activation Attempt_Failed files count (Some detail);;
      fail (FetchTerminal Receipt_ConnectionLost files count (Some detail))
  | RF_LocalCancelled files count =>
      record_attempt_with_counts activation Attempt_Cancelled files count None;;
      (try_stop (send_receipt Receipt_Cancelled files count None activation)
         : M (result NetError ()));;
      shutdown_stream;;
      fail (fetch_cancelled files count)
  | RF_Aborted code files count =>
      record_attempt_with_counts activation (attempt_of_abort code) files count None;;
      send_receipt (receipt_of_abort code) files count None activation;;
      fail (FetchAborted code files count None)
  | RF_Verification files count detail =>
      record_attempt_with_counts activation Attempt_VerificationFailed files count (Some detail);;
      text ← safe detail;
      finish_terminal Receipt_VerificationFailed files count (Some text) activation
  | RF_Protocol files count detail =>
      text ← safe detail;
      record_attempt_with_counts activation Attempt_Failed files count (Some text);;
      fail (Net_Protocol (V2Validation text))
  | RF_LocalIo files count detail =>
      text ← safe detail;
      record_attempt_with_counts activation Attempt_Failed files count (Some text);;
      fail (FetchLocalIo files count (Some text))
  | RF_Io error =>
      text ← safe (net_error_to_string error);
      record_attempt_with_counts activation Attempt_Failed 0 0 (Some text);;
      fail (FetchTerminal Receipt_ConnectionLost 0 0 (Some text))
  end.
Definition conclude_failure activation (failure : ReceiveFailure) : M () :=
  abandon activation id;; report_failure activation failure.

Definition is_local_io (error : NetError) : bool :=
  match error with Net_Io _ | FetchLocalIo _ _ _ => true | _ => false end.

(** What follows the cleanup when publication failed. *)
Definition report_publication activation (error : NetError) : M (option PathBuf) :=
  plan ← get_plan;
  let files := rp_file_count plan in
  let count := rp_total_bytes plan in
  detail ← safe (net_error_to_string error);
  record_attempt_with_counts activation Attempt_Failed files count (Some detail);;
  if is_local_io error then fail (FetchLocalIo files count (Some detail))
  else finish_terminal Receipt_InternalError files count (Some detail) activation.

(** The content is verified: publish it. *)
Definition publish_verified activation (descriptor : OfferDescriptor)
    (destination : option PathBuf) : M (option PathBuf) :=
  store_owned (update_activation_state (fa_request_id activation) State_Verified);;
  outcome ← try_stop (publish activation descriptor (staging_root_of activation)
                        destination);
  match outcome with
  | Ok published => mret published
  | Err error =>
      abandon activation (λ cleanup_error, FetchServiceOwned
        (str "publication failed: " ++ net_error_to_string error ++ str "; "
           ++ net_error_to_string cleanup_error));;
      report_publication activation error
  end.

Definition report_side_effect activation (error : NetError) : M () :=
  plan ← get_plan;
  let files := rp_file_count plan in
  let count := rp_total_bytes plan in
  text ← safe (net_error_to_string error);
  record_attempt_with_counts activation Attempt_ClipboardFailed files count (Some text);;
  finish_terminal Receipt_ClipboardFailed files count (Some text) activation.

Definition apply_published activation (descriptor : OfferDescriptor) (published : option PathBuf)
    : M () :=
  plan ← get_plan;
  let files := rp_file_count plan in
  let count := rp_total_bytes plan in
  outcome ← try_stop (apply_side_effect activation descriptor (rp_text plan) published);
  match outcome with
  | Ok _ => mret ()
  | Err (SE_Terminal error) =>
      abandon activation (λ cleanup_error, FetchServiceOwned
        (str "side effect failed: " ++ net_error_to_string error ++ str "; "
           ++ net_error_to_string cleanup_error));;
      report_side_effect activation error
  | Err (SE_Uncertain error) =>
      guard_keep;;
      release_permit;;
      finish_uncertain activation files count (net_error_to_string error)
  end.

(** Bookkeeping after the effect; a failure here leaves the activation uncertain. *)
Definition uncertain_from activation (keep : bool) (detail : rstr) : M () :=
  block_cleanup;;
  (if keep then guard_keep else mret ());;
  plan ← get_plan;
  finish_uncertain activation (rp_file_count plan) (rp_total_bytes plan) detail.
Definition settle activation : M () :=
  outcome ← try_stop (cleanup_activation (staging_root_of activation));
  match outcome with
  | Err error => uncertain_from activation true
      (str "staging cleanup failed after side effect: " ++ io_message error)
  | Ok _ => mret ()
  end;;
  outcome ← try_stop (on_store (update_activation_state (fa_request_id activation)
                                  State_Completed));
  match outcome with
  | Err error => uncertain_from activation false (store_error_to_string error)
  | Ok _ => mret ()
  end;;
  outcome ← try_stop (record_attempt activation Attempt_Completed None);
  match outcome with
  | Err error => uncertain_from activation false (net_error_to_string error)
  | Ok _ => mret ()
  end;;
  outcome ← try_stop (on_store (remove_activation_journal (fa_request_id activation)));
  match outcome with
  | Err error => uncertain_from activation true (store_error_to_string error)
  | Ok _ => mret ()
  end;;
  guard_disarm;;
  release_permit;;
  plan ← get_plan;
  send_receipt Receipt_Completed (rp_file_count plan) (rp_total_bytes plan) None activation.

Definition conclude activation (descriptor : OfferDescriptor) (destination : option PathBuf)
    : M () :=
  plan ← get_plan;
  cancel_between activation (rp_file_count plan) (rp_total_bytes plan);;
  published ← publish_verified activation descriptor destination;
  guard_keep;;
  apply_published activation descriptor published;;
  settle activation.

(** From the journal row on. *)
Definition receive_admitted activation (descriptor : OfferDescriptor)
    (destination : option PathBuf) : M () :=
  stage activation;;
  plan ← get_plan;
  write_admission (fa_request_id activation) Admission_Accepted (rp_file_count plan)
    (rp_total_bytes plan) None;;
  store_owned (update_activation_state (fa_request_id activation) State_Transferring);;
  cancel_between activation 0 0;;
  outcome ← try_stop (receive_payload activation (staging_root_of activation));
  match outcome with
  | Ok _ => conclude activation descriptor destination
  | Err failure => conclude_failure activation failure
  end.

Definition receive_body (authenticated_source : DeviceId) activation : M () :=
  card ← check_activation authenticated_source activation;
  header ← receive_header activation card;
  receive_manifest activation card header;;
  destination ← admit_fetch activation (fh_descriptor header);
  receive_admitted activation (fh_descriptor header) destination.

Definition receive_one (authenticated_source : DeviceId) activation : M () := λ s,
  let '(r, s) := receive_body authenticated_source activation s in (r, end_of_scope s).

(** [receive] and [receive_with_cancel]; the signal is in the state. *)
Definition receive (authenticated_source : DeviceId) activation : M ActivationOutcome :=
  outcome ← try_stop (receive_one authenticated_source activation);
  lift_stop (classify_activation_result outcome).
End receiver.
