(* ===== verification/ReceiverFrame.v ===== *)
(** * What a fetch does to the disk

    One walk through the receiver of [Receiver], for any footprint: whatever the peer sends
    and whatever fails, each step changes the disk only as its footprint allows, and keeps the
    disk a tree in which staging paths lead where they say.  [ReceiverSafety] instantiates the
    footprint twice: to show that nothing of the user's is touched, and to show that no
    staging residue stays behind unnoticed. *)

From S2P Require Import Prelude RustStr StdIo Offer Records Names Protocol OfferStore Ledger Activation Filesystem Announce Connection Manifest Transfer Receiver.

(** ** The store leaves the filesystem alone *)

Section store_fs.
Context {FS : Type} `{!StagingFs FS} `{!RedbIter} `{!UuidText}.
Context `{!Json OfferSourceRecord} `{!Json OfferCardRecord}.
Context `{!Json ActivationJournalEntry} `{!Json ClipboardCacheRecord}.
Notation M := (St (World FS) StoreError).
Notation fs_same := (same_on (w_fs (FS := FS))).

Lemma fs_call_same : keeps fs_same (redb_call : M ()).
Proof. intros w. destruct (redb_call w) eqn:Hc. by apply redb_call_db in Hc as [_ ?]. Qed.
Lemma fs_set_db (f : World FS → Db) : keeps fs_same (st_modify (λ w, set_db (f w) w) : M ()).
Proof. by intros w. Qed.
#[local] Hint Resolve fs_call_same fs_set_db : keeps.

Lemma fs_table_get {K} `{Countable K} (table : Table K) key : keeps fs_same (table_get table key : M _).
Proof. unfold table_get. keeps_tac. Qed.
Lemma fs_table_insert {K} `{Countable K} (table : Table K) key value :
  keeps fs_same (table_insert table key value : M _).
Proof. unfold table_insert. keeps_tac. Qed.
Lemma fs_table_remove {K} `{Countable K} (table : Table K) key :
  keeps fs_same (table_remove table key : M _).
Proof. unfold table_remove. keeps_tac. Qed.
Lemma fs_table_rows {K} `{Countable K} (table : Table K) {A} (row : K → bytes → result StoreError A) :
  keeps fs_same (table_rows table row : M _).
Proof.
  unfold table_rows. apply keeps_bind; [apply _|apply fs_call_same|]. intros _.
  apply keeps_bind; [apply _|keeps_tac|]. intros w. generalize (redb_iter (t_get table (w_db w))).
  intros l. induction l as [|[k v] l IH]; simpl; [keeps_tac|].
  apply keeps_bind; [apply _|apply fs_call_same|]. keeps_tac.
Qed.
Lemma fs_with_write {T} (body : M T) : keeps fs_same body → keeps fs_same (with_write body).
Proof.
  intros Hb w. unfold with_write.
  assert (keeps fs_same (redb_call;; x ← body; redb_call;; mret x : M T)) as Hk by keeps_tac.
  specialize (Hk w). destruct ((redb_call;; _) w) as [[x|e] w']; simpl in *; done.
Qed.
Lemma fs_open : keeps fs_same (open_table : M ()).
Proof. apply fs_call_same. Qed.
#[local] Hint Resolve fs_table_get fs_table_insert fs_table_remove fs_table_rows fs_open : keeps.

Lemma fs_get_offer_card d o : keeps fs_same (get_offer_card d o : M _).
Proof. unfold get_offer_card, with_read. keeps_tac. Qed.
Lemma fs_record_attempt d o status : keeps fs_same (record_offer_attempt d o status : M _).
Proof.
  unfold record_offer_attempt. apply keeps_bind; [apply _|keeps_tac|]. intros _.
  apply fs_with_write. keeps_tac.
Qed.
Lemma fs_journal entry : keeps fs_same (journal_activation entry : M _).
Proof.
  unfold journal_activation. apply keeps_bind; [apply _|keeps_tac|]. intros _.
  apply keeps_bind; [apply _|keeps_tac|]. intros b. apply fs_with_write. keeps_tac.
Qed.
Lemma fs_update_state id state : keeps fs_same (update_activation_state id state : M _).
Proof. apply fs_with_write. keeps_tac. Qed.
Lemma fs_remove_journal id : keeps fs_same (remove_activation_journal id : M _).
Proof. apply fs_with_write. keeps_tac. Qed.
Lemma fs_get_cache state : keeps fs_same (get_clipboard_cache state : M _).
Proof. unfold get_clipboard_cache, with_read. keeps_tac. Qed.
#[local] Hint Resolve fs_get_cache : keeps.
Lemma fs_has_uncertain : keeps fs_same (has_uncertain_side_effect : M _).
Proof.
  unfold has_uncertain_side_effect, activation_journal_entries, with_read. keeps_tac.
Qed.
Lemma fs_set_cache record : keeps fs_same (set_clipboard_cache record : M _).
Proof.
  unfold set_clipboard_cache. apply keeps_bind; [apply _|keeps_tac|]. intros _.
  apply keeps_bind; [apply _|keeps_tac|]. intros b. apply fs_with_write. keeps_tac.
Qed.
Lemma fs_clear_cache state : keeps fs_same (clear_clipboard_cache state : M _).
Proof. apply fs_with_write. keeps_tac. Qed.
Lemma fs_promote_cache candidate : keeps fs_same (promote_clipboard_cache candidate : M _).
Proof.
  unfold promote_clipboard_cache. do 2 (apply keeps_bind; [apply _|keeps_tac|]; intros _).
  apply keeps_bind; [apply _|keeps_tac|]. intros b. apply fs_with_write. keeps_tac.
Qed.

(** The journal is left alone by what acts on the other tables. *)
Notation journal_same := (same_on (λ w, db_journal (w_db (FS := FS) w))).
Lemma journal_db {T} (m : M T) : keeps (same_on w_db) m → keeps journal_same m.
Proof. intros Hm w. unfold same_on. by rewrite Hm. Qed.
Lemma journal_insert {K} `{Countable K} (table : Table K) key value :
  (∀ t db, db_journal (t_set table t db) = db_journal db) →
  keeps journal_same (table_insert table key value : M _).
Proof.
  intros Ht. unfold table_insert. apply keeps_bind; [apply _|apply journal_db, keeps_call|].
  intros _ w. apply Ht.
Qed.
Lemma journal_with_write {T} (body : M T) : keeps journal_same body → keeps journal_same (with_write body).
Proof.
  intros Hb w. destruct (with_write body w) as [[x|e] w'] eqn:Hrun; unfold same_on; simpl.
  - apply with_write_Ok in Hrun as (w1 & w2 & Hw1 & _ & Hrun & -> & _).
    rewrite <- Hw1. specialize (Hb w1). by rewrite Hrun in Hb.
  - by apply with_write_Err in Hrun as ->.
Qed.
Lemma journal_open : keeps journal_same (open_table : M ()).
Proof. apply journal_db, keeps_open_table. Qed.
Lemma journal_get {K} `{Countable K} (table : Table K) key : keeps journal_same (table_get table key : M _).
Proof. apply journal_db, keeps_table_get. Qed.
#[local] Hint Resolve journal_insert journal_open journal_get : keeps.

Lemma journal_get_offer_card d o : keeps journal_same (get_offer_card d o : M _).
Proof. apply journal_db, keeps_get_opt. Qed.
Lemma journal_has_uncertain : keeps journal_same (has_uncertain_side_effect : M _).
Proof. apply journal_db, has_uncertain_same. Qed.
Lemma journal_record_attempt d o status : keeps journal_same (record_offer_attempt d o status : M _).
Proof.
  unfold record_offer_attempt. apply keeps_bind; [apply _|keeps_tac|intros _].
  cbv zeta. apply journal_with_write. keeps_tac.
Qed.
Lemma journal_set_cache record : keeps journal_same (set_clipboard_cache record : M _).
Proof.
  unfold set_clipboard_cache. apply keeps_bind; [apply _|keeps_tac|intros _].
  apply keeps_bind; [apply _|keeps_tac|intros b]. apply journal_with_write. keeps_tac.
Qed.
End store_fs.
#[export] Hint Resolve journal_get_offer_card journal_has_uncertain journal_record_attempt
  journal_set_cache : keeps.
#[export] Hint Resolve fs_get_offer_card fs_record_attempt fs_journal fs_update_state
  fs_remove_journal fs_has_uncertain fs_set_cache fs_clear_cache fs_promote_cache : keeps.

(** ** Stops *)

Section stops.
Context {S : Type} (R : relation S) `{!PreOrder R}.

Lemma keeps_try_stop {E E' T} (m : St S (Stop E) T) :
  keeps R m → keeps R (try_stop m : St S (Stop E') _).
Proof. intros Hm s. specialize (Hm s). unfold try_stop. by destruct (m s) as [[x|[e| |]] s']. Qed.
Lemma try_stop_Ok {E E' T} (m : St S (Stop E) T) s x s' :
  (try_stop m : St S (Stop E') _) s = (Ok (Ok x), s') → m s = (Ok x, s').
Proof. unfold try_stop. destruct (m s) as [[y|[e| |]] s1]; congruence. Qed.
Lemma keeps_map_stop {E E' T} (f : E → E') (m : St S (Stop E) T) :
  keeps R m → keeps R (map_stop f m).
Proof. apply keeps_map_err. Qed.
Lemma keeps_lift_stop {E T} (r : result E T) : keeps R (lift_stop r : St S (Stop E) T).
Proof. apply keeps_lift, _. Qed.
Lemma keeps_fail {E T} (e : E) : keeps R (fail e : St S (Stop E) T).
Proof. apply keeps_err, _. Qed.

(** A step whose result is known to the next. *)
Lemma keeps_bind_post {E T U} (P : T → Prop) (m : St S E T) (f : T → St S E U) :
  keeps R m → (∀ s x s1, m s = (Ok x, s1) → P x) → (∀ x, P x → keeps R (f x)) →
  keeps R (m ≫= f).
Proof.
  intros Hm Hp Hf s. unfold mbind, st_bind. specialize (Hm s).
  destruct (m s) as [[x|e] s1] eqn:Hrun; simpl in *; [|done].
  etrans; [exact Hm|]. by eapply Hf, Hp.
Qed.
End stops.
#[export] Hint Resolve keeps_try_stop keeps_map_stop keeps_lift_stop keeps_fail : keeps.

(** ** Where each operation acts

    Most operations of the receiver leave the disk and the plan alone, and most leave the
    guard alone. *)

Definition elsewhere : relation Rx :=
  same_on (λ s, (rx_proc s, rx_clipboard s, rx_guard s, rx_plan s)).
Definition off_disk : relation Rx :=
  same_on (λ s, (rx_disk s, rx_plan s, gu_armed (rx_guard s))).
Definition off_guard : relation Rx := same_on rx_guard.

(** After a step of this kind the cleanup that was done is still done. *)
Record quiet (s s' : Rx) : Prop := {
  qu_nodes : dk_nodes (rx_disk s') = dk_nodes (rx_disk s);
  qu_inodes : dk_inodes (rx_disk s') = dk_inodes (rx_disk s);
  qu_journal : db_journal (w_db (rx_world s')) = db_journal (w_db (rx_world s));
  qu_guard : rx_guard s' = rx_guard s;
  qu_blocked : ow_cleanup_blocked (rx_owner s) = true → ow_cleanup_blocked (rx_owner s') = true;
}.
#[export] Instance quiet_preorder : PreOrder quiet.
Proof.
  split; [by intros s|]. intros s1 s2 s3 [] []. split; [congruence..|auto].
Qed.
#[export] Instance off_disk_preorder : PreOrder off_disk := same_on_preorder _.
#[export] Instance off_guard_preorder : PreOrder off_guard := same_on_preorder _.
#[export] Instance elsewhere_preorder : PreOrder elsewhere := same_on_preorder _.

#[export] Instance elsewhere_off_disk : subrelation elsewhere off_disk.
Proof.
  intros s s' [= Hp _ Hg Hpl]. unfold off_disk, same_on, rx_disk, rx_world. by rewrite Hp, Hpl, Hg.
Qed.
#[export] Instance elsewhere_off_guard : subrelation elsewhere off_guard.
Proof. by intros s s' [= _ _ Hg _]. Qed.
#[export] Instance elsewhere_quiet : subrelation elsewhere quiet.
Proof. intros s s' [= Hp _ Hg _]. split; unfold rx_disk, rx_world, rx_owner; by rewrite ?Hp. Qed.

Section acting.
Context (R : relation Rx) `{!PreOrder R}.

Lemma keeps_sub {E T} (R' : relation Rx) `{!subrelation R' R} (m : St Rx E T) :
  keeps R' m → keeps R m.
Proof. intros Hm s. apply (is_subrelation (R := R') (R' := R)), Hm. Qed.

Context `{!subrelation elsewhere R}.

Lemma keeps_on_peer {E T} (m : St Peer (Stop E) T) : keeps R (on_peer m).
Proof.
  apply (keeps_sub elsewhere). intros s. unfold on_peer. by destruct (m (rx_peer s)).
Qed.
Lemma keeps_conn {T} (m : St Conn Failure T) : keeps R (on_conn m).
Proof.
  unfold on_conn. apply keeps_bind; [done|apply keeps_on_peer|]. intros _.
  apply (keeps_sub elsewhere). intros s. by destruct (m (pe_conn (rx_peer s))).
Qed.
Lemma keeps_cancelled {E} : keeps R (is_cancelled (E := E)).
Proof. apply keeps_on_peer. Qed.
Lemma keeps_safe {E} detail : keeps R (safe (E := E) detail).
Proof. apply keeps_lift, _. Qed.
Lemma keeps_get_plan {E} : keeps R (get_plan (E := E)).
Proof. by intros s. Qed.
Lemma keeps_release : keeps R release_permit.
Proof.
  apply (keeps_sub elsewhere). intros s. unfold release_permit, st_modify, drop_permit. simpl.
  by destruct (rx_permit s).
Qed.
Lemma keeps_reserve destination n : keeps R (reserve_space destination n).
Proof.
  apply (keeps_sub elsewhere). intros s. unfold reserve_space.
  by destruct (reserve _ _ _) as [[|] ?].
Qed.
Lemma keeps_shutdown : keeps R shutdown_stream.
Proof.
  unfold shutdown_stream. apply keeps_bind; [done|apply keeps_try_stop, keeps_conn|].
  intros _. apply keeps_ret, _.
Qed.
End acting.
#[export] Hint Resolve keeps_on_peer keeps_conn keeps_cancelled keeps_safe keeps_get_plan
  keeps_release keeps_reserve keeps_shutdown : keeps.

Lemma keeps_store_off_disk {T} (m : St (World Disk) StoreError T) :
  keeps (same_on (w_fs (FS := Disk))) m → keeps off_disk (on_store m).
Proof.
  intros Hm s. specialize (Hm (rx_world s)). unfold on_store.
  destruct (m (rx_world s)) as [r w]. unfold off_disk, same_on, rx_disk in *. simpl in *.
  do 2 f_equal. exact Hm.
Qed.
Lemma keeps_store_off_guard {T} (m : St (World Disk) StoreError T) : keeps off_guard (on_store m).
Proof. intros s. unfold on_store. by destruct (m (rx_world s)). Qed.
Lemma keeps_store_quiet {T} (m : St (World Disk) StoreError T) :
  keeps (same_on (w_fs (FS := Disk))) m →
  keeps (same_on (λ w, db_journal (w_db (FS := Disk) w))) m → keeps quiet (on_store m).
Proof.
  intros Hf Hj s. specialize (Hf (rx_world s)). specialize (Hj (rx_world s)). unfold on_store.
  destruct (m (rx_world s)) as [r w]. unfold same_on in *. simpl in *.
  split; [exact (f_equal dk_nodes Hf)|exact (f_equal dk_inodes Hf)|exact Hj|done|done].
Qed.
Lemma keeps_disk_off_guard {T} (m : FsM T) : keeps off_guard (on_disk m).
Proof. intros s. unfold on_disk. by destruct (m (rx_disk s)). Qed.
Lemma keeps_disk_net_off_guard {T} (m : FsM T) : keeps off_guard (disk_net m).
Proof. apply keeps_map_stop, keeps_disk_off_guard. Qed.
Lemma keeps_plan_off_guard {E} f : keeps off_guard (update_plan (E := E) f).
Proof. by intros s. Qed.
Lemma keeps_flags_off_disk {E} f : keeps off_disk (update_flags (E := E) f).
Proof. by intros s. Qed.
Lemma keeps_flags_off_guard {E} f : keeps off_guard (update_flags (E := E) f).
Proof. by intros s. Qed.
Lemma keeps_block_quiet {E} : keeps quiet (block_cleanup (E := E)).
Proof. by intros s; split. Qed.
Lemma keeps_uncertain_quiet {E} b : keeps quiet (update_flags (E := E) (set_uncertain b)).
Proof. by intros s; split. Qed.
Lemma keeps_plan_quiet {E} f : keeps quiet (update_plan (E := E) f).
Proof. by intros s; split. Qed.
Lemma keeps_clipboard_off_disk c : keeps off_disk (call_clipboard c).
Proof. intros s. unfold call_clipboard. by destruct (cb_outcomes _) as [|[|] ?]. Qed.
Lemma keeps_clipboard_off_guard c : keeps off_guard (call_clipboard c).
Proof. intros s. unfold call_clipboard. by destruct (cb_outcomes _) as [|[|] ?]. Qed.
#[export] Hint Resolve keeps_store_off_disk keeps_store_quiet keeps_store_off_guard keeps_disk_off_guard
  keeps_disk_net_off_guard keeps_plan_off_guard keeps_flags_off_disk keeps_flags_off_guard
  keeps_block_quiet keeps_uncertain_quiet keeps_plan_quiet
  keeps_clipboard_off_disk keeps_clipboard_off_guard : keeps.

(** ** Paths of the entries *)

(** An entry whose staged file lies in the payload. *)
Definition entry_inside (e : ManifestEntry) : Prop :=
  me_relative_path e = [] ∨ Forall valid_name (relative_path (me_relative_path e)).

Lemma portable_valid name : portable_component name → valid_name name.
Proof.
  intros Hp. pose proof (portable_component_no_separator _ Hp) as [Hs _].
  destruct Hp as (? & ? & ? & ? & _). unfold valid_name. tauto.
Qed.

Lemma components_join_relative path x :
  is_absolute x = false → components (join path x) = components path ++ components x.
Proof.
  intros Hx. unfold join. rewrite Hx.
  destruct (decide (path = [])) as [->|Hp]; [by rewrite bool_decide_true|].
  rewrite bool_decide_false by done. cbn [orb]. unfold ends_with_char.
  destruct (last path) as [c|] eqn:Hl; [|by apply last_None in Hl].
  destruct (Z.eqb_spec c 47) as [->|Hc]; [|by rewrite components_app].
  apply last_Some in Hl as [a ->]. rewrite <- (assoc_L (++)). cbn [app].
  by rewrite !components_app, components_nil, app_nil_r.
Qed.

Lemma join_not_absolute path name :
  path_name name → is_absolute path = false → is_absolute (join path name) = false.
Proof.
  intros Hn Hp. unfold join. rewrite (join_relative name) by done.
  destruct path as [|c path]; [by rewrite bool_decide_true by done; apply join_relative|].
  case_match; exact Hp.
Qed.

Lemma relative_path_buf_spec names :
  Forall path_name names →
  components (foldl join [] names) = names ∧ is_absolute (foldl join [] names) = false.
Proof.
  induction names as [|name names IH] using rev_ind; [done|].
  rewrite Forall_app, Forall_singleton. intros [Hl Hn]. destruct (IH Hl) as [Hc Ha].
  rewrite foldl_app. simpl. rewrite components_join, Hc by done.
  split; [done|]. by apply join_not_absolute.
Qed.

Lemma entry_components payload e :
  entry_inside e → ∃ names, Forall valid_name names ∧
    components (join payload (relative_path_buf (me_relative_path e))) = components payload ++ names.
Proof.
  intros [He|Hv].
  - exists []. rewrite He. split; [done|]. by rewrite components_join_relative.
  - exists (relative_path (me_relative_path e)). split; [done|].
    destruct (relative_path_buf_spec (relative_path (me_relative_path e))) as [Hc Ha].
    { eapply Forall_impl; [exact Hv|apply valid_path_name]. }
    unfold relative_path_buf. by rewrite components_join_relative, Hc by done.
Qed.

Lemma staged_path_components payload kind e :
  entry_inside e → ∃ names, Forall valid_name names ∧
    components (staged_path payload kind e) = components payload ++ names.
Proof.
  intros He. unfold staged_path. case_bool_decide; [|by apply entry_components].
  exists []. by rewrite app_nil_r.
Qed.

#[export] Instance valid_name_dec name : Decision (valid_name name).
Proof. unfold valid_name. apply _. Defined.
Lemma valid_payload : valid_name (str "payload").
Proof. by apply (bool_decide_unpack _). Qed.

Section refusal.
Context `{!UuidText} `{!DebugText} `{!Json OfferCardRecord} `{!Json V2Message}.
Context (activation : FetchActivation).

(** A refusal is an error. *)
Lemma refuse_not_Ok {T} code detail s (x : T) s' :
  refuse_admission activation code detail s ≠ (Ok x, s').
Proof.
  unfold refuse_admission. intros Hrun. inv_st.
  match goal with H : fail _ _ = (Ok _, _) |- _ => discriminate H end.
Qed.
End refusal.

(** ** The walk *)

Section walk.
Context {order : ReadDirOrder} {order_laws : ReadDirOrderLaws}.
Context {hash : HashSetOrder} {hash_laws : HashSetOrderLaws}.
Context {ren : Renamore} {ren_laws : RenamoreLaws} {fs2 : Fs2} {fs2_laws : Fs2Laws}.
Context {iter : RedbIter} {uuid_text : UuidText} {dbg : DebugText} {lower : Lowercase} {sha : Sha256}.
Context `{!Json OfferSourceRecord} `{!Json OfferCardRecord}.
Context `{!Json ActivationJournalEntry} `{!Json ClipboardCacheRecord}.
Context `{!Json V2Message} `{!Json (list ManifestEntry)}.

Context (F : Footprint) (root : PathBuf).
Context (Hnames : Forall valid_name (components root)) (Hroot : components root ∈ fp_roots F).
Context (Hway : ∀ q, q `prefix_of` components root → fp_allowed F q).
Context (Hunder : ∀ q, fp_allowed F (components root ++ q)).
Context (Hparent : fp_exempt F (removelast (components root)) Dir).

(** A staged handle is a file of this run; an entry stays inside. *)
Record rgood (s : Rx) : Prop := {
  rg_disk : good F (rx_disk s);
  rg_handles : Forall (λ f, ∀ h, sf_file f = Some h → hd_inode h ∉ fp_fixed F)
                 (rp_staged_files (rx_plan s));
  rg_entries : Forall entry_inside (rp_entries (rx_plan s));
  rg_armed : ∀ path id, gu_armed (rx_guard s) = Some (path, id) → path = root;
}.
Definition rstep : relation Rx := λ s s',
  rgood s → rgood s' ∧ changed F (rx_disk s) (rx_disk s').

#[local] Instance rstep_preorder : PreOrder rstep.
Proof.
  split.
  - intros s Hs. split; [done|]. by apply (reflexivity (R := fs_step F)); destruct Hs.
  - intros s1 s2 s3 H12 H23 Hs1. destruct (H12 Hs1) as [Hs2 Hc12], (H23 Hs2) as [Hs3 Hc23].
    split; [done|].
    apply (transitivity (R := fs_step F) (x := rx_disk s1) (y := rx_disk s2) (z := rx_disk s3)).
    + intros _. split; [apply Hs2|done].
    + intros _. split; [apply Hs3|done].
    + apply Hs1.
Qed.

#[local] Instance off_disk_rstep : subrelation off_disk rstep.
Proof.
  intros s s' [= Hd Hp Ha] [Hg Hh He Har]. destruct (reflexivity (R := fs_step F) (rx_disk s) Hg).
  rewrite Hd. split; [|done]. split; by rewrite ?Hd, ?Hp, ?Ha.
Qed.
#[local] Instance elsewhere_rstep : subrelation elsewhere rstep.
Proof. intros s s' Hs. by apply off_disk_rstep, elsewhere_off_disk. Qed.

(** A call on the disk from a good state. *)
Lemma keeps_disk {T} (m : FsM T) :
  (∀ d r d', good F d → m d = (r, d') → fs_step F d d') → keeps rstep (on_disk m).
Proof.
  intros Hm s [Hg Hh He Ha]. unfold on_disk. destruct (m (rx_disk s)) as [r d'] eqn:Hrun. simpl.
  destruct (Hm _ _ _ Hg Hrun Hg) as [Hg' Hc]. split; [|done]. by split.
Qed.
Lemma keeps_disk_net {T} (m : FsM T) :
  (∀ d r d', good F d → m d = (r, d') → fs_step F d d') → keeps rstep (disk_net m).
Proof. intros Hm. by apply keeps_map_stop, keeps_disk. Qed.
Lemma keeps_disk_read {T} (m : FsM T) : keeps (same_on disk_view) m → keeps rstep (on_disk m).
Proof.
  intros Hm. apply keeps_disk. intros d r d' _ Hrun. pose proof (keeps_same_step F m Hm d) as Hs.
  by rewrite Hrun in Hs.
Qed.
Lemma keeps_store_rstep {T} (m : St (World Disk) StoreError T) :
  keeps (same_on (w_fs (FS := Disk))) m → keeps rstep (on_store m).
Proof. intros Hm. by apply (keeps_sub _ off_disk), keeps_store_off_disk. Qed.
Lemma keeps_plan {E} f :
  (∀ p, rp_entries (f p) = rp_entries p) →
  (∀ p, Forall (λ g, ∀ h, sf_file g = Some h → hd_inode h ∉ fp_fixed F) (rp_staged_files p) →
    Forall (λ g, ∀ h, sf_file g = Some h → hd_inode h ∉ fp_fixed F) (rp_staged_files (f p))) →
  keeps rstep (update_plan (E := E) f).
Proof.
  intros He Hf s [Hg Hh Hen Ha]. split; [|by apply (reflexivity (R := fs_step F))].
  split; simpl; [done|by apply Hf|by rewrite He|done].
Qed.
(** A step whose result is known of a good state. *)
Lemma rstep_bind {E T U} (P : T → Prop) (m : St Rx E T) (f : T → St Rx E U) :
  keeps rstep m → (∀ s x s1, rgood s → m s = (Ok x, s1) → P x) →
  (∀ x, P x → keeps rstep (f x)) → keeps rstep (m ≫= f).
Proof.
  intros Hm Hp Hf s Hs. unfold mbind, st_bind. specialize (Hm s).
  destruct (m s) as [[x|e] s1] eqn:Hrun; simpl in *; [|by apply Hm].
  by apply (transitivity (R := rstep) Hm (Hf x (Hp _ _ _ Hs Hrun) s1)).
Qed.

(** *** Staging *)

Lemma inside_ours path names :
  components path = components root ++ names → Forall valid_name names →
  ours F path ∧ owned (fp_roots F) (components path) ∧
  (∀ q, q `prefix_of` components path → fp_allowed F q).
Proof.
  intros Hc Hv. assert (owned (fp_roots F) (components path)) as Hown.
  { exists (components root). split; [done|]. rewrite Hc. by eexists. }
  split_and!; [split; [rewrite Hc; by apply Forall_app|by left]|done|].
  intros q Hq. destruct (prefix_weak_total q (components root) (components path)) as [?|[k ->]];
    [done|rewrite Hc; by eexists|by apply Hway|apply Hunder].
Qed.

Lemma keeps_ensure_inside path names :
  components path = components root ++ names → Forall valid_name names →
  keeps rstep (on_disk (ensure_directory_tree path)).
Proof.
  intros Hc Hv. destruct (inside_ours path names) as ([Hpv _] & _ & Hall); [done..|].
  apply keeps_disk. intros d r d' Hd Hrun. by eapply ensure_directory_tree_run in Hrun as [? _].
Qed.

Lemma parent_inside path names p :
  components path = components root ++ names → Forall valid_name names →
  parent path = Some p → keeps rstep (on_disk (ensure_directory_tree p)).
Proof.
  intros Hc Hv Hp. apply parent_components in Hp as Hpc.
  destruct names as [|name names _] using rev_ind.
  - rewrite app_nil_r in Hc. apply keeps_disk. intros d r d' Hd Hrun.
    eapply ensure_directory_tree_run in Hrun as [? _]; try done.
    + rewrite Hpc, Hc. destruct (components root) as [|x l _] using rev_ind; [done|].
      rewrite removelast_last. by apply Forall_app in Hnames as [? _].
    + intros q Hq. apply Hway. rewrite Hpc, Hc in Hq. etrans; [exact Hq|].
      destruct (components root) as [|x l _] using rev_ind; [done|].
      rewrite removelast_last. by eexists.
  - apply Forall_app in Hv as [Hv _]. apply (keeps_ensure_inside p names); [|done].
    rewrite Hpc, Hc, (assoc_L (++)). by rewrite removelast_last.
Qed.

Lemma on_disk_run {T} (m : FsM T) s r s' :
  on_disk m s = (r, s') →
  ∃ o d', m (rx_disk s) = (o, d') ∧ r = map_err Fails o ∧ rx_disk s' = d' ∧ rx_plan s' = rx_plan s.
Proof.
  unfold on_disk. destruct (m (rx_disk s)) as [o d'] eqn:Hm. intros [= <- <-]. eauto 10.
Qed.

Lemma keeps_stage_file payload kind i e :
  components payload = components root ++ [str "payload"] → entry_inside e →
  keeps rstep (stage_file payload kind (i, e)).
Proof.
  intros Hp He. destruct (staged_path_components payload kind e He) as (names & Hv & Hc).
  assert (components (staged_path payload kind e) = components root ++ (str "payload" :: names))
    as Hc' by (by rewrite Hc, Hp, <- (assoc_L (++))).
  assert (Forall valid_name (str "payload" :: names)) as Hv'.
  { constructor; [apply valid_payload|done]. }
  destruct (inside_ours _ _ Hc' Hv') as (Hours & Hown & Hall).
  unfold stage_file. set (path := staged_path payload kind e) in *.
  apply keeps_bind; [apply _| |intros _].
  { destruct (parent path) as [p|] eqn:Hpp; [|apply keeps_ret, _]. by eapply parent_inside. }
  apply (rstep_bind (λ h, hd_inode h ∉ fp_fixed F)).
  { apply keeps_disk. intros d r d' Hd Hrun. eapply create_new_file_run in Hrun as [? _]; try done.
    by apply Hall. }
  { intros s h s1 [Hd _ _ _] Hrun. apply on_disk_run in Hrun as ([h'|] & d' & Hrun & Ho & _); [|done].
    injection Ho as <-.
    eapply create_new_file_run in Hrun as [_ Hcr]; [|done..|by apply Hall].
    by destruct (Hcr h) as (_ & ? & _). }
  intros h Hh. apply keeps_bind; [apply _|apply keeps_disk_read, keeps_reject|intros _].
  apply keeps_bind; [apply _| |intros _].
  { apply keeps_disk. intros d r d' _ Hrun. by apply preallocate_run with (F := F) in Hrun as [? _]. }
  apply keeps_plan; [done|]. intros p Hf. simpl. apply Forall_app. split; [done|].
  apply Forall_singleton. by intros ? [= <-].
Qed.

Lemma staged_directory_inside payload entries path :
  path ∈ staged_directories payload entries → Forall entry_inside entries →
  ∃ names, Forall valid_name names ∧ components path = components payload ++ names.
Proof.
  unfold staged_directories. rewrite merge_sort_Permutation, hash_set_order_all.
  rewrite elem_of_remove_dups. intros Hin Hall.
  apply list_elem_of_fmap in Hin as (e & -> & [_ He]%list_elem_of_filter).
  rewrite Forall_forall in Hall. by apply entry_components, Hall.
Qed.

Lemma file_entry_inside entries ie :
  ie ∈ file_entries entries → Forall entry_inside entries → entry_inside ie.2.
Proof.
  unfold file_entries. intros [_ Hin]%list_elem_of_filter Hall.
  apply elem_of_lookup_imap in Hin as (i & e & -> & He). simpl. by eapply Forall_lookup_1.
Qed.

Lemma payload_components p :
  components p = components root ++ [] → components (join p (str "payload")) = components root ++ [str "payload"].
Proof.
  rewrite app_nil_r. intros Hp. rewrite components_join, Hp; [done|].
  apply valid_path_name, valid_payload.
Qed.

Lemma keeps_prepare_staging : keeps rstep (receiver_prepare_staging root).
Proof.
  destruct (inside_ours root []) as (Hours & Hown & Hall); [by rewrite app_nil_r|done|].
  pose proof (payload_components root (eq_sym (app_nil_r _))) as Hp.
  assert (Forall valid_name [str "payload"]) as Hv by (repeat constructor; apply valid_payload).
  unfold receiver_prepare_staging.
  apply keeps_lift_bind; [apply _|]. intros p Hpp%map_err_Ok%ok_or_Ok.
  apply keeps_bind; [apply _|eapply (parent_inside root []); [by rewrite app_nil_r|done..]|intros _].
  apply keeps_bind; [apply _| |intros _].
  { apply keeps_disk. intros d r d' Hd Hrun. by eapply create_dir_step in Hrun as [? _]; [..|apply Hall]. }
  apply keeps_bind; [apply _|apply keeps_disk_read, keeps_reject|intros _].
  apply (rstep_bind (λ plan, Forall entry_inside (rp_entries plan))); [apply keeps_get_plan, _; apply _| |].
  { intros s plan s1 [_ _ Hen _] [= <- _]. done. }
  intros plan Hen. apply keeps_bind; [apply _| |intros _].
  { case_bool_decide; [by apply (keeps_ensure_inside _ [str "payload"])|apply keeps_ret, _]. }
  apply keeps_bind; [apply _| |intros _].
  { apply keeps_for_in; [apply _|]. intros path Hin.
    destruct (staged_directory_inside _ _ _ Hin Hen) as (names & Hn & Hc).
    apply (keeps_ensure_inside _ (str "payload" :: names)); [|by constructor; [apply valid_payload|]].
    by rewrite Hc, Hp, <- (assoc_L (++)). }
  apply keeps_bind; [apply _| |intros _; apply keeps_disk_read, keeps_sync].
  apply keeps_for_in; [apply _|]. intros [i e] Hin. apply keeps_stage_file; [done|].
  by apply (file_entry_inside _ _ Hin).
Qed.

(** *** Cleanup *)

Lemma keeps_close {E} : keeps rstep (close_staged_handles (E := E)).
Proof.
  apply keeps_plan; [done|]. intros p _. simpl. apply Forall_fmap, Forall_true. done.
Qed.

Lemma remove_dir_less path d r d' :
  remove_dir path d = (r, d') → ∀ k, dk_nodes d !! k = None → dk_nodes d' !! k = None.
Proof.
  intros Hrun k Hk.
  apply remove_dir_run in Hrun as [(e & _ & -> & _)|(_ & q & _ & _ & _ & -> & _)]; [done|].
  rewrite lookup_delete_None. by right.
Qed.

(** The staging parent goes only if it is empty. *)
Lemma remove_parent_run p d r d' :
  components p = removelast (components root) → good F d →
  (outcome ← st_try (symlink_metadata p);
   match outcome with
   | Err error => if bool_decide (io_kind error = NotFound) then mret () else st_err error
   | Ok t =>
       reject_reparse_point p;;
       if negb (bool_decide (t = Type_Dir)) then mret ()
       else
         outcome ← st_try (remove_dir p);
         match outcome with
         | Ok _ => mret ()
         | Err error =>
             if bool_decide (io_kind error = NotFound)
                || bool_decide (io_kind error = DirectoryNotEmpty)
             then mret () else st_err error
         end
   end) d = (r, d') →
  fs_step F d d' ∧ ∀ k, dk_nodes d !! k = None → dk_nodes d' !! k = None.
Proof.
  intros Hc Hd Hrun.
  assert (ours F p) as Hours.
  { split; rewrite Hc.
    - destruct (components root) as [|x l _] using rev_ind; [done|].
      rewrite removelast_last. by apply Forall_app in Hnames as [? _].
    - right. exists (components root). split; [done|].
      destruct (components root) as [|x l _] using rev_ind; [done|].
      rewrite removelast_last. by eexists. }
  apply st_try_inv in Hrun as (o & d1 & H1 & Hrun). same_disk H1.
  assert (fs_step F d d1) as Hs1 by (by apply step_same). destruct (Hs1 Hd) as [Hd1 _].
  rewrite <- Hn. clear Hd Hn Hi H1.
  assert (∀ r2, (r2, d1) = (r, d') →
    fs_step F d d' ∧ ∀ k, dk_nodes d1 !! k = None → dk_nodes d' !! k = None) as Hdone
    by (by intros r2 [= _ <-]).
  destruct o as [t|e]; [|case_bool_decide; by eapply Hdone].
  step_in Hrun as u d2 H2; same_disk H2; [by split; [etrans; [exact Hs1|apply step_same]|rewrite Hn]|].
  assert (fs_step F d d2) as Hs2 by (etrans; [exact Hs1|by apply step_same]).
  assert (good F d2) as Hd2 by (by apply (step_same F d1 d2 Hn Hi)).
  rewrite <- Hn. case_bool_decide; [|by injection Hrun as _ <-]. cbn [negb] in Hrun.
  apply st_try_inv in Hrun as (o & d3 & H3 & Hrun).
  assert (d3 = d') as <-.
  { destruct o as [[]|e]; [by injection Hrun|]. destruct (_ || _); by injection Hrun. }
  split; [|by eapply remove_dir_less].
  eapply remove_dir_step in H3 as [Hs3 _]; [by etrans|done|].
  right. split; [done|]. by rewrite Hc.
Qed.

Lemma cleanup_staging_run d r d' :
  good F d → cleanup_staging root d = (r, d') →
  fs_step F d d' ∧ (r = Ok () → components root ≠ [] →
    ∀ p, dk_nodes d' !! (components root ++ p) = None).
Proof.
  intros Hd Hrun. destruct (inside_ours root []) as (Hours & Hown & _); [by rewrite app_nil_r|done|].
  assert (removable F root) as Hrem by (by left).
  unfold cleanup_staging in Hrun.
  step_in Hrun as u d1 H1; eapply remove_owned_tree_run in H1 as [Hs1 Hgone]; try done.
  destruct u. destruct (parent root) as [p|] eqn:Hpp; [|by injection Hrun as _ <-; auto].
  apply parent_components in Hpp. destruct (Hs1 Hd) as [Hd1 _].
  eapply remove_parent_run in Hrun as [Hs2 Hless]; [|done..].
  split; [by etrans|]. intros _ Hne q. by apply Hless, Hgone.
Qed.

Lemma keeps_cleanup : keeps rstep (cleanup_activation root).
Proof.
  unfold cleanup_activation. apply keeps_bind; [apply _|apply keeps_close|intros _].
  apply keeps_disk. intros d r d' Hd Hrun. by apply cleanup_staging_run in Hrun as [? _].
Qed.

Lemma keeps_cleanup_state id : keeps rstep (cleanup_activation_state root id).
Proof.
  unfold cleanup_activation_state. apply keeps_bind; [apply _|apply keeps_map_stop, keeps_cleanup|].
  intros _. apply keeps_map_stop, keeps_store_rstep, fs_remove_journal.
Qed.

(** *** The payload *)

#[local] Hint Extern 1 (subrelation _ _) => apply _ : keeps.
Lemma keeps_verify ok files count detail : keeps rstep (verify ok files count detail).
Proof. apply keeps_lift, _. Qed.
Lemma keeps_plan_text {E} text : keeps rstep (update_plan (E := E) (plan_with_text text)).
Proof. by apply keeps_plan. Qed.
Lemma keeps_message_or_abort activation files count :
  keeps rstep (message_or_abort activation files count).
Proof. unfold message_or_abort. keeps_tac. Qed.
#[local] Hint Resolve keeps_verify keeps_plan_text keeps_message_or_abort : keeps.

Lemma keeps_receive_text activation : keeps rstep (receive_text activation).
Proof. unfold receive_text. keeps_tac. Qed.

Lemma keeps_on_file {T} files count (m : FsM T) :
  (∀ d r d', good F d → m d = (r, d') → fs_step F d d') → keeps rstep (on_file files count m).
Proof.
  intros Hm. unfold on_file. apply keeps_bind; [apply _|apply keeps_on_peer; apply _|intros _].
  by apply keeps_map_stop, keeps_disk.
Qed.

Lemma keeps_receive_bytes tries h remaining files count hashed :
  hd_inode h ∉ fp_fixed F → keeps rstep (receive_bytes tries h remaining files count hashed).
Proof.
  revert h remaining count hashed. induction tries as [|tries IH]; intros h remaining count hashed Hh;
    cbn [receive_bytes]; destruct (remaining <=? 0); try (apply keeps_ret, _); [apply keeps_fail, _|].
  apply keeps_bind; [apply _|apply keeps_cancelled; apply _|intros []]; [apply keeps_fail, _|].
  cbv zeta. apply keeps_bind; [apply _|apply keeps_on_peer; apply _|intros data].
  case_bool_decide; [apply keeps_fail, _|].
  apply (rstep_bind (λ h', hd_inode h' ∉ fp_fixed F)).
  - apply keeps_on_file. intros d r d' _ Hrun. by eapply file_write_step in Hrun.
  - intros s h' s1 _ Hrun. unfold on_file in Hrun. inv_st.
    match goal with H : map_stop _ _ _ = _ |- _ => apply st_map_err_Ok, on_disk_run in H as ([h2|] & d' & Hw & Ho & _) end;
      [|done]. injection Ho as ->.
    apply file_write_run in Hw as (w & _ & _ & Hw). by destruct (Hw h2 eq_refl) as [_ ->].
  - intros h' Hh'. by apply IH.
Qed.

Lemma keeps_take_file k : keeps rstep (take_file k).
Proof.
  unfold take_file. apply keeps_bind; [apply _|apply keeps_get_plan; apply _|intros plan].
  apply keeps_bind; [apply _| |intros _; apply keeps_ret, _].
  apply keeps_plan; [done|]. intros p Hp. simpl. rewrite Forall_lookup in Hp |- *.
  intros i f Hf. destruct (decide (i = k)) as [->|Hne].
  - rewrite list_lookup_alter_eq, fmap_Some in Hf. by destruct Hf as (g & _ & ->).
  - rewrite list_lookup_alter_ne in Hf by done. by eapply Hp.
Qed.

Lemma take_file_fresh k s h s1 :
  rgood s → take_file k s = (Ok (Some h), s1) → hd_inode h ∉ fp_fixed F.
Proof.
  intros [_ Hh _ _] [= Hf _].
  destruct (rp_staged_files (rx_plan s) !! k) as [f|] eqn:Hk; [|done].
  rewrite Forall_lookup in Hh. by eapply Hh.
Qed.

Lemma keeps_receive_file activation k staged pg : keeps rstep (receive_file activation k staged pg).
Proof.
  unfold receive_file. apply keeps_bind; [apply _|eauto with keeps|]. intros message.
  destruct message; try (apply keeps_fail, _).
  apply keeps_bind; [apply _|apply keeps_get_plan; apply _|intros plan].
  apply keeps_bind; [apply _|apply keeps_lift_stop, _|intros entry].
  apply keeps_bind; [apply _|apply keeps_verify|intros _].
  apply (rstep_bind (λ taken, ∀ h, taken = Some h → hd_inode h ∉ fp_fixed F)); [apply keeps_take_file| |].
  { intros s [h0|] s1 Hs Hrun; [|done]. intros h [= <-]. by eapply take_file_fresh. }
  intros taken Htaken. apply keeps_lift_bind; [apply _|]. intros h Hh%map_err_Ok%ok_or_Ok.
  apply keeps_bind; [apply _|apply keeps_receive_bytes; by apply Htaken|intros [hashed count]].
  apply keeps_bind; [apply _| |intros _].
  { apply keeps_on_file. intros d r d' _ Hrun. unfold sync_all in Hrun. same_disk Hrun.
    by apply step_same. }
  cbv zeta. keeps_tac.
Qed.

Lemma keeps_receive_files activation staged k pg :
  keeps rstep (receive_files activation k staged pg).
Proof.
  revert k pg. induction staged as [|f staged IH]; intros k pg; cbn [receive_files];
    [apply keeps_ret, _|].
  apply keeps_bind; [apply _|apply keeps_receive_file|intros pg'; apply IH].
Qed.

Lemma keeps_receive_payload activation : keeps rstep (receive_payload activation root).
Proof.
  unfold receive_payload. apply keeps_bind; [apply _|apply keeps_get_plan; apply _|intros plan].
  case_bool_decide; [apply keeps_receive_text|].
  apply keeps_bind; [apply _|apply keeps_receive_files|intros pg].
  apply keeps_bind; [apply _|apply keeps_on_peer; apply _|intros complete].
  apply keeps_bind; [apply _|apply keeps_verify|intros _].
  apply keeps_map_stop, keeps_disk_read, keeps_sync.
Qed.

(** *** Publication *)

(** A name that may be published: wherever it leads, that is allowed. *)
Definition publishable (path : PathBuf) : Prop := ∀ d q k,
  good F d → lookup_path false path d = Ok q → fp_allowed F (q ++ k).

Lemma payload_ours :
  ours F (join root (str "payload")) ∧ owned (fp_roots F) (components (join root (str "payload"))).
Proof.
  destruct (inside_ours (join root (str "payload")) [str "payload"]) as (? & ? & _); [..|done].
  - apply payload_components. by rewrite app_nil_r.
  - constructor; [apply valid_payload|done].
Qed.

Lemma keeps_finalize final_path kind :
  publishable final_path → keeps rstep (finalize_payload (join root (str "payload")) final_path kind).
Proof.
  intros Hpub. destruct payload_ours as [Hours Hown]. unfold finalize_payload.
  apply keeps_bind; [apply _|apply keeps_map_stop, keeps_disk_read, keeps_reject|intros _].
  apply keeps_bind; [apply _|apply keeps_lift_stop, _|intros p].
  apply keeps_bind; [apply _|apply keeps_map_stop, keeps_disk_read, keeps_require|intros _].
  case_bool_decide.
  - apply keeps_bind; [apply _| |intros _].
    { apply keeps_disk_net. intros d r d' Hd Hrun. eapply hard_link_step in Hrun; try done.
      intros q Hq. rewrite <- (app_nil_r q). by eapply Hpub. }
    apply keeps_bind; [apply _|apply keeps_on_peer; apply _|intros _].
    apply keeps_disk_net. intros d r d' Hd Hrun. eapply remove_file_step in Hrun; [done..|].
    by left.
  - apply keeps_disk_net. intros d r d' Hd Hrun. eapply rename_step in Hrun; try done.
    intros q Hq k. by eapply Hpub.
Qed.

Lemma keeps_publish_loop directory root_name kind index tries :
  (∀ name, portable_component name → publishable (join directory name)) →
  keeps rstep (publish_loop (join root (str "payload")) directory root_name kind index tries).
Proof.
  intros Hdir. revert index. induction tries as [|tries IH]; intros index; cbn [publish_loop];
    [apply keeps_ret, _|].
  apply keeps_lift_bind; [apply _|]. intros final_path Hf%map_err_Ok.
  unfold collision_candidate in Hf. inv_res.
  match goal with H : collision_name _ _ _ = _ |- _ =>
    apply collision_name_portable in H end.
  match goal with H : mret _ = Ok _ |- _ => injection H as <- end.
  apply keeps_bind; [apply _|apply keeps_try_stop; by apply keeps_finalize, Hdir|].
  intros [[]|error]; [apply keeps_ret, _|]. destruct (is_exists error); [apply IH|apply keeps_fail, _].
Qed.

Context (state_root : PathBuf) (fresh_activation : ActivationId) (fresh_offer : OfferId)
  (fresh_id : rstr) (activation : FetchActivation).

Lemma keeps_without_overwrite directory root_name kind :
  (∀ name, portable_component name → publishable (join directory name)) →
  keeps rstep (finalize_payload_without_overwrite fresh_id (join root (str "payload"))
    directory root_name kind).
Proof.
  intros Hdir. unfold finalize_payload_without_overwrite.
  apply keeps_bind; [apply _|apply keeps_map_stop, keeps_disk_read, keeps_require|intros _].
  apply keeps_bind; [apply _|by apply keeps_publish_loop|]. intros [path|]; [apply keeps_ret, _|].
  apply keeps_lift_bind; [apply _|].
  intros name Hn%map_err_Ok%map_err_Ok%component_with_suffix_portable.
  cbv zeta. apply keeps_bind; [apply _|by apply keeps_finalize, Hdir|].
  intros _. apply keeps_ret, _.
Qed.

(** What the walk needs of the names the content is published under, and of what the
    clipboard cache removes. *)
Definition publishes (destination : option PathBuf) : Prop :=
  ∀ directory name, destination = Some directory →
    (fa_mode activation = Mode_Clipboard →
       publishable (join directory (str "candidate-"
         ++ uuid_to_string (ActivationId_as_uuid (fa_request_id activation))))) ∧
    (fa_mode activation = Mode_Save → portable_component name →
       publishable (join directory name)).
Definition evicts : Prop := fa_mode activation = Mode_Clipboard → ∀ q n, fp_exempt F q n.

Lemma keeps_owned {T} (m : St (World Disk) StoreError T) :
  keeps (same_on (w_fs (FS := Disk))) m → keeps rstep (store_owned m).
Proof. intros Hm. by apply keeps_map_stop, keeps_store_rstep. Qed.
#[local] Hint Resolve keeps_owned keeps_store_rstep keeps_finalize keeps_disk_read : keeps.

Lemma keeps_publish descriptor destination :
  publishes destination →
  keeps rstep (publish fresh_id activation descriptor root destination).
Proof.
  intros Hpub. unfold publish. apply keeps_bind; [apply _|apply keeps_owned, fs_update_state|intros _].
  destruct (descriptor_is_text descriptor); [apply keeps_ret, _|].
  apply keeps_lift_bind; [apply _|]. intros directory Hdir%map_err_Ok%ok_or_Ok.
  apply keeps_bind; [apply _|apply keeps_map_stop, keeps_disk_read, keeps_require|intros _].
  apply keeps_bind; [apply _|apply keeps_get_plan; apply _|intros plan]. cbv zeta.
  apply keeps_bind; [apply _| |intros path].
  - case_bool_decide as Hmode.
    + apply keeps_bind; [apply _|apply keeps_finalize|intros _; apply keeps_ret, _].
      destruct (Hpub directory [] Hdir) as [Hc _]. by apply Hc.
    + apply keeps_without_overwrite. intros name. destruct (Hpub directory name Hdir) as [_ Hs].
      apply Hs. by destruct (fa_mode activation).
  - apply keeps_bind; [apply _| |intros _; apply keeps_ret, _].
    destruct (parent path); [apply keeps_map_stop, keeps_disk_read, keeps_sync|apply keeps_ret, _].
Qed.

(** *** The side effect *)

Lemma keeps_disk_sub {E T} (m : St Rx E T) : keeps off_disk m → keeps rstep m.
Proof. apply keeps_sub, _. Qed.
Lemma keeps_undo {E} detail prefix outcome : keeps off_disk (undo (E := E) detail prefix outcome).
Proof. unfold undo, block_cleanup. keeps_tac. Qed.
#[local] Hint Resolve keeps_undo : keeps.
Lemma keeps_apply_text text : keeps off_disk (apply_text activation text).
Proof. unfold apply_text, mark_clipboard_application. keeps_tac. Qed.

Lemma keeps_remove_cache path :
  (∀ q n, fp_exempt F q n) → keeps rstep (on_disk (remove_published_cache_object path)).
Proof.
  intros Hex. assert (∀ p, removable F p) as Hrem by (by right).
  apply keeps_disk. intros d r d' Hd Hrun. unfold remove_published_cache_object in Hrun.
  apply st_try_inv in Hrun as (o & d1 & H1 & Hrun). same_disk H1.
  destruct o as [t|e]; [|case_bool_decide; injection Hrun as _ <-; by apply step_same].
  step_in Hrun as u d2 H2; same_disk H2; [apply step_same; congruence|].
  eapply (step_then _ d _ d'); [apply (step_same F d d2); congruence|]. intros Hd2.
  case_bool_decide; [by eapply remove_owned_tree_run in Hrun as [? _]|by eapply remove_file_step].
Qed.

Lemma keeps_apply_files path : (∀ q n, fp_exempt F q n) → keeps rstep (apply_files activation path).
Proof.
  intros Hex. unfold apply_files, mark_clipboard_application.
  apply keeps_bind; [apply _|apply keeps_map_stop, keeps_store_rstep, fs_update_state|intros _].
  cbv zeta. apply keeps_bind; [apply _|apply keeps_try_stop, keeps_store_rstep, fs_set_cache|].
  intros [[]|error].
  - apply keeps_bind; [apply _|apply keeps_try_stop, keeps_disk_sub, keeps_clipboard_off_disk|].
    intros [[]|error].
    + apply keeps_bind; [apply _|apply keeps_map_stop, keeps_store_rstep, fs_promote_cache|].
      intros previous. apply keeps_bind; [apply _| |intros _; apply keeps_disk_sub, keeps_flags_off_disk].
      destruct previous as [previous|]; [|apply keeps_ret, _].
      case_match; [apply keeps_ret, _|].
      apply keeps_bind; [apply _|by apply keeps_try_stop, keeps_remove_cache|].
      intros [[]|error]; [apply keeps_ret, _|]. apply keeps_disk_sub. keeps_tac.
    + case_match; [apply keeps_disk_sub; keeps_tac|].
      apply keeps_bind; [apply _|apply keeps_try_stop, keeps_store_rstep, fs_clear_cache|intros cc].
      apply keeps_bind; [apply _|by apply keeps_try_stop, keeps_remove_cache|intros pc].
      apply keeps_disk_sub. keeps_tac.
  - apply keeps_bind; [apply _|by apply keeps_try_stop, keeps_remove_cache|intros pc].
    apply keeps_disk_sub. keeps_tac.
Qed.

Lemma keeps_side_effect descriptor text published :
  evicts → keeps rstep (apply_side_effect activation descriptor text published).
Proof.
  intros Hev. unfold apply_side_effect.
  destruct (descriptor_is_text descriptor), (fa_mode activation) eqn:Hmode, published as [path|];
    try (apply keeps_fail, _); try (apply keeps_ret, _);
    [by apply keeps_apply_files, Hev|apply keeps_disk_sub, keeps_apply_text|
     by apply keeps_apply_files, Hev].
Qed.

(** *** Reports *)

Lemma keeps_record code files count detail :
  keeps off_disk (record_attempt_with_counts activation code files count detail).
Proof. unfold record_attempt_with_counts, store_owned. keeps_tac. Qed.
Lemma keeps_record_attempt code detail : keeps off_disk (record_attempt activation code detail).
Proof. unfold record_attempt. apply keeps_bind; [apply _|apply keeps_get_plan; apply _|]. intros plan. apply keeps_record. Qed.
Lemma keeps_receipt code files count detail :
  keeps elsewhere (send_receipt code files count detail activation).
Proof. apply keeps_conn; apply _. Qed.
Lemma keeps_admission code entries count detail :
  keeps elsewhere (write_admission (fa_request_id activation) code entries count detail).
Proof. apply keeps_conn; apply _. Qed.
Lemma keeps_terminal {T} code files count detail :
  keeps elsewhere (finish_terminal (T := T) code files count detail activation).
Proof. unfold finish_terminal. apply keeps_bind; [apply _|apply keeps_receipt|intros _; apply keeps_fail, _]. Qed.
Lemma sub_off_disk {E T} (m : St Rx E T) : keeps elsewhere m → keeps off_disk m.
Proof. apply keeps_sub, _. Qed.
#[local] Hint Resolve keeps_record keeps_record_attempt keeps_receipt keeps_admission
  keeps_terminal : keeps.

Lemma keeps_uncertain {T} files count detail :
  keeps off_disk (finish_uncertain (T := T) activation files count detail).
Proof.
  unfold finish_uncertain, block_cleanup.
  apply keeps_bind; [apply _|keeps_tac|]. intros [[]|error]; [|keeps_tac].
  apply keeps_bind; [apply _|keeps_tac|]. intros [[]|error]; [|keeps_tac].
  apply keeps_bind; [apply _|keeps_tac|intros _].
  apply keeps_bind; [apply _|apply keeps_safe, _|intros text]. apply sub_off_disk, keeps_terminal.
Qed.

Lemma keeps_refuse {T} code detail :
  keeps off_disk (refuse_admission (T := T) activation code detail).
Proof.
  unfold refuse_admission. apply keeps_bind; [apply _|apply sub_off_disk, keeps_admission|intros _].
  apply keeps_bind; [apply _|apply keeps_record|intros _]. apply keeps_fail, _.
Qed.

Lemma keeps_disarm : keeps off_disk guard_disarm.
Proof. by intros s. Qed.
Lemma keeps_guard_keep : keeps off_disk guard_keep.
Proof. by intros s. Qed.
Lemma keeps_arm id : keeps rstep (guard_arm root id).
Proof.
  intros s [Hg Hh He Ha]. split; [|by apply (reflexivity (R := fs_step F))].
  split; [done..|]. by intros path id' [= <- _].
Qed.

Context (Hstaging : staging_root_of state_root activation = root).

Lemma keeps_abandon failed : keeps rstep (abandon state_root activation failed).
Proof.
  unfold abandon. rewrite Hstaging.
  apply keeps_bind; [apply _|apply keeps_try_stop, keeps_cleanup_state|intros outcome].
  apply keeps_bind; [apply _|apply keeps_release; apply _|intros _].
  apply keeps_disk_sub. destruct outcome as [[]|error]; [apply keeps_disarm|].
  unfold block_cleanup. apply keeps_bind; [apply _|apply keeps_flags_off_disk|intros _].
  apply keeps_bind; [apply _|apply keeps_guard_keep|intros _]. apply keeps_fail, _.
Qed.

Lemma keeps_uncertain_from keep detail : keeps off_disk (uncertain_from activation keep detail).
Proof.
  unfold uncertain_from, block_cleanup. apply keeps_bind; [apply _|apply keeps_flags_off_disk|intros _].
  apply keeps_bind; [apply _|destruct keep; [apply keeps_guard_keep|apply keeps_ret, _]|intros _].
  apply keeps_bind; [apply _|apply keeps_get_plan; apply _|intros plan]. apply keeps_uncertain.
Qed.

(** All but the cleanup is off the disk. *)
Lemma keeps_settle_by (R : relation Rx) `{!PreOrder R} `{!subrelation off_disk R} :
  keeps R (cleanup_activation root) → keeps R (settle state_root activation).
Proof.
  intros Hcleanup. unfold settle. rewrite Hstaging.
  apply keeps_bind; [apply _|by apply keeps_try_stop|intros outcome].
  apply (keeps_sub R off_disk).
  apply keeps_bind; [apply _|destruct outcome; [apply keeps_ret, _|apply keeps_uncertain_from]|intros _].
  apply keeps_bind; [apply _|keeps_tac|intros outcome2].
  apply keeps_bind; [apply _|destruct outcome2; [apply keeps_ret, _|apply keeps_uncertain_from]|intros _].
  apply keeps_bind; [apply _|keeps_tac|intros outcome3].
  apply keeps_bind; [apply _|destruct outcome3; [apply keeps_ret, _|apply keeps_uncertain_from]|intros _].
  apply keeps_bind; [apply _|keeps_tac|intros outcome4].
  apply keeps_bind; [apply _|destruct outcome4; [apply keeps_ret, _|apply keeps_uncertain_from]|intros _].
  apply keeps_bind; [apply _|apply keeps_disarm|intros _].
  apply keeps_bind; [apply _|apply keeps_release; apply _|intros _].
  apply keeps_bind; [apply _|apply keeps_get_plan; apply _|intros plan].
  apply sub_off_disk, keeps_receipt.
Qed.
Lemma keeps_settle : keeps rstep (settle state_root activation).
Proof. apply (keeps_settle_by rstep), keeps_cleanup. Qed.

(** *** The phases *)

Lemma keeps_stage : keeps rstep (stage state_root activation).
Proof.
  unfold stage. rewrite Hstaging. apply keeps_bind; [apply _|apply keeps_get_plan; apply _|intros plan].
  cbv zeta. apply keeps_bind; [apply _|apply keeps_owned, fs_journal|intros _].
  apply keeps_bind; [apply _|apply keeps_arm|intros _].
  apply keeps_bind; [apply _|apply keeps_try_stop, keeps_prepare_staging|intros outcome].
  apply keeps_bind; [apply _| |intros _].
  - destruct outcome as [[]|error]; [apply keeps_ret, _|].
    apply keeps_bind; [apply _|apply keeps_abandon|intros _].
    apply keeps_disk_sub. apply keeps_bind; [apply _|apply keeps_safe, _|intros text].
    apply keeps_refuse.
  - apply keeps_bind; [apply _|apply keeps_map_stop, keeps_disk_read, keeps_reject|].
    intros _. apply keeps_ret, _.
Qed.

Lemma keeps_cancel_between files count : keeps rstep (cancel_between state_root activation files count).
Proof.
  unfold cancel_between. apply keeps_bind; [apply _|apply keeps_cancelled; apply _|].
  intros []; [|apply keeps_ret, _].
  apply keeps_bind; [apply _|apply keeps_abandon|intros _]. apply keeps_disk_sub.
  apply keeps_bind; [apply _|apply keeps_record|intros _].
  apply keeps_bind; [apply _|apply keeps_shutdown; apply _|intros _]. apply keeps_fail, _.
Qed.

Ltac report_tac :=
  repeat first
    [ apply keeps_record | apply keeps_fail, _ | apply keeps_safe, _ | apply keeps_get_plan, _
    | apply sub_off_disk, keeps_terminal | apply sub_off_disk, keeps_receipt
    | apply keeps_shutdown; apply _ | apply keeps_try_stop
    | progress cbv zeta
    | case_match
    | apply keeps_bind; [apply _| |intros ?] ].
Lemma keeps_report_failure failure : keeps off_disk (report_failure activation failure).
Proof. unfold report_failure. report_tac. Qed.
Lemma keeps_report_publication error : keeps off_disk (report_publication activation error).
Proof. unfold report_publication. report_tac. Qed.
Lemma keeps_report_side_effect error : keeps off_disk (report_side_effect activation error).
Proof. unfold report_side_effect. report_tac. Qed.

Lemma keeps_conclude_failure failure :
  keeps rstep (conclude_failure state_root activation failure).
Proof.
  unfold conclude_failure. apply keeps_bind; [apply _|apply keeps_abandon|intros _].
  apply keeps_disk_sub, keeps_report_failure.
Qed.

Context (descriptor : OfferDescriptor) (destination : option PathBuf) (Hev : evicts).

Lemma keeps_apply_published published :
  keeps rstep (apply_published state_root activation descriptor published).
Proof.
  unfold apply_published. apply keeps_bind; [apply _|apply keeps_get_plan; apply _|intros plan].
  cbv zeta. apply keeps_bind; [apply _|by apply keeps_try_stop, keeps_side_effect|intros outcome].
  destruct outcome as [[]|[error|error]]; [apply keeps_ret, _| |].
  - apply keeps_bind; [apply _|apply keeps_abandon|intros _].
    apply keeps_disk_sub, keeps_report_side_effect.
  - apply keeps_disk_sub. apply keeps_bind; [apply _|apply keeps_guard_keep|intros _].
    apply keeps_bind; [apply _|apply keeps_release; apply _|intros _]. apply keeps_uncertain.
Qed.

(** All but the publication is in [rstep]; what the publication keeps, the whole run keeps. *)
Section around_publication.
Context (Q : relation Rx) {absorbs : Absorbs rstep Q}.
Context (Hpublish : keeps Q (publish fresh_id activation descriptor root destination)).

Lemma keeps_publish_verified :
  keeps Q (publish_verified state_root fresh_id activation descriptor destination).
Proof.
  unfold publish_verified. rewrite Hstaging.
  apply (keeps_before rstep); [done|apply keeps_owned, fs_update_state|intros _].
  apply (keeps_after rstep); [done|by apply keeps_try_stop|intros outcome].
  destruct outcome as [published|error]; [apply keeps_ret, _|].
  apply keeps_bind; [apply _|apply keeps_abandon|intros _].
  apply keeps_disk_sub, keeps_report_publication.
Qed.

Lemma keeps_conclude :
  keeps Q (conclude state_root fresh_id activation descriptor destination).
Proof.
  unfold conclude. apply (keeps_before rstep); [done|apply keeps_get_plan; apply _|intros plan].
  apply (keeps_before rstep); [done|apply keeps_cancel_between|intros _].
  apply (keeps_after rstep); [done|apply keeps_publish_verified|intros published].
  apply keeps_bind; [apply _|apply keeps_disk_sub, keeps_guard_keep|intros _].
  apply keeps_bind; [apply _|apply keeps_apply_published|intros _]. apply keeps_settle.
Qed.

Lemma keeps_admitted :
  keeps Q (receive_admitted state_root fresh_id activation descriptor destination).
Proof.
  unfold receive_admitted. rewrite Hstaging.
  apply (keeps_before rstep); [done|apply keeps_stage|intros _].
  apply (keeps_before rstep); [done|apply keeps_get_plan; apply _|intros plan].
  apply (keeps_before rstep); [done|apply keeps_disk_sub, sub_off_disk, keeps_admission|intros _].
  apply (keeps_before rstep); [done|apply keeps_owned, fs_update_state|intros _].
  apply (keeps_before rstep); [done|apply keeps_cancel_between|intros _].
  apply (keeps_before rstep); [done|apply keeps_try_stop, keeps_receive_payload|intros outcome].
  destruct outcome as [[]|failure]; [apply keeps_conclude|].
  apply (keeps_absorbed rstep); [done|apply keeps_conclude_failure].
Qed.
End around_publication.

(** *** The way out *)

Lemma rstep_drop_permit s : rstep s (drop_permit s).
Proof. apply off_disk_rstep. unfold drop_permit. by destruct (rx_permit s). Qed.

Lemma rstep_guard_drop s : rstep s (guard_drop s).
Proof.
  unfold guard_drop. destruct (_ || _); [reflexivity|].
  destruct (gu_armed (rx_guard s)) as [[path id]|] eqn:Hg; [|reflexivity].
  intros Hs. pose proof (rg_armed _ Hs path id Hg) as ->.
  assert (keeps rstep (on_disk (remove_owned_tree root))) as Hd.
  { apply keeps_disk. intros d r d' Hd Hrun.
    destruct (inside_ours root []) as (Hours & Hown & _); [by rewrite app_nil_r|done|].
    eapply remove_owned_tree_run in Hrun as [? _]; [done..|by left]. }
  assert (keeps rstep (on_store (remove_activation_journal id))) as Hj
    by apply keeps_store_rstep, fs_remove_journal.
  specialize (Hd s). destruct (on_disk _ s) as [r1 s1]. simpl in Hd.
  specialize (Hj s1). destruct (on_store _ s1) as [r2 s2]. simpl in Hj.
  apply (transitivity (R := rstep) (y := s1)); [done| |done]. etrans; [exact Hj|].
  destruct (_ || _); [|reflexivity]. by apply off_disk_rstep.
Qed.
Lemma rstep_end_of_scope s : rstep s (end_of_scope s).
Proof. unfold end_of_scope. etrans; [apply rstep_drop_permit|apply rstep_guard_drop]. Qed.
(** *** Admission *)

Context (Hdest : ∀ path, destination_for state_root activation descriptor = Ok (Some path) →
  Forall valid_name (components path) ∧ ∀ q, q `prefix_of` components path → fp_allowed F q).

Lemma keeps_prepare_destination path :
  destination_for state_root activation descriptor = Ok (Some path) →
  keeps rstep (prepare_destination activation path).
Proof.
  intros Hp. destruct (Hdest _ Hp) as [Hv Hall].
  assert (∀ error, keeps rstep (text ← safe (io_message error);
    refuse_admission activation Admission_DestinationUnavailable (Some text) : M ())) as Hrefuse.
  { intros error. apply keeps_disk_sub. apply keeps_bind; [apply _|apply keeps_safe, _|].
    intros text. apply keeps_refuse. }
  unfold prepare_destination. cbv zeta.
  apply keeps_bind; [apply _|apply keeps_try_stop, keeps_disk|intros o].
  { intros d r d' Hd Hrun. by eapply ensure_directory_tree_run in Hrun as [? _]. }
  apply keeps_bind; [apply _|by destruct o as [[]|e]; [apply keeps_ret, _|apply Hrefuse]|intros _].
  apply keeps_bind; [apply _|apply keeps_try_stop, keeps_disk_read, keeps_require|intros o'].
  by destruct o' as [[]|e]; [apply keeps_ret, _|apply Hrefuse].
Qed.

Lemma prepare_destination_Ok path s s' :
  destination_for state_root activation descriptor = Ok (Some path) → rgood s →
  prepare_destination activation path s = (Ok (), s') →
  node_at (dk_nodes (rx_disk s')) (components path) = Some Dir.
Proof.
  intros Hp Hs Hrun. destruct (Hdest _ Hp) as [Hv Hall].
  unfold prepare_destination in Hrun. cbv zeta in Hrun.
  ok_in Hrun as o s1 H1. ok_in Hrun as u s2 H2. destruct o as [[]|e].
  - apply try_stop_Ok, on_disk_run in H1 as ([[]|] & d1 & H1 & Ho & <- & _); [|done].
    eapply (ensure_directory_tree_run F) in H1 as [_ Hdir]; [|exact Hv|exact Hall|apply Hs].
    injection H2 as _ <-. ok_in Hrun as o' s3 H3. destruct o' as [[]|e].
    + injection Hrun as <-. apply try_stop_Ok, on_disk_run in H3 as (o & d3 & H3 & _ & <- & _).
      same_disk H3. rewrite Hn. by apply Hdir.
    + exfalso. ok_in Hrun as text s4 H4. by apply refuse_not_Ok in Hrun.
  - exfalso. ok_in H2 as text s4 H4. by apply refuse_not_Ok in H2.
Qed.

Lemma keeps_admit : keeps rstep (admit_fetch state_root activation descriptor).
Proof.
  unfold admit_fetch. apply (rstep_bind (λ path, destination_for state_root activation descriptor = Ok path)).
  { destruct (destination_for _ _ _); [apply keeps_ret, _|apply keeps_disk_sub, keeps_refuse]. }
  { intros s x s1 _ Hrun. destruct (destination_for _ _ _); [by injection Hrun as <- _|].
    by apply refuse_not_Ok in Hrun. }
  intros path Hp. apply keeps_bind; [apply _|apply keeps_get, _|intros s].
  apply keeps_bind; [apply _|destruct (ow_uncertain_clipboard _);
    [apply keeps_ret, _|apply keeps_owned, fs_has_uncertain]|intros uncertain].
  apply keeps_bind; [apply _|case_match; [apply keeps_disk_sub, keeps_refuse|apply keeps_ret, _]|intros _].
  apply keeps_bind; [apply _|destruct path as [path|]; [by apply keeps_prepare_destination|apply keeps_ret, _]|].
  intros _. apply keeps_bind; [apply _|apply keeps_get_plan; apply _|intros plan].
  apply keeps_bind; [apply _| |intros _; apply keeps_ret, _].
  case_match; [apply keeps_ret, _|].
  apply keeps_bind; [apply _|apply keeps_lift_stop, _|intros directory].
  apply keeps_bind; [apply _|apply keeps_try_stop, keeps_reserve; apply _|intros o].
  destruct o as [[]|[]]; try (apply keeps_ret, _); try (apply keeps_disk_sub, keeps_refuse);
    (apply keeps_bind; [apply _|apply keeps_safe, _|intros text]; apply keeps_disk_sub, keeps_refuse).
Qed.

Lemma admit_Ok s path s' :
  rgood s → admit_fetch state_root activation descriptor s = (Ok path, s') →
  destination_for state_root activation descriptor = Ok path ∧
  (∀ directory, path = Some directory →
     node_at (dk_nodes (rx_disk s')) (components directory) = Some Dir).
Proof.
  intros Hs Hrun. unfold admit_fetch in Hrun. ok_in Hrun as path1 s1 H1.
  assert (destination_for state_root activation descriptor = Ok path1 ∧ s1 = s) as [Hp ->].
  { destruct (destination_for _ _ _); [by injection H1 as <- <-|]. by apply refuse_not_Ok in H1. }
  ok_in Hrun as s2 s3 H3. injection H3 as -> ->. ok_in Hrun as uncertain s4 H4.
  assert (rgood s4) as Hs4.
  { assert (keeps rstep (if ow_uncertain_clipboard (rx_owner s3) then mret true
                         else store_owned has_uncertain_side_effect : M bool)) as Hk.
    { destruct (ow_uncertain_clipboard _); [apply keeps_ret, _|apply keeps_owned, fs_has_uncertain]. }
    specialize (Hk s3). rewrite H4 in Hk. by apply Hk. }
  ok_in Hrun as u s5 H5. assert (s5 = s4) as ->.
  { destruct (bool_decide _ && _); [by apply refuse_not_Ok in H5|by injection H5]. }
  ok_in Hrun as u6 s6 H6. ok_in Hrun as plan s7 H7. injection H7 as <- <-.
  ok_in Hrun as u8 s8 H8. injection Hrun as <- <-. split; [done|]. intros directory ->.
  destruct u6. apply prepare_destination_Ok in H6; [|done..].
  assert (dk_nodes (rx_disk s8) = dk_nodes (rx_disk s6)) as ->; [|done].
  revert H8. destruct (negb _); [by intros [= _ <-]|]. intros Hrun.
  ok_in Hrun as directory9 s9 H9. injection H9 as _ <-. ok_in Hrun as o s10 H10.
  assert (rx_disk s10 = rx_disk s6) as Hd.
  { pose proof (keeps_try_stop off_disk (E' := NetError) _
      (keeps_reserve off_disk directory9 (rp_total_bytes (rx_plan s6))) s6) as Hk.
    rewrite H10 in Hk. by injection Hk. }
  destruct o as [[]|[]]; try (by injection Hrun as _ <-; rewrite Hd); exfalso;
    try (by apply refuse_not_Ok in Hrun);
    (ok_in Hrun as text s11 H11; by apply refuse_not_Ok in Hrun).
Qed.
End walk.

(** ** Before admission *)

Section head.
Context {iter : RedbIter} {uuid_text : UuidText} {dbg : DebugText} {lower : Lowercase} {sha : Sha256}.
Context `{!Json OfferSourceRecord} `{!Json OfferCardRecord}.
Context `{!Json ActivationJournalEntry} `{!Json ClipboardCacheRecord}.
Context `{!Json V2Message} `{!Json (list ManifestEntry)}.
Context (state_root : PathBuf) (fresh_activation : ActivationId) (fresh_offer : OfferId).
Context (activation : FetchActivation).

Lemma quiet_record code files count detail :
  keeps quiet (record_attempt_with_counts activation code files count detail).
Proof.
  unfold record_attempt_with_counts, store_owned. apply keeps_bind; [apply _|keeps_tac|intros status].
  apply keeps_map_stop, keeps_store_quiet; eauto with keeps.
Qed.
Lemma quiet_elsewhere {E T} (m : St Rx E T) : keeps elsewhere m → keeps quiet m.
Proof. apply keeps_sub, _. Qed.
Lemma quiet_terminal {T} code files count detail :
  keeps quiet (finish_terminal (T := T) code files count detail activation).
Proof. apply quiet_elsewhere, keeps_terminal. Qed.
Lemma quiet_receipt code files count detail :
  keeps quiet (send_receipt code files count detail activation).
Proof. apply quiet_elsewhere, keeps_receipt. Qed.

(** The reports keep what was cleaned. *)
Ltac quiet_tac :=
  repeat first
    [ apply quiet_record | apply keeps_fail, _ | apply keeps_safe, _ | apply keeps_get_plan, _
    | apply quiet_terminal | apply quiet_receipt
    | apply keeps_shutdown; apply _ | apply keeps_try_stop | apply keeps_release; apply _
    | apply keeps_ret, _ | apply keeps_cancelled; apply _ | apply keeps_on_peer; apply _
    | apply keeps_lift_stop, _ | apply keeps_get, _ | apply keeps_map_stop
    | apply keeps_uncertain_quiet | apply keeps_block_quiet | apply keeps_plan_quiet
    | progress cbv zeta | case_match | apply keeps_bind; [apply _| |intros ?] ].

Lemma quiet_refuse {T} code detail : keeps quiet (refuse_admission (T := T) activation code detail).
Proof.
  unfold refuse_admission. apply keeps_bind; [apply _|apply quiet_elsewhere, keeps_admission|intros _].
  quiet_tac.
Qed.
Lemma quiet_report_failure failure : keeps quiet (report_failure activation failure).
Proof. unfold report_failure. quiet_tac. Qed.
Lemma quiet_report_publication error : keeps quiet (report_publication activation error).
Proof. unfold report_publication. quiet_tac. Qed.
Lemma quiet_report_side_effect error : keeps quiet (report_side_effect activation error).
Proof. unfold report_side_effect. quiet_tac. Qed.

Lemma quiet_check source :
  keeps quiet (check_activation fresh_activation fresh_offer source activation).
Proof.
  unfold check_activation. quiet_tac; apply keeps_store_quiet; eauto with keeps.
Qed.

Lemma quiet_header card : keeps quiet (receive_header activation card).
Proof. unfold receive_header, read_header. quiet_tac. Qed.

Lemma quiet_chunks tries header index : keeps quiet (read_chunks tries header index).
Proof.
  revert index. induction tries as [|tries IH]; intros index; cbn [read_chunks]; case_match;
    try apply keeps_ret, _; try apply keeps_fail, _.
  unfold manifest_message. quiet_tac; apply IH.
Qed.
Lemma quiet_read_manifest header : keeps quiet (read_manifest header).
Proof. unfold read_manifest, manifest_message. quiet_tac; apply quiet_chunks. Qed.

Lemma quiet_manifest card header : keeps quiet (receive_manifest activation card header).
Proof.
  unfold receive_manifest. apply keeps_bind; [apply _| |intros _].
  { destruct (validate_header header card activation) as [plan|code]; [|apply quiet_refuse].
    by intros s; split. }
  apply keeps_bind; [apply _|apply keeps_try_stop, quiet_read_manifest|intros outcome].
  apply keeps_bind; [apply _| |intros _].
  { destruct outcome as [[]|[]]; first [apply keeps_ret, _ | apply keeps_fail, _ | apply quiet_refuse]. }
  apply keeps_bind; [apply _|apply keeps_get_plan; apply _|intros plan].
  case_match; [apply keeps_ret, _|apply quiet_refuse].
Qed.

(** *** The plan an accepted manifest leaves *)

Definition same_staged : relation Rx := same_on (λ s, rp_staged_files (rx_plan s)).
#[local] Instance same_staged_preorder : PreOrder same_staged := same_on_preorder _.
#[local] Instance elsewhere_same_staged : subrelation elsewhere same_staged.
Proof. intros s s' [= _ _ _ Hp]. unfold same_staged, same_on. by rewrite Hp. Qed.
Ltac staged_tac :=
  repeat first
    [ apply keeps_fail, _ | apply keeps_ret, _ | apply keeps_on_peer; apply _
    | apply keeps_lift_stop, _ | apply keeps_get_plan, _
    | progress cbv zeta | case_match | apply keeps_bind; [apply _| |intros ?] ].

Lemma staged_plan {E} entries e n :
  keeps same_staged (update_plan (E := E) (λ p, plan_with_manifest (entries p) (e p) (n p) p)).
Proof. by intros s. Qed.
Lemma staged_chunks tries header index : keeps same_staged (read_chunks tries header index).
Proof.
  revert index. induction tries as [|tries IH]; intros index; cbn [read_chunks]; case_match;
    try apply keeps_ret, _; try apply keeps_fail, _.
  unfold manifest_message. staged_tac; try apply staged_plan; apply IH.
Qed.
Lemma staged_read_manifest header : keeps same_staged (read_manifest header).
Proof. unfold read_manifest, manifest_message. staged_tac; try apply staged_plan; apply staged_chunks. Qed.

Lemma validate_manifest_inside header descriptor plan :
  validate_manifest header descriptor plan = Ok () → Forall entry_inside (rp_entries plan).
Proof.
  unfold validate_manifest. intros Hv. inv_res.
  match goal with H : tally_entries _ _ = Ok _ |- _ => revert H end. clear.
  generalize tally_empty as t. induction (rp_entries plan) as [|e es IH]; intros t Ht; [constructor|].
  cbn [tally_entries] in Ht. apply bind_Ok in Ht as (t1 & He & Hes). constructor; [|by eapply IH].
  unfold tally_entry in He. apply unit_seq_Ok in He as [He _]. unfold check_path in He.
  rewrite refuse_seq_Ok in He. destruct He as [_ He]. unfold entry_inside.
  case_bool_decide as Hp; [by left|]. right. apply map_err_Ok in He.
  unfold validate_relative_path in He. rewrite !refuse_seq_Ok, validate_all_Ok in He.
  destruct He as (_ & _ & He). eapply Forall_impl; [exact He|].
  intros name Hn. by apply portable_valid, validate_component_spec.
Qed.

Lemma receive_manifest_Ok card header s u s' :
  receive_manifest activation card header s = (Ok u, s') →
  rp_staged_files (rx_plan s') = [] ∧ Forall entry_inside (rp_entries (rx_plan s')) ∧
  validate_manifest header (card_descriptor card) (rx_plan s') = Ok ().
Proof.
  unfold receive_manifest. intros Hrun. ok_in Hrun as u1 s1 H1.
  assert (rp_staged_files (rx_plan s1) = []) as Hs1.
  { destruct (validate_header header card activation) as [plan|code] eqn:Hv.
    - injection H1 as <- <-. simpl. unfold validate_header in Hv. inv_res.
      match goal with H : mret _ = Ok plan |- _ => by injection H as <- end.
    - by apply refuse_not_Ok in H1. }
  ok_in Hrun as o s2 H2. assert (rp_staged_files (rx_plan s2) = []) as Hs2.
  { pose proof (staged_read_manifest header s1) as Hk. unfold try_stop in H2.
    destruct (read_manifest header s1) as [[x|[e| |]] s3]; simplify_eq; unfold same_staged, same_on in Hk;
      simpl in Hk; congruence. }
  ok_in Hrun as u3 s3 H3.
  assert (s3 = s2) as ->.
  { destruct o as [[]|[]]; try (by injection H3); exfalso;
      first [discriminate H3 | by apply refuse_not_Ok in H3]. }
  ok_in Hrun as plan s4 H4. injection H4 as <- <-.
  destruct (validate_manifest header _ (rx_plan s2)) as [[]|code] eqn:Hv.
  - injection Hrun as _ <-. split; [done|]. split; [by eapply validate_manifest_inside|done].
  - by apply refuse_not_Ok in Hrun.
Qed.

(** *** The destination *)

(** Nothing of the journal and of the guard changes before admission. *)
Definition unstaged : relation Rx := λ s s',
  db_journal (w_db (rx_world s')) = db_journal (w_db (rx_world s)) ∧ rx_guard s' = rx_guard s ∧
  (ow_cleanup_blocked (rx_owner s) = true → ow_cleanup_blocked (rx_owner s') = true).
#[export] Instance unstaged_preorder : PreOrder unstaged.
Proof.
  split; [by intros s|]. intros s1 s2 s3 (? & ? & ?) (? & ? & ?). split_and!; [congruence..|auto].
Qed.
#[export] Instance quiet_unstaged : subrelation quiet unstaged.
Proof. by intros s s' []. Qed.
#[export] Instance elsewhere_unstaged : subrelation elsewhere unstaged.
Proof. intros s s' Hs. by apply quiet_unstaged, elsewhere_quiet. Qed.

Lemma unstaged_disk {T} (m : FsM T) : keeps unstaged (on_disk m).
Proof. intros s. unfold on_disk. by destruct (m (rx_disk s)). Qed.
Lemma unstaged_quiet {E T} (m : St Rx E T) : keeps quiet m → keeps unstaged m.
Proof. apply keeps_sub, _. Qed.
Lemma unstaged_destination destination : keeps unstaged (prepare_destination activation destination).
Proof.
  unfold prepare_destination. cbv zeta.
  apply keeps_bind; [apply _|apply keeps_try_stop, unstaged_disk|intros o].
  apply keeps_bind; [apply _| |intros _].
  { destruct o; [apply keeps_ret, _|]. apply keeps_bind; [apply _|apply keeps_safe, _|intros text].
    apply unstaged_quiet, quiet_refuse. }
  apply keeps_bind; [apply _|apply keeps_try_stop, unstaged_disk|intros o'].
  destruct o'; [apply keeps_ret, _|]. apply keeps_bind; [apply _|apply keeps_safe, _|intros text].
  apply unstaged_quiet, quiet_refuse.
Qed.

Lemma unstaged_admit descriptor : keeps unstaged (admit_fetch state_root activation descriptor).
Proof.
  unfold admit_fetch. apply keeps_bind; [apply _| |intros destination].
  { destruct (destination_for _ _ _); [apply keeps_ret, _|apply unstaged_quiet, quiet_refuse]. }
  apply keeps_bind; [apply _|apply keeps_get, _|intros s].
  apply keeps_bind; [apply _| |intros uncertain].
  { destruct (ow_uncertain_clipboard _); [apply keeps_ret, _|].
    apply unstaged_quiet, keeps_map_stop, keeps_store_quiet; eauto with keeps. }
  apply keeps_bind; [apply _| |intros _].
  { case_match; [apply unstaged_quiet, quiet_refuse|apply keeps_ret, _]. }
  apply keeps_bind; [apply _| |intros _].
  { destruct destination; [apply unstaged_destination|apply keeps_ret, _]. }
  apply keeps_bind; [apply _|apply keeps_get_plan; apply _|intros plan].
  apply keeps_bind; [apply _| |intros _; apply keeps_ret, _].
  case_match; [apply keeps_ret, _|].
  apply keeps_bind; [apply _|apply keeps_lift_stop, _|intros directory].
  apply keeps_bind; [apply _|apply keeps_try_stop, keeps_reserve; apply _|intros o].
  destruct o as [[]|[]]; try (apply keeps_ret, _); try (apply unstaged_quiet, quiet_refuse);
    (apply keeps_bind; [apply _|apply keeps_safe, _|intros text]; apply unstaged_quiet, quiet_refuse).
Qed.
End head.
