(* ===== verification/ReceiverContent.v ===== *)
(** * What a receiver accepts is what it stores

    The payload half of [Receiver] over every connection and every disk: when
    [receive_payload] returns without an error, the stream it took consists of one block of
    bytes per staged file, each between the two frames that state its index, its length and
    its digest, and of the frame with the counts and the digest of all contents; and each
    staged file holds exactly its block. *)

From S2P Require Import Prelude RustStr StdIo Utf8 Offer Records Names Protocol OfferStore Ledger Activation Filesystem Announce Connection Manifest Transfer Receiver ReceiverFrame.
From Stdlib Require Import Strings.Byte.

(** ** Writing a file piece by piece *)

Section pieces.
Implicit Types (c a b data : bytes).

Lemma write_at_nil c pos : (pos ≤ length c)%nat → write_at c [] pos = c.
Proof.
  intros Hpos. unfold write_at. rewrite (proj2 (Nat.sub_0_le _ _)) by done. simpl.
  by rewrite Nat.add_0_r, take_drop.
Qed.
Lemma length_write_at c data pos :
  (pos ≤ length c)%nat → (pos + length data ≤ length (write_at c data pos))%nat.
Proof.
  intros Hpos. unfold write_at. rewrite !length_app, length_take, length_replicate. lia.
Qed.
Lemma write_at_app c a b pos :
  (pos ≤ length c)%nat → write_at (write_at c a pos) b (pos + length a) = write_at c (a ++ b) pos.
Proof.
  intros Hpos. unfold write_at. rewrite (proj2 (Nat.sub_0_le pos (length c))) by done.
  cbn [replicate app].
  assert (length (take pos c ++ a) = (pos + length a)%nat) as Hlen
    by (rewrite length_app, length_take; lia).
  rewrite (app_assoc (take pos c) a), take_app_length' by done.
  rewrite (length_app (take pos c ++ a)), Hlen.
  replace (pos + length a - _)%nat with 0%nat by lia. cbn [replicate app].
  rewrite drop_app_ge, Hlen, drop_drop by lia. rewrite <- !app_assoc. do 4 f_equal.
  rewrite length_app. lia.
Qed.
(** From the start, over a file that is not longer. *)
Lemma write_at_all c data : (length c ≤ length data)%nat → write_at c data 0 = data.
Proof.
  intros Hlen. unfold write_at. rewrite take_0. cbn [Nat.sub replicate app Nat.add].
  by rewrite drop_ge, app_nil_r.
Qed.
End pieces.

(** ** What was taken from the stream *)

(** One part of a stream, then another. *)
Definition followed_by (P Q : bytes → Prop) (stream : bytes) : Prop :=
  ∃ a b, stream = a ++ b ∧ P a ∧ Q b.

(** No read is given up half-way: there is no signal, or it never wins a race. *)
Definition uninterrupted (p : Peer) : Prop := pe_signal p = None ∨ pe_races p = [].

(** Something of this form was taken from the connection; said of a receiver that nothing
    interrupts, since a read that is given up loses what it took. *)
Definition took (P : bytes → Prop) (s s' : Rx) : Prop :=
  uninterrupted (rx_peer s) →
  uninterrupted (rx_peer s') ∧
  ∃ stream, P stream ∧ cn_in (pe_conn (rx_peer s)) = stream ++ cn_in (pe_conn (rx_peer s')).

Lemma took_nothing s : took (eq []) s s.
Proof. intros Hs. split; [done|]. by exists []. Qed.
Lemma took_then P Q s1 s2 s3 : took P s1 s2 → took Q s2 s3 → took (followed_by P Q) s1 s3.
Proof.
  intros H12 H23 H1. destruct (H12 H1) as [H2 (a & Ha & E12)]. destruct (H23 H2) as [H3 (b & Hb & E23)].
  split; [done|]. exists (a ++ b). split; [by exists a, b|]. by rewrite E12, E23, app_assoc.
Qed.
Lemma took_weaken (P Q : bytes → Prop) s s' : (∀ b, P b → Q b) → took P s s' → took Q s s'.
Proof. intros HPQ Ht Hs. destruct (Ht Hs) as [? (b & ? & ?)]. split; [done|]. exists b. auto. Qed.
(** Steps that leave the connection alone. *)
Lemma took_same P s s1 s2 : took P s s1 → rx_peer s2 = rx_peer s1 → took P s s2.
Proof. unfold took. by intros ? ->. Qed.
Lemma took_from P s s1 s2 : rx_peer s1 = rx_peer s → took P s1 s2 → took P s s2.
Proof. unfold took. by intros ->. Qed.

(** Only the connection changed. *)
Definition peer_only (s s' : Rx) : Prop := s' = set_peer (rx_peer s') s.
Lemma peer_only_refl s : peer_only s s.
Proof. by destruct s. Qed.
Lemma peer_only_same s s' : peer_only s s' → rx_disk s' = rx_disk s ∧ rx_plan s' = rx_plan s.
Proof. unfold peer_only. by intros ->. Qed.

Section taking.
Context {message_json : Json V2Message}.
Implicit Types (p : Peer) (s : Rx).

Lemma on_peer_Ok {E T} (m : St Peer (Stop E) T) x s s' :
  on_peer m s = (Ok x, s') → m (rx_peer s) = (Ok x, rx_peer s') ∧ peer_only s s'.
Proof. unfold on_peer. destruct (m (rx_peer s)) as [r p]. by intros [= -> <-]. Qed.

Lemma await_Ok {E} p p' :
  (await : St Peer (Stop E) ()) p = (Ok (), p') →
  pe_conn p' = pe_conn p ∧ (uninterrupted p → uninterrupted p').
Proof. unfold await. destruct (pe_drops p) as [|[] rest]; intros [= <-]; done. Qed.

Lemma on_stream_Ok {E T} classify (broken : IoError → E) (read : St bytes E T) x p p' :
  on_stream classify (timed_read broken read) p = (Ok x, p') →
  (uninterrupted p → uninterrupted p') ∧ read (cn_in (pe_conn p)) = (Ok x, cn_in (pe_conn p')).
Proof.
  unfold on_stream. intros ([] & p1 & [Hc Hs]%await_Ok & Hrun)%st_bind_Ok.
  rewrite Hc in Hrun. unfold timed_read in Hrun. destruct (next_fault (pe_conn p)) as [f c] eqn:Hf.
  assert (cn_in c = cn_in (pe_conn p)) as Hin.
  { unfold next_fault in Hf. by destruct (cn_schedule (pe_conn p)); injection Hf as <- <-. }
  destruct f; [|discriminate Hrun..]. destruct (read (cn_in c)) as [[y|e] rest] eqn:Hread;
    [|discriminate Hrun]. injection Hrun as <- <-. rewrite <- Hin, Hread. by split.
Qed.

Lemma cancellable_Ok {T} files count (read : PeerM T) x p p' :
  uninterrupted p → cancellable files count read p = (Ok x, p') →
  ∃ p0, pe_conn p0 = pe_conn p ∧ uninterrupted p0 ∧ read p0 = (Ok x, p').
Proof.
  intros Hsig. unfold cancellable. intros (cancelled & p1 & Hlook & Hrun)%st_bind_Ok.
  assert (pe_conn p1 = pe_conn p ∧ uninterrupted p1) as [<- Hsig1].
  { unfold cancel_requested in Hlook. destruct (pe_signal p) as [[|value rest]|] eqn:Hs;
      injection Hlook as _ <-; split; try done.
    destruct Hsig as [?|Hraces]; [congruence|by right]. }
  destruct cancelled; [done|]. apply st_bind_Ok in Hrun as (signal & p2 & Hhas & Hrun).
  injection Hhas as <- <-. case_bool_decide as Hs; simpl in Hrun; [|by exists p1].
  destruct Hsig1 as [Hnone|Hraces]; [rewrite Hnone in Hs; by destruct Hs|].
  apply st_bind_Ok in Hrun as (race & p2 & Hrace & Hrun). unfold next_race in Hrace.
  rewrite Hraces in Hrace. injection Hrace as <- <-. exists p1. split_and!; [done|by right|done].
Qed.

Lemma cancellable_reads {T} files count (read : PeerM T) x p p' :
  cancellable files count read p = (Ok x, p') → ∃ p0, read p0 = (Ok x, p').
Proof.
  unfold cancellable. intros ([] & p1 & _ & Hrun)%st_bind_Ok; [done|].
  apply st_bind_Ok in Hrun as ([] & p2 & _ & Hrun); [|by exists p2].
  apply st_bind_Ok in Hrun as ([|n] & p3 & _ & Hrun); [by exists p3|].
  apply st_bind_Ok in Hrun as ([] & p4 & _ & Hrun). apply st_bind_Ok in Hrun as ([] & p5 & _ & Hrun).
  apply st_bind_Ok in Hrun as ([] & p6 & _ & Hrun); [done|by exists p6].
Qed.

(** A frame that reads as the message. *)
Definition frame_of (message : V2Message) (frame : bytes) : Prop :=
  read_v2_frame frame = (Ok message, []).

Lemma read_v2_frame_Ok message input rest :
  read_v2_frame input = (Ok message, rest) → ∃ frame, input = frame ++ rest ∧ frame_of message frame.
Proof.
  unfold read_v2_frame, read_payload. intros Hrun.
  apply st_bind_Ok in Hrun as (payload & rest1 & Hrun & Hdecode).
  apply st_lift_Ok in Hdecode as [Hdecode ->].
  apply st_bind_Ok in Hrun as (prefix & rest2 & Hprefix & Hrun).
  apply st_map_err_Ok, read_exact_Ok in Hprefix as [-> Hlen]; [|done].
  apply st_bind_Ok in Hrun as ([] & rest3 & Hvalid & Hrun). apply st_lift_Ok in Hvalid as [Hvalid ->].
  apply st_map_err_Ok, read_exact_Ok in Hrun as [-> Hlen2]; [|apply u32_from_be_nonneg].
  exists (prefix ++ payload). split; [by rewrite app_assoc|].
  unfold frame_of, read_v2_frame, read_payload.
  erewrite st_bind_run; [unfold st_lift; by rewrite Hdecode|].
  erewrite st_bind_run; [|unfold st_map_err; by rewrite read_exact_app].
  erewrite st_bind_run; [|unfold st_lift; by rewrite Hvalid].
  unfold st_map_err. rewrite <- (app_nil_r payload) at 1. by rewrite read_exact_app.
Qed.

(** *** The reads of the receiver *)

(** A step on the connection took something of the form [P]. *)
Lemma on_peer_took {E T} (m : St Peer (Stop E) T) x (P : bytes → Prop) s s' :
  on_peer m s = (Ok x, s') →
  (∀ p', uninterrupted (rx_peer s) → m (rx_peer s) = (Ok x, p') →
     uninterrupted p' ∧ ∃ b, P b ∧ cn_in (pe_conn (rx_peer s)) = b ++ cn_in (pe_conn p')) →
  peer_only s s' ∧ took P s s'.
Proof. intros [Hm Hp]%on_peer_Ok Htook. split; [exact Hp|]. intros Hsig. by apply Htook. Qed.

Lemma read_message_took files count message s s' :
  on_peer (read_v2_cancellable files count) s = (Ok message, s') →
  peer_only s s' ∧ took (frame_of message) s s'.
Proof.
  intros Hrun. eapply on_peer_took; [exact Hrun|]. intros p' Hsig Hread.
  apply cancellable_Ok in Hread as (p0 & <- & Hsig0 & Hread); [|done]. unfold read_v2_timeout in Hread.
  apply st_bind_Ok in Hread as (m & p1 & Hread & Hvalid).
  apply st_bind_Ok in Hvalid as ([] & p2 & Hvalid & Hret). unfold lift_stop in Hvalid.
  apply st_lift_Ok in Hvalid as [_ ->]. apply st_ret_Ok in Hret as [<- ->].
  apply on_stream_Ok in Hread as [Hs Hread]. split; [by apply Hs|].
  apply read_v2_frame_Ok in Hread as (frame & -> & Hf). by exists frame.
Qed.

Lemma read_some_Ok wanted chunk input data rest :
  read_some wanted chunk input = (Ok data, rest) → input = data ++ rest ∧ (length data ≤ wanted)%nat.
Proof.
  unfold read_some. intros [= <- <-]. rewrite take_drop, length_take. split; [done|lia].
Qed.
Lemma read_chunk_timeout_Ok wanted data p p' :
  read_chunk_timeout wanted p = (Ok data, p') →
  (uninterrupted p → uninterrupted p') ∧ cn_in (pe_conn p) = data ++ cn_in (pe_conn p') ∧
  (length data ≤ wanted)%nat.
Proof.
  unfold read_chunk_timeout. intros (chunk & p1 & Hchunk & Hrun)%st_bind_Ok.
  assert ((uninterrupted p → uninterrupted p1) ∧ pe_conn p1 = pe_conn p) as [Hsig <-].
  { unfold next_chunk in Hchunk. by destruct (pe_chunks p); injection Hchunk as <- <-. }
  apply on_stream_Ok in Hrun as [Hs Hrun]. apply read_some_Ok in Hrun as [-> ?]. split; [auto|done].
Qed.
Lemma read_chunk_took wanted files count data s s' :
  on_peer (read_chunk_cancellable wanted files count) s = (Ok data, s') →
  peer_only s s' ∧ took (eq data) s s' ∧ (length data ≤ wanted)%nat.
Proof.
  intros Hrun. assert (length data ≤ wanted)%nat as Hlen.
  { apply on_peer_Ok in Hrun as [Hrun _]. unfold read_chunk_cancellable in Hrun.
    apply st_bind_Ok in Hrun as ([] & p1 & _ & Hrun). apply cancellable_reads in Hrun as [p0 Hrun].
    by apply read_chunk_timeout_Ok in Hrun as (_ & _ & ?). }
  rewrite (assoc (∧)). split; [|done]. eapply on_peer_took; [exact Hrun|]. intros p' Hsig Hread.
  unfold read_chunk_cancellable in Hread. erewrite st_bind_run in Hread by reflexivity.
  apply cancellable_Ok in Hread as (p0 & Hc & Hsig0 & Hread).
  - apply read_chunk_timeout_Ok in Hread as (Hs & Hin & _). rewrite Hc in Hin.
    split; [by apply Hs|]. by exists data.
  - destruct Hsig as [Hnone|Hraces]; [by left|right]. simpl. by rewrite Hraces.
Qed.

Lemma is_cancelled_took {E} b s s' :
  (is_cancelled : RxM E bool) s = (Ok b, s') → peer_only s s' ∧ took (eq []) s s'.
Proof.
  intros Hrun. eapply on_peer_took; [exact Hrun|]. intros p' Hsig.
  unfold cancel_requested. intros Hrun'.
  destruct (pe_signal (rx_peer s)) as [[|value rest]|] eqn:Hs; injection Hrun' as _ <-;
    (split; [|by exists []]); try done.
  destruct Hsig as [?|Hraces]; [congruence|by right].
Qed.

Lemma on_file_Ok {T} files count (m : FsM T) x s s' :
  on_file files count m s = (Ok x, s') →
  took (eq []) s s' ∧ rx_plan s' = rx_plan s ∧ ∃ d', m (rx_disk s) = (Ok x, d') ∧ rx_disk s' = d'.
Proof.
  unfold on_file. intros ([] & s1 & Hawait & Hrun)%st_bind_Ok.
  apply on_peer_Ok in Hawait as [Hawait Hpeer]. apply await_Ok in Hawait as [Hc Hs].
  apply st_map_err_Ok in Hrun. pose proof Hrun as Hdisk.
  apply on_disk_run in Hrun as ([y|] & d' & Hm & Ho & Hd & Hplan); [|done]. injection Ho as <-.
  assert (rx_peer s' = rx_peer s1) as Hpeer'.
  { unfold on_disk in Hdisk. destruct (m (rx_disk s1)). by injection Hdisk as _ <-. }
  split_and!.
  - unfold took. rewrite Hpeer', Hc. intros ?. split; [by apply Hs|]. by exists [].
  - rewrite Hplan, Hpeer. done.
  - exists d'. rewrite <- Hm, Hpeer. by split.
Qed.
End taking.

(** ** Storing the payload *)

Section storing.
Context {message_json : Json V2Message} {sha : Sha256}.
Implicit Types (s : Rx) (h : Handle) (f : StagedFile) (pg : Progress).

Lemma receive_bytes_Ok tries h remaining files count hashed all count' c s s' :
  receive_bytes tries h remaining files count hashed s = (Ok (all, count'), s') →
  dk_inodes (rx_disk s) !! hd_inode h = Some c → (hd_position h ≤ length c)%nat → count ≤ U64_MAX →
  ∃ data, all = hashed ++ data ∧ zlen data = Z.max 0 remaining ∧
    count' = saturating_add U64_MAX count (zlen data) ∧ took (eq data) s s' ∧
    rx_plan s' = rx_plan s ∧ dk_nodes (rx_disk s') = dk_nodes (rx_disk s) ∧
    dk_inodes (rx_disk s') =
      <[hd_inode h := write_at c data (hd_position h)]> (dk_inodes (rx_disk s)).
Proof.
  revert h remaining count hashed c s.
  induction tries as [|tries IH]; intros h remaining count hashed c s Hrun Hc Hpos Hmax;
    cbn [receive_bytes] in Hrun; destruct (Z.leb_spec remaining 0) as [Hdone|Hmore]; try done.
  1, 2: apply st_ret_Ok in Hrun as [[= -> ->] ->]; exists []; rewrite zlen_nil, app_nil_r;
    rewrite write_at_nil, insert_id by done; unfold saturating_add;
    split_and!; [done|lia|lia|apply took_nothing|done..].
  apply st_bind_Ok in Hrun as (cancelled & s1 & Hsignal & Hrun).
  apply is_cancelled_took in Hsignal as [Hp1 Ht1]. destruct cancelled; [done|].
  apply st_bind_Ok in Hrun as (data & s2 & Hread & Hrun).
  apply read_chunk_took in Hread as (Hp2 & Ht2 & Hlen).
  case_bool_decide as Hempty; [done|].
  apply st_bind_Ok in Hrun as (h' & s3 & Hwrite & Hrun).
  apply on_file_Ok in Hwrite as (Ht3 & Hplan3 & d' & Hwrite & Hd').
  apply file_write_run in Hwrite as (written & Hn & Hi & Hw). destruct (Hw h' eq_refl) as [-> ->].
  apply peer_only_same in Hp1 as [Hd1 Hpl1], Hp2 as [Hd2 Hpl2].
  rewrite Hd2, Hd1 in Hn, Hi. rewrite Hc in Hi. cbn [default] in Hi.
  pose proof (length_write_at c data _ Hpos) as Hpos'.
  apply IH with (c := write_at c data (hd_position h)) in Hrun;
    [|rewrite Hd', Hi; apply lookup_insert_eq|done|unfold saturating_add; lia].
  destruct Hrun as (more & -> & Hmore' & -> & Ht4 & Hplan4 & Hn4 & Hi4). exists (data ++ more).
  cbn [hd_inode hd_position] in Hi4. rewrite write_at_app in Hi4 by done.
  rewrite Hd' in Hn4, Hi4. rewrite Hi, insert_insert_eq in Hi4.
  assert (zlen data ≤ remaining) as Hle.
  { unfold zlen. unfold V2_STREAM_BUFFER_BYTES in Hlen. lia. }
  pose proof (zlen_nonneg more). rewrite zlen_app. unfold saturating_add.
  split_and!; [by rewrite app_assoc|lia|lia| |congruence..].
  pose proof (took_then _ _ _ _ _ Ht1 (took_then _ _ _ _ _ Ht2 (took_then _ _ _ _ _ Ht3 Ht4))) as Ht.
  eapply took_weaken; [|exact Ht]. intros b (b1 & b2 & -> & <- & b3 & b4 & -> & <- & b5 & b6 & -> & <- & <-).
  done.
Qed.

Lemma message_or_abort_took activation files count message s s' :
  message_or_abort activation files count s = (Ok message, s') →
  peer_only s s' ∧ took (frame_of message) s s'.
Proof.
  unfold message_or_abort. intros (m & s1 & Hread & Hrun)%st_bind_Ok.
  apply read_message_took in Hread.
  assert (message = m ∧ s' = s1) as [-> ->]; [|done].
  destruct m; try (by apply st_ret_Ok in Hrun as [-> ->]).
  case_bool_decide; [done|by apply st_ret_Ok in Hrun as [-> ->]].
Qed.

Lemma verify_Ok ok files count detail s s' :
  verify ok files count detail s = (Ok (), s') → ok = true ∧ s' = s.
Proof.
  unfold verify, lift_stop. intros [Hok ->]%st_lift_Ok. split; [|done].
  by apply map_err_Ok, refuse_if_Ok, negb_false_iff in Hok.
Qed.

Lemma take_file_Ok k taken s s' :
  take_file k s = (Ok taken, s') →
  taken = rp_staged_files (rx_plan s) !! k ≫= sf_file ∧ rx_peer s' = rx_peer s ∧
  rx_disk s' = rx_disk s ∧
  rx_plan s' = plan_with_staged (alter close_handle k (rp_staged_files (rx_plan s))) (rx_plan s).
Proof. unfold take_file. by intros [= <- <-]. Qed.

Lemma lift_stop_Ok {E T} (r : result E T) x s s' :
  (lift_stop r : RxM E T) s = (Ok x, s') → r = Ok x ∧ s' = s.
Proof. unfold lift_stop. intros [Hr ->]%st_lift_Ok. by apply map_err_Ok in Hr. Qed.

(** One file between its frames. *)
Definition carries_file (id : ActivationId) f (data : bytes) : bytes → Prop :=
  followed_by (frame_of (Msg_FileStart (mkFileStart id (sf_entry_index f) (zlen data))))
    (followed_by (eq data) (frame_of (Msg_FileEnd (mkFileEnd id (sf_entry_index f) (sha256 data))))).

(** The staged file [k] is open at its start, and not longer than its entry. *)
Definition open_at (k : nat) f h (e : ManifestEntry) s : Prop :=
  rp_staged_files (rx_plan s) !! k ≫= sf_file = Some h ∧ hd_position h = 0%nat ∧
  rp_entries (rx_plan s) !! Z.to_nat (sf_entry_index f) = Some e ∧
  ∃ c, dk_inodes (rx_disk s) !! hd_inode h = Some c ∧ zlen c ≤ me_byte_len e.

Lemma receive_file_Ok activation k f h e pg pg' s s' :
  receive_file activation k f pg s = (Ok pg', s') → open_at k f h e s → pg_bytes pg ≤ U64_MAX →
  ∃ data, zlen data = me_byte_len e ∧
    pg' = mkProgress (pg_files pg + 1) (saturating_add U64_MAX (pg_bytes pg) (zlen data))
            (pg_content_set pg ++ sha256 data) ∧
    took (carries_file (fa_request_id activation) f data) s s' ∧
    rx_plan s' = plan_with_staged (alter close_handle k (rp_staged_files (rx_plan s))) (rx_plan s) ∧
    dk_nodes (rx_disk s') = dk_nodes (rx_disk s) ∧
    dk_inodes (rx_disk s') = <[hd_inode h := data]> (dk_inodes (rx_disk s)).
Proof.
  intros Hrun (Hh & Hpos & He & c & Hc & Hroom) Hmax. unfold receive_file in Hrun.
  apply st_bind_Ok in Hrun as (message & s1 & Hm & Hrun).
  apply message_or_abort_took in Hm as [[Hd1 Hp1]%peer_only_same Ht1].
  destruct message as [| | | | | | | |start| | | | |]; try discriminate Hrun.
  apply st_bind_Ok in Hrun as (plan & s1' & Hplan & Hrun).
  injection Hplan as <- <-. rewrite Hp1 in Hrun.
  apply st_bind_Ok in Hrun as (entry & s1' & Hentry & Hrun).
  apply lift_stop_Ok in Hentry as [Hentry%ok_or_Ok ->]. rewrite He in Hentry. injection Hentry as <-.
  apply st_bind_Ok in Hrun as ([] & s1' & Hv & Hrun). apply verify_Ok in Hv as [Hv ->].
  rewrite !andb_true_iff, !Z.eqb_eq, bool_decide_eq_true in Hv. destruct Hv as [[Hid Hidx] Hlen].
  apply st_bind_Ok in Hrun as (taken & s2 & Htake & Hrun).
  apply take_file_Ok in Htake as (-> & Hpe2 & Hd2 & Hp2). rewrite Hp1, Hh in *.
  apply st_bind_Ok in Hrun as (file & s2' & Hfile & Hrun).
  apply lift_stop_Ok in Hfile as [Hfile%ok_or_Ok ->]. injection Hfile as <-.
  apply st_bind_Ok in Hrun as ([hashed count] & s3 & Hbytes & Hrun).
  apply receive_bytes_Ok with (c := c) in Hbytes as (data & -> & Hdata & -> & Ht3 & Hp3 & Hn3 & Hi3);
    [|congruence|lia|done].
  rewrite Hpos, Hd2, Hd1 in Hi3.
  apply st_bind_Ok in Hrun as ([] & s4 & Hsync & Hrun).
  apply on_file_Ok in Hsync as (Ht4 & Hp4 & d' & Hsync & Hd4). unfold sync_all in Hsync. same_disk Hsync.
  apply st_bind_Ok in Hrun as (message & s5 & Hm5 & Hrun).
  apply message_or_abort_took in Hm5 as [[Hd5 Hp5]%peer_only_same Ht5].
  destruct message as [| | | | | | | | |end_| | | |]; try discriminate Hrun.
  apply st_bind_Ok in Hrun as ([] & s5' & Hv & Hrun). apply verify_Ok in Hv as [Hv ->].
  rewrite !andb_true_iff, !Z.eqb_eq, !bool_decide_eq_true in Hv. destruct Hv as [[Hid' Hidx'] Hdigest].
  apply st_ret_Ok in Hrun as [-> ->]. exists data.
  assert (0 ≤ me_byte_len e) as Hnonneg by (pose proof (zlen_nonneg c); lia).
  assert (zlen data = me_byte_len e) as Hall by lia.
  split_and!; [done|done| |congruence|congruence|].
  - apply (took_from _ s1) in Ht3; [|exact Hpe2].
    pose proof (took_then _ _ _ _ _ Ht1 (took_then _ _ _ _ _ Ht3 (took_then _ _ _ _ _ Ht4 Ht5))) as Ht.
    eapply took_weaken; [|exact Ht].
    intros b (b1 & b2 & -> & Hb1 & b3 & b4 & -> & <- & b5 & b6 & -> & <- & Hb6).
    exists b1, (data ++ b6). split_and!; [done| |exists data, b6; split_and!; [done|done|]].
    + destruct start. simpl in Hid, Hidx, Hlen. subst. by rewrite Hall.
    + destruct end_. simpl in Hid', Hidx', Hdigest. by subst.
  - rewrite Hd5, Hd4, Hi, Hi3, write_at_all; [done|]. unfold zlen in *. lia.
Qed.

Fixpoint carries_files (id : ActivationId) (staged : list StagedFile) (contents : list bytes)
    : bytes → Prop :=
  match staged, contents with
  | f :: staged, data :: contents =>
      followed_by (carries_file id f data) (carries_files id staged contents)
  | _, _ => eq []
  end.

(** The staged files from position [k] on are open, each with an inode of its own. *)
Fixpoint all_open (k : nat) (staged : list StagedFile) (handles : list Handle)
    (entries : list ManifestEntry) s : Prop :=
  match staged, handles, entries with
  | [], [], [] => True
  | f :: staged, h :: handles, e :: entries =>
      open_at k f h e s ∧ hd_inode h ∉ map hd_inode handles ∧ all_open (S k) staged handles entries s
  | _, _, _ => False
  end.

Lemma all_open_length k staged handles entries s :
  all_open k staged handles entries s → length staged = length entries ∧ length handles = length entries.
Proof.
  revert k handles entries. induction staged as [|f staged IH]; intros k [|h handles] [|e entries]; try done.
  intros (_ & _ & Hopen). apply IH in Hopen as [? ?]. simpl. lia.
Qed.
Lemma open_at_later k j f h h' e data s s' :
  open_at j f h' e s → j ≠ k → hd_inode h' ≠ hd_inode h →
  rx_plan s' = plan_with_staged (alter close_handle k (rp_staged_files (rx_plan s))) (rx_plan s) →
  dk_inodes (rx_disk s') = <[hd_inode h := data]> (dk_inodes (rx_disk s)) →
  open_at j f h' e s'.
Proof.
  intros (Hh & Hpos & He & c & Hc & Hroom) Hj Hi Hplan Hinodes. unfold open_at. rewrite Hplan, Hinodes.
  cbn [plan_with_staged rp_staged_files rp_entries]. rewrite list_lookup_alter_ne by done.
  split_and!; [done..|]. exists c. by rewrite lookup_insert_ne.
Qed.
Lemma all_open_later k j h staged handles entries data s s' :
  all_open j staged handles entries s → (k < j)%nat → hd_inode h ∉ map hd_inode handles →
  rx_plan s' = plan_with_staged (alter close_handle k (rp_staged_files (rx_plan s))) (rx_plan s) →
  dk_inodes (rx_disk s') = <[hd_inode h := data]> (dk_inodes (rx_disk s)) →
  all_open j staged handles entries s'.
Proof.
  intros Hopen Hj Hi Hplan Hinodes. revert j handles entries Hopen Hj Hi.
  induction staged as [|f staged IH]; intros j [|h' handles] [|e entries] Hopen Hj Hi; try done.
  cbn [all_open map] in *. destruct Hopen as (Hopen & Hnot & Hrest).
  apply not_elem_of_cons in Hi as [Hi1 Hi2]. split_and!; [|done|by apply IH; [..|lia|]].
  eapply (open_at_later k j f h); [exact Hopen|lia|done|exact Hplan|exact Hinodes].
Qed.

Definition stored (inodes : gmap nat bytes) h (data : bytes) : Prop := inodes !! hd_inode h = Some data.

Lemma receive_files_Ok activation k staged handles entries pg pg' s s' :
  receive_files activation k staged pg s = (Ok pg', s') →
  all_open k staged handles entries s → pg_bytes pg ≤ U64_MAX →
  ∃ contents, Forall2 (λ e data, zlen data = me_byte_len e) entries contents ∧
    pg' = mkProgress (pg_files pg + zlen contents)
            (saturating_add U64_MAX (pg_bytes pg) (sum_with zlen contents))
            (pg_content_set pg ++ concat (map sha256 contents)) ∧
    took (carries_files (fa_request_id activation) staged contents) s s' ∧
    (∃ files, rx_plan s' = plan_with_staged files (rx_plan s)) ∧
    dk_nodes (rx_disk s') = dk_nodes (rx_disk s) ∧
    Forall2 (stored (dk_inodes (rx_disk s'))) handles contents ∧
    (∀ i, i ∉ map hd_inode handles → dk_inodes (rx_disk s') !! i = dk_inodes (rx_disk s) !! i).
Proof.
  revert k handles entries pg s.
  induction staged as [|f staged IH]; intros k [|h handles] [|e entries] pg s Hrun Hopen Hmax; try done;
    cbn [receive_files all_open] in *.
  - apply st_ret_Ok in Hrun as [-> ->]. exists []. unfold saturating_add.
    rewrite zlen_nil, Z.add_0_r, app_nil_r. cbn [sum_with foldr].
    split_and!; [constructor| |apply took_nothing| |done|constructor|done].
    + destruct pg. simpl in *. f_equal. unfold sum_with. simpl. lia.
    + exists (rp_staged_files (rx_plan s)). by destruct (rx_plan s).
  - destruct Hopen as (Hopen & Hnot & Hrest).
    apply st_bind_Ok in Hrun as (pg1 & s1 & Hfile & Hrun).
    apply receive_file_Ok with (h := h) (e := e) in Hfile
      as (data & Hlen & -> & Ht1 & Hp1 & Hn1 & Hi1); [|done..].
    apply IH with (handles := handles) (entries := entries) in Hrun;
      [|by eapply (all_open_later k); [..|lia|exact Hnot|exact Hp1|exact Hi1]|
        cbn [pg_bytes]; unfold saturating_add; lia].
    destruct Hrun as (contents & Hlens & -> & Ht & (files & Hp) & Hn & Hst & Hi).
    exists (data :: contents). cbn [pg_files pg_bytes pg_content_set carries_files map concat].
    split_and!.
    + by constructor.
    + rewrite zlen_cons, <- app_assoc. f_equal; [lia|]. unfold saturating_add.
      change (sum_with zlen (data :: contents)) with (zlen data + sum_with zlen contents).
      pose proof (sum_with_nonneg zlen contents ltac:(apply Forall_true, zlen_nonneg)). lia.
    + by eapply took_then.
    + exists files. by rewrite Hp, Hp1.
    + congruence.
    + constructor; [|done]. unfold stored. rewrite Hi, Hi1 by done. apply lookup_insert_eq.
    + intros i Hni. apply not_elem_of_cons in Hni as [Hne Hni].
      rewrite Hi, Hi1 by done. by rewrite lookup_insert_ne.
Qed.

(** The frame after the last file, and the whole payload. *)
Definition completes (id : ActivationId) (manifest : bytes) (contents : list bytes) : V2Message :=
  Msg_FetchComplete (mkFetchComplete id (zlen contents) (saturating_add U64_MAX 0 (sum_with zlen contents))
    (sha256 (manifest ++ concat (map sha256 contents)))).
Definition carries_payload (id : ActivationId) (plan : ReceivePlan) (contents : list bytes)
    : bytes → Prop :=
  followed_by (carries_files id (rp_staged_files plan) contents)
    (frame_of (completes id (default [] (rp_manifest_sha256 plan)) contents)).

Lemma read_complete_took complete s s' :
  on_peer read_complete s = (Ok complete, s') →
  peer_only s s' ∧ took (frame_of (Msg_FetchComplete complete)) s s'.
Proof.
  intros Hrun. eapply on_peer_took; [exact Hrun|]. intros p' Hsig. unfold read_complete.
  intros (message & p1 & Hread & Hret)%st_bind_Ok. destruct message; try discriminate Hret.
  apply st_ret_Ok in Hret as [-> ->].
  destruct (read_message_took 0 0 (Msg_FetchComplete value) s (set_peer p1 s)) as [_ Ht].
  { unfold on_peer. by rewrite Hread. }
  by apply Ht.
Qed.

Lemma read_text_took n files count data s s' :
  on_peer (read_exact_cancellable n files count) s = (Ok data, s') →
  peer_only s s' ∧ took (eq data) s s'.
Proof.
  intros Hrun. eapply on_peer_took; [exact Hrun|]. intros p' Hsig Hread.
  apply cancellable_Ok in Hread as (p0 & <- & Hsig0 & Hread); [|done].
  apply on_stream_Ok in Hread as [Hs Hread]. split; [by apply Hs|]. exists data. split; [done|]. unfold read_exact in Hread.
  destruct (n <=? _); [|done]. injection Hread as <- <-. by rewrite take_drop.
Qed.

Definition carries_text (id : ActivationId) (count : Z) (text : rstr) : bytes → Prop :=
  followed_by (eq (as_bytes text))
    (followed_by (frame_of (Msg_TextEnd (mkTextEnd id (sha256 (as_bytes text)))))
       (frame_of (Msg_FetchComplete (mkFetchComplete id 0 count (sha256 (as_bytes text)))))).

Lemma receive_text_Ok activation s s' :
  receive_text activation s = (Ok (), s') →
  rx_disk s' = rx_disk s ∧
  ∃ text, valid_str text ∧ rx_plan s' = plan_with_text text (rx_plan s) ∧
    took (carries_text (fa_request_id activation) (rp_total_bytes (rx_plan s)) text) s s'.
Proof.
  unfold receive_text. intros Hrun. erewrite st_bind_run in Hrun by reflexivity.
  apply st_bind_Ok in Hrun as (payload & s1 & Hread & Hrun).
  apply read_text_took in Hread as [[Hd1 Hp1]%peer_only_same Ht1].
  apply st_bind_Ok in Hrun as (message & s2 & Hread & Hrun).
  apply read_message_took in Hread as [[Hd2 Hp2]%peer_only_same Ht2].
  destruct message as [| | | | | | | | | |end_| |abort|]; try discriminate Hrun.
  2: { case_bool_decide; discriminate Hrun. }
  apply st_bind_Ok in Hrun as ([] & s2' & Hv & Hrun). apply verify_Ok in Hv as [Hv ->].
  rewrite andb_true_iff, !bool_decide_eq_true in Hv. destruct Hv as [Hid Hdigest].
  apply st_bind_Ok in Hrun as (complete & s3 & Hread & Hrun).
  apply read_complete_took in Hread as [[Hd3 Hp3]%peer_only_same Ht3].
  apply st_bind_Ok in Hrun as ([] & s3' & Hv & Hrun). apply verify_Ok in Hv as [Hv ->].
  rewrite !andb_true_iff, !Z.eqb_eq, !bool_decide_eq_true in Hv.
  destruct Hv as [[[Hid' Hfiles] Hcount] Hdigest'].
  apply st_bind_Ok in Hrun as (text & s4 & Htext & Hrun).
  apply lift_stop_Ok in Htext as [Htext%ok_or_Ok%from_utf8_spec ->]. destruct Htext as [Hvalid <-].
  injection Hrun as <-. cbn [rx_plan rx_disk set_plan]. split; [etrans; [exact Hd3|congruence]|].
  exists text. split_and!; [done|congruence|]. unfold carries_text.
  apply (took_same _ _ s3); [|done]. eapply took_then; [exact Ht1|]. eapply took_then.
  - destruct end_. simpl in Hid, Hdigest. subst. exact Ht2.
  - destruct complete. simpl in Hid', Hfiles, Hcount, Hdigest'. subst. exact Ht3.
Qed.

Lemma receive_payload_text activation root s s' :
  receive_payload activation root s = (Ok (), s') → rp_content_kind (rx_plan s) = Kind_Text →
  receive_text activation s = (Ok (), s').
Proof.
  unfold receive_payload. intros Hrun Hkind. erewrite st_bind_run in Hrun by reflexivity.
  by rewrite bool_decide_true in Hrun.
Qed.

Lemma receive_payload_files activation root handles entries s s' :
  receive_payload activation root s = (Ok (), s') → rp_content_kind (rx_plan s) ≠ Kind_Text →
  all_open 0 (rp_staged_files (rx_plan s)) handles entries s →
  ∃ contents, Forall2 (λ e data, zlen data = me_byte_len e) entries contents ∧
    Forall2 (stored (dk_inodes (rx_disk s'))) handles contents ∧
    dk_nodes (rx_disk s') = dk_nodes (rx_disk s) ∧
    (∀ i, i ∉ map hd_inode handles → dk_inodes (rx_disk s') !! i = dk_inodes (rx_disk s) !! i) ∧
    took (carries_payload (fa_request_id activation) (rx_plan s) contents) s s'.
Proof.
  unfold receive_payload. intros Hrun Hkind Hopen. erewrite st_bind_run in Hrun by reflexivity.
  rewrite bool_decide_false in Hrun by done. apply st_bind_Ok in Hrun as (pg & s1 & Hfiles & Hrun).
  eapply receive_files_Ok in Hfiles as (contents & Hlens & -> & Ht1 & _ & Hn1 & Hst & Hi1);
    [|exact Hopen|done].
  apply st_bind_Ok in Hrun as (complete & s2 & Hread & Hrun).
  apply read_complete_took in Hread as [[Hd2 Hp2]%peer_only_same Ht2].
  apply st_bind_Ok in Hrun as ([] & s2' & Hv & Hrun). apply verify_Ok in Hv as [Hv ->].
  rewrite !andb_true_iff, !Z.eqb_eq, !bool_decide_eq_true in Hv.
  destruct Hv as [[[Hid Hcount] Hbytes] Hdigest]. cbn [pg_files pg_bytes pg_content_set] in *.
  apply st_map_err_Ok in Hrun. assert (rx_peer s' = rx_peer s2) as Hpeer.
  { unfold on_disk in Hrun. destruct (sync_directory root _). by injection Hrun as _ <-. }
  apply on_disk_run in Hrun as (o & d' & Hsync & _ & Hd' & _).
  apply disk_same_run in Hsync as [Hn Hi]; [|apply keeps_sync]. rewrite Hd2 in Hn, Hi.
  exists contents. rewrite Hd', Hn, Hi. split_and!; try done.
  apply (took_same _ _ s2); [|done]. eapply took_then; [exact Ht1|].
  destruct complete. simpl in Hid, Hcount, Hbytes, Hdigest. unfold completes. subst. exact Ht2.
Qed.
(** C9: whatever the connection and the disk do, what the receiver accepts is what it stores.
    A payload it accepts is a text, kept in the plan and followed on the stream by the two
    frames with its length and digest; or it holds, for each staged file in order and between
    two frames with its index, its length and its digest, a block of exactly the length of
    the manifest's entry, then the frame with the counts and the digest of all contents; each
    staged file then contains just its block, and no other file and no name has changed. *)
Theorem accepted_payload activation root handles entries s s' :
  receive_payload activation root s = (Ok (), s') →
  if bool_decide (rp_content_kind (rx_plan s) = Kind_Text) then
    rx_disk s' = rx_disk s ∧
    ∃ text, valid_str text ∧ rp_text (rx_plan s') = Some text ∧
      took (carries_text (fa_request_id activation) (rp_total_bytes (rx_plan s)) text) s s'
  else
    all_open 0 (rp_staged_files (rx_plan s)) handles entries s →
    ∃ contents, Forall2 (λ e data, zlen data = me_byte_len e) entries contents ∧
      Forall2 (stored (dk_inodes (rx_disk s'))) handles contents ∧
      dk_nodes (rx_disk s') = dk_nodes (rx_disk s) ∧
      (∀ i, i ∉ map hd_inode handles → dk_inodes (rx_disk s') !! i = dk_inodes (rx_disk s) !! i) ∧
      took (carries_payload (fa_request_id activation) (rx_plan s) contents) s s'.
Proof.
  intros Hrun. case_bool_decide as Hkind; [|intros; by eapply receive_payload_files].
  apply receive_payload_text, receive_text_Ok in Hrun as (Hd & text & Hv & Hp & Ht); [|done].
  split; [done|]. exists text. by rewrite Hp.
Qed.
End storing.
