(* ===== verification/Exchange.v ===== *)
(** * Both ends of a transfer

    The payload of a fetch from the sender of [Sender] to the receiver of [Receiver].  When
    neither the connection nor the disk of the receiver fails, the receiver accepts exactly the
    bytes that [SenderStream] shows to have been sent: a text ends up in its plan, and every
    staged file holds the content that was read from the source; what follows on the connection
    is left there. *)

From S2P Require Import Prelude RustStr StdIo Utf8 Offer Records Names Protocol OfferStore Ledger Activation Filesystem Announce Connection Manifest Transfer Source Sender SenderStream Receiver ReceiverFrame ReceiverContent.
From Stdlib Require Import Strings.Byte.

(** ** A connection without faults *)

(** No fault, no signal and no drop; [input] is what is still to be read. *)
Definition calm_peer (input : bytes) (p : Peer) : Prop :=
  pe_signal p = None ∧ pe_drops p = [] ∧ cn_schedule (pe_conn p) = [] ∧ cn_in (pe_conn p) = input.
(** The peer when [rest] is left to be read. *)
Definition after (rest : bytes) (p : Peer) : Peer :=
  set_conn (mkConn rest (cn_out (pe_conn p)) (cn_schedule (pe_conn p))) p.

Section calm.
Context {message_json : Json V2Message} {message_laws : JsonLaws V2Message}.
Implicit Types (p : Peer) (rest data : bytes).

Lemma calm_after input rest p : calm_peer input p → calm_peer rest (after rest p).
Proof. by intros (? & ? & ? & ?). Qed.

Lemma await_calm {E} input p : calm_peer input p → (await : St Peer (Stop E) ()) p = (Ok (), p).
Proof. intros (_ & H & _). unfold await. by rewrite H. Qed.
Lemma cancel_calm {E} input p :
  calm_peer input p → (cancel_requested : St Peer (Stop E) bool) p = (Ok false, p).
Proof. intros (H & _). unfold cancel_requested. by rewrite H. Qed.
Lemma cancellable_calm {T} files count (read : PeerM T) input p :
  calm_peer input p → cancellable files count read p = read p.
Proof.
  intros Hp. unfold cancellable. rewrite (st_bind_run _ _ _ _ _ (cancel_calm _ _ Hp)).
  rewrite (st_bind_run _ _ _ false p); [done|]. destruct Hp as (H & _). unfold has_signal.
  rewrite H. by rewrite bool_decide_false by (by intros [? ?]).
Qed.
Lemma on_stream_calm {E T} classify (broken : IoError → E) (read : St bytes E T) input rest x p :
  calm_peer input p → read input = (Ok x, rest) →
  on_stream classify (timed_read broken read) p = (Ok x, after rest p).
Proof.
  intros Hp Hread. unfold on_stream. rewrite (st_bind_run _ _ _ _ _ (await_calm _ _ Hp)).
  destruct Hp as (_ & _ & Hs & Hin). unfold timed_read, next_fault. rewrite Hs, Hin, Hread.
  simpl. unfold after. by rewrite Hs.
Qed.

Lemma read_message_calm message files count rest p :
  encode_v2_frame message = Ok (wire message) → calm_peer (wire message ++ rest) p →
  read_v2_cancellable files count p = (Ok message, after rest p).
Proof.
  intros Henc Hp. unfold read_v2_cancellable. rewrite (cancellable_calm _ _ _ _ _ Hp).
  unfold read_v2_timeout.
  rewrite (st_bind_run _ _ _ message (after rest p)).
  2: { eapply on_stream_calm; [exact Hp|]. by apply read_v2_frame_encoded. }
  apply encode_v2_frame_Ok in Henc as (? & Hvalid & _).
  rewrite (st_bind_run _ _ _ () (after rest p)); [done|]. unfold lift_stop, st_lift. by rewrite Hvalid.
Qed.

Lemma read_payload_calm data files count rest p :
  calm_peer (data ++ rest) p →
  read_exact_cancellable (zlen data) files count p = (Ok data, after rest p).
Proof.
  intros Hp. unfold read_exact_cancellable. rewrite (cancellable_calm _ _ _ _ _ Hp).
  eapply on_stream_calm; [exact Hp|]. by apply read_exact_app.
Qed.

Lemma read_complete_calm complete rest p :
  encode_v2_frame (Msg_FetchComplete complete) = Ok (wire (Msg_FetchComplete complete)) →
  calm_peer (wire (Msg_FetchComplete complete) ++ rest) p →
  read_complete p = (Ok complete, after rest p).
Proof.
  intros Henc Hp. unfold read_complete.
  by rewrite (st_bind_run _ _ _ _ _ (read_message_calm _ 0 0 _ _ Henc Hp)).
Qed.

(** A read delivers at least one byte, at most as many as asked for. *)
Lemma read_chunk_calm wanted files count data rest p :
  (0 < wanted ≤ length data)%nat → calm_peer (data ++ rest) p →
  ∃ k p', (0 < k ≤ wanted)%nat ∧
    read_chunk_cancellable wanted files count p = (Ok (take k data), p') ∧
    calm_peer (drop k data ++ rest) p' ∧ cn_out (pe_conn p') = cn_out (pe_conn p).
Proof.
  intros Hw (Hsig & Hdrops & Hs & Hin). unfold read_chunk_cancellable.
  erewrite st_bind_run by reflexivity.
  set (p1 := mkPeer (pe_conn p) (pe_chunks p) (pe_signal p) _ (pe_drops p)).
  assert (calm_peer (data ++ rest) p1) as Hp1 by done.
  rewrite (cancellable_calm _ _ _ _ _ Hp1). unfold read_chunk_timeout.
  assert (∀ chunk p2, calm_peer (data ++ rest) p2 →
    ∃ k p', (0 < k ≤ wanted)%nat ∧
    on_stream (payload_failure (str "read file payload")) (timed_read id (read_some wanted chunk)) p2
      = (Ok (take k data), p') ∧
    calm_peer (drop k data ++ rest) p' ∧ cn_out (pe_conn p') = cn_out (pe_conn p2)) as Hread.
  { intros chunk p2 Hp2. exists (Nat.min wanted (Nat.max 1 chunk)). eexists. split; [lia|].
    split; [|split; [by eapply calm_after|done]]. eapply on_stream_calm; [exact Hp2|].
    unfold read_some. rewrite take_app_le, drop_app_le by lia. done. }
  unfold next_chunk, mbind, st_bind. destruct (pe_chunks p1) as [|n rest_chunks] eqn:Hc.
  - exact (Hread _ p1 Hp1).
  - exact (Hread n (mkPeer (pe_conn p1) rest_chunks (pe_signal p1) (pe_races p1) (pe_drops p1)) Hp1).
Qed.

(** *** The text *)

Lemma receive_text_calm {sha : Sha256} activation text rest s :
  valid_str text → str_len text ≤ U64_MAX → rp_total_bytes (rx_plan s) = str_len text →
  encode_v2_frame (text_end_of (fa_request_id activation) text)
    = Ok (wire (text_end_of (fa_request_id activation) text)) →
  encode_v2_frame (text_complete_of (fa_request_id activation) text)
    = Ok (wire (text_complete_of (fa_request_id activation) text)) →
  calm_peer (text_wire (fa_request_id activation) text ++ rest) (rx_peer s) →
  receive_text activation s =
    (Ok (), set_plan (plan_with_text text (rx_plan s)) (set_peer (after rest (rx_peer s)) s)).
Proof.
  intros Hvalid Hlen Htotal He1 He2 Hp. unfold receive_text, text_wire in *.
  rewrite <- !app_assoc in Hp.
  erewrite st_bind_run by reflexivity. rewrite Htotal, <- length_as_bytes.
  erewrite st_bind_run; [|unfold on_peer; by rewrite (read_payload_calm _ _ _ _ _ Hp)].
  pose proof (calm_after _ (wire (text_end_of (fa_request_id activation) text)
    ++ wire (text_complete_of (fa_request_id activation) text) ++ rest) _ Hp) as Hp1.
  erewrite st_bind_run; [|unfold on_peer; cbn [set_peer rx_peer];
    by rewrite (read_message_calm _ _ _ _ _ He1 Hp1)].
  pose proof (calm_after _ (wire (text_complete_of (fa_request_id activation) text) ++ rest) _ Hp1) as Hp2.
  cbn [text_end_of]. unfold verify. cbn [te_request_id te_sha256].
  rewrite !(bool_decide_true (_ = _)) by done. cbn [andb negb refuse_if].
  erewrite st_bind_run by reflexivity.
  erewrite st_bind_run; [|unfold on_peer; cbn [set_peer rx_peer];
    by rewrite (read_complete_calm _ _ _ He2 Hp2)].
  cbn [fc_request_id fc_files_sent fc_bytes_sent fc_content_set_sha256].
  rewrite !(bool_decide_true (_ = _)) by done.
  rewrite length_as_bytes, (proj2 (try_from_Some _ _ (str_len text))), !Z.eqb_refl
    by (split; [done|]; split; [apply str_len_nonneg|done]).
  cbn [andb negb refuse_if]. erewrite st_bind_run by reflexivity.
  rewrite from_utf8_as_bytes by done. erewrite st_bind_run by reflexivity. done.
Qed.
End calm.

(** ** What is accepted was sent *)

Section matching.
Context {views : Views} {sha : Sha256} {message_json : Json V2Message} {message_laws : JsonLaws V2Message}.
Implicit Types (frame rest tail : bytes) (files : list LiveFile) (staged : list StagedFile).

Lemma frame_of_app message frame rest :
  frame_of message frame → read_v2_frame (frame ++ rest) = (Ok message, rest).
Proof.
  unfold frame_of, read_v2_frame, read_payload. intros Hrun.
  apply st_bind_Ok in Hrun as (payload & rest1 & Hrun & Hdecode).
  apply st_lift_Ok in Hdecode as [Hdecode <-].
  apply st_bind_Ok in Hrun as (prefix & rest2 & Hprefix & Hrun).
  apply st_map_err_Ok, read_exact_Ok in Hprefix as [-> Hlen]; [|done].
  apply st_bind_Ok in Hrun as ([] & rest3 & Hvalid & Hrun). apply st_lift_Ok in Hvalid as [Hvalid ->].
  apply st_map_err_Ok, read_exact_Ok in Hrun as [-> Hlen2]; [|apply u32_from_be_nonneg].
  rewrite app_nil_r, <- app_assoc.
  erewrite st_bind_run; [unfold st_lift; by rewrite Hdecode|].
  erewrite st_bind_run; [|unfold st_map_err; by rewrite read_exact_app].
  erewrite st_bind_run; [|unfold st_lift; by rewrite Hvalid].
  unfold st_map_err. by rewrite read_exact_app.
Qed.
Lemma frame_not_nil message : ¬ frame_of message [].
Proof. done. Qed.

(** Of what was sent as one frame, nothing else can be read. *)
Lemma frame_unique message message' frame rest tail :
  sendable message → frame_of message' frame → frame ++ tail = wire message ++ rest →
  message' = message ∧ tail = rest.
Proof.
  intros Hsend Hframe Heq. pose proof (frame_of_app _ _ tail Hframe) as Hread.
  rewrite Heq in Hread. rewrite (read_v2_frame_encoded message (wire message) rest Hsend) in Hread.
  by injection Hread as -> ->.
Qed.

(** The last frame that is accepted is not part of a cut transfer. *)
Lemma cut_incomplete request files contents complete last rest tail :
  frame_of (Msg_FetchComplete complete) last → last ++ rest = tail →
  ¬ cut_stream request files contents tail.
Proof.
  intros Hlast Heq [(file & _ & [->|(data & _ & Hs & ->)])|(code & n & b & Hs & ->)].
  - apply app_nil in Heq as [-> _]. by apply frame_not_nil in Hlast.
  - by apply (frame_unique _ _ _ _ _ Hs Hlast) in Heq as [? _].
  - rewrite <- (app_nil_r (wire _)) in Heq. by apply (frame_unique _ _ _ _ _ Hs Hlast) in Heq as [? _].
Qed.
Lemma cut_cons request file files data contents tail :
  cut_stream request (file :: files) (data :: contents) tail → cut_stream request files contents tail.
Proof. intros [(file' & Hl & Hcut)|Habort]; [left; by exists file'|by right]. Qed.

(** How a transfer may go on after some files. *)
Definition ends request files (contents : list bytes) tail : Prop :=
  cut_stream request files contents tail ∨
  length contents = length files ∧ ∃ sent, sendable (complete_of (fr_request_id request) sent) ∧
    tail = wire (complete_of (fr_request_id request) sent).
Lemma ends_cons request file files data contents tail :
  ends request (file :: files) (data :: contents) tail → ends request files contents tail.
Proof.
  intros [Hcut|[Hl Hdone]]; [left; by eapply cut_cons|right]. split; [by injection Hl|done].
Qed.

(** No file is accepted from a transfer that was cut before its end. *)
Lemma ends_no_file id f data request files stream rest tail :
  ends request files [] tail → carries_file id f data stream → stream ++ rest = tail → False.
Proof.
  intros Hends (f1 & b & -> & Hf1 & b2 & f2 & -> & <- & Hf2) Heq. rewrite <- !app_assoc in Heq.
  destruct Hends as [[(file & _ & [->|(cut & Hcut & Hs & ->)])|(code & n & b & Hs & ->)]|[_ (sent & Hs & ->)]].
  - apply app_nil in Heq as [-> _]. by apply frame_not_nil in Hf1.
  - apply (frame_unique _ _ _ _ _ Hs Hf1) in Heq as [[= _ _ Hlen] Heq]. subst cut.
    rewrite !zlen_app, Hlen in Hcut. pose proof (zlen_nonneg data). pose proof (zlen_nonneg rest).
    assert (zlen f2 = 0) as Hz by (pose proof (zlen_nonneg f2); lia).
    destruct f2; [by apply frame_not_nil in Hf2|by apply zlen_cons_ne in Hz].
  - rewrite <- (app_nil_r (wire _)) in Heq. by apply (frame_unique _ _ _ _ _ Hs Hf1) in Heq as [? _].
  - rewrite <- (app_nil_r (wire _)) in Heq. by apply (frame_unique _ _ _ _ _ Hs Hf1) in Heq as [? _].
Qed.

(** A file that was sent and one that was accepted from the same place of the stream. *)
Lemma file_matches id f data request n n' file sent stream rest tail :
  carries_file id f data stream → sent_as (fr_request_id request) n n' file sent →
  stream ++ rest = file_wire (fr_request_id request) file sent ++ tail →
  data = sent ∧ sf_entry_index f = lf_entry_index file ∧ rest = tail.
Proof.
  intros (f1 & b & -> & Hf1 & b2 & f2 & -> & <- & Hf2) [Hlen _ Hs He] Heq. unfold file_wire in Heq.
  rewrite <- !app_assoc in Heq.
  apply (frame_unique _ _ _ _ _ Hs Hf1) in Heq as [[= _ Hidx Hlen'] Heq].
  apply app_inj_1 in Heq as [-> Heq]; [|pose proof (zlen_nonneg data); unfold zlen in *; lia].
  by apply (frame_unique _ _ _ _ _ He Hf2) in Heq as [_ ->].
Qed.

Lemma payload_matches id request n n' complete last rest : frame_of (Msg_FetchComplete complete) last →
  ∀ staged files contents' contents stream tail, length staged = length contents' →
  Forall2 (sent_as (fr_request_id request) n n') (take (length contents) files) contents →
  ends request files contents tail → carries_files id staged contents' stream →
  stream ++ last ++ rest = files_wire (fr_request_id request) files contents ++ tail →
  contents' = contents ∧ length contents = length files ∧
  map sf_entry_index staged = map lf_entry_index files ∧ ¬ cut_stream request files contents tail.
Proof.
  intros Hlast. induction staged as [|f staged IH]; intros files [|data' contents'] contents stream tail
    Hl Hsent Hends Hcarry Heq; try done; cbn [carries_files] in Hcarry.
  - subst stream. cbn [app] in Heq. destruct contents as [|data contents].
    + unfold files_wire in Heq. rewrite zip_with_nil_r in Heq. cbn [concat app] in Heq.
      pose proof (cut_incomplete request files [] _ _ _ _ Hlast Heq) as Hnot.
      destruct Hends as [?|[Hlen _]]; [done|]. by destruct files.
    + destruct files as [|file files]; [by inversion Hsent|]. cbn [take length] in Hsent.
      apply Forall2_cons in Hsent as [Hsent _]. unfold files_wire, file_wire in Heq.
      cbn [zip_with concat] in Heq. rewrite <- !app_assoc in Heq.
      by apply (frame_unique _ _ _ _ _ (sa_start _ _ _ _ _ Hsent) Hlast) in Heq as [? _].
  - destruct Hcarry as (b1 & b2 & -> & Hfile & Hrest). rewrite <- app_assoc in Heq.
    destruct contents as [|data contents].
    + unfold files_wire in Heq. rewrite zip_with_nil_r in Heq. cbn [concat app] in Heq.
      by apply (ends_no_file _ _ _ _ _ _ _ _ Hends Hfile) in Heq.
    + destruct files as [|file files]; [by inversion Hsent|]. cbn [take length] in Hsent.
      apply Forall2_cons in Hsent as [Hsent Hsents]. unfold files_wire in Heq.
      cbn [zip_with concat] in Heq. rewrite <- app_assoc in Heq.
      apply (file_matches _ _ _ _ _ _ _ _ _ _ _ Hfile Hsent) in Heq as (-> & Hidx & Heq).
      destruct (IH files contents' contents b2 tail) as (-> & Hlen & Hidxs & Hnot);
        [by injection Hl|exact Hsents|by eapply ends_cons|exact Hrest|exact Heq|].
      split_and!; [done|simpl; lia|simpl; congruence|]. intros Hcut. apply Hnot. by eapply cut_cons.
Qed.
End matching.

(** a text that was sent arrives.  Whatever the network of the sender does, if it sends a
    text without an error, then every receiver of the announced size that reads the bytes it
    wrote, on a connection without faults, accepts them, keeps exactly this text and leaves
    what follows on the connection. *)
Theorem text_round_trip {views : Views} {sha : Sha256} {message_json : Json V2Message}
    {message_laws : JsonLaws V2Message} {entries_json : Json (list ManifestEntry)} {S : Type}
    {store : OfferSourceStore S} id text (s s' : Session (Origin S)) :
  valid_str text → str_len text ≤ U64_MAX → stream_text id text s = (Ok (), s') →
  ∃ sent, cn_out (ss_conn s') = cn_out (ss_conn s) ++ sent ∧
    ∀ activation root rx rest,
      fa_request_id activation = id → rp_content_kind (rx_plan rx) = Kind_Text →
      rp_total_bytes (rx_plan rx) = str_len text → calm_peer (sent ++ rest) (rx_peer rx) →
      receive_payload activation root rx =
        (Ok (), set_plan (plan_with_text text (rx_plan rx)) (set_peer (after rest (rx_peer rx)) rx)).
Proof.
  intros Hvalid Hlen Hrun. apply stream_text_wrote in Hrun as ([Hout _] & He1 & He2).
  eexists. split; [exact Hout|]. intros activation root rx rest <- Hkind Htotal Hcalm.
  unfold receive_payload. erewrite st_bind_run by reflexivity.
  rewrite Hkind, bool_decide_true by done. by apply receive_text_calm.
Qed.

(** Files arrive as they were read, or not at all.  Take any run of the sender that ends
    without an error, and any receiver that reads no more than the bytes this run wrote, on
    whatever network and disk: if the receiver accepts the payload, then the sender had sent
    all files of its plan and found its source unchanged once more, the staged files are
    those of the plan in their order, and each contains exactly what one opening of the
    source's file delivered during the transfer. *)
Theorem fetched_files_identical {views : Views} {sha : Sha256} {message_json : Json V2Message}
    {message_laws : JsonLaws V2Message} {entries_json : Json (list ManifestEntry)} {S : Type}
    {store : OfferSourceStore S} request record plan (s s' : Session (Origin S)) sent
    activation root handles entries rx rx' :
  send_files request record plan s = (Ok (), s') →
  cn_out (ss_conn s') = cn_out (ss_conn s) ++ sent →
  uninterrupted (rx_peer rx) → cn_in (pe_conn (rx_peer rx)) `prefix_of` sent →
  rp_content_kind (rx_plan rx) ≠ Kind_Text →
  all_open 0 (rp_staged_files (rx_plan rx)) handles entries rx →
  receive_payload activation root rx = (Ok (), rx') →
  ∃ contents, filled (fr_request_id request) s s' (sp_files plan) contents ∧
    Forall2 (stored (dk_inodes (rx_disk rx'))) handles contents ∧
    map sf_entry_index (rp_staged_files (rx_plan rx)) = map lf_entry_index (sp_files plan) ∧
    rebuilt request record plan s.
Proof.
  intros Hsend Hsent Hsig [more Hin] Hkind Hopen Hrun.
  apply send_files_wrote in Hsend as (contents & tail & Hfilled & [Hout _] & Hend).
  rewrite Hout in Hsent. apply app_inv_head in Hsent. rewrite <- Hsent in Hin.
  eapply receive_payload_files in Hrun as (contents' & Hlens & Hstored & _ & _ & Htook); [|done..].
  destruct (Htook Hsig) as (_ & stream & (b1 & last & -> & Hfiles & Hlast) & Hstream).
  rewrite Hstream in Hin.
  assert (ends request (sp_files plan) contents tail) as Hends.
  { destruct Hend as [Hcut|(Hl & _ & Henc & ->)]; [by left|right]. split; [done|]. by eexists. }
  assert (length (rp_staged_files (rx_plan rx)) = length contents') as Hlen.
  { apply all_open_length in Hopen as [-> _]. by eapply Forall2_length. }
  rewrite <- !app_assoc in Hin. unfold completes in Hlast.
  destruct (payload_matches _ _ _ _ _ _ _ Hlast _ _ _ _ _ _ Hlen Hfilled Hends Hfiles (eq_sym Hin))
    as (-> & Hall & Hidx & Hnot).
  exists contents. rewrite Hall, firstn_all in Hfilled. split_and!; try done.
  by destruct Hend as [?|(_ & Hre & _)].
Qed.
