(* ===== verification/ReceiverSafety.v ===== *)
(** * What a fetch leaves behind

    The safety of [FetchReceiver::receive_one], on every way out of it: success, an error at
    any point, a panic, or the future being dropped at any await.  A save touches nothing that
    was on the disk and writes only where it may; no staging area stays behind without a
    record. *)

From S2P Require Import Prelude RustStr StdIo Offer Records Names Protocol OfferStore Ledger Activation Filesystem Announce Connection Manifest Transfer Receiver ReceiverFrame.
From Stdlib Require Import Strings.Byte.

(** The text of an identifier can name a file. *)
Class UuidTextPlain `{UuidText} := uuid_text_plain : ∀ n, valid_name (uuid_to_string n).

(** ** The places of a run *)

Section places.
Context {uuid_text : UuidText} {uuid_plain : UuidTextPlain}.
Context (state_root : PathBuf) (activation : FetchActivation).

(** The directory of all staging areas, and the staging area of the activation. *)
Definition staging_home : place := components state_root ++ [str "staging"].
Definition staging_name : rstr :=
  uuid_to_string (ActivationId_as_uuid (fa_request_id activation)).
Definition staging_place : place := staging_home ++ [staging_name].

Lemma valid_staging : valid_name (str "staging").
Proof. by apply (bool_decide_unpack _). Qed.
Lemma valid_staging_name : valid_name staging_name.
Proof. apply uuid_text_plain. Qed.

Lemma components_staging_root : components (staging_root_of state_root activation) = staging_place.
Proof.
  unfold staging_root_of, staging_place, staging_home.
  rewrite !components_join; [done|apply valid_path_name, valid_staging|].
  apply valid_path_name, valid_staging_name.
Qed.

Context (Hroot : Forall valid_name (components state_root)).

Lemma staging_place_valid : Forall valid_name staging_place.
Proof.
  unfold staging_place, staging_home. rewrite !Forall_app, !Forall_singleton.
  split_and!; [done|apply valid_staging|apply valid_staging_name].
Qed.
Lemma staging_place_parent : removelast staging_place = staging_home.
Proof. apply removelast_last. Qed.
Lemma staging_place_ne : staging_place ≠ [].
Proof. unfold staging_place. by destruct staging_home. Qed.

(** ** The footprint of a save *)

(** The directory the user asked for. *)
Definition asked (path : PathBuf) : Prop := fa_destination activation = Some path.

(** What a save may create: the staging area, the directory asked for, and the given names in
    it with what is below them. *)
Definition save_allowed (names : rstr → Prop) (q : place) : Prop :=
  q `prefix_of` staging_place ∨ staging_place `prefix_of` q ∨
  ∃ path, asked path ∧
    (q `prefix_of` components path ∨
     ∃ name k, names name ∧ q = components path ++ name :: k).
Definition save_exempt (q : place) (n : Node) : Prop := q = staging_home ∧ n = Dir.

Program Definition save_footprint (fixed : gset nat) (solid : list place)
    (Hsolid : ∀ q, q ∈ solid → ¬ staging_home `prefix_of` q) : Footprint :=
  mkFootprint [staging_place] save_exempt (save_allowed portable_component) fixed solid _.
Next Obligation.
  intros fixed solid Hsolid q Hq. apply Hsolid in Hq. rewrite owned_only. split.
  - intros Hpre. apply Hq. etrans; [|exact Hpre]. by eexists.
  - intros [-> _]. by apply Hq.
Qed.

Lemma changed_save fixed solid1 H1 solid2 H2 d d' :
  changed (save_footprint fixed solid1 H1) d d' → changed (save_footprint fixed solid2 H2) d d'.
Proof. intros []. by split. Qed.
Lemma changed_solid allowed fixed solid1 H1 solid2 H2 d d' :
  changed (narrow (save_footprint fixed solid1 H1) allowed) d d' →
  changed (narrow (save_footprint fixed solid2 H2) allowed) d d'.
Proof. intros []. by split. Qed.
Lemma good_save fixed solid1 H1 solid2 H2 d :
  good (save_footprint fixed solid1 H1) d →
  (∀ q, q ∈ solid2 → node_at (dk_nodes d) q = Some Dir) →
  good (save_footprint fixed solid2 H2) d.
Proof. intros []. by split. Qed.
End places.

(** A disk with the shape of one, on which no symbolic link stands on the way to the staging
    area or in it. *)
Record disk_ready (home : place) (d : Disk) : Prop := {
  dr_tree : Filesystem.tree_ok (dk_nodes d);
  dr_links : ∀ q target, dk_nodes d !! q = Some (Symlink target) →
    ¬ home `prefix_of` q ∧ ¬ q `prefix_of` home;
  dr_files : ∀ q i, dk_nodes d !! q = Some (File i) → i ∈ dom (dk_inodes d);
}.

(** ** The phases of a run *)

Section phases.
Context {order : ReadDirOrder} {hash : HashSetOrder} {ren : Renamore} {fs2 : Fs2}.
Context {iter : RedbIter} {uuid_text : UuidText} {dbg : DebugText} {lower : Lowercase} {sha : Sha256}.
Context `{!Json OfferSourceRecord} `{!Json OfferCardRecord}.
Context `{!Json ActivationJournalEntry} `{!Json ClipboardCacheRecord}.
Context `{!Json V2Message} `{!Json (list ManifestEntry)}.
Context (state_root : PathBuf) (fresh_activation : ActivationId) (fresh_offer : OfferId)
  (fresh_id : rstr) (activation : FetchActivation) (source : DeviceId).

(** A run ends before the manifest is accepted, or goes on with an accepted plan; until then
    nothing but the attempt on the card has changed. *)
Lemma receive_body_cases s r s' :
  receive_body state_root fresh_activation fresh_offer fresh_id source activation s = (r, s') →
  (quiet s s' ∧ ∃ e, r = Err e) ∨
  ∃ card header s1,
    quiet s s1 ∧ rp_staged_files (rx_plan s1) = [] ∧
    Forall entry_inside (rp_entries (rx_plan s1)) ∧
    validate_manifest header (card_descriptor card) (rx_plan s1) = Ok () ∧
    (destination ← admit_fetch state_root activation (fh_descriptor header);
     receive_admitted state_root fresh_id activation (fh_descriptor header) destination) s1
    = (r, s').
Proof.
  unfold receive_body. intros Hrun.
  pose proof (quiet_check fresh_activation fresh_offer activation source s) as Hq1.
  step_in Hrun as card s1 H1; rewrite H1 in Hq1; simpl in Hq1; [eauto|].
  pose proof (quiet_header activation card s1) as Hq2.
  step_in Hrun as header s2 H2; rewrite H2 in Hq2; simpl in Hq2;
    [left; split; [by etrans|by eexists]|].
  pose proof (quiet_manifest activation card header s2) as Hq3.
  step_in Hrun as u s3 H3; rewrite H3 in Hq3; simpl in Hq3;
    [left; split; [by etrans; [|etrans]|by eexists]|].
  apply receive_manifest_Ok in H3 as (Hst & Hen & Hval).
  right. exists card, header, s3. split_and!; try done. by etrans; [|etrans].
Qed.

Lemma disk_net_run {T} (m : FsM T) s r s' :
  disk_net m s = (r, s') →
  ∃ o, m (rx_disk s) = (o, rx_disk s') ∧ rx_plan s' = rx_plan s ∧
    r = match o with Ok x => Ok x | Err e => Err (Fails (Net_Io e)) end.
Proof.
  unfold disk_net, map_stop. intros (o & Hrun & Hr)%st_map_err_inv.
  unfold on_disk in Hrun. destruct (m (rx_disk s)) as [o' d'] eqn:Hm. injection Hrun as <- <-.
  exists o'. by destruct o'; subst.
Qed.
Lemma await_disk {E} r s s' :
  (on_peer await : RxM E ()) s = (r, s') → rx_disk s' = rx_disk s ∧ rx_plan s' = rx_plan s.
Proof. unfold on_peer. destruct (await (rx_peer s)) as [o p]. by intros [= _ <-]. Qed.

(** A name that is taken is found out before anything is published under it: neither the hard
    link nor the rename has happened, and a file that cannot be removed is another error. *)
Lemma finalize_taken {ren_laws : RenamoreLaws} payload final_path kind s error s' :
  finalize_payload payload final_path kind s = (Err (Fails error), s') → is_exists error = true →
  unchanged (rx_disk s) (rx_disk s').
Proof.
  intros Hrun Hex. unfold finalize_payload in Hrun.
  step_in Hrun as t s1 H1; apply disk_net_run in H1 as (o1 & H1 & _ & _); same_disk H1; [done|].
  step_in Hrun as above s2 H2; injection H2 as _ <-; [done|].
  step_in Hrun as u s3 H3; apply disk_net_run in H3 as (o3 & H3 & _ & _); same_disk H3;
    [split; congruence|].
  case_bool_decide.
  - step_in Hrun as u4 s4 H4; apply disk_net_run in H4 as (o4 & H4 & _ & Ho4);
      apply hard_link_run in H4 as [(e & -> & Hn4 & Hi4)|(-> & _)]; try discriminate Ho4;
      [split; congruence|].
    step_in Hrun as u5 s5 H5.
    { exfalso. unfold on_peer, await in H5. by destruct (pe_drops _) as [|[] ?]. }
    apply disk_net_run in Hrun as (o6 & H6 & _ & Ho6). destruct o6 as [|e]; [done|]. injection Ho6 as ->.
    exfalso. cbn in Hex. apply bool_decide_eq_true in Hex. by eapply remove_file_not_exists.
  - apply disk_net_run in Hrun as (o6 & H6 & _ & Ho6). destruct o6 as [|e]; [done|].
    unfold rename_exclusive_portable in H6.
    step_in H6 as t7 d7 H7; same_disk H7; [split; congruence|].
    assert (keeps (same_on disk_view) (match parent final_path with
      | Some parent => require_directory parent | None => mret () end)) as Hk by keeps_tac.
    step_in H6 as u8 d8 H8; destruct (disk_same_run _ _ _ _ Hk H8) as [Hn8 Hi8];
      [split; congruence|].
    apply rename_Err in H6 as [Hn9 Hi9]. split; congruence.
Qed.

(** Without a staging area the end of the scope changes nothing of interest. *)
Lemma inactive_end_of_scope s :
  gu_armed (rx_guard s) = None → quiet s (end_of_scope s).
Proof.
  intros Hg. unfold end_of_scope, guard_drop, drop_permit.
  destruct (rx_permit s); simpl; rewrite Hg; by destruct (_ || _).
Qed.
End phases.

(** ** A save touches nothing that was there *)

Section save.
Context {order : ReadDirOrder} {order_laws : ReadDirOrderLaws}.
Context {hash : HashSetOrder} {hash_laws : HashSetOrderLaws}.
Context {ren : Renamore} {ren_laws : RenamoreLaws} {fs2 : Fs2} {fs2_laws : Fs2Laws}.
Context {iter : RedbIter} {uuid_text : UuidText} {uuid_plain : UuidTextPlain}.
Context {dbg : DebugText} {lower : Lowercase} {sha : Sha256}.
Context `{!Json OfferSourceRecord} `{!Json OfferCardRecord}.
Context `{!Json ActivationJournalEntry} `{!Json ClipboardCacheRecord}.
Context `{!Json V2Message} `{!Json (list ManifestEntry)}.
Context (state_root : PathBuf) (fresh_activation : ActivationId) (fresh_offer : OfferId)
  (fresh_id : rstr) (activation : FetchActivation) (source : DeviceId).

Notation home := (staging_home state_root).
Notation root := (staging_root_of state_root activation).
Notation cplace := (staging_place state_root activation).

(** The directory asked for is written without [..] and lies outside the staging areas. *)
Definition destination_plain : Prop := ∀ path, asked activation path →
  Forall valid_name (components path) ∧ ¬ home `prefix_of` components path.

(** What a save that publishes under [name] may change: nothing that is there, but for what is
    in its staging area and for the directory of the staging areas. *)
Definition save_changed (name : rstr) (d d' : Disk) : Prop :=
  (∀ q n, dk_nodes d !! q = Some n →
     dk_nodes d' !! q = Some n ∨ cplace `prefix_of` q ∨ (q = home ∧ n = Dir)) ∧
  (∀ i, i ∈ dom (dk_inodes d) → dk_inodes d' !! i = dk_inodes d !! i) ∧
  (∀ q, is_Some (dk_nodes d' !! q) →
     is_Some (dk_nodes d !! q) ∨ save_allowed state_root activation (eq name) q).

Context (Hroot : Forall valid_name (components state_root)).
Context (Hmode : fa_mode activation = Mode_Save) (Hdest : destination_plain).

Section footprint.
Context (fixed : gset nat) (solid : list place) (Hsolid : ∀ q, q ∈ solid → ¬ home `prefix_of` q).
Notation F := (save_footprint state_root activation fixed solid Hsolid).

Section names.
Context (names : rstr → Prop).
Notation N := (narrow F (save_allowed state_root activation names)).

Lemma narrow_root :
  Forall valid_name (components root) ∧ components root ∈ fp_roots N ∧
  (∀ q, q `prefix_of` components root → fp_allowed N q) ∧
  (∀ q, fp_allowed N (components root ++ q)) ∧
  fp_exempt N (removelast (components root)) Dir.
Proof.
  rewrite components_staging_root. split_and!.
  - by apply staging_place_valid.
  - simpl. by rewrite list_elem_of_singleton.
  - intros q Hq. by left.
  - intros q. right. left. by eexists.
  - rewrite staging_place_parent. done.
Qed.

Lemma narrow_destination descriptor path :
  destination_for state_root activation descriptor = Ok (Some path) →
  asked activation path ∧ Forall valid_name (components path) ∧
  ∀ q, q `prefix_of` components path → fp_allowed N q.
Proof.
  unfold destination_for. rewrite Hmode. destruct (descriptor_is_text descriptor); [done|].
  rewrite bind_Ok. intros (p & Hd%ok_or_Ok & Hp). apply unit_seq_Ok in Hp as [_ [= ->]].
  assert (asked activation path) as Ha by done.
  split; [done|]. split; [by apply Hdest|]. intros q Hq. right. right. exists path. eauto.
Qed.

Lemma narrow_publishable path name :
  asked activation path → components path ∈ solid → names name → portable_component name →
  publishable N (join path name).
Proof.
  intros Ha Hs Hn Hname d q k Hgood Hl. pose proof (portable_valid _ Hname) as Hv.
  rewrite (leads_solid N d (components path) name) in Hl; [|done..|].
  - injection Hl as <-. right. right. exists path. split; [done|]. right.
    exists name, k. by rewrite <- (assoc_L (++)).
  - apply components_join. by apply valid_path_name.
Qed.
End names.

Definition save_root := narrow_root portable_component.
Definition save_destination := narrow_destination portable_component.
Lemma save_publishes destination :
  (∀ path, destination = Some path → asked activation path ∧ components path ∈ solid) →
  publishes F activation destination.
Proof.
  intros Hd path name Hp. destruct (Hd path Hp) as [Ha Hs].
  split; [by rewrite Hmode|]. intros _ Hname.
  by apply (narrow_publishable portable_component path name).
Qed.

(** *** One name is published *)

#[local] Existing Instance rstep_preorder.

Notation before := (narrow F (save_allowed state_root activation (λ _, False))).
Notation under name := (narrow F (save_allowed state_root activation (eq name))).

Lemma rgood_narrow allowed allowed' s :
  rgood (narrow F allowed) root s → rgood (narrow F allowed') root s.
Proof. intros [Hg Hh He Ha]. split; [by eapply good_narrow, good_widen|done..]. Qed.
Lemma under_before name d d' : changed before d d' → changed (under name) d d'.
Proof.
  apply changed_narrow. intros q [?|[?|(path & Ha & [?|(x & k & [] & _)])]]; [by left|by right; left|].
  right. right. exists path. split; [done|by left].
Qed.

(** A step that creates at most what one name needs. *)
Definition once : relation Rx := λ s s', rgood before root s →
  rgood before root s' ∧
  ∃ name, portable_component name ∧ changed (under name) (rx_disk s) (rx_disk s').
Lemma a_name : portable_component (str "a").
Proof. by apply (bool_decide_unpack _). Qed.
#[local] Instance once_absorbs : Absorbs (rstep before root) once.
Proof.
  split.
  - intros s s' Hstep Hs. destruct (Hstep Hs) as [Hs' Hc]. split; [done|]. exists (str "a").
    split; [apply a_name|by apply under_before].
  - intros s1 s2 s3 H12 H23 Hs1. destruct (H12 Hs1) as [Hs2 Hc], (H23 Hs2) as (Hs3 & name & Hn & Hc').
    split; [done|]. exists name. split; [done|]. eapply changed_trans; [by apply under_before|done].
  - intros s1 s2 s3 H12 H23 Hs1. destruct (H12 Hs1) as (Hs2 & name & Hn & Hc), (H23 Hs2) as [Hs3 Hc'].
    split; [done|]. exists name. split; [done|]. eapply changed_trans; [done|by apply under_before].
Qed.

Section once.
Context (directory : PathBuf) (Hasked : asked activation directory).
Context (Hin : components directory ∈ solid).
Notation payload := (join root (str "payload")).

Lemma finalize_once name kind s r s' :
  portable_component name → rgood before root s →
  finalize_payload payload (join directory name) kind s = (r, s') →
  rgood before root s' ∧ changed (under name) (rx_disk s) (rx_disk s').
Proof.
  intros Hname Hs Hrun. destruct (narrow_root (eq name)) as (R1 & R2 & R3 & R4 & _).
  pose proof (keeps_finalize (under name) root R1 R2 R3 R4 _ kind
    (narrow_publishable _ _ _ Hasked Hin eq_refl Hname) s (rgood_narrow _ _ _ Hs)) as [Hs' Hc].
  rewrite Hrun in Hs', Hc. split; [by eapply rgood_narrow|done].
Qed.

(** The loop ends without a name, or publishes under one of those it tried. *)
Lemma publish_loop_once root_name kind index tries s r s' :
  rgood before root s → publish_loop payload directory root_name kind index tries s = (r, s') →
  (r = Ok None → rstep before root s s') ∧ once s s'.
Proof.
  intros Hs. revert index s Hs. induction tries as [|tries IH]; intros index s Hs Hrun;
    cbn [publish_loop] in Hrun.
  { injection Hrun as <- <-. assert (rstep before root s s) as Hss by reflexivity.
    split; [done|by apply absorbs_sub]. }
  step_in Hrun as path s1 H1; injection H1 as H1 <-.
  { split; [done|]. apply absorbs_sub. reflexivity. }
  apply map_err_Ok in H1. unfold collision_candidate in H1. apply bind_Ok in H1 as (name & Hn & [= <-]).
  apply map_err_Ok, collision_name_portable in Hn.
  unfold mbind, st_bind, try_stop in Hrun.
  destruct (finalize_payload _ _ _ s) as [o s1] eqn:Hfin.
  pose proof (finalize_once _ _ _ _ _ Hn Hs Hfin) as [Hs1 Hc1].
  assert (once s s1) as Hstep by (intros _; split; [done|by exists name]).
  destruct o as [[]|[error| |]]; cbn in Hrun; try (by injection Hrun as <- <-).
  destruct (is_exists error) eqn:Hex; [|by injection Hrun as <- <-].
  pose proof (finalize_taken _ _ _ _ _ _ Hfin Hex) as [Hn1 Hi1].
  assert (rstep before root s s1) as H01.
  { intros _. split; [done|]. by apply (step_same before (rx_disk s) (rx_disk s1)); [..|apply Hs]. }
  apply IH in Hrun as [Hnone Honce]; [|done]. split.
  - intros Hr. etrans; [exact H01|by apply Hnone].
  - eapply absorbs_before; [exact H01|exact Honce].
Qed.

Lemma without_overwrite_once root_name kind :
  keeps once (finalize_payload_without_overwrite fresh_id payload directory root_name kind).
Proof.
  unfold finalize_payload_without_overwrite.
  apply (keeps_before (rstep before root)); [apply _|apply keeps_map_stop, keeps_disk_read, keeps_require|intros _].
  intros s. destruct (publish_loop payload directory root_name kind 1 (Z.to_nat 9999) s) as [r s1] eqn:Hloop.
  assert (once s s1) as Honce by (intros Hs; by apply (publish_loop_once _ _ _ _ _ _ _ Hs Hloop)).
  unfold mbind, st_bind. rewrite Hloop. destruct r as [[path|]|e]; [exact Honce| |exact Honce].
  assert (rstep before root s s1) as Hstep
    by (intros Hs; by apply (publish_loop_once _ _ _ _ _ _ _ Hs Hloop)).
  eapply absorbs_before; [exact Hstep|]. cbv beta zeta.
  destruct (map_err naming_error _) as [name|e] eqn:Hname; [|apply absorbs_sub; reflexivity].
  apply map_err_Ok, component_with_suffix_portable in Hname. cbn.
  destruct (finalize_payload _ _ _ s1) as [o s2] eqn:Hfin.
  assert (once s1 s2) as H12.
  { intros Hs1. destruct (finalize_once _ _ _ _ _ Hname Hs1 Hfin) as [? ?]. split; [done|by exists name]. }
  by destruct o.
Qed.
End once.

Lemma publish_once descriptor destination :
  (∀ path, destination = Some path → asked activation path ∧ components path ∈ solid) →
  keeps once (publish fresh_id activation descriptor root destination).
Proof.
  intros Hd. unfold publish.
  apply (keeps_before (rstep before root)); [apply _|apply keeps_map_stop, keeps_store_rstep, fs_update_state|intros _].
  destruct (descriptor_is_text descriptor); [apply (keeps_absorbed (rstep before root)); [apply _|apply keeps_ret, _]|].
  destruct destination as [path|];
    [|intros s; by apply (absorbs_sub (R := rstep before root) s s)].
  destruct (Hd path eq_refl) as [Hasked Hin].
  match goal with |- keeps _ (_ ≫= ?f) => enough (keeps once (f path)) as Hk by (intros s; exact (Hk s)) end.
  cbv beta.
  apply (keeps_before (rstep before root)); [apply _|apply keeps_map_stop, keeps_disk_read, keeps_require|intros _].
  apply (keeps_before (rstep before root)); [apply _|apply keeps_get_plan; apply _|intros plan]. cbv zeta.
  rewrite bool_decide_false by (by rewrite Hmode).
  apply (keeps_after (rstep before root)); [apply _|by apply without_overwrite_once|intros final].
  apply keeps_bind; [apply _| |intros _; apply keeps_ret, _].
  destruct (parent final); [apply keeps_map_stop, keeps_disk_read, keeps_sync|apply keeps_ret, _].
Qed.

Lemma save_evicts : evicts F activation.
Proof. intros Hm. by rewrite Hmode in Hm. Qed.

Lemma rgood_start s :
  good F (rx_disk s) → rp_staged_files (rx_plan s) = [] →
  Forall entry_inside (rp_entries (rx_plan s)) → gu_armed (rx_guard s) = None →
  rgood F root s.
Proof. intros Hg Hs He Ha. split; rewrite ?Hs, ?Ha; done. Qed.
End footprint.

Lemma save_changed_same name d d' :
  dk_nodes d' = dk_nodes d → dk_inodes d' = dk_inodes d → save_changed name d d'.
Proof. intros Hn Hi. split_and!; rewrite ?Hn, ?Hi; auto. Qed.

Lemma ready_good d fixed :
  disk_ready home d → fixed ⊆ dom (dk_inodes d) →
  good (save_footprint state_root activation fixed [] (λ q Hq, match not_elem_of_nil q Hq with end)) d.
Proof.
  intros [Ht Hl Hf] Hfix. split; simpl; try done.
  - intros q target Hq. rewrite owned_only, on_way_only. destruct (Hl _ _ Hq) as [Hno Hnw].
    split.
    + intros Hpre. apply Hno. etrans; [|exact Hpre]. by eexists.
    + intros Hpre. destruct (prefix_weak_total q home cplace) as [?|?];
        [done|by eexists|by apply Hnw|by apply Hno].
  - intros q Hq. by apply elem_of_nil in Hq.
Qed.

Lemma changed_save_changed name fixed solid Hsolid d d' :
  fixed = dom (dk_inodes d) →
  changed (narrow (save_footprint state_root activation fixed solid Hsolid)
             (save_allowed state_root activation (eq name))) d d' → save_changed name d d'.
Proof.
  intros -> [Hk Hi Hn]. simpl in *. split_and!; [|done..].
  intros q n Hq. destruct (Hk q n Hq) as [?|[?|?]]; [by left|right; left; by apply owned_only|by right; right].
Qed.

(** The run from an accepted manifest on, to the end of the scope. *)
Lemma admitted_changes fixed Hnil descriptor s r s1 :
  let F := save_footprint state_root activation fixed [] Hnil in
  rgood F root s →
  (destination ← admit_fetch state_root activation descriptor;
   receive_admitted state_root fresh_id activation descriptor destination) s = (r, s1) →
  ∃ name, portable_component name ∧
    changed (narrow F (save_allowed state_root activation (eq name))) (rx_disk s) (rx_disk (end_of_scope s1)).
Proof.
  intros F Hs Hrun. set (none := λ _ : rstr, False).
  set (F0 := narrow F (save_allowed state_root activation none)).
  destruct (narrow_root fixed [] Hnil none) as (R1 & R2 & R3 & R4 & R5).
  assert (∀ path, destination_for state_root activation descriptor = Ok (Some path) →
    Forall valid_name (components path) ∧ ∀ q, q `prefix_of` components path → fp_allowed F0 q) as Hd.
  { intros path Hp. by destruct (narrow_destination fixed [] Hnil none _ _ Hp) as (_ & ? & ?). }
  apply (rgood_narrow fixed [] Hnil _ (save_allowed state_root activation none)) in Hs.
  pose proof (keeps_admit F0 root _ _ _ Hd s) as Hadmit.
  step_in Hrun as destination s2 H2; rewrite H2 in Hadmit; destruct (Hadmit Hs) as [Hs2 Hc2].
  { exists (str "a"). split; [apply a_name|]. apply (under_before fixed [] Hnil).
    destruct (rstep_end_of_scope F0 root R1 R2 R3 R4 _ Hs2) as [_ Hc4].
    by eapply (changed_trans F0). }
  apply (admit_Ok F0 root) in H2 as [Hp Hdir]; [|done..].
  set (solid := match destination with Some path => [components path] | None => [] end).
  assert (∀ q, q ∈ solid → ¬ home `prefix_of` q) as Hsolid.
  { intros q Hq. destruct destination as [path|]; [|by apply elem_of_nil in Hq].
    apply list_elem_of_singleton in Hq as ->. apply Hdest.
    by apply (narrow_destination fixed [] Hnil none) in Hp as [? _]. }
  set (F1 := narrow (save_footprint state_root activation fixed solid Hsolid)
               (save_allowed state_root activation none)).
  assert (rgood F1 root s2) as Hs2'.
  { destruct Hs2 as [Hg Hh He Ha]. split; [|done..]. apply good_narrow. eapply good_save; [by eapply good_widen|].
    intros q Hq. destruct destination as [path|]; [|by apply elem_of_nil in Hq].
    apply list_elem_of_singleton in Hq as ->. by apply Hdir. }
  destruct (narrow_root fixed solid Hsolid none) as (Q1 & Q2 & Q3 & Q4 & Q5).
  assert (keeps (once fixed solid Hsolid) (publish fresh_id activation descriptor root destination)) as Hpub.
  { apply publish_once. intros path ->. split; [|by apply list_elem_of_singleton].
    by apply (narrow_destination fixed [] Hnil none) in Hp as [? _]. }
  pose proof (keeps_admitted F1 root Q1 Q2 Q3 Q4 Q5 state_root fresh_id activation eq_refl
    descriptor destination (save_evicts fixed solid Hsolid) (once fixed solid Hsolid)
    (absorbs := once_absorbs fixed solid Hsolid) Hpub s2 Hs2') as Hk.
  rewrite Hrun in Hk. destruct Hk as (Hs3 & name & Hname & Hc3). exists name. split; [done|].
  destruct (rstep_end_of_scope F1 root Q1 Q2 Q3 Q4 _ Hs3) as [_ Hc4].
  eapply (changed_trans _ _ (rx_disk s2)); [by apply (under_before fixed [] Hnil)|].
  eapply (changed_trans _ _ (rx_disk s1)); eapply changed_solid; [exact Hc3|].
  by apply (under_before fixed solid Hsolid).
Qed.

(** C8: there is one portable name such that a save, on every way out of it (success, any
    error, a panic, or being dropped), never overwrites, changes or removes anything that was on
    the disk, and creates only its staging area, the directory asked for, and that one name in
    this directory with what is below it; however many names were taken before. *)
Theorem save_keeps_everything s r s' :
  disk_ready home (rx_disk s) → gu_armed (rx_guard s) = None →
  receive_one state_root fresh_activation fresh_offer fresh_id source activation s = (r, s') →
  ∃ name, portable_component name ∧ save_changed name (rx_disk s) (rx_disk s').
Proof.
  intros Hready Hg Hrun. unfold receive_one in Hrun.
  destruct (receive_body _ _ _ _ _ _ s) as [r1 s1] eqn:Hbody. injection Hrun as <- <-.
  apply receive_body_cases in Hbody as [[Hq _]|(card & header & s2 & Hq & Hst & Hen & _ & Hbody)].
  { destruct Hq as [Hn1 Hi1 _ Hg1 _]. rewrite <- Hg1 in Hg.
    destruct (inactive_end_of_scope s1 Hg) as [Hn2 Hi2 _ _ _].
    exists (str "a"). split; [apply a_name|]. apply save_changed_same; congruence. }
  destruct Hq as [Hn1 Hi1 _ Hg1 _].
  pose proof (ready_good (rx_disk s) (dom (dk_inodes (rx_disk s))) Hready ltac:(done)) as Hgood.
  set (Hnil := λ q Hq, _) in Hgood.
  destruct (step_same _ (rx_disk s) (rx_disk s2) Hn1 Hi1 Hgood) as [Hgood2 _].
  eapply admitted_changes in Hbody as (name & Hname & Hc);
    [|apply rgood_start; [exact Hgood2|done|done|by rewrite Hg1]].
  exists name. split; [done|]. eapply (changed_save_changed _ _ _ Hnil); [reflexivity|].
  eapply (changed_trans _ _ (rx_disk s2)); [|exact Hc].
  apply (step_same _ (rx_disk s) (rx_disk s2) Hn1 Hi1). by apply good_narrow.
Qed.
End save.
