(* ===== verification/ReceiverResidue.v ===== *)
(** * No staging area is left behind unnoticed

    Whatever happens to a run of [FetchReceiver::receive_one], its staging area and its journal
    row are gone afterwards, or the row records an uncertain side effect, or the receiver is
    blocked.  The proof follows the staging guard through the run: while it is live, any way out
    cleans up; before it is disarmed or told to keep, the cleanup has been done or its failure
    recorded. *)

From S2P Require Import Prelude RustStr StdIo Offer Records Names Protocol OfferStore Ledger Activation Filesystem Announce Connection Manifest Transfer Receiver ReceiverFrame ReceiverSafety.

(** ** Operations that neither panic nor wait *)

Definition observed {S E T} (m : St S (Stop E) T) : Prop :=
  ∀ s e s', m s = (Err e, s') → ∃ e', e = Fails e'.

Section observed.
Context {S : Type}.

Lemma observed_ret {E T} (x : T) : observed (mret x : St S (Stop E) T).
Proof. by intros s e s'. Qed.
Lemma observed_fail {E T} (e : E) : observed (fail e : St S (Stop E) T).
Proof. intros s e' s' [= <- _]. by eexists. Qed.
Lemma observed_lift {E T} (r : result E T) : observed (lift_stop r : St S (Stop E) T).
Proof. intros s e s' [= Hr _]. destruct r; [done|]. injection Hr as <-. by eexists. Qed.
Lemma observed_bind {E T U} (m : St S (Stop E) T) (f : T → St S (Stop E) U) :
  observed m → (∀ x, observed (f x)) → observed (m ≫= f).
Proof.
  intros Hm Hf s e s' [Hrun|(x & s1 & _ & Hrun)]%st_bind_Err; [by eapply Hm|by eapply Hf].
Qed.
Lemma observed_try {E E' T} (m : St S (Stop E) T) :
  observed m → observed (try_stop m : St S (Stop E') _).
Proof.
  intros Hm s e s'. unfold try_stop. destruct (m s) as [[x|e0] s1] eqn:Hrun; [done|].
  apply Hm in Hrun as [e' ->]. done.
Qed.
Lemma observed_map {E E' T} (f : E → E') (m : St S (Stop E) T) : observed m → observed (map_stop f m).
Proof.
  intros Hm s e s' Hrun. apply st_map_err_inv in Hrun as ([x|e0] & Hrun & Ho); [done|].
  apply Hm in Hrun as [e' ->]. injection Ho as ->. by eexists.
Qed.
Lemma observed_modify {E} f : observed (st_modify f : St S (Stop E) ()).
Proof. by intros s e s'. Qed.
End observed.

Lemma observed_store {T} (m : St (World Disk) StoreError T) : observed (on_store m).
Proof.
  intros s e s'. unfold on_store. destruct (m (rx_world s)) as [[x|e0] w]; [done|].
  intros [= <- _]. by eexists.
Qed.
Lemma observed_disk {T} (m : FsM T) : observed (on_disk m).
Proof.
  intros s e s'. unfold on_disk. destruct (m (rx_disk s)) as [[x|e0] w]; [done|].
  intros [= <- _]. by eexists.
Qed.
Lemma observed_clipboard c : observed (call_clipboard c).
Proof.
  intros s e s'. unfold call_clipboard. destruct (cb_outcomes _) as [|[e0|] ?]; [done| |done].
  intros [= <- _]. by eexists.
Qed.
Lemma observed_plan {E} : observed (get_plan (E := E)).
Proof. by intros s e s'. Qed.
Lemma observed_flags {E} f : observed (update_flags (E := E) f).
Proof. by intros s e s'. Qed.
Create HintDb observed.
#[export] Hint Resolve observed_ret observed_fail observed_lift observed_try observed_map
  observed_modify observed_store observed_disk observed_clipboard observed_plan observed_flags
  : observed.
Ltac observed_tac :=
  repeat first
    [ progress intros | apply observed_bind | case_match | solve [eauto with observed] ].

Section observed_parts.
Context {order : ReadDirOrder} {iter : RedbIter} {uuid_text : UuidText}.
Context `{!Json OfferCardRecord} `{!Json ActivationJournalEntry} `{!Json ClipboardCacheRecord}.
Context (activation : FetchActivation).

Lemma observed_cleanup path : observed (cleanup_activation path).
Proof. unfold cleanup_activation, close_staged_handles, update_plan. observed_tac. Qed.
Lemma observed_cleanup_state path id : observed (cleanup_activation_state path id).
Proof.
  unfold cleanup_activation_state, store_owned. apply observed_bind.
  - apply observed_map, observed_cleanup.
  - intros _. apply observed_map, observed_store.
Qed.
Lemma observed_record code files count detail :
  observed (record_attempt_with_counts activation code files count detail).
Proof. unfold record_attempt_with_counts, store_owned. observed_tac. Qed.
Lemma observed_attempt code detail : observed (record_attempt activation code detail).
Proof. unfold record_attempt. apply observed_bind; [apply observed_plan|intros; apply observed_record]. Qed.
Lemma observed_undo {E} detail prefix outcome : observed (undo (E := E) detail prefix outcome).
Proof. unfold undo, block_cleanup. observed_tac. Qed.
#[local] Hint Resolve observed_undo : observed.
Lemma observed_side_effect descriptor text published :
  observed (apply_side_effect activation descriptor text published).
Proof.
  unfold apply_side_effect, apply_text, apply_files, mark_clipboard_application.
  observed_tac.
Qed.
End observed_parts.

(** ** What the operations between the phases leave alone

    Neither the guard nor the clipboard is touched by reads, writes, the store, the disk and
    the plan; the lemmas are about every relation of this kind. *)

Class Outside (R : relation Rx) := {
  outside_preorder :: PreOrder R;
  outside_elsewhere :: subrelation elsewhere R;
  outside_proc : ∀ p s, R s (set_proc p s);
  outside_plan : ∀ p s, R s (set_plan p s);
}.

Definition off_clipboard : relation Rx := same_on rx_clipboard.
#[export] Instance off_clipboard_preorder : PreOrder off_clipboard := same_on_preorder _.
#[export] Instance outside_guard : Outside off_guard.
Proof. split; by try apply _. Qed.
#[export] Instance outside_clipboard : Outside off_clipboard.
Proof. split; [apply _|by intros s s' [= _ Hc _ _]|done..]. Qed.

Section outside.
Context (R : relation Rx) {outside : Outside R}.

Lemma outside_store {T} (m : St (World Disk) StoreError T) : keeps R (on_store m).
Proof. intros s. unfold on_store. destruct (m (rx_world s)) as [r w]. apply outside_proc. Qed.
Lemma outside_disk {T} (m : FsM T) : keeps R (on_disk m).
Proof. intros s. unfold on_disk. destruct (m (rx_disk s)) as [r d]. apply outside_proc. Qed.
Lemma outside_disk_net {ren : Renamore} {T} (m : FsM T) : keeps R (disk_net m).
Proof. apply keeps_map_stop, outside_disk. Qed.
Lemma outside_owned {T} (m : St (World Disk) StoreError T) : keeps R (store_owned m).
Proof. apply keeps_map_stop, outside_store. Qed.
Lemma outside_flags {E} f : keeps R (update_flags (E := E) f).
Proof. intros s. apply outside_proc. Qed.
Lemma outside_update {E} f : keeps R (update_plan (E := E) f).
Proof. intros s. apply outside_plan. Qed.
Lemma outside_sub {E T} (m : St Rx E T) : keeps elsewhere m → keeps R m.
Proof. apply keeps_sub, _. Qed.
End outside.
#[export] Hint Resolve outside_store outside_disk outside_disk_net outside_owned outside_flags
  outside_update : keeps.

Section between.
Context {order : ReadDirOrder} {hash : HashSetOrder} {ren : Renamore} {fs2 : Fs2}.
Context {uuid_text : UuidText} {dbg : DebugText} {sha : Sha256}.
Context `{!Json OfferCardRecord} `{!Json ActivationJournalEntry} `{!Json ClipboardCacheRecord}.
Context `{!Json V2Message}.
Context (R : relation Rx) {outside : Outside R}.
Context (fresh_id : rstr) (activation : FetchActivation).

Lemma between_admission code entries count detail :
  keeps R (write_admission (fa_request_id activation) code entries count detail).
Proof. apply outside_sub, keeps_admission; apply _. Qed.
#[local] Hint Resolve between_admission : keeps.

Lemma between_stage_file payload kind ie : keeps R (stage_file payload kind ie).
Proof. destruct ie as [i e]. unfold stage_file. keeps_tac. Qed.
#[local] Hint Resolve between_stage_file : keeps.
Lemma between_prepare path : keeps R (receiver_prepare_staging path).
Proof. unfold receiver_prepare_staging. keeps_tac. Qed.
Lemma between_cleanup path : keeps R (cleanup_activation path).
Proof. unfold cleanup_activation, close_staged_handles. keeps_tac. Qed.

Lemma between_verify ok files count detail : keeps R (verify ok files count detail).
Proof. apply keeps_lift, _. Qed.
Lemma between_on_file {T} files count (m : FsM T) : keeps R (on_file files count m).
Proof. unfold on_file. keeps_tac. Qed.
Lemma between_message files count : keeps R (message_or_abort activation files count).
Proof. unfold message_or_abort. keeps_tac. Qed.
#[local] Hint Resolve between_verify between_on_file between_message : keeps.
Lemma between_bytes tries h remaining files count hashed :
  keeps R (receive_bytes tries h remaining files count hashed).
Proof.
  revert h remaining count hashed.
  induction tries as [|tries IH]; intros h remaining count hashed; cbn [receive_bytes]; keeps_tac.
Qed.
#[local] Hint Resolve between_bytes : keeps.
Lemma between_file k staged pg : keeps R (receive_file activation k staged pg).
Proof. unfold receive_file, take_file. keeps_tac. Qed.
Lemma between_files staged k pg : keeps R (receive_files activation k staged pg).
Proof.
  revert k pg. induction staged as [|f staged IH]; intros k pg; cbn [receive_files]; [keeps_tac|].
  apply keeps_bind; [apply _|apply between_file|intros; apply IH].
Qed.
#[local] Hint Resolve between_files : keeps.
Lemma between_payload path : keeps R (receive_payload activation path).
Proof. unfold receive_payload, receive_text. keeps_tac. Qed.

Lemma between_finalize payload path kind : keeps R (finalize_payload payload path kind).
Proof. unfold finalize_payload. keeps_tac. Qed.
#[local] Hint Resolve between_finalize : keeps.
Lemma between_loop payload directory name kind index tries :
  keeps R (publish_loop payload directory name kind index tries).
Proof. revert index. induction tries as [|tries IH]; intros index; cbn [publish_loop]; keeps_tac. Qed.
#[local] Hint Resolve between_loop : keeps.
Lemma between_publish descriptor path destination :
  keeps R (publish fresh_id activation descriptor path destination).
Proof. unfold publish, finalize_payload_without_overwrite. keeps_tac. Qed.
End between.

Lemma side_effect_guard {order : ReadDirOrder} {uuid_text : UuidText}
    `{!Json ActivationJournalEntry} `{!Json ClipboardCacheRecord}
    activation descriptor text published :
  keeps off_guard (apply_side_effect activation descriptor text published).
Proof.
  unfold apply_side_effect, apply_text, apply_files, mark_clipboard_application, undo, block_cleanup.
  keeps_tac.
Qed.

(** ** The phases of the guard *)

Section residue.
Context {order : ReadDirOrder} {order_laws : ReadDirOrderLaws}.
Context {hash : HashSetOrder} {hash_laws : HashSetOrderLaws}.
Context {ren : Renamore} {ren_laws : RenamoreLaws} {fs2 : Fs2} {fs2_laws : Fs2Laws}.
Context {iter : RedbIter} {uuid_text : UuidText} {uuid_plain : UuidTextPlain}.
Context {dbg : DebugText} {lower : Lowercase} {sha : Sha256}.
Context `{!Json OfferSourceRecord} `{!Json OfferCardRecord}.
Context {journal_json : Json ActivationJournalEntry} {journal_laws : JsonLaws ActivationJournalEntry}.
Context `{!Json ClipboardCacheRecord} `{!Json V2Message} `{!Json (list ManifestEntry)}.
Context (state_root : PathBuf) (fresh_activation : ActivationId) (fresh_offer : OfferId)
  (fresh_id : rstr) (activation : FetchActivation) (source : DeviceId).

Notation home := (staging_home state_root).
Notation root := (staging_root_of state_root activation).
Notation cplace := (staging_place state_root activation).
Notation id := (fa_request_id activation).

(** No node of the staging area, no row of the journal. *)
Definition clean (s : Rx) : Prop := ∀ k, dk_nodes (rx_disk s) !! (cplace ++ k) = None.
Definition no_row (s : Rx) : Prop := db_journal (w_db (rx_world s)) !! journal_key id = None.
Definition uncertain (s : Rx) : Prop := ∃ e,
  journal_of (w_db (rx_world s)) !! journal_key id = Some e ∧ je_state e = State_UncertainNoReplay.
Definition blocked (s : Rx) : Prop := ow_cleanup_blocked (rx_owner s) = true.
Definition settled (s : Rx) : Prop := blocked s ∨ uncertain s ∨ (clean s ∧ no_row s).

Context (Hroot : Forall valid_name (components state_root)).

(** Everything is allowed; what matters is that the staging area stays one. *)
Program Definition any_footprint : Footprint :=
  mkFootprint [cplace] (λ _ _, True) (λ _, True) ∅ [] _.
Next Obligation. by intros q ?%elem_of_nil. Qed.
Notation F := any_footprint.
Notation ok := (rgood F root).

Lemma any_root :
  Forall valid_name (components root) ∧ components root ∈ fp_roots F ∧
  (∀ q, q `prefix_of` components root → fp_allowed F q) ∧
  (∀ q, fp_allowed F (components root ++ q)) ∧
  fp_exempt F (removelast (components root)) Dir.
Proof.
  rewrite components_staging_root. split_and!; [by apply staging_place_valid| |done..].
  simpl. by rewrite list_elem_of_singleton.
Qed.
Lemma any_publishes destination : publishes F activation destination.
Proof. by intros path name _. Qed.
Lemma any_evicts : evicts F activation.
Proof. done. Qed.

(** The guard is live, told to keep, or nothing is left for it to do. *)
Definition live (s : Rx) : Prop := ok s ∧ rx_guard s = mkStagingGuard (Some (root, id)) false false.
Definition kept (s : Rx) : Prop := ok s ∧ gu_keep (rx_guard s) = true.
Definition idle (s : Rx) : Prop := gu_disarmed (rx_guard s) || gu_keep (rx_guard s) = true.
Definition resting (s : Rx) : Prop := idle s ∧ settled s.
Definition finished (s : Rx) : Prop := idle s ∧ clean s ∧ no_row s.
Definition exits (s : Rx) : Prop := live s ∨ resting s.

Lemma live_exits s : live s → exits s.
Proof. by left. Qed.
Lemma resting_exits s : resting s → exits s.
Proof. by right. Qed.
Lemma finished_resting s : finished s → resting s.
Proof. intros (? & ? & ?). split; [done|]. right. by right. Qed.
Lemma blocked_resting s : idle s → blocked s → resting s.
Proof. intros ? ?. split; [done|by left]. Qed.

Lemma quiet_settled s s' : quiet s s' → settled s → settled s'.
Proof.
  intros [Hn _ Hj _ Hb] [?|[(e & He & ?)|[Hc Hr]]].
  - left. by apply Hb.
  - right. left. exists e. unfold journal_of in *. by rewrite Hj.
  - right. right. unfold clean, no_row. rewrite Hn, Hj. done.
Qed.
Lemma quiet_resting s s' : quiet s s' → resting s → resting s'.
Proof.
  intros Hq [Hi Hs]. split; [|by eapply quiet_settled].
  unfold idle. by rewrite (qu_guard _ _ Hq).
Qed.
Lemma quiet_finished s s' : quiet s s' → finished s → finished s'.
Proof.
  intros [Hn _ Hj Hg _] (Hi & Hc & Hr). unfold finished, idle, clean, no_row. by rewrite Hn, Hj, Hg.
Qed.

(** Triples of the phases. *)
Lemma quiet_triple {E T} (m : St Rx (Stop E) T) :
  keeps quiet m → triple resting m (λ _, resting) (λ _, resting).
Proof. intros Hm. apply triple_keeps. intros s. exact (quiet_resting _ _ (Hm s)). Qed.
Lemma quiet_finished_triple {E T} (m : St Rx (Stop E) T) :
  keeps quiet m → triple finished m (λ _, finished) (λ _, finished).
Proof. intros Hm. apply triple_keeps. intros s. exact (quiet_finished _ _ (Hm s)). Qed.
Lemma live_triple {E T} (m : St Rx (Stop E) T) :
  keeps (rstep F root) m → keeps off_guard m → triple live m (λ _, live) (λ _, live).
Proof.
  intros Hm Hg. apply triple_keeps. intros s [Hs Hl]. split; [by apply Hm|].
  specialize (Hg s). unfold off_guard, same_on in Hg. by rewrite Hg.
Qed.
Lemma kept_triple {E T} (m : St Rx (Stop E) T) :
  keeps (rstep F root) m → keeps off_guard m → triple kept m (λ _, kept) (λ _, kept).
Proof.
  intros Hm Hg. apply triple_keeps. intros s [Hs Hl]. split; [by apply Hm|].
  specialize (Hg s). unfold off_guard, same_on in Hg. by rewrite Hg.
Qed.
(** The outcome of a call is observed; a panic or a drop ends the run. *)
Lemma triple_try {E T} P (m : St Rx (Stop E) T) Q Q' (X : Rx → Prop) :
  triple P m Q (λ _, Q') → (∀ s, Q' s → X s) →
  triple P (try_stop m : M (result E T)) (λ o s, match o with Ok x => Q x s | Err _ => Q' s end)
    (λ _, X).
Proof.
  intros Hm HX s Hs. specialize (Hm s Hs). unfold try_stop.
  destruct (m s) as [[x|[e| |]] s']; auto.
Qed.
Lemma triple_try_observed {E T} P (m : St Rx (Stop E) T) Q Q' (X : Rx → Prop) :
  observed m → triple P m Q (λ _, Q') →
  triple P (try_stop m : M (result E T)) (λ o s, match o with Ok x => Q x s | Err _ => Q' s end)
    (λ _, X).
Proof.
  intros Ho Hm s Hs. specialize (Hm s Hs). unfold try_stop.
  destruct (m s) as [[x|e] s'] eqn:Hrun; [done|]. by apply Ho in Hrun as [e' ->].
Qed.

(** *** Cleanup *)

Lemma cleanup_activation_Ok s u s' :
  ok s → cleanup_activation root s = (Ok u, s') → clean s'.
Proof.
  intros Hs Hrun. unfold cleanup_activation in Hrun. ok_in Hrun as u1 s1 H1.
  assert (ok s1) as Hs1.
  { pose proof (keeps_close F root (E := IoError) s) as Hk. rewrite H1 in Hk. by apply Hk. }
  apply on_disk_run in Hrun as ([[]|] & d & Hrun & Ho & <- & _); [|done].
  destruct any_root as (R1 & R2 & R3 & R4 & R5).
  apply (cleanup_staging_run F root R1 R2 R3 R4 R5) in Hrun as [_ Hgone]; [|apply Hs1].
  intros k. rewrite <- components_staging_root. apply Hgone; [done|].
  rewrite components_staging_root. apply staging_place_ne.
Qed.

Lemma remove_row_Ok s u s' :
  on_store (remove_activation_journal id) s = (Ok u, s') →
  no_row s' ∧ rx_disk s' = rx_disk s ∧ rx_guard s' = rx_guard s.
Proof.
  unfold on_store. destruct (remove_activation_journal id (rx_world s)) as [[u'|e] w] eqn:Hrun; [|done].
  intros [= <- <-]. pose proof (fs_remove_journal id (rx_world s)) as Hf. rewrite Hrun in Hf.
  split; [|by split]. unfold remove_activation_journal in Hrun. inv_db. unfold no_row.
  change (db_journal (w_db w) !! journal_key id = None). subst.
  repeat match goal with H : w_db _ = _ |- _ => rewrite H; clear H end. apply lookup_delete_eq.
Qed.

Lemma cleanup_state_Ok s u s' :
  ok s → cleanup_activation_state root id s = (Ok u, s') → clean s' ∧ no_row s'.
Proof.
  intros Hs Hrun. unfold cleanup_activation_state, store_owned in Hrun. ok_in Hrun as u1 s1 H1.
  apply st_map_err_Ok, cleanup_activation_Ok in H1; [|done].
  apply st_map_err_Ok, remove_row_Ok in Hrun as (Hr & Hd & _).
  split; [|done]. intros k. by rewrite Hd.
Qed.

Lemma abandon_triple failed :
  triple ok (abandon state_root activation failed) (λ _, finished) (λ _, resting).
Proof.
  intros s Hs. unfold abandon.
  destruct (cleanup_activation_state root id s) as [[[]|e] s1] eqn:Hrun.
  - erewrite st_bind_run; [|unfold try_stop; by rewrite Hrun].
    apply cleanup_state_Ok in Hrun as [Hc Hr]; [|done]. simpl.
    split; [done|]. unfold clean, no_row, drop_permit in *. by destruct (rx_permit s1).
  - destruct (observed_cleanup_state root id s e s1 Hrun) as [e' ->].
    erewrite st_bind_run; [|unfold try_stop; by rewrite Hrun]. simpl.
    apply blocked_resting; [|unfold blocked; by destruct (rx_permit s1)].
    unfold idle. simpl. by rewrite orb_true_r.
Qed.

(** *** The end of the scope *)

Lemma exits_settled s : exits s → settled (end_of_scope s).
Proof.
  intros [[Hs Hg]|[Hidle Hset]].
  - set (s0 := drop_permit s). assert (ok s0) as Hs0.
    { destruct any_root as (R1 & R2 & R3 & R4 & R5).
      by apply (rstep_drop_permit F root s). }
    assert (rx_guard s0 = mkStagingGuard (Some (root, id)) false false) as Hg0.
    { unfold s0, drop_permit. by destruct (rx_permit s). }
    unfold end_of_scope. fold s0. unfold guard_drop. rewrite Hg0. simpl.
    destruct (on_disk (remove_owned_tree root) s0) as [r1 s1] eqn:H1.
    apply on_disk_run in H1 as (o & d & H1 & -> & Hd & _).
    destruct (on_store (remove_activation_journal id) s1) as [r2 s2] eqn:H2.
    destruct (r2) as [u2|e2]; [|rewrite orb_true_r; by left].
    apply remove_row_Ok in H2 as (Hr & Hd2 & _).
    destruct any_root as (R1 & R2 & R3 & R4 & R5).
    destruct (inside_ours F root R1 R2 R3 R4 root [] (eq_sym (app_nil_r _)) ltac:(constructor))
      as (Hours & Hown & _).
    assert (components root ≠ []) as Hne
      by (rewrite components_staging_root; apply staging_place_ne).
    destruct o as [u1|e1]; simpl.
    + right. right. split; [|done]. intros k. rewrite Hd2, Hd.
      eapply (remove_owned_tree_run F) in H1 as [_ Hgone]; [|apply Hs0|by left].
      rewrite <- components_staging_root. destruct u1. by apply Hgone.
    + eapply (remove_owned_tree_kind F) in H1; [|apply Hs0|done..].
      rewrite bool_decide_eq_false_2 by done. by left.
  - assert (settled (drop_permit s)) as Hset'.
    { eapply quiet_settled; [|exact Hset]. unfold drop_permit. by destruct (rx_permit s). }
    assert (rx_guard (drop_permit s) = rx_guard s) as Hg
      by (unfold drop_permit; by destruct (rx_permit s)).
    unfold end_of_scope, guard_drop. rewrite Hg. unfold idle in Hidle. by rewrite Hidle.
Qed.

(** *** Uncertain outcomes *)

Lemma update_state_Ok state s u s' :
  on_store (update_activation_state id state) s = (Ok u, s') →
  (∃ e, journal_of (w_db (rx_world s')) !! journal_key id = Some e ∧ je_state e = state) ∧
  rx_guard s' = rx_guard s ∧ rx_disk s' = rx_disk s.
Proof.
  unfold on_store. destruct (update_activation_state id state (rx_world s)) as [[u'|e] w] eqn:Hrun;
    [|done].
  intros [= <- <-]. pose proof (fs_update_state id state (rx_world s)) as Hf. rewrite Hrun in Hf.
  apply update_activation_state_Ok in Hrun as (e & _ & Hj). split; [|by split].
  exists (set_state state e). split; [|done].
  change (journal_of (w_db w) !! journal_key id = Some (set_state state e)).
  rewrite Hj. apply lookup_insert_eq.
Qed.

Lemma quiet_attempt code detail : keeps quiet (record_attempt activation code detail).
Proof.
  unfold record_attempt. apply keeps_bind; [apply _|apply keeps_get_plan; apply _|intros plan].
  apply quiet_record.
Qed.

Lemma uncertain_triple {T} files count detail :
  triple idle (finish_uncertain (T := T) activation files count detail)
    (λ _ _, False) (λ _, resting).
Proof.
  unfold finish_uncertain.
  apply (triple_bind _ _ (λ o s, match o with Ok _ => resting s | Err _ => idle s end)).
  { intros s Hs. unfold try_stop.
    destruct (on_store _ s) as [[u|e] s1] eqn:Hrun.
    - apply update_state_Ok in Hrun as (Hu & Hg & _). split; [unfold idle; by rewrite Hg|].
      by right; left.
    - pose proof (observed_store _ _ _ _ Hrun) as [e' ->].
      pose proof (keeps_store_off_guard (update_activation_state id State_UncertainNoReplay) s) as Hg.
      rewrite Hrun in Hg. unfold off_guard, same_on in Hg. simpl in Hg. unfold idle. by rewrite Hg. }
  intros [u|error].
  - apply (triple_bind _ _ (λ _, resting)).
    { apply quiet_triple, keeps_try_stop, quiet_attempt. }
    intros [[]|error].
    + apply (triple_bind _ _ (λ _, resting)).
      { apply quiet_triple. case_bool_decide; [apply keeps_uncertain_quiet|apply keeps_ret, _]. }
      intros _. apply (triple_bind _ _ (λ _, resting)); [apply quiet_triple, keeps_safe, _|].
      intros text s Hs. pose proof (quiet_terminal activation (T := T) Receipt_UncertainNoReplay
        files count (Some text) s) as Hq.
      unfold finish_terminal in *. unfold mbind, st_bind in *.
      destruct (send_receipt _ _ _ _ _ s) as [[x|e] s'];
        by apply (quiet_resting _ _ Hq).
    + apply (triple_bind _ _ (λ _, resting)); [apply quiet_triple, keeps_block_quiet|].
      by intros _ s Hs.
  - intros s Hs. by apply blocked_resting.
Qed.

Lemma uncertain_from_triple (keep : bool) detail :
  triple (λ s, if keep : bool then True else idle s) (uncertain_from activation keep detail)
    (λ _ _, False) (λ _, resting).
Proof.
  unfold uncertain_from.
  apply (triple_bind _ _ (λ _ s, if keep then True else idle s)); [by intros s Hs|intros _].
  apply (triple_bind _ _ (λ _, idle)).
  { destruct keep; [|apply triple_ret]. intros s _. unfold idle. simpl. by rewrite orb_true_r. }
  intros _. apply (triple_bind _ _ (λ _, idle)); [by intros s Hs|]. intros plan.
  apply uncertain_triple.
Qed.

(** *** Settling *)

Definition kept_clean (s : Rx) : Prop := gu_keep (rx_guard s) = true ∧ clean s.
Lemma kept_idle s : gu_keep (rx_guard s) = true → idle s.
Proof. unfold idle. intros ->. apply orb_true_r. Qed.

Lemma kept_clean_store {T} (m : St (World Disk) StoreError T) :
  keeps (same_on (w_fs (FS := Disk))) m → triple kept_clean (on_store m) (λ _, kept_clean) (λ _, kept_clean).
Proof.
  intros Hm. apply triple_keeps. intros s [Hk Hc]. specialize (Hm (rx_world s)). unfold on_store.
  destruct (m (rx_world s)) as [r w]. split; [done|].
  intros k. change (dk_nodes (w_fs w) !! (cplace ++ k) = None). unfold same_on in Hm. simpl in Hm.
  rewrite Hm. apply Hc.
Qed.

(** An [if let Err(error)] whose handler does not return. *)
Lemma triple_guard {A B T} (P : Rx → Prop) (o : result A B) (handler : A → M ()) (rest : M T) Q :
  (∀ e, o = Err e → triple P (handler e) (λ _ _, False) (λ _, resting)) →
  (∀ x, o = Ok x → triple P rest Q (λ _, resting)) →
  triple P (match o with Err e => handler e | Ok _ => mret () end;; rest) Q (λ _, resting).
Proof.
  intros Hh Hr. destruct o as [x|e].
  - apply (triple_bind _ _ (λ _, P)); [apply triple_ret|]. intros _. by eapply Hr.
  - apply (triple_bind _ _ (λ _ _, False)); [by apply Hh|]. by intros _ s [].
Qed.

Lemma kept_clean_cleanup :
  triple kept (cleanup_activation root) (λ _, kept_clean) (λ _ s, gu_keep (rx_guard s) = true).
Proof.
  intros s [Hs Hk]. pose proof (between_cleanup off_guard root s) as Hg.
  destruct (cleanup_activation root s) as [[u|e] s1] eqn:Hrun;
    unfold off_guard, same_on in Hg; simpl in Hg; rewrite <- Hg in Hk; [|done].
  split; [done|]. by apply cleanup_activation_Ok in Hrun.
Qed.
Lemma kept_clean_remove :
  triple kept_clean (on_store (remove_activation_journal id)) (λ _, finished) (λ _, kept_clean).
Proof.
  intros s [Hk Hc]. destruct (on_store _ s) as [[u|e] s1] eqn:Hrun.
  - apply remove_row_Ok in Hrun as (Hr & Hd & Hg). split; [|split; [|done]].
    + apply kept_idle. by rewrite Hg.
    + intros k. by rewrite Hd.
  - pose proof (kept_clean_store _ (fs_remove_journal id) s (conj Hk Hc)) as Hs.
    by rewrite Hrun in Hs.
Qed.
Lemma kept_clean_attempt code detail :
  triple kept_clean (record_attempt activation code detail) (λ _, kept_clean) (λ _, kept_clean).
Proof.
  apply triple_keeps. intros s [Hk Hc]. destruct (quiet_attempt code detail s) as [Hn _ _ Hg _].
  unfold kept_clean, clean. by rewrite Hn, Hg.
Qed.

Lemma settle_triple : triple kept (settle state_root activation) (λ _, finished) (λ _, resting).
Proof.
  unfold settle.
  apply (triple_bind _ _ _ _ _ _ (triple_try_observed _ _ _ _ _ (observed_cleanup root) kept_clean_cleanup)).
  intros o1. apply triple_guard; intros x1 ->.
  { by eapply triple_weaken; [apply (uncertain_from_triple true)|..]. }
  apply (triple_bind _ _ _ _ _ _ (triple_try_observed _ _ _ _ _ (observed_store _)
    (kept_clean_store _ (fs_update_state id State_Completed)))).
  intros o2. apply triple_guard; intros x2 ->.
  { eapply triple_weaken; [apply (uncertain_from_triple false)|..]; [|done..].
    intros s [Hk _]. by apply kept_idle. }
  apply (triple_bind _ _ _ _ _ _ (triple_try_observed _ _ _ _ _ (observed_attempt activation _ _)
    (kept_clean_attempt Attempt_Completed None))).
  intros o3. apply triple_guard; intros x3 ->.
  { eapply triple_weaken; [apply (uncertain_from_triple false)|..]; [|done..].
    intros s [Hk _]. by apply kept_idle. }
  apply (triple_bind _ _ _ _ _ _ (triple_try_observed _ _ _ _ _ (observed_store _) kept_clean_remove)).
  intros o4. apply triple_guard; intros x4 ->.
  { by eapply triple_weaken; [apply (uncertain_from_triple true)|..]. }
  apply (triple_bind _ _ (λ _, finished)).
  { intros s (_ & Hc & Hr). by split. }
  intros _. apply (triple_bind _ _ (λ _, finished)).
  { eapply triple_weaken; [apply quiet_finished_triple, keeps_release; apply _|done..|].
    intros e s. apply finished_resting. }
  intros _. apply (triple_bind _ _ (λ _, finished)); [by intros s Hs|]. intros plan.
  eapply triple_weaken; [apply quiet_finished_triple, quiet_receipt|done..|].
  intros e s. apply finished_resting.
Qed.

(** *** The phases *)

(** Cleanup and a report end the run. *)
Lemma abandon_report {T} failed (report : M T) :
  keeps quiet report →
  triple ok (abandon state_root activation failed;; report) (λ _, finished) (λ _, resting).
Proof.
  intros Hq. apply (triple_bind _ _ (λ _, finished)); [apply abandon_triple|]. intros _.
  eapply triple_weaken; [apply quiet_finished_triple, Hq|done..|]. intros e s. apply finished_resting.
Qed.
(** A report that never returns. *)
Lemma triple_never {T} P (m : M T) Q X Q' :
  triple P m Q X → (∀ s x s', m s ≠ (Ok x, s')) → triple P m Q' X.
Proof.
  intros Hm Hne s Hs. specialize (Hm s Hs). destruct (m s) as [[x|e] s'] eqn:Hrun; [|done].
  by apply Hne in Hrun.
Qed.

Lemma cancel_between_triple files count :
  triple live (cancel_between state_root activation files count) (λ _, live) (λ _, exits).
Proof.
  unfold cancel_between. apply (triple_bind _ _ (λ _, live)).
  { eapply triple_weaken; [apply live_triple|done..|by intros; apply live_exits].
    - apply keeps_disk_sub, keeps_cancelled; apply _.
    - apply keeps_cancelled; apply _. }
  intros []; [|apply triple_ret].
  apply (triple_never _ _ (λ _, finished)).
  - eapply triple_weaken; [apply abandon_report|by intros s []|done|by intros; apply resting_exits].
    apply keeps_bind; [apply _|apply quiet_record|intros _].
    apply keeps_bind; [apply _|apply keeps_shutdown; apply _|intros _]. apply keeps_fail, _.
  - intros s x s' Hrun. inv_st. match goal with H : fail _ _ = _ |- _ => discriminate H end.
Qed.

Lemma conclude_failure_triple failure :
  triple live (conclude_failure state_root activation failure) (λ _, finished) (λ _, exits).
Proof.
  unfold conclude_failure. eapply triple_weaken; [apply abandon_report, quiet_report_failure|..].
  - by intros s [].
  - done.
  - intros. by apply resting_exits.
Qed.

Lemma terminal_not_Ok {T} code files count detail s (x : T) s' :
  finish_terminal code files count detail activation s ≠ (Ok x, s').
Proof.
  unfold finish_terminal. intros Hrun. inv_st.
  match goal with H : fail _ _ = _ |- _ => discriminate H end.
Qed.
Lemma report_publication_not_Ok error s x s' : report_publication activation error s ≠ (Ok x, s').
Proof.
  unfold report_publication. intros Hrun. inv_st. cbv zeta in *. inv_st.
  destruct (is_local_io error); [done|]. by eapply terminal_not_Ok.
Qed.
Lemma report_side_effect_not_Ok error s x s' : report_side_effect activation error s ≠ (Ok x, s').
Proof.
  unfold report_side_effect. intros Hrun. inv_st. cbv zeta in *. inv_st. by eapply terminal_not_Ok.
Qed.

Lemma publish_verified_triple descriptor destination :
  triple live (publish_verified state_root fresh_id activation descriptor destination)
    (λ _, live) (λ _, exits).
Proof.
  destruct any_root as (R1 & R2 & R3 & R4 & R5).
  unfold publish_verified. apply (triple_bind _ _ (λ _, live)).
  { eapply triple_weaken; [apply live_triple|done..|by intros; apply live_exits].
    - apply keeps_owned, fs_update_state.
    - apply (outside_owned off_guard). }
  intros _. eapply triple_bind; [apply (triple_try _ _ (λ _, live) live exits)|].
  { apply live_triple; [|apply (between_publish off_guard)].
    by apply (keeps_publish F root R1 R2 R3 R4 fresh_id activation), any_publishes. }
  { apply live_exits. }
  intros [published|error]; [apply triple_ret|].
  apply (triple_never _ _ (λ _, finished)).
  - eapply triple_weaken; [apply abandon_report, quiet_report_publication|by intros s []|done|].
    intros. by apply resting_exits.
  - intros s x s' Hrun. ok_in Hrun as u s1 H1. by eapply report_publication_not_Ok.
Qed.

Lemma apply_published_triple descriptor published :
  triple kept (apply_published state_root activation descriptor published)
    (λ _, kept) (λ _, resting).
Proof.
  unfold apply_published. apply (triple_bind _ _ (λ _, kept)); [by intros s Hs|]. intros plan.
  cbv zeta. eapply triple_bind; [apply (triple_try_observed _ _ (λ _, kept) kept)|].
  { apply observed_side_effect. }
  { apply kept_triple; [|apply side_effect_guard]. by apply keeps_side_effect, any_evicts. }
  intros [u|[error|error]]; [apply triple_ret| |].
  - apply (triple_never _ _ (λ _, finished)).
    + eapply triple_weaken; [apply abandon_report, quiet_report_side_effect|by intros s []|done..].
    + intros s x s' Hrun. ok_in Hrun as u s1 H1. by eapply report_side_effect_not_Ok.
  - apply (triple_bind _ _ (λ _, idle)).
    { intros s _. unfold guard_keep, st_modify, idle. simpl. apply orb_true_r. }
    intros _. apply (triple_bind _ _ (λ _, idle)).
    { intros s Hs. unfold release_permit, st_modify, drop_permit, idle. by destruct (rx_permit s). }
    intros _. eapply triple_weaken; [apply uncertain_triple|done| |done]. by intros x s [].
Qed.

Lemma conclude_triple descriptor destination :
  triple live (conclude state_root fresh_id activation descriptor destination)
    (λ _, finished) (λ _, exits).
Proof.
  unfold conclude. apply (triple_bind _ _ (λ _, live)); [by intros s Hs|]. intros plan.
  apply (triple_bind _ _ (λ _, live)); [apply cancel_between_triple|]. intros _.
  apply (triple_bind _ _ (λ _, live)); [apply publish_verified_triple|]. intros published.
  apply (triple_bind _ _ (λ _, kept)).
  { intros s [Hs Hg]. split; [|done]. by apply (keeps_disk_sub F root _ keeps_guard_keep s). }
  intros _. apply (triple_bind _ _ (λ _, kept)).
  { eapply triple_weaken; [apply apply_published_triple|done..|]. intros. by apply resting_exits. }
  intros _. eapply triple_weaken; [apply settle_triple|done..|]. intros. by apply resting_exits.
Qed.

(** Before the row is written: nothing is there, and the guard has nothing to do. *)
Definition vacant (s : Rx) : Prop := ok s ∧ finished s.

Lemma stage_triple : triple vacant (stage state_root activation) (λ _, live) (λ _, exits).
Proof.
  destruct any_root as (R1 & R2 & R3 & R4 & R5). unfold stage.
  apply (triple_bind _ _ (λ _, vacant)); [by intros s Hs|]. intros plan. cbv zeta.
  apply (triple_bind _ _ (λ _, ok)).
  { intros s [Hs Hf]. unfold store_owned, map_stop, st_map_err.
    set (entry := mkActivationJournalEntry _ _ _ _ _ _ _ _).
    pose proof (keeps_store_rstep F root _ (fs_journal entry) s) as Hk.
    destruct (on_store (journal_activation entry) s) as [[u|e] s1] eqn:Hrun; [by apply Hk|].
    apply resting_exits, finished_resting. eapply quiet_finished; [|exact Hf].
    unfold on_store in Hrun.
    destruct (journal_activation entry (rx_world s)) as [[u'|e'] w] eqn:Hj; [done|].
    injection Hrun as _ <-. pose proof (fs_journal entry (rx_world s)) as Hfs. rewrite Hj in Hfs.
    assert (w_db w = w_db (rx_world s)) as Hdb.
    { unfold journal_activation in Hj. step_in Hj as u1 w1 H1; [by injection H1 as _ <-|].
      injection H1 as _ <-. cbv zeta in Hj. step_in Hj as b w2 H2; [by injection H2 as _ <-|].
      injection H2 as _ <-. by apply with_write_Err in Hj. }
    split; [exact (f_equal dk_nodes Hfs)|exact (f_equal dk_inodes Hfs)| |done|done].
    exact (f_equal db_journal Hdb). }
  intros _. apply (triple_bind _ _ (λ _, live)).
  { intros s Hs. split; [|done]. by apply (keeps_arm F root id s). }
  intros _. eapply triple_bind; [apply (triple_try _ _ (λ _, live) live exits)|].
  { apply live_triple; [by apply keeps_prepare_staging|apply (between_prepare off_guard)]. }
  { apply live_exits. }
  intros [u|error].
  - apply (triple_bind _ _ (λ _, live)); [apply triple_ret|]. intros _.
    apply (triple_bind _ _ (λ _, live)); [|by intros _ s Hs].
    eapply triple_weaken; [apply live_triple|done..|by intros; apply live_exits].
    + apply keeps_map_stop, keeps_disk_read, keeps_reject.
    + apply keeps_disk_net_off_guard.
  - apply (triple_bind _ _ (λ _ _, False)); [|by intros _ s []].
    apply (triple_never _ _ (λ _, finished)).
    + eapply triple_weaken; [apply abandon_report|by intros s []|done|by intros; apply resting_exits].
      apply keeps_bind; [apply _|apply keeps_safe, _|intros text]. apply quiet_refuse.
    + intros s x s' Hrun. ok_in Hrun as u s1 H1. ok_in Hrun as text s2 H2.
      by apply refuse_not_Ok in Hrun.
Qed.

Lemma admitted_triple descriptor destination :
  triple vacant (receive_admitted state_root fresh_id activation descriptor destination)
    (λ _, finished) (λ _, exits).
Proof.
  destruct any_root as (R1 & R2 & R3 & R4 & R5). unfold receive_admitted.
  apply (triple_bind _ _ (λ _, live)); [apply stage_triple|]. intros _.
  apply (triple_bind _ _ (λ _, live)); [by intros s Hs|]. intros plan.
  apply (triple_bind _ _ (λ _, live)).
  { eapply triple_weaken; [apply live_triple|done..|by intros; apply live_exits].
    - apply keeps_disk_sub, sub_off_disk, keeps_admission.
    - apply (outside_sub off_guard), keeps_admission. }
  intros _. apply (triple_bind _ _ (λ _, live)).
  { eapply triple_weaken; [apply live_triple|done..|by intros; apply live_exits].
    - apply keeps_owned, fs_update_state.
    - apply (outside_owned off_guard). }
  intros _. apply (triple_bind _ _ (λ _, live)); [apply cancel_between_triple|]. intros _.
  eapply triple_bind; [apply (triple_try _ _ (λ _, live) live exits)|].
  { apply live_triple; [by apply keeps_receive_payload|apply (between_payload off_guard)]. }
  { apply live_exits. }
  intros [u|failure]; [apply conclude_triple|apply conclude_failure_triple].
Qed.

(** *** Before admission *)

(** What preparing the destination may create: nothing in the staging area. *)
Program Definition destination_footprint : Footprint :=
  mkFootprint [cplace] (λ _ _, False) (λ q, ¬ cplace `prefix_of` q) ∅ [] _.
Next Obligation. by intros q ?%elem_of_nil. Qed.

Lemma destination_outside descriptor path :
  destination_plain state_root activation →
  destination_for state_root activation descriptor = Ok (Some path) →
  Forall valid_name (components path) ∧ ¬ home `prefix_of` components path.
Proof.
  intros Hplain. unfold destination_for. destruct (descriptor_is_text descriptor); [done|].
  rewrite bind_Ok. intros (p & Hp & Hq). apply unit_seq_Ok in Hq as [_ [= ->]].
  destruct (fa_mode activation); [|apply ok_or_Ok in Hp; by apply Hplain].
  injection Hp as <-. assert (valid_name (str "clipboard-cache")) as Hv
      by (by apply (bool_decide_unpack _)).
  rewrite components_join by (by apply valid_path_name). split.
  - apply Forall_app. by rewrite Forall_singleton.
  - unfold staging_home. intros [k Hk]. rewrite <- (assoc_L (++)) in Hk.
      apply app_inv_head in Hk. by injection Hk.
Qed.

Notation D := destination_footprint.

Lemma destination_ok s : rgood D root s → ok s.
Proof. intros [Hg ? ? ?]. split; [|done..]. destruct Hg. by split. Qed.

Lemma ready_destination d : disk_ready home d → good D d.
Proof.
  intros [Ht Hl Hf]. split; simpl; try done.
  - intros q target Hq. rewrite owned_only, on_way_only. destruct (Hl _ _ Hq) as [Hno Hnw].
    split.
    + intros Hpre. apply Hno. etrans; [|exact Hpre]. by eexists.
    + intros Hpre. destruct (prefix_weak_total q home cplace) as [?|?];
        [done|by eexists|by apply Hnw|by apply Hno].
  - by intros q ?%elem_of_nil.
Qed.

Lemma admit_vacant descriptor s r s' :
  destination_plain state_root activation → rgood D root s → finished s →
  admit_fetch state_root activation descriptor s = (r, s') → vacant s'.
Proof.
  intros Hplain Hs (Hi & Hc & Hr) Hrun.
  pose proof (unstaged_admit state_root activation descriptor s) as Hu.
  assert (∀ path, destination_for state_root activation descriptor = Ok (Some path) →
    Forall valid_name (components path) ∧
    ∀ q, q `prefix_of` components path → fp_allowed D q) as Hd.
  { intros path Hp. destruct (destination_outside _ _ Hplain Hp) as [Hv Hout]. split; [done|].
    intros q Hq Hpre. apply Hout. etrans; [|exact Hq]. etrans; [|exact Hpre]. by eexists. }
  pose proof (keeps_admit D root _ _ _ Hd s Hs) as [Hs' [_ _ Hnew]].
  rewrite Hrun in *. destruct Hu as (Hj & Hg & _). simpl in *.
  split; [by apply destination_ok|]. split; [by unfold idle; rewrite Hg|].
  split; [|unfold no_row; by rewrite Hj].
  intros k. apply eq_None_not_Some. intros Hsome. destruct (Hnew _ Hsome) as [Hold|Hno].
  - rewrite Hc in Hold. by destruct Hold.
  - apply Hno. by eexists.
Qed.

(** C7: whatever ends a fetch (success, an error at any point, a panic, or being dropped), its
    staging area and its journal row are gone, or the row says that the side effect is
    uncertain, or the receiver is blocked; after a success they are gone. *)
Theorem fetch_leaves_no_residue s r s' :
  destination_plain state_root activation → disk_ready home (rx_disk s) →
  rx_guard s = guard_inactive → clean s → no_row s →
  receive_one state_root fresh_activation fresh_offer fresh_id source activation s = (r, s') →
  settled s' ∧ (r = Ok () → clean s' ∧ no_row s').
Proof.
  intros Hplain Hready Hg Hc Hr Hrun. unfold receive_one in Hrun.
  destruct (receive_body _ _ _ _ _ _ s) as [r1 s1] eqn:Hbody. injection Hrun as <- <-.
  assert (finished s) as Hf by (split; [unfold idle; by rewrite Hg|done]).
  assert (∀ s, finished s → clean (end_of_scope s) ∧ no_row (end_of_scope s)) as Hend.
  { clear. intros s (Hi & Hc & Hr). unfold end_of_scope, guard_drop.
    assert (rx_guard (drop_permit s) = rx_guard s) as -> by (unfold drop_permit; by destruct (rx_permit s)).
    unfold idle in Hi. rewrite Hi. unfold clean, no_row, drop_permit in *. by destruct (rx_permit s). }
  apply receive_body_cases in Hbody as [[Hq [e ->]]|(card & header & s2 & Hq & Hst & Hen & _ & Hbody)].
  { split; [|done]. apply exits_settled, resting_exits, finished_resting. by eapply quiet_finished. }
  assert (finished s2) as Hf2 by (by eapply quiet_finished).
  assert (rgood D root s2) as Hs2.
  { destruct Hq as [Hn Hi _ Hg2 _]. split; rewrite ?Hst, ?Hg2, ?Hg; [|done..].
    by apply (step_same D (rx_disk s) _ Hn Hi), ready_destination. }
  step_in Hbody as destination s3 H3.
  { pose proof (admit_vacant _ _ _ _ Hplain Hs2 Hf2 H3) as [_ Hf3].
    split; [|done]. by apply exits_settled, resting_exits, finished_resting. }
  pose proof (admit_vacant _ _ _ _ Hplain Hs2 Hf2 H3) as Hv3.
  pose proof (admitted_triple (fh_descriptor header) destination s3 Hv3) as Ht.
  rewrite Hbody in Ht. destruct r1 as [[]|e].
  - split; [by apply exits_settled, resting_exits, finished_resting|]. intros _. by apply Hend.
  - split; [by apply exits_settled|done].
Qed.
End residue.
