(* ===== verification/ReceiverTree.v ===== *)
(** * The tree a receiver builds

    What a successful staging of [Receiver] has made of the disk, name by name, and what a
    publication moves: the staging area holds one folder for each folder of the manifest, one
    open file for each of its files, and nothing else; a publication makes exactly that tree
    appear under a name that was free. *)

From S2P Require Import Prelude RustStr StdIo Offer Records Names Protocol OfferStore Ledger Activation Filesystem Announce Connection Manifest Transfer Receiver ReceiverFrame ReceiverContent.
From Stdlib Require Import Strings.Byte.

(** ** Disks that only grow *)

(** New directories, and nothing else. *)
Definition grows (d d' : Disk) : Prop :=
  dk_nodes d ⊆ dk_nodes d' ∧ dk_inodes d' = dk_inodes d ∧
  ∀ q n, dk_nodes d' !! q = Some n → dk_nodes d !! q = Some n ∨ n = Dir.
#[export] Instance grows_preorder : PreOrder grows.
Proof.
  split; [by intros d; split_and!; [done..|auto]|]. intros d1 d2 d3 (N1 & I1 & W1) (N2 & I2 & W2).
  split_and!; [by etrans|congruence|]. intros q n [Hq|?]%W2; [by apply W1|by right].
Qed.

Lemma grows_same {T} (m : FsM T) : keeps (same_on disk_view) m → keeps grows m.
Proof.
  intros Hm d. injection (Hm d) as Hn Hi. unfold grows. rewrite Hn. split_and!; auto.
Qed.
Lemma grows_create path : keeps grows (create_dir path).
Proof.
  intros d. destruct (create_dir path d) as [r d'] eqn:Hrun. simpl.
  apply create_dir_run in Hrun as [(e & -> & Hn & Hi)|(-> & q & _ & Hfree & Hn & Hi)].
  { unfold grows. rewrite Hn. split_and!; auto. }
  split_and!; [|done|].
  - rewrite Hn. apply insert_subseteq. by destruct q.
  - rewrite Hn. intros p n [[<- <-]|[_ Hp]]%lookup_insert_Some; auto.
Qed.
Lemma grows_ensure path : keeps grows (ensure_directory_tree path).
Proof.
  apply keeps_for; [apply _|]. intros current. unfold ensure_directory.
  apply keeps_bind; [apply _|by apply grows_same, keeps_try, keeps_metadata|].
  intros [t|e]; [apply grows_same; keeps_tac|]. case_bool_decide; [|apply keeps_err, _].
  apply keeps_bind; [apply _|apply keeps_map_err, grows_create|intros _].
  apply grows_same. keeps_tac.
Qed.

(** ** Primitives that succeed *)

Section primitives.
Context {order : ReadDirOrder} {order_laws : ReadDirOrderLaws}.
Context (F : Footprint).

Lemma ensure_tree_Ok path d d' :
  Forall valid_name (components path) → good F d →
  ensure_directory_tree path d = (Ok (), d') →
  good F d' ∧ dk_nodes d ⊆ dk_nodes d' ∧ dk_inodes d' = dk_inodes d ∧
  node_at (dk_nodes d') (components path) = Some Dir ∧
  ∀ q n, dk_nodes d' !! q = Some n →
    dk_nodes d !! q = Some n ∨ n = Dir ∧ q `prefix_of` components path.
Proof.
  intros Hv Hd Hrun. set (N := narrow F (λ q, q `prefix_of` components path)).
  pose proof (grows_ensure path d) as Hg. rewrite Hrun in Hg. simpl in Hg.
  destruct Hg as (Hsub & Hi & Hdirs).
  destruct (ensure_directory_tree_run N path d (Ok ()) d' Hv) as [Hstep Hdir];
    [done|by apply good_narrow|done|].
  destruct (Hstep (good_narrow F _ d Hd)) as [Hd' [_ _ Hnew]]. apply good_widen in Hd'.
  split_and!; [done..|by apply Hdir|]. intros q n Hq.
  destruct (Hdirs q n Hq) as [?| ->]; [by left|].
  destruct (Hnew q) as [[m Hm]|Hpre]; [by eexists| |by right].
  left. rewrite Hm. f_equal. eapply lookup_weaken in Hm; [|exact Hsub]. congruence.
Qed.

Lemma create_new_Ok path d h d' :
  good F d → ours F path → owned (fp_roots F) (components path) →
  create_new_file path d = (Ok h, d') → good F d' ∧ created F path h d d'.
Proof.
  intros Hd Hours Hown Hrun. set (N := narrow F (eq (components path))).
  destruct (create_new_file_run N path d (Ok h) d') as [Hstep Hcr]; [by apply good_narrow|done..|].
  split; [|by apply (Hcr h)]. eapply good_widen, Hstep. by apply good_narrow.
Qed.

Context {fs2 : Fs2} {fs2_laws : Fs2Laws}.

Lemma preallocate_Ok h len content d d' :
  good F d → hd_inode h ∉ fp_fixed F → dk_inodes d !! hd_inode h = Some content →
  preallocate h len d = (Ok (), d') →
  good F d' ∧ dk_nodes d' = dk_nodes d ∧
  dk_inodes d' =
    <[hd_inode h := content ++ replicate (Z.to_nat len - length content) Byte.x00]> (dk_inodes d).
Proof.
  intros Hd Hfix Hc Hrun.
  destruct (preallocate_run F h len d _ d' Hfix Hrun) as (Hs & Hn & _ & Hi & Hok).
  split_and!; [by apply Hs|done|]. apply map_eq. intros i.
  destruct (decide (i = hd_inode h)) as [->|Hne].
  - rewrite lookup_insert_eq. by apply Hok.
  - rewrite lookup_insert_ne by done. by apply Hi.
Qed.
End primitives.

(** ** Where the entries go *)

(** The place of an entry below the payload. *)
Definition spot (kind : ContentKind) (e : ManifestEntry) : place :=
  if bool_decide (kind = Kind_File) || bool_decide (me_relative_path e = []) then []
  else relative_path (me_relative_path e).

Lemma join_spot payload e :
  entry_inside e → ∀ kind, kind ≠ Kind_File →
  components (join payload (relative_path_buf (me_relative_path e))) = components payload ++ spot kind e
  ∧ Forall valid_name (spot kind e).
Proof.
  intros He kind Hkind. unfold spot. rewrite bool_decide_false by done. simpl.
  case_bool_decide as Hp.
  - rewrite Hp. split; [|constructor]. by rewrite components_join_relative.
  - destruct He as [?|Hv]; [done|]. split; [|done].
    destruct (relative_path_buf_spec (relative_path (me_relative_path e))) as [Hc Ha].
    { eapply Forall_impl; [exact Hv|apply valid_path_name]. }
    unfold relative_path_buf. by rewrite components_join_relative, Hc by done.
Qed.
Lemma staged_spot payload kind e :
  entry_inside e →
  components (staged_path payload kind e) = components payload ++ spot kind e ∧
  Forall valid_name (spot kind e).
Proof.
  intros He. unfold staged_path. case_bool_decide as Hk; [|by apply join_spot].
  unfold spot. rewrite bool_decide_true by done. simpl. by rewrite app_nil_r.
Qed.

(** ** The tree of a manifest

    [at_place] holds the entries with their contents: every folder is there, every file is there
    with its content, and whatever else is there is a folder on the way to an entry. *)
Record holds_tree (d : Disk) (at_place : place) (kind : ContentKind)
    (entries : list ManifestEntry) (contents : list bytes) : Prop := {
  ht_root : kind = Kind_Folder → dk_nodes d !! at_place = Some Dir;
  ht_folders : kind = Kind_Folder → ∀ e, e ∈ entries → is_file e = false →
    dk_nodes d !! (at_place ++ spot kind e) = Some Dir;
  ht_files : Forall2 (λ e data, ∃ i, dk_nodes d !! (at_place ++ spot kind e) = Some (File i) ∧
    dk_inodes d !! i = Some data) (files_of entries) contents;
  ht_only : ∀ k n, dk_nodes d !! (at_place ++ k) = Some n →
    n = Dir ∧ (k = [] ∨ ∃ e, e ∈ entries ∧ k `prefix_of` spot kind e) ∨
    ∃ e, e ∈ files_of entries ∧ k = spot kind e;
}.

(** What is at one place of a disk is at another place of another. *)
Record same_tree (d : Disk) (p : place) (d' : Disk) (q : place) : Prop := {
  st_nodes : ∀ k, dk_nodes d' !! (q ++ k) = dk_nodes d !! (p ++ k);
  st_inodes : dk_inodes d' = dk_inodes d;
}.
Lemma same_tree_refl d p : same_tree d p d p.
Proof. by split. Qed.
Lemma same_tree_trans d1 p1 d2 p2 d3 p3 :
  same_tree d1 p1 d2 p2 → same_tree d2 p2 d3 p3 → same_tree d1 p1 d3 p3.
Proof. intros [N1 I1] [N2 I2]. split; [|congruence]. intros k. by rewrite N2, N1. Qed.
Lemma same_tree_disk d d' p :
  dk_nodes d' = dk_nodes d → dk_inodes d' = dk_inodes d → same_tree d p d' p.
Proof. intros Hn Hi. split; [|done]. intros k. by rewrite Hn. Qed.
Lemma holds_tree_moved d p d' q kind entries contents :
  same_tree d p d' q → holds_tree d p kind entries contents → holds_tree d' q kind entries contents.
Proof.
  intros [Hn Hi] [Hr Hd Hf Ho]. split.
  - intros Hk. rewrite <- (app_nil_r q), Hn, app_nil_r. by apply Hr.
  - intros Hk e He Hfe. rewrite Hn. by apply Hd.
  - eapply Forall2_impl; [exact Hf|]. intros e data (i & Hq & Hc). exists i. by rewrite Hn, Hi.
  - intros k n. rewrite Hn. apply Ho.
Qed.

(** ** Staging *)

Section staging.
Context {order : ReadDirOrder} {order_laws : ReadDirOrderLaws}.
Context {hash : HashSetOrder} {hash_laws : HashSetOrderLaws}.
Context {fs2 : Fs2} {fs2_laws : Fs2Laws}.
Context (F : Footprint) (root : PathBuf).
Context (Hnames : Forall valid_name (components root)) (Hroot : components root ∈ fp_roots F).
Context (kind : ContentKind) (entries : list ManifestEntry).
Context (Hinside : Forall entry_inside entries).

Notation payload := (join root (str "payload")).
Definition payload_place : place := components root ++ [str "payload"].
Notation P := payload_place.
Notation good := (good F).

Lemma components_payload : components payload = P.
Proof. apply components_join, valid_path_name, valid_payload. Qed.
Lemma payload_valid : Forall valid_name P.
Proof. apply Forall_app. split; [done|]. apply Forall_singleton, valid_payload. Qed.
Lemma payload_ne k : P ++ k ≠ [].
Proof. unfold payload_place. by destruct (components root). Qed.
Lemma inside_owned path names :
  components path = P ++ names → Forall valid_name names →
  Forall valid_name (components path) ∧ ours F path ∧ owned (fp_roots F) (components path).
Proof.
  intros Hc Hv. assert (Forall valid_name (components path)) as Hp.
  { rewrite Hc. apply Forall_app. split; [apply payload_valid|done]. }
  assert (owned (fp_roots F) (components path)) as Hown.
  { exists (components root). split; [done|]. rewrite Hc. unfold payload_place.
    rewrite <- (assoc_L (++)). by eexists. }
  split_and!; [done|split; [done|by left]|done].
Qed.

(** What staging may add. *)
Definition planned (q : place) (n : Node) : Prop :=
  n = Dir ∧ (q `prefix_of` P ∨ ∃ e, e ∈ entries ∧ q `prefix_of` P ++ spot kind e) ∨
  ∃ e, e ∈ files_of entries ∧ q = P ++ spot kind e.
Record lays (d d' : Disk) : Prop := {
  ly_nodes : dk_nodes d ⊆ dk_nodes d';
  ly_inodes : dk_inodes d ⊆ dk_inodes d';
  ly_new : ∀ q n, dk_nodes d' !! q = Some n → dk_nodes d !! q = Some n ∨ planned q n;
}.
#[local] Instance lays_preorder : PreOrder lays.
Proof.
  split; [by intros d; split; auto|]. intros d1 d2 d3 [N1 I1 W1] [N2 I2 W2].
  split; [by etrans..|]. intros q n [Hq|?]%W2; [by apply W1|by right].
Qed.
Lemma lays_same d d' : dk_nodes d' = dk_nodes d → dk_inodes d' = dk_inodes d → lays d d'.
Proof. intros Hn Hi. split; rewrite ?Hn, ?Hi; auto. Qed.

Lemma ensure_lays path d d' :
  Forall valid_name (components path) →
  (components path `prefix_of` P ∨ ∃ e, e ∈ entries ∧ components path `prefix_of` P ++ spot kind e) →
  good d → ensure_directory_tree path d = (Ok (), d') →
  good d' ∧ lays d d' ∧ node_at (dk_nodes d') (components path) = Some Dir.
Proof.
  intros Hv Hpre Hd Hrun.
  destruct (ensure_tree_Ok F path d d' Hv Hd Hrun) as (Hd' & Hsub & Hi & Hdir & Hnew).
  split_and!; [done| |done]. split; [done|by rewrite Hi|]. intros q n Hq.
  destruct (Hnew q n Hq) as [?|[-> Hq']]; [by left|right; left; split; [done|]].
  destruct Hpre as [?|(e & He & ?)]; [left; by etrans|right; exists e; split; [done|by etrans]].
Qed.

(** A staged file: an open handle at the start of a file no longer than its entry. *)
Definition placed (e : ManifestEntry) (h : Handle) (d : Disk) : Prop :=
  hd_position h = 0%nat ∧ dk_nodes d !! (P ++ spot kind e) = Some (File (hd_inode h)) ∧
  ∃ c, dk_inodes d !! hd_inode h = Some c ∧ zlen c ≤ me_byte_len e.
Lemma placed_later e h d d' : lays d d' → placed e h d → placed e h d'.
Proof.
  intros [Hn Hi _] (Hp & Hq & c & Hc & Hl). split_and!; [done|by eapply lookup_weaken|].
  exists c. split; [by eapply lookup_weaken|done].
Qed.

Definition staged_as (ie : nat * ManifestEntry) (h : Handle) : StagedFile :=
  mkStagedFile (as_u32 (Z.of_nat ie.1)) (staged_path payload kind ie.2) (Some h).

Lemma prefix_removelast (q p : place) : q `prefix_of` p → removelast q `prefix_of` p.
Proof.
  intros Hq. etrans; [|exact Hq]. destruct q as [|x l _] using rev_ind; [done|].
  rewrite removelast_last. by eexists.
Qed.
Lemma Forall_removelast {A} (Q : A → Prop) l : Forall Q l → Forall Q (removelast l).
Proof.
  destruct l as [|x l _] using rev_ind; [done|]. rewrite removelast_last. by intros [??]%Forall_app.
Qed.

Lemma on_disk_Ok {T} (m : FsM T) x s s' :
  on_disk m s = (Ok x, s') →
  m (rx_disk s) = (Ok x, rx_disk s') ∧ rx_plan s' = rx_plan s ∧ rx_peer s' = rx_peer s.
Proof.
  unfold on_disk. destruct (m (rx_disk s)) as [[y|e] d'] eqn:Hm; intros [= Hx <-]; by subst.
Qed.

Lemma stage_file_Ok i e s s' :
  stage_file payload kind (i, e) s = (Ok (), s') → good (rx_disk s) →
  e ∈ entries → is_file e = true → 0 ≤ me_byte_len e →
  ∃ h, good (rx_disk s') ∧ lays (rx_disk s) (rx_disk s') ∧ placed e h (rx_disk s') ∧
    hd_inode h ∉ dom (dk_inodes (rx_disk s)) ∧
    rx_plan s' = plan_with_staged (rp_staged_files (rx_plan s) ++ [staged_as (i, e) h]) (rx_plan s).
Proof.
  intros Hrun Hd He Hfile Hlen.
  assert (entry_inside e) as Hin by (by eapply Forall_forall in Hinside).
  destruct (staged_spot payload kind e Hin) as [Hc Hv]. rewrite components_payload in Hc.
  destruct (inside_owned _ _ Hc Hv) as (Hpv & Hours & Hown). unfold stage_file in Hrun.
  set (path := staged_path payload kind e) in *. ok_in Hrun as u s1 H1.
  assert (good (rx_disk s1) ∧ lays (rx_disk s) (rx_disk s1) ∧ rx_plan s1 = rx_plan s) as (Hd1 & Hl1 & Hp1).
  { destruct (parent path) as [p|] eqn:Hpp; [|injection H1 as _ <-; done].
    apply on_disk_Ok in H1 as (H1 & Hp1 & _). destruct u.
    pose proof (parent_components path p Hpp) as Hpc.
    apply ensure_lays in H1 as (? & ? & _); [done|..|done].
    - rewrite Hpc. by apply Forall_removelast.
    - right. exists e. split; [done|]. rewrite Hpc, Hc. by apply prefix_removelast. }
  ok_in Hrun as h s2 H2. apply on_disk_Ok in H2 as (H2 & Hp2 & _).
  apply (create_new_Ok F) in H2 as [Hd2 (Hh & Hfix & Hfree & Hn2 & Hi2)]; [|done..].
  ok_in Hrun as t s3 H3. apply on_disk_Ok in H3 as (H3 & Hp3 & _). same_disk H3.
  ok_in Hrun as u4 s4 H4. apply on_disk_Ok in H4 as (H4 & Hp4 & _). destruct u4.
  apply (preallocate_Ok F _ _ []) in H4 as (Hd4 & Hn4 & Hi4);
    [|by apply (step_same F (rx_disk s2))|done|rewrite Hi, Hi2; apply lookup_insert_eq].
  apply st_modify_Ok in Hrun as ->. rewrite Hp4, Hp3, Hp2, Hp1.
  change (rx_disk (set_plan _ s4)) with (rx_disk s4).
  assert (hd_inode h ∉ dom (dk_inodes (rx_disk s1))) as Hfresh by (rewrite Hh; apply is_fresh).
  rewrite Hi, Hi2, insert_insert_eq in Hi4. rewrite Hn, Hn2 in Hn4. rewrite Hc in *.
  assert (lays (rx_disk s1) (rx_disk s4)) as Hl4.
  { split; [rewrite Hn4; by apply insert_subseteq| |].
    - rewrite Hi4. apply insert_subseteq. by apply not_elem_of_dom.
    - rewrite Hn4. intros q n [[<- <-]|[_ Hq]]%lookup_insert_Some; [right; right|by left].
      exists e. split; [|done]. apply list_elem_of_filter. done. }
  exists h. split_and!; [done|by etrans| | |done].
  - split_and!; [by rewrite Hh|rewrite Hn4; apply lookup_insert_eq|]. eexists.
    rewrite Hi4. split; [apply lookup_insert_eq|]. unfold zlen.
    rewrite length_app, length_replicate. simpl. lia.
  - intros Hi0. apply Hfresh. apply elem_of_dom in Hi0 as [c Hc0].
    apply elem_of_dom. exists c. by eapply lookup_weaken; [|apply Hl1].
Qed.

Lemma folders_Ok paths s s' :
  st_for paths (λ path, on_disk (ensure_directory_tree path)) s = (Ok (), s') → good (rx_disk s) →
  (∀ path, path ∈ paths → ∃ e, e ∈ entries ∧ components path = P ++ spot kind e) →
  good (rx_disk s') ∧ lays (rx_disk s) (rx_disk s') ∧ rx_plan s' = rx_plan s ∧
  ∀ path, path ∈ paths → node_at (dk_nodes (rx_disk s')) (components path) = Some Dir.
Proof.
  revert s. induction paths as [|path paths IH]; intros s Hrun Hd Hall; cbn [st_for] in Hrun.
  { injection Hrun as <-. split_and!; [done..|]. by intros path ?%elem_of_nil. }
  ok_in Hrun as u s1 H1. apply on_disk_Ok in H1 as (H1 & Hp1 & _). destruct u.
  destruct (Hall path ltac:(left)) as (e & He & Hc).
  assert (entry_inside e) as Hin by (by eapply Forall_forall in Hinside).
  apply ensure_lays in H1 as (Hd1 & Hl1 & Hdir); [| |right; exists e; by rewrite Hc|done].
  2: { rewrite Hc. apply Forall_app. split; [apply payload_valid|by eapply staged_spot]. }
  apply IH in Hrun as (Hd2 & Hl2 & Hp2 & Hdirs); [|done|set_solver].
  split_and!; [done|by etrans|congruence|]. intros p [->|Hp]%elem_of_cons; [|by apply Hdirs].
  rewrite Hc, node_at_ne in Hdir by apply payload_ne. rewrite Hc, node_at_ne by apply payload_ne.
  by eapply lookup_weaken; [|apply Hl2].
Qed.

Lemma files_Ok l s s' :
  st_for l (stage_file payload kind) s = (Ok (), s') → good (rx_disk s) →
  Forall (λ ie, ie.2 ∈ entries ∧ is_file ie.2 = true ∧ 0 ≤ me_byte_len ie.2) l →
  ∃ handles, good (rx_disk s') ∧ lays (rx_disk s) (rx_disk s') ∧
    Forall2 (λ ie h, placed ie.2 h (rx_disk s')) l handles ∧ NoDup (map hd_inode handles) ∧
    Forall (λ h, hd_inode h ∉ dom (dk_inodes (rx_disk s))) handles ∧
    rx_plan s' = plan_with_staged (rp_staged_files (rx_plan s) ++ zip_with staged_as l handles)
                   (rx_plan s).
Proof.
  revert s. induction l as [|[i e] l IH]; intros s Hrun Hd Hall; cbn [st_for] in Hrun.
  { injection Hrun as <-. exists []. split_and!; try done; [constructor|].
    simpl. rewrite app_nil_r. by destruct (rx_plan s). }
  apply Forall_cons in Hall as [(He & Hfile & Hlen) Hall]. simpl in He, Hfile, Hlen.
  ok_in Hrun as u s1 H1. destruct u.
  apply stage_file_Ok in H1 as (h & Hd1 & Hl1 & Hplaced & Hfresh & Hp1); [|done..].
  apply IH in Hrun as (handles & Hd2 & Hl2 & Hplaced2 & Hnd & Hnew & Hp2); [|done..].
  exists (h :: handles). split_and!; [done|by etrans| | | |].
  - constructor; [by eapply placed_later|done].
  - cbn [map]. constructor; [|done]. intros Hin. apply list_elem_of_fmap in Hin as (h' & Heq & Hh').
    rewrite Forall_forall in Hnew. apply (Hnew h' Hh'). rewrite <- Heq.
    destruct Hplaced as (_ & _ & c & Hc & _). apply elem_of_dom. by exists c.
  - constructor; [done|]. eapply Forall_impl; [exact Hnew|]. intros h' Hh' [c Hc]%elem_of_dom.
    apply Hh', elem_of_dom. exists c. by eapply lookup_weaken; [|apply Hl1].
  - rewrite Hp2, Hp1. cbn [plan_with_staged rp_staged_files zip_with]. by rewrite <- (assoc_L (++)).
Qed.

(** *** The whole staging *)

Record laid (d : Disk) : Prop := {
  ld_root : kind = Kind_Folder → dk_nodes d !! P = Some Dir;
  ld_folders : kind = Kind_Folder → ∀ e, e ∈ entries → is_file e = false →
    dk_nodes d !! (P ++ spot kind e) = Some Dir;
  ld_only : ∀ k n, dk_nodes d !! (P ++ k) = Some n →
    n = Dir ∧ (k = [] ∨ ∃ e, e ∈ entries ∧ k `prefix_of` spot kind e) ∨
    ∃ e, e ∈ files_of entries ∧ k = spot kind e;
}.

Lemma planned_below k n :
  planned (P ++ k) n →
  n = Dir ∧ (k = [] ∨ ∃ e, e ∈ entries ∧ k `prefix_of` spot kind e) ∨
  ∃ e, e ∈ files_of entries ∧ k = spot kind e.
Proof.
  intros [[-> [[r Hr]|(e & He & Hpre)]]|(e & He & Hk)]; [left..|right].
  - split; [done|left]. rewrite <- (assoc_L (++)) in Hr. rewrite <- (app_nil_r P) in Hr at 1.
    apply app_inj_1 in Hr as [_ Hr]; [|done]. by destruct k.
  - split; [done|right]. exists e. split; [done|]. by apply prefix_app_inv in Hpre.
  - exists e. split; [done|]. by apply app_inj_1 in Hk as [_ ?].
Qed.

Lemma staged_directories_spot path :
  kind = Kind_Folder → path ∈ staged_directories payload entries →
  ∃ e, e ∈ entries ∧ is_file e = false ∧ components path = P ++ spot kind e.
Proof.
  unfold staged_directories. rewrite merge_sort_Permutation, hash_set_order_all, elem_of_remove_dups.
  intros Hk (e & -> & [Hdir He]%list_elem_of_filter)%list_elem_of_fmap. exists e. split; [done|].
  split; [by unfold is_directory_entry in Hdir; unfold is_file; destruct (me_kind e)|].
  rewrite <- components_payload. apply join_spot; [by eapply Forall_forall in Hinside|by rewrite Hk].
Qed.
Lemma staged_directories_all e :
  kind = Kind_Folder → e ∈ entries → is_file e = false →
  ∃ path, path ∈ staged_directories payload entries ∧ components path = P ++ spot kind e.
Proof.
  intros Hk He Hdir. exists (join payload (relative_path_buf (me_relative_path e))). split.
  - unfold staged_directories. rewrite merge_sort_Permutation, hash_set_order_all, elem_of_remove_dups.
    apply list_elem_of_fmap. exists e. split; [done|]. apply list_elem_of_filter. split; [|done].
    unfold is_directory_entry. unfold is_file in Hdir. by destruct (me_kind e).
  - rewrite <- components_payload. apply join_spot; [by eapply Forall_forall in Hinside|by rewrite Hk].
Qed.

Lemma create_root_Ok d d' :
  good d → create_dir root d = (Ok (), d') →
  good d' ∧ lays d d' ∧ ∀ k, dk_nodes d !! (components root ++ k) = None.
Proof.
  intros Hd Hrun. assert (ours F root) as Hours.
  { split; [done|left]. exists (components root). done. }
  destruct (create_dir_step (narrow F (eq (components root))) root d (Ok ()) d') as [Hstep _];
    [by apply good_narrow|done..|].
  assert (good d') as Hd' by (eapply good_widen, Hstep; by apply good_narrow).
  apply create_dir_run in Hrun as [(e & [=] & _)|(_ & q & Hl & Hfree & Hn & Hi)].
  pose proof (leads_ours F _ _ _ _ Hd Hours Hl) as ->.
  assert (components root ≠ []) as Hne by (by intros H0; rewrite H0 in Hfree).
  rewrite node_at_ne in Hfree by done. split_and!; [done| |].
  - split; [rewrite Hn; by apply insert_subseteq|by rewrite Hi|].
    rewrite Hn. intros q n [[<- <-]|[_ Hq]]%lookup_insert_Some; [right|by left].
    left. split; [done|left]. by eexists.
  - intros k. destruct (decide (k = [])) as [->|Hk]; [by rewrite app_nil_r|].
    apply eq_None_not_Some. intros [n Hnode]. apply node_above in Hnode; [|apply Hd|done].
    rewrite node_at_ne in Hnode by done. congruence.
Qed.

Lemma payload_root_step s s' :
  (if bool_decide (kind = Kind_Folder) then on_disk (ensure_directory_tree payload) else mret ()) s
    = (Ok (), s') → good (rx_disk s) →
  good (rx_disk s') ∧ lays (rx_disk s) (rx_disk s') ∧ rx_plan s' = rx_plan s ∧
  (kind = Kind_Folder → dk_nodes (rx_disk s') !! P = Some Dir).
Proof.
  case_bool_decide as Hk; intros Hrun Hd; [|by injection Hrun as <-].
  apply on_disk_Ok in Hrun as (Hrun & Hp & _).
  apply ensure_lays in Hrun as (? & ? & Hdir);
    [|rewrite components_payload; apply payload_valid|left; by rewrite components_payload|done].
  split_and!; [done..|]. intros _. rewrite components_payload, <- (app_nil_r P) in Hdir.
  by rewrite node_at_ne, app_nil_r in Hdir by apply payload_ne.
Qed.

Context (Hkinds : kind = Kind_Folder ∨ Forall (λ e, is_file e = true) entries).

Lemma no_staged_directories : kind ≠ Kind_Folder → staged_directories payload entries = [].
Proof.
  intros Hk. destruct Hkinds as [?|Hfiles]; [done|].
  destruct (staged_directories payload entries) as [|x l] eqn:Hl; [done|]. exfalso.
  assert (x ∈ staged_directories payload entries) as Hx by (rewrite Hl; left).
  unfold staged_directories in Hx.
  rewrite merge_sort_Permutation, hash_set_order_all, elem_of_remove_dups in Hx.
  apply list_elem_of_fmap in Hx as (e & _ & [Hdir He]%list_elem_of_filter).
  rewrite Forall_forall in Hfiles. specialize (Hfiles e He).
  unfold is_directory_entry in Hdir. unfold is_file in Hfiles. by destruct (me_kind e).
Qed.
Lemma folders_step s s' :
  st_for (staged_directories payload entries) (λ path, on_disk (ensure_directory_tree path)) s
    = (Ok (), s') → good (rx_disk s) →
  good (rx_disk s') ∧ lays (rx_disk s) (rx_disk s') ∧ rx_plan s' = rx_plan s ∧
  (kind = Kind_Folder → ∀ e, e ∈ entries → is_file e = false →
     dk_nodes (rx_disk s') !! (P ++ spot kind e) = Some Dir).
Proof.
  intros Hrun Hd. destruct (decide (kind = Kind_Folder)) as [Hk|Hk].
  - apply folders_Ok in Hrun as (? & ? & ? & Hall); [|done|].
    + split_and!; [done..|]. intros _ e He Hfe.
      destruct (staged_directories_all e Hk He Hfe) as (path & Hpath & Hc).
      specialize (Hall path Hpath). by rewrite Hc, node_at_ne in Hall by apply payload_ne.
    + intros path Hpath. destruct (staged_directories_spot path Hk Hpath) as (e & ? & _ & ?). eauto.
  - rewrite no_staged_directories in Hrun by done. by injection Hrun as <-.
Qed.

Lemma file_entries_typed :
  Forall (λ e, 0 ≤ me_byte_len e) entries →
  Forall (λ ie, ie.2 ∈ entries ∧ is_file ie.2 = true ∧ 0 ≤ me_byte_len ie.2) (file_entries entries).
Proof.
  intros Hlens. apply Forall_forall. intros [i e] [Hf Hin]%list_elem_of_filter.
  apply elem_of_lookup_imap in Hin as (j & e' & [= -> ->] & He). simpl in *.
  apply list_elem_of_lookup_2 in He. split_and!; [done..|].
  rewrite Forall_forall in Hlens. by apply Hlens.
Qed.

(** A staging that succeeds: the area was free, the tree of the manifest is in it with the
    files still empty, and every file is open. *)
Lemma prepare_staging_Ok s s' :
  receiver_prepare_staging root s = (Ok (), s') → good (rx_disk s) →
  rp_staged_files (rx_plan s) = [] → rp_entries (rx_plan s) = entries →
  rp_content_kind (rx_plan s) = kind → Forall (λ e, 0 ≤ me_byte_len e) entries →
  ∃ handles, good (rx_disk s') ∧ laid (rx_disk s') ∧
    Forall2 (λ ie h, placed ie.2 h (rx_disk s')) (file_entries entries) handles ∧
    NoDup (map hd_inode handles) ∧
    rx_plan s' = plan_with_staged (zip_with staged_as (file_entries entries) handles) (rx_plan s) ∧
    (∀ k, dk_nodes (rx_disk s) !! (components root ++ k) = None).
Proof.
  intros Hrun Hd Hst Hen Hki Hlens. unfold receiver_prepare_staging in Hrun.
  ok_in Hrun as p s0 H0. apply lift_stop_Ok in H0 as [Hp%ok_or_Ok ->].
  ok_in Hrun as u1 s1 H1. apply on_disk_Ok in H1 as (H1 & Hp1 & _). destruct u1.
  pose proof (parent_components root p Hp) as Hpc.
  apply ensure_lays in H1 as (Hd1 & Hl1 & _);
    [|rewrite Hpc; by apply Forall_removelast|left; rewrite Hpc; apply prefix_removelast; by eexists|done].
  ok_in Hrun as u2 s2 H2. apply on_disk_Ok in H2 as (H2 & Hp2 & _). destruct u2.
  apply create_root_Ok in H2 as (Hd2 & Hl2 & Hfree); [|done].
  ok_in Hrun as t s3 H3. apply on_disk_Ok in H3 as (H3 & Hp3 & _). same_disk H3.
  ok_in Hrun as plan s4 H4. injection H4 as <- <-. rewrite Hp3, Hp2, Hp1, Hen, Hki in Hrun.
  assert (good (rx_disk s3)) as Hd3 by (by apply (step_same F (rx_disk s2))).
  pose proof (lays_same _ _ Hn Hi) as Hl3. clear Hn Hi H3.
  ok_in Hrun as u5 s5 H5. destruct u5.
  apply payload_root_step in H5 as (Hd5 & Hl5 & Hp5 & Hroot5); [|done].
  ok_in Hrun as u6 s6 H6. destruct u6. apply folders_step in H6 as (Hd6 & Hl6 & Hp6 & Hdirs); [|done].
  ok_in Hrun as u7 s7 H7. destruct u7.
  apply files_Ok in H7 as (handles & Hd7 & Hl7 & Hplaced & Hnd & _ & Hp7);
    [|done|by apply file_entries_typed].
  apply on_disk_Ok in Hrun as (Hrun & Hp8 & _). same_disk Hrun.
  pose proof (lays_same _ _ Hn Hi) as Hl8.
  assert (lays (rx_disk s6) (rx_disk s')) as Hl68 by (by etrans).
  assert (lays (rx_disk s5) (rx_disk s')) as Hl58 by (by etrans).
  assert (lays (rx_disk s) (rx_disk s')) as Hlays by (do 4 (etrans; [eassumption|]); done).
  assert (∀ k, dk_nodes (rx_disk s) !! (components root ++ k) = None) as Hnone.
  { intros k. apply eq_None_not_Some. intros [n Hq].
    eapply lookup_weaken in Hq; [|apply Hl1]. by rewrite (Hfree k) in Hq. }
  exists handles. split_and!; [by apply (step_same F (rx_disk s7))| | |done| |done].
  - split.
    + intros Hk. eapply lookup_weaken; [by apply Hroot5|apply Hl58].
    + intros Hk e He Hfe. eapply lookup_weaken; [by apply Hdirs|apply Hl68].
    + intros k n Hq. apply planned_below. destruct (ly_new _ _ Hlays _ _ Hq) as [Hold|?]; [|done].
      unfold payload_place in Hold. rewrite <- (assoc_L (++)) in Hold. by rewrite Hnone in Hold.
  - eapply Forall2_impl; [exact Hplaced|]. intros ie h. by apply placed_later.
  - rewrite Hp8, Hp7, Hp6, Hp5, Hp3, Hp2, Hp1, Hst. done.
Qed.

(** *** The payload in place *)

Lemma Forall2_through {A B C} (Q1 : A → B → Prop) (Q2 : B → C → Prop) (Q : A → C → Prop) l k m :
  (∀ x y z, Q1 x y → Q2 y z → Q x z) → Forall2 Q1 l k → Forall2 Q2 k m → Forall2 Q l m.
Proof.
  intros HQ H1. revert m. induction H1; intros m H2; inversion H2; subst; constructor; eauto.
Qed.

Lemma file_entries_files : (file_entries entries).*2 = files_of entries.
Proof.
  unfold file_entries, files_of. clear.
  assert (∀ n l, (filter (λ '(_, e), is_file e = true) (imap (λ i e, ((n + i)%nat, e)) l)).*2
    = filter (λ e, is_file e = true) l) as Hgen.
  { intros n l. revert n. induction l as [|e l IH]; intros n; [done|].
    specialize (IH (S n)). rewrite imap_cons.
    rewrite !filter_cons. rewrite (imap_ext _ (λ i x, ((S n + i)%nat, x)));
      [|intros i x _; simpl; f_equal; lia]. do 2 case_decide; simpl in *; try done. by f_equal. }
  by rewrite <- (Hgen 0%nat).
Qed.

Lemma placed_all_open handles s :
  Forall2 (λ ie h, placed ie.2 h (rx_disk s)) (file_entries entries) handles →
  NoDup (map hd_inode handles) → rp_entries (rx_plan s) = entries → zlen entries ≤ U32_MAX →
  rp_staged_files (rx_plan s) = zip_with staged_as (file_entries entries) handles →
  all_open 0 (rp_staged_files (rx_plan s)) handles (files_of entries) s.
Proof.
  intros Hplaced Hnd Hen Hlen Hst. rewrite <- file_entries_files. rewrite Hst at 1.
  assert (∀ ie, ie ∈ file_entries entries → entries !! ie.1 = Some ie.2) as Hat.
  { intros [i e] [_ Hin]%list_elem_of_filter. by apply elem_of_lookup_imap in Hin as (j & x & [= -> ->] & ?). }
  assert (∀ l k pre handles, Forall2 (λ ie h, placed ie.2 h (rx_disk s)) l handles →
    NoDup (map hd_inode handles) → (∀ ie, ie ∈ l → entries !! ie.1 = Some ie.2) →
    rp_staged_files (rx_plan s) = pre ++ zip_with staged_as l handles → length pre = k →
    all_open k (zip_with staged_as l handles) handles l.*2 s) as Hgen;
    [|by apply (Hgen _ 0%nat [])].
  clear Hplaced Hnd Hst handles Hat. induction l as [|[i e] l IH];
    intros k pre [|h handles] Hf Hnd Hat Hst Hk; try by inversion Hf.
  apply Forall2_cons in Hf as [(Hpos & _ & c & Hc & Hl) Hf]. apply NoDup_cons in Hnd as [Hh Hnd].
  cbn [zip_with fmap list_fmap all_open]. split_and!.
  - split_and!; [|done| |by exists c].
    + rewrite Hst, lookup_app_r, Hk, Nat.sub_diag by lia. done.
    + rewrite Hen. specialize (Hat (i, e) ltac:(left)). cbn [fst snd staged_as sf_entry_index] in *.
      apply lookup_lt_Some in Hat as Hi. unfold zlen in Hlen.
      rewrite as_u32_id by (unfold is_u32, U32_MAX in *; lia). by rewrite Nat2Z.id.
  - done.
  - apply (IH (S k) (pre ++ [staged_as (i, e) h])); [done..|set_solver| |].
    + rewrite Hst. by rewrite <- (assoc_L (++)).
    + rewrite length_app. simpl. lia.
Qed.

Lemma payload_tree handles contents d d' :
  laid d → Forall2 (λ ie h, placed ie.2 h d) (file_entries entries) handles →
  dk_nodes d' = dk_nodes d → Forall2 (stored (dk_inodes d')) handles contents →
  holds_tree d' P kind entries contents.
Proof.
  intros [Hr Hf Ho] Hplaced Hn Hst. split; rewrite ?Hn; [done|done| |done].
  rewrite <- file_entries_files. apply Forall2_fmap_l.
  eapply Forall2_through; [|exact Hplaced|exact Hst].
  intros ie h data (_ & Hq & _) Hdata. by exists (hd_inode h).
Qed.
End staging.
