(* ===== verification/ReceiverSave.v ===== *)
(** * A save puts the announced tree at its destination

    The success of [Receiver.receive_one] in save mode: from the accepted manifest over the
    staged files and the stream to the name in the directory the user asked for, and to the
    end of the run, which removes the staging area and leaves the saved tree alone. *)

From S2P Require Import Prelude RustStr StdIo Offer Records Names Protocol OfferStore Ledger Activation Filesystem Announce Connection Manifest Transfer Receiver ReceiverFrame ReceiverContent ReceiverSafety ReceiverTree.
From Stdlib Require Import Strings.Byte.

(** ** Steps that leave the disk as it is *)

(** Faults and fresh numbers of the disk apart, nothing of it has changed, nor the plan. *)
Definition still : relation Rx :=
  same_on (λ s, (disk_view (rx_disk s), rx_plan s, gu_armed (rx_guard s))).
#[local] Instance still_preorder : PreOrder still := same_on_preorder _.
#[local] Instance off_disk_still : subrelation off_disk still.
Proof. intros s s' [= Hd Hp Hg]. unfold still, same_on. by rewrite Hd, Hp, Hg. Qed.
#[local] Instance elsewhere_still : subrelation elsewhere still.
Proof. intros s s' Hs. by apply off_disk_still, elsewhere_off_disk. Qed.

Lemma still_view s s' : still s s' →
  dk_nodes (rx_disk s') = dk_nodes (rx_disk s) ∧ dk_inodes (rx_disk s') = dk_inodes (rx_disk s) ∧
  rx_plan s' = rx_plan s ∧ gu_armed (rx_guard s') = gu_armed (rx_guard s).
Proof. by intros [=]. Qed.
Lemma still_rgood F root s s' : still s s' → rgood F root s → rgood F root s'.
Proof.
  intros (Hn & Hi & Hp & Hg)%still_view [Hd Hh He Ha].
  split; rewrite ?Hp, ?Hg; [by apply (step_same F (rx_disk s))|done..].
Qed.
Lemma still_changed F s s' : still s s' → good F (rx_disk s) → changed F (rx_disk s) (rx_disk s').
Proof. intros (Hn & Hi & _)%still_view Hd. by apply (step_same F (rx_disk s)). Qed.
Lemma still_tree s s' p : still s s' → same_tree (rx_disk s) p (rx_disk s') p.
Proof. intros (Hn & Hi & _)%still_view. by apply same_tree_disk. Qed.

Lemma still_disk {T} (m : FsM T) : keeps (same_on disk_view) m → keeps still (on_disk m).
Proof.
  intros Hm s. specialize (Hm (rx_disk s)). unfold on_disk.
  destruct (m (rx_disk s)) as [r d]. unfold still, same_on in *. simpl in *. do 2 f_equal. exact Hm.
Qed.
Lemma still_disk_net {T} (m : FsM T) : keeps (same_on disk_view) m → keeps still (disk_net m).
Proof. intros Hm. by apply keeps_map_stop, still_disk. Qed.
Lemma still_sub {E T} (m : St Rx E T) : keeps off_disk m → keeps still m.
Proof. apply keeps_sub, _. Qed.
Lemma still_store {T} (m : St (World Disk) StoreError T) :
  keeps (same_on (w_fs (FS := Disk))) m → keeps still (store_owned m).
Proof. intros Hm. by apply keeps_map_stop, still_sub, keeps_store_off_disk. Qed.
Lemma still_run {E T} (m : St Rx E T) s r s' : keeps still m → m s = (r, s') → still s s'.
Proof. intros Hm Hrun. specialize (Hm s). by rewrite Hrun in Hm. Qed.

(** ** Publication *)

Section moves.
Context (p q : place) (d : Disk) (n : Node).
Context (Htree : Filesystem.tree_ok (dk_nodes d)) (Hq : q ≠ []).
Context (Hp : dk_nodes d !! p = Some n) (Hfree : dk_nodes d !! q = None).

Lemma nothing_below k : dk_nodes d !! (q ++ k) = None.
Proof.
  destruct (decide (k = [])) as [->|Hk]; [by rewrite app_nil_r|].
  apply eq_None_not_Some. intros [m Hm]. apply node_above in Hm; [|done|done].
  rewrite node_at_ne in Hm by done. congruence.
Qed.
Lemma free_not_above : p ≠ [] → ¬ q `prefix_of` p.
Proof. intros Hne [k ->]. by rewrite nothing_below in Hp. Qed.

Lemma link_keeps d1 :
  ¬ p `prefix_of` q → dk_nodes d1 = <[q := n]> (dk_nodes d) → dk_inodes d1 = dk_inodes d →
  same_tree d p d1 p.
Proof.
  intros Hno Hn Hi. split; [|done]. intros k. rewrite Hn, lookup_insert_ne; [done|].
  intros ->. apply Hno. by eexists.
Qed.
Lemma link_moves d2 :
  p ≠ [] → n ≠ Dir → dk_nodes d2 = delete p (<[q := n]> (dk_nodes d)) →
  dk_inodes d2 = dk_inodes d → same_tree d p d2 q.
Proof.
  intros Hp0 Hnd Hn Hi. split; [|done]. intros k. rewrite Hn.
  rewrite lookup_delete_ne by (intros Heq; apply free_not_above; [done|]; rewrite Heq; by eexists).
  destruct (decide (k = [])) as [->|Hk].
  - by rewrite !app_nil_r, lookup_insert_eq.
  - rewrite lookup_insert_ne, nothing_below by (intros Heq; apply Hk;
      rewrite <- (app_nil_r q) in Heq at 1; by apply app_inv_head in Heq).
    symmetry. apply eq_None_not_Some. intros [m Hm]. apply node_above in Hm; [|done|done].
    rewrite node_at_ne in Hm by done. congruence.
Qed.
End moves.

Section publication.
Context {order : ReadDirOrder} {order_laws : ReadDirOrderLaws}.
Context {ren : Renamore} {ren_laws : RenamoreLaws} {dbg : DebugText}.
Context (F : Footprint) (root : PathBuf).
Context (Hnames : Forall valid_name (components root)) (Hroot : components root ∈ fp_roots F).
Context (Hway : ∀ q, q `prefix_of` components root → fp_allowed F q).
Context (Hunder : ∀ q, fp_allowed F (components root ++ q)).
Context (Hparent : fp_exempt F (removelast (components root)) Dir).
(** The directory of the publication, outside the staging area. *)
Context (directory : PathBuf).
Notation D := (components directory).
Context (Hsolid : D ∈ fp_solid F) (Hout : ¬ components root `prefix_of` D).
Context (Hpub : ∀ name, portable_component name → publishable F (join directory name)).

Notation payload := (join root (str "payload")).
Notation P := (payload_place root).

Lemma payload_lookup d : good F d → ∀ p, lookup_path false payload d = Ok p → p = P.
Proof.
  intros Hd p Hl. destruct (payload_ours F root Hnames Hroot Hway Hunder) as [Hours _].
  rewrite <- (components_payload root). by eapply leads_ours.
Qed.
Lemma target_lookup d name q :
  good F d → valid_name name → lookup_path false (join directory name) d = Ok q → q = D ++ [name].
Proof.
  intros Hd Hname Hl. rewrite (leads_solid F d D name) in Hl; [by injection Hl|done..|].
  apply components_join. by apply valid_path_name.
Qed.
Lemma payload_not_above name : ¬ P `prefix_of` D ++ [name].
Proof.
  intros [k Hk]. unfold payload_place in Hk. rewrite <- (assoc_L (++)) in Hk. cbn [app] in Hk.
  apply Hout. destruct k as [|x k _] using rev_ind.
  - apply app_inj_tail in Hk as [-> _]. done.
  - rewrite app_comm_cons, (assoc_L (++)) in Hk. apply app_inj_tail in Hk as [-> _]. by eexists.
Qed.

(** What became of the payload: it stands where it stood, or it is published. *)
Definition outcome_of (name : rstr) (r : result (Stop NetError) ()) (d d' : Disk) : Prop :=
  same_tree d P d' P ∧ r ≠ Ok () ∨
  r = Ok () ∧ dk_nodes d !! (D ++ [name]) = None ∧ ¬ D ++ [name] `prefix_of` P ∧
    same_tree d P d' (D ++ [name]).

Lemma target_ne name : D ++ [name] ≠ [].
Proof. by destruct D. Qed.

Lemma finalize_file name s r s' :
  valid_name name → good F (rx_disk s) →
  (disk_net (hard_link payload (join directory name));; on_peer await;;
   disk_net (remove_file payload)) s = (r, s') →
  rx_plan s' = rx_plan s ∧ outcome_of name r (rx_disk s) (rx_disk s').
Proof.
  intros Hname Hd Hrun. pose proof (gd_tree F _ Hd) as Htree.
  step_in Hrun as u s1 H1; apply disk_net_run in H1 as (o & H1 & Hp1 & Ho);
    apply hard_link_run in H1 as [(e1 & -> & Hn & Hi)
      |(-> & p & q & n & Hp & Hnode & Hnd & Hq & Hfree & Hn & Hi)]; try discriminate Ho.
  { split; [done|]. left. split; [by apply same_tree_disk|done]. }
  apply payload_lookup in Hp as ->; [|done]. apply target_lookup in Hq as ->; [|done..].
  rewrite node_at_ne in Hfree by apply target_ne.
  assert (same_tree (rx_disk s) P (rx_disk s1) P) as Hkept
    by (eapply link_keeps; [apply target_ne|exact Hfree|apply payload_not_above|exact Hn|exact Hi]).
  step_in Hrun as u2 s2 H2; apply await_disk in H2 as [Hd2 Hp2].
  { rewrite Hd2, Hp2. split; [done|]. by left. }
  apply disk_net_run in Hrun as (o2 & H3 & Hp3 & Hr). rewrite Hp3, Hp2, Hp1, Hd2 in *.
  apply remove_file_run in H3 as [(e & -> & Hun)|(-> & q' & n' & Hl & Hq' & _ & Hn3 & Hi3)].
  - split; [done|]. left. split; [|by rewrite Hr].
    eapply same_tree_trans; [exact Hkept|]. destruct Hun. by apply same_tree_disk.
  - split; [done|]. right. split_and!; [done..| |].
    { eapply free_not_above; [exact Htree|apply target_ne|exact Hnode|exact Hfree|].
      rewrite <- (app_nil_r P). by eapply (payload_ne F). }
    assert (good F (rx_disk s1)) as Hd1.
    { destruct (payload_ours F root Hnames Hroot Hway Hunder) as [Hours Hown].
      assert (fs_step (narrow F (eq (D ++ [name]))) (rx_disk s) (rx_disk s1)) as Hs.
      { eapply (create_at _ _ _ (D ++ [name]) n); [by apply good_narrow| |
          by rewrite node_at_ne by apply target_ne| | |done|done|done].
        - exists false, (join directory name). apply (leads_solid F); [done..|].
          apply components_join. by apply valid_path_name.
        - intros target ->. exfalso. apply (gd_clean F _ Hd) in Hnode as [Hno _]. apply Hno.
          by rewrite components_payload in Hown.
        - intros i ->. by eapply (gd_files F _ Hd). }
      eapply good_widen, Hs. by apply good_narrow. }
    apply payload_lookup in Hl as ->; [|done].
    eapply link_moves; [exact Htree|apply target_ne|exact Hnode|done| |done| |congruence].
    + rewrite <- (app_nil_r P). by eapply (payload_ne F).
    + by rewrite Hn3, Hn.
Qed.

Lemma finalize_folder name s r s' :
  valid_name name → good F (rx_disk s) →
  disk_net (rename_exclusive_portable payload (join directory name)) s = (r, s') →
  rx_plan s' = rx_plan s ∧ outcome_of name r (rx_disk s) (rx_disk s').
Proof.
  intros Hname Hd Hrun. apply disk_net_run in Hrun as (o & Hrun & Hp & Hr). split; [done|].
  unfold rename_exclusive_portable in Hrun.
  assert (∀ d1 e, dk_nodes d1 = dk_nodes (rx_disk s) → dk_inodes d1 = dk_inodes (rx_disk s) →
    o = Err e → rx_disk s' = d1 → outcome_of name r (rx_disk s) (rx_disk s')) as Hfail.
  { intros d1 e Hn Hi -> ->. left. rewrite Hr. split; [by apply same_tree_disk|done]. }
  step_in Hrun as t d1 H1; same_disk H1; [by eapply Hfail|].
  assert (keeps (same_on disk_view) (match parent (join directory name) with
    | Some parent => require_directory parent | None => mret () end)) as Hk by keeps_tac.
  step_in Hrun as u d2 H2; destruct (disk_same_run _ _ _ _ Hk H2) as [Hn2 Hi2];
    [eapply Hfail; [..|done|done]; congruence|].
  assert (good F d2) as Hd2 by (apply (step_same F (rx_disk s)); [congruence..|done]).
  destruct o as [[]|e].
  - apply rename_Ok in Hrun as (p & q & Hl & Hlq & Hp0 & Hsome & Hfree & Hpq & Hrel & Hi').
    apply payload_lookup in Hl as ->; [|done]. apply target_lookup in Hlq as ->; [|done..].
    rewrite node_at_ne in Hfree by apply target_ne. right. split_and!; [done|congruence| |].
    { destruct Hsome as [n Hnode]. eapply free_not_above; [apply Hd2|apply target_ne|exact Hnode|done|].
      rewrite <- (app_nil_r P). by eapply (payload_ne F). }
    split; [|congruence]. intros k. rewrite (relocated_moved _ _ _ _ Hrel). congruence.
  - apply rename_Err in Hrun as [Hn3 Hi3]. eapply Hfail; [..|done|done]; congruence.
Qed.

Lemma finalize_cases name kind s r s' :
  valid_name name → good F (rx_disk s) →
  finalize_payload payload (join directory name) kind s = (r, s') →
  rx_plan s' = rx_plan s ∧ outcome_of name r (rx_disk s) (rx_disk s').
Proof.
  intros Hname Hd Hrun. unfold finalize_payload in Hrun.
  assert (∀ (s1 : Rx), dk_nodes (rx_disk s1) = dk_nodes (rx_disk s) →
    dk_inodes (rx_disk s1) = dk_inodes (rx_disk s) → rx_plan s1 = rx_plan s →
    (∀ e : Stop NetError, rx_plan s1 = rx_plan s ∧ outcome_of name (Err e) (rx_disk s) (rx_disk s1)) ∧
    good F (rx_disk s1) ∧
    (rx_plan s' = rx_plan s1 ∧ outcome_of name r (rx_disk s1) (rx_disk s') →
     rx_plan s' = rx_plan s ∧ outcome_of name r (rx_disk s) (rx_disk s'))) as Hsame.
  { intros s1 Hn Hi Hp. split_and!; [|by apply (step_same F (rx_disk s))|].
    - intros e. split; [done|]. left. split; [by apply same_tree_disk|done].
    - intros [Hp' Ho]. split; [congruence|]. pose proof (same_tree_disk _ _ P Hn Hi) as H1.
      destruct Ho as [[H2 ?]|(? & Hfree & ? & H2)]; [left|right].
      + split; [by eapply same_tree_trans|done].
      + split_and!; [done|by rewrite <- Hn|done|by eapply same_tree_trans]. }
  step_in Hrun as t s1 H1; apply disk_net_run in H1 as (o1 & H1 & Hp1 & Ho1); same_disk H1;
    [by apply Hsame|].
  step_in Hrun as p s2 H2; injection H2 as Hp2 <-; [by apply Hsame|].
  step_in Hrun as u s3 H3; apply disk_net_run in H3 as (o3 & H3 & Hp3 & Ho3); same_disk H3.
  { apply Hsame; congruence. }
  apply (Hsame s3); [congruence..|].
  assert (good F (rx_disk s3)) as Hd3 by (apply Hsame; congruence).
  case_bool_decide; [by eapply finalize_file|by eapply finalize_folder].
Qed.

(** The content reached its name from the state [d], perhaps after names that were taken. *)
Definition published (name : rstr) (d d' : Disk) : Prop :=
  portable_component name ∧
  ∃ dm, same_tree d P dm P ∧ changed F d dm ∧ dk_nodes dm !! (D ++ [name]) = None ∧
    ¬ D ++ [name] `prefix_of` P ∧ same_tree dm P d' (D ++ [name]).

Lemma finalize_published name kind s s' :
  portable_component name → good F (rx_disk s) →
  finalize_payload payload (join directory name) kind s = (Ok (), s') →
  rx_plan s' = rx_plan s ∧ published name (rx_disk s) (rx_disk s').
Proof.
  intros Hp Hd Hrun. pose proof (portable_valid _ Hp) as Hv.
  apply finalize_cases in Hrun as [Hplan [[_ Hno]|(_ & Hfree & Habove & Ht)]]; [done| |done..].
  split; [done|]. split; [done|]. exists (rx_disk s). split_and!; [by apply same_tree_refl| |done..].
  by apply (reflexivity (R := fs_step F)).
Qed.
Lemma published_later name d d1 d' :
  same_tree d P d1 P → changed F d d1 → published name d1 d' → published name d d'.
Proof.
  intros Ht Hc (Hp & dm & Ht2 & Hc2 & Hrest). split; [done|]. exists dm. split_and!; [| |apply Hrest..].
  - by eapply same_tree_trans.
  - by eapply changed_trans.
Qed.

Lemma candidate_inv root_name kind index path :
  collision_candidate directory root_name kind index = Ok path →
  ∃ name, portable_component name ∧ path = join directory name.
Proof.
  unfold collision_candidate. rewrite bind_Ok.
  intros (name & Hn%map_err_Ok%collision_name_portable & [= <-]). eauto.
Qed.

Lemma publish_loop_cases root_name kind index tries s o s' :
  rgood F root s → publish_loop payload directory root_name kind index tries s = (Ok o, s') →
  rgood F root s' ∧ changed F (rx_disk s) (rx_disk s') ∧ rx_plan s' = rx_plan s ∧
  match o with
  | None => same_tree (rx_disk s) P (rx_disk s') P
  | Some path => ∃ name, path = join directory name ∧ published name (rx_disk s) (rx_disk s')
  end.
Proof.
  intros Hs Hrun.
  pose proof (keeps_publish_loop F root Hnames Hroot Hway Hunder directory root_name kind index tries Hpub s Hs)
    as [Hs' Hc]. rewrite Hrun in Hs', Hc. simpl in Hs', Hc. split; [done|]. split; [done|].
  clear Hs' Hc. revert index s Hs Hrun.
  induction tries as [|tries IH]; intros index s Hs Hrun; cbn [publish_loop] in Hrun.
  { injection Hrun as <- <-. split; [done|]. apply same_tree_refl. }
  ok_in Hrun as path s1 H1. apply lift_stop_Ok in H1 as [Hpath%candidate_inv ->].
  destruct Hpath as (name & Hname & ->). pose proof (portable_valid _ Hname) as Hv.
  ok_in Hrun as outcome s2 H2. unfold try_stop in H2.
  pose proof (keeps_finalize F root Hnames Hroot Hway Hunder _ kind (Hpub name Hname) s Hs) as [Hs2 Hc2].
  destruct (finalize_payload _ _ _ s) as [r s2'] eqn:Hfin. simpl in Hs2, Hc2.
  destruct r as [[]|[error| |]]; simplify_eq/=.
  - apply finalize_published in Hfin as [Hp Hd]; [|done|apply Hs]. injection Hrun as <- <-. eauto.
  - apply finalize_cases in Hfin as [Hp [[Ht _]|[[=] _]]]; [|done|apply Hs].
    destruct (is_exists error); [|discriminate Hrun].
    apply IH in Hrun as [Hp' Ho]; [|done]. split; [congruence|].
    destruct o as [path|]; [|by eapply same_tree_trans].
    destruct Ho as (name' & -> & Hd). exists name'. split; [done|]. by eapply published_later.
Qed.

Lemma without_overwrite_cases fresh_id root_name kind s path s' :
  rgood F root s →
  finalize_payload_without_overwrite fresh_id payload directory root_name kind s = (Ok path, s') →
  rgood F root s' ∧ changed F (rx_disk s) (rx_disk s') ∧ rx_plan s' = rx_plan s ∧
  ∃ name, path = join directory name ∧ published name (rx_disk s) (rx_disk s').
Proof.
  intros Hs Hrun.
  pose proof (keeps_without_overwrite F root Hnames Hroot Hway Hunder fresh_id directory root_name
    kind Hpub s Hs) as [Hs' Hc]. rewrite Hrun in Hs', Hc. simpl in Hs', Hc.
  split; [done|]. split; [done|]. clear Hs' Hc. unfold finalize_payload_without_overwrite in Hrun.
  ok_in Hrun as u s1 H1. apply (still_run _ _ _ _ (still_disk_net _ (keeps_require directory))) in H1 as Hs1.
  pose proof (still_changed F _ _ Hs1 (rg_disk _ _ _ Hs)) as Hc1. pose proof (still_tree _ _ P Hs1) as Ht1.
  apply still_view in Hs1 as Hv1. destruct Hv1 as (_ & _ & Hp1 & _). apply (still_rgood F root) in Hs1; [|done].
  ok_in Hrun as found s2 H2. apply publish_loop_cases in H2 as (Hs2 & Hc2 & Hp2 & Hfound); [|done].
  rewrite Hp1 in Hp2. destruct found as [path'|].
  { injection Hrun as -> ->. split; [done|]. destruct Hfound as (name & -> & Hd). exists name.
    split; [done|]. by eapply published_later. }
  ok_in Hrun as name s3 H3. apply lift_stop_Ok in H3 as [Hname%map_err_Ok ->].
  apply component_with_suffix_portable in Hname.
  ok_in Hrun as u4 s4 H4. injection Hrun as <- <-. destruct u4.
  apply finalize_published in H4 as [Hp4 Hd]; [|done|apply Hs2]. split; [congruence|].
  exists name. split; [done|]. eapply published_later; [by eapply same_tree_trans| |exact Hd].
  by eapply changed_trans.
Qed.

Section saving.
Context {iter : RedbIter} {uuid_text : UuidText}.
Context `{!Json OfferSourceRecord} `{!Json OfferCardRecord}.
Context `{!Json ActivationJournalEntry} `{!Json ClipboardCacheRecord}.
Context (fresh_id : rstr) (activation : FetchActivation) (Hmode : fa_mode activation = Mode_Save).
Context (descriptor : OfferDescriptor) (Htext : descriptor_is_text descriptor = false).

Lemma publish_cases s o s' :
  rgood F root s →
  publish fresh_id activation descriptor root (Some directory) s = (Ok o, s') →
  rgood F root s' ∧ changed F (rx_disk s) (rx_disk s') ∧ rx_plan s' = rx_plan s ∧
  ∃ name, o = Some (join directory name) ∧ published name (rx_disk s) (rx_disk s').
Proof.
  intros Hs Hrun. unfold publish in Hrun. rewrite Htext in Hrun.
  ok_in Hrun as u1 s1 H1. apply (still_run _ _ _ _ (still_store _ (fs_update_state _ _))) in H1.
  ok_in Hrun as path s2 H2. apply lift_stop_Ok in H2 as [[= <-]%ok_or_Ok ->].
  ok_in Hrun as u3 s3 H3. apply (still_run _ _ _ _ (still_disk_net _ (keeps_require directory))) in H3.
  ok_in Hrun as plan s4 H4. injection H4 as <- <-. rewrite bool_decide_false in Hrun by (by rewrite Hmode).
  ok_in Hrun as final s5 H5. assert (still s s3) as H03 by (by etrans).
  pose proof (still_changed F _ _ H03 (rg_disk _ _ _ Hs)) as Hc3. pose proof (still_tree _ _ P H03) as Ht3.
  apply without_overwrite_cases in H5 as (Hs5 & Hc5 & Hp5 & name & -> & Hpub5); [|by eapply still_rgood].
  ok_in Hrun as u6 s6 H6. injection Hrun as <- <-.
  assert (still s5 s6) as H56.
  { destruct (parent _) as [p|]; [|by injection H6 as _ <-].
    by apply (still_run _ _ _ _ (still_disk_net _ (keeps_sync p))) in H6. }
  pose proof (still_changed F _ _ H56 (rg_disk _ _ _ Hs5)) as Hc6.
  split_and!; [by eapply still_rgood| | |].
  - eapply changed_trans; [|exact Hc6]. by eapply changed_trans.
  - apply still_view in H03 as (_ & _ & ? & _), H56 as (_ & _ & ? & _). congruence.
  - exists name. split; [done|]. eapply published_later; [exact Ht3|exact Hc3|].
    destruct Hpub5 as (Hp & dm & ? & ? & ? & ? & Hlast). split; [done|]. exists dm. split_and!; [done..|].
    eapply same_tree_trans; [exact Hlast|]. by apply still_tree.
Qed.
End saving.
End publication.

(** ** After the publication *)

(** No content changes: what is removed is names. *)
Definition inodes_kept : relation Rx := same_on (λ s, dk_inodes (rx_disk s)).

Section contents.
Context {order : ReadDirOrder}.
#[local] Instance inodes_preorder : PreOrder inodes_kept := same_on_preorder _.
#[local] Instance off_disk_inodes : subrelation off_disk inodes_kept.
Proof. intros s s' [= Hd _ _]. unfold inodes_kept, same_on. by rewrite Hd. Qed.
Notation kept := (same_on dk_inodes).

Lemma kept_same {E T} (m : St Disk E T) : keeps (same_on disk_view) m → keeps kept m.
Proof. intros Hm d. by injection (Hm d). Qed.
Lemma kept_nodes {E} f : keeps kept (st_modify (λ d, set_nodes (f d) d) : St Disk E ()).
Proof. by intros d. Qed.
#[local] Hint Resolve kept_same kept_nodes : keeps.
Lemma kept_remove_file path : keeps kept (remove_file path).
Proof. unfold remove_file. keeps_tac. Qed.
Lemma kept_remove_dir path : keeps kept (remove_dir path).
Proof. unfold remove_dir. keeps_tac. Qed.
#[local] Hint Resolve kept_remove_file kept_remove_dir : keeps.
Lemma kept_remove_directory fuel path : keeps kept (remove_owned_directory fuel path).
Proof.
  revert path. induction fuel as [|fuel IH]; intros path; cbn [remove_owned_directory]; [keeps_tac|].
  unfold remove_entry. keeps_tac.
Qed.
#[local] Hint Resolve kept_remove_directory : keeps.
Lemma kept_remove_tree path : keeps kept (remove_owned_tree path).
Proof. unfold remove_owned_tree. keeps_tac. Qed.
#[local] Hint Resolve kept_remove_tree : keeps.
Lemma kept_cleanup path : keeps kept (cleanup_staging path).
Proof. unfold cleanup_staging. keeps_tac. Qed.

Lemma inodes_disk {T} (m : FsM T) : keeps kept m → keeps inodes_kept (on_disk m).
Proof.
  intros Hm s. specialize (Hm (rx_disk s)). unfold on_disk. by destruct (m (rx_disk s)) as [r d].
Qed.
Lemma inodes_sub {E T} (m : St Rx E T) : keeps off_disk m → keeps inodes_kept m.
Proof. apply keeps_sub, _. Qed.

Section way_out.
Context {hash : HashSetOrder} {ren : Renamore} {fs2 : Fs2} {iter : RedbIter} {uuid_text : UuidText}.
Context {dbg : DebugText} {lower : Lowercase} {sha : Sha256}.
Context `{!Json OfferSourceRecord} `{!Json OfferCardRecord}.
Context `{!Json ActivationJournalEntry} `{!Json ClipboardCacheRecord}.
Context `{!Json V2Message} `{!Json (list ManifestEntry)}.

Lemma inodes_cleanup path : keeps inodes_kept (cleanup_activation path).
Proof.
  unfold cleanup_activation, close_staged_handles. apply keeps_bind; [apply _|by intros s|intros _].
  apply inodes_disk, kept_cleanup.
Qed.
Lemma inodes_end_of_scope s : inodes_kept s (end_of_scope s).
Proof.
  unfold end_of_scope. trans (drop_permit s).
  { unfold drop_permit, inodes_kept, same_on. by destruct (rx_permit s). }
  generalize (drop_permit s) as s0. clear s. intros s. unfold guard_drop.
  destruct (_ || _); [reflexivity|]. destruct (gu_armed (rx_guard s)) as [[path id]|]; [|reflexivity].
  pose proof (inodes_disk _ (kept_remove_tree path) s) as H1.
  destruct (on_disk _ s) as [r1 s1]. simpl in H1.
  pose proof (inodes_sub _ (keeps_store_off_disk _ (fs_remove_journal id)) s1) as H2.
  destruct (on_store _ s1) as [r2 s2]. simpl in H2. etrans; [exact H1|]. etrans; [exact H2|].
  by destruct (_ || _).
Qed.
Lemma inodes_settle state_root activation : keeps inodes_kept (settle state_root activation).
Proof.
  eapply (keeps_settle_by _ _ _ eq_refl inodes_kept), inodes_cleanup.
Qed.
End way_out.
End contents.

(** ** The saved tree survives the way out *)

Section survival.
Context {order : ReadDirOrder} {order_laws : ReadDirOrderLaws}.
Context {hash : HashSetOrder} {ren : Renamore} {ren_laws : RenamoreLaws} {fs2 : Fs2}.
Context {iter : RedbIter} {uuid_text : UuidText} {uuid_plain : UuidTextPlain}.
Context {dbg : DebugText} {lower : Lowercase} {sha : Sha256}.
Context `{!Json OfferSourceRecord} `{!Json OfferCardRecord}.
Context `{!Json ActivationJournalEntry} `{!Json ClipboardCacheRecord}.
Context `{!Json V2Message} `{!Json (list ManifestEntry)}.
Context (state_root : PathBuf) (activation : FetchActivation).
Context (Hroot : Forall valid_name (components state_root)).
Notation home := (staging_home state_root).
Notation root := (staging_root_of state_root activation).
Notation cplace := (staging_place state_root activation).
Context (fixed : gset nat) (solid : list place) (Hsolid : ∀ q, q ∈ solid → ¬ home `prefix_of` q).
Notation F := (save_footprint state_root activation fixed solid Hsolid).

(** After the publication nothing is created but on the way to the staging area or in it. *)
Definition closing : Footprint := narrow F (λ q, q `prefix_of` cplace ∨ cplace `prefix_of` q).

Lemma closing_rgood s : rgood F root s → rgood closing root s.
Proof. intros [Hd Hh He Ha]. split; [by apply good_narrow|done..]. Qed.
Lemma closing_good s : rgood closing root s → rgood F root s.
Proof. intros [Hd Hh He Ha]. split; [by eapply good_widen|done..]. Qed.

(** A place apart from the staging area. *)
Lemma kept_tree p d d' :
  changed closing d d' → dk_inodes d' = dk_inodes d →
  ¬ p `prefix_of` cplace → ¬ cplace `prefix_of` p → same_tree d p d' p.
Proof.
  intros [Hk _ Hn] Hi Hp Hc. split; [|done]. intros k.
  assert (¬ p ++ k `prefix_of` cplace) as Hno.
  { intros Hpre. apply Hp. etrans; [|exact Hpre]. by eexists. }
  assert (¬ cplace `prefix_of` p ++ k) as Hnc.
  { intros Hpre. destruct (prefix_weak_total cplace p (p ++ k)) as [?|?]; [done|by eexists|done|done]. }
  destruct (dk_nodes d !! (p ++ k)) as [n|] eqn:Hq.
  - destruct (Hk _ _ Hq) as [?|[Hown|[Heq _]]]; [done|..].
    + by apply owned_only in Hown.
    + destruct Hno. rewrite Heq. by eexists.
  - apply eq_None_not_Some. intros Hs. destruct (Hn _ Hs) as [[n Hq']|[?|?]]; [congruence|done..].
Qed.

Lemma settle_keeps s r s' p :
  rgood F root s → settle state_root activation s = (r, s') →
  ¬ p `prefix_of` cplace → ¬ cplace `prefix_of` p →
  same_tree (rx_disk s) p (rx_disk (end_of_scope s')) p.
Proof.
  intros Hs%closing_rgood Hrun Hp Hc.
  destruct (save_root state_root activation Hroot fixed solid Hsolid) as (R1 & R2 & _ & _ & R5).
  assert (∀ q, q `prefix_of` components root → fp_allowed closing q) as R3.
  { intros q. rewrite components_staging_root. by left. }
  assert (∀ q, fp_allowed closing (components root ++ q)) as R4.
  { intros q. rewrite components_staging_root. right. by eexists. }
  pose proof (keeps_settle closing root R1 R2 R3 R4 R5 state_root activation eq_refl s Hs) as [Hs' Hc1].
  pose proof (inodes_settle state_root activation s) as Hi1. rewrite Hrun in Hs', Hc1, Hi1.
  destruct (rstep_end_of_scope closing root R1 R2 R3 R4 s' Hs') as [_ Hc2].
  pose proof (inodes_end_of_scope s') as Hi2. unfold inodes_kept, same_on in *. simpl in *.
  apply kept_tree; [by eapply changed_trans|congruence|done..].
Qed.
End survival.

(** ** From the verified content to the end *)

Section conclusion.
Context {order : ReadDirOrder} {order_laws : ReadDirOrderLaws}.
Context {hash : HashSetOrder} {ren : Renamore} {ren_laws : RenamoreLaws} {fs2 : Fs2}.
Context {iter : RedbIter} {uuid_text : UuidText} {uuid_plain : UuidTextPlain}.
Context {dbg : DebugText} {lower : Lowercase} {sha : Sha256}.
Context `{!Json OfferSourceRecord} `{!Json OfferCardRecord}.
Context `{!Json ActivationJournalEntry} `{!Json ClipboardCacheRecord}.
Context `{!Json V2Message} `{!Json (list ManifestEntry)}.
Context (state_root : PathBuf) (fresh_id : rstr) (activation : FetchActivation).
Context (Hroot : Forall valid_name (components state_root)).
Context (Hmode : fa_mode activation = Mode_Save).
Notation home := (staging_home state_root).
Notation root := (staging_root_of state_root activation).
Context (fixed : gset nat) (directory : PathBuf).
Context (Hasked : asked activation directory) (Hout : ¬ home `prefix_of` components directory).
Context (Hsolid : ∀ q, q ∈ [components directory] → ¬ home `prefix_of` q).
Notation F := (save_footprint state_root activation fixed [components directory] Hsolid).
Context (descriptor : OfferDescriptor) (Htext : descriptor_is_text descriptor = false).

Lemma publishable_save name : portable_component name → publishable F (join directory name).
Proof.
  intros Hname. eapply (save_publishes state_root activation Hmode fixed [components directory] Hsolid
    (Some directory)); [|done|done|done].
  intros path [= <-]. split; [done|by apply list_elem_of_singleton].
Qed.
Lemma report_not_Ok error s x s' : report_publication activation error s ≠ (Ok x, s').
Proof.
  unfold report_publication. intros Hrun. ok_in Hrun as plan s1 H1. ok_in Hrun as text s2 H2.
  ok_in Hrun as u s3 H3. destruct (is_local_io _); [done|].
  unfold finish_terminal in Hrun. by ok_in Hrun as u4 s4 H4.
Qed.
Lemma cancel_still files count s s' :
  cancel_between state_root activation files count s = (Ok (), s') → still s s'.
Proof.
  unfold cancel_between. intros Hrun. ok_in Hrun as b s1 H1.
  assert (still s s1) as Hs by (by apply (still_run _ _ _ _ (keeps_cancelled still)) in H1).
  destruct b; [|by injection Hrun as <-]. 
  ok_in Hrun as u2 s2 H2. ok_in Hrun as u3 s3 H3. by ok_in Hrun as u4 s4 H4.
Qed.
Lemma applied_save path s s' :
  apply_published state_root activation descriptor (Some path) s = (Ok (), s') → s' = s.
Proof.
  unfold apply_published. intros Hrun. ok_in Hrun as plan s1 H1. injection H1 as <- <-.
  unfold apply_side_effect in Hrun. rewrite Htext, Hmode in Hrun. by injection Hrun.
Qed.

Lemma root_not_destination : ¬ components root `prefix_of` components directory.
Proof.
  rewrite components_staging_root. intros Hpre. apply Hout. etrans; [|exact Hpre]. by eexists.
Qed.

Lemma publish_verified_cases s o s' :
  rgood F root s →
  publish_verified state_root fresh_id activation descriptor (Some directory) s = (Ok o, s') →
  rgood F root s' ∧ ∃ name, o = Some (join directory name) ∧
    published F root directory name (rx_disk s) (rx_disk s').
Proof.
  intros Hs Hrun. unfold publish_verified in Hrun. ok_in Hrun as u1 s1 H1.
  apply (still_run _ _ _ _ (still_store _ (fs_update_state _ _))) in H1.
  ok_in Hrun as outcome s2 H2. destruct (save_root state_root activation Hroot fixed _ Hsolid)
    as (R1 & R2 & R3 & R4 & R5).
  destruct outcome as [o'|error];
    [|ok_in Hrun as u3 s3 H3; by apply report_not_Ok in Hrun].
  injection Hrun as -> ->. apply try_stop_Ok in H2.
  eapply (publish_cases F root R1 R2 R3 R4 directory) in H2 as (Hs2 & _ & _ & name & -> & Hpub);
    [|by apply list_elem_of_singleton|exact root_not_destination|exact publishable_save|done|done
     |by eapply still_rgood].
  split; [done|]. exists name. split; [done|].
  eapply published_later; [by apply still_tree|eapply still_changed; [done|apply Hs]|done].
Qed.

(** What is published survives: it lies apart from the staging area. *)
Lemma published_apart name d d' :
  published F root directory name d d' →
  ¬ components directory ++ [name] `prefix_of` components root ∧
  ¬ components root `prefix_of` components directory ++ [name].
Proof.
  intros (_ & dm & _ & _ & _ & Habove & _).
  assert (¬ components directory ++ [name] `prefix_of` components root) as Hno.
  { intros Hpre. apply Habove. etrans; [exact Hpre|]. by eexists. }
  split; [done|]. intros Hpre. destruct Hpre as [k Hk]. destruct k as [|x k _] using rev_ind.
  - apply Hno. rewrite Hk, app_nil_r. done.
  - rewrite (assoc_L (++)) in Hk. apply app_inj_tail in Hk as [Hk _].
    apply root_not_destination. rewrite Hk. by eexists.
Qed.

Lemma conclude_saves s s' :
  rgood F root s →
  conclude state_root fresh_id activation descriptor (Some directory) s = (Ok (), s') →
  ∃ name, published F root directory name (rx_disk s) (rx_disk (end_of_scope s')).
Proof.
  intros Hs Hrun. unfold conclude in Hrun. ok_in Hrun as plan s0 H0. injection H0 as <- <-.
  ok_in Hrun as u1 s1 H1. destruct u1. apply cancel_still in H1.
  ok_in Hrun as o s2 H2. apply publish_verified_cases in H2 as (Hs2 & name & -> & Hpub);
    [|by eapply still_rgood].
  ok_in Hrun as u3 s3 H3. apply (still_run _ _ _ _ (still_sub _ keeps_guard_keep)) in H3.
  ok_in Hrun as u4 s4 H4. destruct u4. apply applied_save in H4 as ->.
  destruct (published_apart _ _ _ Hpub) as [Ha Hb]. rewrite components_staging_root in Ha, Hb.
  apply (settle_keeps state_root activation Hroot fixed _ Hsolid _ _ _ (components directory ++ [name]))
    in Hrun; [|by eapply still_rgood|done..].
  exists name. eapply published_later; [by apply still_tree|eapply still_changed; [done|apply Hs]|].
  destruct Hpub as (Hp & dm & ? & ? & ? & ? & Hlast). split; [done|]. exists dm. split_and!; [done..|].
  eapply same_tree_trans; [exact Hlast|]. eapply same_tree_trans; [by apply still_tree|done].
Qed.
End conclusion.
