(* ===== verification/SavedTree.v ===== *)
(** * A save that succeeds

    The whole of [Receiver.receive_one] in save mode: when it returns without an error, the
    directory asked for holds, under a portable name that was free, exactly the tree of the
    accepted manifest with the bytes of the connection. *)

From S2P Require Import Prelude RustStr StdIo Offer Records Names Protocol OfferStore Ledger Activation Filesystem Announce Connection Manifest Transfer Receiver ReceiverFrame ReceiverContent ReceiverSafety ReceiverTree ReceiverSave.
From Stdlib Require Import Strings.Byte.

(** What decodes has the widths of its types, as serde's integers do. *)
Definition message_typed (message : V2Message) : Prop :=
  match message with
  | Msg_FetchHeader header => is_u32 (fh_manifest_entries header)
  | Msg_ManifestChunk chunk => Forall entry_typed (mc_entries chunk)
  | _ => True
  end.
Class V2Typed `{Json V2Message} := v2_typed : ∀ input (message : V2Message),
  json_from_slice input = Ok message → message_typed message.

(** ** What was taken from the connection *)

(** Nothing was taken. *)
Definition idle : relation Rx := took (eq []).
#[export] Instance idle_preorder : PreOrder idle.
Proof.
  split; [by intros s; apply took_nothing|]. intros s1 s2 s3 H12 H23.
  eapply took_weaken; [|by eapply took_then]. by intros b (? & ? & -> & <- & <-).
Qed.
Lemma took_signal P s s' : took P s s' → uninterrupted (rx_peer s) → uninterrupted (rx_peer s').
Proof. intros Ht Hs. by destruct (Ht Hs). Qed.
Lemma idle_then P s1 s2 s3 : idle s1 s2 → took P s2 s3 → took P s1 s3.
Proof.
  intros H12 H23. eapply took_weaken; [|by eapply took_then]. by intros b (? & ? & -> & <- & ?).
Qed.
Lemma then_idle P s1 s2 s3 : took P s1 s2 → idle s2 s3 → took P s1 s3.
Proof.
  intros H12 H23. eapply took_weaken; [|by eapply took_then].
  intros b (? & ? & -> & ? & <-). by rewrite app_nil_r.
Qed.

(** The frames of a manifest. *)
Fixpoint carries_chunks {message_json : Json V2Message} (chunks : list ManifestChunk) : bytes → Prop :=
  match chunks with
  | [] => eq []
  | chunk :: chunks => followed_by (frame_of (Msg_ManifestChunk chunk)) (carries_chunks chunks)
  end.
Definition carries_manifest {message_json : Json V2Message} (plan : ReceivePlan) (stream : bytes) : Prop :=
  ∃ chunks, rp_entries plan = concat (map mc_entries chunks) ∧
    match rp_manifest_end plan with
    | Some end_ => followed_by (carries_chunks chunks) (frame_of (Msg_ManifestEnd end_)) stream
    | None => chunks = [] ∧ stream = []
    end.

(** Steps that leave the connection and the plan alone. *)
Definition aside : relation Rx := same_on (λ s, (rx_peer s, rx_plan s)).
#[export] Instance aside_preorder : PreOrder aside := same_on_preorder _.
Lemma aside_idle s s' : aside s s' → idle s s'.
Proof. intros [= Hp _]. by apply (took_same _ s s); [apply took_nothing|]. Qed.
Lemma aside_plan s s' : aside s s' → rx_plan s' = rx_plan s.
Proof. by intros [= _ Hp]. Qed.
Lemma aside_run {E T} (m : St Rx E T) s r s' : keeps aside m → m s = (r, s') → aside s s'.
Proof. intros Hm Hrun. specialize (Hm s). by rewrite Hrun in Hm. Qed.

Lemma aside_disk {T} (m : FsM T) : keeps aside (on_disk m).
Proof. intros s. unfold on_disk. by destruct (m (rx_disk s)). Qed.
Lemma aside_disk_net {T} (m : FsM T) : keeps aside (disk_net m).
Proof. apply keeps_map_stop, aside_disk. Qed.
Lemma aside_store {T} (m : St (World Disk) StoreError T) : keeps aside (on_store m).
Proof. intros s. unfold on_store. by destruct (m (rx_world s)). Qed.
Lemma aside_store_owned {T} (m : St (World Disk) StoreError T) : keeps aside (store_owned m).
Proof. apply keeps_map_stop, aside_store. Qed.
Lemma aside_reserve destination n : keeps aside (reserve_space destination n).
Proof. intros s. unfold reserve_space. by destruct (reserve _ _ _) as [[|] ?]. Qed.

Section reading.
Context {ren : Renamore} {dbg : DebugText} {sha : Sha256} {message_json : Json V2Message}.
Context {message_types : V2Typed}.

Lemma frame_typed message frame : frame_of message frame → message_typed message.
Proof.
  unfold frame_of, read_v2_frame. intros Hread.
  apply st_bind_Ok in Hread as (payload & rest & _ & [Hdecode _]%st_lift_Ok).
  unfold decode_v2_payload in Hdecode. apply unit_seq_Ok in Hdecode as [_ Hdecode%map_err_Ok].
  by apply v2_typed in Hdecode.
Qed.
Lemma read_message_next files count message s s' :
  uninterrupted (rx_peer s) →
  on_peer (read_v2_cancellable files count) s = (Ok message, s') →
  took (frame_of message) s s' ∧ message_typed message ∧ rx_plan s' = rx_plan s.
Proof.
  intros Hsig Hrun. apply read_message_took in Hrun as [Hp Ht].
  destruct (Ht Hsig) as (_ & frame & Hf & _). split_and!; [done|by eapply frame_typed|].
  by apply peer_only_same.
Qed.

Lemma is_cancelled_next {E} b s s' :
  (is_cancelled : RxM E bool) s = (Ok b, s') → idle s s' ∧ rx_plan s' = rx_plan s.
Proof.
  intros [Hp Ht]%is_cancelled_took. split; [done|by apply peer_only_same].
Qed.

Lemma manifest_message_next message s s' :
  uninterrupted (rx_peer s) → manifest_message s = (Ok message, s') →
  took (frame_of message) s s' ∧ message_typed message ∧ rx_plan s' = rx_plan s.
Proof.
  intros Hsig Hrun. unfold manifest_message in Hrun. ok_in Hrun as m s1 H1.
  apply read_message_next in H1; [|done]. ok_in Hrun as u s2 H2.
  apply lift_stop_Ok in H2 as [_ ->]. by injection Hrun as -> ->.
Qed.

Lemma read_chunks_next tries header index s s' :
  uninterrupted (rx_peer s) → read_chunks tries header index s = (Ok (), s') →
  ∃ chunks, took (carries_chunks chunks) s s' ∧
    Forall (λ chunk, Forall entry_typed (mc_entries chunk)) chunks ∧
    rp_entries (rx_plan s') = rp_entries (rx_plan s) ++ concat (map mc_entries chunks) ∧
    rp_content_kind (rx_plan s') = rp_content_kind (rx_plan s) ∧
    rp_manifest_end (rx_plan s') = rp_manifest_end (rx_plan s).
Proof.
  revert index s. induction tries as [|tries IH]; intros index s Hsig Hrun; cbn [read_chunks] in Hrun.
  { case_match; [|done]. injection Hrun as <-. exists []. split_and!; [apply took_nothing|done| |done..].
    by rewrite app_nil_r. }
  case_match.
  { injection Hrun as <-. exists []. split_and!; [apply took_nothing|done| |done..].
    by rewrite app_nil_r. }
  ok_in Hrun as message s1 H1.
  apply manifest_message_next in H1 as (Ho1 & Hty & Hp1); [|done].
  destruct message as [| | | | |chunk| | | | | | | |]; try discriminate Hrun.
  ok_in Hrun as u2 s2 H2. apply lift_stop_Ok in H2 as [_ ->].
  ok_in Hrun as n s2 H2. apply lift_stop_Ok in H2 as [_ ->].
  ok_in Hrun as next s2 H2. apply lift_stop_Ok in H2 as [_ ->].
  ok_in Hrun as u3 s2 H2. apply lift_stop_Ok in H2 as [_ ->].
  ok_in Hrun as encoded s2 H2. apply lift_stop_Ok in H2 as [_ ->].
  ok_in Hrun as plan s2 H2. injection H2 as <- <-.
  ok_in Hrun as total s2 H2. apply lift_stop_Ok in H2 as [_ ->].
  ok_in Hrun as u4 s2 H2. apply st_modify_Ok in H2 as ->.
  apply IH in Hrun as (chunks & Ht2 & Hall & He & Hk & Hend); [|by eapply (took_signal _ s)].
  cbn [set_plan rx_plan plan_with_manifest rp_entries rp_content_kind rp_manifest_end] in *.
  rewrite Hp1 in *. exists (chunk :: chunks). split_and!; [by eapply took_then|by constructor| |done..].
  rewrite He. cbn [map concat]. by rewrite (assoc_L (++)).
Qed.

Lemma read_manifest_next header s s' :
  uninterrupted (rx_peer s) → read_manifest header s = (Ok (), s') →
  rp_entries (rx_plan s) = [] → rp_manifest_end (rx_plan s) = None →
  took (carries_manifest (rx_plan s')) s s' ∧ Forall entry_typed (rp_entries (rx_plan s')) ∧
  rp_content_kind (rx_plan s') = rp_content_kind (rx_plan s).
Proof.
  unfold read_manifest. intros Hsig Hrun He Hend. case_match.
  { injection Hrun as <-. rewrite He. split_and!; [|done..]. eapply took_weaken; [|apply took_nothing].
    intros b <-. exists []. by rewrite He, Hend. }
  ok_in Hrun as u s1 H1. destruct u.
  apply read_chunks_next in H1 as (chunks & Ht1 & Hall & He1 & Hk1 & _); [|done].
  ok_in Hrun as message s2 H2.
  apply manifest_message_next in H2 as (Ht2 & _ & Hp2); [|by eapply (took_signal _ s)].
  destruct message; try discriminate Hrun.
  ok_in Hrun as u3 s3 H3. apply lift_stop_Ok in H3 as [_ ->].
  ok_in Hrun as u4 s3 H3. apply st_modify_Ok in H3 as ->.
  ok_in Hrun as plan s4 H4. injection H4 as <- <-. apply lift_stop_Ok in Hrun as [_ ->].
  unfold carries_manifest. cbn [set_plan rx_plan plan_with_manifest rp_entries rp_content_kind rp_manifest_end].
  rewrite Hp2, He1, He, Hk1. cbn [app]. split_and!; [|by apply Forall_concat, Forall_fmap|done].
  apply (took_same _ _ s2); [|done]. eapply took_weaken; [|by eapply took_then].
  intros b Hb. by exists chunks.
Qed.
Lemma header_next activation card header s s' :
  uninterrupted (rx_peer s) → read_header activation card s = (Ok header, s') →
  took (frame_of (Msg_FetchHeader header)) s s' ∧ is_u32 (fh_manifest_entries header).
Proof.
  unfold read_header. intros Hsig Hrun. ok_in Hrun as message s1 H1. apply st_map_err_Ok in H1.
  apply read_message_next in H1 as (Ht1 & Hty & _); [|done].
  ok_in Hrun as u s2 H2. apply lift_stop_Ok in H2 as [_ ->].
  destruct message; try discriminate Hrun.
  - ok_in Hrun as u2 s2 H2. ok_in Hrun as u3 s3 H3. discriminate Hrun.
  - by injection Hrun as <- <-.
Qed.
End reading.

(** ** From the first message to the accepted manifest *)

Section head.
Context {order : ReadDirOrder} {hash : HashSetOrder} {ren : Renamore} {fs2 : Fs2}.
Context {iter : RedbIter} {uuid_text : UuidText} {dbg : DebugText} {lower : Lowercase} {sha : Sha256}.
Context `{!Json OfferSourceRecord} `{!Json OfferCardRecord}.
Context `{!Json ActivationJournalEntry} `{!Json ClipboardCacheRecord}.
Context `{!Json V2Message} `{!Json (list ManifestEntry)} {message_types : V2Typed}.
Context (state_root : PathBuf) (fresh_activation : ActivationId) (fresh_offer : OfferId)
  (fresh_id : rstr) (activation : FetchActivation) (source : DeviceId).

(** The card of the activation in the database. *)
Definition offered (card : OfferCardRecord) (s : Rx) : Prop :=
  (get_offer_card (fa_source_device activation) (fa_offer_id activation) (rx_world s)).1 = Ok (Some card).

Lemma check_next card s s' :
  check_activation fresh_activation fresh_offer source activation s = (Ok card, s') →
  idle s s' ∧ source = fa_source_device activation ∧ offered card s.
Proof.
  unfold check_activation, offered. intros Hrun. ok_in Hrun as s0 s0' H0. injection H0 as -> ->.
  ok_in Hrun as u s1 H1. apply lift_stop_Ok in H1 as [_ ->].
  ok_in Hrun as b s1 H1. pose proof (is_cancelled_took _ _ _ H1) as [Hpo _].
  apply is_cancelled_next in H1 as [Ho1 _].
  ok_in Hrun as u2 s2 H2. assert (s2 = s1) as ->.
  { destruct b; [|by injection H2]. by ok_in H2 as u3 s3 H3. }
  ok_in Hrun as u3 s3 H3. apply lift_stop_Ok in H3 as [Hid ->].
  rewrite refuse_if_Ok, !orb_false_iff, negb_false_iff, bool_decide_eq_true in Hid.
  ok_in Hrun as o s3 H3. pose proof (aside_run _ _ _ _ (keeps_map_stop _ _ _ (aside_store _)) H3) as Ha.
  apply lift_stop_Ok in Hrun as [->%ok_or_Ok ->].
  split; [etrans; [exact Ho1|]; by apply aside_idle|]. split; [apply Hid|].
  apply st_map_err_Ok in H3. unfold on_store in H3. rewrite Hpo in H3.
  change (rx_world (set_peer _ _)) with (rx_world s0') in H3.
  destruct (get_offer_card _ _ _) as [r w]. simpl. injection H3 as Hr _. by destruct r; simplify_eq/=.
Qed.
Lemma receive_header_next card header s s' :
  uninterrupted (rx_peer s) → receive_header activation card s = (Ok header, s') →
  took (frame_of (Msg_FetchHeader header)) s s' ∧ is_u32 (fh_manifest_entries header).
Proof.
  unfold receive_header. intros Hsig Hrun. ok_in Hrun as o s1 H1. destruct o as [h|e].
  - injection Hrun as -> ->. apply try_stop_Ok in H1. by eapply header_next.
  - ok_in Hrun as text s2 H2. by ok_in Hrun as u s3 H3.
Qed.

(** What is known of an accepted manifest. *)
Record accepted (card : OfferCardRecord) (header : FetchHeader) (plan : ReceivePlan) : Prop := {
  ac_request : fh_request_id header = fa_request_id activation;
  ac_descriptor : fh_descriptor header = card_descriptor card;
  ac_kind : rp_content_kind plan = header_kind header;
  ac_entries : Forall entry_typed (rp_entries plan);
  ac_count : is_u32 (fh_manifest_entries header);
  ac_valid : validate_manifest header (card_descriptor card) plan = Ok ();
}.

Lemma receive_manifest_next card header s s' :
  uninterrupted (rx_peer s) → is_u32 (fh_manifest_entries header) →
  receive_manifest activation card header s = (Ok (), s') →
  took (carries_manifest (rx_plan s')) s s' ∧ accepted card header (rx_plan s').
Proof.
  intros Hsig Hu Hrun. pose proof Hrun as Hv. apply receive_manifest_Ok in Hv as (_ & _ & Hv).
  unfold receive_manifest in Hrun. ok_in Hrun as u1 s1 H1.
  assert (rx_peer s1 = rx_peer s ∧ fh_descriptor header = card_descriptor card ∧
    fh_request_id header = fa_request_id activation ∧
    rp_content_kind (rx_plan s1) = header_kind header ∧ rp_entries (rx_plan s1) = [] ∧
    rp_manifest_end (rx_plan s1) = None) as (Hp1 & Hd & Hid & Hk & He & Hend).
  { destruct (validate_header header card activation) as [plan|code] eqn:Hh;
      [|by apply refuse_not_Ok in H1].
    injection H1 as _ <-. split; [done|].
    unfold validate_header in Hh. rewrite !refuse_seq_Ok, orb_false_iff, negb_false_iff,
      bool_decide_eq_true in Hh.
    destruct Hh as ([Hid _] & Hd%negb_false_iff%bool_decide_eq_true & Hh).
    apply unit_seq_Ok in Hh as [_ [= <-]]. done. }
  ok_in Hrun as o s2 H2. ok_in Hrun as u3 s3 H3. ok_in Hrun as plan s4 H4. injection H4 as <- <-.
  destruct o as [[]|e].
  2: { destruct e; first [discriminate H3|by apply refuse_not_Ok in H3]. }
  injection H3 as _ <-. apply try_stop_Ok, read_manifest_next in H2 as (Ht2 & He2 & Hk2);
    [|by rewrite Hp1|done..].
  assert (s' = s2) as ->.
  { destruct (validate_manifest header _ _); [by injection Hrun|by apply refuse_not_Ok in Hrun]. }
  split; [by eapply took_from|]. by split; try congruence.
Qed.

Lemma prepare_destination_aside path s s' :
  prepare_destination activation path s = (Ok (), s') → aside s s'.
Proof.
  unfold prepare_destination. cbv zeta. intros Hrun. ok_in Hrun as o s1 H1. ok_in Hrun as u s2 H2.
  destruct o as [[]|e]; [|ok_in H2 as text s3 H3; by apply refuse_not_Ok in H2].
  injection H2 as _ <-. ok_in Hrun as o s2 H2.
  destruct o as [[]|e]; [|ok_in Hrun as text s3 H3; by apply refuse_not_Ok in Hrun].
  injection Hrun as <-.
  apply (aside_run _ _ _ _ (keeps_try_stop _ _ (aside_disk _))) in H1, H2. by etrans.
Qed.
Lemma admit_next descriptor destination s s' :
  admit_fetch state_root activation descriptor s = (Ok destination, s') → aside s s'.
Proof.
  unfold admit_fetch. intros Hrun. ok_in Hrun as path s1 H1. assert (s1 = s) as ->.
  { destruct (destination_for _ _ _); [by injection H1|by apply refuse_not_Ok in H1]. }
  ok_in Hrun as s0 s1 H2. injection H2 as -> ->. ok_in Hrun as uncertain s2 H2.
  assert (aside s1 s2) as Ha2.
  { destruct (ow_uncertain_clipboard _); [by injection H2 as _ <-|].
    by apply (aside_run _ _ _ _ (aside_store_owned _)) in H2. }
  ok_in Hrun as u3 s3 H3. assert (s3 = s2) as ->.
  { destruct (bool_decide _ && _); [by apply refuse_not_Ok in H3|by injection H3]. }
  ok_in Hrun as u4 s4 H4. assert (aside s2 s4) as Ha4.
  { destruct path; [by eapply prepare_destination_aside; destruct u4|by injection H4 as _ <-]. }
  ok_in Hrun as plan s5 H5. injection H5 as <- <-. ok_in Hrun as u6 s6 H6. injection Hrun as _ <-.
  etrans; [exact Ha2|]. etrans; [exact Ha4|]. revert H6. destruct (negb _); [by intros [= _ <-]|]. intros Hrun.
  ok_in Hrun as directory s7 H7. apply lift_stop_Ok in H7 as [_ ->]. ok_in Hrun as o s8 H8.
  apply (aside_run _ _ _ _ (keeps_try_stop _ _ (aside_reserve _ _))) in H8.
  destruct o as [[]|[]]; try (by injection Hrun as _ <-); exfalso;
    first [by apply refuse_not_Ok in Hrun
          |ok_in Hrun as text s9 H9; by apply refuse_not_Ok in Hrun].
Qed.
End head.

(** ** From the staging to the end *)

(** Steps that leave the connection alone. *)
Definition off_peer : relation Rx := same_on rx_peer.
#[local] Instance off_peer_preorder : PreOrder off_peer := same_on_preorder _.
#[local] Instance aside_off_peer : subrelation aside off_peer.
Proof. by intros s s' [=]. Qed.
Lemma off_peer_idle s s' : off_peer s s' → idle s s'.
Proof. intros Hp. by apply (took_same _ s s); [apply took_nothing|]. Qed.
Lemma off_peer_disk {T} (m : FsM T) : keeps off_peer (on_disk m).
Proof. intros s. unfold on_disk. by destruct (m (rx_disk s)). Qed.
Lemma off_peer_plan {E} f : keeps off_peer (update_plan (E := E) f).
Proof. by intros s. Qed.
#[local] Hint Resolve off_peer_disk off_peer_plan : keeps.
Lemma off_peer_prepare `{!ReadDirOrder} `{!HashSetOrder} `{!Fs2} root :
  keeps off_peer (receiver_prepare_staging root).
Proof.
  unfold receiver_prepare_staging, stage_file. keeps_tac.
Qed.

Section tail.
Context {order : ReadDirOrder} {order_laws : ReadDirOrderLaws}.
Context {hash : HashSetOrder} {hash_laws : HashSetOrderLaws}.
Context {ren : Renamore} {ren_laws : RenamoreLaws} {fs2 : Fs2} {fs2_laws : Fs2Laws}.
Context {iter : RedbIter} {uuid_text : UuidText} {uuid_plain : UuidTextPlain}.
Context {dbg : DebugText} {lower : Lowercase} {sha : Sha256}.
Context `{!Json OfferSourceRecord} `{!Json OfferCardRecord}.
Context `{!Json ActivationJournalEntry} `{!Json ClipboardCacheRecord}.
Context `{!Json V2Message} `{!Json (list ManifestEntry)}.
Context (state_root : PathBuf) (fresh_id : rstr) (activation : FetchActivation).
Context (Hroot : Forall valid_name (components state_root)).
Context (Hmode : fa_mode activation = Mode_Save).
Notation home := (staging_home state_root).
Notation root := (staging_root_of state_root activation).
Context (fixed : gset nat) (directory : PathBuf).
Context (Hasked : asked activation directory) (Hout : ¬ home `prefix_of` components directory).
Context (Hsolid : ∀ q, q ∈ [components directory] → ¬ home `prefix_of` q).
Notation F := (save_footprint state_root activation fixed [components directory] Hsolid).
Context (kind : ContentKind) (entries : list ManifestEntry).
Context (Hinside : Forall entry_inside entries).
Context (Hkinds : kind = Kind_Folder ∨ Forall (λ e, is_file e = true) entries).
Context (Hlens : Forall (λ e, 0 ≤ me_byte_len e) entries) (Hcount : zlen entries ≤ U32_MAX).

(** The plan before anything is staged. *)
Record plans (p : ReceivePlan) : Prop := {
  pl_staged : rp_staged_files p = [];
  pl_entries : rp_entries p = entries;
  pl_kind : rp_content_kind p = kind;
}.
(** The whole tree is staged, its files open and empty. *)
Definition staged (p : ReceivePlan) (handles : list Handle) (s : Rx) : Prop :=
  laid root kind entries (rx_disk s) ∧
  Forall2 (λ ie h, placed root kind ie.2 h (rx_disk s)) (file_entries entries) handles ∧
  NoDup (map hd_inode handles) ∧
  rx_plan s = plan_with_staged (zip_with (staged_as root kind) (file_entries entries) handles) p.
Lemma staged_still p handles s s' : still s s' → staged p handles s → staged p handles s'.
Proof.
  intros (Hn & Hi & Hp & _)%still_view (Hl & Hplaced & Hnd & Hplan).
  assert (lays root kind entries (rx_disk s) (rx_disk s')) as Hlays by (by apply lays_same).
  split_and!; [| |done|congruence].
  - destruct Hl as [Hr Hf Ho]. split; rewrite ?Hn; done.
  - eapply Forall2_impl; [exact Hplaced|]. intros ie h. by eapply placed_later.
Qed.

Lemma stage_Ok s s' :
  rgood F root s → plans (rx_plan s) → stage state_root activation s = (Ok (), s') →
  ∃ handles, rgood F root s' ∧ changed F (rx_disk s) (rx_disk s') ∧ off_peer s s' ∧
    staged (rx_plan s) handles s'.
Proof.
  intros Hs [Hst Hen Hki] Hrun.
  destruct (save_root state_root activation Hroot fixed _ Hsolid) as (R1 & R2 & R3 & R4 & R5).
  pose proof (keeps_stage F root R1 R2 R3 R4 R5 state_root activation eq_refl s Hs) as [Hs' Hc].
  rewrite Hrun in Hs', Hc. simpl in Hs', Hc. unfold stage in Hrun.
  ok_in Hrun as plan s0 H0. injection H0 as <- <-. cbv zeta in Hrun.
  ok_in Hrun as u1 s1 H1. pose proof (aside_run _ _ _ _ (aside_store_owned _) H1) as Ha1.
  apply (still_run _ _ _ _ (still_store _ (fs_journal _))) in H1.
  ok_in Hrun as u2 s2 H2. apply st_modify_Ok in H2 as ->.
  ok_in Hrun as o s3 H3. ok_in Hrun as u4 s4 H4. destruct o as [[]|e].
  2: { ok_in H4 as u5 s5 H5. ok_in H4 as text s6 H6. by apply refuse_not_Ok in H4. }
  injection H4 as _ <-. apply try_stop_Ok in H3.
  ok_in Hrun as u5 s5 H5. injection Hrun as <-.
  pose proof (aside_run _ _ _ _ (aside_disk_net _) H5) as Ha5.
  apply (still_run _ _ _ _ (still_disk_net _ (keeps_reject _))) in H5.
  pose proof (off_peer_prepare root (set_guard (mkStagingGuard (Some (root, fa_request_id activation)) false false) s1))
    as Ha3. rewrite H3 in Ha3. apply still_view in H1 as (Hn1 & Hi1 & Hp1 & _).
  apply (prepare_staging_Ok F root R1 R2 kind entries Hinside Hkinds) in H3
    as (handles & _ & Hlaid & Hplaced & Hnd & Hplan & _); try (cbn [set_guard rx_plan]; congruence);
    [|apply (step_same F (rx_disk s)); [done..|apply Hs]].
  exists handles. split_and!; [done|done| |].
  - injection Ha1 as Ha1 _. injection Ha5 as Ha5 _. unfold off_peer, same_on in *. simpl in Ha3. congruence.
  - eapply staged_still; [exact H5|]. split_and!; [done..|]. rewrite Hplan. cbn [set_guard rx_plan]. congruence.
Qed.

(** A name published in the end was free before. *)
Lemma published_free name d0 d1 d' :
  changed F d0 d1 → published F root directory name d1 d' →
  dk_nodes d0 !! (components directory ++ [name]) = None.
Proof.
  intros Hc Hpub. apply published_apart in Hpub as Hap; [|done..]. destruct Hap as [Ha Hb].
  destruct Hpub as (_ & dm & _ & Hcm & Hfree & _). pose proof (changed_trans F _ _ _ Hc Hcm) as [Hk _ _].
  apply eq_None_not_Some. intros [n Hn]. destruct (Hk _ _ Hn) as [Hdm|[Hown|[Hex _]]].
  - by rewrite Hfree in Hdm.
  - apply Hb. rewrite components_staging_root. by apply owned_only in Hown.
  - apply Ha. rewrite Hex, components_staging_root. by eexists.
Qed.

Lemma conn_idle {T} (m : St Conn Failure T) :
  (∀ c, cn_in (m c).2 = cn_in c) → keeps idle (on_conn m).
Proof.
  intros Hm. unfold on_conn. apply keeps_bind; [apply _| |intros _].
  - intros s Hs. unfold on_peer, await. destruct (pe_drops (rx_peer s)); simpl; by (split; [|exists []]).
  - intros s Hs. specialize (Hm (pe_conn (rx_peer s))). destruct (m _) as [r c]. simpl in *.
    split; [done|]. exists []. by rewrite Hm.
Qed.
Lemma admission_idle id code n count detail : keeps idle (write_admission id code n count detail).
Proof.
  apply conn_idle. intros c. unfold io_write. destruct (encode_v2_frame _); [|done].
  unfold next_fault. by destruct (cn_schedule c) as [|[] ?].
Qed.
Lemma cancel_next files count s s' :
  cancel_between state_root activation files count s = (Ok (), s') → idle s s'.
Proof.
  unfold cancel_between. intros Hrun. ok_in Hrun as b s1 H1. apply is_cancelled_next in H1 as [Ho _].
  destruct b; [|by injection Hrun as <-].
  ok_in Hrun as u2 s2 H2. ok_in Hrun as u3 s3 H3. by ok_in Hrun as u4 s4 H4.
Qed.
Lemma failure_not_Ok failure s u s' : conclude_failure state_root activation failure s ≠ (Ok u, s').
Proof.
  unfold conclude_failure. intros Hrun. ok_in Hrun as u1 s1 H1. clear H1.
  destruct failure; cbn [report_failure] in Hrun; cbv zeta in Hrun; unfold finish_terminal in Hrun;
    repeat match type of Hrun with (_ ≫= _) _ = _ => let s2 := fresh "s" in let u2 := fresh "u" in
      let H2 := fresh "H" in ok_in Hrun as u2 s2 H2 end; done.
Qed.

(** The outcome of a save: [d] is the disk before and [d'] the one after, [plan] the accepted
    plan and [input] what was to come on the connection. *)
Definition saves (d : Disk) (plan : ReceivePlan) (input : bytes) (d' : Disk) : Prop :=
  ∃ name contents handles stream rest,
    portable_component name ∧
    dk_nodes d !! (components directory ++ [name]) = None ∧
    holds_tree d' (components directory ++ [name]) kind entries contents ∧
    Forall2 (λ e data, zlen data = me_byte_len e) (files_of entries) contents ∧
    input = stream ++ rest ∧
    carries_payload (fa_request_id activation)
      (plan_with_staged (zip_with (staged_as root kind) (file_entries entries) handles) plan)
      contents stream ∧
    length handles = length (file_entries entries).

(** Admission and journal between the staging and the payload. *)
Lemma transfer_starts files count s u1 s1 u2 s2 u3 s3 :
  write_admission (fa_request_id activation) Admission_Accepted files count None s = (Ok u1, s1) →
  store_owned (update_activation_state (fa_request_id activation) State_Transferring) s1 = (Ok u2, s2) →
  cancel_between state_root activation 0 0 s2 = (Ok u3, s3) →
  still s s3 ∧ idle s s3.
Proof.
  intros H1 H2 H3. destruct u3. split.
  - pose proof (still_run _ _ _ _ (still_sub _ (sub_off_disk _ (keeps_admission _ _ _ _ _))) H1).
    apply (still_run _ _ _ _ (still_store _ (fs_update_state _ _))) in H2.
    apply cancel_still in H3. etrans; [done|]. by etrans.
  - pose proof (admission_idle (fa_request_id activation) Admission_Accepted files count None s) as Ho.
    rewrite H1 in Ho. apply (aside_run _ _ _ _ (aside_store_owned _)), aside_idle in H2.
    apply cancel_next in H3. etrans; [exact Ho|]. by etrans.
Qed.

Context (descriptor : OfferDescriptor) (Htext : descriptor_is_text descriptor = false).

Lemma admitted_saves d s s' :
  changed F d (rx_disk s) → rgood F root s → plans (rx_plan s) → kind ≠ Kind_Text → uninterrupted (rx_peer s) →
  receive_admitted state_root fresh_id activation descriptor (Some directory) s = (Ok (), s') →
  saves d (rx_plan s) (cn_in (pe_conn (rx_peer s))) (rx_disk (end_of_scope s')).
Proof.
  intros Hc0 Hs Hp Hkind Hsig Hrun. unfold receive_admitted in Hrun.
  ok_in Hrun as u1 s1 H1. destruct u1. apply stage_Ok in H1 as (handles & Hs1 & Hc1 & Ho1 & Hst); [|done..].
  apply off_peer_idle in Ho1.
  ok_in Hrun as plan s1' H0. injection H0 as <- <-.
  ok_in Hrun as u2 s2 H2. ok_in Hrun as u3 s3 H3. ok_in Hrun as u4 s4 H4.
  eapply transfer_starts in H2 as [Hstill Ho4]; [|done..]. clear H3 H4.
  pose proof (staged_still _ _ _ _ Hstill Hst) as (Hlaid & Hplaced & Hnd & Hplan4).
  pose proof (still_rgood _ _ _ _ Hstill Hs1) as Hs4.
  pose proof (still_changed F _ _ Hstill (rg_disk _ _ _ Hs1)) as Hc4.
  ok_in Hrun as o s5 H5. destruct o as [[]|failure]; [|by apply failure_not_Ok in Hrun].
  apply try_stop_Ok in H5.
  pose proof (keeps_receive_payload F root activation s4 Hs4) as [Hs5 Hc5].
  rewrite H5 in Hs5, Hc5. simpl in Hs5, Hc5. destruct Hp as [_ Hen Hki].
  destruct (save_root state_root activation Hroot fixed _ Hsolid) as (R1 & R2 & _ & _ & _).
  eapply receive_payload_files in H5 as (contents & Hlen & Hstored & Hn5 & _ & Ht5);
    [|rewrite Hplan4; cbn [plan_with_staged rp_content_kind]; by rewrite Hki
     |apply (placed_all_open F root R1 R2 kind entries Hinside Hkinds); try done;
      rewrite Hplan4; done].
  pose proof (payload_tree _ _ _ _ _ _ _ Hlaid Hplaced Hn5 Hstored) as Htree.
  eapply (conclude_saves state_root fresh_id activation Hroot Hmode fixed directory Hasked Hout Hsolid)
    in Hrun as [name Hpub]; [|done..].
  assert (idle s s4) as Ho by (by etrans).
  apply (idle_then _ _ _ _ Ho) in Ht5. destruct (Ht5 Hsig) as (_ & stream & Hcarry & Hin5).
  exists name, contents, handles, stream, (cn_in (pe_conn (rx_peer s5))). split_and!.
  - apply Hpub.
  - eapply published_free; [|exact Hpub]. do 2 (eapply changed_trans; [eassumption|]).
    by eapply changed_trans.
  - destruct Hpub as (_ & dm & Hd & _ & _ & _ & Hlast). eapply holds_tree_moved; [|exact Htree].
    by eapply same_tree_trans.
  - done.
  - done.
  - by rewrite <- Hplan4.
  - by apply Forall2_length in Hplaced.
Qed.
End tail.

(** ** The whole run *)

Section whole.
Context {order : ReadDirOrder} {order_laws : ReadDirOrderLaws}.
Context {hash : HashSetOrder} {hash_laws : HashSetOrderLaws}.
Context {ren : Renamore} {ren_laws : RenamoreLaws} {fs2 : Fs2} {fs2_laws : Fs2Laws}.
Context {iter : RedbIter} {uuid_text : UuidText} {uuid_plain : UuidTextPlain}.
Context {dbg : DebugText} {lower : Lowercase} {sha : Sha256}.
Context `{!Json OfferSourceRecord} `{!Json OfferCardRecord}.
Context `{!Json ActivationJournalEntry} `{!Json ClipboardCacheRecord}.
Context `{!Json V2Message} `{!Json (list ManifestEntry)} {message_types : V2Typed}.
Context (state_root : PathBuf) (fresh_activation : ActivationId) (fresh_offer : OfferId)
  (fresh_id : rstr) (activation : FetchActivation) (source : DeviceId).
Notation home := (staging_home state_root).
Notation root := (staging_root_of state_root activation).
Context (Hroot : Forall valid_name (components state_root)).
Context (Hmode : fa_mode activation = Mode_Save) (Hdest : destination_plain state_root activation).

(** A text is never saved. *)
Lemma text_not_saved descriptor destination s u s' :
  descriptor_is_text descriptor = true →
  receive_admitted state_root fresh_id activation descriptor destination s ≠ (Ok u, s').
Proof.
  intros Htext Hrun. unfold receive_admitted in Hrun.
  ok_in Hrun as u1 s1 H1. ok_in Hrun as plan s2 H2. ok_in Hrun as u3 s3 H3.
  ok_in Hrun as u4 s4 H4. ok_in Hrun as u5 s5 H5. ok_in Hrun as o s6 H6.
  destruct o as [[]|failure]; [|by apply failure_not_Ok in Hrun]. unfold conclude in Hrun. clear -Hrun Htext Hmode.
  ok_in Hrun as plan t1 H1. ok_in Hrun as u2 t2 H2. ok_in Hrun as o t3 H3.
  assert (o = None) as ->.
  { unfold publish_verified in H3. ok_in H3 as u4 t4 H4. ok_in H3 as o' t5 H5.
    destruct o' as [o'|error]; [|ok_in H3 as u6 t6 H6; by apply report_not_Ok in H3].
    injection H3 as -> _. apply try_stop_Ok in H5. unfold publish in H5. rewrite Htext in H5.
    ok_in H5 as u6 t6 H6. by injection H5. }
  ok_in Hrun as u4 t4 H4. ok_in Hrun as u5 t5 H5. unfold apply_published in H5.
  ok_in H5 as plan' t6 H6. unfold apply_side_effect in H5. rewrite Htext, Hmode in H5.
  ok_in H5 as o t7 H7. injection H7 as <- _. ok_in H5 as u8 t8 H8.
  unfold report_side_effect, finish_terminal in H5. ok_in H5 as plan2 t9 H9. cbv zeta in H5.
  ok_in H5 as text t10 H10. ok_in H5 as u11 t11 H11. by ok_in H5 as u12 t12 H12.
Qed.

(** The plan that is staged, from an accepted manifest. *)
Lemma accepted_kinds card header plan :
  accepted activation card header plan → descriptor_is_text (fh_descriptor header) = false →
  manifest_ok header (card_descriptor card) plan ∧
  (header_kind header = Kind_Folder ∨ Forall (λ e, is_file e = true) (rp_entries plan)) ∧
  header_kind header ≠ Kind_Text ∧ zlen (rp_entries plan) ≤ U32_MAX.
Proof.
  intros [_ Hd Hk He Hu Hv] Htext. apply validate_manifest_run in Hv as Hok; [|done..].
  pose proof (mo_count _ _ _ Hok) as Hcount. pose proof (mo_describes _ _ _ Hok) as Hdesc.
  split_and!; [done| | |].
  - unfold header_kind. rewrite Hd in *. destruct (card_descriptor card); [done| |by left].
    destruct Hdesc as (e & -> & Hf & _). right. apply Forall_singleton. unfold is_file. by rewrite Hf.
  - unfold header_kind. by destruct (fh_descriptor header).
  - rewrite Hcount. unfold is_u32 in Hu. lia.
Qed.
Lemma typed_lengths entries : Forall entry_typed entries → Forall (λ e, 0 ≤ me_byte_len e) entries.
Proof. intros H. eapply Forall_impl; [exact H|]. unfold entry_typed, is_u64. lia. Qed.

Lemma save_destination_for descriptor destination :
  descriptor_is_text descriptor = false →
  destination_for state_root activation descriptor = Ok destination →
  ∃ directory, destination = Some directory ∧ asked activation directory.
Proof.
  intros Htext. unfold destination_for. rewrite Htext, Hmode, bind_Ok.
  intros (path & Hp%ok_or_Ok & Hd). apply unit_seq_Ok in Hd as [_ [= <-]]. eauto.
Qed.

(** From the accepted manifest on. *)
Lemma manifest_saves card header s s' fixed Hnil :
  let F := save_footprint state_root activation fixed [] Hnil in
  rgood F root s → rp_staged_files (rx_plan s) = [] →
  Forall entry_inside (rp_entries (rx_plan s)) → accepted activation card header (rx_plan s) →
  uninterrupted (rx_peer s) →
  (destination ← admit_fetch state_root activation (fh_descriptor header);
   receive_admitted state_root fresh_id activation (fh_descriptor header) destination) s = (Ok (), s') →
  manifest_ok header (card_descriptor card) (rx_plan s) ∧
  descriptor_is_text (card_descriptor card) = false ∧
  ∃ directory, asked activation directory ∧
    saves state_root activation directory (header_kind header) (rp_entries (rx_plan s)) (rx_disk s)
      (rx_plan s) (cn_in (pe_conn (rx_peer s))) (rx_disk (end_of_scope s')).
Proof.
  intros F Hs Hst Hin Hacc Hsig Hrun.
  destruct (save_root state_root activation Hroot fixed [] Hnil) as (R1 & R2 & R3 & R4 & R5).
  assert (∀ path, destination_for state_root activation (fh_descriptor header) = Ok (Some path) →
    Forall valid_name (components path) ∧ ∀ q, q `prefix_of` components path → fp_allowed F q) as Hd.
  { intros path Hp. by destruct (save_destination state_root activation Hmode Hdest fixed [] Hnil _ _ Hp)
      as (_ & ? & ?). }
  pose proof (keeps_admit F root state_root activation _ Hd s) as Hadmit.
  ok_in Hrun as destination s2 H2. rewrite H2 in Hadmit. destruct (Hadmit Hs) as [Hs2 Hc2].
  destruct (descriptor_is_text (fh_descriptor header)) eqn:Htext.
  { by apply text_not_saved in Hrun. }
  destruct (accepted_kinds _ _ _ Hacc Htext) as (Hok & Hkinds & Hkind & Hcount). split; [done|].
  rewrite <- (ac_descriptor _ _ _ _ Hacc). split; [done|].
  apply admit_next in H2 as Ha.
  apply (admit_Ok F root) in H2 as [Hp Hdir]; [|done|done].
  destruct (save_destination_for _ _ Htext Hp) as (directory & -> & Hasked).
  exists directory. split; [done|].
  assert (∀ q, q ∈ [components directory] → ¬ home `prefix_of` q) as Hsolid.
  { intros q ->%list_elem_of_singleton. by apply Hdest. }
  set (F' := save_footprint state_root activation fixed [components directory] Hsolid).
  assert (rgood F' root s2) as Hs2'.
  { destruct Hs2 as [Hg Hh He Hr]. split; [|done..]. eapply good_save; [exact Hg|].
    intros q ->%list_elem_of_singleton. by apply Hdir. }
  assert (changed F' (rx_disk s) (rx_disk s2)) as Hc2' by (by eapply changed_save).
  unfold aside, same_on in Ha. injection Ha as Hpeer Hplan.
  destruct Hacc as [_ _ Hk He _ _].
  eapply (admitted_saves state_root fresh_id activation Hroot Hmode fixed directory Hasked
    ltac:(by apply Hdest) Hsolid (header_kind header) (rp_entries (rx_plan s)) Hin Hkinds
    (typed_lengths _ He) Hcount) in Hrun; [|done..|rewrite Hplan; by split|done|by rewrite Hpeer].
  by rewrite Hpeer, Hplan in Hrun.
Qed.

Lemma receive_one_saves s s' :
  disk_ready home (rx_disk s) → gu_armed (rx_guard s) = None → uninterrupted (rx_peer s) →
  receive_one state_root fresh_activation fresh_offer fresh_id source activation s = (Ok (), s') →
  source = fa_source_device activation ∧
  ∃ card header plan directory early rest,
    offered activation card s ∧ accepted activation card header plan ∧
    manifest_ok header (card_descriptor card) plan ∧
    descriptor_is_text (card_descriptor card) = false ∧ asked activation directory ∧
    cn_in (pe_conn (rx_peer s)) = early ++ rest ∧
    followed_by (frame_of (Msg_FetchHeader header)) (carries_manifest plan) early ∧
    saves state_root activation directory (header_kind header) (rp_entries plan) (rx_disk s) plan
      rest (rx_disk s').
Proof.
  intros Hready Hg Hsig Hrun. unfold receive_one in Hrun.
  destruct (receive_body _ _ _ _ _ _ s) as [r1 s5] eqn:Hbody. injection Hrun as -> <-.
  unfold receive_body in Hbody.
  pose proof (quiet_check fresh_activation fresh_offer activation source s) as Hq1.
  ok_in Hbody as card s1 H1. rewrite H1 in Hq1. apply check_next in H1 as (Hi1 & Hsource & Hcard).
  pose proof (quiet_header activation card s1) as Hq2.
  ok_in Hbody as header s2 H2. rewrite H2 in Hq2.
  apply receive_header_next in H2 as [Ht2 Hu]; [|by eapply took_signal].
  apply (idle_then _ _ _ _ Hi1) in Ht2.
  pose proof (quiet_manifest activation card header s2) as Hq3.
  ok_in Hbody as u s3 H3. destruct u. rewrite H3 in Hq3. simpl in Hq1, Hq2, Hq3.
  apply receive_manifest_Ok in H3 as Hm. destruct Hm as (Hst & Hen & _).
  apply receive_manifest_next in H3 as [Ht3 Hacc]; [|by eapply took_signal|done].
  assert (quiet s s3) as [Hn Hi _ Hg3 _] by (by etrans; [|etrans]).
  pose proof (ready_good state_root activation (rx_disk s) ∅ Hready ltac:(set_solver)) as Hgood.
  set (Hnil := λ q Hq, _) in Hgood.
  destruct (took_then _ _ _ _ _ Ht2 Ht3 Hsig) as (Hsig3 & early & Hearly & Hin).
  apply (manifest_saves card header s3 s5 ∅ Hnil) in Hbody as (Hok & Htext & directory & Hasked & Hsaves);
    [|apply rgood_start; [by apply (step_same _ (rx_disk s))|done|done|by rewrite Hg3]|done..].
  split; [done|]. exists card, header, (rx_plan s3), directory, early, (cn_in (pe_conn (rx_peer s3))).
  split_and!; try done. unfold saves in *. by rewrite <- Hn.
Qed.

(** C6: a save that reports success did what the user asked for.  Over every disk, every source
    and every schedule of faults: when a run in save mode none of whose reads is given up for a cancellation returns without an
    error, the authenticated device is the one of the activation, the database holds its card,
    and the manifest that was read describes what the card offers; under one portable name, free
    before, the directory the user asked for now holds exactly the tree of that manifest, every
    file with as many bytes as the manifest says; and this is what came on the connection: the
    header, the manifest, each file between the two frames with its index, length and digest,
    and the frame with the counts and the digest of the whole.  This still holds at the end of
    the run, after the staging area is gone. *)
Theorem saved_tree s s' :
  disk_ready home (rx_disk s) → gu_armed (rx_guard s) = None → uninterrupted (rx_peer s) →
  receive_one state_root fresh_activation fresh_offer fresh_id source activation s = (Ok (), s') →
  source = fa_source_device activation ∧
  ∃ card header plan directory early rest,
    offered activation card s ∧ accepted activation card header plan ∧
    manifest_ok header (card_descriptor card) plan ∧
    descriptor_is_text (card_descriptor card) = false ∧ asked activation directory ∧
    cn_in (pe_conn (rx_peer s)) = early ++ rest ∧
    followed_by (frame_of (Msg_FetchHeader header)) (carries_manifest plan) early ∧
    saves state_root activation directory (header_kind header) (rp_entries plan) (rx_disk s) plan
      rest (rx_disk s').
Proof. apply receive_one_saves. Qed.
End whole.
