(* ===== verification/Fetching.v ===== *)
(** * An activation from the request to the result

    [PeerClient::fetch_v2_with_cancel] of [crates/meshelf-net/src/lib.rs] with the receiver
    itself behind it, and [ActivationService::activate] of [activation.rs] around that: what
    [Connection] and [Activation] model over interfaces, on the state [Rx] of [Receiver], where
    a fetch may also panic.  The theorems say what a reported completion means, and what a
    panic leaves. *)

From S2P Require Import Prelude RustStr StdIo Utf8 Offer Records Identity Names Protocol OfferStore Ledger Activation Filesystem Announce Connection Manifest Transfer Receiver ReceiverFrame ReceiverContent ReceiverSafety ReceiverTree ReceiverSave SavedTree.

(** ** Operations *)

Section operations.
Context {SigningKey : Type} {ed : Ed25519 SigningKey}.
Context {client_json : Json ClientHello} {server_json : Json ServerHello}.
Context {wire_json : Json WireMessage} {message_json : Json V2Message}.
Context {dirs : ReadDirOrder} {hash_set : HashSetOrder} {renamore : Renamore} {fs2 : Fs2}.
Context {iter : RedbIter} {uuid : UuidText} {debug : DebugText} {lower : Lowercase} {sha : Sha256}.
Context {source_json : Json OfferSourceRecord} {card_json : Json OfferCardRecord}.
Context {journal_json : Json ActivationJournalEntry} {cache_json : Json ClipboardCacheRecord}.
Context {entries_json : Json (list ManifestEntry)}.
Context (state_root : PathBuf) (fresh_activation : ActivationId) (fresh_offer : OfferId)
  (fresh_id : rstr).
Implicit Types (activation : FetchActivation).

(** The owner and the store, without the connection. *)
Definition on_proc {T} (m : St (Proc Disk) NetError T) : M T := λ s,
  let '(r, p) := m (rx_proc s) in (map_err Fails r, set_proc p s).

(** [fetch_v2_with_cancel] *)
Definition fetch_v2_receive (race : ConnectRace) (hello : ClientHello) (request : FetchRequest)
    activation (expected_server_public_key : bytes) (cancel : option CancelSignal)
    : M ActivationOutcome :=
  opened ← Receiver.on_conn (open_fetch (SigningKey := SigningKey) race hello request activation
             expected_server_public_key cancel);
  match opened with
  | inl outcome => mret outcome
  | inr source => receive state_root fresh_activation fresh_offer fresh_id source activation
  end.

(** [ActivationService::activate]; a panic is not observed, so it skips the release. *)
Definition activate_fetch (race : ConnectRace) (hello : ClientHello) (request : FetchRequest)
    activation (expected_server_public_key : bytes) (cancel : CancelSignal)
    : M ActivationOutcome :=
  on_proc (recover state_root);;
  refusal ← on_proc (admit_activation (fa_request_id activation));
  match refusal with
  | Some outcome => mret outcome
  | None =>
      outcome ← try_stop (fetch_v2_receive race hello request activation
                            expected_server_public_key (Some cancel));
      on_proc (release_activation (fa_request_id activation));;
      lift_stop outcome
  end.
End operations.

(** ** Which errors an operation fails with *)

Definition fails_in {S E T} (P : E → Prop) (m : St S (Stop E) T) : Prop :=
  ∀ s e s', m s = (Err (Fails e), s') → P e.

Section fails.
Context {S : Type}.

Lemma fails_ret {E T} (P : E → Prop) (x : T) : fails_in P (mret x : St S (Stop E) T).
Proof. by intros s e s'. Qed.
Lemma fails_lift {E T} (P : E → Prop) (r : result E T) :
  (∀ e, r = Err e → P e) → fails_in P (lift_stop r : St S (Stop E) T).
Proof. intros Hr s e s' Hrun. unfold lift_stop, st_lift in Hrun. destruct r; simplify_eq/=. by apply Hr. Qed.
Lemma fails_bind {E T U} (P : E → Prop) (m : St S (Stop E) T) (f : T → St S (Stop E) U) :
  fails_in P m → (∀ x, fails_in P (f x)) → fails_in P (m ≫= f).
Proof.
  intros Hm Hf s e s' Hrun. apply st_bind_inv in Hrun as [(e' & Hrun & [= <-])|(x & s1 & _ & Hrun)].
  - by eapply Hm.
  - by eapply Hf.
Qed.
Lemma fails_try {E E' T} (P : E' → Prop) (m : St S (Stop E) T) :
  fails_in P (try_stop m : St S (Stop E') _).
Proof. intros s e s' Hrun. unfold try_stop in Hrun. by destruct (m s) as [[x|[]] s1]. Qed.
Lemma fails_map {E E' T} (Q : E → Prop) (P : E' → Prop) (f : E → E') (m : St S (Stop E) T) :
  fails_in Q m → (∀ e, Q e → P (f e)) → fails_in P (map_stop f m).
Proof.
  intros Hm Hf s e s' Hrun. unfold map_stop in Hrun. apply st_map_err_inv in Hrun as (o & Hrun & Ho).
  destruct o as [x|[e'| |]]; simplify_eq/=. apply Hf. by eapply Hm.
Qed.
(** An error that was looked at is one of the operation's. *)
Lemma fails_try_bind {E E' T U} (Q : E → Prop) (P : E' → Prop) (m : St S (Stop E) T)
    (f : result E T → St S (Stop E') U) :
  fails_in Q m → (∀ x, fails_in P (f (Ok x))) → (∀ e, Q e → fails_in P (f (Err e))) →
  fails_in P (try_stop m ≫= f).
Proof.
  intros Hm Hok Herr s e s' Hrun. unfold mbind, st_bind, try_stop in Hrun.
  destruct (m s) as [[x|[e1| |]] s1] eqn:Hs; try discriminate Hrun.
  - by eapply Hok.
  - eapply Herr; [by eapply Hm|done].
Qed.
Lemma fails_any {E T} (m : St S (Stop E) T) : fails_in (λ _, True) m.
Proof. done. Qed.
Lemma fails_fail {E T} (P : E → Prop) e : P e → fails_in P (fail e : St S (Stop E) T).
Proof. by intros He s e' s' [= <- <-]. Qed.
Lemma fails_modify {E} (P : E → Prop) f : fails_in P (st_modify f : St S (Stop E) ()).
Proof. by intros s e s'. Qed.
Lemma fails_get {E} (P : E → Prop) : fails_in P (st_get : St S (Stop E) S).
Proof. by intros s e s'. Qed.
End fails.

(** The errors that [classify_activation_result] would take for a completion. *)
Definition honest (e : NetError) : Prop :=
  match e with
  | FetchTerminal Receipt_Completed _ _ _ | FetchAdmissionRefused Admission_Accepted _ _ _ => False
  | _ => True
  end.
Definition honest_failure (f : ReceiveFailure) : Prop :=
  match f with RF_Io e => honest e | _ => True end.

Lemma honest_classify e : honest e → classify_activation_result (Err e) ≠ Ok Outcome_Completed.
Proof.
  destruct e; try done; simpl; [by repeat case_match|..]; try by destruct code.
Qed.

(** [fails_tac]: walk through a body to the places where it fails. *)
Create HintDb fails.
#[export] Hint Resolve fails_ret fails_try fails_modify fails_get fails_any : fails.
Ltac fails_tac :=
  repeat first
    [ progress intros
    | match goal with
      | |- fails_in _ (_ ≫= _) => apply fails_bind
      | |- fails_in _ (fail _) => apply fails_fail; exact I
      | |- fails_in _ (if ?b then _ else _) => destruct b
      | |- fails_in _ (match ?x with _ => _ end) => destruct x eqn:?
      | |- fails_in _ (map_stop _ _) => eapply fails_map; [apply fails_any|by intros]
      end
    | solve [eauto with fails] ].

Section honest.
Context {message_json : Json V2Message} {debug : DebugText}.

Lemma fails_on_peer {E T} (P : E → Prop) (m : St Peer (Stop E) T) :
  fails_in P m → fails_in P (on_peer m).
Proof.
  intros Hm s e s' Hrun. unfold on_peer in Hrun. destruct (m (rx_peer s)) as [r p] eqn:Hp.
  injection Hrun as -> _. by eapply Hm.
Qed.
Lemma fails_on_conn {T} (m : St Conn Failure T) :
  (∀ c e c', m c = (Err (Failed e), c') → honest e) → fails_in honest (Receiver.on_conn m).
Proof.
  intros Hm. apply fails_bind.
  { apply fails_on_peer. intros p e p' Hrun. unfold await in Hrun. by repeat case_match. }
  intros _ s e s' Hrun. cbv beta in Hrun. destruct (m (pe_conn (rx_peer s))) as [r c] eqn:Hc.
  injection Hrun as Hr _. destruct r as [x|[error|]]; simplify_eq/=. by eapply Hm.
Qed.
Lemma fails_io_write frame operation c e c' :
  io_write frame operation c = (Err (Failed e), c') → honest e.
Proof. unfold io_write, next_fault. intros Hrun. repeat case_match; by simplify_eq/=. Qed.
Lemma fails_lift_any {S E T} (P : E → Prop) (r : result E T) (Hp : ∀ e, r = Err e → P e) :
  fails_in P (lift_stop r : St S (Stop E) T).
Proof. by apply fails_lift. Qed.
Lemma fails_ok_or {S E T} (P : E → Prop) (o : option T) e :
  P e → fails_in P (lift_stop (ok_or o e) : St S (Stop E) T).
Proof. intros He. apply fails_lift. intros e' Ho. destruct o; by simplify_eq/=. Qed.
Lemma fails_refuse_if {S E} (P : E → Prop) b e :
  P e → fails_in P (lift_stop (refuse_if b e) : St S (Stop E) ()).
Proof. intros He. apply fails_lift. intros e' Ho. destruct b; by simplify_eq/=. Qed.
Lemma fails_lift_map {S E E' T} (P : E → Prop) (f : E' → E) (r : result E' T) :
  (∀ e, P (f e)) → fails_in P (lift_stop (map_err f r) : St S (Stop E) T).
Proof. intros Hf. apply fails_lift. intros e' Ho. destruct r; by simplify_eq/=. Qed.
Lemma fails_safe {E} (P : E → Prop) detail : fails_in P (safe detail : RxM E rstr).
Proof.
  intros s e s' Hrun. unfold safe, st_lift in Hrun. by destruct (safe_detail detail).
Qed.
Lemma fails_store_owned {T} (m : St (World Disk) StoreError T) : fails_in honest (store_owned m).
Proof. unfold store_owned. fails_tac. Qed.
Lemma fails_disk_net {T} (m : FsM T) : fails_in honest (disk_net m).
Proof. unfold disk_net. fails_tac. Qed.

(** The reads: [RF_Io] only holds errors of the connection. *)
Lemma fails_await {E} (P : E → Prop) : fails_in P (await : St Peer (Stop E) ()).
Proof. intros p e p' Hrun. unfold await in Hrun. by repeat case_match. Qed.
Lemma fails_stream {E T} classify (m : St Conn E T) :
  (∀ e, honest_failure (classify e)) → fails_in honest_failure (on_stream classify m).
Proof.
  intros Hc. apply fails_bind; [apply fails_await|]. intros _ p f p' Hrun. cbv beta in Hrun.
  destruct (m (pe_conn p)) as [[x|e] c]; simplify_eq/=. apply Hc.
Qed.
Lemma fails_cancellable {T} files count (read : PeerM T) :
  fails_in honest_failure read → fails_in honest_failure (cancellable files count read).
Proof.
  intros Hread. unfold cancellable.
  assert (∀ s f s', (cancel_requested : PeerM bool) s ≠ (Err (Fails f), s')) as Hlook.
  { intros p f p' Hrun. unfold cancel_requested in Hrun. by repeat case_match. }
  fails_tac; try exact Hread; try (by intros p f p' Hrun; destruct (Hlook p f p')).
  - intros p f p' Hrun. unfold next_race in Hrun. by repeat case_match.
  - apply fails_await.
Qed.
Lemma fails_read_v2 files count : fails_in honest_failure (read_v2_cancellable files count).
Proof.
  apply fails_cancellable. unfold read_v2_timeout. apply fails_bind.
  - apply fails_stream. intros [e|]; [|done]. unfold protocol_read_failure. by repeat case_match.
  - intros message. apply fails_bind; [|intros; apply fails_ret]. by apply fails_lift_map.
Qed.
End honest.
#[export] Hint Resolve fails_safe fails_store_owned fails_disk_net fails_await : fails.
#[export] Hint Extern 3 (fails_in _ (lift_stop (ok_or _ _))) => apply fails_ok_or; exact I : fails.
#[export] Hint Extern 3 (fails_in _ (lift_stop (refuse_if _ _))) => apply fails_refuse_if; exact I : fails.
#[export] Hint Extern 3 (fails_in _ (lift_stop (map_err _ _))) => apply fails_lift_map; intros; exact I : fails.

(** A check of the header or the manifest never fails with the code of an acceptance. *)
Definition refuses {T} (r : result FetchAdmissionCode T) : Prop := r ≠ Err Admission_Accepted.
Lemma refuses_bind {T U} (r : result FetchAdmissionCode T) (f : T → result FetchAdmissionCode U) :
  refuses r → (∀ x, refuses (f x)) → refuses (r ≫= f).
Proof. unfold refuses. destruct r; simpl; [auto|congruence]. Qed.
Lemma refuses_if b e : e ≠ Admission_Accepted → refuses (refuse_if b e).
Proof. unfold refuses. destruct b; simpl; congruence. Qed.
Lemma refuses_ok_or {T} (o : option T) e : e ≠ Admission_Accepted → refuses (ok_or o e).
Proof. unfold refuses. destruct o; simpl; congruence. Qed.
Lemma refuses_map {E T} (r : result E T) e :
  e ≠ Admission_Accepted → refuses (map_err (λ _, e) r).
Proof. unfold refuses. destruct r; simpl; congruence. Qed.
Ltac refuses_tac :=
  repeat first
    [ progress intros
    | match goal with
      | |- refuses (_ ≫= _) => apply refuses_bind
      | |- refuses (refuse_if _ _) => by apply refuses_if
      | |- refuses (ok_or _ _) => by apply refuses_ok_or
      | |- refuses (map_err _ _) => by apply refuses_map
      | |- refuses (mret _) => done
      | |- refuses (Ok _) => done
      | |- refuses (Err _) => done
      | |- refuses (if ?b then _ else _) => destruct b
      | |- refuses (match ?x with _ => _ end) => destruct x
      end ].

Section checks.
Context {lower : Lowercase} {sha : Sha256} {entries_json : Json (list ManifestEntry)}.

Lemma validate_header_refuses header card activation : refuses (validate_header header card activation).
Proof. unfold validate_header. refuses_tac. Qed.
Lemma tally_entries_refuses entries t : refuses (tally_entries entries t).
Proof.
  revert t. induction entries as [|e entries IH]; intros t; [done|]. cbn [tally_entries].
  apply refuses_bind; [|intros; apply IH]. unfold tally_entry, check_path. refuses_tac.
Qed.
Lemma check_parents_refuses t ps : refuses (check_parents t ps).
Proof. induction ps as [|p ps IH]; [done|]. cbn [check_parents]. refuses_tac. exact IH. Qed.
Lemma check_tree_refuses t entries : refuses (check_tree t entries).
Proof.
  induction entries as [|e entries IH]; [done|]. cbn [check_tree]. refuses_tac;
    [apply check_parents_refuses|exact IH].
Qed.
Lemma validate_manifest_refuses header descriptor plan :
  refuses (validate_manifest header descriptor plan).
Proof.
  unfold validate_manifest, check_digest, expected_entries.
  refuses_tac; auto using tally_entries_refuses, check_tree_refuses.
Qed.
End checks.

Section receiving.
Context {dirs : ReadDirOrder} {hash_set : HashSetOrder} {renamore : Renamore} {fs2 : Fs2}.
Context {iter : RedbIter} {uuid : UuidText} {debug : DebugText} {lower : Lowercase} {sha : Sha256}.
Context {source_json : Json OfferSourceRecord} {card_json : Json OfferCardRecord}.
Context {journal_json : Json ActivationJournalEntry} {cache_json : Json ClipboardCacheRecord}.
Context {message_json : Json V2Message} {entries_json : Json (list ManifestEntry)}.
Context (state_root : PathBuf) (fresh_activation : ActivationId) (fresh_offer : OfferId)
  (fresh_id : rstr).
Implicit Types (activation : FetchActivation).

Lemma fails_admission id code entries count detail :
  fails_in honest (write_admission id code entries count detail).
Proof. apply fails_on_conn. apply fails_io_write. Qed.
Lemma fails_receipt code files count detail activation :
  fails_in honest (send_receipt code files count detail activation).
Proof. apply fails_on_conn. apply fails_io_write. Qed.
Hint Resolve fails_admission fails_receipt : fails.

Lemma fails_terminal {T} code files count detail activation :
  code ≠ Receipt_Completed →
  fails_in honest (finish_terminal code files count detail activation : M T).
Proof. intros Hc. unfold finish_terminal. fails_tac. apply fails_fail. by destruct code; try destruct (Hc eq_refl). Qed.
Lemma fails_counts activation code files count detail :
  fails_in honest (record_attempt_with_counts activation code files count detail).
Proof. unfold record_attempt_with_counts. fails_tac. Qed.
Hint Resolve fails_counts : fails.
Lemma fails_attempt activation code detail : fails_in honest (record_attempt activation code detail).
Proof. unfold record_attempt, get_plan. fails_tac. Qed.
Lemma fails_admission_refused {T} activation code detail :
  code ≠ Admission_Accepted → fails_in honest (refuse_admission activation code detail : M T).
Proof. intros Hc. unfold refuse_admission. fails_tac. apply fails_fail. by destruct code; try destruct (Hc eq_refl). Qed.
Hint Extern 3 (fails_in honest (finish_terminal _ _ _ _ _)) => by apply fails_terminal : fails.
Hint Extern 3 (fails_in honest (refuse_admission _ _ _)) => by apply fails_admission_refused : fails.
Hint Resolve fails_attempt : fails.

Lemma fails_uncertain {T} activation files count detail :
  fails_in honest (finish_uncertain activation files count detail : M T).
Proof.
  unfold finish_uncertain, block_cleanup, update_flags.
  apply (fails_try_bind (λ _, True)); [fails_tac| |fails_tac]. intros [].
  apply (fails_try_bind honest); [fails_tac..|]. intros e He.
  apply fails_bind; [fails_tac|]. intros _. by apply fails_fail.
Qed.
Hint Resolve fails_uncertain : fails.

Lemma fails_cleanup staging_root id : fails_in honest (cleanup_activation_state staging_root id).
Proof. unfold cleanup_activation_state. fails_tac. Qed.
Lemma fails_abandon activation (failed : NetError → NetError) :
  (∀ e, honest e → honest (failed e)) → fails_in honest (abandon state_root activation failed).
Proof.
  intros Hf. unfold abandon, release_permit, guard_disarm, guard_keep, block_cleanup, update_flags.
  apply (fails_try_bind honest); [apply fails_cleanup|fails_tac|]. intros e He.
  do 3 (apply fails_bind; [fails_tac|intros _]). by apply fails_fail, Hf.
Qed.
Lemma fails_shutdown : fails_in honest shutdown_stream.
Proof. unfold shutdown_stream. fails_tac. Qed.
Lemma fails_is_cancelled {E} (P : E → Prop) : fails_in P (is_cancelled : RxM E bool).
Proof.
  apply fails_on_peer. intros p e p' Hrun. unfold cancel_requested in Hrun. by repeat case_match.
Qed.
Hint Resolve fails_shutdown fails_is_cancelled : fails.
Hint Extern 3 (fails_in honest (abandon _ _ _)) => by apply fails_abandon : fails.
Lemma fails_cancel activation files count :
  fails_in honest (cancel_between state_root activation files count).
Proof. unfold cancel_between. fails_tac. Qed.
Hint Resolve fails_cancel : fails.

Lemma fails_header activation card : fails_in honest (receive_header activation card).
Proof.
  unfold receive_header. apply (fails_try_bind honest); [|fails_tac|].
  - unfold read_header. apply fails_bind.
    { eapply fails_map; [apply fails_on_peer, fails_read_v2|]. by intros []. }
    intros message. fails_tac.
  - intros e He. do 2 (apply fails_bind; [fails_tac|intros ?]). by apply fails_fail.
Qed.
Lemma fails_manifest_message : fails_in honest_failure manifest_message.
Proof. unfold manifest_message, read_manifest_frame. fails_tac. apply fails_on_peer, fails_read_v2. Qed.
Lemma fails_chunks tries header index : fails_in honest_failure (read_chunks tries header index).
Proof.
  revert index. induction tries as [|tries IH]; intros index; cbn [read_chunks]; [by fails_tac|].
  unfold get_plan, update_plan. fails_tac; auto using fails_manifest_message.
Qed.
Lemma fails_read_manifest header : fails_in honest_failure (read_manifest header).
Proof.
  unfold read_manifest, get_plan, update_plan.
  fails_tac; auto using fails_manifest_message, fails_chunks.
Qed.
Lemma fails_manifest activation card header : fails_in honest (receive_manifest activation card header).
Proof.
  unfold receive_manifest, get_plan. apply fails_bind.
  { pose proof (validate_header_refuses header card activation) as Hr.
    destruct (validate_header _ _ _) as [plan|code]; fails_tac. apply fails_admission_refused.
    intros ->. by apply Hr. }
  intros []. apply (fails_try_bind honest_failure); [apply fails_read_manifest| |].
  - intros []. fails_tac. apply fails_admission_refused. intros ->.
    by eapply validate_manifest_refuses.
  - intros e He. destruct e; fails_tac;
      try (apply fails_admission_refused; intros ->; by eapply validate_manifest_refuses).
    by apply fails_fail.
Qed.
Lemma fails_prepare activation destination :
  fails_in honest (prepare_destination activation destination).
Proof. unfold prepare_destination. fails_tac. Qed.
Lemma destination_refuses activation descriptor :
  refuses (destination_for state_root activation descriptor).
Proof. unfold destination_for. refuses_tac. Qed.
Lemma fails_admit activation descriptor : fails_in honest (admit_fetch state_root activation descriptor).
Proof.
  unfold admit_fetch, get_plan. fails_tac; try apply fails_prepare.
  apply fails_admission_refused. intros ->. by eapply destination_refuses.
Qed.
Lemma fails_stage activation : fails_in honest (stage state_root activation).
Proof. unfold stage, get_plan, guard_arm. fails_tac. Qed.
Lemma fails_report activation failure : fails_in honest (report_failure activation failure).
Proof. unfold report_failure, abort_failure. destruct failure; fails_tac. Qed.
Lemma fails_publish activation descriptor destination :
  fails_in honest (publish_verified state_root fresh_id activation descriptor destination).
Proof.
  unfold publish_verified, report_publication, get_plan. fails_tac.
Qed.
Lemma fails_apply activation descriptor published :
  fails_in honest (apply_published state_root activation descriptor published).
Proof.
  unfold apply_published, report_side_effect, get_plan, guard_keep, release_permit. fails_tac.
Qed.
Lemma fails_settle activation : fails_in honest (settle state_root activation).
Proof.
  unfold settle, uncertain_from, block_cleanup, update_flags, guard_keep, guard_disarm,
    release_permit, get_plan. fails_tac.
Qed.
Lemma fails_conclude activation descriptor destination :
  fails_in honest (conclude state_root fresh_id activation descriptor destination).
Proof.
  unfold conclude, get_plan, guard_keep.
  fails_tac; auto using fails_publish, fails_apply, fails_settle.
Qed.
Lemma fails_body source activation :
  fails_in honest (receive_body state_root fresh_activation fresh_offer fresh_id source activation).
Proof.
  unfold receive_body, check_activation, receive_admitted, conclude_failure, get_plan.
  fails_tac; auto using fails_header, fails_manifest, fails_admit, fails_stage, fails_conclude, fails_report.
Qed.

(** A reported completion is one: only a run of the receiver without an error is classified as
    completed. *)
Lemma receive_completed source activation s s' :
  receive state_root fresh_activation fresh_offer fresh_id source activation s
    = (Ok Outcome_Completed, s') →
  receive_one state_root fresh_activation fresh_offer fresh_id source activation s = (Ok (), s').
Proof.
  intros Hrun. unfold receive, mbind, st_bind, try_stop in Hrun.
  destruct (receive_one _ _ _ _ _ _ s) as [[[]|[e| |]] s1] eqn:Hone; try discriminate Hrun.
  - by injection Hrun as <-.
  - unfold receive_one in Hone.
    destruct (receive_body _ _ _ _ _ _ s) as [r s2] eqn:Hbody. injection Hone as -> <-.
    apply fails_body, honest_classify in Hbody.
    by apply lift_stop_Ok in Hrun as [? _].
Qed.
End receiving.

(** ** The slots of the owner while a fetch runs *)

(** The part of the owner that belongs to the service. *)
Definition slots (o : SharedActivationOwner) :=
  (ow_recovered o, ow_recovery_runs o, ow_recovery_poisoned o, ow_live o, ow_live_poisoned o).
Definition keeps_slots : relation Rx := same_on (λ s, slots (rx_owner s)).
#[export] Instance keeps_slots_preorder : PreOrder keeps_slots := same_on_preorder _.
#[export] Instance elsewhere_slots : subrelation elsewhere keeps_slots.
Proof. intros s s' [= Hp _ _ _]. unfold keeps_slots, same_on, rx_owner. by rewrite Hp. Qed.

Section slots.
Context {dirs : ReadDirOrder} {hash_set : HashSetOrder} {renamore : Renamore} {fs2 : Fs2}.
Context {iter : RedbIter} {uuid : UuidText} {debug : DebugText} {lower : Lowercase} {sha : Sha256}.
Context {source_json : Json OfferSourceRecord} {card_json : Json OfferCardRecord}.
Context {journal_json : Json ActivationJournalEntry} {cache_json : Json ClipboardCacheRecord}.
Context {message_json : Json V2Message} {entries_json : Json (list ManifestEntry)}.
Context (state_root : PathBuf) (fresh_activation : ActivationId) (fresh_offer : OfferId)
  (fresh_id : rstr).
Implicit Types (activation : FetchActivation).
Notation kept m := (keeps keeps_slots m).
Ltac slots_tac :=
  keeps_tac;
  repeat match goal with
    | |- keeps _ (try_stop _) => apply keeps_try_stop; keeps_tac
    | |- keeps _ (map_stop _ _) => apply keeps_map_stop; keeps_tac
    end.

Lemma slots_disk {T} (m : FsM T) : kept (on_disk m).
Proof. intros s. unfold on_disk. by destruct (m (rx_disk s)). Qed.
Lemma slots_store {T} (m : St (World Disk) StoreError T) : kept (on_store m).
Proof. intros s. unfold on_store. by destruct (m (rx_world s)). Qed.
Lemma slots_modify {E} (f : Rx → Rx) :
  (∀ s, rx_proc (f s) = rx_proc s) → kept (st_modify f : RxM E ()).
Proof. intros Hf s. unfold keeps_slots, same_on, rx_owner. simpl. by rewrite Hf. Qed.
Lemma slots_flags {E} (f : SharedActivationOwner → SharedActivationOwner) :
  (∀ o, slots (f o) = slots o) → kept (update_flags f : RxM E ()).
Proof. intros Hf s. unfold keeps_slots, same_on, rx_owner. simpl. apply Hf. Qed.
Lemma slots_block {E} : kept (block_cleanup : RxM E ()).
Proof. by apply slots_flags. Qed.
Lemma slots_uncertain {E} b : kept (update_flags (set_uncertain b) : RxM E ()).
Proof. by apply slots_flags. Qed.
Lemma slots_plan {E} f : kept (update_plan f : RxM E ()).
Proof. by apply slots_modify. Qed.
Lemma slots_clipboard call : kept (call_clipboard call).
Proof. intros s. unfold call_clipboard. by destruct (cb_outcomes _) as [|[] ?]. Qed.
Hint Resolve slots_disk slots_store slots_block slots_uncertain slots_plan slots_clipboard : keeps.
Hint Extern 2 (keeps keeps_slots (st_modify _)) => by apply slots_modify : keeps.

Lemma slots_owned {T} (m : St (World Disk) StoreError T) : kept (store_owned m).
Proof. apply keeps_map_stop, slots_store. Qed.
Lemma slots_disk_net {T} (m : FsM T) : kept (disk_net m).
Proof. apply keeps_map_stop, slots_disk. Qed.
Lemma slots_on_file {T} files count (m : FsM T) : kept (on_file files count m).
Proof. unfold on_file. slots_tac. Qed.
Hint Resolve slots_owned slots_disk_net slots_on_file : keeps.

Lemma slots_counts activation code files count detail :
  kept (record_attempt_with_counts activation code files count detail).
Proof. unfold record_attempt_with_counts. slots_tac. Qed.
Lemma slots_admission id code entries count detail :
  kept (write_admission id code entries count detail).
Proof. unfold write_admission. slots_tac. Qed.
Lemma slots_receipt code files count detail activation :
  kept (send_receipt code files count detail activation).
Proof. unfold send_receipt. slots_tac. Qed.
Hint Resolve slots_counts slots_admission slots_receipt : keeps.
Lemma slots_terminal {T} code files count detail activation :
  kept (finish_terminal code files count detail activation : M T).
Proof. unfold finish_terminal. slots_tac. Qed.
Lemma slots_refused {T} activation code detail : kept (refuse_admission activation code detail : M T).
Proof. unfold refuse_admission. slots_tac. Qed.
Hint Resolve slots_terminal slots_refused : keeps.
Lemma slots_finish {T} activation files count detail :
  kept (finish_uncertain activation files count detail : M T).
Proof. unfold finish_uncertain, record_attempt. slots_tac. Qed.
Lemma slots_cleanup staging_root : kept (cleanup_activation staging_root).
Proof. unfold cleanup_activation, close_staged_handles. slots_tac. Qed.
Hint Resolve slots_finish slots_cleanup : keeps.
Lemma slots_abandon activation failed : kept (abandon state_root activation failed).
Proof. unfold abandon, cleanup_activation_state, guard_keep, guard_disarm. slots_tac. Qed.
Hint Resolve slots_abandon : keeps.
Lemma slots_cancel activation files count : kept (cancel_between state_root activation files count).
Proof. unfold cancel_between. slots_tac. Qed.
Hint Resolve slots_cancel : keeps.

Lemma slots_chunks tries header index : kept (read_chunks tries header index).
Proof.
  revert index. induction tries as [|tries IH]; intros index; cbn [read_chunks];
    unfold manifest_message; slots_tac.
Qed.
Lemma slots_bytes tries file remaining files count hashed :
  kept (receive_bytes tries file remaining files count hashed).
Proof.
  revert file remaining count hashed.
  induction tries as [|tries IH]; intros file remaining count hashed; cbn [receive_bytes]; slots_tac.
Qed.
Hint Resolve slots_chunks slots_bytes : keeps.
Lemma slots_files activation k staged pg : kept (receive_files activation k staged pg).
Proof.
  revert k pg. induction staged as [|f staged IH]; intros k pg; cbn [receive_files]; [by slots_tac|].
  unfold receive_file, message_or_abort, verify, take_file. slots_tac.
Qed.
Hint Resolve slots_files : keeps.
Lemma slots_payload activation staging_root : kept (receive_payload activation staging_root).
Proof. unfold receive_payload, receive_text, verify. slots_tac. Qed.
Lemma slots_loop payload directory root_name kind index tries :
  kept (publish_loop payload directory root_name kind index tries).
Proof.
  revert index. induction tries as [|tries IH]; intros index; cbn [publish_loop]; [by slots_tac|].
  unfold finalize_payload. slots_tac.
Qed.
Hint Resolve slots_payload slots_loop : keeps.
Lemma slots_publish activation descriptor staging_root destination :
  kept (publish fresh_id activation descriptor staging_root destination).
Proof. unfold publish, finalize_payload_without_overwrite, finalize_payload. slots_tac. Qed.
Lemma slots_effect activation descriptor text published :
  kept (apply_side_effect activation descriptor text published).
Proof.
  unfold apply_side_effect, apply_text, apply_files, mark_clipboard_application, undo. slots_tac.
Qed.
Hint Resolve slots_publish slots_effect : keeps.
Lemma slots_conclude activation descriptor destination :
  kept (conclude state_root fresh_id activation descriptor destination).
Proof.
  unfold conclude, publish_verified, report_publication, apply_published,
    report_side_effect, settle, uncertain_from, record_attempt, guard_keep, guard_disarm. slots_tac.
Qed.
Hint Resolve slots_conclude : keeps.
Lemma slots_stage activation : kept (stage state_root activation).
Proof.
  unfold stage, guard_arm, receiver_prepare_staging, stage_file. slots_tac.
Qed.
Hint Resolve slots_stage : keeps.
Lemma slots_body source activation :
  kept (receive_body state_root fresh_activation fresh_offer fresh_id source activation).
Proof.
  unfold receive_body, check_activation, receive_header, read_header, receive_manifest, read_manifest,
    manifest_message, admit_fetch, prepare_destination, receive_admitted, conclude_failure,
    report_failure.
  slots_tac.
Qed.
Lemma slots_end s : keeps_slots s (end_of_scope s).
Proof.
  unfold end_of_scope, guard_drop.
  assert (keeps_slots s (drop_permit s)) as Hd by (unfold drop_permit; by destruct (rx_permit s)).
  revert Hd. generalize (drop_permit s) as s1. intros s1 Hd.
  destruct (_ || _); [done|]. destruct (gu_armed _) as [[root id]|]; [|done].
  pose proof (slots_disk (remove_owned_tree root) s1) as Hk.
  destruct (on_disk (remove_owned_tree root) s1) as [r2 s2]. simpl in Hk.
  pose proof (slots_store (remove_activation_journal id) s2) as Hk2.
  destruct (on_store (remove_activation_journal id) s2) as [r3 s3]. simpl in Hk2.
  assert (keeps_slots s s3) by (etrans; [exact Hd|]; by etrans).
  destruct (_ || _); [|done]. etrans; [done|]. apply (slots_block (E := NetError)).
Qed.
Lemma slots_receive source activation :
  kept (receive state_root fresh_activation fresh_offer fresh_id source activation).
Proof.
  unfold receive. apply keeps_bind; [apply _| |intros; apply keeps_lift_stop, _].
  apply keeps_try_stop. intros s. unfold receive_one.
  pose proof (slots_body source activation s) as Hk.
  destruct (receive_body _ _ _ _ _ _ s) as [r s1]. simpl in *. etrans; [exact Hk|]. apply slots_end.
Qed.
End slots.

(** ** Properties *)

Section activation.
Context {SigningKey : Type} {ed : Ed25519 SigningKey}.
Context {client_json : Json ClientHello} {server_json : Json ServerHello}.
Context {wire_json : Json WireMessage} {message_json : Json V2Message}.
Context {dirs : ReadDirOrder} {hash_set : HashSetOrder} {renamore : Renamore} {fs2 : Fs2}.
Context {iter : RedbIter} {uuid : UuidText} {debug : DebugText} {lower : Lowercase} {sha : Sha256}.
Context {source_json : Json OfferSourceRecord} {card_json : Json OfferCardRecord}.
Context {journal_json : Json ActivationJournalEntry} {cache_json : Json ClipboardCacheRecord}.
Context {entries_json : Json (list ManifestEntry)}.
Context (state_root : PathBuf) (fresh_activation : ActivationId) (fresh_offer : OfferId)
  (fresh_id : rstr).
Context (race : ConnectRace) (hello : ClientHello) (request : FetchRequest).
Context (activation : FetchActivation) (key : bytes) (cancel : CancelSignal).
Implicit Types (s : Rx).
Notation run := (activate_fetch (SigningKey := SigningKey) state_root fresh_activation fresh_offer
  fresh_id race hello request activation key cancel).
Notation fetch := (fetch_v2_receive (SigningKey := SigningKey) state_root fresh_activation
  fresh_offer fresh_id race hello request activation key (Some cancel)).
Notation id := (fa_request_id activation).

(** After the startup the service is recovered, and recovery does nothing more. *)
Definition ready s : Prop :=
  ow_recovered (rx_owner s) = true ∧ ow_recovery_poisoned (rx_owner s) = false ∧
  ow_live_poisoned (rx_owner s) = false.
Definition admitted s : Rx :=
  set_proc (mkProc (set_live ({[id]} ∪ ow_live (rx_owner s)) (rx_owner s)) (rx_world s)) s.
Definition free s : Prop :=
  id ∉ ow_live (rx_owner s) ∧ (size (ow_live (rx_owner s)) < 2)%nat.
Definition released s : Rx :=
  set_proc (mkProc (set_live (ow_live (rx_owner s) ∖ {[id]}) (rx_owner s)) (rx_world s)) s.

Lemma recover_ready s : ready s → on_proc (recover state_root) s = (Ok (), s).
Proof.
  intros (Hr & Hp & _). unfold on_proc, recover, mbind, st_bind, st_get. fold (rx_owner s).
  unfold rx_owner in *. rewrite Hp, Hr. by destruct s.
Qed.

(** The run of an activation: refused, or admitted and released unless the fetch stopped. *)
Lemma activate_cases s r s' :
  ready s → run s = (r, s') →
  (¬ free s ∧ r ≠ Ok Outcome_Completed ∧ r ≠ Err Panics ∧ s' = s) ∨
  free s ∧ ∃ o s1, fetch (admitted s) = (o, s1) ∧ r = o ∧ slots (rx_owner s1) = slots (rx_owner (admitted s)) ∧
    s' = match o with Err Panics | Err Drops => s1 | _ => released s1 end.
Proof.
  intros Hready Hrun. unfold activate_fetch in Hrun.
  rewrite (st_bind_run _ _ _ () s) in Hrun by (by apply recover_ready).
  destruct Hready as (_ & _ & Hlive). unfold mbind at 1, st_bind at 1 in Hrun.
  unfold on_proc at 1 in Hrun. unfold admit_activation, mbind at 1, st_bind at 1, st_get in Hrun.
  unfold free, rx_owner in *. rewrite Hlive in Hrun.
  case_bool_decide as Hin.
  { left. injection Hrun as <- <-. split_and!; [naive_solver|done|done|by destruct s]. }
  destruct (Z.leb_spec MAX_CONCURRENT_ACTIVATIONS (Z.of_nat (size (ow_live (pr_owner (rx_proc s))))))
    as [Hfull|Hroom]; unfold MAX_CONCURRENT_ACTIVATIONS in *.
  { left. injection Hrun as <- <-. split_and!; [lia|done|done|by destruct s]. }
  right. split; [split; [done|lia]|].
  unfold mbind at 1, st_bind at 1, update_owner, st_modify, mret, st_ret in Hrun.
  cbv beta iota zeta in Hrun. cbn [map_err] in Hrun.
  change (set_proc (mkProc (set_live ({[id]} ∪ ow_live (pr_owner (rx_proc s))) (pr_owner (rx_proc s)))
    (pr_world (rx_proc s))) s) with (admitted s) in Hrun.
  assert (keeps keeps_slots fetch) as Hk.
  { unfold fetch_v2_receive. apply keeps_bind; [apply _|apply keeps_conn; apply _|].
    intros [o|source]; [apply keeps_ret, _|apply slots_receive]. }
  specialize (Hk (admitted s)). unfold mbind at 1, st_bind at 1, try_stop in Hrun.
  destruct (fetch (admitted s)) as [o s1] eqn:Hfetch. exists o, s1. split; [done|].
  unfold keeps_slots, same_on in Hk. simpl in Hk.
  assert (ow_live_poisoned (rx_owner s1) = false) as Hp.
  { unfold slots in Hk. injection Hk as _ _ _ _ ->. exact Hlive. }
  assert (∀ x, (on_proc (release_activation id);; lift_stop x : M ActivationOutcome) s1
    = (map_err Fails x, released s1)) as Hrelease.
  { intros x. unfold mbind at 1, st_bind at 1, on_proc, release_activation, mbind, st_bind, st_get.
    unfold rx_owner in Hp. rewrite Hp. done. }
  destruct o as [outcome|[e| |]]; try rewrite Hrelease in Hrun; injection Hrun as <- <-; done.
Qed.

(** An opening that ends without a fetch does not complete anything. *)
Lemma connect_not_completed error :
  connect_v2_cancellable (Some cancel) race = Err error →
  classify_failure error ≠ Ok Outcome_Completed.
Proof.
  intros Hc. assert (∃ e, error = Failed e ∧ honest e) as (e & -> & He).
  { unfold connect_v2_cancellable, connect_cancelled, connect_or in Hc.
    repeat case_match; simplify_eq/=; (eexists; split; [reflexivity|exact I]). }
  simpl. intros Ho%map_err_Ok. by apply honest_classify in He.
Qed.
Lemma open_not_completed c c' :
  open_fetch (SigningKey := SigningKey) race hello request activation key (Some cancel) c
    ≠ (Ok (inl Outcome_Completed), c').
Proof.
  unfold open_fetch. intros Hrun.
  ok_in Hrun as u1 c1 H1. ok_in Hrun as u2 c2 H2. clear H1 H2.
  destruct (from_option cs_at_start false (Some cancel)); [done|].
  destruct (connect_v2_cancellable _ _) as [[]|error] eqn:Hconn.
  2: { apply st_lift_Ok in Hrun as [Hr _]. apply fmap_Ok in Hr as (o & Hr & [= <-]).
       by apply connect_not_completed in Hconn. }
  destruct (from_option cs_after_connect false (Some cancel)).
  { by ok_in Hrun as u3 c3 H3. }
  ok_in Hrun as u3 c3 H3. ok_in Hrun as server c4 H4. ok_in Hrun as u5 c5 H5.
  by ok_in Hrun as u6 c6 H6.
Qed.

(** A completed fetch is a completed run of the receiver, on the connection to the
    authenticated source. *)
Lemma fetch_completed s s1 :
  fetch s = (Ok Outcome_Completed, s1) →
  ∃ s0 server,
    authenticated (SigningKey := SigningKey) key (fr_source_device request) server ∧
    fa_source_device activation = fr_source_device request ∧
    read_frame (cn_in (pe_conn (rx_peer s)))
      = (Ok (Wire_ServerHello server), cn_in (pe_conn (rx_peer s0))) ∧
    elsewhere s s0 ∧ (uninterrupted (rx_peer s) → uninterrupted (rx_peer s0)) ∧
    receive state_root fresh_activation fresh_offer fresh_id (fr_source_device request) activation s0
      = (Ok Outcome_Completed, s1).
Proof.
  unfold fetch_v2_receive. intros Hrun. ok_in Hrun as opened s0 H0. pose proof H0 as Hopen.
  unfold Receiver.on_conn in Hopen. ok_in Hopen as u s' Hawait. destruct u.
  apply on_peer_Ok in Hawait as [Hawait Hp]. apply await_Ok in Hawait as [Hc Hsig].
  destruct (open_fetch _ _ _ _ _ _ (pe_conn (rx_peer s'))) as [o c] eqn:Ho.
  injection Hopen as Hm Hs0. destruct o as [o|[|]]; [|discriminate Hm..]. injection Hm as ->.
  destruct opened as [outcome|source].
  { injection Hrun as -> _. by apply open_not_completed in Ho. }
  apply open_fetch_spec in Ho as [[_ Hno]|
    (server & _ & Ha & Hsrc & _ & _ & _ & [(n & e & _ & Hbad)|([= ->] & _ & Hread)])];
    [by destruct (Hno source)|discriminate Hbad|].
  exists s0, server. rewrite Hc in Hread. subst s0. split_and!; try done.
  by rewrite Hp.
Qed.

(** When a fetch panics or is dropped in an admitted activation, its slot is never given
    back; after two such activations every later one is refused.  A fetch that ends in any
    other way gives back its slot and no other. *)
Theorem activation_slots s r s' :
  ready s → free s → run s = (r, s') →
  ow_live (rx_owner s')
    = match r with
      | Err Panics | Err Drops => {[id]} ∪ ow_live (rx_owner s)
      | _ => ow_live (rx_owner s)
      end.
Proof.
  intros Hready Hfree Hrun.
  apply activate_cases in Hrun as [(Hno & _)|(_ & o & s1 & _ & -> & Hk & ->)]; [by destruct Hno| |done].
  unfold slots in Hk. injection Hk as _ _ _ Hlive _.
  assert (ow_live (rx_owner (released s1)) = ow_live (rx_owner s)) as Hrel.
  { simpl. rewrite Hlive. simpl. destruct Hfree as [Hin _]. set_solver. }
  by destruct o as [?|[e| |]].
Qed.
End activation.

Section saved.
Context {SigningKey : Type} {ed : Ed25519 SigningKey}.
Context {client_json : Json ClientHello} {server_json : Json ServerHello}.
Context {wire_json : Json WireMessage} {message_json : Json V2Message}.
Context {message_types : V2Typed}.
Context {dirs : ReadDirOrder} {dirs_laws : ReadDirOrderLaws}.
Context {hash_set : HashSetOrder} {hash_laws : HashSetOrderLaws}.
Context {renamore : Renamore} {renamore_laws : RenamoreLaws} {fs2 : Fs2} {fs2_laws : Fs2Laws}.
Context {iter : RedbIter} {uuid : UuidText} {uuid_plain : UuidTextPlain}.
Context {debug : DebugText} {lower : Lowercase} {sha : Sha256}.
Context {source_json : Json OfferSourceRecord} {card_json : Json OfferCardRecord}.
Context {journal_json : Json ActivationJournalEntry} {cache_json : Json ClipboardCacheRecord}.
Context {entries_json : Json (list ManifestEntry)}.
Context (state_root : PathBuf) (fresh_activation : ActivationId) (fresh_offer : OfferId)
  (fresh_id : rstr).
Context (activation : FetchActivation).
Context (Hroot : Forall valid_name (components state_root)).
Context (Hmode : fa_mode activation = Mode_Save) (Hdest : destination_plain state_root activation).

(** What a completed activation in save mode has done: the peer has proved to be the source,
    the stream after its hello carries the manifest of the card and the content, and the
    directory asked for holds exactly that. *)
Definition saved_from (key : bytes) (card : OfferCardRecord) (s s' : Rx) : Prop :=
  ∃ server input header plan directory early rest,
    authenticated (SigningKey := SigningKey) key (fa_source_device activation) server ∧
    read_frame (cn_in (pe_conn (rx_peer s))) = (Ok (Wire_ServerHello server), input) ∧
    offered activation card s ∧ accepted activation card header plan ∧
    manifest_ok header (card_descriptor card) plan ∧
    descriptor_is_text (card_descriptor card) = false ∧ asked activation directory ∧
    input = early ++ rest ∧
    followed_by (frame_of (Msg_FetchHeader header)) (carries_manifest plan) early ∧
    saves state_root activation directory (header_kind header) (rp_entries plan) (rx_disk s) plan
      rest (rx_disk s').

Lemma activation_saves race hello request key cancel s s' :
  ready s → disk_ready (staging_home state_root) (rx_disk s) → gu_armed (rx_guard s) = None →
  uninterrupted (rx_peer s) →
  activate_fetch (SigningKey := SigningKey) state_root fresh_activation fresh_offer fresh_id race
    hello request activation key cancel s = (Ok Outcome_Completed, s') →
  ∃ card, saved_from key card s s'.
Proof.
  intros Hready Hdisk Hguard Hsig Hrun.
  apply activate_cases in Hrun as [(_ & Hno & _)|(_ & o & s1 & Hfetch & Ho & _ & ->)]; [done| |done].
  subst o. apply fetch_completed in Hfetch
    as (s0 & server & Hauth & Hsource & Hread & [= Hproc _ Hg _] & Hu & Hrecv).
  apply receive_completed in Hrecv.
  apply (receive_one_saves state_root fresh_activation fresh_offer fresh_id activation _
    Hroot Hmode Hdest) in Hrecv
    as (_ & card & header & plan & directory & early & rest & Hoff & Hacc & Hok & Htext & Hasked
        & Hin & Hcarry & Hsaves);
    [|unfold rx_disk, rx_world in *; by rewrite Hproc|by rewrite Hg|by apply Hu].
  exists card, server, (early ++ rest), header, plan, directory, early, rest.
  rewrite Hsource. rewrite Hin in Hread. split_and!; try done.
  - unfold offered, rx_world in *. by rewrite Hproc in Hoff.
  - unfold saves, rx_disk, rx_world in *. by rewrite Hproc in Hsaves.
Qed.
End saved.
