(* ===== verification/Delivery.v ===== *)
(** * From the origin's files to the user's directory

    Both ends of a fetch as whole programs: [Sender.handle_fetch] on one device and
    [Receiver.receive_one] in save mode on another.  What the sender writes determines header
    and manifest as the receiver reads them, so that the tree which is saved is the tree the
    origin built from its source, with the bytes that were read there. *)

From S2P Require Import Prelude RustStr StdIo Offer Records Names Protocol OfferStore Ledger Activation Filesystem Announce Connection Manifest Transfer Source Sender SenderStream Receiver ReceiverFrame ReceiverContent Exchange ReceiverSafety ReceiverTree ReceiverSave SavedTree.
From Stdlib Require Import Strings.Byte.

(** ** Where the sender reads an entry *)

(** The file of an entry below a directory that has the relative path [rel]. *)
Definition file_below (directory : PathBuf) (rel : rstr) (e : ManifestEntry) (f : LiveFile) : Prop :=
  ∃ names, names_of (me_relative_path e) = names_of rel ++ names ∧
    lf_path f = foldl join directory names.
Definition walked (directory : PathBuf) (rel : rstr) (w w' : Walk) : Prop :=
  ∃ es fs, wk_manifest w' = wk_manifest w ++ es ∧ wk_files w' = wk_files w ++ fs ∧
    Forall2 (file_below directory rel) (files_of es) fs.

Section walking.
Context {views : Views} {sha : Sha256} {message_json : Json V2Message}.
Context {entries_json : Json (list ManifestEntry)}.

Lemma walked_app directory rel w1 w2 w3 :
  walked directory rel w1 w2 → walked directory rel w2 w3 → walked directory rel w1 w3.
Proof.
  intros (es1 & fs1 & M1 & F1 & H1) (es2 & fs2 & M2 & F2 & H2). exists (es1 ++ es2), (fs1 ++ fs2).
  split_and!; [by rewrite M2, M1, app_assoc|by rewrite F2, F1, app_assoc|].
  unfold files_of. rewrite filter_app. by apply Forall2_app.
Qed.
Lemma walked_descend directory rel name w w' :
  portable_component name → walked (join directory name) (relative_join rel name) w w' →
  walked directory rel w w'.
Proof.
  intros Hn (es & fs & M & F & H). exists es, fs. split_and!; [done..|].
  eapply Forall2_impl; [exact H|]. intros e f (names & He & Hf). exists (name :: names).
  split; [|done]. by rewrite He, names_of_join, <- app_assoc.
Qed.

Lemma walk_folder_entry_walked descend directory rel w child n w' n' :
  (∀ path rel w n w' n', descend path rel w n = (Ok w', n') → walked path rel w w') →
  walk_folder_entry descend directory rel w child n = (Ok w', n') → walked directory rel w w'.
Proof.
  intros Hd Hrun. unfold walk_folder_entry in Hrun.
  ok_in Hrun as name n1 H1. clear H1. ok_in Hrun as u2 n2 H2. destruct u2.
  apply st_lift_Ok in H2 as [Hname%map_err_Ok%source_component_portable ->].
  ok_in Hrun as u3 n3 H3. ok_in Hrun as metadata n4 H4. ok_in Hrun as u5 n5 H5.
  ok_in Hrun as entry_count n6 H6. ok_in Hrun as u7 n7 H7. ok_in Hrun as hashed n8 H8.
  ok_in Hrun as entry_index n9 H9. clear H3 H4 H5 H6 H7 H8 H9.
  destruct (md_is Type_File metadata).
  - inv_st. exists [mkManifestEntry (relative_join rel name) Entry_File (md_len metadata)]. eexists [_].
    split_and!; [done..|]. constructor; [|constructor]. exists [name]. split; [|done].
    by apply names_of_join.
  - destruct (md_is Type_Dir metadata); [|by inv_st]. ok_in Hrun as count n10 H10.
    apply Hd in Hrun. eapply walked_descend in Hrun; [|done].
    eapply walked_app; [|exact Hrun].
    exists [mkManifestEntry (relative_join rel name) Entry_Directory 0], []. split_and!; [done| |constructor].
    by rewrite app_nil_r.
Qed.
Lemma walk_folder_walked fuel directory rel w n w' n' :
  walk_folder fuel directory rel w n = (Ok w', n') → walked directory rel w w'.
Proof.
  revert directory rel w n w' n'. induction fuel as [|fuel IH]; intros directory rel w n w' n' Hrun;
    [by apply st_err_Ok in Hrun|].
  apply st_bind_Ok in Hrun as (names & n1 & _ & Hrun). revert w n1 Hrun.
  induction names as [|child names IHnames]; intros w n1 Hrun; cbn [walk_folder_entries] in Hrun.
  - apply st_ret_Ok in Hrun as [-> ->]. exists [], []. rewrite !app_nil_r. split_and!; done || constructor.
  - ok_in Hrun as w1 n2 H2. apply walk_folder_entry_walked in H2; [|exact IH].
    eapply walked_app; [exact H2|by eapply IHnames].
Qed.

(** The file or the folder that is offered. *)
Definition source_path (source : OfferSource) : PathBuf :=
  match source with
  | Source_File path _ | Source_Folder path _ => path
  | Source_Text _ => []
  end.

Lemma build_plan_walked record request_id n plan n' :
  build_source_plan record request_id n = (Ok plan, n') → descriptor_is_text (sp_descriptor plan) = false →
  sp_text plan = None ∧
  Forall2 (file_below (source_path (src_source record)) []) (files_of (sp_manifest plan)) (sp_files plan).
Proof.
  unfold build_source_plan. intros Hrun Hnot.
  destruct (src_descriptor record), (src_source record); try (by apply st_err_Ok in Hrun).
  - by apply st_ret_Ok in Hrun as [-> _].
  - unfold build_file_plan in Hrun. ok_in Hrun as metadata n1 H1. ok_in Hrun as u2 n2 H2.
    ok_in Hrun as u3 n3 H3. ok_in Hrun as hashed n4 H4. ok_in Hrun as u5 n5 H5.
    ok_in Hrun as digest n6 H6. ok_in Hrun as encoded n7 H7. destruct encoded as [chunks encoded].
    ok_in Hrun as manifest_sha256 n8 H8. apply st_ret_Ok in Hrun as [-> _].
    split; [done|]. constructor; [|constructor]. by exists [].
  - unfold build_folder_plan in Hrun. ok_in Hrun as metadata n1 H1. ok_in Hrun as u2 n2 H2.
    ok_in Hrun as hashed n3 H3. ok_in Hrun as w n4 H4. ok_in Hrun as u5 n5 H5.
    ok_in Hrun as u6 n6 H6. ok_in Hrun as encoded n7 H7. destruct encoded as [chunks encoded].
    ok_in Hrun as u8 n8 H8. ok_in Hrun as manifest_sha256 n9 H9. apply st_ret_Ok in Hrun as [-> _].
    apply walk_folder_walked in H4 as (es & fs & M & Hf & H). cbn [sp_text sp_manifest sp_files]. by rewrite M, Hf.
Qed.
End walking.

(** ** What the sender writes before the payload *)

Section sending.
Context {views : Views} {sha : Sha256} {message_json : Json V2Message} {message_laws : JsonLaws V2Message}.
Context {entries_json : Json (list ManifestEntry)} {S : Type} {store : OfferSourceStore S}.
Implicit Types (s : Session (Origin S)) (request : FetchRequest) (plan : SourcePlan).

Definition chunk_messages plan : list V2Message := map Msg_ManifestChunk (sp_manifest_chunks plan).
Definition manifest_messages request plan : list V2Message :=
  chunk_messages plan ++
  if bool_decide (sp_manifest plan = []) then [] else [Msg_ManifestEnd (plan_end request plan)].

Lemma chunks_wrote chunks s s' :
  st_for chunks (λ chunk, write_control (Msg_ManifestChunk chunk)) s = (Ok (), s') →
  wrote (concat (map (λ chunk, wire (Msg_ManifestChunk chunk)) chunks)) s s' ∧
  Forall (λ chunk, sendable (Msg_ManifestChunk chunk)) chunks.
Proof.
  revert s. induction chunks as [|chunk chunks IH]; intros s Hrun; cbn [st_for] in Hrun.
  { injection Hrun as <-. split; [apply wrote_nil|constructor]. }
  ok_in Hrun as u s1 H1. destruct u. apply control_wrote in H1 as [Hw1 Hs1].
  apply IH in Hrun as [Hw2 Hs2]. split; [|by constructor]. cbn [map concat]. by eapply wrote_app.
Qed.
Lemma manifest_wrote request plan s s' :
  send_manifest request plan s = (Ok (), s') →
  wrote (wire (Msg_FetchHeader (plan_header request plan))
         ++ concat (map wire (manifest_messages request plan))) s s' ∧
  sendable (Msg_FetchHeader (plan_header request plan)) ∧
  Forall sendable (manifest_messages request plan).
Proof.
  unfold send_manifest, manifest_messages, chunk_messages. intros Hrun.
  ok_in Hrun as u s1 H1. destruct u. apply control_wrote in H1 as [Hw1 Hs1].
  ok_in Hrun as u s2 H2. destruct u. apply chunks_wrote in H2 as [Hw2 Hs2].
  rewrite map_app, concat_app, map_map. split_and!; [|done|].
  - eapply wrote_app; [exact Hw1|]. eapply wrote_app; [exact Hw2|].
    case_bool_decide; [by injection Hrun as <-; apply wrote_nil|].
    apply control_wrote in Hrun as [Hw3 _]. simpl. by rewrite app_nil_r.
  - apply Forall_app. split; [by apply Forall_fmap|]. case_bool_decide; [constructor|].
    apply control_wrote in Hrun as [_ Hs3]. by apply Forall_singleton.
Qed.

Lemma admission_wrote request s s' : await_admission (S := S) request s = (Ok (), s') → wrote [] s s'.
Proof.
  unfold await_admission. intros Hrun. ok_in Hrun as response s1 H1.
  apply on_conn_run in H1 as [Hs Hread]. apply io_read_run in Hread as [Hout _].
  ok_in Hrun as u s2 H2. unfold net in H2. apply st_lift_Ok in H2 as [_ ->].
  assert (s' = s1) as ->.
  { destruct response; unfold net in Hrun; by apply st_lift_Ok in Hrun as [_ ->]. }
  split; [by rewrite app_nil_r|by rewrite Hs].
Qed.
Lemma rebuilt_earlier request record plan s s1 :
  (calls s ≤ calls s1)%nat → rebuilt request record plan s1 → rebuilt request record plan s.
Proof. intros Hle (n & current & n' & Hn & H). exists n, current, n'. split; [unfold calls in *; lia|done]. Qed.

(** How a run that sends a plan for files may have ended. *)
Definition ended request record plan s (contents : list bytes) (tail : bytes) : Prop :=
  cut_stream request (sp_files plan) contents tail ∨
  length contents = length (sp_files plan) ∧ rebuilt request record plan s ∧
  ∃ sent, sendable (complete_of (fr_request_id request) sent) ∧
    tail = wire (complete_of (fr_request_id request) sent).
Lemma ended_ends request record plan s contents tail :
  ended request record plan s contents tail → ends request (sp_files plan) contents tail.
Proof. intros [?|(? & _ & ?)]; [by left|by right]. Qed.

Lemma send_plan_wrote request record plan s s' :
  send_plan request record plan s = (Ok (), s') → sp_text plan = None →
  sendable (Msg_FetchHeader (plan_header request plan)) ∧
  Forall sendable (manifest_messages request plan) ∧
  ∃ contents tail,
    filled (fr_request_id request) s s' (take (length contents) (sp_files plan)) contents ∧
    wrote (wire (Msg_FetchHeader (plan_header request plan))
           ++ concat (map wire (manifest_messages request plan))
           ++ files_wire (fr_request_id request) (sp_files plan) contents ++ tail) s s' ∧
    ended request record plan s contents tail.
Proof.
  unfold send_plan. intros Hrun Htext. ok_in Hrun as u s1 H1. destruct u.
  apply manifest_wrote in H1 as (Hw1 & Hh & Hm). split_and!; [done..|].
  ok_in Hrun as u s2 H2. destruct u. apply admission_wrote in H2.
  pose proof (wrote_app _ _ _ _ _ Hw1 H2) as Hw2. rewrite app_nil_r in Hw2. rewrite Htext in Hrun.
  ok_in Hrun as same s3 H3. apply recheck_wrote in H3. destruct same.
  - destruct H3 as [Hw3 _]. pose proof (wrote_app _ _ _ _ _ Hw2 Hw3) as Hw. rewrite app_nil_r in Hw.
    apply send_files_wrote in Hrun as (contents & tail & Hf & Hw4 & Hend). exists contents, tail.
    pose proof (proj2 Hw) as Hcalls. split_and!.
    + by eapply filled_widen.
    + rewrite (app_assoc (wire _)). by eapply wrote_app.
    + destruct Hend as [?|(Hl & Hre & Hs & ->)]; [by left|right]. split_and!; [done| |by eexists].
      by eapply rebuilt_earlier.
  - destruct H3 as (tail & Hw3 & Hcut). apply st_ret_Ok in Hrun as [_ ->]. exists [], tail. split_and!.
    + constructor.
    + unfold files_wire. rewrite zip_with_nil_r. rewrite (app_assoc (wire _)). by eapply wrote_app.
    + left. apply Hcut.
Qed.

(** A run of the handler that ends without an error wrote one refusal, or sent a plan. *)
Definition served requester request s s' (b : bytes) : Prop :=
  ∃ record plan n n' s1 s2,
    (oss_get_offer_source (fr_offer_id request) (or_store (ss_services s))).1 = Ok (Some record) ∧
    requester ∈ src_announced_to record ∧
    (calls s ≤ n)%nat ∧ build_source_plan record (fr_request_id request) n = (Ok plan, n') ∧
    (calls s ≤ calls s1)%nat ∧ (calls s2 ≤ calls s')%nat ∧
    send_plan request record plan s1 = (Ok (), s2) ∧ wrote b s1 s2.

Lemma refusal_wrote request code counts detail s s' :
  send_refusal (S := S) request code counts detail s = (Ok (), s') →
  ∃ refusal, wrote (wire (Msg_FetchRefusal refusal)) s s' ∧ sendable (Msg_FetchRefusal refusal).
Proof.
  unfold send_refusal, send_refusal_with_counts. intros Hrun. ok_in Hrun as s0 s1 H1. injection H1 as <- <-.
  destruct (default _ counts) as [active most]. eexists. by eapply frame_wrote.
Qed.
Definition refused (b : bytes) : Prop :=
  ∃ refusal, sendable (Msg_FetchRefusal refusal) ∧ b = wire (Msg_FetchRefusal refusal).
(** A step that ends the run: it wrote a refusal. *)
Lemma refusal_ends request code counts detail s s' :
  send_refusal (S := S) request code counts detail s = (Ok (), s') → ∃ b, wrote b s s' ∧ refused b.
Proof. intros (refusal & Hw & Hs)%refusal_wrote. eexists. split; [exact Hw|]. by exists refusal. Qed.

Lemma authorize_wrote origin_device requester request s o s' :
  authorize (S := S) origin_device requester request s = (Ok o, s') →
  match o with
  | None => ∃ b, wrote b s s' ∧ refused b
  | Some record => wrote [] s s' ∧
      (oss_get_offer_source (fr_offer_id request) (or_store (ss_services s))).1 = Ok (Some record) ∧
      requester ∈ src_announced_to record
  end.
Proof.
  unfold authorize. cbv zeta. intros Hrun.
  assert (∀ code detail (s0 : Session (Origin S)), calls s0 = calls s → ss_conn s0 = ss_conn s →
    (send_refusal request code None detail;; mret None) s0 = (Ok o, s') →
    match o with
    | None => ∃ b, wrote b s s' ∧ refused b
    | Some record => wrote [] s s' ∧
        (oss_get_offer_source (fr_offer_id request) (or_store (ss_services s))).1 = Ok (Some record) ∧
        requester ∈ src_announced_to record
    end) as Href.
  { intros code detail s0 Hc Hconn Hr. ok_in Hr as u s1 H1. destruct u. injection Hr as <- <-.
    apply refusal_ends in H1 as (b & [Hout Hcalls] & Hb). exists b. split; [|done].
    unfold wrote, calls in *. by rewrite <- Hconn, <- Hc. }
  destruct (negb _); [by eapply Href|]. destruct (negb _); [by eapply Href|].
  ok_in Hrun as found s1 H1. apply st_map_err_Ok in H1. unfold Sender.on_store in H1. cbv zeta in H1.
  destruct (oss_get_offer_source _ _) as [r st] eqn:Hget. injection H1 as -> <-.
  destruct found as [record|]; [|eapply Href; [| |exact Hrun]; done].
  destruct (bool_decide (requester ∈ src_announced_to record)) eqn:Hann; [|eapply Href; [| |exact Hrun]; done].
  apply bool_decide_eq_true in Hann. cbn [negb] in Hrun.
  destruct (negb _); [eapply Href; [| |exact Hrun]; done|]. injection Hrun as <- <-.
  split; [split; [by rewrite app_nil_r|done]|done].
Qed.

Lemma acquire_wrote request s acquired s' :
  acquire (S := S) request s = (Ok acquired, s') →
  if acquired then wrote [] s s' else ∃ b, wrote b s s' ∧ refused b.
Proof.
  unfold acquire. intros Hrun. ok_in Hrun as s0 s0' H0. injection H0 as <- <-. cbv zeta in Hrun.
  destruct (or_closed _); [unfold net in Hrun; by apply st_lift_Ok in Hrun as [? _]|].
  destruct (or_available _ <=? 0).
  - ok_in Hrun as u s3 H3. destruct u. injection Hrun as <- <-.
    unfold send_refusal_with_counts in H3. destruct (active_counts _).
    apply frame_wrote in H3 as [Hw Hs]. eexists. split; [exact Hw|]. by eexists.
  - ok_in Hrun as u s3 H3. apply st_modify_Ok in H3 as ->. injection Hrun as <- <-.
    split; [by rewrite app_nil_r|done].
Qed.

Lemma send_plan_writes request record plan s s' :
  send_plan request record plan s = (Ok (), s') →
  sendable (Msg_FetchHeader (plan_header request plan)) ∧
  ∃ b, wrote (wire (Msg_FetchHeader (plan_header request plan)) ++ b) s s'.
Proof.
  intros Hrun. destruct (sp_text plan) as [text|] eqn:Htext.
  2: { apply send_plan_wrote in Hrun as (Hh & _ & contents & tail & _ & Hw & _); [by eauto|done]. }
  unfold send_plan in Hrun. rewrite Htext in Hrun. ok_in Hrun as u s1 H1. destruct u.
  apply manifest_wrote in H1 as (Hw1 & Hh & _). split; [done|].
  ok_in Hrun as u s2 H2. destruct u. apply admission_wrote in H2. ok_in Hrun as u s3 H3. destruct u. apply stream_text_wrote in H3 as [Hw3 _].
  unfold await_completed_receipt in Hrun. ok_in Hrun as receipt s4 H4.
  apply await_receipt_wrote in H4 as [Hw4 _]. unfold net in Hrun. apply st_lift_Ok in Hrun as [_ ->].
  eexists. eapply wrote_app in Hw4; [|exact Hw3].
  eapply wrote_app in Hw4; [|exact H2]. eapply wrote_app in Hw4; [|exact Hw1].
  rewrite <- !app_assoc in Hw4. exact Hw4.
Qed.

Lemma serve_wrote requester request record s0 s s' :
  serve_authorized (S := S) request record s = (Ok (), s') → wrote [] s0 s →
  (oss_get_offer_source (fr_offer_id request) (or_store (ss_services s0))).1 = Ok (Some record) →
  requester ∈ src_announced_to record →
  ∃ b, cn_out (ss_conn s') = cn_out (ss_conn s0) ++ b ∧ (refused b ∨ served requester request s0 s' b).
Proof.
  unfold serve_authorized. intros Hrun Hw0 Hget Hann. ok_in Hrun as acquired s2 H2. apply acquire_wrote in H2.
  destruct acquired; cbn [negb] in Hrun.
  2: { injection Hrun as <-. destruct H2 as (b & Hw & Hb). exists b.
       split; [apply (wrote_app _ _ _ _ _ Hw0 Hw)|by left]. }
  apply st_try_inv in Hrun as (built & s3 & Hbuild & Hrun).
  apply on_source_wrote in Hbuild as [Hw3 (n & Hbuild & Hn)];
    [|intros; apply forward_keeps, keeps_build].
  pose proof (wrote_app _ _ _ _ _ Hw0 H2) as Hw2. pose proof (wrote_app _ _ _ _ _ Hw2 Hw3) as [Hout Hcalls].
  cbn [app] in Hout. rewrite app_nil_r in Hout.
  assert (∀ code detail, (release;; send_refusal request code None detail) s3 = (Ok (), s') →
    ∃ b, cn_out (ss_conn s') = cn_out (ss_conn s0) ++ b ∧ (refused b ∨ served requester request s0 s' b)) as Href.
  { intros code detail Hr. ok_in Hr as u s4 H4. apply st_modify_Ok in H4 as ->.
    apply refusal_ends in Hr as (b & [Hout4 _] & Hb). exists b. split; [|by left].
    rewrite Hout4. cbn [ss_conn]. by rewrite Hout. }
  destruct built as [plan|[]]; [|by eapply Href..].
  unfold holding_permit in Hrun. destruct (send_plan request record plan s3) as [r s4] eqn:Hsend.
  injection Hrun as -> <-. apply send_plan_writes in Hsend as Hwrites. destruct Hwrites as (_ & b & Hb).
  eexists. split; [by rewrite <- Hout, <- (proj1 Hb)|right].
  exists record, plan, (calls s2), n, s3, s4. split_and!; try done; apply Hw2.
Qed.

Lemma handle_fetch_wrote origin_device requester request s s' :
  handle_fetch (S := S) origin_device requester request s = (Ok (), s') →
  ∃ b, cn_out (ss_conn s') = cn_out (ss_conn s) ++ b ∧ (refused b ∨ served requester request s s' b).
Proof.
  unfold handle_fetch. intros Hrun. ok_in Hrun as o s1 H1. apply authorize_wrote in H1.
  destruct o as [record|].
  - destruct H1 as (Hw1 & Hget & Hann). by eapply serve_wrote.
  - injection Hrun as <-. destruct H1 as (b & [Hout _] & Hb). exists b. split; [done|by left].
Qed.
End sending.

(** ** What the receiver read is what was sent *)

Section matching.
Context {views : Views} {sha : Sha256} {message_json : Json V2Message} {message_laws : JsonLaws V2Message}.

Lemma manifest_matches end_ end_sent last rest more : frame_of (Msg_ManifestEnd end_) last →
  sendable (Msg_ManifestEnd end_sent) →
  ∀ chunks sent stream, Forall (λ chunk, sendable (Msg_ManifestChunk chunk)) sent →
  carries_chunks chunks stream →
  stream ++ last ++ rest =
    concat (map (λ chunk, wire (Msg_ManifestChunk chunk)) sent) ++ wire (Msg_ManifestEnd end_sent) ++ more →
  chunks = sent ∧ rest = more.
Proof.
  intros Hlast Hend. induction chunks as [|chunk chunks IH]; intros [|first sent] stream Hsent Hcarry Heq;
    cbn [carries_chunks map concat] in *.
  - subst stream. by apply (frame_unique _ _ _ _ _ Hend Hlast) in Heq as [_ ->].
  - subst stream. apply Forall_cons in Hsent as [Hs _]. rewrite <- app_assoc in Heq.
    by apply (frame_unique _ _ _ _ _ Hs Hlast) in Heq as [? _].
  - destruct Hcarry as (b1 & b2 & -> & Hf & _). rewrite <- app_assoc in Heq.
    by apply (frame_unique _ _ _ _ _ Hend Hf) in Heq as [? _].
  - destruct Hcarry as (b1 & b2 & -> & Hf & Hrest). apply Forall_cons in Hsent as [Hs Hsent].
    rewrite <- !app_assoc in Heq.
    apply (frame_unique _ _ _ _ _ Hs Hf) in Heq as [[= ->] Heq].
    by apply IH in Heq as [-> ->].
Qed.

(** After an empty manifest the next frame is no part of a manifest. *)
Lemma no_manifest_frame request tail message frame rest :
  ends request [] [] tail → frame_of message frame → frame ++ rest = tail →
  match message with Msg_ManifestChunk _ | Msg_ManifestEnd _ => False | _ => True end.
Proof.
  intros Hends Hf Heq. destruct Hends as [[(file & Hl & _)|(code & n & b & Hs & ->)]|[_ (sent & Hs & ->)]];
    [done|..]; rewrite <- (app_nil_r (wire _)) in Heq;
    by apply (frame_unique _ _ _ _ _ Hs Hf) in Heq as [-> _].
Qed.
Lemma no_manifest_stream request tail chunks end_ b last rest :
  ends request [] [] tail → carries_chunks chunks b → frame_of (Msg_ManifestEnd end_) last →
  b ++ last ++ rest = tail → False.
Proof.
  intros Hends Hb Hlast Heq. destruct chunks as [|chunk chunks].
  - simpl in Hb. subst b. exact (no_manifest_frame _ _ _ _ _ Hends Hlast Heq).
  - destruct Hb as (b1 & b2 & -> & Hf & _). rewrite <- app_assoc in Heq.
    exact (no_manifest_frame _ _ _ _ _ Hends Hf Heq).
Qed.
Lemma refusal_no_header b header frame rest more :
  refused b → frame_of (Msg_FetchHeader header) frame → frame ++ rest ++ more = b → False.
Proof.
  intros (refusal & Hs & ->) Hf Heq. rewrite <- (app_nil_r (wire _)) in Heq.
  by apply (frame_unique _ _ _ _ _ Hs Hf) in Heq as [? _].
Qed.
End matching.

(** ** The delivery *)

Section delivery.
Context {order : ReadDirOrder} {order_laws : ReadDirOrderLaws}.
Context {hash : HashSetOrder} {hash_laws : HashSetOrderLaws}.
Context {ren : Renamore} {ren_laws : RenamoreLaws} {fs2 : Fs2} {fs2_laws : Fs2Laws}.
Context {iter : RedbIter} {uuid_text : UuidText} {uuid_plain : UuidTextPlain}.
Context {dbg : DebugText} {lower : Lowercase} {sha : Sha256}.
Context `{!Json OfferSourceRecord} `{!Json OfferCardRecord}.
Context `{!Json ActivationJournalEntry} `{!Json ClipboardCacheRecord}.
Context {message_json : Json V2Message} {message_laws : JsonLaws V2Message} {message_types : V2Typed}.
Context {entries_json : Json (list ManifestEntry)}.
Context {views : Views} (typed : lengths_typed) {S : Type} {store : OfferSourceStore S}.
Implicit Types (s : Session (Origin S)) (request : FetchRequest) (plan : SourcePlan).

(** What the receiver accepted of a plan for files. *)
Lemma plan_received request record plan n n' s1 s2 sent early rest more header rplan card activation :
  build_source_plan record (fr_request_id request) n = (Ok plan, n') →
  send_plan request record plan s1 = (Ok (), s2) → wrote sent s1 s2 →
  accepted activation card header rplan → manifest_ok header (card_descriptor card) rplan →
  descriptor_is_text (card_descriptor card) = false →
  followed_by (frame_of (Msg_FetchHeader header)) (carries_manifest rplan) early →
  early ++ rest ++ more = sent →
  header = plan_header request plan ∧ rp_entries rplan = sp_manifest plan ∧
  plan_ok (fr_request_id request) record plan ∧ sp_text plan = None ∧
  ∃ contents tail,
    filled (fr_request_id request) s1 s2 (take (length contents) (sp_files plan)) contents ∧
    ended request record plan s1 contents tail ∧
    rest ++ more = files_wire (fr_request_id request) (sp_files plan) contents ++ tail.
Proof.
  intros Hbuild Hsend Hw Hacc Hok Hfiles (f1 & m & -> & Hf1 & Hm) Heq. rewrite <- app_assoc in Heq.
  apply send_plan_writes in Hsend as Hwrites. destruct Hwrites as (Hh & after & Hout).
  assert (sent = wire (Msg_FetchHeader (plan_header request plan)) ++ after) as Hsent.
  { apply (app_inv_head (cn_out (ss_conn s1))). by rewrite <- (proj1 Hw), (proj1 Hout). }
  rewrite Hsent in Heq. apply (frame_unique _ _ _ _ _ Hh Hf1) in Heq as [Header Heq].
  injection Header as ->. clear Hh Hf1 Hout.
  assert (descriptor_is_text (sp_descriptor plan) = false) as Hnot.
  { rewrite <- Hfiles, <- (ac_descriptor _ _ _ _ Hacc). done. }
  pose proof (build_plan_walked _ _ _ _ _ Hbuild Hnot) as [Htext _].
  pose proof (build_source_plan_Ok typed _ _ _ _ _ Hbuild Htext) as Hp.
  apply send_plan_wrote in Hsend as (_ & Hms & contents & tail & Hfilled & Hout & Hend); [|done].
  assert (after = concat (map wire (manifest_messages request plan))
    ++ files_wire (fr_request_id request) (sp_files plan) contents ++ tail) as ->.
  { apply (app_inv_head (wire (Msg_FetchHeader (plan_header request plan)))). rewrite <- Hsent.
    apply (app_inv_head (cn_out (ss_conn s1))). by rewrite <- (proj1 Hw), (proj1 Hout). }
  clear Hsent Hw Hout Hfiles Hnot. destruct Hm as (chunks & Hentries & Hm).
  pose proof (mo_digest _ _ _ Hok) as Hdigest. unfold digest_ok, plan_header in Hdigest.
  destruct (pl_digest _ _ _ Hp) as (json & _ & Hsha). cbn [fh_manifest_sha256] in Hdigest.
  rewrite Hsha in Hdigest. destruct Hdigest as (json' & end_ & _ & _ & Hmend & _). rewrite Hmend in Hm.
  destruct Hm as (b & last & -> & Hb & Hlast). rewrite <- !app_assoc in Heq.
  destruct (pl_chunks _ _ _ Hp) as [[Hconcat _]%chunk_manifest_sound _].
  unfold manifest_messages, chunk_messages in Heq, Hms. rewrite map_app, concat_app, map_map in Heq.
  case_bool_decide as Hempty.
  - exfalso. rewrite Hempty in Hconcat. assert (sp_manifest_chunks plan = []) as Hnone.
    { destruct (pl_chunks _ _ _ Hp) as [Hc _]. rewrite Hempty in Hc. by injection Hc. }
    pose proof (plan_files_count _ _ _ Hp) as Hcount. rewrite Hempty in Hcount.
    assert (sp_files plan = []) as Hnofiles by (by destruct (sp_files plan); [|apply zlen_cons_ne in Hcount]).
    apply ended_ends in Hend. rewrite Hnone in Heq. rewrite Hnofiles in Heq, Hend, Hfilled.
    rewrite take_nil in Hfilled. inversion Hfilled; subst contents.
    exact (no_manifest_stream request tail _ _ _ _ _ Hend Hb Hlast Heq).
  - rewrite <- app_assoc in Heq. cbn [map concat] in Heq. rewrite app_nil_r in Heq.
    apply Forall_app in Hms as [Hms Hends]. apply Forall_cons in Hends as [Hends _].
    apply (manifest_matches _ _ _ _ _ Hlast Hends _ _ _ (proj1 (Forall_fmap _ _ _) Hms) Hb) in Heq as [-> Heq].
    split_and!; [done| |done..|by exists contents, tail]. by rewrite Hentries, <- Hconcat.
Qed.

(** Bytes that one opening of the file delivered between the calls [n] and [n']. *)
Definition read_at (n n' : nat) (path : PathBuf) (data : bytes) : Prop :=
  ∃ k source, (n ≤ k < n')%nat ∧ sv_open (view_at k) path = Ok source ∧ delivered n n' source 0 data.

(** The payload of an accepted plan is what was sent. *)
Lemma payload_received request record plan rplan activation kind root handles contents' contents tail
    s s1 s2 s' stream rest more :
  fa_request_id activation = fr_request_id request → rp_entries rplan = sp_manifest plan →
  Forall2 (λ e data, zlen data = me_byte_len e) (files_of (rp_entries rplan)) contents' →
  length handles = length (file_entries (rp_entries rplan)) →
  filled (fr_request_id request) s1 s2 (take (length contents) (sp_files plan)) contents →
  ended request record plan s1 contents tail →
  carries_payload (fa_request_id activation)
    (plan_with_staged (zip_with (staged_as root kind) (file_entries (rp_entries rplan)) handles) rplan)
    contents' stream →
  stream ++ rest ++ more = files_wire (fr_request_id request) (sp_files plan) contents ++ tail →
  Forall2 (file_below (source_path (src_source record)) []) (files_of (sp_manifest plan)) (sp_files plan) →
  (calls s ≤ calls s1)%nat → (calls s2 ≤ calls s')%nat →
  rebuilt request record plan s1 ∧
  Forall2 (λ e data, zlen data = me_byte_len e ∧ read_at (calls s) (calls s')
      (foldl join (source_path (src_source record)) (names_of (me_relative_path e))) data)
    (files_of (sp_manifest plan)) contents'.
Proof.
  intros Hid Hentries Hlens Hhandles Hfilled Hend (b1 & last & -> & Hfiles & Hlast) Heq Hbelow Hle Hle'.
  rewrite <- app_assoc in Heq. cbn [plan_with_staged rp_staged_files] in Hfiles.
  assert (length (zip_with (staged_as root kind) (file_entries (rp_entries rplan)) handles)
    = length contents') as Hlen.
  { rewrite length_zip_with_l by lia. rewrite <- (Forall2_length _ _ _ Hlens).
    rewrite <- file_entries_files. by rewrite length_fmap. }
  destruct (payload_matches _ request _ _ _ _ _ Hlast _ _ _ _ _ _ Hlen Hfilled
    (ended_ends _ _ _ _ _ _ Hend) Hfiles Heq) as (-> & Hall & _ & Hnot).
  rewrite Hall, firstn_all in Hfilled. split; [by destruct Hend as [?|(_ & ? & _)]|].
  rewrite Hentries in Hlens.
  assert (Forall2 (λ e data, read_at (calls s) (calls s')
      (foldl join (source_path (src_source record)) (names_of (me_relative_path e))) data)
    (files_of (sp_manifest plan)) contents) as Hread.
  { eapply Forall2_through; [|exact Hbelow|exact Hfilled].
    intros e f data (names & Hn & Hf) [_ (k & src & Hk & Hopen & Hdel) _ _].
    exists k, src. cbn in Hn. rewrite Hn, <- Hf. split_and!; [lia|lia|done|].
    intros content Hcontent. apply Hdel. intros j Hj. apply Hcontent. lia. }
  apply Forall2_same_length_lookup. split; [by eapply Forall2_length|]. intros i e data He Hd.
  split; [exact (Forall2_lookup_lr _ _ _ _ _ _ Hlens He Hd)|exact (Forall2_lookup_lr _ _ _ _ _ _ Hread He Hd)].
Qed.

Context (state_root : PathBuf) (fresh_activation : ActivationId) (fresh_offer : OfferId)
  (fresh_id : rstr) (activation : FetchActivation) (source : DeviceId).
Context (Hroot : Forall valid_name (components state_root)).
Context (Hmode : fa_mode activation = Mode_Save) (Hdest : destination_plain state_root activation).

(** C1: what was offered is what is saved.  Take any run of the sender's handler that ends
    without an error, and any run of a receiver in save mode none of whose reads is given up, on whatever
    network and disk, that reads no more than the bytes the sender wrote: if the receiver
    reports success, then the sender's store holds the offer and lists the device that asked,
    and it built a plan of the source twice, before and after sending the files, and found the
    same; the directory the user asked for holds, under one portable name that was free,
    exactly the tree of that plan; and each file of it contains what one opening of the file
    with the same relative path below the offered folder (or of the offered file) delivered
    during the transfer, in the length the plan says. *)
Theorem offered_tree_is_saved origin_device requester request s s' sent rx rx' :
  handle_fetch origin_device requester request s = (Ok (), s') →
  cn_out (ss_conn s') = cn_out (ss_conn s) ++ sent →
  disk_ready (staging_home state_root) (rx_disk rx) → gu_armed (rx_guard rx) = None →
  uninterrupted (rx_peer rx) → cn_in (pe_conn (rx_peer rx)) `prefix_of` sent →
  receive_one state_root fresh_activation fresh_offer fresh_id source activation rx = (Ok (), rx') →
  ∃ record plan n n' directory name contents,
    (oss_get_offer_source (fr_offer_id request) (or_store (ss_services s))).1 = Ok (Some record) ∧
    requester ∈ src_announced_to record ∧
    (calls s ≤ n)%nat ∧ build_source_plan record (fr_request_id request) n = (Ok plan, n') ∧
    rebuilt request record plan s ∧
    asked activation directory ∧ portable_component name ∧
    dk_nodes (rx_disk rx) !! (components directory ++ [name]) = None ∧
    holds_tree (rx_disk rx') (components directory ++ [name]) (header_kind (plan_header request plan))
      (sp_manifest plan) contents ∧
    Forall2 (λ e data, zlen data = me_byte_len e ∧ read_at (calls s) (calls s')
        (foldl join (source_path (src_source record)) (names_of (me_relative_path e))) data)
      (files_of (sp_manifest plan)) contents.
Proof.
  intros Hsend Hsent Hready Hguard Hsig [more Hprefix] Hrecv.
  apply (receive_one_saves state_root fresh_activation fresh_offer fresh_id activation source Hroot Hmode Hdest)
    in Hrecv as (_ & card & header & rplan & directory & early & rest & _ & Hacc & Hok & Htext & Hasked
      & Hin & Hearly & name & contents & handles & stream & after & Hname & Hfree & Htree & Hlens & ->
      & Hcarry & Hhandles); [|done..].
  apply handle_fetch_wrote in Hsend as (b & Hout & Hb). rewrite Hout in Hsent.
  apply app_inv_head in Hsent as ->. rewrite Hin in Hprefix.
  destruct Hb as [Hrefused|(record & plan & n & n' & s1 & s2 & Hget & Hann & Hn & Hbuild & Hle & Hle' & Hplan & Hw)].
  { destruct Hearly as (f1 & m & -> & Hf1 & _). exfalso. rewrite <- !app_assoc in Hprefix.
    exact (refusal_no_header _ _ _ _ _ Hrefused Hf1 (eq_sym Hprefix)). }
  rewrite <- app_assoc in Hprefix.
  destruct (plan_received request record plan n n' s1 s2 sent early (stream ++ after) more header rplan card
    activation Hbuild Hplan Hw Hacc Hok Htext Hearly (eq_sym Hprefix))
    as (-> & Hentries & Hp & _ & sent_contents & tail & Hfilled & Hend & Heq).
  assert (descriptor_is_text (sp_descriptor plan) = false) as Hnot
    by (rewrite (pl_descriptor _ _ _ Hp); apply (pl_not_text _ _ _ Hp)).
  destruct (build_plan_walked _ _ _ _ _ Hbuild Hnot) as [_ Hbelow].
  rewrite <- app_assoc in Heq. pose proof (ac_request _ _ _ _ Hacc) as Hid.
  destruct (payload_received request record plan rplan activation _ _ handles contents sent_contents tail
    s s1 s2 s' stream after more (eq_sym Hid) Hentries Hlens Hhandles Hfilled Hend Hcarry Heq Hbelow Hle Hle')
    as [Hre Hread].
  exists record, plan, n, n', directory, name, contents. split_and!; try done.
  - by eapply rebuilt_earlier.
  - by rewrite <- Hentries.
Qed.
End delivery.
