(* ===== verification/ReceiverEffect.v ===== *)
(** * The effect of a fetch

    What [FetchReceiver::receive_one] does besides the disk: the clipboard is called at most
    once, with the journal saying so, and a success means that the effect was applied. *)

From S2P Require Import Prelude RustStr StdIo Offer Records Names Protocol OfferStore Ledger Activation Filesystem Announce Connection Manifest Transfer Receiver ReceiverFrame ReceiverSafety ReceiverResidue.

(** ** The clipboard *)

Section clipboard.
Context {order : ReadDirOrder} {hash : HashSetOrder} {ren : Renamore} {fs2 : Fs2}.
Context {iter : RedbIter} {uuid_text : UuidText} {dbg : DebugText} {lower : Lowercase} {sha : Sha256}.
Context `{!Json OfferSourceRecord} `{!Json OfferCardRecord}.
Context {journal_json : Json ActivationJournalEntry} {journal_laws : JsonLaws ActivationJournalEntry}.
Context `{!Json ClipboardCacheRecord} `{!Json V2Message} `{!Json (list ManifestEntry)}.
Context (state_root : PathBuf) (fresh_activation : ActivationId) (fresh_offer : OfferId)
  (fresh_id : rstr) (activation : FetchActivation) (source : DeviceId).
Notation id := (fa_request_id activation).
Notation keeps_out := (keeps off_clipboard).

Lemma out_disarm : keeps_out guard_disarm.
Proof. by intros s. Qed.
Lemma out_keep : keeps_out guard_keep.
Proof. by intros s. Qed.
Lemma out_arm root i : keeps_out (guard_arm root i).
Proof. by intros s. Qed.
Lemma out_set_plan {E} p : keeps_out (st_modify (set_plan p) : RxM E ()).
Proof. by intros s. Qed.
Lemma out_record code files count detail :
  keeps_out (record_attempt_with_counts activation code files count detail).
Proof. unfold record_attempt_with_counts. keeps_tac. Qed.
Lemma out_receipt code files count detail :
  keeps_out (send_receipt code files count detail activation).
Proof. apply outside_sub, keeps_receipt; apply _. Qed.
Lemma out_admission code entries count detail :
  keeps_out (write_admission id code entries count detail).
Proof. apply outside_sub, keeps_admission; apply _. Qed.
Lemma out_cleanup path : keeps_out (cleanup_activation path).
Proof. apply between_cleanup, _. Qed.
Lemma out_cleanup_state path i : keeps_out (cleanup_activation_state path i).
Proof.
  unfold cleanup_activation_state. apply keeps_bind; [apply _|apply keeps_map_stop, out_cleanup|].
  intros _. apply outside_owned, _.
Qed.
#[local] Hint Resolve out_disarm out_keep out_arm out_set_plan out_record out_receipt out_admission
  out_cleanup out_cleanup_state : keeps.
Lemma out_terminal {T} code files count detail :
  keeps_out (finish_terminal (T := T) code files count detail activation).
Proof. unfold finish_terminal. keeps_tac. Qed.
Lemma out_refuse {T} code detail : keeps_out (refuse_admission (T := T) activation code detail).
Proof. unfold refuse_admission. keeps_tac. Qed.
Lemma out_attempt code detail : keeps_out (record_attempt activation code detail).
Proof. unfold record_attempt. keeps_tac. Qed.
#[local] Hint Resolve out_terminal out_refuse out_attempt : keeps.
Lemma out_uncertain {T} files count detail :
  keeps_out (finish_uncertain (T := T) activation files count detail).
Proof. unfold finish_uncertain, block_cleanup. keeps_tac. Qed.
#[local] Hint Resolve out_uncertain : keeps.
Lemma out_uncertain_from keep detail : keeps_out (uncertain_from activation keep detail).
Proof. unfold uncertain_from, block_cleanup. keeps_tac. Qed.
Lemma out_abandon failed : keeps_out (abandon state_root activation failed).
Proof. unfold abandon, block_cleanup. keeps_tac. Qed.
#[local] Hint Resolve out_uncertain_from out_abandon : keeps.
Lemma out_settle : keeps_out (settle state_root activation).
Proof. unfold settle. keeps_tac. Qed.
Lemma out_cancel files count : keeps_out (cancel_between state_root activation files count).
Proof. unfold cancel_between. keeps_tac. Qed.
Lemma out_failure failure : keeps_out (conclude_failure state_root activation failure).
Proof. unfold conclude_failure, report_failure. keeps_tac. Qed.
Lemma out_verified descriptor destination :
  keeps_out (publish_verified state_root fresh_id activation descriptor destination).
Proof.
  unfold publish_verified, report_publication.
  apply keeps_bind; [apply _|keeps_tac|intros _].
  apply keeps_bind; [apply _|apply keeps_try_stop, between_publish, _|intros outcome]. keeps_tac.
Qed.
Lemma out_stage : keeps_out (stage state_root activation).
Proof.
  unfold stage. apply keeps_bind; [apply _|keeps_tac|intros plan]. cbv zeta.
  apply keeps_bind; [apply _|keeps_tac|intros _]. apply keeps_bind; [apply _|keeps_tac|intros _].
  apply keeps_bind; [apply _|apply keeps_try_stop, between_prepare, _|intros outcome]. keeps_tac.
Qed.
Lemma out_guard_drop s : off_clipboard s (guard_drop s).
Proof.
  unfold guard_drop. destruct (_ || _); [reflexivity|].
  destruct (gu_armed _) as [[p i]|]; [|reflexivity].
  pose proof (outside_disk off_clipboard (remove_owned_tree p) s) as H1.
  destruct (on_disk _ s) as [r1 s1].
  pose proof (outside_store off_clipboard (remove_activation_journal i) s1) as H2.
  destruct (on_store _ s1) as [r2 s2].
  etrans; [exact H1|]. etrans; [exact H2|]. by destruct (_ || _).
Qed.
Lemma out_end s : off_clipboard s (end_of_scope s).
Proof.
  unfold end_of_scope. etrans; [|apply out_guard_drop]. unfold drop_permit. by destruct (rx_permit s).
Qed.
Lemma out_admit descriptor : keeps_out (admit_fetch state_root activation descriptor).
Proof. unfold admit_fetch, prepare_destination. keeps_tac. Qed.
Lemma out_chunks tries header index : keeps_out (read_chunks tries header index).
Proof.
  revert index. induction tries as [|tries IH]; intros index; cbn [read_chunks];
    unfold manifest_message; keeps_tac.
Qed.
#[local] Hint Resolve out_chunks : keeps.
Lemma out_read_manifest header : keeps_out (read_manifest header).
Proof. unfold read_manifest, manifest_message. keeps_tac. Qed.
Lemma out_read_header card : keeps_out (read_header activation card).
Proof. unfold read_header. keeps_tac. Qed.
#[local] Hint Resolve out_read_manifest out_read_header : keeps.
Lemma out_manifest card header : keeps_out (receive_manifest activation card header).
Proof. unfold receive_manifest. keeps_tac. Qed.
Lemma out_header card : keeps_out (receive_header activation card).
Proof. unfold receive_header. keeps_tac. Qed.
Lemma out_check : keeps_out (check_activation fresh_activation fresh_offer source activation).
Proof. unfold check_activation. keeps_tac. Qed.
#[local] Hint Resolve out_settle out_cancel out_failure out_verified out_stage out_admit
  out_manifest out_header out_check : keeps.

(** *** The side effect *)

(** The row of the activation says that the clipboard is being written. *)
Definition applying (w : World Disk) : Prop := ∃ e,
  journal_of (w_db w) !! journal_key id = Some e ∧ je_state e = State_ApplyingClipboard.
Definition called (s s' : Rx) : Prop := ∃ call w,
  cb_calls (rx_clipboard s') = cb_calls (rx_clipboard s) ++ [(call, w)] ∧
  fa_mode activation = Mode_Clipboard ∧ applying w.

Lemma mark_Ok s u s' :
  mark_clipboard_application activation s = (Ok u, s') →
  applying (rx_world s') ∧ rx_clipboard s' = rx_clipboard s.
Proof.
  intros Hrun. apply st_map_err_Ok in Hrun.
  pose proof (outside_store off_clipboard (update_activation_state id State_ApplyingClipboard) s) as Hc.
  rewrite Hrun in Hc. unfold on_store in Hrun.
  destruct (update_activation_state _ _ _) as [[u'|e] w] eqn:Hup; [|done]. injection Hrun as <- <-.
  split; [|exact Hc].
  apply update_activation_state_Ok in Hup as (e & _ & Hj).
  exists (set_state State_ApplyingClipboard e). split; [|done].
  change (rx_world (set_world w s)) with w. rewrite Hj. apply lookup_insert_eq.
Qed.

Lemma call_run call s r s' :
  call_clipboard call s = (r, s') →
  cb_calls (rx_clipboard s') = cb_calls (rx_clipboard s) ++ [(call, rx_world s)].
Proof. unfold call_clipboard. destruct (cb_outcomes _) as [|[|] ?]; by intros [= _ <-]. Qed.

(** A call, and then nothing more of the clipboard. *)
Lemma call_then {E T} call (rest : result ClipboardError () → RxM E T) s r s' :
  fa_mode activation = Mode_Clipboard → applying (rx_world s) →
  (∀ o, keeps_out (rest o)) → (try_stop (call_clipboard call) ≫= rest) s = (r, s') → called s s'.
Proof.
  intros Hmode Happ Hrest Hrun.
  step_in Hrun as o s1 H1.
  - exfalso. unfold try_stop in H1. destruct (call_clipboard call s) as [[x|[e'| |]] s2] eqn:Hc;
      try discriminate H1; apply observed_clipboard in Hc as [? ?]; done.
  - assert (∃ r, call_clipboard call s = (r, s1)) as [r1 Hc].
    { unfold try_stop in H1. destruct (call_clipboard call s) as [[x|[| |]] s2]; simplify_eq; eauto. }
    apply call_run in Hc. exists call, (rx_world s). split; [|done].
    specialize (Hrest o s1). rewrite Hrun in Hrest. unfold off_clipboard, same_on in Hrest.
    simpl in Hrest. by rewrite Hrest.
Qed.

Definition called_or_not {T} (s : Rx) (r : result (Stop SideEffectFailure) T) (s' : Rx) : Prop :=
  called s s' ∨ (rx_clipboard s' = rx_clipboard s ∧ is_ok r = false).

(** Marking comes first; only if it is recorded is the clipboard called. *)
Lemma mark_then {T} (rest : () → RxM SideEffectFailure T) s r s' :
  (∀ s1 s2, rx_clipboard s1 = rx_clipboard s → applying (rx_world s1) →
     rest () s1 = (r, s2) → called s1 s2 ∨ (rx_clipboard s2 = rx_clipboard s1 ∧ is_ok r = false)) →
  (mark_clipboard_application activation ≫= rest) s = (r, s') → called_or_not s r s'.
Proof.
  intros Hrest Hrun. step_in Hrun as u s1 H1.
  - right. split; [|done].
    pose proof (keeps_map_stop off_clipboard terminal_owned _
      (outside_store off_clipboard (update_activation_state id State_ApplyingClipboard)) s) as Hc.
    unfold mark_clipboard_application in H1. by rewrite H1 in Hc.
  - destruct u. apply mark_Ok in H1 as [Happ Hc]. apply Hrest in Hrun; [|done..].
    destruct Hrun as [(call' & w & Hcalls & Hm & Ha)|[Hs ?]]; [left|right; split; [congruence|done]].
    exists call', w. by rewrite <- Hc.
Qed.

Lemma apply_text_calls text s r s' :
  fa_mode activation = Mode_Clipboard → apply_text activation text s = (r, s') → called_or_not s r s'.
Proof.
  intros Hmode Hrun. unfold apply_text in Hrun.
  step_in Hrun as t s1 H1; injection H1 as H1 <-; [by right|].
  eapply mark_then; [|exact Hrun]. clear Hrun.
  intros s2 s3 Hc Happ Hrun. left. eapply call_then; [done..| |exact Hrun].
  intros o. cbv beta. keeps_tac.
Qed.

Lemma apply_files_calls path s r s' :
  fa_mode activation = Mode_Clipboard → apply_files activation path s = (r, s') → called_or_not s r s'.
Proof.
  intros Hmode Hrun. unfold apply_files in Hrun.
  eapply mark_then; [|exact Hrun]. clear Hrun.
  intros s1 s2 _ Happ Hrun. cbv zeta in Hrun.
  set (candidate := mkClipboardCacheRecord _ _ _) in Hrun.
  pose proof (keeps_try_stop off_clipboard (E' := SideEffectFailure) _
    (outside_store off_clipboard (set_clipboard_cache candidate)) s1) as Hc.
  pose proof (journal_set_cache candidate (rx_world s1)) as Hj.
  step_in Hrun as o s3 H3; rewrite H3 in Hc; [by right|].
  destruct o as [u|error].
  - apply try_stop_Ok in H3. unfold on_store in H3.
    destruct (set_clipboard_cache candidate (rx_world s1)) as [[u'|e] w] eqn:Hset; [|done].
    injection H3 as _ <-. unfold same_on in Hj. simpl in Hj.
    left. eapply call_then in Hrun; [|done| |].
    + destruct Hrun as (call' & w' & Hcalls & ?). exists call', w'. by rewrite Hcalls.
    + destruct Happ as (e & He & Hst). exists e. split; [|done].
      change (journal_of (w_db w) !! journal_key id = Some e). unfold journal_of in *. by rewrite Hj.
    + intros o. cbv beta. unfold undo, block_cleanup. keeps_tac.
  - right. assert (keeps_out (cleanup ← try_stop (on_disk (remove_published_cache_object path));
      detail ← undo (store_error_to_string error) (str "; candidate cleanup failed: ")
                 (map_err io_message cleanup);
      (fail (SE_Terminal (FetchServiceOwned detail)) : RxM SideEffectFailure ()))) as Hk.
    { unfold undo, block_cleanup. keeps_tac. }
    specialize (Hk s3). rewrite Hrun in Hk. split.
    + transitivity (rx_clipboard s3); [exact Hk|exact Hc].
    + destruct r as [u|e]; [|done]. inv_st.
      match goal with H : fail _ _ = (Ok _, _) |- _ => discriminate H end.
Qed.

Lemma side_effect_calls descriptor text published s r s' :
  apply_side_effect activation descriptor text published s = (r, s') →
  called s s' ∨
  (rx_clipboard s' = rx_clipboard s ∧ (r = Ok () → fa_mode activation = Mode_Save)).
Proof.
  unfold apply_side_effect. intros Hrun.
  destruct (descriptor_is_text descriptor), (fa_mode activation) eqn:Hmode, published as [path|];
    try (injection Hrun as <- <-; by right);
    first [apply apply_files_calls in Hrun as [?|[? Hr]] | apply apply_text_calls in Hrun as [?|[? Hr]]];
    try done; try (by left); right; (split; [done|]; by intros ->).
Qed.

(** *** The whole run *)

Definition once {E T} (s : Rx) (r : result E T) (s' : Rx) : Prop :=
  called s s' ∨
  (rx_clipboard s' = rx_clipboard s ∧ (is_ok r = true → fa_mode activation = Mode_Save)).
Lemma once_before {E T} s s1 (r : result E T) s' : off_clipboard s s1 → once s1 r s' → once s r s'.
Proof.
  unfold off_clipboard, same_on. intros Hc [(call & w & Hcalls & ?)|[Hs ?]].
  - left. exists call, w. by rewrite <- Hc.
  - right. split; [congruence|done].
Qed.
Lemma once_bind_before {E T U} (m : RxM E T) (f : T → RxM E U) s r s' :
  keeps_out m → (∀ x s1 r s', f x s1 = (r, s') → once s1 r s') → (m ≫= f) s = (r, s') → once s r s'.
Proof.
  intros Hm Hf Hrun. specialize (Hm s). step_in Hrun as x s1 H1; rewrite H1 in Hm; simpl in Hm.
  - right. by split.
  - eapply once_before; [exact Hm|by eapply Hf].
Qed.
Lemma once_bind_after {E T U} (m : RxM E T) (f : T → RxM E U) s r s' :
  (∀ r s', m s = (r, s') → once s r s') → (∀ x, keeps_out (f x)) → (m ≫= f) s = (r, s') → once s r s'.
Proof.
  intros Hm Hf Hrun. step_in Hrun as x s1 H1; [by apply Hm in H1|].
  specialize (Hf x s1). rewrite Hrun in Hf. unfold off_clipboard, same_on in Hf. simpl in Hf.
  destruct (Hm _ _ H1) as [(call & w & Hcalls & ?)|[Hs Hmode]].
  - left. exists call, w. by rewrite Hf.
  - right. split; [congruence|]. intros _. by apply Hmode.
Qed.
Lemma once_out {E T} (m : RxM E T) s r s' :
  keeps_out m → m s = (r, s') → is_ok r = false → once s r s'.
Proof. intros Hm Hrun Hr. specialize (Hm s). rewrite Hrun in Hm. right. by rewrite Hr. Qed.

Lemma uncertain_not_Ok {T} files count detail s (x : T) s' :
  finish_uncertain activation files count detail s ≠ (Ok x, s').
Proof.
  unfold finish_uncertain. intros Hrun. ok_in Hrun as o s1 H1. destruct o as [u|error].
  - ok_in Hrun as o2 s2 H2. destruct o2 as [u2|error].
    + ok_in Hrun as u3 s3 H3. ok_in Hrun as text s4 H4. by eapply terminal_not_Ok.
    + by ok_in Hrun as u3 s3 H3.
  - by ok_in Hrun as u3 s3 H3.
Qed.

Lemma apply_published_once descriptor published s r s' :
  apply_published state_root activation descriptor published s = (r, s') → once s r s'.
Proof.
  unfold apply_published. apply once_bind_before; [by intros s0|]. intros plan s1 r1 s2 Hrun.
  cbv zeta in Hrun.
  destruct (apply_side_effect activation descriptor (rp_text plan) published s1) as [o s3] eqn:He.
  pose proof (side_effect_calls _ _ _ _ _ _ He) as Hcalls.
  assert (∀ (m : M ()), keeps_out m → m s3 = (r1, s2) →
    (called s1 s3 ∨ (rx_clipboard s3 = rx_clipboard s1 ∧ is_ok r1 = false)) → once s1 r1 s2) as Hthen.
  { intros m Hm Hr Hc. specialize (Hm s3). rewrite Hr in Hm. unfold off_clipboard, same_on in Hm.
    simpl in Hm. destruct Hc as [(call & w & Hcl & ?)|[Hs Ho]].
    - left. exists call, w. by rewrite Hm.
    - right. split; [congruence|]. by rewrite Ho. }
  destruct o as [u|stop].
  - erewrite st_bind_run in Hrun; [|unfold try_stop; by rewrite He].
    injection Hrun as <- <-. destruct Hcalls as [?|[? Hm]]; [by left|right]. split; [done|].
    intros _. apply Hm. by destruct u.
  - pose proof (observed_side_effect _ _ _ _ _ _ _ He) as [e ->].
    erewrite st_bind_run in Hrun; [|unfold try_stop; by rewrite He]. cbv beta iota in Hrun.
    assert (∀ (m : M ()), m s3 = (r1, s2) → (∀ x s', m s3 ≠ (Ok x, s')) → is_ok r1 = false) as Hno.
    { intros m Hm Hne. destruct r1 as [x|]; [|done]. by apply Hne in Hm. }
    destruct e as [error|error]; eapply Hthen; try exact Hrun.
    + unfold report_side_effect. keeps_tac.
    + destruct Hcalls as [?|[? _]]; [by left|right]. split; [done|]. eapply Hno; [exact Hrun|].
      intros x s5 Hr. ok_in Hr as u s6 H6. by eapply report_side_effect_not_Ok.
    + keeps_tac.
    + destruct Hcalls as [?|[? _]]; [by left|right]. split; [done|]. eapply Hno; [exact Hrun|].
      intros x s5 Hr. ok_in Hr as u s6 H6. ok_in Hr as u7 s7 H7. by eapply uncertain_not_Ok.
Qed.

Lemma conclude_once descriptor destination s r s' :
  conclude state_root fresh_id activation descriptor destination s = (r, s') → once s r s'.
Proof.
  unfold conclude. apply once_bind_before; [by intros s0|]. intros plan s1 r1 s1'.
  apply once_bind_before; [apply out_cancel|]. intros _ s2 r2 s2'.
  apply once_bind_before; [apply out_verified|]. intros published s3 r3 s3'.
  apply once_bind_before; [apply out_keep|]. intros _ s4 r4 s4'.
  apply once_bind_after; [intros r5 s5; apply apply_published_once|]. intros _. apply out_settle.
Qed.

Lemma admitted_once descriptor destination s r s' :
  receive_admitted state_root fresh_id activation descriptor destination s = (r, s') → once s r s'.
Proof.
  unfold receive_admitted. apply once_bind_before; [apply out_stage|]. intros _ s1 r1 s1'.
  apply once_bind_before; [by intros s0|]. intros plan s2 r2 s2'.
  apply once_bind_before; [apply out_admission|]. intros _ s3 r3 s3'.
  apply once_bind_before; [apply outside_owned, _|]. intros _ s4 r4 s4'.
  apply once_bind_before; [apply out_cancel|]. intros _ s5 r5 s5'.
  apply once_bind_before; [apply keeps_try_stop, between_payload, _|]. intros o s6 r6 s6' Hrun.
  destruct o as [u|failure]; [by eapply conclude_once|].
  eapply once_out; [apply out_failure|exact Hrun|].
  unfold conclude_failure in Hrun. destruct r6 as [x|]; [exfalso|done].
  ok_in Hrun as u s7 H7. unfold report_failure in Hrun.
  destruct failure; cbv zeta in Hrun; inv_st;
    try match goal with H : fail _ _ = (Ok _, _) |- _ => discriminate H end.
  by eapply terminal_not_Ok.
Qed.

(** C12: a fetch calls the clipboard at most once, only in clipboard mode and only when its
    journal row says that it is applying the side effect; a success in clipboard mode has
    called it. *)
Theorem clipboard_called_once s r s' :
  receive_one state_root fresh_activation fresh_offer fresh_id source activation s = (r, s') →
  once s r s'.
Proof.
  intros Hrun. unfold receive_one in Hrun.
  destruct (receive_body _ _ _ _ _ _ s) as [r1 s1] eqn:Hbody. injection Hrun as <- <-.
  assert (once s r1 s1) as Honce.
  { revert Hbody. unfold receive_body.
    apply once_bind_before; [apply out_check|]. intros card s2 r2 s2'.
    apply once_bind_before; [apply out_header|]. intros header s3 r3 s3'.
    apply once_bind_before; [apply out_manifest|]. intros _ s4 r4 s4'.
    apply once_bind_before; [apply out_admit|]. intros destination s5 r5 s5'.
    apply admitted_once. }
  pose proof (out_end s1) as Hend. unfold off_clipboard, same_on in Hend.
  destruct Honce as [(call & w & Hcl & ?)|[Hs ?]].
  - left. exists call, w. by rewrite Hend.
  - right. split; [congruence|done].
Qed.
End clipboard.
