(* ===== verification/ReceiverSamples.v ===== *)
(** * The receiver on concrete inputs

    Concrete functions for every interface of the receiver, which satisfy its laws, and two
    complete fetches: a text for the clipboard, a file and a folder to be saved. *)

From S2P Require Import Prelude RustStr StdIo Offer Records Names Protocol OfferStore Ledger Activation Filesystem Announce Connection Manifest Transfer Receiver ReceiverFrame ReceiverContent ReceiverSafety ReceiverResidue ReceiverTree ReceiverSave SavedTree ReceiverEffect.
From Stdlib Require Import Strings.Byte.

(** ** Interfaces *)

Module ReceiverSample.
Import StoreSample ManifestSample.

Definition plain_uuid : UuidText := λ n, [97; 2 * n].
#[export] Existing Instance plain_uuid.
#[export] Instance plain_uuid_plain : UuidTextPlain.
Proof.
  intros n. unfold uuid_to_string, plain_uuid.
  split_and!; [done..|]. rewrite !not_elem_of_cons, elem_of_nil. split_and!; [done|lia|tauto].
Qed.
Definition listed : ReadDirOrder := λ names, names.
#[export] Existing Instance listed.
#[export] Instance listed_laws : ReadDirOrderLaws.
Proof. by intros names. Qed.
Definition in_order : HashSetOrder := λ paths, paths.
#[export] Existing Instance in_order.
#[export] Instance in_order_laws : HashSetOrderLaws.
Proof. by intros paths. Qed.
Definition quoted : DebugText := λ s, [34] ++ s ++ [34].
#[export] Existing Instances quoted sample_iter sample_iter_laws ascii_lowercase sample_sha256.

(** [posix_fallocate] that always succeeds. *)
Definition sample_allocate : Fs2 := λ h len d,
  match dk_inodes d !! hd_inode h with
  | Some content =>
      (Ok (), set_inode (hd_inode h)
                (content ++ replicate (Z.to_nat len - length content) Byte.x00) d)
  | None => (Err os_not_found, d)
  end.
#[export] Existing Instance sample_allocate.
#[export] Instance sample_allocate_laws : Fs2Laws.
Proof.
  split.
  - intros h len d r d'. unfold fs2_allocate, sample_allocate.
    destruct (dk_inodes d !! hd_inode h) as [content|] eqn:Hi; intros [= _ <-]; [|done].
    cbn [dk_nodes dk_inodes set_inode]. split; [done|]. split.
    + rewrite dom_insert_L. apply elem_of_dom_2 in Hi. set_solver.
    + intros i Hne. by rewrite lookup_insert_ne.
  - intros h len content d d'. unfold fs2_allocate, sample_allocate.
    intros Hrun Hi. rewrite Hi in Hrun. injection Hrun as <-. apply lookup_insert_eq.
Qed.

(** [renameat2] with [RENAME_NOREPLACE]. *)
Definition relocate (p q : place) (nodes : gmap place Node) : gmap place Node :=
  list_to_map (omap (λ '(k, n), if decide (p `prefix_of` k) then Some (q ++ drop (length p) k, n)
                                else None) (map_to_list nodes))
  ∪ filter (λ '(k, _), ¬ p `prefix_of` k ∧ ¬ q `prefix_of` k) nodes.
Definition sample_rename : Renamore := λ original target d,
  match lookup_path false original d, lookup_path false target d with
  | Ok p, Ok q =>
      if decide (p ≠ [] ∧ is_Some (dk_nodes d !! p) ∧ node_at (dk_nodes d) q = None ∧
                 ¬ p `prefix_of` q)
      then (Ok (), set_nodes (relocate p q (dk_nodes d)) d)
      else (Err os_exists, d)
  | _, _ => (Err os_not_found, d)
  end.
#[export] Existing Instance sample_rename.

Lemma relocated_relocate p q nodes : relocated p q nodes (relocate p q nodes).
Proof.
  intros k. unfold relocate.
  set (l := omap _ _).
  assert (∀ k n, (k, n) ∈ l ↔ ∃ r, k = q ++ r ∧ nodes !! (p ++ r) = Some n) as Hl.
  { intros k' n. unfold l. rewrite list_elem_of_omap. split.
    - intros ([k0 n0] & Hin & Hk). case_decide as Hp; [|done]. injection Hk as <- <-.
      destruct Hp as [r ->]. exists r. rewrite drop_app_length. split; [done|].
      by apply elem_of_map_to_list in Hin.
    - intros (r & -> & Hn). exists (p ++ r, n). rewrite elem_of_map_to_list. split; [done|].
      rewrite decide_True by (by eexists). by rewrite drop_app_length. }
  assert (∀ k, (list_to_map l : gmap place Node) !! k =
    if decide (q `prefix_of` k) then nodes !! (p ++ drop (length q) k) else None) as Hmap.
  { intros k'. destruct (decide (q `prefix_of` k')) as [[r ->]|Hno].
    - rewrite drop_app_length. destruct (nodes !! (p ++ r)) as [n|] eqn:Hn.
      + apply elem_of_list_to_map_1'; [|apply Hl; by exists r]. cbn [fst snd].
        intros n' (r' & Heq & Hn')%Hl. apply app_inv_head in Heq as <-. congruence.
      + apply not_elem_of_list_to_map_1. intros ([k0 n0] & Hk & Hin)%list_elem_of_fmap.
        simpl in Hk. subst k0. apply Hl in Hin as (r' & Heq & Hn').
        apply app_inv_head in Heq as <-. congruence.
    - apply not_elem_of_list_to_map_1. intros ([k0 n0] & Hk & Hin)%list_elem_of_fmap.
      simpl in Hk. subst k0. apply Hl in Hin as (r' & -> & _). apply Hno. by eexists. }
  destruct (decide (q `prefix_of` k)) as [Hq|Hq].
  - destruct (nodes !! (p ++ drop (length q) k)) as [n|] eqn:Hn.
    + apply lookup_union_Some_l. rewrite Hmap. by rewrite decide_True.
    + apply lookup_union_None. rewrite Hmap, decide_True by done. split; [done|].
      apply map_lookup_filter_None. right. intros x _. tauto.
  - rewrite lookup_union_r by (rewrite Hmap; by rewrite decide_False).
    case_decide as Hp.
    + apply map_lookup_filter_None. right. intros x _. tauto.
    + destruct (nodes !! k) as [n|] eqn:Hn.
      * by apply map_lookup_filter_Some.
      * apply map_lookup_filter_None. by left.
Qed.
#[export] Instance sample_rename_laws : RenamoreLaws.
Proof.
  split.
  - intros original target d d'. unfold renamore_rename_exclusive, sample_rename.
    destruct (lookup_path false original d) as [p|] eqn:Hp; [|done].
    destruct (lookup_path false target d) as [q|] eqn:Hq; [|done].
    case_decide as Hok; [|done]. destruct Hok as (? & ? & ? & ?). intros [= <-].
    exists p, q. split_and!; try done. apply relocated_relocate.
  - intros original target d e d'. unfold renamore_rename_exclusive, sample_rename.
    destruct (lookup_path false original d) as [p|]; [|by intros [= _ <-]].
    destruct (lookup_path false target d) as [q|]; [|by intros [= _ <-]].
    case_decide; by intros [= _ <-].
Qed.

(** ** A text for the clipboard *)

Definition request : ActivationId := mkActivationId 1.
Definition offer : OfferId := mkOfferId 2.
Definition device : DeviceId := mkDeviceId 3.
Definition state_root : PathBuf := str "/state".
Definition hello : bytes := [Byte.x68; Byte.x65; Byte.x6c; Byte.x6c; Byte.x6f].

Definition text_activation : FetchActivation :=
  mkFetchActivation request device offer Mode_Clipboard None.
Definition save_activation : FetchActivation :=
  mkFetchActivation request device offer Mode_Save (Some (str "/home/me/in")).
Definition save_entries : list ManifestEntry := [mkManifestEntry [] Entry_File 5].
(** A folder with a folder and a file in it. *)
Definition folder_entries : list ManifestEntry :=
  [mkManifestEntry (str "sub") Entry_Directory 0; mkManifestEntry (str "sub/a.txt") Entry_File 5].
Definition save_entries_json : Json (list ManifestEntry) := table_json [save_entries; folder_entries].
#[export] Existing Instance save_entries_json.
Definition manifest_digest : bytes := sha256 [Byte.x7b].
Definition file_offer : OfferDescriptor := Descriptor_File (str "report.txt") 5.
Definition folder_digest : bytes := sha256 [Byte.x7b; Byte.x7b].
Definition folder_offer : OfferDescriptor := Descriptor_Folder (str "docs") 5 2 1 1.

(** The messages of both fetches. *)
Definition text_header : V2Message :=
  Msg_FetchHeader (mkFetchHeader request offer text_offer 0 0 (Some (sha256 hello)) None).
Definition text_end : V2Message := Msg_TextEnd (mkTextEnd request (sha256 hello)).
Definition text_complete : V2Message := Msg_FetchComplete (mkFetchComplete request 0 5 (sha256 hello)).
Definition admission (n : Z) : V2Message :=
  Msg_FetchAdmission (mkFetchAdmission request Admission_Accepted n 5 None).
Definition receipt (n : Z) : V2Message :=
  Msg_FetchReceipt (mkFetchReceipt request offer Receipt_Completed n 5 None).
Definition save_chunk : V2Message := Msg_ManifestChunk (mkManifestChunk request 0 save_entries).
Definition save_end : V2Message := Msg_ManifestEnd (mkManifestEnd request 1 1 5 manifest_digest).
Definition save_header : V2Message :=
  Msg_FetchHeader (mkFetchHeader request offer file_offer 1 1 None (Some manifest_digest)).
Definition file_start : V2Message := Msg_FileStart (mkFileStart request 0 5).
Definition file_end : V2Message := Msg_FileEnd (mkFileEnd request 0 (sha256 hello)).
Definition save_complete : V2Message :=
  Msg_FetchComplete (mkFetchComplete request 1 5 (sha256 (manifest_digest ++ sha256 hello))).
Definition folder_chunk : V2Message := Msg_ManifestChunk (mkManifestChunk request 0 folder_entries).
Definition folder_end : V2Message := Msg_ManifestEnd (mkManifestEnd request 2 1 5 folder_digest).
Definition folder_header : V2Message :=
  Msg_FetchHeader (mkFetchHeader request offer folder_offer 2 14 None (Some folder_digest)).
Definition folder_start : V2Message := Msg_FileStart (mkFileStart request 1 5).
Definition folder_file_end : V2Message := Msg_FileEnd (mkFileEnd request 1 (sha256 hello)).
Definition folder_complete : V2Message :=
  Msg_FetchComplete (mkFetchComplete request 1 5 (sha256 (folder_digest ++ sha256 hello))).
Definition messages : list V2Message :=
  [save_chunk; text_header; text_end; text_complete; admission 0; admission 1; receipt 0;
   receipt 1; save_header; save_end; file_start; file_end; save_complete;
   folder_chunk; folder_end; folder_header; folder_start; folder_file_end; folder_complete].
Definition messages_json : Json V2Message := table_json messages.
#[export] Existing Instance messages_json.
Lemma table_typed table : Forall message_typed table → @V2Typed (table_json table).
Proof.
  intros Hall input message. cbn [json_from_slice table_json].
  destruct (table !! pred (length input)) as [m|] eqn:Hm; [|done]. intros [= <-].
  rewrite Forall_forall in Hall. by eapply Hall, list_elem_of_lookup_2.
Qed.
#[export] Instance messages_typed : V2Typed.
Proof.
  apply table_typed. repeat constructor; unfold entry_typed, is_u32, is_u64, U32_MAX, U64_MAX; simpl; lia.
Qed.
Definition frame (message : V2Message) : bytes := default [] (result_ok (encode_v2_frame message)).

Definition journal_row (activation : FetchActivation) (files : Z) (state : ActivationState)
    : ActivationJournalEntry :=
  mkActivationJournalEntry request device offer (fa_mode activation)
    (staging_root_of state_root activation) state files 5.
Definition rows_json : Json ActivationJournalEntry :=
  table_json (flat_map (λ state, [journal_row text_activation 0 state; journal_row save_activation 1 state])
    [State_Staging; State_Transferring; State_Verified; State_Publishing; State_ApplyingClipboard;
     State_Completed; State_UncertainNoReplay]).
#[export] Existing Instances rows_json card_json cache_json source_json.
#[export] Instance rows_laws : JsonLaws ActivationJournalEntry.
Proof. apply table_json_laws. Qed.

(** The disk: a home directory and the state directory. *)
Definition start_disk : Disk := mkDisk
  (list_to_map [([str "home"], Dir); ([str "home"; str "me"], Dir);
                ([str "home"; str "me"; str "notes"], File 0); ([str "state"], Dir)])
  {[ 0%nat := hello ]} [].
Definition card_world (descriptor : OfferDescriptor) : World Disk :=
  (insert_offer_card (mkOfferCardInput device offer descriptor Available)
     (mkWorld db_empty [] start_disk)).2.
Definition empty_plan : ReceivePlan := mkReceivePlan Kind_Text 0 0 [] None 0 None None [].
Definition start (descriptor : OfferDescriptor) (stream : bytes) : Rx :=
  mkRx (mkPeer (mkConn stream [] []) [2%nat] None [] []) (mkProc owner_new (card_world descriptor))
    ledger_default (mkSpaceProbe (Ok (mkFilesystemKey (str "dev"))) (Ok 1000000000000) (Ok 1000000000000))
    (mkClipboard [] []) guard_inactive None empty_plan.
Definition text_start : Rx :=
  start text_offer (frame text_header ++ hello ++ frame text_end ++ frame text_complete).
Definition save_start : Rx :=
  start file_offer (frame save_header ++ frame save_chunk ++ frame save_end ++ frame file_start
    ++ hello ++ frame file_end ++ frame save_complete).
Definition folder_save : Rx :=
  start folder_offer (frame folder_header ++ frame folder_chunk ++ frame folder_end ++ frame folder_start
    ++ hello ++ frame folder_file_end ++ frame folder_complete).
Definition run (activation : FetchActivation) (s : Rx) : result (Stop NetError) () * Rx :=
  receive_one state_root (mkActivationId 100) (mkOfferId 100) (str "fresh") device activation s.

(** The shape of a concrete disk, decided node by node. *)
Definition ready_check (home : place) (d : Disk) : Prop :=
  map_Forall (λ q n, q ≠ [] ∧ Forall valid_name q ∧
    node_at (dk_nodes d) (removelast q) = Some Dir ∧
    match n with
    | Symlink _ => ¬ home `prefix_of` q ∧ ¬ q `prefix_of` home
    | File i => i ∈ dom (dk_inodes d)
    | Dir => True
    end) (dk_nodes d).
#[export] Instance ready_check_dec home d : Decision (ready_check home d).
Proof.
  unfold ready_check. apply map_Forall_dec. intros q n.
  apply and_dec; [apply _|]. apply and_dec; [apply _|]. apply and_dec; [apply _|].
  destruct n; apply _.
Defined.
Lemma ready_check_ready home d : ready_check home d → disk_ready home d.
Proof.
  intros Hc. split; [split| |].
  - intros q n Hq. by destruct (Hc q n Hq) as (? & ? & _).
  - intros q name n Hq. destruct (Hc _ n Hq) as (_ & _ & Hp & _). by rewrite removelast_last in Hp.
  - intros q target Hq. by destruct (Hc _ _ Hq) as (_ & _ & _ & ?).
  - intros q i Hq. by destruct (Hc _ _ Hq) as (_ & _ & _ & ?).
Qed.
Lemma start_ready : disk_ready (staging_home state_root) start_disk.
Proof. apply ready_check_ready. apply (bool_decide_unpack _). vm_compute. exact I. Qed.
Lemma state_root_valid : Forall valid_name (components state_root).
Proof. apply (bool_decide_unpack _). vm_compute. exact I. Qed.
Lemma save_plain : destination_plain state_root save_activation.
Proof.
  intros path [= <-]. split; apply (bool_decide_unpack _); vm_compute; exact I.
Qed.

Lemma start_tree : Filesystem.tree_ok (dk_nodes start_disk).
Proof. by destruct start_ready. Qed.

(** A link in the home directory: the removal stops at it, and what it leads to is untouched. *)
Definition linked_disk : Disk :=
  set_nodes (<[[str "home"; str "me"; str "link"] := Symlink (str "/state")]> (dk_nodes start_disk)) start_disk.
Lemma linked_tree : Filesystem.tree_ok (dk_nodes linked_disk).
Proof.
  destruct start_tree as [Hn Hc]. unfold linked_disk. cbn [dk_nodes set_nodes]. split.
  - intros q n [[<- _]|[_ Hq]]%lookup_insert_Some; [|by eapply Hn].
    split; [done|]. apply (bool_decide_unpack _). vm_compute. exact I.
  - intros q name n [[Hq _]|[_ Hq]]%lookup_insert_Some.
    + assert (q = removelast (q ++ [name])) as -> by (by rewrite removelast_last).
      rewrite <- Hq. vm_compute. reflexivity.
    + apply Hc in Hq. destruct q as [|x q]; [done|]. cbn in Hq |- *.
      rewrite lookup_insert_ne; [done|]. intros Heq. rewrite <- Heq in Hq. vm_compute in Hq. discriminate Hq.
Qed.
Lemma removal_stops_at_links_witness :
  let d' := (remove_owned_tree (str "/home/me") linked_disk).2 in
  is_ok (remove_owned_tree (str "/home/me") linked_disk).1 = false ∧
  dk_nodes d' !! [str "home"; str "me"; str "link"] = Some (Symlink (str "/state")) ∧
  dk_nodes d' !! [str "state"] = Some Dir.
Proof.
  cbv zeta. destruct (removal_stops_at_links (str "/home/me") [str "home"] (str "me") linked_disk
    (remove_owned_tree (str "/home/me") linked_disk).1 (remove_owned_tree (str "/home/me") linked_disk).2)
    as (Hout & _ & Hlinks & _).
  - exact linked_tree.
  - vm_compute. reflexivity.
  - apply (bool_decide_unpack _). vm_compute. exact I.
  - vm_compute. reflexivity.
  - apply surjective_pairing.
  - split; [vm_compute; reflexivity|]. split; [by apply Hlinks|].
    rewrite Hout; [vm_compute; reflexivity|]. apply (bool_decide_unpack _). vm_compute. exact I.
Defined.

(** Removing the home directory. *)
Lemma remove_owned_tree_live_witness :
  ∃ d', remove_owned_tree (str "/home") start_disk = (Ok (), d') ∧
    map_to_list (dk_nodes d') = [([str "state"], Dir)].
Proof.
  exists (pruned (components (str "/home")) start_disk). split; [|vm_compute; reflexivity].
  apply remove_owned_tree_live.
  - split.
    + apply start_tree.
    + reflexivity.
    + intros k target Hk. destruct start_ready as [_ Hl _].
      assert (map_Forall (λ _ n, match n with Symlink _ => False | _ => True end)
                (dk_nodes start_disk)) as Hno.
      { apply map_Forall_to_list. vm_compute. repeat constructor. }
      by specialize (Hno _ _ Hk).
  - vm_compute. reflexivity.
Defined.

(** The file is saved, and nothing else of the home directory has changed. *)
Lemma save_keeps_everything_witness :
  let s' := (run save_activation save_start).2 in
  (run save_activation save_start).1 = Ok () ∧
  (∃ name, portable_component name ∧ save_changed state_root save_activation name start_disk (rx_disk s')) ∧
  dk_nodes (rx_disk s') !! [str "home"; str "me"; str "in"; str "report.txt"] = Some (File 1) ∧
  dk_inodes (rx_disk s') !! 1%nat = Some hello.
Proof.
  cbv zeta. split; [vm_compute; reflexivity|]. split; [|split; vm_compute; reflexivity].
  eapply (save_keeps_everything state_root (mkActivationId 100) (mkOfferId 100) (str "fresh")
    save_activation device state_root_valid eq_refl save_plain save_start).
  - exact start_ready.
  - reflexivity.
  - unfold run. apply surjective_pairing.
Defined.

(** The folder is saved with what is in it. *)
Lemma saved_tree_witness :
  let s' := (run save_activation folder_save).2 in
  let docs := [str "home"; str "me"; str "in"; str "docs"] in
  (run save_activation folder_save).1 = Ok () ∧
  (∃ card header plan directory early rest,
    offered save_activation card folder_save ∧ accepted save_activation card header plan ∧
    manifest_ok header (card_descriptor card) plan ∧
    descriptor_is_text (card_descriptor card) = false ∧ asked save_activation directory ∧
    cn_in (pe_conn (rx_peer folder_save)) = early ++ rest ∧
    followed_by (frame_of (Msg_FetchHeader header)) (carries_manifest plan) early ∧
    saves state_root save_activation directory (header_kind header) (rp_entries plan) start_disk plan
      rest (rx_disk s')) ∧
  dk_nodes (rx_disk s') !! docs = Some Dir ∧ dk_nodes (rx_disk s') !! (docs ++ [str "sub"]) = Some Dir ∧
  dk_nodes (rx_disk s') !! (docs ++ [str "sub"; str "a.txt"]) = Some (File 1) ∧
  dk_inodes (rx_disk s') !! 1%nat = Some hello.
Proof.
  cbv zeta. split; [vm_compute; reflexivity|]. split; [|split_and!; vm_compute; reflexivity].
  assert ((run save_activation folder_save).1 = Ok ()) as Hok by (vm_compute; reflexivity).
  eapply (saved_tree state_root (mkActivationId 100) (mkOfferId 100) (str "fresh")
    save_activation device state_root_valid eq_refl save_plain folder_save).
  - exact start_ready.
  - reflexivity.
  - left. reflexivity.
  - rewrite <- Hok. unfold run. apply surjective_pairing.
Defined.

(** After the text is on the clipboard, the staging area and the row are gone. *)
Lemma fetch_leaves_no_residue_witness :
  (run text_activation text_start).1 = Ok () ∧
  clean state_root text_activation (run text_activation text_start).2 ∧
  no_row text_activation (run text_activation text_start).2.
Proof.
  assert ((run text_activation text_start).1 = Ok ()) as Hok by (vm_compute; reflexivity).
  split; [exact Hok|].
  refine (proj2 (fetch_leaves_no_residue state_root (mkActivationId 100) (mkOfferId 100)
    (str "fresh") text_activation device state_root_valid text_start
    (run text_activation text_start).1 (run text_activation text_start).2 _ _ _ _ _ _) Hok).
  - intros path Hp. discriminate Hp.
  - exact start_ready.
  - reflexivity.
  - intros k. apply eq_None_not_Some. intros [n Hn].
    assert (node_at (dk_nodes start_disk) (staging_place state_root text_activation) = Some Dir ∨
      dk_nodes start_disk !! staging_place state_root text_activation = Some n) as [Hbad|Hbad].
    { destruct k as [|x k]; [right; by rewrite app_nil_r in Hn|left].
      eapply node_above; [apply start_ready|exact Hn|done]. }
    + vm_compute in Hbad. discriminate Hbad.
    + vm_compute in Hbad. discriminate Hbad.
  - vm_compute. reflexivity.
  - apply surjective_pairing.
Defined.

(** The text is on the clipboard, once. *)
Lemma clipboard_called_once_witness :
  map fst (cb_calls (rx_clipboard (run text_activation text_start).2)) = [SetText (str "hello")] ∧
  (called text_activation text_start (run text_activation text_start).2 ∨
   fa_mode text_activation = Mode_Save).
Proof.
  split; [vm_compute; reflexivity|].
  destruct (clipboard_called_once state_root (mkActivationId 100) (mkOfferId 100) (str "fresh")
    text_activation device text_start (run text_activation text_start).1
    (run text_activation text_start).2 (surjective_pairing _)) as [Hc|[_ Hm]]; [by left|right].
  apply Hm. vm_compute. reflexivity.
Defined.
End ReceiverSample.
