(* ===== verification/ExchangeSamples.v ===== *)
(** * The sender on concrete inputs

    A folder of the origin's user with a file and an empty directory, its offer in a redb
    store, and both ends of its transfer; and the transfer of a text. *)

From S2P Require Import Prelude RustStr StdIo Utf8 Offer Records Names Protocol OfferStore Ledger Activation Filesystem Announce Connection Manifest Transfer Source Sender SenderStream Receiver ReceiverFrame ReceiverContent Exchange ReceiverSafety ReceiverTree ReceiverSave SavedTree Delivery ReceiverSamples.
From Stdlib Require Import Strings.Byte.

Module ExchangeSample.
Import StoreSample ManifestSample ReceiverSample.

(** ** A source that stays as it is *)

Definition docs : PathBuf := str "/home/me/docs".
Definition directory_metadata (inode : Z) : Metadata :=
  mkMetadata (Some Type_Dir) 4096 1 inode false (Some (100, 7)).
Definition file_metadata : Metadata := mkMetadata (Some Type_File) 5 1 12 false (Some (101, 9)).
Definition still_view : SourceView := {|
  sv_metadata path :=
    if bool_decide (path = docs) then Ok (directory_metadata 10)
    else if bool_decide (path = join docs (str "sub")) then Ok (directory_metadata 11)
    else if bool_decide (path = join docs (str "a")) then Ok file_metadata
    else Err os_not_found;
  sv_canonicalize path := Ok path;
  sv_read_dir path :=
    if bool_decide (path = docs) then Ok [Ok (as_bytes (str "sub")); Ok (as_bytes (str "a"))]
    else if bool_decide (path = join docs (str "sub")) then Ok [] else Err os_not_found;
  sv_open path := if bool_decide (path = join docs (str "a")) then Ok 0%nat else Err os_not_found;
  sv_file_metadata _ := Ok file_metadata;
  sv_file_read _ position wanted := Ok (take (Nat.min wanted 3) (drop (Z.to_nat position) hello));
|}.
Definition still : Views := λ _, still_view.
#[local] Existing Instance still.

Definition listing : list ManifestEntry :=
  [mkManifestEntry (str "a") Entry_File 5; mkManifestEntry (str "sub") Entry_Directory 0].
Definition listing_json : Json (list ManifestEntry) := table_json [listing].
Definition listing_digest : bytes := sha256 [Byte.x7b].
Definition listing_chunk (n : nat) : V2Message :=
  Msg_ManifestChunk (mkManifestChunk request 0 (take n listing)).
Definition docs_file_start : V2Message := Msg_FileStart (mkFileStart request 0 5).
Definition docs_file_end : V2Message := Msg_FileEnd (mkFileEnd request 0 (sha256 hello)).
Definition docs_complete : V2Message :=
  Msg_FetchComplete (mkFetchComplete request 1 5 (sha256 (listing_digest ++ sha256 hello))).
Definition docs_header : V2Message :=
  Msg_FetchHeader (mkFetchHeader request offer (Descriptor_Folder (str "docs") 5 2 1 1) 2 2 None
    (Some listing_digest)).
Definition docs_manifest_end : V2Message :=
  Msg_ManifestEnd (mkManifestEnd request 2 1 5 listing_digest).
Definition docs_messages : Json V2Message :=
  table_json [listing_chunk 1; listing_chunk 2; docs_header; docs_manifest_end; admission 1; docs_file_start; docs_file_end; docs_complete;
    receipt 1; text_end; text_complete].
#[local] Existing Instances listing_json docs_messages.
Lemma docs_laws : JsonLaws V2Message.
Proof. apply table_json_laws. Qed.
#[local] Existing Instance docs_laws.

Definition docs_prepared : PreparedOfferSource :=
  match (prepare_source (Input_Path docs) 0%nat).1 with
  | Ok prepared => prepared
  | Err _ => mkPrepared text_offer (Source_Text [])
  end.
Definition peer : DeviceId := mkDeviceId 4.
Definition docs_record : OfferSourceRecord :=
  mkOfferSourceRecord offer (po_descriptor docs_prepared) 1 {[peer]} (po_source docs_prepared).
Definition docs_plan : SourcePlan :=
  match (build_source_plan docs_record request 0%nat).1 with
  | Ok plan => plan
  | Err _ => mkSourcePlan text_offer None [] [] 0 None [] 0 None
  end.

Example docs_is_prepared :
  po_descriptor docs_prepared = Descriptor_Folder (str "docs") 5 2 1 1.
Proof. vm_compute. reflexivity. Qed.
Example docs_is_planned : sp_manifest docs_plan = listing.
Proof. vm_compute. reflexivity. Qed.

Lemma still_typed : lengths_typed.
Proof.
  intros n path metadata. unfold view_at, still. cbn [sv_metadata still_view].
  repeat case_bool_decide; intros [= <-]; split; vm_compute; discriminate.
Qed.
(** The directories below the folder. *)
Lemma below_docs directory rel :
  below still_view docs directory rel →
  (directory, rel) ∈ [(docs, []); (join docs (str "sub"), str "sub"); (join docs (str "a"), str "a")].
Proof.
  induction 1 as [|directory rel items child name Hb IH Hread Hin Hname]; [by left|].
  cbn [sv_read_dir still_view] in Hread.
  rewrite !elem_of_cons in IH. destruct IH as [[= -> ->]|[[= -> ->]|[[= -> ->]|[]%elem_of_nil]]];
    vm_compute in Hread; [|injection Hread as <-; by apply elem_of_nil in Hin|discriminate Hread].
  injection Hread as <-. rewrite !elem_of_cons in Hin.
  destruct Hin as [[= ->]|[[= ->]|[]%elem_of_nil]]; vm_compute in Hname; injection Hname as <-;
    vm_compute; [right; left|right; right; left].
Qed.
Lemma docs_portable : portable_below still_view docs.
Proof.
  intros directory rel items child name Hb Hread Hin Hname. apply below_docs in Hb.
  cbn [sv_read_dir still_view] in Hread.
  rewrite !elem_of_cons in Hb. destruct Hb as [[= -> ->]|[[= -> ->]|[[= -> ->]|[]%elem_of_nil]]];
    vm_compute in Hread; [|injection Hread as <-; by apply elem_of_nil in Hin|discriminate Hread].
  injection Hread as <-. rewrite !elem_of_cons in Hin.
  destruct Hin as [[= ->]|[[= ->]|[]%elem_of_nil]]; vm_compute in Hname; injection Hname as <-;
    (split; [vm_compute; reflexivity|vm_compute; discriminate]).
Qed.

(** A walk with less fuel than the plan uses. *)
Lemma walk_folder_terminates_witness :
  let start := mkWalk (tree_start []) [] [] in
  walk_folder (Z.to_nat 4097) docs [] start 0%nat = walk_folder (Z.to_nat 5000) docs [] start 0%nat ∧
  (λ w, zlen (wk_manifest w)) <$> result_ok (walk_folder (Z.to_nat 4097) docs [] start 0%nat).1 = Some 2.
Proof.
  cbv zeta. split; [|vm_compute; reflexivity].
  apply walk_folder_terminates; vm_compute; (reflexivity || discriminate).
Defined.

Lemma prepared_source_builds_witness :
  (build_source_plan docs_record request 7%nat).1 = Err Source_Malformed ∨
  ∃ plan, (build_source_plan docs_record request 7%nat).1 = Ok plan ∧
    sp_descriptor plan = po_descriptor docs_prepared.
Proof.
  eapply (prepared_source_builds still_view docs docs 0%nat docs_prepared
    (prepare_source (Input_Path docs) 0%nat).2 offer 1 {[peer]} request 7%nat _
    (build_source_plan docs_record request 7%nat).2).
  - reflexivity.
  - reflexivity.
  - exact docs_portable.
  - vm_compute. reflexivity.
  - apply surjective_pairing.
Defined.

(** ** The handler *)

Definition docs_request : FetchRequest := mkFetchRequest request offer device peer.
Definition docs_rows : Json OfferSourceRecord := table_json [docs_record].
#[local] Existing Instances sample_uuid sample_fs docs_rows journal_json journal_laws' cache_laws' card_laws.
Lemma docs_rows_laws : JsonLaws OfferSourceRecord.
Proof. apply table_json_laws. Qed.
#[local] Existing Instance docs_rows_laws.
Definition docs_world : World () :=
  after (insert_offer_source (mkOfferSourceInput offer (po_descriptor docs_prepared) {[peer]}
           (po_source docs_prepared))) empty_world.
Definition origin_start (available : Z) : Session (Origin (World ())) :=
  mkSession (mkConn (wire (admission 1) ++ wire (receipt 1)) [] [])
    (mkOrigin docs_world available false 0%nat).

Lemma docs_world_ok : oss_ok (or_store (ss_services (origin_start 2))).
Proof. apply (insert_offer_source_keeps _ empty_world), store_inv_empty. Qed.

(** The peer is served and its permit given back; another device is refused. *)
Lemma handle_fetch_authorized_witness :
  (handle_fetch device peer docs_request (origin_start 2)).1 = Ok () ∧
  let s' := (handle_fetch device (mkDeviceId 5) docs_request (origin_start 2)).2 in
  or_available (ss_services s') = 2 ∧ only_refused docs_request (origin_start 2) s'.
Proof.
  split; [vm_compute; reflexivity|]. cbv zeta.
  destruct (handle_fetch_authorized device (mkDeviceId 5) docs_request (origin_start 2) _ _
    docs_world_ok (surjective_pairing _)) as (_ & Hav & [Hrefused|Hauth]).
  - split; [exact Hav|exact Hrefused].
  - exfalso. destruct Hauth as (_ & Hreq & _). vm_compute in Hreq. discriminate Hreq.
Defined.

Definition docs_activation : FetchActivation :=
  mkFetchActivation request device offer Mode_Save (Some (str "/home/me/in")).
Definition docs_card : OfferCardRecord :=
  mkOfferCardRecord device offer (po_descriptor docs_prepared) 1 Available None.

(** The receiver accepts what the sender lists. *)
Lemma sent_manifest_accepted_witness :
  let header := plan_header docs_request docs_plan in
  validate_manifest header (card_descriptor docs_card) (received_plan header docs_request docs_plan) = Ok ().
Proof.
  cbv zeta. eapply (sent_manifest_accepted (laws := ascii_lowercase_laws) docs_request docs_record docs_card docs_activation
    0%nat docs_plan (build_source_plan docs_record request 0%nat).2 still_typed).
  - intros data. unfold sha256, sample_sha256, zlen. rewrite length_take, length_app, repeat_length. lia.
  - vm_compute. reflexivity.
  - vm_compute. reflexivity.
  - reflexivity.
  - reflexivity.
  - reflexivity.
  - split; [vm_compute; discriminate|]. apply (bool_decide_unpack _). vm_compute. exact I.
Defined.

(** ** Both ends *)

Definition origin_after : Session (Origin (World ())) :=
  mkSession (mkConn (wire (receipt 1)) [] []) (mkOrigin docs_world 1 false 20%nat).
Definition sent_docs : bytes :=
  files_wire request (sp_files docs_plan) [hello] ++ wire docs_complete.

(** The receiver once it is staged. *)
Definition docs_handle : Handle := mkHandle 1 0.
Definition docs_staging : PathBuf := str "/state/staging/a".
Definition staged_disk : Disk := mkDisk
  (list_to_map [([str "state"], Dir); ([str "state"; str "staging"], Dir);
                ([str "state"; str "staging"; str "a"], Dir);
                ([str "state"; str "staging"; str "a"; str "payload"], Dir);
                ([str "state"; str "staging"; str "a"; str "payload"; str "a"], File 1)])
  {[ 1%nat := replicate 5 Byte.x00 ]} [].
Definition staged_plan : ReceivePlan :=
  mkReceivePlan Kind_Folder 5 1 listing None 2 (Some listing_digest) None
    [mkStagedFile 0 (str "/state/staging/a/payload/a") (Some docs_handle)].
Definition receiving (plan : ReceivePlan) (stream : bytes) : Rx :=
  mkRx (mkPeer (mkConn stream [] []) [2%nat; 1%nat] None [] [])
    (mkProc owner_new (mkWorld db_empty [] staged_disk))
    ledger_default (mkSpaceProbe (Ok (mkFilesystemKey (str "dev"))) (Ok 1000000000000) (Ok 1000000000000))
    (mkClipboard [] []) guard_inactive None plan.
Definition docs_receiver : Rx := receiving staged_plan sent_docs.

Lemma docs_open : all_open 0 (rp_staged_files (rx_plan docs_receiver)) [docs_handle]
  [mkManifestEntry (str "a") Entry_File 5] docs_receiver.
Proof.
  split; [|split; [by apply not_elem_of_nil|exact I]]. split_and!; [reflexivity..|].
  exists (replicate 5 Byte.x00). split; [reflexivity|]. vm_compute. discriminate.
Qed.
Definition docs_received : Rx := (receive_payload docs_activation docs_staging docs_receiver).2.

Lemma accepted_payload_witness :
  rx_disk docs_received = set_inode 1 hello staged_disk ∧
  ∃ contents, Forall2 (stored (dk_inodes (rx_disk docs_received))) [docs_handle] contents ∧
    took (carries_payload request staged_plan contents) docs_receiver docs_received.
Proof.
  split; [vm_compute; reflexivity|].
  pose proof (accepted_payload docs_activation docs_staging [docs_handle]
    [mkManifestEntry (str "a") Entry_File 5] docs_receiver docs_received) as H.
  destruct (H ltac:(vm_compute; reflexivity) docs_open) as (contents & _ & Hst & _ & _ & Ht).
  by exists contents.
Defined.

(** The folder's file arrives as it is. *)
Lemma fetched_files_identical_witness :
  ∃ contents, Forall2 (stored (dk_inodes (rx_disk docs_received))) [docs_handle] contents ∧
    filled request origin_after (send_files docs_request docs_record docs_plan origin_after).2
      (sp_files docs_plan) contents.
Proof.
  destruct (fetched_files_identical docs_request docs_record docs_plan origin_after
    (send_files docs_request docs_record docs_plan origin_after).2 sent_docs docs_activation docs_staging
    [docs_handle] [mkManifestEntry (str "a") Entry_File 5] docs_receiver docs_received)
    as (contents & Hfilled & Hst & _).
  - vm_compute. reflexivity.
  - vm_compute. reflexivity.
  - left. reflexivity.
  - reflexivity.
  - discriminate.
  - exact docs_open.
  - vm_compute. reflexivity.
  - exists contents. split; [exact Hst|exact Hfilled].
Defined.

Lemma text_round_trip_witness :
  let s' := (stream_text request (str "hello") origin_after).2 in
  let rx := receiving (mkReceivePlan Kind_Text 5 0 [] None 0 None None [])
              (cn_out (ss_conn s') ++ [Byte.x00]) in
  rp_text (rx_plan (receive_payload text_activation docs_staging rx).2) = Some (str "hello").
Proof.
  cbv zeta. destruct (text_round_trip request (str "hello") origin_after
    (stream_text request (str "hello") origin_after).2) as (sent & Hsent & Hreceive).
  - apply (bool_decide_unpack _). vm_compute. exact I.
  - vm_compute. discriminate.
  - vm_compute. reflexivity.
  - change (cn_out (ss_conn origin_after)) with (@nil Byte.byte) in Hsent. cbn [app] in Hsent.
    rewrite Hsent. set (rx := receiving _ _).
    rewrite (Hreceive text_activation docs_staging rx [Byte.x00]); [reflexivity|reflexivity..|].
    split_and!; reflexivity.
Defined.

(** ** The whole fetch *)

Definition docs_store : OfferSourceStore (World ()) := redb_offer_source_store.
Definition docs_sent : Session (Origin (World ())) :=
  (handle_fetch device peer docs_request (origin_start 2)).2.
Lemma docs_sent_Ok : (handle_fetch device peer docs_request (origin_start 2)).1 = Ok ().
Proof. vm_compute. reflexivity. Qed.
Lemma docs_offered :
  (oss_get_offer_source (fr_offer_id docs_request) (or_store (ss_services (origin_start 2)))).1
  = Ok (Some docs_record).
Proof. vm_compute. reflexivity. Qed.
Lemma docs_typed : V2Typed.
Proof.
  apply table_typed. repeat constructor; unfold entry_typed, is_u32, is_u64, U32_MAX, U64_MAX; simpl; lia.
Qed.
#[local] Existing Instances docs_typed plain_uuid card_json rows_json cache_json.
Definition docs_save : Rx := start (po_descriptor docs_prepared) (cn_out (ss_conn docs_sent)).
Definition docs_saved : result (Stop NetError) () * Rx :=
  receive_one state_root (mkActivationId 100) (mkOfferId 100) (str "fresh") device docs_activation docs_save.

(** The folder of the origin's user is in the other user's directory. *)
Lemma offered_tree_is_saved_witness :
  docs_saved.1 = Ok () ∧
  (∃ name contents,
    holds_tree (rx_disk docs_saved.2) ([str "home"; str "me"; str "in"] ++ [name]) Kind_Folder listing contents ∧
    Forall2 (λ e data, zlen data = me_byte_len e ∧ read_at 0 (calls docs_sent)
        (foldl join docs (names_of (me_relative_path e))) data) (files_of listing) contents) ∧
  dk_nodes (rx_disk docs_saved.2) !! [str "home"; str "me"; str "in"; str "docs"; str "sub"] = Some Dir ∧
  dk_nodes (rx_disk docs_saved.2) !! [str "home"; str "me"; str "in"; str "docs"; str "a"] = Some (File 1) ∧
  dk_inodes (rx_disk docs_saved.2) !! 1%nat = Some hello.
Proof.
  assert (docs_saved.1 = Ok ()) as Hok by (vm_compute; reflexivity). split; [exact Hok|].
  split; [|split_and!; vm_compute; reflexivity].
  destruct (offered_tree_is_saved (store := docs_store) still_typed state_root (mkActivationId 100) (mkOfferId 100) (str "fresh")
    docs_activation device state_root_valid eq_refl save_plain device peer docs_request (origin_start 2)
    docs_sent (cn_out (ss_conn docs_sent)) docs_save docs_saved.2)
    as (record & plan & n & n' & directory & name & contents & Hget & _ & _ & Hbuild & _ & Hasked & _ & _ & Htree & Hread).
  - rewrite <- docs_sent_Ok. apply surjective_pairing.
  - reflexivity.
  - exact start_ready.
  - reflexivity.
  - left. reflexivity.
  - reflexivity.
  - rewrite <- Hok. apply surjective_pairing.
  - exists name, contents.
    pose proof (eq_trans (eq_sym docs_offered) Hget) as Hrecord. injection Hrecord as <-.
    assert (sp_manifest plan = listing ∧ header_kind (plan_header docs_request plan) = Kind_Folder) as [Hm Hk].
    { vm_compute in Hbuild. injection Hbuild as <- _. split; vm_compute; reflexivity. }
    rewrite Hm, Hk in *. injection Hasked as <-. split; [exact Htree|exact Hread].
Defined.
End ExchangeSample.
