(* ===== verification/Discovery.v ===== *)
(** * Tailscale discovery

    Models the discovery half of [crates/meshelf-tailscale/src/lib.rs]: how the command line
    program of tailscale is found and run under a deadline, and how its status is read.  The
    decoding of the JSON text is serde_json's ([Json RawStatus]); addresses are parsed as the
    standard library does. *)

From S2P Require Import Prelude RustStr StdIo Utf8 Offer OfferStore Filesystem Announce Connection.
From Stdlib Require Import Strings.Byte.

(** ** Addresses: [str::parse::<IpAddr>] *)

(** A parser takes a prefix of the text; one that fails takes nothing. *)
Notation Parser A := (rstr → option (A * rstr)).

(** [char::to_digit] *)
Definition to_digit (radix c : Z) : option Z :=
  let d := if (48 <=? c) && (c <=? 57) then c - 48
           else if (97 <=? c) && (c <=? 122) then c - 87
           else if (65 <=? c) && (c <=? 90) then c - 55 else radix in
  if d <? radix then Some d else None.
Fixpoint read_digits (radix acc : Z) (count : nat) (s : rstr) : Z * nat * rstr :=
  match s with
  | c :: t =>
      match to_digit radix c with
      | Some d => read_digits radix (acc * radix + d) (S count) t
      | None => (acc, count, s)
      end
  | [] => (acc, count, s)
  end.
(** [read_number]: at most [max_digits] digits, a value of at most [bound]. *)
Definition read_number (radix : Z) (max_digits : nat) (allow_zero_prefix : bool) (bound : Z)
    : Parser Z := λ s,
  let '(value, count, rest) := read_digits radix 0 0 s in
  if (max_digits <? count)%nat || (count =? 0)%nat
     || (negb allow_zero_prefix && starts_with_char 48 s && (1 <? count)%nat)
     || (bound <? value)
  then None else Some (value, rest).
(** [read_separator]: every element but the first follows a separator. *)
Definition read_separator {A} (separator : Z) (index : nat) (inner : Parser A) : Parser A := λ s,
  match index, s with
  | O, _ => inner s
  | _, c :: t => if c =? separator then inner t else None
  | _, [] => None
  end.

Fixpoint read_octets (n index : nat) (acc : Z) : Parser Z := λ s,
  match n with
  | O => Some (acc, s)
  | S n' =>
      match read_separator 46 index (read_number 10 3 false 255) s with
      | Some (octet, rest) => read_octets n' (S index) (acc * 256 + octet) rest
      | None => None
      end
  end.
Definition read_ipv4_addr : Parser Z := read_octets 4 0 0.

(** [read_groups]: the groups, whether they end in an IPv4 address, and the rest. *)
Fixpoint read_groups (n index : nat) (s : rstr) : list Z * bool * rstr :=
  match n with
  | O => ([], false, s)
  | S n' =>
      match (if (2 <=? n)%nat then read_separator 58 index read_ipv4_addr s else None) with
      | Some (v4, rest) => ([v4 / 65536; v4 mod 65536], true, rest)
      | None =>
          match read_separator 58 index (read_number 16 4 true U16_MAX) s with
          | Some (group, rest) =>
              let '(groups, v4, rest) := read_groups n' (S index) rest in
              (group :: groups, v4, rest)
          | None => ([], false, s)
          end
      end
  end.
Definition of_groups (groups : list Z) : Z := foldl (λ acc g, acc * 65536 + g) 0 groups.
Definition read_ipv6_addr : Parser Z := λ s,
  let '(front, front_v4, rest) := read_groups 8 0 s in
  if (length front =? 8)%nat then Some (of_groups front, rest)
  else if front_v4 then None
  else match rest with
       | 58 :: 58 :: rest =>
           let '(back, _, rest) := read_groups (8 - (length front + 1)) 0 rest in
           Some (of_groups (front ++ replicate (8 - length front - length back) 0 ++ back), rest)
       | _ => None
       end.

Definition parse_ip (s : rstr) : option IpAddr :=
  match read_ipv4_addr s with
  | Some (bits, rest) => if bool_decide (rest = []) then Some (V4 bits) else None
  | None =>
      match read_ipv6_addr s with
      | Some (bits, rest) => if bool_decide (rest = []) then Some (V6 bits) else None
      | None => None
      end
  end.

(** ** Nodes and status *)

Record TailNode := mkTailNode {
  tn_node_id : option rstr;
  tn_hostname : rstr;
  tn_dns_name : option rstr;
  tn_addresses : list IpAddr;
  tn_online : bool;
  tn_active : bool;
}.
Record TailStatus := mkTailStatus {
  ts_backend_state : rstr;
  ts_self_node : TailNode;
  ts_peers : list TailNode;
}.
#[export] Instance TailNode_eq_dec : EqDecision TailNode.
Proof. solve_decision. Defined.

(** [TailStatus::online_peers] *)
Definition online_peers (status : TailStatus) : list TailNode :=
  filter (λ node, tn_online node = true) (ts_peers status).

(** What serde reads; [rs_peer] is a [BTreeMap]. *)
Record RawNode := mkRawNode {
  rn_id : option rstr;
  rn_host_name : rstr;
  rn_dns_name : option rstr;
  rn_tailscale_i_ps : list rstr;
  rn_online : bool;
  rn_active : bool;
}.
Record RawStatus := mkRawStatus {
  rs_backend_state : rstr;
  rs_self_node : option RawNode;
  rs_peer : gmap rstr RawNode;
}.

Inductive DiscoveryError :=
| BinaryNotFound
| Launch (error : IoError)
| NonZeroExit (code : option Z) (stderr : rstr)
| Discovery_Timeout (milliseconds : Z)
| OutputTooLarge (bytes maximum : Z)
| InvalidJson (error : rstr)
| MissingSelf
| MissingAddress (node : rstr).

(** [BTreeMap::into_values]: in the order of the keys. *)
Definition key_le {A} (a b : rstr * A) : Prop := rstr_leb a.1 b.1 = true.
#[export] Instance key_le_dec {A} : RelDecision (key_le (A := A)).
Proof. intros a b. unfold key_le. apply _. Defined.
Definition into_values {A} (m : gmap rstr A) : list A := (merge_sort key_le (map_to_list m)).*2.

(** [sort_by] on the lower-case host name, a stable sort. *)
Definition hostname_le {A} (hostname : A → rstr) (a b : A) : Prop :=
  rstr_leb (map to_ascii_lowercase (hostname a)) (map to_ascii_lowercase (hostname b)) = true.
#[export] Instance hostname_le_dec {A} (hostname : A → rstr) : RelDecision (hostname_le hostname).
Proof. intros a b. unfold hostname_le. apply _. Defined.
Definition sort_by_hostname {A} (hostname : A → rstr) : list A → list A :=
  merge_sort (hostname_le hostname).

Definition is_dot (c : Z) : bool := c =? 46.
Definition unknown_device : rstr := str "unknown-tailnet-device".

(** The name of a node without a host name: the first label of its DNS name. *)
Definition first_label (dns_name : option rstr) : rstr :=
  default unknown_device
    (head (split_char 46 (trim_end_matches is_dot (default unknown_device dns_name)))).

Definition convert_node (raw : RawNode) : result DiscoveryError TailNode :=
  let hostname :=
    if bool_decide (trim (rn_host_name raw) = []) then first_label (rn_dns_name raw)
    else rn_host_name raw in
  let addresses := omap parse_ip (rn_tailscale_i_ps raw) in
  refuse_if (bool_decide (addresses = [])) (MissingAddress hostname);;
  mret (mkTailNode (rn_id raw) hostname (trim_end_matches is_dot <$> rn_dns_name raw)
          addresses (rn_online raw) (rn_active raw)).

(** [collect::<Result<Vec<_>, _>>]: the first error ends it. *)
Fixpoint convert_nodes (raws : list RawNode) : result DiscoveryError (list TailNode) :=
  match raws with
  | [] => Ok []
  | raw :: rest => node ← convert_node raw; nodes ← convert_nodes rest; mret (node :: nodes)
  end.

Definition parse_status_json `{!Json RawStatus} (b : bytes) : result DiscoveryError TailStatus :=
  raw ← map_err InvalidJson (json_from_slice b);
  self_raw ← ok_or (rs_self_node raw) MissingSelf;
  self_node ← convert_node self_raw;
  peers ← convert_nodes (into_values (rs_peer raw));
  mret (mkTailStatus (rs_backend_state raw) self_node (sort_by_hostname tn_hostname peers)).

(** ** Running the command *)

Definition MAX_STATUS_JSON_BYTES : Z := 8 * 1024 * 1024.
Definition STATUS_COMMAND_TIMEOUT : Z := 5000.

(** What [try_wait] finds. *)
Inductive Wait := Exited (code : option Z) | StillRunning | WaitFails (error : IoError).

(** A child process: what each look at it finds and how many milliseconds after the start it
    is made, and what the two pipes deliver until they are closed. *)
Record Child := mkChild {
  cp_wait : nat → Wait;
  cp_elapsed : nat → Z;
  cp_stdout : result IoError bytes;
  cp_stderr : result IoError bytes;
}.

(** [stream.take(limit).read_to_end(..)] *)
Definition read_up_to (limit : Z) (stream : result IoError bytes) : result IoError bytes :=
  take (Z.to_nat limit) <$> stream.

(** The [loop] around [try_wait], from the [i]th look on; [None] when the fuel is spent. *)
Fixpoint wait_child (fuel i : nat) (child : Child) (timeout : Z)
    : option (result DiscoveryError (option Z)) :=
  match fuel with
  | O => None
  | S fuel' =>
      match cp_wait child i with
      | Exited code => Some (Ok code)
      | StillRunning =>
          if timeout <=? cp_elapsed child i then Some (Err (Discovery_Timeout timeout))
          else wait_child fuel' (S i) child timeout
      | WaitFails error => Some (Err (Launch error))
      end
  end.

(** Between two looks the loop sleeps 10 milliseconds. *)
Definition wait_fuel (timeout : Z) : nat := S (Z.to_nat (timeout / 10 + 1)).

Definition output_with_timeout (fuel : nat) (spawned : result IoError Child) (timeout : Z)
    : option (result DiscoveryError (option Z * bytes * bytes)) :=
  match spawned with
  | Err error => Some (Err (Launch error))
  | Ok child =>
      match wait_child fuel 0 child timeout with
      | None => None
      | Some status => Some (
          status ← status;
          stdout ← map_err Launch (read_up_to (MAX_STATUS_JSON_BYTES + 1) (cp_stdout child));
          stderr ← map_err Launch (read_up_to 4097 (cp_stderr child));
          mret (status, stdout, stderr))
      end
  end.

(** [String::from_utf8_lossy]: a maximal part that cannot be continued becomes U+FFFD. *)
Definition between (low high : Z) (b : Byte.byte) : bool :=
  (low <=? byte_to_Z b) && (byte_to_Z b <=? high).
Definition utf8_chunk (b0 : Byte.byte) (rest : bytes) : Z * nat :=
  let n := byte_to_Z b0 in
  let bad k := (65533, k) in
  let low := if n =? 224 then 160 else if n =? 240 then 144 else 128 in
  let high := if n =? 237 then 159 else if n =? 244 then 143 else 191 in
  if n <=? 127 then (n, 0%nat)
  else if between 194 223 b0 then
    match rest with
    | b1 :: _ => if between 128 191 b1 then ((n - 192) * 64 + (byte_to_Z b1 - 128), 1%nat)
                 else bad 0%nat
    | [] => bad 0%nat
    end
  else if between 224 239 b0 then
    match rest with
    | b1 :: more =>
        if negb (between low high b1) then bad 0%nat
        else match more with
             | b2 :: _ =>
                 if between 128 191 b2
                 then ((n - 224) * 4096 + (byte_to_Z b1 - 128) * 64 + (byte_to_Z b2 - 128), 2%nat)
                 else bad 1%nat
             | [] => bad 1%nat
             end
    | [] => bad 0%nat
    end
  else if between 240 244 b0 then
    match rest with
    | b1 :: more =>
        if negb (between low high b1) then bad 0%nat
        else match more with
             | b2 :: more =>
                 if negb (between 128 191 b2) then bad 1%nat
                 else match more with
                      | b3 :: _ =>
                          if between 128 191 b3
                          then ((n - 240) * 262144 + (byte_to_Z b1 - 128) * 4096
                                + (byte_to_Z b2 - 128) * 64 + (byte_to_Z b3 - 128), 3%nat)
                          else bad 2%nat
                      | [] => bad 2%nat
                      end
             | [] => bad 1%nat
             end
    | [] => bad 0%nat
    end
  else bad 0%nat.
(** [skip] counts the bytes of the current part still to be passed over. *)
Fixpoint from_utf8_lossy (skip : nat) (b : bytes) : rstr :=
  match b with
  | [] => []
  | b0 :: rest =>
      match skip with
      | S skip' => from_utf8_lossy skip' rest
      | O => let '(c, more) := utf8_chunk b0 rest in c :: from_utf8_lossy more rest
      end
  end.

Definition bounded_lossy (b : bytes) (maximum : Z) : rstr :=
  let slice := if maximum <? zlen b then take (Z.to_nat maximum) b else b in
  trim (from_utf8_lossy 0 slice).

(** [CliPeerDiscovery::refresh] *)
Definition cli_refresh `{!Json RawStatus} (fuel : nat) (spawned : result IoError Child)
    : option (result DiscoveryError TailStatus) :=
  match output_with_timeout fuel spawned STATUS_COMMAND_TIMEOUT with
  | None => None
  | Some output => Some (
      '(status, stdout, stderr) ← output;
      refuse_if (negb (bool_decide (status = Some 0)))
        (NonZeroExit status (bounded_lossy stderr 4096));;
      refuse_if (MAX_STATUS_JSON_BYTES <? zlen stdout)
        (OutputTooLarge (zlen stdout) MAX_STATUS_JSON_BYTES);;
      parse_status_json stdout)
  end.

(** ** Finding the command, on Unix *)

(** The environment and [is_file] of the host. *)
Record HostEnv := mkHostEnv { he_var : rstr → option rstr; he_is_file : PathBuf → bool }.

Definition known_binary_locations (host : HostEnv) : list PathBuf :=
  [str "/Applications/Tailscale.app/Contents/MacOS/Tailscale"; str "/usr/bin/tailscale";
   str "/usr/local/bin/tailscale"; str "/opt/homebrew/bin/tailscale"]
  ++ match he_var host (str "ProgramFiles") with
     | Some program_files => [join (join program_files (str "Tailscale")) (str "tailscale.exe")]
     | None => []
     end
  ++ match he_var host (str "LOCALAPPDATA") with
     | Some local => [join (join local (str "Tailscale")) (str "tailscale.exe")]
     | None => []
     end.

(** [env::split_paths] splits at colons. *)
Definition find_on_path (host : HostEnv) (executable : rstr) : option PathBuf :=
  path ← he_var host (str "PATH");
  find (he_is_file host) (map (λ directory, join directory executable) (split_char 58 path)).

Definition locate_tailscale_binary (host : HostEnv) : option PathBuf :=
  let searched :=
    match find_on_path host (str "tailscale") with
    | Some path => Some path
    | None => find (he_is_file host) (known_binary_locations host)
    end in
  match he_var host (str "MESHELF_TAILSCALE_BIN") with
  | Some explicit => if he_is_file host explicit then Some explicit else searched
  | None => searched
  end.

(** [CliPeerDiscovery::discover] *)
Definition discover (host : HostEnv) : result DiscoveryError PathBuf :=
  ok_or (locate_tailscale_binary host) BinaryNotFound.

(** ** Sorting by host name *)

Section sorting.
Context {A : Type} (hostname : A → rstr).

#[export] Instance hostname_le_total : Total (hostname_le hostname).
Proof. intros a b. apply rstr_leb_total. Qed.
#[export] Instance hostname_le_trans : Transitive (hostname_le hostname).
Proof. intros a b c. apply rstr_leb_trans. Qed.

Lemma sort_by_hostname_Permutation l : sort_by_hostname hostname l ≡ₚ l.
Proof. apply merge_sort_Permutation. Qed.
Lemma sort_by_hostname_Sorted l : StronglySorted (hostname_le hostname) (sort_by_hostname hostname l).
Proof. apply StronglySorted_merge_sort; apply _. Qed.
Lemma elem_of_sort_by_hostname x l : x ∈ sort_by_hostname hostname l ↔ x ∈ l.
Proof. by rewrite sort_by_hostname_Permutation. Qed.
End sorting.

(** ** What a status says *)

Lemma convert_node_Ok raw node :
  convert_node raw = Ok node ↔
  omap parse_ip (rn_tailscale_i_ps raw) ≠ [] ∧
  node = mkTailNode (rn_id raw)
    (if bool_decide (trim (rn_host_name raw) = []) then first_label (rn_dns_name raw)
     else rn_host_name raw)
    (trim_end_matches is_dot <$> rn_dns_name raw)
    (omap parse_ip (rn_tailscale_i_ps raw)) (rn_online raw) (rn_active raw).
Proof.
  unfold convert_node. rewrite refuse_seq_Ok, bool_decide_eq_false. unfold mret, result_ret.
  naive_solver.
Qed.
Lemma convert_nodes_Ok raws nodes :
  convert_nodes raws = Ok nodes ↔ Forall2 (λ raw node, convert_node raw = Ok node) raws nodes.
Proof.
  revert nodes. induction raws as [|raw raws IH]; intros nodes; simpl.
  - split; [intros [= <-]; constructor|by intros ->%Forall2_nil_inv_l].
  - split.
    + intros (node & Hn & (rest & Hr & [= <-])%bind_Ok)%bind_Ok.
      constructor; [done|by apply IH].
    + intros (node & rest & Hn & Hr%IH & ->)%Forall2_cons_inv_l. by rewrite Hn, Hr.
Qed.
Lemma into_values_Permutation {A} (m : gmap rstr A) : into_values m ≡ₚ (map_to_list m).*2.
Proof. unfold into_values. by rewrite merge_sort_Permutation. Qed.

(** A node can be dialled: it has an address, and each was given for it. *)
Definition node_of (raw : RawNode) (node : TailNode) : Prop :=
  convert_node raw = Ok node ∧ is_Some (select_discovered_ip (tn_addresses node)).

Lemma select_discovered_ip_Some addresses :
  is_Some (select_discovered_ip addresses) ↔ addresses ≠ [].
Proof.
  unfold select_discovered_ip. destruct addresses as [|a addresses]; [by split; intros []|].
  destruct (find is_ipv4 (a :: addresses)); simpl; split; eauto; done.
Qed.
Lemma convert_node_dials raw node : convert_node raw = Ok node → node_of raw node.
Proof.
  intros Hn. split; [done|]. apply convert_node_Ok in Hn as [Hne ->]. by apply select_discovered_ip_Some.
Qed.

(** An accepted status is the one the text describes: its own node, and one node for each
    peer of the text, in the order of the lower-case host names; every node has an address to
    dial.  A text with one peer without a readable address has no status at all. *)
Theorem parse_status_spec `{!Json RawStatus} b status :
  parse_status_json b = Ok status ↔
  ∃ raw self_raw nodes,
    json_from_slice b = Ok raw ∧ rs_self_node raw = Some self_raw ∧
    node_of self_raw (ts_self_node status) ∧
    Forall2 node_of (into_values (rs_peer raw)) nodes ∧
    ts_peers status = sort_by_hostname tn_hostname nodes ∧
    ts_backend_state status = rs_backend_state raw.
Proof.
  unfold parse_status_json. rewrite bind_Ok. setoid_rewrite map_err_Ok. split.
  - intros (raw & Hraw & (self_raw & Hself%ok_or_Ok & (node & Hnode & (nodes & Hnodes & [= <-])
      %bind_Ok)%bind_Ok)%bind_Ok).
    exists raw, self_raw, nodes. split_and!; [done|done| | |done..]; [by apply convert_node_dials|].
    apply convert_nodes_Ok in Hnodes. eapply Forall2_impl; [exact Hnodes|]. apply convert_node_dials.
  - intros (raw & self_raw & nodes & Hraw & Hself & [Hnode _] & Hnodes & Hpeers & Hstate).
    exists raw. split; [done|]. rewrite Hself. simpl. rewrite Hnode. simpl.
    rewrite (proj2 (convert_nodes_Ok _ nodes)).
    + simpl. destruct status; simpl in *. by subst.
    + eapply Forall2_impl; [exact Hnodes|]. by intros ?? [].
Qed.

(** ** The command ends *)

Section waiting.
Implicit Types (child : Child).

(** The clock of the host does not go back, and a sleep lasts as long as it says. *)
Definition clock_ticks child : Prop := ∀ i, 10 * Z.of_nat i ≤ cp_elapsed child i.

Lemma wait_child_ends child timeout fuel i :
  clock_ticks child → timeout / 10 + 1 < Z.of_nat (fuel + i) → (0 < fuel)%nat →
  is_Some (wait_child fuel i child timeout).
Proof.
  intros Hclock. revert i. induction fuel as [|fuel IH]; intros i Hfuel Hpos; [lia|]. simpl.
  destruct (cp_wait child i); [eauto| |eauto]. specialize (Hclock i).
  destruct (Z.leb_spec timeout (cp_elapsed child i)) as [|Hlt]; [eauto|].
  apply IH; [lia|]. destruct fuel; [|lia].
  exfalso. rewrite Nat.add_1_l in Hfuel. pose proof (Z.div_lt_upper_bound timeout 10 (Z.of_nat i + 1)).
  pose proof (Z.mul_div_le timeout 10 ltac:(lia)). pose proof (Z.div_mod timeout 10 ltac:(lia)).
  pose proof (Z.mod_pos_bound timeout 10 ltac:(lia)). lia.
Qed.
Lemma wait_child_Exited child timeout fuel i code :
  wait_child fuel i child timeout = Some (Ok code) → ∃ j, cp_wait child j = Exited code.
Proof.
  revert i. induction fuel as [|fuel IH]; intros i; [done|]. simpl.
  destruct (cp_wait child i) eqn:Hw; [intros [= <-]; eauto| |done].
  destruct (timeout <=? cp_elapsed child i); [done|]. apply IH.
Qed.
End waiting.

(** The wait for the status command ends: it is given up at the deadline, so the looks of
    [wait_fuel] are enough.  (That the pipes of a killed command are closed is the host's.)  A status that is reported was read from the whole
    output, of at most 8 MiB, of a command that ended with success. *)
Theorem cli_refresh_ends `{!Json RawStatus} spawned :
  (∀ child, spawned = Ok child → clock_ticks child) →
  ∃ r, cli_refresh (wait_fuel STATUS_COMMAND_TIMEOUT) spawned = Some r ∧
    ∀ status, r = Ok status → ∃ child i out,
      spawned = Ok child ∧ cp_wait child i = Exited (Some 0) ∧ cp_stdout child = Ok out ∧
      zlen out ≤ MAX_STATUS_JSON_BYTES ∧ parse_status_json out = Ok status.
Proof.
  intros Hclock. unfold cli_refresh, output_with_timeout.
  destruct spawned as [child|e]; [|eexists; split; [done|by intros]].
  destruct (wait_child_ends child STATUS_COMMAND_TIMEOUT (wait_fuel STATUS_COMMAND_TIMEOUT) 0)
    as [[code|e] Hw]; [by apply Hclock|by vm_compute|by vm_compute; lia| |];
    rewrite Hw; (eexists; split; [reflexivity|]); intros status Hs; [|done].
  apply wait_child_Exited in Hw as [i Hi]. unfold read_up_to in Hs.
  destruct (cp_stdout child) as [out|e] eqn:Hout; [|done].
  destruct (cp_stderr child) as [err|e]; [|done]. cbn -[MAX_STATUS_JSON_BYTES take Z.to_nat] in Hs.
  apply refuse_seq_Ok in Hs as [Hcode Hs]. apply negb_false_iff, bool_decide_eq_true in Hcode.
  apply refuse_seq_Ok in Hs as [Hlen%Z.ltb_ge Hs]. subst code.
  assert (take (Z.to_nat (MAX_STATUS_JSON_BYTES + 1)) out = out) as Htake.
  { apply take_ge. unfold zlen in Hlen. rewrite length_take in Hlen. lia. }
  rewrite Htake in *. exists child, i, out. done.
Qed.
