(* ===== verification/Registry.v ===== *)
(** * The peer registry and the installation state

    Models the registry half of [crates/meshelf-tailscale/src/lib.rs]: the accepted peers, and
    the installation state that several processes read and change in one file behind a lock.
    The atomic-write-file crate is the interface [AtomicWriteFile]; the calls of the standard
    library on the file fail when the schedule of the host says so. *)

From S2P Require Import Prelude RustStr StdIo Offer Records OfferStore Filesystem Announce Discovery.

(** ** Accepted peers *)

Record TrustedPeer := mkTrustedPeer {
  tp_node_id : rstr;
  tp_device_id : DeviceId;
  tp_hostname : rstr;
  tp_addresses : list IpAddr;
  tp_public_key : bytes;
}.
#[export] Instance TrustedPeer_eq_dec : EqDecision TrustedPeer.
Proof. solve_decision. Defined.

Record PeerRegistry := mkPeerRegistry { peers : list TrustedPeer }.
#[export] Instance PeerRegistry_eq_dec : EqDecision PeerRegistry.
Proof. solve_decision. Defined.

Inductive RegistryError :=
| MissingNodeId
| InvalidPublicKey
| IdentityConflict (node_id : rstr)
| Registry_Io (error : IoError)
| Registry_Json (error : rstr)
| Registry_TooLarge (bytes maximum : Z).

Definition MAX_REGISTRY_BYTES : Z := 64 * 1024.

Definition by_device_id (registry : PeerRegistry) (device_id : DeviceId) : option TrustedPeer :=
  find (λ peer, bool_decide (tp_device_id peer = device_id)) (peers registry).
Definition has_node_id (node_id : rstr) (peer : TrustedPeer) : bool :=
  bool_decide (tp_node_id peer = node_id).
Definition by_node_id (registry : PeerRegistry) (node_id : rstr) : option TrustedPeer :=
  find (has_node_id node_id) (peers registry).

(** [if let Some(x) = l.iter_mut().find(p) { *x = f(x) }] *)
Fixpoint alter_first {A} (p : A → bool) (f : A → A) (l : list A) : list A :=
  match l with
  | [] => []
  | x :: k => if p x then f x :: k else x :: alter_first p f k
  end.

(** [node.node_id.as_deref().filter(..).ok_or(..)] *)
Definition usable_node_id (node : TailNode) : result RegistryError rstr :=
  match tn_node_id node with
  | Some node_id => if bool_decide (trim node_id = []) then Err MissingNodeId else Ok node_id
  | None => Err MissingNodeId
  end.

Definition relocated (node : TailNode) (peer : TrustedPeer) : TrustedPeer :=
  mkTrustedPeer (tp_node_id peer) (tp_device_id peer) (tn_hostname node) (tn_addresses node)
    (tp_public_key peer).
Definition insert_peer (registry : PeerRegistry) (peer : TrustedPeer) : PeerRegistry :=
  mkPeerRegistry (sort_by_hostname tp_hostname (peers registry ++ [peer])).

Definition accept (registry : PeerRegistry) (node : TailNode) (device_id : DeviceId)
    : result RegistryError PeerRegistry :=
  node_id ← usable_node_id node;
  match by_node_id registry node_id with
  | Some existing =>
      refuse_if (negb (bool_decide (tp_device_id existing = device_id)))
        (IdentityConflict node_id);;
      mret (mkPeerRegistry (alter_first (has_node_id node_id) (relocated node) (peers registry)))
  | None =>
      mret (insert_peer registry
        (mkTrustedPeer node_id device_id (tn_hostname node) (tn_addresses node) []))
  end.

Definition accept_signed (registry : PeerRegistry) (node : TailNode) (device_id : DeviceId)
    (public_key : bytes) : result RegistryError PeerRegistry :=
  refuse_if (negb (zlen public_key =? 32)) InvalidPublicKey;;
  node_id ← usable_node_id node;
  match by_node_id registry node_id with
  | Some _ =>
      mret (mkPeerRegistry (alter_first (has_node_id node_id)
        (λ peer, mkTrustedPeer (tp_node_id peer) device_id (tn_hostname node)
                   (tn_addresses node) public_key) (peers registry)))
  | None =>
      mret (insert_peer registry
        (mkTrustedPeer node_id device_id (tn_hostname node) (tn_addresses node) public_key))
  end.

Definition refresh_peer (status : TailStatus) (trusted : TrustedPeer) : TrustedPeer :=
  match find (λ node, bool_decide (tn_node_id node = Some (tp_node_id trusted))) (ts_peers status) with
  | Some node => relocated node trusted
  | None => trusted
  end.
Definition refresh_addresses (registry : PeerRegistry) (status : TailStatus) : PeerRegistry :=
  mkPeerRegistry (map (refresh_peer status) (peers registry)).

(** ** The host *)

(** A call that fails, after how many bytes of a write. *)
Record CallFault := mkCallFault { cf_progress : nat; cf_error : IoError }.

(** The state file and what the next calls come to. *)
Record Host := mkHost { ho_file : option bytes; ho_faults : list (option CallFault) }.

Definition next_call (h : Host) : option CallFault * Host :=
  match ho_faults h with
  | [] => (None, h)
  | f :: rest => (f, mkHost (ho_file h) rest)
  end.
(** A call that does not touch the state file. *)
Definition host_call : St Host RegistryError () := λ h,
  let '(fault, h) := next_call h in
  match fault with Some f => (Err (Registry_Io (cf_error f)), h) | None => (Ok (), h) end.

Definition no_such_file : IoError := mkIoError NotFound (str "No such file or directory").
(** A file that exists is never reported as missing. *)
Definition existing_error (e : IoError) : IoError :=
  if bool_decide (io_kind e = NotFound) then mkIoError OtherKind (io_message e) else e.
(** [fs::read] *)
Definition fs_read : St Host IoError bytes := λ h,
  let '(fault, h) := next_call h in
  match ho_file h, fault with
  | Some _, Some f => (Err (existing_error (cf_error f)), h)
  | Some b, None => (Ok b, h)
  | None, Some f => (Err (cf_error f), h)
  | None, None => (Err no_such_file, h)
  end.
(** [fs::write], which may stop after a part. *)
Definition fs_write (b : bytes) : St Host IoError () := λ h,
  let '(fault, h) := next_call h in
  match fault with
  | Some f => (Err (cf_error f), mkHost (Some (take (cf_progress f) b)) (ho_faults h))
  | None => (Ok (), mkHost (Some b) (ho_faults h))
  end.

(** The atomic-write-file crate: a file that is opened is filled beside the target, which
    [commit] replaces. *)
Class AtomicWriteFile := {
  Awf : Type;
  awf_open : St Host IoError Awf;
  awf_write_all : bytes → Awf → St Host IoError Awf;
  awf_sync_all : Awf → St Host IoError ();
  awf_commit : Awf → St Host IoError ();
}.
(** Its documented behaviour: only [commit] touches the target; when it fails, the target has
    the old or the new content. *)
Class AtomicWriteLaws `{AtomicWriteFile} := {
  awf_written : Awf → bytes;
  awf_open_law h r h' : awf_open h = (r, h') →
    ho_file h' = ho_file h ∧ ∀ f, r = Ok f → awf_written f = [];
  awf_write_law b f h r h' : awf_write_all b f h = (r, h') →
    ho_file h' = ho_file h ∧ ∀ f', r = Ok f' → awf_written f' = awf_written f ++ b;
  awf_sync_law f h r h' : awf_sync_all f h = (r, h') → ho_file h' = ho_file h;
  awf_commit_law f h r h' : awf_commit f h = (r, h') →
    ho_file h' = Some (awf_written f) ∨ r ≠ Ok () ∧ ho_file h' = ho_file h;
}.

(** ** The installation state *)

Record InstallationState := mkInstallationState {
  is_device_id : DeviceId;
  is_peers : PeerRegistry;
  is_settings : UserSettings;
}.
#[export] Instance InstallationState_eq_dec : EqDecision InstallationState.
Proof. solve_decision. Defined.

Definition registry_default : PeerRegistry := mkPeerRegistry [].
(** [InstallationState::default()] with the device id it generates. *)
Definition installation_default (generated : DeviceId) : InstallationState :=
  mkInstallationState generated registry_default settings_default.

Record InstallationStore := mkInstallationStore { state_path : PathBuf; lock_path : PathBuf }.
(** [InstallationStore::new] *)
Definition installation_store_new (state_path : PathBuf) : InstallationStore :=
  mkInstallationStore state_path (state_path ++ str ".lock").

Section store.
Context {atomic : AtomicWriteFile} {state_json : Json InstallationState}.
Context {registry_json : Json PeerRegistry}.
Notation M := (St Host RegistryError).

(** What [InstallationState::load] and [PeerRegistry::load] share. *)
Definition load_json {A} `{!Json A} (absent : A) : M A :=
  read ← st_try fs_read;
  match read with
  | Err error =>
      if bool_decide (io_kind error = NotFound) then mret absent else st_err (Registry_Io error)
  | Ok b =>
      if MAX_REGISTRY_BYTES <? zlen b then st_err (Registry_TooLarge (zlen b) MAX_REGISTRY_BYTES)
      else st_lift (map_err Registry_Json (json_from_slice b))
  end.

(** [InstallationState::load] *)
Definition installation_load (generated : DeviceId) : M InstallationState :=
  load_json (installation_default generated).

(** [InstallationState::save] *)
Definition installation_save (state : InstallationState) : M () :=
  b ← st_lift (map_err Registry_Json (json_to_vec state));
  file ← st_map_err Registry_Io awf_open;
  file ← st_map_err Registry_Io (awf_write_all b file);
  st_map_err Registry_Io (awf_sync_all file);;
  st_map_err Registry_Io (awf_commit file).

(** [PeerRegistry::load] and [PeerRegistry::save] *)
Definition registry_load : M PeerRegistry := load_json registry_default.
Definition registry_save (registry : PeerRegistry) : M () :=
  b ← st_lift (map_err Registry_Json (json_to_vec registry));
  st_map_err Registry_Io (fs_write b).

Definition reconcile (identity : DeviceId) (loaded : InstallationState) : InstallationState :=
  if bool_decide (is_device_id loaded = identity) then loaded
  else mkInstallationState identity registry_default (is_settings loaded).
Definition load_reconciled (generated identity : DeviceId) : M InstallationState :=
  loaded ← installation_load generated;
  mret (reconcile identity loaded).

(** Before the lock is asked for: the directory and the lock file. *)
Definition open_lock (store : InstallationStore) : M () :=
  match parent (state_path store) with
  | Some directory => if bool_decide (directory = []) then mret () else host_call
  | None => mret ()
  end;;
  host_call.

(** After the operation: the outcome of the two together. *)
Definition unlock_with {T} (result : result RegistryError T) : M T :=
  unlock ← st_try host_call;
  match result, unlock with
  | Ok value, Ok _ => mret value
  | Err error, _ => st_err error
  | Ok _, Err error => st_err error
  end.

Definition with_exclusive_lock {T} (store : InstallationStore) (operation : M T) : M T :=
  open_lock store;;
  host_call;;
  result ← st_try operation;
  unlock_with result.

(** What [update] runs under the lock, after the state is loaded. *)
Definition apply_update (change : InstallationState → result RegistryError InstallationState)
    (latest : InstallationState) : M InstallationState :=
  state ← st_lift (change latest);
  installation_save state;;
  mret state.

(** [InstallationStore::load_for_identity] and [InstallationStore::update] *)
Definition load_for_identity (store : InstallationStore) (generated identity : DeviceId)
    : M InstallationState :=
  with_exclusive_lock store (load_reconciled generated identity).
Definition update (store : InstallationStore) (generated identity : DeviceId)
    (change : InstallationState → result RegistryError InstallationState) : M InstallationState :=
  with_exclusive_lock store (
    latest ← load_reconciled generated identity;
    apply_update change latest).
End store.

(** ** The registry as a map *)

Section registry.
Implicit Types (registry : PeerRegistry) (node : TailNode) (p : TrustedPeer) (l : list TrustedPeer).

(** The peers by the id of their tailnet node, and what every registry satisfies. *)
Definition peer_map l : gmap rstr TrustedPeer := list_to_map ((λ p, (tp_node_id p, p)) <$> l).
Definition peer_ok p : Prop :=
  trim (tp_node_id p) ≠ [] ∧ (tp_public_key p = [] ∨ zlen (tp_public_key p) = 32).
Definition registry_ok registry : Prop :=
  NoDup (tp_node_id <$> peers registry) ∧ Forall peer_ok (peers registry).
Notation view registry := (peer_map (peers registry)).

Lemma peer_map_cons p l : peer_map (p :: l) = <[tp_node_id p := p]> (peer_map l).
Proof. done. Qed.
Lemma find_node_id l id : find (has_node_id id) l = peer_map l !! id.
Proof.
  induction l as [|p l IH]; [symmetry; apply lookup_empty|]. rewrite peer_map_cons. simpl.
  unfold has_node_id at 1. case_bool_decide as Hid; [subst id; by rewrite lookup_insert_eq|].
  by rewrite lookup_insert_ne.
Qed.
Lemma by_node_id_map registry id : by_node_id registry id = view registry !! id.
Proof. apply find_node_id. Qed.

Lemma keys_of l : ((λ p, (tp_node_id p, p)) <$> l).*1 = tp_node_id <$> l.
Proof. rewrite <- list_fmap_compose. done. Qed.
Lemma peer_map_Permutation l k :
  NoDup (tp_node_id <$> l) → l ≡ₚ k → peer_map l = peer_map k.
Proof. intros Hl Hp. apply list_to_map_proper; [by rewrite keys_of|by rewrite Hp]. Qed.
Lemma peer_map_snoc l p :
  peer_map l !! tp_node_id p = None → NoDup (tp_node_id <$> l) →
  peer_map (l ++ [p]) = <[tp_node_id p := p]> (peer_map l).
Proof.
  intros Hnone Hl. rewrite (peer_map_Permutation _ (p :: l)); [done| |by rewrite Permutation_app_comm].
  rewrite fmap_app, NoDup_app. split_and!; [done| |by apply NoDup_singleton].
  intros id Hid ->%list_elem_of_singleton. apply not_elem_of_list_to_map in Hnone.
  by rewrite keys_of in Hnone.
Qed.
Lemma peer_map_Some_id l id p : peer_map l !! id = Some p → tp_node_id p = id ∧ p ∈ l.
Proof.
  intros (q & [= -> ->] & Hq)%elem_of_list_to_map_2%list_elem_of_fmap. done.
Qed.

(** An update in place that keeps the id. *)
Lemma alter_first_ids f l id :
  (∀ p, tp_node_id (f p) = tp_node_id p) →
  tp_node_id <$> alter_first (has_node_id id) f l = tp_node_id <$> l.
Proof.
  intros Hf. induction l as [|p l IH]; [done|]. cbn [alter_first].
  destruct (has_node_id id p); rewrite !fmap_cons, ?Hf, ?IH; done.
Qed.
Lemma alter_first_map f l id :
  (∀ p, tp_node_id (f p) = tp_node_id p) → NoDup (tp_node_id <$> l) →
  peer_map (alter_first (has_node_id id) f l) = alter f id (peer_map l).
Proof.
  intros Hf. induction l as [|p l IH]; intros Hl; [done|]. cbn [alter_first].
  rewrite peer_map_cons. apply NoDup_cons in Hl as [Hnot Hl].
  destruct (has_node_id id p) eqn:Hp; unfold has_node_id in Hp.
  - apply bool_decide_eq_true in Hp as <-. by rewrite peer_map_cons, Hf, alter_insert_eq.
  - apply bool_decide_eq_false in Hp. by rewrite peer_map_cons, alter_insert_ne, IH by done.
Qed.
Lemma Forall_alter_first {A} (P : A → Prop) q (f : A → A) (l : list A) :
  Forall P l → (∀ x, P x → P (f x)) → Forall P (alter_first q f l).
Proof. induction 1; intros Hf; simpl; [done|]. case_match; auto. Qed.

Lemma usable_node_id_Ok node id :
  usable_node_id node = Ok id ↔ tn_node_id node = Some id ∧ trim id ≠ [].
Proof.
  unfold usable_node_id. destruct (tn_node_id node) as [i|]; [|naive_solver].
  case_bool_decide; naive_solver.
Qed.
Lemma insert_peer_map registry p :
  registry_ok registry → view registry !! tp_node_id p = None → peer_ok p →
  registry_ok (insert_peer registry p) ∧
  view (insert_peer registry p) = <[tp_node_id p := p]> (view registry).
Proof.
  intros [Hids Hok] Hnone Hp. unfold insert_peer.
  assert (NoDup (tp_node_id <$> peers registry ++ [p])) as Hids'.
  { rewrite fmap_app, NoDup_app. split_and!; [done| |by apply NoDup_singleton].
    intros id Hid ->%list_elem_of_singleton. apply not_elem_of_list_to_map in Hnone.
    by rewrite keys_of in Hnone. }
  unfold registry_ok. cbn [peers]. split; [split|].
  - by rewrite sort_by_hostname_Permutation.
  - rewrite sort_by_hostname_Permutation, Forall_app, Forall_singleton. done.
  - rewrite <- peer_map_snoc by done. symmetry. apply peer_map_Permutation; [done|].
    by rewrite sort_by_hostname_Permutation.
Qed.
Lemma alter_peer_map registry f id p :
  registry_ok registry → view registry !! id = Some p →
  (∀ q, tp_node_id (f q) = tp_node_id q) → (∀ q, peer_ok q → peer_ok (f q)) →
  registry_ok (mkPeerRegistry (alter_first (has_node_id id) f (peers registry))) ∧
  view (mkPeerRegistry (alter_first (has_node_id id) f (peers registry)))
    = <[id := f p]> (view registry).
Proof.
  intros [Hids Hok] Hp Hf Hf'. unfold registry_ok. cbn [peers].
  rewrite alter_first_ids, alter_first_map by done. split_and!; [done|by apply Forall_alter_first|].
  apply map_eq. intros i. destruct (decide (i = id)) as [->|Hne].
  - by rewrite lookup_alter_eq, lookup_insert_eq, Hp.
  - by rewrite lookup_alter_ne, lookup_insert_ne.
Qed.

Lemma accept_signed_Ok registry node d key registry' :
  registry_ok registry → accept_signed registry node d key = Ok registry' →
  ∃ id, tn_node_id node = Some id ∧ trim id ≠ [] ∧ zlen key = 32 ∧ registry_ok registry' ∧
    view registry' =
      <[id := mkTrustedPeer id d (tn_hostname node) (tn_addresses node) key]> (view registry).
Proof.
  intros Hok. unfold accept_signed. rewrite refuse_seq_Ok, negb_false_iff, Z.eqb_eq.
  intros [Hkey (id & [Hid Htrim]%usable_node_id_Ok & Hrun)%bind_Ok]. exists id.
  rewrite by_node_id_map in Hrun. split_and!; [done..| |].
  all: destruct (view registry !! id) as [p|] eqn:Hp; injection Hrun as <-.
  all: try (destruct (alter_peer_map registry (λ peer, mkTrustedPeer (tp_node_id peer) d
         (tn_hostname node) (tn_addresses node) key) id p Hok Hp) as [Hok' Hview];
       [done|by intros q [? _]; split; [|right]|]).
  all: try (destruct (insert_peer_map registry
         (mkTrustedPeer id d (tn_hostname node) (tn_addresses node) key) Hok Hp) as [Hok' Hview];
       [by split; [|right]|]).
  all: try done.
  rewrite Hview. by apply peer_map_Some_id in Hp as [-> _].
Qed.

Lemma accept_Ok registry node d registry' :
  registry_ok registry → accept registry node d = Ok registry' →
  ∃ id, tn_node_id node = Some id ∧ trim id ≠ [] ∧ registry_ok registry' ∧
    (∀ p, view registry !! id = Some p → tp_device_id p = d) ∧
    view registry' = <[id := mkTrustedPeer id d (tn_hostname node) (tn_addresses node)
      (from_option tp_public_key [] (view registry !! id))]> (view registry).
Proof.
  intros Hok. unfold accept.
  intros (id & [Hid Htrim]%usable_node_id_Ok & Hrun)%bind_Ok. exists id.
  rewrite by_node_id_map in Hrun. destruct (view registry !! id) as [p|] eqn:Hp.
  - apply refuse_seq_Ok in Hrun as [Hd%negb_false_iff%bool_decide_eq_true [= <-]].
    destruct (alter_peer_map registry (relocated node) id p Hok Hp) as [Hok' Hview];
      [done|by intros q ?|].
    split_and!; [done..|by intros ? [= <-]|]. rewrite Hview.
    apply peer_map_Some_id in Hp as [<- _]. by rewrite <- Hd.
  - injection Hrun as <-. destruct (insert_peer_map registry
      (mkTrustedPeer id d (tn_hostname node) (tn_addresses node) []) Hok Hp) as [Hok' Hview];
      [by split; [|left]|]. done.
Qed.

Lemma refresh_peer_spec status p :
  tp_node_id (refresh_peer status p) = tp_node_id p ∧
  tp_device_id (refresh_peer status p) = tp_device_id p ∧
  tp_public_key (refresh_peer status p) = tp_public_key p.
Proof. unfold refresh_peer. by destruct (find _ _). Qed.
Lemma refresh_addresses_spec registry status :
  registry_ok registry →
  registry_ok (refresh_addresses registry status) ∧
  view (refresh_addresses registry status) = refresh_peer status <$> view registry.
Proof.
  intros [Hids Hok]. unfold registry_ok, refresh_addresses. cbn [peers].
  change (map (refresh_peer status) (peers registry)) with (refresh_peer status <$> peers registry).
  assert (∀ l, tp_node_id <$> (refresh_peer status <$> l) = tp_node_id <$> l) as Hsame.
  { intros l. rewrite <- list_fmap_compose. apply list_fmap_ext. intros _ p _.
    apply (refresh_peer_spec status p). }
  split; [split|].
  - by rewrite Hsame.
  - apply Forall_fmap. eapply Forall_impl; [exact Hok|]. intros p. unfold compose, peer_ok.
    by destruct (refresh_peer_spec status p) as (-> & _ & ->).
  - clear Hids Hok Hsame. generalize (peers registry) as l. intros l.
    induction l as [|p l IH]; [symmetry; apply fmap_empty|]. rewrite fmap_cons, !peer_map_cons, IH, fmap_insert.
    by destruct (refresh_peer_spec status p) as (-> & _ & _).
Qed.
End registry.

(** The operations on the registry, and what each of them is on the map. *)
Inductive RegistryOp :=
| Op_accept (node : TailNode) (device_id : DeviceId)
| Op_accept_signed (node : TailNode) (device_id : DeviceId) (public_key : bytes)
| Op_refresh (status : TailStatus).
Definition run_op (op : RegistryOp) (registry : PeerRegistry) : result RegistryError PeerRegistry :=
  match op with
  | Op_accept node d => accept registry node d
  | Op_accept_signed node d key => accept_signed registry node d key
  | Op_refresh status => Ok (refresh_addresses registry status)
  end.
Definition map_op (op : RegistryOp) (m : gmap rstr TrustedPeer)
    : result RegistryError (gmap rstr TrustedPeer) :=
  let bind id d key node := <[id := mkTrustedPeer id d (tn_hostname node) (tn_addresses node) key]> m in
  match op with
  | Op_accept node d =>
      id ← usable_node_id node;
      match m !! id with
      | Some p => if bool_decide (tp_device_id p = d) then Ok (bind id d (tp_public_key p) node)
                  else Err (IdentityConflict id)
      | None => Ok (bind id d [] node)
      end
  | Op_accept_signed node d key =>
      if zlen key =? 32 then id ← usable_node_id node; Ok (bind id d key node)
      else Err InvalidPublicKey
  | Op_refresh status => Ok (refresh_peer status <$> m)
  end.

(** C31: The sorted list of peers behaves as a finite map from the ids of tailnet nodes: every
    operation keeps it well formed, does to its entries exactly what the map operation does,
    and is refused exactly when that is.  So a refresh changes neither the device nor the key
    of any peer, and an acceptance only the entry of its own node. *)
Theorem registry_refines_map op registry :
  registry_ok registry →
  match run_op op registry with
  | Ok registry' =>
      registry_ok registry' ∧
      map_op op (peer_map (peers registry)) = Ok (peer_map (peers registry'))
  | Err e => map_op op (peer_map (peers registry)) = Err e
  end.
Proof.
  intros Hok. destruct op as [node d|node d key|status]; cbn [run_op map_op].
  - destruct (accept registry node d) as [registry'|e] eqn:Hrun.
    + apply accept_Ok in Hrun as (id & Hid & Htrim & Hok' & Hd & Hview); [|done].
      split; [done|]. rewrite (proj2 (usable_node_id_Ok node id)) by done. simpl. rewrite Hview.
      destruct (peer_map (peers registry) !! id) as [p|] eqn:Hp; [|done].
      by rewrite bool_decide_eq_true_2 by by apply Hd.
    + unfold accept in Hrun. destruct (usable_node_id node) as [id|]; simpl in Hrun |- *; [|congruence].
      rewrite by_node_id_map in Hrun. destruct (peer_map (peers registry) !! id) as [p|]; [|done].
      apply bind_Err in Hrun as [[Hd%negb_true_iff%bool_decide_eq_false ->]%refuse_if_Err|(? & _ & ?)];
        [by rewrite bool_decide_eq_false_2|done].
  - destruct (accept_signed registry node d key) as [registry'|e] eqn:Hrun.
    + apply accept_signed_Ok in Hrun as (id & Hid & Htrim & Hkey & Hok' & Hview); [|done].
      split; [done|]. rewrite Hkey. simpl. rewrite (proj2 (usable_node_id_Ok node id)) by done.
      simpl. by rewrite Hview.
    + unfold accept_signed in Hrun. destruct (zlen key =? 32); simpl in Hrun; [|congruence].
      destruct (usable_node_id node) as [id|]; simpl in Hrun |- *; [|congruence].
      by destruct (by_node_id registry id).
  - destruct (refresh_addresses_spec registry status Hok) as [Hok' ->]. done.
Qed.

(** ** The store *)

Section host.
Context {atomic : AtomicWriteFile} {laws : AtomicWriteLaws}.
Context {state_json : Json InstallationState} {state_laws : JsonLaws InstallationState}.
Implicit Types (h : Host) (store : InstallationStore) (g d : DeviceId).
Implicit Types (change : InstallationState → result RegistryError InstallationState).
Notation same_file := (same_on ho_file).

Lemma host_call_same : keeps same_file host_call.
Proof. intros [file [|[]]]; done. Qed.
Lemma fs_read_same : keeps same_file fs_read.
Proof. intros [[] [|[]]]; done. Qed.
#[local] Hint Resolve host_call_same fs_read_same : keeps.

Lemma open_lock_same store : keeps same_file (open_lock store).
Proof. unfold open_lock. keeps_tac. Qed.
Lemma unlock_with_same {T} (r : result RegistryError T) : keeps same_file (unlock_with r).
Proof. unfold unlock_with. keeps_tac. destruct r; keeps_tac. Qed.

(** What the state file holds for an identity. *)
Definition stored_state g d (file : option bytes) : option InstallationState :=
  match file with
  | None => Some (reconcile d (installation_default g))
  | Some b =>
      if MAX_REGISTRY_BYTES <? zlen b then None
      else match json_from_slice b with Ok state => Some (reconcile d state) | Err _ => None end
  end.

Lemma fs_read_spec h r h' :
  fs_read h = (r, h') →
  ho_file h' = ho_file h ∧
  match r with
  | Ok b => ho_file h = Some b
  | Err e => io_kind e = NotFound → ho_file h = None
  end.
Proof.
  destruct h as [[b|] [|[f|] rest]]; cbn; intros [= <- <-]; (split; [done|]); try done.
  unfold existing_error. by case_bool_decide.
Qed.
Lemma load_reconciled_spec g d h r h' :
  load_reconciled g d h = (r, h') →
  ho_file h' = ho_file h ∧ ∀ latest, r = Ok latest → stored_state g d (ho_file h) = Some latest.
Proof.
  unfold load_reconciled, installation_load, load_json, stored_state.
  intros [(e & Hrun & ->)|(loaded & h1 & Hrun & [= <- <-])]%st_bind_inv.
  - apply st_try_inv in Hrun as (read & h2 & [<- Hread]%fs_read_spec & Hrun).
    split; [|done]. destruct read as [b|e']; [destruct (MAX_REGISTRY_BYTES <? zlen b)|case_bool_decide];
      by injection Hrun as _ <-.
  - apply st_try_inv in Hrun as (read & h2 & [<- Hread]%fs_read_spec & Hrun). split.
    + destruct read as [b|e']; [destruct (MAX_REGISTRY_BYTES <? zlen b)|case_bool_decide];
        by injection Hrun as _ <-.
    + intros latest [= <-]. destruct read as [b|e'].
      * rewrite Hread. destruct (MAX_REGISTRY_BYTES <? zlen b); [done|].
        apply st_lift_Ok in Hrun as [Hj%map_err_Ok _]. by rewrite Hj.
      * case_bool_decide as Hkind; [|done]. rewrite (Hread Hkind). by injection Hrun as <- _.
Qed.

Lemma installation_save_spec state h r h' :
  installation_save state h = (r, h') →
  (∃ b, json_to_vec state = Ok b ∧ ho_file h' = Some b) ∨ (r ≠ Ok () ∧ ho_file h' = ho_file h).
Proof.
  unfold installation_save. intros Hrun.
  step_in Hrun as b h1 Hjson; [injection Hjson as _ <-; by right|].
  apply st_lift_Ok in Hjson as [Hjson%map_err_Ok ->].
  step_in Hrun as f h2 Hopen.
  { apply st_map_err_inv in Hopen as (o & Hopen & _). apply awf_open_law in Hopen as [-> _]. by right. }
  apply st_map_err_Ok, awf_open_law in Hopen as [Hf Hempty].
  step_in Hrun as f' h3 Hwrite.
  { apply st_map_err_inv in Hwrite as (o & Hwrite & _). apply awf_write_law in Hwrite as [-> _]. by right. }
  apply st_map_err_Ok, awf_write_law in Hwrite as [Hf' Hall].
  step_in Hrun as u h4 Hsync.
  { apply st_map_err_inv in Hsync as (o & Hsync & _). apply awf_sync_law in Hsync as ->.
    right. split; [done|congruence]. }
  apply st_map_err_Ok, awf_sync_law in Hsync.
  apply st_map_err_inv in Hrun as (o & Hcommit & ->).
  apply awf_commit_law in Hcommit as [Hdone|[Hne Hold]].
  - left. exists b. split; [done|]. by rewrite Hdone, (Hall _ eq_refl), (Hempty _ eq_refl).
  - right. split; [by destruct o as [[]|]|congruence].
Qed.

Lemma with_exclusive_lock_inv {T} store (operation : St Host RegistryError T) h r h' :
  with_exclusive_lock store operation h = (r, h') →
  ((∃ e, r = Err e) ∧ ho_file h' = ho_file h) ∨
  ∃ h1 o h2, operation h1 = (o, h2) ∧ ho_file h1 = ho_file h ∧ ho_file h' = ho_file h2 ∧
    (∀ v, r = Ok v → o = Ok v) ∧ (∀ e, o = Err e → r = Err e).
Proof.
  unfold with_exclusive_lock. intros Hrun.
  step_in Hrun as u h1 Hopen; pose proof (open_lock_same store h) as Hs1;
    rewrite Hopen in Hs1; [left; eauto|].
  step_in Hrun as u' h2 Hlock; pose proof (host_call_same h1) as Hs2;
    rewrite Hlock in Hs2; unfold same_on in *; simpl in *; [left; split; [eauto|congruence]|].
  apply st_try_inv in Hrun as (o & h3 & Hop & Hrun).
  pose proof (unlock_with_same o h3) as Hs3. rewrite Hrun in Hs3. simpl in Hs3.
  right. exists h2, o, h3. split_and!; [done|congruence|done| |].
  - intros v ->. unfold unlock_with in Hrun. apply st_try_inv in Hrun as (c & h4 & _ & Hrun).
    unfold mret, st_ret, st_err in Hrun. destruct o, c; naive_solver.
  - intros e ->. unfold unlock_with in Hrun. apply st_try_inv in Hrun as (c & h4 & _ & Hrun).
    unfold mret, st_ret, st_err in Hrun. destruct c; naive_solver.
Qed.

Lemma apply_update_spec change latest h r h' :
  apply_update change latest h = (r, h') →
  (∃ state b, change latest = Ok state ∧ json_to_vec state = Ok b ∧ ho_file h' = Some b ∧
     ∀ v, r = Ok v → v = state) ∨
  ((∃ e, r = Err e) ∧ ho_file h' = ho_file h).
Proof.
  unfold apply_update. intros Hrun. step_in Hrun as state h1 Hchange.
  { injection Hchange as _ <-. right. eauto. }
  apply st_lift_Ok in Hchange as [Hchange ->].
  step_in Hrun as u h1 Hsave; apply installation_save_spec in Hsave.
  - destruct Hsave as [(b & Hb & Hf)|[_ Hf]]; [left; eauto 10|right; eauto].
    exists state, b. by split_and!.
  - injection Hrun as <- <-. destruct Hsave as [(b & Hb & Hf)|[Hne _]]; [|by destruct u].
    left. exists state, b. split_and!; [done..|]. by intros v [= <-].
Qed.

(** One transaction that took effect: the change was applied to what the file held. *)
Definition committed g d change (file file' : option bytes) (state : InstallationState) : Prop :=
  ∃ latest b, stored_state g d file = Some latest ∧ change latest = Ok state ∧
    json_to_vec state = Ok b ∧ file' = Some b.

Lemma update_cases store g d change h r h' :
  update store g d change h = (r, h') →
  (∃ state, committed g d change (ho_file h) (ho_file h') state ∧ ∀ v, r = Ok v → v = state) ∨
  ((∃ e, r = Err e) ∧ ho_file h' = ho_file h).
Proof.
  unfold update. intros [|(h1 & o & h2 & Hop & Hf1 & Hf2 & Hok & Herr)]%with_exclusive_lock_inv; [by right|].
  apply st_bind_inv in Hop as [(e & Hload & ->)|(latest & h3 & Hload & Hop)];
    apply load_reconciled_spec in Hload as [Hf3 Hlatest].
  - right. split; [eauto|congruence].
  - specialize (Hlatest _ eq_refl). apply apply_update_spec in Hop as [(state & b & Hc & Hb & Hf & Hv)|[[e ->] Hf]].
    + left. exists state. rewrite Hf1 in Hlatest. split; [exists latest, b; split_and!; congruence|].
      intros v Hr. apply Hv. by apply Hok.
    + right. split; [eauto|congruence].
Qed.

(** An update that reports success has been applied, as a whole, to what the file held, and
    the state it returns is the stored one; one that reports an error has left the file alone,
    or has been applied as a whole too (when giving the lock back or the commit itself
    reported the error). *)
Theorem update_atomic store g d change h r h' :
  update store g d change h = (r, h') →
  match r with
  | Ok state => committed g d change (ho_file h) (ho_file h') state
  | Err _ => ho_file h' = ho_file h ∨
             ∃ state, committed g d change (ho_file h) (ho_file h') state
  end.
Proof.
  intros [(state & Hc & Hv)|[[e ->] Hf]]%update_cases; [|by left].
  destruct r as [v|e]; [by rewrite (Hv _ eq_refl)|eauto].
Qed.

Lemma load_for_identity_spec store g d h r h' :
  load_for_identity store g d h = (r, h') →
  ho_file h' = ho_file h ∧ ∀ latest, r = Ok latest → stored_state g d (ho_file h) = Some latest.
Proof.
  intros [[[e ->] Hf]|(h1 & o & h2 & Hop & Hf1 & Hf2 & Hok & _)]%with_exclusive_lock_inv; [done|].
  apply load_reconciled_spec in Hop as [Hf3 Hlatest]. split; [congruence|].
  intros latest Hr. rewrite <- Hf1. by apply Hlatest, Hok.
Qed.

(** A file of more than 64 KiB is not read. *)
Lemma oversized_never_loads g d b h r h' :
  ho_file h = Some b → MAX_REGISTRY_BYTES < zlen b → load_reconciled g d h = (r, h') →
  ∃ e, r = Err e.
Proof.
  intros Hb Hlen [_ Hr]%load_reconciled_spec. destruct r as [latest|e]; [|eauto].
  specialize (Hr _ eq_refl). rewrite Hb in Hr. cbn [stored_state] in Hr.
  destruct (Z.ltb_spec MAX_REGISTRY_BYTES (zlen b)); [done|lia].
Qed.
(** A state that is larger than the loader accepts is stored all the same; after it no
    operation of the store succeeds, and none changes the file. *)
Theorem oversized_state_locks_out store g d change h state h' b :
  update store g d change h = (Ok state, h') → json_to_vec state = Ok b →
  MAX_REGISTRY_BYTES < zlen b →
  ∀ g' d' change' faults,
    let later := mkHost (ho_file h') faults in
    (∃ e later', update store g' d' change' later = (Err e, later') ∧ ho_file later' = ho_file h') ∧
    (∃ e later', load_for_identity store g' d' later = (Err e, later') ∧ ho_file later' = ho_file h').
Proof.
  intros [(state' & (latest & b' & _ & _ & Hb' & Hfile) & Hv)|[[e [=]] _]]%update_cases Hb Hlen
    g' d' change' faults later.
  rewrite <- (Hv _ eq_refl), Hb in Hb'. injection Hb' as <-.
  assert (ho_file later = Some b) as Hlater by done. split.
  - destruct (update store g' d' change' later) as [r l] eqn:Hrun.
    apply update_cases in Hrun as [(s & (l0 & b0 & Hstored & _) & _)|[[e ->] Hf]]; [|eauto].
    rewrite Hlater in Hstored. cbn [stored_state] in Hstored.
    destruct (Z.ltb_spec MAX_REGISTRY_BYTES (zlen b)); [done|lia].
  - destruct (load_for_identity store g' d' later) as [r l] eqn:Hrun. unfold load_for_identity in Hrun.
    apply with_exclusive_lock_inv in Hrun as [[[e ->] Hf]|(h1 & o & h2 & Hop & Hf1 & Hf2 & _ & Herr)]; [eauto|].
    destruct (oversized_never_loads _ _ b _ _ _ (eq_trans Hf1 Hlater) Hlen Hop) as [e ->].
    apply load_reconciled_spec in Hop as [Hf3 _]. rewrite (Herr _ eq_refl). do 2 eexists.
    split; [done|]. by rewrite Hf2, Hf3, Hf1.
Qed.
End host.
