(* ===== verification/Transactions.v ===== *)
(** * Processes that share the installation state

    The desktop and the other meshelf processes read and change one state file, each through
    [InstallationStore] ([crates/meshelf-tailscale/src/lib.rs]).  Here they run at once: a
    process goes through [load_for_identity] or [update] of [Registry] in steps, any number of
    processes are interleaved, and each may die between two steps, which gives its lock back.
    Whatever the interleaving, the updates take effect one after the other and none is lost. *)

From S2P Require Import Prelude RustStr StdIo Offer Records OfferStore Filesystem Announce Discovery Registry.

(** ** Processes *)

Inductive Task :=
| Task_Load
| Task_Update (change : InstallationState → result RegistryError InstallationState).

(** Where a process is: before the lock file is open, waiting for the lock, holding it before
    and after the state is read, giving it back with its outcome, done, dead. *)
Inductive Stage :=
| Entering
| Locking
| Reading
| Writing (latest : InstallationState)
| Unlocking (outcome : result RegistryError InstallationState)
| Finished (outcome : result RegistryError InstallationState)
| Dead.

Record Process := mkProcess {
  pr_store : InstallationStore;
  pr_identity : DeviceId;
  pr_generated : DeviceId;
  pr_task : Task;
  pr_faults : list (option CallFault);
  pr_stage : Stage;
}.

(** The state file, the process that holds the lock, and the processes by their number. *)
Record Shared := mkShared {
  sh_file : option bytes;
  sh_lock : option nat;
  sh_procs : gmap nat Process;
}.

Definition at_stage (faults : list (option CallFault)) (stage : Stage) (p : Process) : Process :=
  mkProcess (pr_store p) (pr_identity p) (pr_generated p) (pr_task p) faults stage.
Definition host_of (s : Shared) (p : Process) : Host := mkHost (sh_file s) (pr_faults p).
(** Process [i], which was [p], has run to [h] and is now at [stage]. *)
Definition moved (i : nat) (p : Process) (h : Host) (stage : Stage) (lock : option nat)
    (s : Shared) : Shared :=
  mkShared (ho_file h) lock (<[i := at_stage (ho_faults h) stage p]> (sh_procs s)).

Section processes.
Context {atomic : AtomicWriteFile} {state_json : Json InstallationState}.

Definition after_read (task : Task) (r : result RegistryError InstallationState) : Stage :=
  match task, r with
  | Task_Update _, Ok latest => Writing latest
  | _, _ => Unlocking r
  end.
Definition failed_or {T} (next : Stage) (r : result RegistryError T) : Stage :=
  match r with Ok _ => next | Err e => Finished (Err e) end.

(** The sections of [with_exclusive_lock] are those of [Registry]; [File::lock] waits until
    the lock is free, or fails. *)
Inductive shared_step (s : Shared) : Shared → Prop :=
| step_start i p :
    sh_procs s !! i = None → pr_stage p = Entering →
    shared_step s (mkShared (sh_file s) (sh_lock s) (<[i := p]> (sh_procs s)))
| step_enter i p r h :
    sh_procs s !! i = Some p → pr_stage p = Entering →
    open_lock (pr_store p) (host_of s p) = (r, h) →
    shared_step s (moved i p h (failed_or Locking r) (sh_lock s) s)
| step_lock i p h :
    sh_procs s !! i = Some p → pr_stage p = Locking → sh_lock s = None →
    host_call (host_of s p) = (Ok (), h) →
    shared_step s (moved i p h Reading (Some i) s)
| step_lock_fails i p e h :
    sh_procs s !! i = Some p → pr_stage p = Locking →
    host_call (host_of s p) = (Err e, h) →
    shared_step s (moved i p h (Finished (Err e)) (sh_lock s) s)
| step_read i p r h :
    sh_procs s !! i = Some p → pr_stage p = Reading →
    load_reconciled (pr_generated p) (pr_identity p) (host_of s p) = (r, h) →
    shared_step s (moved i p h (after_read (pr_task p) r) (sh_lock s) s)
| step_write i p change latest r h :
    sh_procs s !! i = Some p → pr_stage p = Writing latest → pr_task p = Task_Update change →
    apply_update change latest (host_of s p) = (r, h) →
    shared_step s (moved i p h (Unlocking r) (sh_lock s) s)
| step_unlock i p outcome r h :
    sh_procs s !! i = Some p → pr_stage p = Unlocking outcome →
    unlock_with outcome (host_of s p) = (r, h) →
    shared_step s (moved i p h (Finished r) None s)
| step_dies i p :
    sh_procs s !! i = Some p →
    shared_step s (moved i p (host_of s p) Dead
      (if bool_decide (sh_lock s = Some i) then None else sh_lock s) s).

Definition shared_start (file : option bytes) : Shared := mkShared file None ∅.

(** The next step of process [i], if it has one now. *)
Definition advance (i : nat) (s : Shared) : option Shared :=
  p ← sh_procs s !! i;
  match pr_stage p with
  | Entering =>
      let '(r, h) := open_lock (pr_store p) (host_of s p) in
      Some (moved i p h (failed_or Locking r) (sh_lock s) s)
  | Locking =>
      match host_call (host_of s p) with
      | (Ok _, h) =>
          if bool_decide (sh_lock s = None) then Some (moved i p h Reading (Some i) s) else None
      | (Err e, h) => Some (moved i p h (Finished (Err e)) (sh_lock s) s)
      end
  | Reading =>
      let '(r, h) := load_reconciled (pr_generated p) (pr_identity p) (host_of s p) in
      Some (moved i p h (after_read (pr_task p) r) (sh_lock s) s)
  | Writing latest =>
      match pr_task p with
      | Task_Update change =>
          let '(r, h) := apply_update change latest (host_of s p) in
          Some (moved i p h (Unlocking r) (sh_lock s) s)
      | Task_Load => None
      end
  | Unlocking outcome =>
      let '(r, h) := unlock_with outcome (host_of s p) in
      Some (moved i p h (Finished r) None s)
  | Finished _ | Dead => None
  end.

Lemma advance_step i s s' : advance i s = Some s' → shared_step s s'.
Proof.
  unfold advance. intros (p & Hp & H)%bind_Some. destruct (pr_stage p) eqn:Hstage; try done.
  - destruct (open_lock _ _) as [r h] eqn:Hrun. injection H as <-. by eapply step_enter.
  - destruct (host_call _) as [[[]|e] h] eqn:Hrun.
    + case_bool_decide; [|done]. injection H as <-. by apply step_lock.
    + injection H as <-. by eapply step_lock_fails.
  - destruct (load_reconciled _ _ _) as [r h] eqn:Hrun. injection H as <-. by eapply step_read.
  - destruct (pr_task p) as [|change] eqn:Htask; [done|].
    destruct (apply_update _ _ _) as [r h] eqn:Hrun. injection H as <-. by eapply step_write.
  - destruct (unlock_with _ _) as [r h] eqn:Hrun. injection H as <-. by eapply step_unlock.
Qed.
Lemma advance_steps schedule s s' :
  foldl (λ o i, o ≫= advance i) (Some s) schedule = Some s' → rtc shared_step s s'.
Proof.
  revert s. induction schedule as [|i schedule IH]; intros s; cbn [foldl]; [by intros [= <-]|].
  change (Some s ≫= advance i) with (advance i s). destruct (advance i s) as [s1|] eqn:Hi.
  - intros Hrest. eapply rtc_l; [by eapply advance_step|by apply IH].
  - intros Hnone. exfalso. revert Hnone. clear. induction schedule as [|j schedule IH]; [done|exact IH].
Qed.
End processes.

(** ** The invariant *)

Section serial.
Context {atomic : AtomicWriteFile} {laws : AtomicWriteLaws}.
Context {state_json : Json InstallationState}.
Implicit Types (s : Shared) (p : Process) (procs : gmap nat Process).
Implicit Types (log : list (nat * InstallationState)) (file : option bytes).

(** The file after a sequence of transactions, each of an update that is one of [procs]. *)
Inductive history procs file : list (nat * InstallationState) → option bytes → Prop :=
| history_start : history procs file [] file
| history_commit log before i p change state after :
    history procs file log before → procs !! i = Some p → pr_task p = Task_Update change →
    committed (pr_generated p) (pr_identity p) change before after state →
    history procs file (log ++ [(i, state)]) after.

Definition holds (stage : Stage) : bool :=
  match stage with Reading | Writing _ | Unlocking _ => true | _ => false end.
Definition lock_ok (lock : option nat) procs : Prop :=
  ∀ i, lock = Some i ↔ ∃ p, procs !! i = Some p ∧ holds (pr_stage p) = true.

Definition is_update p : Prop := ∃ change, pr_task p = Task_Update change.
(** What the log has of process [i]. *)
Definition fits log file (i : nat) p : Prop :=
  match pr_stage p with
  | Entering | Locking | Reading => i ∉ log.*1
  | Writing latest =>
      is_update p ∧ i ∉ log.*1 ∧
      stored_state (pr_generated p) (pr_identity p) file = Some latest
  | Unlocking (Ok state) | Finished (Ok state) => is_update p → (i, state) ∈ log
  | _ => True
  end.

Definition serial_with file s log : Prop :=
  history (sh_procs s) file log (sh_file s) ∧ NoDup log.*1 ∧
  lock_ok (sh_lock s) (sh_procs s) ∧
  (∀ i p, sh_procs s !! i = Some p → fits log (sh_file s) i p).
Definition serial_inv file s : Prop := ∃ log, serial_with file s log.

(** Processes keep their task. *)
Definition same_task p p' : Prop :=
  pr_task p' = pr_task p ∧ pr_identity p' = pr_identity p ∧ pr_generated p' = pr_generated p.
Lemma history_insert procs file log f i p' :
  history procs file log f → (∀ p, procs !! i = Some p → same_task p p') →
  history (<[i := p']> procs) file log f.
Proof.
  intros Hh Hp'. induction Hh as [|log before j p change state after Hh IH Hj Ht Hc]; [constructor|].
  destruct (decide (j = i)) as [->|Hne].
  - destruct (Hp' _ Hj) as (E1 & E2 & E3).
    eapply history_commit; [exact IH|apply lookup_insert_eq|rewrite E1; exact Ht|by rewrite E2, E3].
  - eapply history_commit; [exact IH|by rewrite lookup_insert_ne|done|done].
Qed.
Lemma history_tasks procs file log f i state :
  history procs file log f → (i, state) ∈ log → ∃ p, procs !! i = Some p ∧ is_update p.
Proof.
  induction 1 as [|log before j p change st after Hh IH Hj Ht Hc]; [by intros ?%elem_of_nil|].
  intros [Hin|[= -> ->]%list_elem_of_singleton]%elem_of_app; [by apply IH|]. exists p. split; [done|by exists change].
Qed.

(** Mutual exclusion, kept by each kind of step. *)
Lemma lock_ok_keep lock procs i p p' :
  lock_ok lock procs → procs !! i = Some p → holds (pr_stage p') = holds (pr_stage p) →
  lock_ok lock (<[i := p']> procs).
Proof.
  intros Hl Hp Hh j. rewrite (Hl j). destruct (decide (j = i)) as [->|Hne].
  - rewrite lookup_insert_eq. split; intros (q & Hq & Hqh).
    + exists p'. split; [done|]. congruence.
    + exists p. split; [done|]. congruence.
  - by rewrite lookup_insert_ne.
Qed.
Lemma lock_ok_new lock procs i p' :
  lock_ok lock procs → procs !! i = None → holds (pr_stage p') = false →
  lock_ok lock (<[i := p']> procs).
Proof.
  intros Hl Hp Hh j. rewrite (Hl j). destruct (decide (j = i)) as [->|Hne].
  - rewrite lookup_insert_eq. split; intros (q & Hq & Hqh); congruence.
  - by rewrite lookup_insert_ne.
Qed.
Lemma lock_ok_take procs i p' :
  lock_ok None procs → holds (pr_stage p') = true → lock_ok (Some i) (<[i := p']> procs).
Proof.
  intros Hl Hh j. destruct (decide (j = i)) as [->|Hne].
  - rewrite lookup_insert_eq. naive_solver.
  - rewrite lookup_insert_ne by done. specialize (Hl j). naive_solver.
Qed.
Lemma lock_ok_free lock procs i p' :
  lock_ok lock procs → holds (pr_stage p') = false →
  lock_ok (if bool_decide (lock = Some i) then None else lock) (<[i := p']> procs).
Proof.
  intros Hl Hh j. destruct (decide (j = i)) as [->|Hne].
  - rewrite lookup_insert_eq. case_bool_decide; (split; [done|intros (q & Hq & Hqh); congruence]).
  - rewrite lookup_insert_ne, <- (Hl j) by done. case_bool_decide; [|done]. split; congruence.
Qed.
Lemma lock_ok_holder lock procs i p :
  lock_ok lock procs → procs !! i = Some p → holds (pr_stage p) = true → lock = Some i.
Proof. intros Hl Hp Hh. apply Hl. eauto. Qed.

(** A step that leaves the file alone. *)
Lemma serial_quiet file s log i p' lock f :
  serial_with file s log → f = sh_file s →
  (∀ p, sh_procs s !! i = Some p → same_task p p') →
  lock_ok lock (<[i := p']> (sh_procs s)) → fits log (sh_file s) i p' →
  serial_inv file (mkShared f lock (<[i := p']> (sh_procs s))).
Proof.
  intros (Hh & Hnd & _ & Hfits) -> Hsame Hlock Hp'. exists log. split_and!; cbn; [|done..|].
  - by apply history_insert.
  - intros j q [[<- <-]|[Hne Hq]]%lookup_insert_Some; [done|by apply Hfits].
Qed.
Lemma fits_file log file file' i p :
  fits log file i p → (∀ latest, pr_stage p = Writing latest → file' = file) → fits log file' i p.
Proof. unfold fits. destruct (pr_stage p) as [| | |latest|[]|[]|]; try done. intros Hf Hsame. by rewrite (Hsame _ eq_refl). Qed.
Lemma fits_log log extra file i p :
  fits log file i p → i ∉ extra.*1 → fits (log ++ extra) file i p.
Proof.
  unfold fits. intros Hf Hi. assert (i ∉ log.*1 → i ∉ (log ++ extra).*1) by (rewrite fmap_app; set_solver).
  destruct (pr_stage p) as [| | |latest|[]|[]|]; naive_solver set_solver.
Qed.

Lemma log_elem log i : i ∈ log.*1 → ∃ state, (i, state) ∈ log.
Proof. intros ([j state] & -> & Hin)%list_elem_of_fmap. by exists state. Qed.

(** A step of a process that leaves the file alone, with what it does to the lock. *)
Lemma serial_moved file s log i p h stage lock :
  serial_with file s log → sh_procs s !! i = Some p → ho_file h = sh_file s →
  lock_ok lock (<[i := at_stage (ho_faults h) stage p]> (sh_procs s)) →
  fits log (sh_file s) i (at_stage (ho_faults h) stage p) →
  serial_inv file (moved i p h stage lock s).
Proof.
  intros Hs Hp Hfile Hlock Hfits. eapply serial_quiet; try done.
  intros q Hq. rewrite Hp in Hq. injection Hq as <-. done.
Qed.

(** The step that may commit. *)
Lemma serial_write file s log i p change latest r h :
  serial_with file s log → sh_procs s !! i = Some p → pr_stage p = Writing latest →
  pr_task p = Task_Update change → apply_update change latest (host_of s p) = (r, h) →
  serial_inv file (moved i p h (Unlocking r) (sh_lock s) s).
Proof.
  intros Hs Hp Hstage Htask Hrun. pose proof Hs as (Hh & Hnd & Hlock & Hfits).
  pose proof (Hfits _ _ Hp) as Hi. unfold fits in Hi. rewrite Hstage in Hi. destruct Hi as (_ & Hnot & Hlatest).
  assert (lock_ok (sh_lock s) (<[i := at_stage (ho_faults h) (Unlocking r) p]> (sh_procs s))) as Hlock'.
  { eapply lock_ok_keep; [exact Hlock|exact Hp|by rewrite Hstage]. }
  apply apply_update_spec in Hrun as [(state & b & Hchange & Hb & Hf & Hv)|[[e ->] Hf]].
  2: { by apply (serial_moved file s log). }
  exists (log ++ [(i, state)]). unfold moved. split_and!; cbn.
  - eapply history_commit; [|apply lookup_insert_eq|exact Htask|].
    + apply history_insert; [exact Hh|]. intros q Hq. rewrite Hp in Hq. by injection Hq as <-.
    + exists latest, b. done.
  - rewrite fmap_app, NoDup_app. split_and!; [done| |by apply NoDup_singleton].
    intros j Hj ->%list_elem_of_singleton. done.
  - done.
  - intros j q [[<- <-]|[Hne Hq]]%lookup_insert_Some.
    + unfold fits. simpl. destruct r as [v|e]; [|done]. intros _. rewrite (Hv _ eq_refl). set_solver.
    + apply fits_log; [|set_solver]. eapply fits_file; [by apply Hfits|].
      intros other Hother. exfalso.
      assert (sh_lock s = Some j) as Hj by (apply (lock_ok_holder _ _ _ _ Hlock Hq); by rewrite Hother).
      assert (sh_lock s = Some i) as Hi by (apply (lock_ok_holder _ _ _ _ Hlock Hp); by rewrite Hstage).
      congruence.
Qed.

Lemma unlock_with_Ok {T} (o : result RegistryError T) h r h' v :
  unlock_with o h = (r, h') → r = Ok v → o = Ok v.
Proof.
  intros Hrun ->. unfold unlock_with in Hrun. apply st_try_inv in Hrun as (c & h4 & _ & Hrun).
  unfold mret, st_ret, st_err in Hrun. destruct o, c; naive_solver.
Qed.

Lemma serial_step file s s' : serial_inv file s → shared_step s s' → serial_inv file s'.
Proof.
  intros [log Hs] Hstep. pose proof Hs as (Hh & Hnd & Hlock & Hfits).
  destruct Hstep as [i p Hi Hstage|i p r h Hp Hstage Hrun|i p h Hp Hstage Hfree Hrun
    |i p e h Hp Hstage Hrun|i p r h Hp Hstage Hrun|i p change latest r h Hp Hstage Htask Hrun
    |i p outcome r h Hp Hstage Hrun|i p Hp].
  - apply (serial_quiet file s log); try done; [by intros q Hq; congruence| |].
    + apply lock_ok_new; [done..|by rewrite Hstage].
    + unfold fits. rewrite Hstage. intros (state & Hin)%log_elem.
      destruct (history_tasks _ _ _ _ _ _ Hh Hin) as (q & Hq & _). congruence.
  - pose proof (Hfits _ _ Hp) as Hi. unfold fits in Hi. rewrite Hstage in Hi.
    pose proof (open_lock_same (pr_store p) (host_of s p)) as Hf. rewrite Hrun in Hf.
    apply (serial_moved file s log); try done.
    + eapply lock_ok_keep; [done..|]. rewrite Hstage. by destruct r.
    + by destruct r.
  - pose proof (Hfits _ _ Hp) as Hi. unfold fits in Hi. rewrite Hstage in Hi.
    pose proof (host_call_same (host_of s p)) as Hf. rewrite Hrun in Hf.
    apply (serial_moved file s log); try done. apply lock_ok_take; [by rewrite <- Hfree|done].
  - pose proof (host_call_same (host_of s p)) as Hf. rewrite Hrun in Hf.
    apply (serial_moved file s log); try done. eapply lock_ok_keep; [done..|by rewrite Hstage].
  - pose proof (Hfits _ _ Hp) as Hi. unfold fits in Hi. rewrite Hstage in Hi.
    apply load_reconciled_spec in Hrun as [Hf Hlatest].
    apply (serial_moved file s log); try done.
    + eapply lock_ok_keep; [done..|]. rewrite Hstage. by destruct (pr_task p), r.
    + unfold fits, after_read. simpl. destruct (pr_task p) as [|change] eqn:Htask, r as [latest|e]; try done.
      * intros [change Hc]. simpl in Hc. congruence.
      * split; [by exists change|]. split; [done|]. by apply Hlatest.
  - by eapply serial_write.
  - pose proof (Hfits _ _ Hp) as Hi. unfold fits in Hi. rewrite Hstage in Hi.
    pose proof (unlock_with_same outcome (host_of s p)) as Hf. rewrite Hrun in Hf.
    assert (sh_lock s = Some i) as Hl by (apply (lock_ok_holder _ _ _ _ Hlock Hp); by rewrite Hstage).
    apply (serial_moved file s log); try done.
    + pose proof (lock_ok_free (sh_lock s) (sh_procs s) i (at_stage (ho_faults h) (Finished r) p)
        Hlock eq_refl) as Hfreed. by rewrite bool_decide_eq_true_2 in Hfreed.
    + unfold fits. simpl. destruct r as [v|e]; [|done]. by rewrite (unlock_with_Ok _ _ _ _ v Hrun eq_refl) in Hi.
  - apply (serial_moved file s log); try done. by apply lock_ok_free.
Qed.

Lemma serial_reachable file s : rtc shared_step (shared_start file) s → serial_inv file s.
Proof.
  intros Hrtc. assert (serial_inv file (shared_start file)) as Hstart.
  { exists []. split_and!; cbn; [constructor|constructor| |].
    - intros i. split; [done|]. by intros (p & Hp%lookup_empty_Some & _).
    - by intros i p Hp%lookup_empty_Some. }
  induction Hrtc as [|s1 s2 s3 Hstep _ IH]; [done|]. apply IH. by eapply serial_step.
Qed.

Definition ended (stage : Stage) : bool :=
  match stage with Finished _ | Dead => true | _ => false end.
Lemma advance_holder file log s i p :
  serial_with file s log → sh_procs s !! i = Some p → holds (pr_stage p) = true →
  is_Some (advance i s).
Proof.
  intros (_ & _ & _ & Hfits) Hp Hholds. pose proof (Hfits _ _ Hp) as Hi. unfold advance, fits in *.
  rewrite Hp. simpl. destruct (pr_stage p) as [| | |latest|o|o|]; try done.
  - by destruct (load_reconciled _ _ _).
  - destruct Hi as [[change ->] _]. by destruct (apply_update _ _ _).
  - by destruct (unlock_with _ _).
Qed.
Lemma never_stuck file log s i p :
  serial_with file s log → sh_procs s !! i = Some p → ended (pr_stage p) = false →
  ∃ j, is_Some (advance j s).
Proof.
  intros Hs Hp Hended. destruct (sh_lock s) as [j|] eqn:Hl.
  - pose proof Hs as (_ & _ & Hlock & _). apply Hlock in Hl as (q & Hq & Hholds).
    exists j. by eapply advance_holder.
  - exists i. destruct (holds (pr_stage p)) eqn:Hholds; [by eapply advance_holder|].
    unfold advance. rewrite Hp. simpl. destruct (pr_stage p); try done.
    + by destruct (open_lock _ _).
    + rewrite Hl. destruct (host_call _) as [[[]|e] h]; eauto.
Qed.

(** C26: However the processes are interleaved, whichever calls fail and whichever processes die,
    the state file is the result of whole updates applied one after the other, each to what
    the one before had left, at most one for each process; every update that reported success
    is one of them, with the state it returned; never do two processes hold the lock; and as
    long as one process is not over, one can go on. *)
Theorem updates_serialize file s :
  rtc shared_step (shared_start file) s →
  ∃ log, history (sh_procs s) file log (sh_file s) ∧ NoDup log.*1 ∧
    (∀ i p state, sh_procs s !! i = Some p → is_update p →
       pr_stage p = Finished (Ok state) → (i, state) ∈ log) ∧
    (∀ i j p q, sh_procs s !! i = Some p → sh_procs s !! j = Some q →
       holds (pr_stage p) = true → holds (pr_stage q) = true → i = j) ∧
    (∀ i p, sh_procs s !! i = Some p → ended (pr_stage p) = false → ∃ j, is_Some (advance j s)).
Proof.
  intros (log & Hh & Hnd & Hlock & Hfits)%serial_reachable. exists log. split_and!; [done..| | |].
  - intros i p state Hp Htask Hstage. pose proof (Hfits _ _ Hp) as Hi. unfold fits in Hi.
    rewrite Hstage in Hi. by apply Hi.
  - intros i j p q Hp Hq Hhp Hhq. pose proof (lock_ok_holder _ _ _ _ Hlock Hp Hhp) as Hi.
    pose proof (lock_ok_holder _ _ _ _ Hlock Hq Hhq) as Hj. congruence.
  - intros i p. apply (never_stuck file log); by split_and!.
Qed.

Section lost.
Context {state_laws : JsonLaws InstallationState} (d : DeviceId).
Context (R : relation InstallationState) {R_preorder : PreOrder R}.

(** The processes of one installation, whose updates keep [R]. *)
Definition respectful s : Prop := ∀ i p change latest state,
  sh_procs s !! i = Some p → pr_task p = Task_Update change → change latest = Ok state →
  pr_identity p = d ∧ (is_device_id latest = d → is_device_id state = d) ∧ R latest state.

Lemma stored_state_identity g file state : stored_state g d file = Some state → is_device_id state = d.
Proof.
  unfold stored_state. assert (∀ x, is_device_id (reconcile d x) = d) as Hd.
  { intros x. unfold reconcile. by case_bool_decide. }
  destruct file as [b|]; [|by intros [= <-]]. destruct (MAX_REGISTRY_BYTES <? zlen b); [done|].
  destruct (json_from_slice b); [|done]. by intros [= <-].
Qed.
Lemma stored_state_after g state b current :
  json_to_vec state = Ok b → is_device_id state = d → stored_state g d (Some b) = Some current →
  current = state.
Proof.
  intros Hb%json_round_trip Hd. cbn [stored_state]. destruct (MAX_REGISTRY_BYTES <? zlen b); [done|].
  rewrite Hb. intros [= <-]. unfold reconcile. by rewrite bool_decide_eq_true_2.
Qed.

Lemma history_keeps s file log f i state g current :
  respectful s → history (sh_procs s) file log f → (i, state) ∈ log →
  stored_state g d f = Some current → R state current.
Proof.
  intros Hresp Hh. revert g current.
  induction Hh as [|log before j p change st after Hh IH Hj Ht (latest & b & Hlatest & Hc & Hb & ->)];
    intros g current; [by intros ?%elem_of_nil|]. intros Hin Hcur.
  destruct (Hresp _ _ _ _ _ Hj Ht Hc) as (Hid & Hkeep & HR). rewrite Hid in Hlatest.
  specialize (Hkeep (stored_state_identity _ _ _ Hlatest)).
  rewrite (stored_state_after _ _ _ _ Hb Hkeep Hcur).
  apply elem_of_app in Hin as [Hin|[= -> ->]%list_elem_of_singleton]; [|done].
  etrans; [by eapply IH|exact HR].
Qed.
End lost.

(** If the updates of all processes keep a preorder, then whatever a process was told it had
    stored is, up to that preorder, still in the file, as long as the file can be read. *)
Lemma reported_state_kept {state_laws : JsonLaws InstallationState} d (R : relation InstallationState)
    file s i p state g current :
  PreOrder R → rtc shared_step (shared_start file) s → respectful d R s →
  sh_procs s !! i = Some p → is_update p → pr_stage p = Finished (Ok state) →
  stored_state g d (sh_file s) = Some current → R state current.
Proof.
  intros HR (log & Hh & _ & _ & Hfits)%serial_reachable Hresp Hp Htask Hstage Hcur.
  pose proof (Hfits _ _ Hp) as Hi. unfold fits in Hi. rewrite Hstage in Hi.
  eapply history_keeps; [exact HR|done|exact Hh|by apply Hi|exact Hcur].
Qed.
End serial.

(** The preorder of the accepted nodes, and the changes that keep it. *)
Definition nodes_kept (a b : InstallationState) : Prop :=
  ∀ id, is_Some (by_node_id (is_peers a) id) → is_Some (by_node_id (is_peers b) id).
#[export] Instance nodes_kept_preorder : PreOrder nodes_kept.
Proof. split; [by intros a id|]. intros a b c Hab Hbc id Ha. by apply Hbc, Hab. Qed.

(** What the program passes to [update]. *)
Definition change_peers (op : RegistryOp) (latest : InstallationState)
    : result RegistryError InstallationState :=
  registry ← run_op op (is_peers latest);
  mret (mkInstallationState (is_device_id latest) registry (is_settings latest)).
Definition change_settings (settings : UserSettings) (latest : InstallationState)
    : result RegistryError InstallationState :=
  mret (mkInstallationState (is_device_id latest) (is_peers latest) settings).

Section changes.
Implicit Types (l : list TrustedPeer).

Lemma find_node_id_elem l id : is_Some (find (has_node_id id) l) ↔ id ∈ tp_node_id <$> l.
Proof.
  induction l as [|p l IH]; simpl.
  - split; [by intros []|by intros ?%elem_of_nil].
  - unfold has_node_id at 1. rewrite elem_of_cons, <- IH. case_bool_decide; naive_solver.
Qed.
Lemma by_node_id_elem registry id :
  is_Some (by_node_id registry id) ↔ id ∈ tp_node_id <$> peers registry.
Proof. apply find_node_id_elem. Qed.

Lemma run_op_ids op registry registry' id :
  run_op op registry = Ok registry' →
  id ∈ tp_node_id <$> peers registry → id ∈ tp_node_id <$> peers registry'.
Proof.
  assert (∀ f i l, (∀ p, tp_node_id (f p) = tp_node_id p) →
    tp_node_id <$> alter_first (has_node_id i) f l = tp_node_id <$> l) as Halter.
  { intros f i l Hf. by apply alter_first_ids. }
  assert (∀ p, id ∈ tp_node_id <$> peers registry →
    id ∈ tp_node_id <$> peers (insert_peer registry p)) as Hinsert.
  { intros p Hid. cbn. rewrite sort_by_hostname_Permutation, fmap_app. set_solver. }
  destruct op as [node d|node d key|status]; cbn [run_op].
  - unfold accept. intros (i & _ & Hrun)%bind_Ok.
    destruct (by_node_id registry i); [apply refuse_seq_Ok in Hrun as [_ Hrun]|];
      injection Hrun as <-; cbn [peers]; [by rewrite Halter|auto].
  - unfold accept_signed. intros [_ (i & _ & Hrun)%bind_Ok]%refuse_seq_Ok.
    destruct (by_node_id registry i); injection Hrun as <-; cbn [peers]; [by rewrite Halter|auto].
  - intros [= <-]. cbn. change (map ?f ?l) with (f <$> l). rewrite <- list_fmap_compose.
    rewrite (list_fmap_ext (tp_node_id ∘ refresh_peer status) tp_node_id); [done|].
    intros _ p _. apply (refresh_peer_spec status p).
Qed.
Lemma change_peers_kept op latest state :
  change_peers op latest = Ok state →
  is_device_id state = is_device_id latest ∧ nodes_kept latest state.
Proof.
  unfold change_peers. intros (registry & Hrun & [= <-])%bind_Ok. split; [done|].
  intros id. rewrite !by_node_id_elem. by apply (run_op_ids op).
Qed.

(** Every process works for the device [d], and changes peers or settings, as the program
    does. *)
Definition program_tasks (d : DeviceId) (s : Shared) : Prop := ∀ i p, sh_procs s !! i = Some p →
  pr_identity p = d ∧
  ∀ change, pr_task p = Task_Update change →
    (∃ op, change = change_peers op) ∨ ∃ settings, change = change_settings settings.

(** C29: No accepted peer is lost: whatever refreshes, acceptances and changes of the settings run
    at the same time, fail or die, every node in the registry a finished update has returned
    is in the registry that the file then holds, as long as the file can be read at all. *)
Theorem accepted_peers_stay {atomic : AtomicWriteFile} {laws : AtomicWriteLaws}
    {state_json : Json InstallationState} {state_laws : JsonLaws InstallationState}
    d file s i p state g current id :
  rtc shared_step (shared_start file) s → program_tasks d s →
  sh_procs s !! i = Some p → is_update p → pr_stage p = Finished (Ok state) →
  stored_state g d (sh_file s) = Some current →
  is_Some (by_node_id (is_peers state) id) → is_Some (by_node_id (is_peers current) id).
Proof.
  intros Hrtc Htasks Hp Htask Hstage Hcur.
  apply (reported_state_kept d nodes_kept file s i p state g current); try done; [apply _|].
  intros j q change latest st Hq Hchange Hrun. destruct (Htasks j q Hq) as [Hd Hall].
  split; [done|]. destruct (Hall _ Hchange) as [[op ->]|[settings ->]].
  - by apply change_peers_kept in Hrun as [-> Hkept].
  - injection Hrun as <-. split; [done|]. by intros other Hother.
Qed.
End changes.

(** ** Witnesses *)

Module RegistrySample.

(** Writing atomically as documented, each call failing when the schedule says so. *)
Definition sample_call {T} (x : T) : St Host IoError T := λ h,
  let '(fault, h) := next_call h in
  match fault with Some f => (Err (cf_error f), h) | None => (Ok x, h) end.
#[export] Instance sample_atomic : AtomicWriteFile := {|
  Awf := bytes;
  awf_open := sample_call [];
  awf_write_all b f := sample_call (f ++ b);
  awf_sync_all f := sample_call ();
  awf_commit f := λ h,
    let '(r, h) := sample_call () h in
    match r with Ok _ => (Ok (), mkHost (Some f) (ho_faults h)) | Err e => (Err e, h) end;
|}.
#[export, refine] Instance sample_atomic_laws : AtomicWriteLaws := {| awf_written f := f |}.
Proof.
  - intros [file [|[]]]; cbn; intros ?? [= <- <-]; (split; [done|by intros ? [= <-]]).
  - intros b f [file [|[]]]; cbn; intros ?? [= <- <-]; (split; [done|by intros ? [= <-]]).
  - intros f [file [|[]]]; cbn; by intros ?? [= <- <-].
  - intros f [file [|[]]]; cbn; intros ?? [= <- <-]; naive_solver.
Defined.

Definition own : DeviceId := mkDeviceId 1.
Definition other : DeviceId := mkDeviceId 2.
Definition key (b : Byte.byte) : bytes := replicate 32 b.
Definition node (id name : rstr) (bits : Z) : TailNode :=
  mkTailNode (Some id) name None [V4 bits] true true.
Definition bzot : TailNode := node (str "node-bzot") (str "BZOT") 1.
Definition status : TailStatus :=
  mkTailStatus (str "Running") (node (str "self") (str "BMST") 9)
    [node (str "node-bzot") (str "bzot-renamed") 2].

Definition empty_state : InstallationState := mkInstallationState own registry_default settings_default.
Definition accepted : InstallationState :=
  mkInstallationState own (mkPeerRegistry
    [mkTrustedPeer (str "node-bzot") other (str "BZOT") [V4 1] (key Byte.x07)]) settings_default.
Definition refreshed : InstallationState :=
  mkInstallationState own (mkPeerRegistry
    [mkTrustedPeer (str "node-bzot") other (str "bzot-renamed") [V4 2] (key Byte.x07)]) settings_default.
#[export] Instance sample_json : Json InstallationState := table_json [empty_state; accepted; refreshed].
#[export] Instance sample_json_laws : JsonLaws InstallationState := table_json_laws _.

Definition store : InstallationStore := installation_store_new (str "/home/u/.config/meshelf/state.json").
Definition accepting : InstallationState → result RegistryError InstallationState :=
  change_peers (Op_accept_signed bzot other (key Byte.x07)).
Definition refreshing : InstallationState → result RegistryError InstallationState :=
  change_peers (Op_refresh status).

Lemma registry_refines_map_witness :
  match run_op (Op_accept_signed bzot other (key Byte.x07)) registry_default with
  | Ok r => registry_ok r ∧ by_node_id r (str "node-bzot") = Some (mkTrustedPeer (str "node-bzot") other (str "BZOT") [V4 1] (key Byte.x07))
  | Err _ => False
  end.
Proof.
  pose proof (registry_refines_map (Op_accept_signed bzot other (key Byte.x07)) registry_default
    ltac:(split; constructor)) as H.
  destruct (run_op _ _) as [r|e] eqn:Hr; [destruct H as [H _]|by vm_compute in Hr].
  split; [exact H|]. vm_compute in Hr. injection Hr as <-. reflexivity.
Defined.

Lemma update_atomic_witness :
  ∃ h', update store other own accepting (mkHost None []) = (Ok accepted, h') ∧
    committed other own accepting None (ho_file h') accepted.
Proof.
  destruct (update store other own accepting (mkHost None [])) as [r h'] eqn:Hrun.
  pose proof (update_atomic _ _ _ _ _ _ _ Hrun) as H. vm_compute in Hrun.
  injection Hrun as <- <-. eexists. split; [reflexivity|exact H].
Defined.

(** A registry whose encoding is one byte longer than the loader accepts. *)
Definition large_json : Json InstallationState := {|
  json_to_vec _ := Ok (replicate (Z.to_nat 65537) Byte.x20);
  json_from_slice _ := Ok empty_state;
|}.
Lemma oversized_state_locks_out_witness :
  ∃ h', update (state_json := large_json) store other own accepting (mkHost None []) = (Ok accepted, h') ∧
    ∃ e later, update (state_json := large_json) store other own refreshing (mkHost (ho_file h') [])
      = (Err e, later) ∧ ho_file later = ho_file h'.
Proof.
  destruct (update (state_json := large_json) store other own accepting (mkHost None []))
    as [r h'] eqn:Hrun.
  assert (r = Ok accepted) as -> by (symmetry; exact (f_equal fst Hrun)).
  exists h'. split; [done|].
  destruct (oversized_state_locks_out (state_json := large_json) store other own accepting
    (mkHost None []) accepted h' (replicate (Z.to_nat 65537) Byte.x20) Hrun eq_refl)
    with (g' := other) (d' := own) (change' := refreshing) (faults := @nil (option CallFault)) as [H _].
  - unfold zlen. rewrite length_replicate, Z2Nat.id by done. reflexivity.
  - exact H.
Defined.

(** Two processes at once: the second waits for the lock while the first accepts a peer, then
    refreshes the addresses. *)
Definition process (change : InstallationState → result RegistryError InstallationState) : Process :=
  mkProcess store own other (Task_Update change) [] Entering.
Definition started : Shared :=
  mkShared None None (<[1%nat := process refreshing]> (<[0%nat := process accepting]> ∅)).
Definition schedule : list nat := [0; 1; 0; 0; 0; 0; 1; 1; 1; 1]%nat.
Definition interleaved : Shared :=
  default started (foldl (λ o i, o ≫= advance i) (Some started) schedule).

Lemma interleaved_reachable : rtc shared_step (shared_start None) interleaved.
Proof.
  eapply rtc_l; [by apply (step_start _ 0%nat (process accepting))|].
  eapply rtc_l; [by apply (step_start _ 1%nat (process refreshing))|].
  apply (advance_steps schedule). vm_compute. reflexivity.
Qed.
Lemma interleaved_tasks i p :
  sh_procs interleaved !! i = Some p →
  pr_identity p = own ∧
  ((i = 0%nat ∧ pr_task p = Task_Update accepting ∧ pr_stage p = Finished (Ok accepted)) ∨
   (i = 1%nat ∧ pr_task p = Task_Update refreshing ∧ pr_stage p = Finished (Ok refreshed))).
Proof.
  assert (sh_procs interleaved =
    <[1%nat := at_stage [] (Finished (Ok refreshed)) (process refreshing)]>
      (<[0%nat := at_stage [] (Finished (Ok accepted)) (process accepting)]> ∅)) as ->
    by (vm_compute; reflexivity).
  rewrite !lookup_insert_Some. naive_solver.
Qed.
Lemma interleaved_file : stored_state other own (sh_file interleaved) = Some refreshed.
Proof. vm_compute. reflexivity. Qed.

Lemma updates_serialize_witness :
  ∃ log, history (sh_procs interleaved) None log (sh_file interleaved) ∧
    (0%nat, accepted) ∈ log ∧ (1%nat, refreshed) ∈ log.
Proof.
  destruct (updates_serialize None interleaved interleaved_reachable)
    as (log & Hh & _ & Hall & _).
  exists log. split; [exact Hh|]. split.
  - eapply Hall; [reflexivity|by exists accepting|reflexivity].
  - eapply Hall; [reflexivity|by exists refreshing|reflexivity].
Defined.
Lemma accepted_peers_stay_witness :
  rtc shared_step (shared_start None) interleaved ∧
  is_Some (by_node_id (is_peers refreshed) (str "node-bzot")).
Proof.
  split; [exact interleaved_reachable|].
  apply (accepted_peers_stay own None interleaved 0%nat
    (at_stage [] (Finished (Ok accepted)) (process accepting)) accepted other refreshed).
  - exact interleaved_reachable.
  - intros i p Hp. destruct (interleaved_tasks i p Hp) as [Hid H]. split; [exact Hid|].
    destruct H as [(_ & -> & _)|(_ & -> & _)]; intros change [= <-]; left; eexists; reflexivity.
  - vm_compute. reflexivity.
  - by exists accepting.
  - reflexivity.
  - exact interleaved_file.
  - eexists. reflexivity.
Defined.
End RegistrySample.
