(* ===== verification/Coordinator.v ===== *)
(** * The resident coordinator

    Models [crates/meshelf-control/src/coordinator.rs] and [local_control.rs]: the object that
    turns a paste into a durable offer with one announcement for each accepted peer, plans
    activations of the cards on the shelf, and answers the requests of the local control
    channel.  It sees the store of offers and cards through the classes [OfferSourceStore] and
    [OfferCardStore], the installation state through [Registry], and a source through
    [Source].  What a binary attaches (network fan-out and the fetch worker) is the argument
    [LocalRuntime], as the trait is in the code. *)

From S2P Require Import Prelude RustStr StdIo Offer Records Identity Protocol OfferStore Activation Filesystem Announce Connection Manifest Transfer Source Sender Discovery Registry.

(** ** Texts of errors *)

Definition registry_error_to_string (e : RegistryError) : rstr :=
  match e with
  | MissingNodeId => str "accepted Tailscale node has no stable node ID"
  | InvalidPublicKey => str "accepted meshelf identity does not contain a 32-byte public key"
  | IdentityConflict node_id =>
      str "Tailscale node " ++ node_id ++ str " is already bound to another meshelf identity"
  | Registry_Io error => str "peer registry I/O error: " ++ io_message error
  | Registry_Json error => str "peer registry JSON error: " ++ error
  | Registry_TooLarge bytes maximum =>
      str "peer registry is " ++ show_int bytes ++ str " bytes; maximum is " ++ show_int maximum
  end.
Definition preparation_error_to_string (e : SourcePreparationError) : rstr :=
  match e with
  | Prep_Text error => str "text offer is invalid: " ++ descriptor_error_to_string error
  | Prep_Inspect _ => str "source path could not be inspected"
  | Prep_Symlink => str "source path is a symbolic link"
  | Prep_SpecialFile => str "source path is not a regular file or directory"
  | Prep_NonUtf8Name => str "source name is not valid UTF-8"
  | Prep_InvalidName => str "source name is not portable"
  | Prep_FileTooLarge => str "source file exceeds the v2 size limit"
  | Prep_TreeTooLarge => str "source tree exceeds the v2 size or entry limit"
  | Prep_Commitment => str "source metadata commitment failed"
  end.
Definition identity_error_to_string (e : IdentityError) : rstr :=
  match e with
  | Identity_Keyring error => str "credential store error: " ++ error
  | Identity_Json error => str "credential store record is not valid JSON: " ++ error
  | InvalidSecretKey => str "credential store record does not contain a 32-byte signing key"
  end.

(** ** Notifications of shelf changes *)

(** One channel: whether its receiver is still there, and how many messages wait in it. *)
Record Subscriber := mkSubscriber { su_alive : bool; su_pending : Z }.

(** [ShelfChangeNotifier::subscribe] and [notify]; [send] fails once the receiver is gone.
    Nothing panics while it holds the lock, so that is never poisoned. *)
Definition subscribe (subscribers : list Subscriber) : list Subscriber :=
  subscribers ++ [mkSubscriber true 0].
Definition notify (subscribers : list Subscriber) : list Subscriber :=
  map (λ s, mkSubscriber true (su_pending s + 1)) (filter (λ s, su_alive s = true) subscribers).

(** ** State *)

(** The process of the coordinator: the host of the installation state, the store of offers
    and cards, the subscribers, and how many calls on sources were made ([Views]). *)
Record Resident (S : Type) := mkResident {
  re_host : Host;
  re_store : S;
  re_subscribers : list Subscriber;
  re_calls : nat;
}.
Arguments mkResident {_} _ _ _ _.
Arguments re_host {_} _.
Arguments re_store {_} _.
Arguments re_subscribers {_} _.
Arguments re_calls {_} _.

(** [Coordinator]; [co_cards] tells whether [with_card_store] was called. *)
Record Coordinator := mkCoordinator {
  co_identity : DeviceId;
  co_installation : InstallationStore;
  co_cards : bool;
}.
Definition coordinator_new (identity : DeviceId) (installation : InstallationStore) : Coordinator :=
  mkCoordinator identity installation false.
Definition with_card_store (c : Coordinator) : Coordinator :=
  mkCoordinator (co_identity c) (co_installation c) true.

Record PeerAnnouncement := mkPeerAnnouncement {
  pa_device_id : DeviceId;
  pa_hostname : rstr;
  pa_announcement : OfferAnnouncement;
}.
#[export] Instance PeerAnnouncement_eq_dec : EqDecision PeerAnnouncement.
Proof. solve_decision. Defined.
Record OfferPlan := mkOfferPlan {
  op_offer_id : OfferId;
  op_descriptor : OfferDescriptor;
  op_announcements : list PeerAnnouncement;
}.
Record ActivationPlan := mkActivationPlan {
  ap_activation_id : ActivationId;
  ap_source_device : DeviceId;
  ap_offer_id : OfferId;
  ap_descriptor : OfferDescriptor;
  ap_mode : ActivationMode;
  ap_destination : option SaveDestination;
}.

(** [now_unix_ms], from the milliseconds since the epoch if the clock is not before it. *)
Definition now_unix_ms (since_epoch : option Z) : Z :=
  default U64_MAX (try_from U64_MAX (default 0 since_epoch)).

Section coordinator.
Context {S : Type}.
Notation M := (St (Resident S) rstr).

Definition on_host {T} (prefix : rstr) (m : St Host RegistryError T) : M T := λ s,
  let '(r, host) := m (re_host s) in
  (map_err (λ e, prefix ++ registry_error_to_string e) r,
   mkResident host (re_store s) (re_subscribers s) (re_calls s)).
Definition on_offers {E T} (m : St S E T) : St (Resident S) E T := λ s,
  let '(r, store) := m (re_store s) in
  (r, mkResident (re_host s) store (re_subscribers s) (re_calls s)).
Definition on_source {T} (m : Obs SourcePreparationError T) : M T := λ s,
  let '(r, calls) := m (re_calls s) in
  (map_err preparation_error_to_string r,
   mkResident (re_host s) (re_store s) (re_subscribers s) calls).
Definition notify_shelf {E} : St (Resident S) E () := st_modify (λ s,
  mkResident (re_host s) (re_store s) (notify (re_subscribers s)) (re_calls s)).
Definition store_failed (prefix : rstr) (error : StoreError) : rstr :=
  prefix ++ store_error_to_string error.

(** [NotifyingOfferCardStore]: an insertion of a new card wakes the subscribers. *)
#[export] Instance notifying_card_store `{!OfferCardStore S} : OfferCardStore (Resident S) := {|
  ocs_get_offer_card source_device offer_id := on_offers (ocs_get_offer_card source_device offer_id);
  ocs_read_offer_shelf := on_offers ocs_read_offer_shelf;
  ocs_insert_offer_card input :=
    result ← on_offers (ocs_insert_offer_card input);
    (if ic_inserted result then notify_shelf else mret ());;
    mret result;
|}.

Section shelf.
Context {state_json : Json InstallationState} {atomic : AtomicWriteFile} {cards : OfferCardStore S}.

Definition read_shelf (c : Coordinator) : M (list OfferCardRecord) :=
  if co_cards c then
    st_map_err (store_failed (str "could not read offer shelf: "))
      (ocs_read_offer_shelf (S := Resident S))
  else st_err (str "v2 offer-card store is not configured").

Definition settings (c : Coordinator) (generated : DeviceId) : M UserSettings :=
  state ← on_host (str "could not load meshelf settings: ")
            (load_for_identity (co_installation c) generated (co_identity c));
  mret (is_settings state).

Definition update_settings (c : Coordinator) (generated : DeviceId) (settings : UserSettings)
    : M UserSettings :=
  state ← on_host (str "could not save meshelf settings: ")
            (update (co_installation c) generated (co_identity c)
               (λ state, Ok (mkInstallationState (is_device_id state) (is_peers state) settings)));
  mret (is_settings state).

Definition is_source_changed (a : CardAvailability) : bool :=
  match a with SourceChanged => true | _ => false end.
Definition is_save (mode : ActivationMode) : bool := bool_decide (mode = Mode_Save).

(** [plan_activation], with the activation id it draws and the device id a missing state
    file would draw; [uuid_to_string] spells the offer id in the error. *)
Definition plan_activation `{!UuidText} (c : Coordinator) (activation : ActivationId)
    (generated : DeviceId) (offer_id : OfferId) (mode : ActivationMode) : M ActivationPlan :=
  shelf ← read_shelf c;
  card ← st_lift (ok_or (find (λ card, bool_decide (card_offer_id card = offer_id)) shelf)
           (str "offer " ++ uuid_to_string (OfferId_as_uuid offer_id)
            ++ str " is not on this shelf"));
  st_lift (refuse_if (is_save mode && descriptor_is_text (card_descriptor card))
    (str "text offers cannot use save activation"));;
  st_lift (refuse_if (is_source_changed (card_availability card))
    (str "the offer source changed; activation is disabled"));;
  destination ← (if is_save mode then
                   s ← settings c generated; mret (Some (save_destination s))
                 else mret None);
  mret (mkActivationPlan activation (card_source_device card) (card_offer_id card)
          (card_descriptor card) mode destination).
End shelf.

Section offers.
Context {views : Views} {sha : Sha256} {offers : OfferSourceStore S}.
Context {state_json : Json InstallationState} {atomic : AtomicWriteFile}.

Definition announcement_for (c : Coordinator) (offer_id : OfferId) (descriptor : OfferDescriptor)
    (created_at_unix_ms : Z) (peer : TrustedPeer) : PeerAnnouncement :=
  mkPeerAnnouncement (tp_device_id peer) (tp_hostname peer)
    (announcement_new offer_id (co_identity c) (tp_device_id peer) created_at_unix_ms descriptor).

(** [create_offer_with_id]; [create_offer] passes a fresh id. *)
Definition create_offer_with_id (c : Coordinator) (generated : DeviceId) (since_epoch : option Z)
    (offer_id : OfferId) (input : OfferInput) : M (option OfferPlan) :=
  state ← on_host (str "could not load meshelf state: ")
            (load_for_identity (co_installation c) generated (co_identity c));
  let peers := peers (is_peers state) in
  if bool_decide (peers = []) then mret None
  else
    prepared ← on_source (prepare_source input);
    let announced_to := list_to_set (map tp_device_id peers) in
    st_map_err (store_failed (str "could not durably store offer: "))
      (on_offers (oss_insert_offer_source
        (mkOfferSourceInput offer_id (po_descriptor prepared) announced_to (po_source prepared))));;
    notify_shelf;;
    mret (Some (mkOfferPlan offer_id (po_descriptor prepared)
      (map (announcement_for c offer_id (po_descriptor prepared) (now_unix_ms since_epoch)) peers))).

Definition record_explicit_refusal (offer_id : OfferId) (recipient : DeviceId) : M () :=
  st_map_err (store_failed (str "could not record explicit refusal: "))
    (on_offers (oss_remove_explicit_refusal offer_id recipient));;
  mret ().
End offers.
End coordinator.

(** [Coordinator::open]: the identity, then the store, whose opening came to [opened]. *)
Definition coordinator_open {SigningKey S} `{!Ed25519 SigningKey} `{!Json StoredIdentity}
    (generated : InstallationIdentity SigningKey) (opened : result StoreError S)
    (state_path : PathBuf) : St Keyring rstr (Coordinator * InstallationIdentity SigningKey * S) :=
  identity ← st_map_err (λ e, str "could not load meshelf installation identity: "
                               ++ identity_error_to_string e) (load_or_create generated);
  store ← st_lift (map_err (λ e, str "could not open v2 offer store: " ++ store_error_to_string e)
                     opened);
  mret (with_card_store (coordinator_new (ii_device_id identity) (installation_store_new state_path)),
        identity, store).

(** ** The local control channel ([local_control.rs]) *)

Definition MAX_SERIALIZED_TEXT_REQUEST_BYTES : Z := MAX_CONTROL_REQUEST_BYTES.

Inductive LocalRequest :=
| AnnounceText (text : rstr)
| AnnouncePath (path : PathBuf)
| RecordExplicitRefusal (offer_id : OfferId) (recipient : DeviceId)
| GetSettings
| SetSettings (settings : UserSettings)
| Shelf
| ActivateOffer (offer_id : OfferId) (mode : ActivationMode)
| CancelActivation (activation_id : ActivationId).

#[export] Instance LocalRequest_eq_dec : EqDecision LocalRequest.
Proof. solve_decision. Defined.

Inductive LocalResponse :=
| OfferCreated (offer_id : OfferId) (descriptor : OfferDescriptor)
    (announcements : list PeerAnnouncement) (status : rstr)
| NoPeers
| RefusalRecorded
| Response_Settings (settings : UserSettings)
| Response_Shelf (offers : list OfferCardRecord)
| ActivationCompleted (activation_id : ActivationId) (offer_id : OfferId) (mode : ActivationMode)
    (files_processed bytes_processed : Z)
| ActivationCancelled (activation_id : ActivationId)
| ActivationRefused (message : rstr)
| Response_Error (message : rstr).
#[export] Instance LocalResponse_eq_dec : EqDecision LocalResponse.
Proof. solve_decision. Defined.

(** The [LocalRuntime] trait, and [NoopRuntime]; an activation may panic. *)
Record LocalRuntime (S : Type) := mkLocalRuntime {
  lr_announce : OfferPlan → St S rstr rstr;
  lr_activate : ActivationPlan → St S (Stop rstr) ActivationOutcome;
}.
Arguments mkLocalRuntime {_} _ _.
Arguments lr_announce {_} _ _.
Arguments lr_activate {_} _ _.
Definition noop_runtime {S} : LocalRuntime S :=
  mkLocalRuntime (λ _, mret []) (λ _, mret Outcome_Completed).

Definition text_too_large : rstr := str "text exceeds the 1 MiB meshelf limit".

Section requests.
Context {request_json : Json LocalRequest}.

Definition request_text_too_large (request : LocalRequest) : bool :=
  match request with AnnounceText text => MAX_TEXT_BYTES <? str_len text | _ => false end.
Definition request_too_long (length : Z) : rstr :=
  str "serialized control request is " ++ show_int length ++ str " bytes; maximum is "
  ++ show_int MAX_SERIALIZED_TEXT_REQUEST_BYTES.
Definition encode_request (request : LocalRequest) : result IoError bytes :=
  refuse_if (request_text_too_large request) (mkIoError InvalidInput text_too_large);;
  encoded ← map_err (mkIoError InvalidInput) (json_to_vec request);
  refuse_if (MAX_SERIALIZED_TEXT_REQUEST_BYTES <? zlen encoded)
    (mkIoError InvalidInput (request_too_long (zlen encoded)));;
  mret encoded.
Definition decode_request (b : bytes) : result IoError LocalRequest :=
  refuse_if (MAX_SERIALIZED_TEXT_REQUEST_BYTES <? zlen b)
    (mkIoError InvalidData (request_too_long (zlen b)));;
  map_err (mkIoError InvalidData) (json_from_slice b).
End requests.

Definition descriptor_counts (descriptor : OfferDescriptor) : Z * Z :=
  match descriptor with
  | Descriptor_Text utf8_bytes _ _ => (0, utf8_bytes)
  | Descriptor_File _ total_bytes => (1, total_bytes)
  | Descriptor_Folder _ total_bytes _ file_count _ => (file_count, total_bytes)
  end.

(** What a request draws: ids, the device id a missing state file would get, the clock. *)
Record Draws := mkDraws {
  dr_generated : DeviceId;
  dr_since_epoch : option Z;
  dr_offer_id : OfferId;
  dr_activation_id : ActivationId;
}.

Section dispatch.
Context {S : Type} {views : Views} {sha : Sha256} {uuid : UuidText}.
Context {offers : OfferSourceStore S} {cards : OfferCardStore S}.
Context {state_json : Json InstallationState} {atomic : AtomicWriteFile}.
Notation M := (St (Resident S) (Stop Empty_set)).

(** The two announcing requests differ in their input only. *)
Definition announce_input (c : Coordinator) (draws : Draws) (runtime : LocalRuntime (Resident S))
    (input : OfferInput) : M LocalResponse :=
  created ← st_try (create_offer_with_id c (dr_generated draws) (dr_since_epoch draws)
                      (dr_offer_id draws) input);
  match created with
  | Ok (Some plan) =>
      announced ← st_try (lr_announce runtime plan);
      mret (match announced with
            | Ok status => OfferCreated (op_offer_id plan) (op_descriptor plan)
                             (op_announcements plan) status
            | Err message => Response_Error message
            end)
  | Ok None => mret NoPeers
  | Err message => mret (Response_Error message)
  end.

(** What an activation came to. *)
Definition activation_response (plan : ActivationPlan) (outcome : result rstr ActivationOutcome)
    : LocalResponse :=
  match outcome with
  | Ok Outcome_Completed =>
      let '(files_processed, bytes_processed) := descriptor_counts (ap_descriptor plan) in
      ActivationCompleted (ap_activation_id plan) (ap_offer_id plan) (ap_mode plan)
        files_processed bytes_processed
  | Ok Outcome_Cancelled => ActivationCancelled (ap_activation_id plan)
  | Ok outcome => ActivationRefused (desktop_status outcome)
  | Err message => ActivationRefused message
  end.

Definition respond {T} (ok : T → LocalResponse) (m : St (Resident S) rstr T) : M LocalResponse :=
  outcome ← st_try m;
  mret (match outcome with Ok x => ok x | Err message => Response_Error message end).

Definition dispatch_with_runtime (c : Coordinator) (draws : Draws) (request : LocalRequest)
    (runtime : LocalRuntime (Resident S)) : M LocalResponse :=
  match request with
  | AnnounceText text =>
      if MAX_TEXT_BYTES <? str_len text then mret (Response_Error text_too_large)
      else announce_input c draws runtime (Input_Text text)
  | AnnouncePath path => announce_input c draws runtime (Input_Path path)
  | RecordExplicitRefusal offer_id recipient =>
      respond (λ _, RefusalRecorded) (record_explicit_refusal offer_id recipient)
  | GetSettings => respond Response_Settings (settings c (dr_generated draws))
  | SetSettings settings => respond Response_Settings (update_settings c (dr_generated draws) settings)
  | Shelf => respond Response_Shelf (read_shelf c)
  | ActivateOffer offer_id mode =>
      planned ← st_try (plan_activation c (dr_activation_id draws) (dr_generated draws) offer_id mode);
      match planned with
      | Ok plan =>
          outcome ← try_stop (lr_activate runtime plan);
          mret (activation_response plan outcome)
      | Err message => mret (ActivationRefused message)
      end
  | CancelActivation activation_id => mret (ActivationCancelled activation_id)
  end.

Definition dispatch (c : Coordinator) (draws : Draws) (request : LocalRequest) : M LocalResponse :=
  dispatch_with_runtime c draws request noop_runtime.

(** [dispatch_bytes_with_runtime] *)
Definition dispatch_bytes_with_runtime `{!Json LocalRequest} `{!Json LocalResponse}
    (c : Coordinator) (draws : Draws) (b : bytes) (runtime : LocalRuntime (Resident S))
    : St (Resident S) (Stop IoError) bytes :=
  request ← lift_stop (decode_request b);
  response ← map_stop (λ e : Empty_set, match e with end)
               (dispatch_with_runtime c draws request runtime);
  lift_stop (map_err (mkIoError OtherKind) (json_to_vec response)).
End dispatch.

(** ** What an insertion of an offer promises *)

Class OfferSourceInsertSpec (S : Type) `{OfferSourceStore S, !OfferSourceStoreSpec S} := {
  oss_is_absolute : PathBuf → bool;
  oss_insert_spec (s : S) input r s' :
    oss_ok s → oss_insert_offer_source input s = (r, s') →
    oss_ok s' ∧
    match r with
    | Err _ => ∀ id, oss_source s' id = oss_source s id
    | Ok _ =>
        source_input_validate oss_is_absolute input = Ok () ∧
        ∃ record, oss_source s' (in_offer_id input) = Some record ∧
          src_descriptor record = in_descriptor input ∧
          (oss_source s (in_offer_id input) = Some record ∨
           oss_source s (in_offer_id input) = None ∧
           src_announced_to record = in_announced_to input ∧ src_source record = in_source input)
    end;
}.

Section redb_insert.
Context {FS : Type} {fs : StagingFs FS} {iter : RedbIter} {iter_laws : RedbIterLaws}.
Context {uuid : UuidText}.
Context {source_json : Json OfferSourceRecord} {card_json : Json OfferCardRecord}.
Context {journal_json : Json ActivationJournalEntry} {cache_json : Json ClipboardCacheRecord}.
Context {source_laws : JsonLaws OfferSourceRecord} {card_laws : JsonLaws OfferCardRecord}.
Context {journal_laws : JsonLaws ActivationJournalEntry} {cache_laws : JsonLaws ClipboardCacheRecord}.

#[export, refine] Instance redb_source_insert_spec : OfferSourceInsertSpec (World FS) := {|
  oss_is_absolute := path_is_absolute;
|}.
Proof.
  intros w input r w' Hinv Hrun. split.
  { pose proof (insert_offer_source_keeps input w Hinv) as Hk. cbn in Hrun. by rewrite Hrun in Hk. }
  cbn in Hrun |- *. destruct r as [out|e].
  - split.
    { unfold insert_offer_source in Hrun. apply st_bind_Ok in Hrun as ([] & w1 & Hvalid & _).
      by apply st_lift_Ok in Hvalid as [? _]. }
    exists (si_record out). apply insert_offer_source_spec in Hrun as
      [(Hb & Hd & _ & _ & Hw)|(Hb & _ & Hrec & (kept & _ & Ha & _) & _)].
    + rewrite Hw. split_and!; [done..|by left].
    + rewrite Ha, lookup_insert_eq, Hrec. simpl. split_and!; [done..|]. by right.
  - assert (w_db w' = w_db w) as ->; [|done]. revert Hrun. unfold insert_offer_source.
    intros [Hrun|(x & w1 & Hrun & Hrun')]%st_bind_Err; [by injection Hrun as _ <-|].
    injection Hrun as _ <-. by apply with_write_Err in Hrun'.
Defined.
End redb_insert.

(** ** An offer is stored before it is announced *)

Section stored.
Context {S : Type} {offers : OfferSourceStore S} {offers_spec : OfferSourceStoreSpec S}.
Context {insert_spec : OfferSourceInsertSpec S}.
Context {views : Views} {sha : Sha256}.
Context {state_json : Json InstallationState} {atomic : AtomicWriteFile}.
Implicit Types (c : Coordinator) (s : Resident S) (plan : OfferPlan).

Definition same_offers (a b : S) : Prop := ∀ id, oss_source b id = oss_source a id.

(** The announcements of a plan: one for each peer the stored offer is for, each of them
    addressed to that peer and describing the stored offer. *)
Definition announces c plan (a : PeerAnnouncement) : Prop :=
  announcement_validate (pa_announcement a) = Ok () ∧
  an_offer_id (pa_announcement a) = op_offer_id plan ∧
  an_source_device (pa_announcement a) = co_identity c ∧
  an_target_device (pa_announcement a) = pa_device_id a ∧
  an_descriptor (pa_announcement a) = op_descriptor plan.
Record offered c (store : S) plan : Prop := {
  of_stored : ∃ record, oss_source store (op_offer_id plan) = Some record ∧
    src_descriptor record = op_descriptor plan ∧
    src_announced_to record = list_to_set (map pa_device_id (op_announcements plan)) ∧
    source_validate_for oss_is_absolute (src_source record) (src_descriptor record) = Ok ();
  of_announces : Forall (announces c plan) (op_announcements plan);
  of_some : op_announcements plan ≠ [];
}.

Lemma on_host_same {T} prefix (m : St Host RegistryError T) s r s' :
  on_host prefix m s = (r, s') →
  re_store s' = re_store s ∧ re_subscribers s' = re_subscribers s ∧ re_calls s' = re_calls s.
Proof. unfold on_host. destruct (m _) as [o h]. by intros [= _ <-]. Qed.
Lemma on_source_same {T} (m : Obs SourcePreparationError T) s r s' :
  on_source m s = (r, s') → re_store s' = re_store s ∧ re_host s' = re_host s.
Proof. unfold on_source. destruct (m _) as [o n]. by intros [= _ <-]. Qed.
Lemma on_offers_run {E T} (m : St S E T) s r s' :
  on_offers m s = (r, s') → m (re_store s) = (r, re_store s') ∧ re_host s' = re_host s ∧
    re_subscribers s' = re_subscribers s.
Proof. unfold on_offers. destruct (m _) as [o st]. by intros [= <- <-]. Qed.

Lemma create_offer_run c g t id input s r s' :
  oss_ok (re_store s) → oss_source (re_store s) id = None →
  create_offer_with_id c g t id input s = (r, s') →
  oss_ok (re_store s') ∧
  match r with
  | Ok (Some plan) => op_offer_id plan = id ∧ offered c (re_store s') plan
  | _ => same_offers (re_store s) (re_store s')
  end.
Proof.
  intros Hok Hfresh Hrun. unfold create_offer_with_id in Hrun.
  step_in Hrun as state s1 Hload; apply on_host_same in Hload as (Hst & _); [by rewrite Hst|].
  cbv zeta in Hrun. case_bool_decide as Hpeers; [injection Hrun as <- <-; by rewrite Hst|].
  step_in Hrun as prepared s2 Hprep; apply on_source_same in Hprep as [Hst2 _];
    rewrite Hst in Hst2; [by rewrite Hst2|].
  step_in Hrun as out s3 Hinsert; apply st_map_err_inv in Hinsert as (o & Hinsert & Ho);
    apply on_offers_run in Hinsert as [Hinsert _]; rewrite Hst2 in Hinsert;
    apply oss_insert_spec in Hinsert as [Hok' Hspec]; try done.
  { destruct o; [done|]. done. }
  destruct o as [out'|e]; [|done]. destruct Hspec as (Hvalid & record & Hrec & Hdesc & Hnew).
  cbn [in_offer_id in_descriptor in_announced_to in_source] in *.
  injection Hrun as <- <-. cbn [re_store]. split; [done|]. split; [done|].
  destruct Hnew as [Hold|(_ & Hann & Hsource)]; [congruence|].
  apply source_input_validate_spec in Hvalid as [Hdok Hvalid]. cbn in Hdok, Hvalid.
  split; cbn [op_offer_id op_descriptor op_announcements].
  - exists record. rewrite Hdesc, Hsource, Hann, map_map. done.
  - apply Forall_map, Forall_true. intros p. unfold announces. cbn. split_and!; try done.
    unfold announcement_validate. cbn. apply descriptor_validate_Ok in Hdok. by rewrite Hdok.
  - by destruct (peers (is_peers state)).
Qed.

(** C27: Nothing is announced before the offer is durably stored for exactly the devices it is
    announced to, whatever the runtime then does; a request that is answered otherwise has
    left every offer as it was. *)
Theorem offer_stored_before_announced c draws runtime input s response s' :
  oss_ok (re_store s) → oss_source (re_store s) (dr_offer_id draws) = None →
  announce_input c draws runtime input s = (Ok response, s') →
  (∃ plan s1 outcome,
     offered c (re_store s1) plan ∧ op_offer_id plan = dr_offer_id draws ∧
     lr_announce runtime plan s1 = (outcome, s') ∧
     response = match outcome with
                | Ok status => OfferCreated (op_offer_id plan) (op_descriptor plan)
                                 (op_announcements plan) status
                | Err message => Response_Error message
                end) ∨
  ((response = NoPeers ∨ ∃ message, response = Response_Error message) ∧
   same_offers (re_store s) (re_store s')).
Proof.
  intros Hok Hfresh Hrun. unfold announce_input in Hrun.
  apply st_try_inv in Hrun as (created & s1 & Hcreate & Hrun).
  apply create_offer_run in Hcreate as [_ Hcreated]; [|done..].
  destruct created as [[plan|]|message].
  - destruct Hcreated as [Hid Hoffered].
    apply st_try_inv in Hrun as (outcome & s2 & Hannounce & Hrun). injection Hrun as <- <-.
    left. exists plan, s1, outcome. done.
  - injection Hrun as <- <-. right. split; [by left|done].
  - injection Hrun as <- <-. right. split; [right; eauto|done].
Qed.

(** *** The sender honours the announcements *)

Context {message_json : Json V2Message}.

Lemma authorize_offered c store plan a request (session : Session (Origin S)) r session' :
  offered c store plan → a ∈ op_announcements plan →
  (∀ path, oss_is_absolute path = is_absolute path) →
  fr_offer_id request = op_offer_id plan → fr_source_device request = co_identity c →
  fr_requester_device request = pa_device_id a →
  oss_ok store → or_store (ss_services session) = store →
  authorize (co_identity c) (pa_device_id a) request session = (r, session') →
  (∃ record, r = Ok (Some record) ∧ src_descriptor record = op_descriptor plan ∧
     ss_conn session' = ss_conn session) ∨ ∃ e, r = Err e.
Proof.
  intros [(record & Hrec & Hdesc & Hann & Hvalid) _ _] Ha Habs Hid Hsource Hreq Hok Hstore Hrun.
  unfold authorize in Hrun. cbv zeta in Hrun. rewrite !bool_decide_true in Hrun by done.
  cbn [negb] in Hrun. step_in Hrun as found s1 Hget; [right; eauto|].
  apply st_map_err_Ok in Hget. unfold on_store in Hget. rewrite Hstore in Hget.
  destruct (oss_get_offer_source _ store) as [o st] eqn:Hrun'. injection Hget as -> <-.
  apply oss_get_spec in Hrun' as (_ & _ & Hfound); [|done].
  rewrite (Hfound _ eq_refl), Hid, Hrec in Hrun.
  rewrite bool_decide_true in Hrun.
  2: { rewrite Hann. apply elem_of_list_to_set, list_elem_of_fmap. by exists a. }
  cbn [negb] in Hrun.
  assert (source_validate_for is_absolute (src_source record) (src_descriptor record) = Ok ()) as Hv.
  { rewrite <- Hvalid. destruct (src_source record), (src_descriptor record); simpl; try done;
      by rewrite Habs. }
  rewrite Hv in Hrun. injection Hrun as <- <-. left. by exists record.
Qed.

(** C30: Whoever an offer is announced to may fetch it: when an offer has been created, a fetch
    request of any device in its plan passes the authorization of the sender over the store
    that was left, unless the store cannot be read. *)
Theorem announced_peer_is_authorized c g t id input s plan s' a request session r session' :
  oss_ok (re_store s) → oss_source (re_store s) id = None →
  (∀ path, oss_is_absolute path = is_absolute path) →
  create_offer_with_id c g t id input s = (Ok (Some plan), s') → a ∈ op_announcements plan →
  fr_offer_id request = op_offer_id plan → fr_source_device request = co_identity c →
  fr_requester_device request = pa_device_id a →
  or_store (ss_services session) = re_store s' →
  authorize (co_identity c) (pa_device_id a) request session = (r, session') →
  (∃ record, r = Ok (Some record) ∧ src_descriptor record = op_descriptor plan ∧
     ss_conn session' = ss_conn session) ∨ ∃ e, r = Err e.
Proof.
  intros Hok Hfresh Habs Hcreate Ha. apply create_offer_run in Hcreate as [Hok' [_ Hoffered]]; [|done..].
  intros. by eapply authorize_offered.
Qed.
End stored.

(** ** The shelf *)

Section shelf_lemmas.
Context {S : Type} {cards : OfferCardStore S}.
Context {state_json : Json InstallationState} {atomic : AtomicWriteFile} {atomic_laws : AtomicWriteLaws}.
Implicit Types (c : Coordinator) (s : Resident S).

(** The wrapper is as good a card store as the store it wraps, so that everything proved of
    the announcement handler holds behind it. *)
#[export, refine] Instance notifying_card_store_spec `{!OfferCardStoreSpec S} :
    OfferCardStoreSpec (Resident S) := {|
  ocs_view := ocs_view (S := S);
  ocs_cards s := ocs_cards (re_store s);
  ocs_card := ocs_card (S := S);
  ocs_count := ocs_count (S := S);
  ocs_ok s := ocs_ok (re_store s);
|}.
Proof.
  - intros s. apply ocs_bound.
  - intros s d o r s' Hok [Hrun _]%on_offers_run. by eapply ocs_get_spec.
  - intros s r s' Hok [Hrun _]%on_offers_run. by eapply ocs_shelf_spec.
  - intros s input r s' Hok Hrun. cbn in Hrun.
    step_in Hrun as out s1 Hinsert; apply on_offers_run in Hinsert as [Hinsert _];
      apply (ocs_insert_spec _ _ _ _ Hok) in Hinsert; [done|].
    assert (r = Ok out ∧ re_store s' = re_store s1) as [-> ->]; [|exact Hinsert].
    destruct (ic_inserted out); by injection Hrun as <- <-.
Defined.

(** The subscribers of the shelf are woken exactly by the insertion of a new card, each that
    still listens by one message. *)
Theorem insertion_wakes_subscribers input s r s' :
  ocs_insert_offer_card input s = (r, s') →
  re_subscribers s' =
    match r with
    | Ok out => if ic_inserted out then notify (re_subscribers s) else re_subscribers s
    | Err _ => re_subscribers s
    end.
Proof.
  cbn. intros Hrun. step_in Hrun as out s1 Hinsert; apply on_offers_run in Hinsert as (_ & _ & Hs); [done|].
  destruct (ic_inserted out) eqn:Hi; injection Hrun as <- <-; rewrite Hi; cbn; by rewrite Hs.
Qed.

Context {uuid : UuidText}.

(** An activation is planned only for a card that is on the shelf and whose source is not
    known to have changed, and a save only for files; the plan is that of the card, and a save
    goes where the settings in the state file say at this moment. *)
Theorem plan_activation_spec c activation g offer_id mode s plan s' :
  plan_activation c activation g offer_id mode s = (Ok plan, s') →
  ∃ shelf card,
    (ocs_read_offer_shelf (re_store s)).1 = Ok shelf ∧ card ∈ shelf ∧
    card_offer_id card = offer_id ∧ card_availability card ≠ SourceChanged ∧
    plan = mkActivationPlan activation (card_source_device card) offer_id (card_descriptor card)
             mode (ap_destination plan) ∧
    match mode with
    | Mode_Save =>
        descriptor_is_text (card_descriptor card) = false ∧
        ∃ state, stored_state g (co_identity c) (ho_file (re_host s)) = Some state ∧
          ap_destination plan = Some (save_destination (is_settings state))
    | Mode_Clipboard => ap_destination plan = None
    end ∧
    ho_file (re_host s') = ho_file (re_host s).
Proof.
  intros Hrun. unfold plan_activation in Hrun.
  ok_in Hrun as shelf s1 Hshelf. unfold read_shelf in Hshelf. destruct (co_cards c); [|done].
  apply st_map_err_Ok, on_offers_run in Hshelf as (Hshelf & Hhost & _).
  ok_in Hrun as card s2 Hcard. apply st_lift_Ok in Hcard as [Hcard%ok_or_Ok ->].
  apply find_some in Hcard as [Hin%list_elem_of_In Hid%bool_decide_eq_true].
  ok_in Hrun as u s2 Hsave. apply st_lift_Ok in Hsave as [Hsave%refuse_if_Ok ->].
  ok_in Hrun as u' s2 Hchanged. apply st_lift_Ok in Hchanged as [Hchanged%refuse_if_Ok ->].
  ok_in Hrun as destination s2 Hdest. injection Hrun as <- <-.
  exists shelf, card. rewrite Hshelf. cbn [ap_destination]. rewrite Hid.
  split_and!; [done..| |done| |].
  - by destruct (card_availability card).
  - destruct mode; cbn in Hdest, Hsave; [by injection Hdest as <- _|].
    split; [done|]. ok_in Hdest as st s3 Hset. injection Hdest as <- _. unfold settings in Hset.
    ok_in Hset as state s4 Hload. injection Hset as <- _. unfold on_host in Hload.
    destruct (load_for_identity _ _ _ _) as [o h] eqn:Hrun. injection Hload as Ho _.
    apply map_err_Ok in Ho as ->. apply load_for_identity_spec in Hrun as [_ Hs].
    exists state. rewrite <- Hhost. split; [by apply Hs|done].
  - destruct mode; cbn in Hdest; [injection Hdest as _ <-; by rewrite Hhost|].
    ok_in Hdest as st s3 Hset. injection Hdest as _ <-. unfold settings in Hset.
    ok_in Hset as state s4 Hload. injection Hset as _ <-. unfold on_host in Hload.
    destruct (load_for_identity _ _ _ _) as [o h] eqn:Hrun. injection Hload as _ <-. cbn.
    apply load_for_identity_spec in Hrun as [-> _]. by rewrite Hhost.
Qed.

Context {views : Views} {sha : Sha256} {offers : OfferSourceStore S}.

(** Only the activation of a planned offer is answered as completed. *)
Lemma completed_answer c draws request runtime s activation offer_id mode files count s' :
  dispatch_with_runtime c draws request runtime s =
    (Ok (ActivationCompleted activation offer_id mode files count), s') →
  request = ActivateOffer offer_id mode ∧ activation = dr_activation_id draws ∧
  ∃ plan s1,
    plan_activation c activation (dr_generated draws) offer_id mode s = (Ok plan, s1) ∧
    lr_activate runtime plan s1 = (Ok Outcome_Completed, s') ∧
    (files, count) = descriptor_counts (ap_descriptor plan).
Proof.
  assert (∀ input, announce_input c draws runtime input s ≠
    (Ok (ActivationCompleted activation offer_id mode files count), s')) as Hannounce.
  { intros input Hrun. unfold announce_input in Hrun.
    apply st_try_inv in Hrun as ([[plan|]|e] & s1 & _ & Hrun); [|done..].
    apply st_try_inv in Hrun as ([o|e] & s2 & _ & Hrun); done. }
  assert (∀ T (ok : T → LocalResponse) m, (∀ x, ok x ≠ ActivationCompleted activation offer_id mode files count) →
    respond ok m s ≠ (Ok (ActivationCompleted activation offer_id mode files count), s')) as Hrespond.
  { intros T ok m Hne Hrun. unfold respond in Hrun. apply st_try_inv in Hrun as ([x|e] & s1 & _ & Hrun); [|done].
    injection Hrun as Hx _. by eapply Hne. }
  destruct request as [text|path|o d| |new| |o m|a]; cbn [dispatch_with_runtime]; intros Hrun.
  - destruct (MAX_TEXT_BYTES <? str_len text); [done|by apply Hannounce in Hrun].
  - by apply Hannounce in Hrun.
  - by apply Hrespond in Hrun.
  - by apply Hrespond in Hrun.
  - by apply Hrespond in Hrun.
  - by apply Hrespond in Hrun.
  - apply st_try_inv in Hrun as ([plan|e] & s1 & Hplan & Hrun); [|done].
    ok_in Hrun as outcome s2 Hact. injection Hrun as Hresp ->.
    unfold try_stop in Hact. destruct (lr_activate runtime plan s1) as [r s3] eqn:Hrt.
    unfold activation_response in Hresp. destruct outcome as [[]|]; try done.
    destruct (descriptor_counts (ap_descriptor plan)) as [f n] eqn:Hcounts.
    injection Hresp as <- <- <- <- <-.
    assert (r = Ok Outcome_Completed ∧ s3 = s') as [-> ->]
      by (destruct r as [?|[?| |]]; simplify_eq/=; done).
    destruct (plan_activation_spec _ _ _ _ _ _ _ _ Hplan) as (shelf & card & _ & _ & _ & _ & Hp & _).
    rewrite Hp. cbn [ap_offer_id ap_mode ap_activation_id]. split_and!; [done..|].
    exists plan, s1. done.
  - done.
Qed.

(** The control channel reports an activation as completed only when the runtime did, for the
    planned activation of the offer that was asked for. *)
Theorem completed_answer_is_true c draws request runtime s activation offer_id mode files count s' :
  dispatch_with_runtime c draws request runtime s =
    (Ok (ActivationCompleted activation offer_id mode files count), s') →
  request = ActivateOffer offer_id mode ∧ activation = dr_activation_id draws ∧
  ∃ plan s1,
    plan_activation c activation (dr_generated draws) offer_id mode s = (Ok plan, s1) ∧
    lr_activate runtime plan s1 = (Ok Outcome_Completed, s') ∧
    (files, count) = descriptor_counts (ap_descriptor plan).
Proof. apply completed_answer. Qed.
End shelf_lemmas.

(** A request that can be sent is read back as it was, and fits in the bound of the channel. *)
Theorem request_round_trip `{!Json LocalRequest} `{!JsonLaws LocalRequest} request b :
  encode_request request = Ok b →
  decode_request b = Ok request ∧ zlen b ≤ MAX_SERIALIZED_TEXT_REQUEST_BYTES ∧
  request_text_too_large request = false.
Proof.
  unfold encode_request, decode_request. rewrite refuse_seq_Ok.
  intros [Htext (encoded & Hb%map_err_Ok & [Hlen [= <-]]%refuse_seq_Ok)%bind_Ok].
  rewrite Hlen. simpl. rewrite (json_round_trip _ _ Hb). apply Z.ltb_ge in Hlen. done.
Qed.
