(* ===== verification/Controller.v ===== *)
(** * The controller

    Models [crates/meshelf-control/src/lib.rs]: the fan-out of an offer's announcements and the
    report of it, and the controller that discovers peers over tailscale, probes them, accepts
    those with a valid signed hello, and shows which are reachable.

    Tasks of a [JoinSet] run at once; each talks over a connection of its own, so all that
    depends on the scheduler is the order in which they are joined ([JoinOrder]).  The order
    [sort_unstable_by_key] gives to equal keys is not specified ([UnstableSort]). *)

From S2P Require Import Prelude RustStr StdIo Offer Records Identity Protocol OfferStore Activation Filesystem Announce Connection Manifest Receiver Source Sender Discovery Registry Transactions Coordinator.

Definition MESHELF_PORT : Z := 45832.

(** The results of tasks in the order in which [join_next] returns them. *)
Class JoinOrder := join_order : ∀ {A : Type}, list A → list A.
Class JoinOrderLaws `{JoinOrder} := join_order_all : ∀ A (l : list A), join_order l ≡ₚ l.
Class UnstableSort := sort_unstable_by_key : ∀ {A : Type}, (A → rstr) → list A → list A.
Class UnstableSortLaws `{UnstableSort} := {
  sort_unstable_all : ∀ A (key : A → rstr) l, sort_unstable_by_key key l ≡ₚ l;
  sort_unstable_sorted : ∀ A (key : A → rstr) l,
    StronglySorted (λ a b, rstr_leb (key a) (key b) = true) (sort_unstable_by_key key l);
}.

(** [Vec::sort] of strings, and [slice::join] with any separator. *)
Definition string_le (a b : rstr) : Prop := rstr_leb a b = true.
#[export] Instance string_le_dec : RelDecision string_le.
Proof. intros a b. unfold string_le. apply _. Defined.
Definition sort_strings : list rstr → list rstr := merge_sort string_le.
Fixpoint join_str (separator : rstr) (pieces : list rstr) : rstr :=
  match pieces with
  | [] => []
  | [piece] => piece
  | piece :: rest => piece ++ separator ++ join_str separator rest
  end.
Definition ascii_lowercase (s : rstr) : rstr := map to_ascii_lowercase s.

(** ** Announcing an offer *)

Record MeshSendReport := mkMeshSendReport {
  stored_on : list rstr;
  unavailable : list rstr;
  version_mismatch : list rstr;
}.

Inductive AnnouncePeerState :=
  Announce_Pending | Announce_Stored | Announce_Unavailable | Announce_VersionMismatch.
Record AnnouncePeerUpdate := mkAnnouncePeerUpdate {
  au_device_id : DeviceId;
  au_hostname : rstr;
  au_state : AnnouncePeerState;
}.
Inductive AnnouncePeerOutcome :=
| Outcome_Stored (hostname : rstr)
| Outcome_Unavailable (hostname : rstr)
| Outcome_VersionMismatch (reason : rstr).
#[export] Instance AnnouncePeerOutcome_eq_dec : EqDecision AnnouncePeerOutcome.
Proof. solve_decision. Defined.

(** [MeshSendReport::status] *)
Definition report_status (report : MeshSendReport) : rstr :=
  let stored :=
    match stored_on report with
    | [] => None
    | [_] => Some (str "Added to 1 device")
    | hosts => Some (str "Added to " ++ show_int (zlen hosts) ++ str " devices")
    end in
  let mismatches :=
    match version_mismatch report with
    | [] => None
    | reasons => Some (join_str (str "; ") reasons)
    end in
  let missing :=
    match unavailable report with
    | [] => None
    | hosts => Some (str "unavailable " ++ join_str (str ", ") hosts)
    end in
  match stored, mismatches, missing with
  | None, None, None => str "No paired devices accepted the offer"
  | None, Some mismatches, None => mismatches
  | None, None, Some missing => str "offer was not stored on any peer: " ++ missing
  | None, Some mismatches, Some missing => mismatches ++ str "; " ++ missing
  | Some stored, None, None => stored
  | Some stored, Some mismatches, None => stored ++ str "; " ++ mismatches
  | Some stored, None, Some missing => stored ++ str "; " ++ missing
  | Some stored, Some mismatches, Some missing =>
      stored ++ str "; " ++ mismatches ++ str "; " ++ missing
  end.

Definition report_announce_outcome (report : MeshSendReport) : result rstr rstr :=
  match stored_on report with
  | [] => Err (report_status report)
  | _ => Ok (report_status report)
  end.

Definition reason_is_protocol_update (reason : rstr) : bool :=
  let lowered := ascii_lowercase reason in
  contains_str (str "protocol") lowered && contains_str (str "update") lowered.

Definition classify_announce_result `{!DebugText} (hostname : rstr) (result : result NetError OfferAck)
    : AnnouncePeerOutcome :=
  match result with
  | Ok ack =>
      match ack_code ack with
      | Ack_Stored | Ack_Duplicate => Outcome_Stored hostname
      | _ => Outcome_Unavailable hostname
      end
  | Err (ProtocolMismatch peer version expected) =>
      Outcome_VersionMismatch (net_error_to_string (ProtocolMismatch peer version expected))
  | Err (Net_Rejected reason) =>
      if reason_is_protocol_update reason then Outcome_VersionMismatch reason
      else Outcome_Unavailable hostname
  | Err _ => Outcome_Unavailable hostname
  end.

Section announcing.
Context {SigningKey : Type} {ed : Ed25519 SigningKey}.
Context {client_json : Json ClientHello} {server_json : Json ServerHello}.
Context {wire_json : Json WireMessage} {message_json : Json V2Message}.
Context {uuid : UuidText} {order : JoinOrder} {debug : DebugText}.

(** What the network does for the task of a device: the connect and the connection. *)
Notation Network := (DeviceId → Connect * Conn).

(** One task; a panic in it is a join error, whose text is tokio's. *)
Definition announce_peer (identity : InstallationIdentity SigningKey) (device_name : rstr)
    (peers : list TrustedPeer) (network : Network) (join_error : rstr) (item : PeerAnnouncement)
    : result rstr AnnouncePeerOutcome :=
  match find (λ peer, bool_decide (tp_device_id peer = pa_device_id item)) peers with
  | None => Ok (Outcome_Unavailable (pa_hostname item))
  | Some peer =>
      match select_discovered_ip (tp_addresses peer) with
      | None => Ok (Outcome_Unavailable (pa_hostname item))
      | Some _ =>
          match client_signed_v2 (ii_device_id identity) device_name
                  (uuid_to_string (OfferId_as_uuid (an_offer_id (pa_announcement item)))) identity with
          | None => Err join_error
          | Some hello =>
              let '(connect, conn) := network (pa_device_id item) in
              match (announce_offer_v2 connect hello (pa_announcement item)
                       (tp_public_key peer) conn).1 with
              | Ok ack => Ok (classify_announce_result (pa_hostname item) (Ok ack))
              | Err (Failed error) => Ok (classify_announce_result (pa_hostname item) (Err error))
              | Err Panicked => Err join_error
              end
          end
      end
  end.

Definition state_of (outcome : AnnouncePeerOutcome) : AnnouncePeerState :=
  match outcome with
  | Outcome_Stored _ => Announce_Stored
  | Outcome_Unavailable _ => Announce_Unavailable
  | Outcome_VersionMismatch _ => Announce_VersionMismatch
  end.

(** The loop over [join_next], then the sorts. *)
Definition stored_host (joined : result rstr AnnouncePeerOutcome) : option rstr :=
  match joined with Ok (Outcome_Stored hostname) => Some hostname | _ => None end.
Definition unavailable_host (joined : result rstr AnnouncePeerOutcome) : option rstr :=
  match joined with
  | Ok (Outcome_Unavailable hostname) => Some hostname
  | Err error => Some (str "worker (" ++ error ++ str ")")
  | _ => None
  end.
Definition mismatch_reason (joined : result rstr AnnouncePeerOutcome) : option rstr :=
  match joined with Ok (Outcome_VersionMismatch reason) => Some reason | _ => None end.
Definition collect_report (joined : list (result rstr AnnouncePeerOutcome)) : MeshSendReport :=
  mkMeshSendReport (sort_strings (omap stored_host joined))
    (sort_strings (omap unavailable_host joined)) (sort_strings (omap mismatch_reason joined)).

(** The updates a caller sees: all items are pending before the first task runs, and each task
    that does not panic reports its outcome when it ends. *)
Definition pending_update (item : PeerAnnouncement) : AnnouncePeerUpdate :=
  mkAnnouncePeerUpdate (pa_device_id item) (pa_hostname item) Announce_Pending.
Definition final_update (item : PeerAnnouncement) (joined : result rstr AnnouncePeerOutcome)
    : option AnnouncePeerUpdate :=
  match joined with
  | Ok outcome => Some (mkAnnouncePeerUpdate (pa_device_id item) (pa_hostname item) (state_of outcome))
  | Err _ => None
  end.

Definition announce_offer_plan_with_progress {state_json : Json InstallationState} (store : InstallationStore) (generated : DeviceId)
    (identity : InstallationIdentity SigningKey) (device_name : rstr) (runtime : result rstr ())
    (network : Network) (join_error : rstr) (plan : OfferPlan)
    : St Host rstr (MeshSendReport * list AnnouncePeerUpdate) :=
  state ← st_map_err (λ e, str "could not load meshelf state: " ++ registry_error_to_string e)
            (load_for_identity store generated (ii_device_id identity));
  st_lift (map_err (λ e, str "announce runtime unavailable: " ++ e) runtime);;
  let tasks := map (λ item, (item, announce_peer identity device_name (peers (is_peers state))
                                     network join_error item)) (op_announcements plan) in
  let joined := join_order tasks in
  mret (collect_report joined.*2,
        map pending_update (op_announcements plan)
        ++ omap (λ '(item, outcome), final_update item outcome) joined).
End announcing.

(** ** The report *)

Section order.
Lemma rstr_leb_antisym a b : rstr_leb a b = true → rstr_leb b a = true → a = b.
Proof.
  revert b. induction a as [|x a IH]; intros [|y b]; simpl; try done.
  rewrite !orb_true_iff, !andb_true_iff, !Z.ltb_lt, !Z.eqb_eq.
  intros [Hlt|[-> Ha]] [Hlt'|[Heq Hb]]; try lia. f_equal. by apply IH.
Qed.
#[export] Instance string_le_total : Total string_le.
Proof. intros a b. apply rstr_leb_total. Qed.
#[export] Instance string_le_trans : Transitive string_le.
Proof. intros a b c. apply rstr_leb_trans. Qed.
#[export] Instance string_le_antisym : AntiSymm (=) string_le.
Proof. intros a b. apply rstr_leb_antisym. Qed.

(** Sorting forgets the order of the input. *)
#[export] Instance sort_strings_proper : Proper ((≡ₚ) ==> (=)) sort_strings.
Proof.
  intros l k Hlk. unfold sort_strings. apply (StronglySorted_unique string_le).
  - apply StronglySorted_merge_sort; apply _.
  - apply StronglySorted_merge_sort; apply _.
  - by rewrite !merge_sort_Permutation.
Qed.
Lemma sort_strings_Permutation l : sort_strings l ≡ₚ l.
Proof. apply merge_sort_Permutation. Qed.

#[export] Instance collect_report_proper : Proper ((≡ₚ) ==> (=)) collect_report.
Proof. intros l k Hlk. unfold collect_report. by rewrite Hlk. Qed.
End order.

(** Each result is in exactly one of the three lists. *)
Lemma collect_report_length joined :
  zlen (stored_on (collect_report joined)) + zlen (unavailable (collect_report joined))
  + zlen (version_mismatch (collect_report joined)) = zlen joined.
Proof.
  unfold zlen, collect_report. cbn [stored_on unavailable version_mismatch].
  rewrite !sort_strings_Permutation.
  induction joined as [|j joined IH]; [done|].
  destruct j as [[h|h|r]|e]; cbn in *; lia.
Qed.

Section announced.
Context {SigningKey : Type} {ed : Ed25519 SigningKey}.
Context {client_json : Json ClientHello} {server_json : Json ServerHello}.
Context {wire_json : Json WireMessage} {message_json : Json V2Message}.
Context {uuid : UuidText} {order : JoinOrder} {order_laws : JoinOrderLaws} {debug : DebugText}.
Context {state_json : Json InstallationState} {atomic : AtomicWriteFile} {atomic_laws : AtomicWriteLaws}.

(** A device counts as one that stored the offer only when it acknowledged it. *)
Lemma announce_peer_stored identity name peers network join_error item host :
  announce_peer (SigningKey := SigningKey) identity name peers network join_error item
    = Ok (Outcome_Stored host) →
  host = pa_hostname item ∧
  ∃ peer hello ack conn,
    peer ∈ peers ∧ tp_device_id peer = pa_device_id item ∧
    announce_offer_v2 (network (pa_device_id item)).1 hello (pa_announcement item)
      (tp_public_key peer) (network (pa_device_id item)).2 = (Ok ack, conn) ∧
    (ack_code ack = Ack_Stored ∨ ack_code ack = Ack_Duplicate).
Proof.
  unfold announce_peer. intros Hrun.
  destruct (find _ peers) as [peer|] eqn:Hfind; [|done].
  apply find_some in Hfind as [Hin%list_elem_of_In Hd%bool_decide_eq_true].
  destruct (select_discovered_ip _); [|done]. destruct (client_signed_v2 _ _ _ _) as [hello|]; [|done].
  destruct (network (pa_device_id item)) as [connect conn] eqn:Hnet.
  destruct (announce_offer_v2 connect hello _ _ conn) as [[ack|[error|]] conn'] eqn:Hann; [| |done];
    cbn in Hrun; injection Hrun as Hrun.
  - assert (host = pa_hostname item ∧ (ack_code ack = Ack_Stored ∨ ack_code ack = Ack_Duplicate))
      as [-> Hack] by (destruct (ack_code ack); try done; injection Hrun as <-; auto).
    split; [done|]. exists peer, hello, ack, conn'. done.
  - destruct error; try done. by destruct (reason_is_protocol_update _).
Qed.

(** The report of an announcement does not depend on the order in which the devices answer;
    it names each of them once; and it is a success exactly if at least one of them
    acknowledged that it stored the offer.  The state file is only read. *)
Theorem announce_report_spec store generated (identity : InstallationIdentity SigningKey) name
    runtime network join_error plan h report updates h' :
  announce_offer_plan_with_progress store generated identity name runtime network join_error plan h
    = (Ok (report, updates), h') →
  ho_file h' = ho_file h ∧
  ∃ state,
    stored_state generated (ii_device_id identity) (ho_file h) = Some state ∧
    let answers := map (announce_peer identity name (peers (is_peers state)) network join_error)
                     (op_announcements plan) in
    report = collect_report answers ∧
    zlen (stored_on report) + zlen (unavailable report) + zlen (version_mismatch report)
      = zlen (op_announcements plan) ∧
    (is_ok (report_announce_outcome report) = true ↔
       ∃ item, item ∈ op_announcements plan ∧
         announce_peer identity name (peers (is_peers state)) network join_error item
           = Ok (Outcome_Stored (pa_hostname item))).
Proof.
  intros Hrun. unfold announce_offer_plan_with_progress in Hrun.
  ok_in Hrun as state h1 Hload. apply st_map_err_Ok, load_for_identity_spec in Hload as [Hf Hstate].
  ok_in Hrun as u h2 Hruntime. apply st_lift_Ok in Hruntime as [_ ->]. injection Hrun as <- _ <-.
  split; [done|]. exists state. split; [by apply Hstate|]. cbv zeta.
  set (answer := announce_peer _ _ _ _ _). set (items := op_announcements plan).
  assert (collect_report (join_order (map (λ item, (item, answer item)) items)).*2
    = collect_report (map answer items)) as ->.
  { rewrite join_order_all. f_equal. change (map ?f ?l) with (f <$> l) at 1.
    by rewrite <- list_fmap_compose. }
  split_and!; [done| |].
  { rewrite collect_report_length. unfold zlen. by rewrite length_map. }
  assert (is_ok (report_announce_outcome (collect_report (map answer items))) = true ↔
    stored_on (collect_report (map answer items)) ≠ []) as ->.
  { unfold report_announce_outcome. by destruct (stored_on _). }
  cbn [stored_on collect_report].
  assert (sort_strings (omap stored_host (map answer items)) ≠ [] ↔
    ∃ host, host ∈ omap stored_host (map answer items)) as ->.
  { split.
    - intros Hne. destruct (sort_strings _) as [|host hosts] eqn:Hs; [done|].
      exists host. rewrite <- sort_strings_Permutation, Hs. set_solver.
    - intros [host Hhost] Hnil. rewrite <- sort_strings_Permutation, Hnil in Hhost. set_solver. }
  split.
  - intros (host & (joined & Hj & Hh)%list_elem_of_omap).
    apply list_elem_of_fmap in Hj as (item & -> & Hitem). exists item. split; [done|].
    destruct (answer item) as [[h2|h2|r]|e] eqn:Ha; try done.
    by apply announce_peer_stored in Ha as [-> _].
  - intros (item & Hitem & Ha). exists (pa_hostname item).
    apply list_elem_of_omap. exists (answer item). split; [|by rewrite Ha].
    by apply list_elem_of_fmap_2.
Qed.
End announced.

(** ** The controller *)

(** [DiscoveryError]'s [Display] *)
Definition debug_code (code : option Z) : rstr :=
  match code with Some c => str "Some(" ++ show_int c ++ str ")" | None => str "None" end.
Definition discovery_error_to_string (e : DiscoveryError) : rstr :=
  match e with
  | BinaryNotFound =>
      str "Tailscale CLI was not found; set MESHELF_TAILSCALE_BIN or install Tailscale"
  | Launch error => str "failed to launch Tailscale CLI: " ++ io_message error
  | NonZeroExit code stderr =>
      str "Tailscale status failed with exit code " ++ debug_code code ++ str ": " ++ stderr
  | Discovery_Timeout milliseconds =>
      str "Tailscale status did not finish within " ++ show_int milliseconds ++ str " ms"
  | OutputTooLarge bytes maximum =>
      str "Tailscale status output is " ++ show_int bytes ++ str " bytes; maximum is "
      ++ show_int maximum
  | InvalidJson error => str "invalid Tailscale status JSON: " ++ error
  | MissingSelf => str "Tailscale status did not contain a local Self node"
  | MissingAddress node =>
      str "Tailscale status contained no valid IP address for " ++ node
  end.

(** The fields of [Controller] that change, with the host of its state file. *)
Record Controller := mkController {
  ct_host : Host;
  ct_installation : InstallationState;
  ct_device_name : rstr;
  ct_last_status : option TailStatus;
  ct_reachable_peers : gmap DeviceId rstr;
  ct_selected_device : option DeviceId;
}.
(** Those that do not: the state file and the identity. *)
Record ControllerConfig (SigningKey : Type) := mkControllerConfig {
  cf_store : InstallationStore;
  cf_identity : InstallationIdentity SigningKey;
}.
Arguments mkControllerConfig {_} _ _.
Arguments cf_store {_} _.
Arguments cf_identity {_} _.

(** An error text, or the panic of a hello that does not serialize. *)
Inductive ControlError := Control_Failed (message : rstr) | Control_Panicked.

Record PeerStatus := mkPeerStatus { ps_device_id : DeviceId; ps_name : rstr; ps_reachable : bool }.
Record PeerView := mkPeerView {
  pv_name : rstr;
  pv_online : bool;
  pv_status : rstr;
  pv_reachable_names : rstr;
  pv_peer_statuses : list PeerStatus;
}.

Section controller.
Context {SigningKey : Type} {ed : Ed25519 SigningKey}.
Context {client_json : Json ClientHello} {server_json : Json ServerHello}.
Context {wire_json : Json WireMessage} {uuid : UuidText} {order : JoinOrder}.
Context {state_json : Json InstallationState} {atomic : AtomicWriteFile} {unstable : UnstableSort}.
Notation M := (St Controller ControlError).
Implicit Types (cfg : ControllerConfig SigningKey).

Definition set_installation (host : Host) (installation : InstallationState) (c : Controller)
    : Controller :=
  mkController host installation (ct_device_name c) (ct_last_status c) (ct_reachable_peers c)
    (ct_selected_device c).
Definition set_selected (selected : option DeviceId) (c : Controller) : Controller :=
  mkController (ct_host c) (ct_installation c) (ct_device_name c) (ct_last_status c)
    (ct_reachable_peers c) selected.
Definition set_reachable (reachable : gmap DeviceId rstr) (c : Controller) : Controller :=
  mkController (ct_host c) (ct_installation c) (ct_device_name c) (ct_last_status c) reachable
    (ct_selected_device c).

(** [self.installation = store.update(..).map_err(..)?] *)
Definition update_installation cfg (generated : DeviceId) (prefix : rstr)
    (change : InstallationState → result RegistryError InstallationState) : M () := λ c,
  match update (cf_store cfg) generated (ii_device_id (cf_identity cfg)) change (ct_host c) with
  | (Ok installation, host) => (Ok (), set_installation host installation c)
  | (Err e, host) => (Err (Control_Failed (prefix ++ registry_error_to_string e)),
                      set_installation host (ct_installation c) c)
  end.

(** [refresh_discovery]; [discovery] is what the command reported, [None] when it was not
    found. *)
Definition refresh_discovery cfg (generated : DeviceId)
    (discovery : option (result DiscoveryError TailStatus)) : M () :=
  reported ← st_lift (ok_or discovery
    (Control_Failed (str "Tailscale was not found; install Tailscale and retry")));
  status ← st_lift (map_err (λ e, Control_Failed (str "Tailscale discovery failed: "
                                   ++ discovery_error_to_string e)) reported);
  st_modify (λ c, mkController (ct_host c) (ct_installation c) (tn_hostname (ts_self_node status))
    (ct_last_status c) (ct_reachable_peers c) (ct_selected_device c));;
  update_installation cfg generated (str "could not save meshelf state: ")
    (change_peers (Op_refresh status));;
  st_modify (λ c, mkController (ct_host c) (ct_installation c) (ct_device_name c)
    (Some status) (ct_reachable_peers c) None).

(** The probes, one task for each address of an online node; [network] is what becomes of the
    connection to an address, with the device id the probe draws. *)
Notation Network := (IpAddr → Connect * DeviceId * Conn).
Definition probe_tasks (status : TailStatus) : list (TailNode * IpAddr) :=
  flat_map (λ node, map (pair node) (tn_addresses node)) (online_peers status).
Definition probe_answer (network : Network) (task : TailNode * IpAddr)
    : option (TailNode * ServerHello) :=
  let '(connect, probe_device, conn) := network task.2 in
  match (probe connect probe_device (uuid_to_string (DeviceId_as_uuid probe_device)) conn).1 with
  | Ok server => Some (task.1, server)
  | Err _ => None
  end.
Definition candidates (network : Network) (status : TailStatus) : list (TailNode * ServerHello) :=
  omap (probe_answer network) (join_order (probe_tasks status)).

(** [collect] into a map: a later candidate replaces an earlier one. *)
Definition reachable_of (paired : gset DeviceId) (found : list (TailNode * ServerHello))
    : gmap DeviceId rstr :=
  foldl (λ m candidate,
    if bool_decide (sh_device_id candidate.2 ∈ paired)
    then <[sh_device_id candidate.2 := tn_hostname candidate.1]> m else m) ∅ found.

Definition accept_discovered cfg (generated : DeviceId) (node : TailNode) (server : ServerHello)
    : M () :=
  if negb (sh_protocol_version server =? V2_PROTOCOL_VERSION)
     || negb (has_capability (sh_capabilities server)) then mret ()
  else
    valid ← st_lift (ok_or (server_has_valid_signature server) Control_Panicked);
    if negb (valid : bool) then mret ()
    else
      update_installation cfg generated (str "could not pair discovered meshelf device: ")
        (change_peers (Op_accept_signed node (sh_device_id server) (sh_public_key server)));;
      st_modify (set_selected (Some (sh_device_id server))).

Definition paired_devices (installation : InstallationState) : gset DeviceId :=
  list_to_set (map tp_device_id (peers (is_peers installation))).

(** [reachable_paired_names] and [view] *)
Definition reachable_paired_names (c : Controller) : list rstr :=
  sort_unstable_by_key ascii_lowercase
    (omap (λ peer, ct_reachable_peers c !! tp_device_id peer) (peers (is_peers (ct_installation c)))).
Definition middle_dot : rstr := [183].
Definition view (c : Controller) : PeerView :=
  let names := reachable_paired_names c in
  let checked := bool_decide (is_Some (ct_last_status c)) in
  let registered := peers (is_peers (ct_installation c)) in
  let peer_statuses := sort_unstable_by_key (λ p, ascii_lowercase (ps_name p))
    (map (λ peer, mkPeerStatus (tp_device_id peer) (tp_hostname peer)
       (bool_decide (is_Some (ct_reachable_peers c !! tp_device_id peer)))) registered) in
  let status :=
    if negb checked then
      str "Reachability not checked yet " ++ middle_dot ++ str " refresh to find meshelf devices"
    else match names with
      | [] =>
          if bool_decide (registered = []) then
            str "No paired meshelf devices " ++ middle_dot ++ str " refresh to discover devices"
          else
            str "No paired meshelf devices are reachable " ++ middle_dot ++ str " refresh to retry"
      | [_] => str "1 device reachable " ++ middle_dot ++ str " paste text or copied files"
      | _ => show_int (zlen names) ++ str " devices reachable " ++ middle_dot
             ++ str " paste text or copied files"
      end in
  let selected_name :=
    match (id ← ct_selected_device c; ct_reachable_peers c !! id) with
    | Some name => Some name
    | None => head names
    end in
  let reachable_names :=
    match names with
    | [] => if checked then str "No meshelf devices are reachable"
            else str "Reachability not checked yet"
    | _ => join_char 10 names
    end in
  mkPeerView (default (str "Not configured") selected_name) (negb (bool_decide (names = [])))
    status reachable_names peer_statuses.

Definition refresh_reachability cfg (generated : DeviceId) (runtime : result rstr ())
    (network : Network) : M PeerView :=
  st_modify (set_reachable ∅);;
  c ← st_get;
  status ← st_lift (ok_or (ct_last_status c)
    (Control_Failed (str "Tailscale discovery has not completed; refresh and retry")));
  st_lift (map_err (λ e, Control_Failed (str "probe runtime unavailable: " ++ e)) runtime);;
  let found := candidates network status in
  st_modify (set_reachable (reachable_of (paired_devices (ct_installation c)) found));;
  st_for found (λ candidate, accept_discovered cfg generated candidate.1 candidate.2);;
  c ← st_get;
  mret (view c).

(** [refresh] *)
Definition refresh cfg (generated : DeviceId) (discovery : option (result DiscoveryError TailStatus))
    (runtime : result rstr ()) (network : Network) : M PeerView :=
  refresh_discovery cfg generated discovery;;
  refresh_reachability cfg generated runtime network.

(** [select_peer]; [parse_device] is the parser of the uuid crate. *)
Definition eq_ignore_ascii_case (a b : rstr) : bool :=
  bool_decide (ascii_lowercase a = ascii_lowercase b).
Definition select_peer (parse_device : rstr → option DeviceId) (selector : option rstr) : M () :=
  c ← st_get;
  let registry := is_peers (ct_installation c) in
  match selector with
  | Some selector =>
      match (id ← parse_device selector; by_device_id registry id;; Some id) with
      | Some device_id => st_modify (set_selected (Some device_id))
      | None =>
          match find (λ peer, eq_ignore_ascii_case (tp_hostname peer) selector) (peers registry) with
          | Some peer => st_modify (set_selected (Some (tp_device_id peer)))
          | None => st_err (Control_Failed (str "trusted meshelf peer not found: " ++ selector))
          end
      end
  | None =>
      match ct_selected_device c with
      | None => st_modify (set_selected (tp_device_id <$> head (peers registry)))
      | Some _ => mret ()
      end
  end.

(** [Controller::load]: the identity, then the state. *)
Definition controller_load `{!Json StoredIdentity} (generated_identity : InstallationIdentity SigningKey)
    (generated : DeviceId) (state_path : PathBuf) (device_name : rstr)
    : St (Keyring * Host) rstr (ControllerConfig SigningKey * Controller) := λ '(keyring, host),
  match load_or_create generated_identity keyring with
  | (Err e, keyring) =>
      (Err (str "could not load meshelf installation identity: " ++ identity_error_to_string e),
       (keyring, host))
  | (Ok identity, keyring) =>
      let store := installation_store_new state_path in
      match load_for_identity store generated (ii_device_id identity) host with
      | (Err e, host) =>
          (Err (str "could not load meshelf state: " ++ registry_error_to_string e), (keyring, host))
      | (Ok installation, host) =>
          (Ok (mkControllerConfig store identity,
               mkController host installation device_name None ∅ None), (keyring, host))
      end
  end.
End controller.

(** ** Whom the controller trusts *)

Section trust.
Context {SigningKey : Type} {ed : Ed25519 SigningKey}.
Context {client_json : Json ClientHello} {server_json : Json ServerHello}.
Context {wire_json : Json WireMessage} {uuid : UuidText}.
Context {order : JoinOrder} {order_laws : JoinOrderLaws}.
Context {state_json : Json InstallationState} {state_laws : JsonLaws InstallationState}.
Context {atomic : AtomicWriteFile} {atomic_laws : AtomicWriteLaws} {unstable : UnstableSort}.
Implicit Types (cfg : ControllerConfig SigningKey) (c : Controller) (p : TrustedPeer).

(** The hello names a device that has signed it with the key it shows. *)
Definition vouched (server : ServerHello) : Prop :=
  sh_protocol_version server = V2_PROTOCOL_VERSION ∧
  has_capability (sh_capabilities server) = true ∧ server_has_valid_signature server = Some true.

(** The binding of a node to a device and a key is one of [known], or was vouched for by the
    answer of an address of that node. *)
Definition trusted_from (known : list TrustedPeer) (found : list (TailNode * ServerHello)) p : Prop :=
  (∃ q, q ∈ known ∧ tp_node_id q = tp_node_id p ∧ tp_device_id q = tp_device_id p ∧
        tp_public_key q = tp_public_key p) ∨
  ∃ node server, (node, server) ∈ found ∧ vouched server ∧ tn_node_id node = Some (tp_node_id p) ∧
    tp_device_id p = sh_device_id server ∧ tp_public_key p = sh_public_key server.
Definition all_trusted known found (state : InstallationState) : Prop :=
  Forall (trusted_from known found) (peers (is_peers state)).

Lemma trusted_known known found p : p ∈ known → trusted_from known found p.
Proof. intros Hp. left. by exists p. Qed.

Lemma alter_first_elem {A} (q : A → bool) f l (x : A) :
  x ∈ alter_first q f l → x ∈ l ∨ ∃ y, y ∈ l ∧ q y = true ∧ x = f y.
Proof.
  induction l as [|y l IH]; simpl; [by intros ?%elem_of_nil|]. destruct (q y) eqn:Hq.
  - intros [->|Hx]%elem_of_cons; [right; exists y; set_solver|left; set_solver].
  - intros [->|[Hx|(z & Hz & ? & ->)]%IH]%elem_of_cons; [left; set_solver..|].
    right. exists z. set_solver.
Qed.
Lemma accept_signed_elem registry node d key registry' p :
  accept_signed registry node d key = Ok registry' → p ∈ peers registry' →
  p ∈ peers registry ∨
  (tn_node_id node = Some (tp_node_id p) ∧ tp_device_id p = d ∧ tp_public_key p = key).
Proof.
  unfold accept_signed. intros [_ (id & [Hid _]%usable_node_id_Ok & Hrun)%bind_Ok]%refuse_seq_Ok Hp.
  destruct (by_node_id registry id) as [q|]; injection Hrun as <-; cbn [peers insert_peer] in Hp.
  - apply alter_first_elem in Hp as [Hp|(y & Hy & Hq & ->)]; [by left|right].
    apply bool_decide_eq_true in Hq as <-. done.
  - rewrite elem_of_sort_by_hostname in Hp. apply elem_of_app in Hp as [Hp| ->%list_elem_of_singleton];
      [by left|by right].
Qed.

Section run.
Context (cfg : ControllerConfig SigningKey) (generated : DeviceId).
Context (known : list TrustedPeer) (found : list (TailNode * ServerHello)).
Notation own := (ii_device_id (cf_identity cfg)).

(** What the file and the controller hold is trusted. *)
Definition trusting c : Prop :=
  all_trusted known found (ct_installation c) ∧
  ∀ g state, stored_state g own (ho_file (ct_host c)) = Some state → all_trusted known found state.

Lemma trusting_same c c' :
  ct_installation c' = ct_installation c → ct_host c' = ct_host c → inv_kept trusting c c'.
Proof. unfold inv_kept, trusting. by intros -> ->. Qed.

Lemma update_trusting prefix change :
  (∀ latest state, change latest = Ok state → is_device_id state = is_device_id latest ∧
     (all_trusted known found latest → all_trusted known found state)) →
  keeps (inv_kept trusting) (update_installation cfg generated prefix change).
Proof.
  intros Hchange c [Hmem Hfile]. unfold update_installation.
  destruct (update _ _ _ _ _) as [r host] eqn:Hrun. apply update_cases in Hrun.
  destruct Hrun as [(state & (latest & b & Hlatest & Hc & Hb & Hf) & Hv)|[[e ->] Hf]].
  - destruct (Hchange _ _ Hc) as [Hid Hkeep]. pose proof (Hkeep (Hfile _ _ Hlatest)) as Hgood.
    assert (∀ g after, stored_state g own (ho_file host) = Some after → all_trusted known found after) as Hnew.
    { intros g after Hafter. rewrite Hf in Hafter.
      rewrite (stored_state_after own g state b after Hb); [done| |done].
      rewrite Hid. by eapply stored_state_identity. }
    destruct r as [v|e]; (split; [cbn|exact Hnew]); [by rewrite (Hv _ eq_refl)|done].
  - split; [done|]. cbn. by rewrite Hf.
Qed.

Lemma accept_trusting node server :
  (node, server) ∈ found →
  keeps (inv_kept trusting) (accept_discovered cfg generated node server).
Proof.
  intros Hin. unfold accept_discovered.
  destruct (sh_protocol_version server =? V2_PROTOCOL_VERSION) eqn:Hversion; [|apply keeps_ret; apply _].
  destruct (has_capability (sh_capabilities server)) eqn:Hcap; [|apply keeps_ret; apply _].
  cbn [negb orb]. apply keeps_lift_bind; [apply _|]. intros valid Hvalid%ok_or_Ok.
  destruct valid; [|apply keeps_ret; apply _]. cbn [negb].
  apply keeps_bind; [apply _| |intros _ c; by apply trusting_same].
  apply update_trusting. intros latest state (registry & Hrun & [= <-])%bind_Ok. split; [done|].
  intros Hlatest. apply Forall_forall. intros p Hp. cbn [is_peers] in Hp.
  apply accept_signed_elem with (p := p) in Hrun as [Hold|(Hid & Hd & Hk)]; [| |done].
  - unfold all_trusted in Hlatest. rewrite Forall_forall in Hlatest. by apply Hlatest.
  - right. exists node, server. split_and!; try done. split_and!; [by apply Z.eqb_eq|done..].
Qed.
End run.

Lemma stored_peers_same g g' d file a b :
  stored_state g d file = Some a → stored_state g' d file = Some b → is_peers a = is_peers b.
Proof.
  destruct file as [b0|]; cbn; [congruence|]. intros [= <-] [= <-]. unfold reconcile.
  by repeat case_bool_decide.
Qed.

(** C28: Discovery trusts nobody but by a signature: after the reachability pass, however the
    probes answer and in whatever order, and whatever fails in between, every peer of the
    state file and of the controller was one before, with the same device and key, or its
    address answered with a hello of protocol 2 that is signed with the key now bound to it. *)
Theorem discovery_trusts_signatures cfg generated runtime network c r c' status before p :
  ct_last_status c = Some status →
  stored_state generated (ii_device_id (cf_identity cfg)) (ho_file (ct_host c)) = Some before →
  refresh_reachability cfg generated runtime network c = (r, c') →
  (∃ after, stored_state generated (ii_device_id (cf_identity cfg)) (ho_file (ct_host c')) = Some after
     ∧ p ∈ peers (is_peers after)) ∨ p ∈ peers (is_peers (ct_installation c')) →
  trusted_from (peers (is_peers before) ++ peers (is_peers (ct_installation c)))
    (candidates network status) p.
Proof.
  intros Hstatus Hbefore Hrun Hp. set (known := _ ++ _). set (found := candidates network status).
  assert (trusting cfg known found c) as Hstart.
  { split; [apply Forall_forall; intros q Hq; apply trusted_known; set_solver|].
    intros g state Hstate. apply Forall_forall. intros q Hq. apply trusted_known.
    rewrite (stored_peers_same _ _ _ _ _ _ Hstate Hbefore) in Hq. set_solver. }
  assert (trusting cfg known found c') as [Hmem Hfile].
  - assert (stays (inv_kept (trusting cfg known found))
      (refresh_reachability cfg generated runtime network) c) as Hkeeps.
    { unfold refresh_reachability.
      apply stays_bind; [apply _|by apply trusting_same|]. intros [] c1 ->%st_modify_Ok.
      apply stays_bind; [apply _|by intros ?|]. intros c2 c3 [= <- <-]. cbn [ct_last_status set_reachable].
      rewrite Hstatus. apply stays_bind; [apply _|by intros ?|]. intros st c2 [= <- <-].
      apply stays_bind; [apply _|by intros ?|]. intros u c2 [_ ->]%st_lift_Ok.
      apply stays_bind; [apply _|by apply trusting_same|]. intros [] c2 ->%st_modify_Ok.
      apply stays_bind; [apply _|apply stays_keeps|intros _ c2 _].
      - apply keeps_for_in; [apply _|]. intros [node server] Hin. by apply accept_trusting.
      - apply stays_bind; [apply _|by intros ?|]. intros c3 c4 [= <- <-]. by intros ?. }
    unfold stays, inv_kept in Hkeeps. rewrite Hrun in Hkeeps. by apply Hkeeps.
  - unfold all_trusted in *. destruct Hp as [(after & Hafter & Hin)|Hin].
    + specialize (Hfile _ _ Hafter). rewrite Forall_forall in Hfile. by apply Hfile.
    + rewrite Forall_forall in Hmem. by apply Hmem.
Qed.
End trust.

(** ** What the user sees *)

Section views.
Context {unstable : UnstableSort} {unstable_laws : UnstableSortLaws}.
Implicit Types (c : Controller).

(** The view lists every peer of the registry once, by name, with whether it answered; it is
    online exactly if one of them did, and then names nobody else. *)
Theorem view_spec c :
  let registered := peers (is_peers (ct_installation c)) in
  pv_peer_statuses (view c) ≡ₚ
    map (λ peer, mkPeerStatus (tp_device_id peer) (tp_hostname peer)
      (bool_decide (is_Some (ct_reachable_peers c !! tp_device_id peer)))) registered ∧
  StronglySorted (λ a b, rstr_leb (ascii_lowercase (ps_name a)) (ascii_lowercase (ps_name b)) = true)
    (pv_peer_statuses (view c)) ∧
  (pv_online (view c) = true ↔
     ∃ peer, peer ∈ registered ∧ is_Some (ct_reachable_peers c !! tp_device_id peer)) ∧
  (∀ name, name ∈ reachable_paired_names c ↔
     ∃ peer, peer ∈ registered ∧ ct_reachable_peers c !! tp_device_id peer = Some name).
Proof.
  assert (∀ name, name ∈ reachable_paired_names c ↔ ∃ peer,
    peer ∈ peers (is_peers (ct_installation c)) ∧
    ct_reachable_peers c !! tp_device_id peer = Some name) as Hnames.
  { intros name. unfold reachable_paired_names. rewrite sort_unstable_all, list_elem_of_omap. done. }
  split_and!; [apply sort_unstable_all|apply sort_unstable_sorted| |done].
  cbn [pv_online view]. rewrite negb_true_iff, bool_decide_eq_false. split.
  - intros Hne. destruct (reachable_paired_names c) as [|name names]; [done|].
    destruct (proj1 (Hnames name)) as (peer & Hin & Hp); [by left|]. eauto.
  - intros (peer & Hin & [name Hp]) Hnil. assert (name ∈ reachable_paired_names c) as Hbad.
    { apply Hnames. eauto. }
    rewrite Hnil in Hbad. by apply elem_of_nil in Hbad.
Qed.
End views.
