(* ===== verification/ControlSamples.v ===== *)
(** * The control plane on concrete inputs

    One accepted peer: an offer is created and announced through the control channel, its
    fetch is authorized, a card is activated, an announcement goes out over a connection, and a
    device is discovered and accepted. *)

From S2P Require Import Prelude RustStr StdIo Offer Records Identity Protocol OfferStore Activation Filesystem Announce Connection Manifest Receiver Source Sender Discovery Registry Transactions Coordinator Controller ReceiverSamples.
From Stdlib Require Import Strings.Byte.

Module ControlSample.
Import StoreSample AnnounceSample.
#[local] Existing Instances RegistrySample.sample_atomic RegistrySample.sample_atomic_laws.

(** ** The coordinator *)

Section coordinating.
#[local] Existing Instances RegistrySample.sample_json RegistrySample.sample_json_laws.
#[local] Existing Instance ManifestSample.sample_sha256.
Definition no_views : Views := λ _, {|
  sv_metadata _ := Err no_such_file;
  sv_canonicalize path := Ok path;
  sv_read_dir _ := Err no_such_file;
  sv_open _ := Err no_such_file;
  sv_file_metadata _ := Err no_such_file;
  sv_file_read _ _ _ := Err no_such_file;
|}.
#[local] Existing Instance no_views.
Definition no_entries : Json (list ManifestEntry) := table_json [].
Definition no_messages : Json V2Message := table_json [].
#[local] Existing Instances no_entries no_messages.

Definition coordinator : Coordinator :=
  with_card_store (coordinator_new RegistrySample.own RegistrySample.store).
Definition draws : Draws :=
  mkDraws RegistrySample.other (Some 1000) (mkOfferId 1) (mkActivationId 5).
(** The state file holds the peer that was accepted. *)
Definition accepted_file : bytes :=
  default [] (result_ok (json_to_vec (Json := RegistrySample.sample_json) RegistrySample.accepted)).
Definition resident (w : World ()) : Resident (World ()) :=
  mkResident (mkHost (Some accepted_file) []) w [mkSubscriber true 0] 0.
Lemma world_ok : oss_ok empty_world.
Proof. exact store_inv_empty. Qed.
Definition paste : OfferInput := Input_Text (str "hello").

Lemma offer_stored_before_announced_witness :
  ∃ response s', announce_input coordinator draws noop_runtime paste (resident empty_world)
    = (Ok response, s') ∧ (∃ d a, response = OfferCreated (mkOfferId 1) d a []) ∧
    ∃ plan s1, offered coordinator (re_store (S := World ()) s1) plan ∧ op_offer_id plan = mkOfferId 1.
Proof.
  destruct (announce_input coordinator draws noop_runtime paste (resident empty_world))
    as [[response|[[]| |]] s'] eqn:Hrun; [|exfalso; vm_compute in Hrun; discriminate Hrun..].
  exists response, s'. split; [reflexivity|].
  assert (∃ d a, response = OfferCreated (mkOfferId 1) d a []) as Hr.
  { vm_compute in Hrun. injection Hrun as <- _. do 2 eexists. reflexivity. }
  split; [exact Hr|].
  destruct (offer_stored_before_announced coordinator draws noop_runtime paste
    (resident empty_world) response s' world_ok eq_refl Hrun)
    as [(plan & s1 & outcome & Hoffered & Hid & _)|[[->|[m ->]] _]].
  - exists plan, s1. split; [exact Hoffered|exact Hid].
  - destruct Hr as (d & a & [=]).
  - destruct Hr as (d & a & [=]).
Defined.

Definition fetch : FetchRequest :=
  mkFetchRequest (mkActivationId 8) (mkOfferId 1) RegistrySample.own RegistrySample.other.
Definition origin (w : World ()) : Session (Origin (World ())) :=
  mkSession (mkConn [] [] []) (mkOrigin w 4 false 0).
Definition pasted : result rstr (option OfferPlan) * Resident (World ()) :=
  create_offer_with_id coordinator RegistrySample.other (Some 1000) (mkOfferId 1) paste
    (resident empty_world).
Definition pasted_plan : OfferPlan :=
  match pasted.1 with Ok (Some plan) => plan | _ => mkOfferPlan (mkOfferId 0) text_offer [] end.
Definition pasted_announcement : PeerAnnouncement :=
  default (mkPeerAnnouncement (mkDeviceId 0) [] announcement) (head (op_announcements pasted_plan)).

Lemma announced_peer_is_authorized_witness :
  ∃ record session', authorize RegistrySample.own RegistrySample.other fetch (origin (re_store pasted.2))
      = (Ok (Some record), session') ∧ src_descriptor record = text_offer.
Proof.
  assert (pasted = (Ok (Some pasted_plan), pasted.2)) as Hpasted by (vm_compute; reflexivity).
  destruct (authorize RegistrySample.own RegistrySample.other fetch (origin (re_store pasted.2)))
    as [r session'] eqn:Hrun.
  destruct (announced_peer_is_authorized coordinator RegistrySample.other (Some 1000) (mkOfferId 1)
    paste (resident empty_world) pasted_plan pasted.2 pasted_announcement fetch
    (origin (re_store pasted.2)) r session') as [(record & -> & Hd & _)|[e ->]].
  - exact world_ok.
  - reflexivity.
  - reflexivity.
  - exact Hpasted.
  - vm_compute. left.
  - vm_compute. reflexivity.
  - reflexivity.
  - vm_compute. reflexivity.
  - reflexivity.
  - rewrite <- Hrun. f_equal; vm_compute; reflexivity.
  - exists record, session'. split; [reflexivity|]. rewrite Hd. vm_compute. reflexivity.
  - exfalso. vm_compute in Hrun. discriminate Hrun.
Defined.

(** A card of the shelf is put on the clipboard. *)
Definition carded : Resident (World ()) := resident (after (insert_offer_card (card_input 9)) empty_world).
Lemma completed_answer_is_true_witness :
  ∃ s', dispatch_with_runtime coordinator draws (ActivateOffer (mkOfferId 9) Mode_Clipboard)
      noop_runtime carded
    = (Ok (ActivationCompleted (mkActivationId 5) (mkOfferId 9) Mode_Clipboard 0 5), s') ∧
    ∃ plan s1, lr_activate noop_runtime plan s1 = (Ok Outcome_Completed, s').
Proof.
  destruct (dispatch_with_runtime coordinator draws (ActivateOffer (mkOfferId 9) Mode_Clipboard)
    noop_runtime carded) as [r s'] eqn:Hrun.
  assert (r = Ok (ActivationCompleted (mkActivationId 5) (mkOfferId 9) Mode_Clipboard 0 5)) as Hr
    by (vm_compute in Hrun; injection Hrun as <- _; reflexivity).
  exists s'. split; [rewrite Hr; reflexivity|]. rewrite Hr in Hrun.
  destruct (completed_answer_is_true _ _ _ _ _ _ _ _ _ _ _ Hrun) as (_ & _ & plan & s1 & _ & Ha & _).
  exists plan, s1. exact Ha.
Defined.

Definition request_json : Json LocalRequest := table_json [Shelf; AnnounceText (str "hello")].
Lemma request_round_trip_witness :
  ∃ b, encode_request (request_json := request_json) (AnnounceText (str "hello")) = Ok b ∧
    decode_request (request_json := request_json) b = Ok (AnnounceText (str "hello")).
Proof.
  eexists. split; [vm_compute; reflexivity|].
  pose proof (@table_json_laws _ LocalRequest_eq_dec [Shelf; AnnounceText (str "hello")]) as laws.
  assert (∀ b, encode_request (request_json := request_json) (AnnounceText (str "hello")) = Ok b →
    decode_request (request_json := request_json) b = Ok (AnnounceText (str "hello"))) as Hrt
    by (intros b; apply request_round_trip).
  apply Hrt. vm_compute. reflexivity.
Defined.
End coordinating.

(** ** The controller *)

Section controlling.
Import ConnectionSample.
#[local] Existing Instances sample_ed25519 client_json server_json v2_json.
#[local] Existing Instance ReceiverSample.quoted.
Definition in_order : JoinOrder := λ A l, l.
#[local] Existing Instance in_order.
Lemma in_order_laws : JoinOrderLaws.
Proof. by intros A l. Qed.
#[local] Existing Instance in_order_laws.
Definition stable : UnstableSort := λ A key l, (merge_sort key_le (map (λ x, (key x, x)) l)).*2.
#[local] Existing Instance stable.

(** The peer is [ConnectionSample.identity], device 7; this is device 1. *)
Definition desk : TailNode := RegistrySample.node (str "node-desk") (str "desk") 1.
Definition unpaired : InstallationState :=
  mkInstallationState peer_device registry_default settings_default.
Definition paired : InstallationState :=
  mkInstallationState peer_device (mkPeerRegistry
    [mkTrustedPeer (str "node-desk") own_device (str "desk") [V4 1] key]) settings_default.
Definition states : Json InstallationState := table_json [unpaired; paired].
#[local] Existing Instance states.
Lemma states_laws : JsonLaws InstallationState.
Proof. apply table_json_laws. Qed.
#[local] Existing Instance states_laws.

Definition announcing_hello : ClientHello :=
  default (client_hello_v2 peer_device (str "lap") [])
    (client_signed_v2 peer_device (str "lap") [9] client).
Definition probing_hello : ClientHello :=
  client_hello_v2 (mkDeviceId 3) (str "meshelf-discovery") [3].
Definition wires : Json WireMessage :=
  table_json [Wire_ClientHello announcing_hello; Wire_ServerHello own; Wire_ClientHello probing_hello].
#[local] Existing Instance wires.

Definition plan : OfferPlan :=
  mkOfferPlan (mkOfferId 9) text_offer [mkPeerAnnouncement own_device (str "desk") announcement].
Definition answers : bytes :=
  default [] (result_ok (encode_frame (Wire_ServerHello own)))
  ++ message_frame (Msg_OfferAck stored_ack).
Definition file_of (state : InstallationState) : Host :=
  mkHost (Some (default [] (result_ok (json_to_vec state)))) [].

Lemma announce_report_spec_witness :
  ∃ report updates h',
    announce_offer_plan_with_progress RegistrySample.store own_device client (str "lap") (Ok ())
      (λ _, (Connected, mkConn answers [] [])) (str "panic") plan (file_of paired)
      = (Ok (report, updates), h') ∧
    stored_on report = [str "desk"] ∧
    zlen (stored_on report) + zlen (unavailable report) + zlen (version_mismatch report) = 1.
Proof.
  destruct (announce_offer_plan_with_progress RegistrySample.store own_device client (str "lap")
    (Ok ()) (λ _, (Connected, mkConn answers [] [])) (str "panic") plan (file_of paired))
    as [[[report updates]|e] h'] eqn:Hrun; [|exfalso; vm_compute in Hrun; discriminate Hrun].
  exists report, updates, h'. split; [reflexivity|]. split.
  - vm_compute in Hrun. injection Hrun as <- _ _. reflexivity.
  - destruct (announce_report_spec _ _ _ _ _ _ _ _ _ _ _ _ Hrun) as (_ & state & _ & _ & Hlen & _).
    exact Hlen.
Defined.

(** The address of the node answers with a signed hello, and the device is accepted. *)
Definition configured : ControllerConfig bool := mkControllerConfig RegistrySample.store client.
Definition searching : Controller :=
  mkController (file_of unpaired) unpaired (str "lap")
    (Some (mkTailStatus (str "Running") (RegistrySample.node (str "self") (str "lap") 9) [desk])) ∅ None.
Definition probing (_ : IpAddr) : Connect * DeviceId * Conn :=
  (Connected, mkDeviceId 3, mkConn answers [] []).

Lemma discovery_trusts_signatures_witness :
  ∃ view c' p, refresh_reachability configured own_device (Ok ()) probing searching = (Ok view, c') ∧
    p ∈ peers (is_peers (ct_installation c')) ∧
    ∃ node server, (node, server) ∈ candidates probing
        (mkTailStatus (str "Running") (RegistrySample.node (str "self") (str "lap") 9) [desk]) ∧
      server_has_valid_signature server = Some true ∧ tp_public_key p = sh_public_key server.
Proof.
  destruct (refresh_reachability configured own_device (Ok ()) probing searching)
    as [[view|e] c'] eqn:Hrun; [|exfalso; vm_compute in Hrun; discriminate Hrun].
  assert (peers (is_peers (ct_installation c')) =
    [mkTrustedPeer (str "node-desk") own_device (str "desk") [V4 1] key]) as Hpeers
    by (vm_compute in Hrun; injection Hrun as _ <-; reflexivity).
  exists view, c', (mkTrustedPeer (str "node-desk") own_device (str "desk") [V4 1] key).
  split; [reflexivity|]. split; [rewrite Hpeers; left|].
  destruct (discovery_trusts_signatures configured own_device (Ok ()) probing searching (Ok view) c'
    _ unpaired (mkTrustedPeer (str "node-desk") own_device (str "desk") [V4 1] key) eq_refl)
    as [(q & Hq & _)|(node & server & Hin & (_ & _ & Hv) & _ & _ & Hk)].
  - vm_compute. reflexivity.
  - exact Hrun.
  - right. rewrite Hpeers. left.
  - exfalso. vm_compute in Hq. inversion Hq.
  - exists node, server. split; [exact Hin|]. split; [exact Hv|exact Hk].
Defined.
End controlling.
End ControlSample.
