(* ===== verification/LocalChannel.v ===== *)
(** * The local control channel

    Models [crates/meshelf-platform/src/activation.rs]: the loopback listener of a resident
    process, the activation file that holds its port and token, and the two clients, [signal]
    and [request].  A [Pipe] is one end of the TCP connection; the file lives on the [Disk] of
    [Filesystem].  What the handlers do is an argument, as in the code; a handler may panic,
    which ends the thread of the listener. *)

From S2P Require Import Prelude RustStr StdIo Utf8 Offer OfferStore Filesystem Transfer.
From Stdlib Require Import Strings.Byte Ascii.

(** ** One end of a connection *)

(** [pp_in] is what still arrives; then the stream ends, or fails with the error of [pp_end] (a
    timeout, a reset).  Writes fail after the bytes that [pp_room] leaves.  [pp_calls] are the
    outcomes of the next calls that move no data. *)
Record Pipe := mkPipe {
  pp_in : bytes;
  pp_end : option IoError;
  pp_out : bytes;
  pp_room : option (nat * IoError);
  pp_calls : list (option IoError);
}.
Notation PipeM := (St Pipe IoError).

Definition set_in (b : bytes) (p : Pipe) : Pipe :=
  mkPipe b (pp_end p) (pp_out p) (pp_room p) (pp_calls p).
Definition set_out (b : bytes) (room : option (nat * IoError)) (p : Pipe) : Pipe :=
  mkPipe (pp_in p) (pp_end p) b room (pp_calls p).

(** [set_read_timeout], [set_write_timeout] and [shutdown]. *)
Definition socket_call : PipeM () := λ p,
  match pp_calls p with
  | [] => (Ok (), p)
  | fault :: rest =>
      (match fault with Some error => Err error | None => Ok () end,
       mkPipe (pp_in p) (pp_end p) (pp_out p) (pp_room p) rest)
  end.
(** [Read::read_exact], and [Read::read] into one byte, [None] at the end of the stream. *)
Definition pipe_read_exact (n : Z) : PipeM bytes := λ p,
  if n <=? zlen (pp_in p)
  then (Ok (take (Z.to_nat n) (pp_in p)), set_in (drop (Z.to_nat n) (pp_in p)) p)
  else (Err (default (mkIoError UnexpectedEof (str "failed to fill whole buffer")) (pp_end p)),
        set_in [] p).
Definition pipe_read_byte : PipeM (option Byte.byte) := λ p,
  match pp_in p, pp_end p with
  | b :: rest, _ => (Ok (Some b), set_in rest p)
  | [], None => (Ok None, p)
  | [], Some error => (Err error, p)
  end.
Definition pipe_write_all (data : bytes) : PipeM () := λ p,
  match pp_room p with
  | None => (Ok (), set_out (pp_out p ++ data) None p)
  | Some (room, error) =>
      if decide (length data ≤ room)%nat
      then (Ok (), set_out (pp_out p ++ data) (Some ((room - length data)%nat, error)) p)
      else (Err error, set_out (pp_out p ++ take room data) (Some (0%nat, error)) p)
  end.

(** ** Frames *)

Definition MAX_CONTROL_RESPONSE_BYTES : Z := 64 * 1024.

Definition write_frame (payload : bytes) (maximum : Z) : PipeM () :=
  st_lift (refuse_if ((maximum <? zlen payload) || (U32_MAX <? zlen payload))
    (mkIoError InvalidInput (str "control frame is " ++ show_int (zlen payload)
       ++ str " bytes; maximum is " ++ show_int maximum)));;
  pipe_write_all (u32_to_be_bytes (as_u32 (zlen payload)));;
  pipe_write_all payload.

Definition read_frame (maximum : Z) (label : rstr) : PipeM bytes :=
  length ← pipe_read_exact 4;
  let length := u32_from_be_bytes length in
  st_lift (refuse_if (maximum <? length)
    (mkIoError InvalidData (str "control " ++ label ++ str " is " ++ show_int length
       ++ str " bytes; maximum is " ++ show_int maximum)));;
  pipe_read_exact length.

(** ** The resident *)

(** The state behind the handlers and the connection that is served. *)
Record Served (S : Type) := mkServed { sv_state : S; sv_pipe : Pipe }.
Arguments mkServed {_} _ _.
Arguments sv_state {_} _.
Arguments sv_pipe {_} _.

Inductive Incoming := Connection (p : Pipe) | AcceptFails (error : IoError).
(** The thread waits for the next connection, has left its loop, or has panicked. *)
Inductive ListenerState := Listening | Stopped | Died.

Section server.
Context {S : Type} (on_activate : St S (Stop Empty_set) ()).
Context (on_request : bytes → St S (Stop IoError) bytes).

Definition on_pipe {T} (m : PipeM T) : St (Served S) (Stop IoError) T := λ s,
  let '(r, p) := m (sv_pipe s) in (map_err Fails r, mkServed (sv_state s) p).
Definition on_state {T} (m : St S (Stop IoError) T) : St (Served S) (Stop IoError) T := λ s,
  let '(r, state) := m (sv_state s) in (r, mkServed state (sv_pipe s)).

(** [handle_connection] after the timeouts are set and the token is checked. *)
Definition handle_authenticated : St (Served S) (Stop IoError) () :=
  first ← on_pipe pipe_read_byte;
  match first with
  | None => on_state (map_stop (λ e : Empty_set, match e with end) on_activate)
  | Some first =>
      rest ← on_pipe (pipe_read_exact 3);
      let request_length := u32_from_be_bytes (first :: rest) in
      lift_stop (refuse_if (MAX_CONTROL_REQUEST_BYTES <? request_length)
        (mkIoError InvalidData (str "control request is " ++ show_int request_length
           ++ str " bytes; maximum is " ++ show_int MAX_CONTROL_REQUEST_BYTES)));;
      request ← on_pipe (pipe_read_exact request_length);
      response ← on_state (on_request request);
      on_pipe (write_frame response MAX_CONTROL_RESPONSE_BYTES)
  end.

Definition handle_connection (expected_token : rstr) : St (Served S) (Stop IoError) () :=
  read_timeout ← try_stop (on_pipe socket_call);
  if negb (is_ok read_timeout) then mret ()
  else
    write_timeout ← try_stop (on_pipe socket_call);
    if negb (is_ok write_timeout) then mret ()
    else
      received_token ← try_stop (on_pipe (pipe_read_exact (str_len expected_token)));
      if bool_decide (received_token = Ok (as_bytes expected_token)) then handle_authenticated
      else mret ().

(** The loop of the thread, over the connections that come in: what became of it, and of the
    connections it served. *)
Fixpoint serve (token : rstr) (incoming : list Incoming) (s : S)
    : ListenerState * list Pipe * S :=
  match incoming with
  | [] => (Listening, [], s)
  | AcceptFails _ :: _ => (Stopped, [], s)
  | Connection p :: rest =>
      let '(outcome, served) := handle_connection token (mkServed s p) in
      match outcome with
      | Ok _ | Err (Fails _) =>
          let '(state, pipes, s') := serve token rest (sv_state served) in
          (state, sv_pipe served :: pipes, s')
      | Err _ => (Died, [sv_pipe served], sv_state served)
      end
  end.
End server.

(** ** The activation file *)

Definition ACTIVATION_FILE : rstr := str "activation".

(** [str::split_whitespace] *)
Fixpoint split_whitespace_from (field : rstr) (s : rstr) : list rstr :=
  let fields rest := match field with [] => rest | _ => field :: rest end in
  match s with
  | [] => fields []
  | c :: s' =>
      if is_whitespace c then fields (split_whitespace_from [] s')
      else split_whitespace_from (field ++ [c]) s'
  end.
Definition split_whitespace : rstr → list rstr := split_whitespace_from [].

(** [str::parse::<u16>] with the text of its error. *)
Definition to_digit (c : Z) : option Z :=
  if (48 <=? c) && (c <=? 57) then Some (c - 48) else None.
Fixpoint parse_digits (s : rstr) (value : Z) : result rstr Z :=
  match s with
  | [] => Ok value
  | c :: s =>
      digit ← ok_or (to_digit c) (str "invalid digit found in string");
      value ← ok_or (checked_add U16_MAX (value * 10) digit)
        (str "number too large to fit in target type");
      parse_digits s value
  end.
Definition parse_u16 (s : rstr) : result rstr Z :=
  match s with
  | [] => Err (str "cannot parse integer from empty string")
  | c :: rest =>
      if bool_decide (rest = []) && ((c =? 43) || (c =? 45))
      then Err (str "invalid digit found in string")
      else parse_digits (if c =? 43 then rest else s) 0
  end.

Definition invalid_data (message : string) : IoError := mkIoError InvalidData (str message).

(** [read_activation] on the contents of the file. *)
Definition parse_activation (contents : rstr) : result IoError (Z * rstr) :=
  let fields := split_whitespace contents in
  port ← ok_or (fields !! 0%nat) (invalid_data "activation file has no port");
  port ← map_err (λ error, mkIoError InvalidData
            (str "activation file has an invalid port: " ++ error)) (parse_u16 port);
  token ← ok_or (fields !! 1%nat) (invalid_data "activation file has no token");
  refuse_if (bool_decide (is_Some (fields !! 2%nat)) || bool_decide (token = []))
    (invalid_data "activation file has malformed fields");;
  mret (port, token).

(** *** Calls of [std::fs] that only this file uses *)

Definition read_to_string (path : PathBuf) : FsM rstr :=
  fs_begin;;
  q ← fs_lookup true path;
  n ← fs_node q;
  d ← st_get;
  match n with
  | File i =>
      fs_begin;;
      st_lift (ok_or (from_utf8 (default [] (dk_inodes d !! i)))
        (invalid_data "stream did not contain valid UTF-8"))
  | Dir => st_err os_is_a_directory
  | Symlink _ => st_err os_loop
  end.
(** [Path::metadata] and [Path::is_dir], which follow links. *)
Definition metadata (path : PathBuf) : FsM FileType :=
  fs_begin;;
  q ← fs_lookup true path;
  n ← fs_node q;
  mret (node_type n).
Definition is_dir (path : PathBuf) : FsM bool :=
  found ← st_try (metadata path);
  mret (bool_decide (found = Ok Type_Dir)).

(** [fs::create_dir_all]; the recursion is over the parents. *)
Fixpoint create_dir_all_from (fuel : nat) (path : PathBuf) : FsM () :=
  if bool_decide (path = []) then mret ()
  else
    created ← st_try (create_dir path);
    match created with
    | Ok _ => mret ()
    | Err error =>
        if bool_decide (io_kind error = NotFound) then
          match fuel, parent path with
          | S fuel, Some above =>
              create_dir_all_from fuel above;;
              again ← st_try (create_dir path);
              match again with
              | Ok _ => mret ()
              | Err error => found ← is_dir path; if found : bool then mret () else st_err error
              end
          | _, _ => st_err (mkIoError OtherKind (str "failed to create whole tree"))
          end
        else found ← is_dir path; if found : bool then mret () else st_err error
    end.
Definition create_dir_all (path : PathBuf) : FsM () :=
  create_dir_all_from (length (components path)) path.

(** [fs::rename]: what is there is replaced, a directory only by a directory and only if it is
    empty; of two names of one file nothing happens. *)
Definition moved (p q : place) (nodes : gmap place Node) : gmap place Node :=
  list_to_map (map (λ '(k, n),
    (if decide (p `prefix_of` k) then q ++ drop (length p) k else k, n)) (map_to_list nodes)).
Definition rename (from to : PathBuf) : FsM () :=
  fs_begin;;
  p ← fs_lookup false from;
  n ← fs_node p;
  q ← fs_lookup false to;
  d ← st_get;
  if bool_decide (p = q) then mret ()
  else
    match n with
    | Dir =>
        st_lift (refuse_if (bool_decide (p `prefix_of` q))
          (mkIoError InvalidInput (str "Invalid argument (os error 22)")));;
        match node_at (dk_nodes d) q with
        | Some Dir =>
            st_lift (refuse_if (negb (bool_decide (children (dk_nodes d) q = []))) os_not_empty);;
            st_modify (λ d, set_nodes (moved p q (delete q (dk_nodes d))) d)
        | Some _ => st_err os_not_a_directory
        | None => st_modify (λ d, set_nodes (moved p q (dk_nodes d)) d)
        end
    | _ =>
        match n, node_at (dk_nodes d) q with
        | _, Some Dir => st_err os_is_a_directory
        | File i, Some (File j) =>
            if bool_decide (i = j) then mret ()
            else st_modify (λ d, set_nodes (<[q := n]> (delete p (dk_nodes d))) d)
        | _, _ => st_modify (λ d, set_nodes (<[q := n]> (delete p (dk_nodes d))) d)
        end
    end.

Definition with_file_name (path : PathBuf) (name : rstr) : PathBuf :=
  match file_name path, parent path with
  | Some _, Some above => join above name
  | _, _ => join path name
  end.

(** What running [chmod] came to: an error, or the text of the exit status and whether it is a
    success. *)
Class Chmod := chmod : rstr → PathBuf → result IoError (bool * rstr).

Section files.
Context `{!Chmod}.

Definition make_owner_only (path : PathBuf) : FsM () :=
  t ← metadata path;
  let mode := if bool_decide (t = Type_Dir) then str "700" else str "600" in
  status ← st_lift (chmod mode path);
  let '(success, text) := status in
  if success : bool then mret ()
  else st_err (mkIoError OtherKind (str "chmod " ++ mode ++ str " for " ++ path
                                    ++ str " exited with " ++ text)).

(** [writeln!(file, "{port} {token}")] writes each piece of the format. *)
Fixpoint write_pieces (file : Handle) (pieces : list rstr) : FsM Handle :=
  match pieces with
  | [] => mret file
  | piece :: pieces => file ← file_write_all file (as_bytes piece); write_pieces file pieces
  end.
Definition write_activation_contents (file : Handle) (port : Z) (token : rstr) : FsM Handle :=
  write_pieces file [show_int port; str " "; token; [10]].

Definition write_activation (path : PathBuf) (port : Z) (token : rstr) : FsM () :=
  let temporary_path := with_file_name path (str ".activation-" ++ token ++ str ".tmp") in
  outcome ← st_try (
    file ← open_create_new temporary_path;
    write_activation_contents file port token;;
    sync_all;;
    make_owner_only temporary_path;;
    removed ← st_try (remove_file path);
    st_lift (match removed with
             | Ok _ => Ok ()
             | Err error => refuse_if (negb (bool_decide (io_kind error = NotFound))) error
             end);;
    rename temporary_path path);
  match outcome with
  | Ok _ => mret ()
  | Err error =>
      (st_try (remove_file temporary_path) : FsM (result IoError ()));;
      st_err error
  end.

(** [listen_with_control]: the port the listener was bound to, the token that was drawn, and
    whether the thread could be started. *)
Definition listen_with_control (data_dir : PathBuf) (bound : result IoError Z) (token : rstr)
    (spawned : result IoError ()) : FsM () :=
  create_dir_all data_dir;;
  port ← st_lift bound;
  let activation_path := join data_dir ACTIVATION_FILE in
  write_activation activation_path port token;;
  match spawned with
  | Ok _ => mret ()
  | Err error =>
      (st_try (remove_file activation_path) : FsM (result IoError ()));;
      st_err error
  end.
End files.

(** The end of the thread: the file is removed after the loop, and not by a panic. *)
Definition listener_end (activation_path : PathBuf) (state : ListenerState) (d : Disk) : Disk :=
  match state with Stopped => (remove_file activation_path d).2 | _ => d end.

Definition read_activation (path : PathBuf) : FsM (Z * rstr) :=
  contents ← read_to_string path;
  st_lift (parse_activation contents).

(** [acquire_resident_lock], from what [try_lock_exclusive] came to; [None] is contention. *)
Definition is_lock_contention (error : IoError) : bool :=
  bool_decide (io_kind error = WouldBlock).
Definition open_or_create (path : PathBuf) : FsM () :=
  fs_begin;;
  q ← fs_lookup true path;
  d ← st_get;
  match node_at (dk_nodes d) q with
  | Some (File _) => mret ()
  | Some Dir => st_err os_is_a_directory
  | Some (Symlink _) => st_err os_loop
  | None =>
      let i := fresh (dom (dk_inodes d)) in
      st_modify (λ d, set_inode i [] (set_nodes (<[q := File i]> (dk_nodes d)) d))
  end.
Definition acquire_resident_lock (data_dir : PathBuf) (locked : result IoError ())
    : FsM (option ()) :=
  create_dir_all data_dir;;
  open_or_create (join data_dir (str "resident.lock"));;
  match locked with
  | Ok _ => mret (Some ())
  | Err error => if is_lock_contention error then mret None else st_err error
  end.

(** ** The clients *)

(** The disk, and the connection once there is one. *)
Record Client := mkClient { cl_disk : Disk; cl_pipe : option Pipe }.

Section client.
(** What connecting to a port of the loopback address comes to. *)
Context (connect : Z → result IoError Pipe).

Definition on_files {T} (m : FsM T) : St Client IoError T := λ c,
  let '(r, d) := m (cl_disk c) in (r, mkClient d (cl_pipe c)).
Definition connected {T} (port : Z) (m : PipeM T) : St Client IoError T := λ c,
  match connect port with
  | Err error => (Err error, c)
  | Ok p => let '(r, p) := m p in (r, mkClient (cl_disk c) (Some p))
  end.

(** [request] on the connected stream. *)
Definition request_over (token : rstr) (request : bytes) : PipeM bytes :=
  socket_call;;
  socket_call;;
  pipe_write_all (as_bytes token);;
  write_frame request MAX_CONTROL_REQUEST_BYTES;;
  read_frame MAX_CONTROL_RESPONSE_BYTES (str "response").

Definition request (data_dir : PathBuf) (request : bytes) : St Client IoError bytes :=
  st_lift (refuse_if (MAX_CONTROL_REQUEST_BYTES <? zlen request)
    (mkIoError InvalidInput (str "control request is " ++ show_int (zlen request)
       ++ str " bytes; maximum is " ++ show_int MAX_CONTROL_REQUEST_BYTES)));;
  activation ← on_files (read_activation (join data_dir ACTIVATION_FILE));
  let '(port, token) := activation in
  connected port (request_over token request).

Definition signal_over (token : rstr) : PipeM () :=
  socket_call;;
  pipe_write_all (as_bytes token);;
  socket_call.
Definition signal (data_dir : PathBuf) : St Client Empty_set bool :=
  sent ← st_try (
    activation ← on_files (read_activation (join data_dir ACTIVATION_FILE));
    let '(port, token) := activation in
    connected port (signal_over token));
  mret (is_ok sent).
End client.

(** ** Lemmas *)

Section pipe_lemmas.
Implicit Types (p : Pipe).

(** A stream that begins with a frame, cut anywhere behind it, is a frame of these bytes. *)
Lemma framed_prefix (header payload rest x : bytes) :
  zlen header = 4 → u32_from_be_bytes header = zlen payload → is_u32 (zlen x) →
  header ++ payload ++ rest `prefix_of` u32_to_be_bytes (as_u32 (zlen x)) ++ x → payload = x.
Proof.
  intros Hh Hp Hx [k Hk]. rewrite as_u32_id in Hk by done. rewrite <- !app_assoc in Hk.
  assert (header = u32_to_be_bytes (zlen x)) as ->.
  { apply (f_equal (take 4)) in Hk. rewrite !take_app_le in Hk by (unfold zlen in *; simpl; lia).
    rewrite take_ge in Hk by (simpl; lia). rewrite take_ge in Hk by (unfold zlen in *; lia). done. }
  apply app_inv_head in Hk. rewrite u32_be_round_trip in Hp by done.
  rewrite <- (app_nil_r x) in Hk. apply app_inj_1 in Hk as [-> _]; [done|].
  unfold zlen in *. lia.
Qed.

Lemma socket_call_run p r p' :
  socket_call p = (r, p') →
  pp_in p' = pp_in p ∧ pp_end p' = pp_end p ∧ pp_out p' = pp_out p ∧ pp_room p' = pp_room p.
Proof. unfold socket_call. destruct (pp_calls p) as [|[e|] rest]; by intros [= <- <-]. Qed.
Lemma pipe_read_byte_run p r p' :
  pipe_read_byte p = (r, p') →
  pp_out p' = pp_out p ∧
  match r with
  | Ok (Some b) => pp_in p = b :: pp_in p'
  | Ok None => pp_in p = [] ∧ pp_end p = None
  | Err _ => True
  end.
Proof.
  unfold pipe_read_byte. destruct (pp_in p) as [|b rest]; [destruct (pp_end p)|];
    by intros [= <- <-].
Qed.
Lemma pipe_read_exact_run n p r p' :
  0 ≤ n → pipe_read_exact n p = (r, p') →
  pp_end p' = pp_end p ∧ pp_out p' = pp_out p ∧ pp_room p' = pp_room p ∧
  ∀ b, r = Ok b → pp_in p = b ++ pp_in p' ∧ zlen b = n.
Proof.
  intros Hn. unfold pipe_read_exact. destruct (Z.leb_spec n (zlen (pp_in p))) as [Hle|_];
    intros [= <- <-]; simpl; split_and!; try done. intros b [= <-].
  rewrite take_drop. split; [done|]. unfold zlen in *. rewrite length_take. lia.
Qed.
Lemma pipe_read_exact_enough n b rest p :
  pp_in p = b ++ rest → zlen b = n → pipe_read_exact n p = (Ok b, set_in rest p).
Proof.
  intros Hin <-. unfold pipe_read_exact. rewrite Hin, zlen_app.
  destruct (Z.leb_spec (zlen b) (zlen b + zlen rest)) as [_|?]; [|pose proof (zlen_nonneg rest); lia].
  unfold zlen. by rewrite Nat2Z.id, take_app_length, drop_app_length.
Qed.
Lemma pipe_write_all_run data p r p' :
  pipe_write_all data p = (r, p') →
  pp_in p' = pp_in p ∧ pp_end p' = pp_end p ∧
  ∃ sent, pp_out p' = pp_out p ++ sent ∧ sent `prefix_of` data ∧ (r = Ok () → sent = data).
Proof.
  unfold pipe_write_all. destruct (pp_room p) as [[room e]|]; [destruct (decide _)|];
    intros [= <- <-]; simpl; split_and!; try done; eexists; split_and!; try done.
  apply prefix_take.
Qed.

(** A frame that is written is written in part or in full, or refused as too long. *)
Lemma write_frame_run payload maximum p r p' :
  maximum ≤ U32_MAX → write_frame payload maximum p = (r, p') →
  pp_in p' = pp_in p ∧ ∃ sent, pp_out p' = pp_out p ++ sent ∧
    sent `prefix_of` u32_to_be_bytes (as_u32 (zlen payload)) ++ payload ∧
    (sent = [] ∨ zlen payload ≤ maximum) ∧
    (r = Ok () → sent = u32_to_be_bytes (as_u32 (zlen payload)) ++ payload ∧
       zlen payload ≤ maximum).
Proof.
  intros Hmax. unfold write_frame, mbind at 1, st_bind at 1, st_lift.
  destruct (_ || _) eqn:Hlong; simpl.
  { intros [= <- <-]. split; [done|]. exists []. rewrite app_nil_r.
    split_and!; [done|apply prefix_nil|by left|done]. }
  bool_facts. intros Hrun.
  step_in Hrun as u p1 H1; apply pipe_write_all_run in H1 as (Hin1 & _ & sent & Hout & Hpre & Hok).
  - split; [done|]. exists sent. split_and!; [done| |by right|done].
    by etrans; [exact Hpre|exists payload].
  - destruct u. apply pipe_write_all_run in Hrun as (Hin2 & _ & sent2 & Hout2 & Hpre2 & Hok2).
    rewrite (Hok eq_refl) in Hout. split; [congruence|].
    exists (u32_to_be_bytes (as_u32 (zlen payload)) ++ sent2).
    rewrite Hout2, Hout, app_assoc. split_and!; [done| |by right|].
    + exact (prefix_app (u32_to_be_bytes (as_u32 (zlen payload))) _ _ Hpre2).
    + intros Hr. by rewrite (Hok2 Hr).
Qed.
End pipe_lemmas.

(** ** Who is served *)

Section serving.
Context {S : Type} (on_activate : St S (Stop Empty_set) ()).
Context (on_request : bytes → St S (Stop IoError) bytes).
Implicit Types (s : S) (p : Pipe).

Lemma on_pipe_inv {T} (m : PipeM T) (v : Served S) r v' :
  on_pipe m v = (r, v') →
  ∃ o, m (sv_pipe v) = (o, sv_pipe v') ∧ sv_state v' = sv_state v ∧ r = map_err Fails o.
Proof. unfold on_pipe. destruct (m (sv_pipe v)) as [o p]. intros [= <- <-]. by exists o. Qed.
Lemma on_state_inv {T} (m : St S (Stop IoError) T) (v : Served S) r v' :
  on_state m v = (r, v') → m (sv_state v) = (r, sv_state v') ∧ sv_pipe v' = sv_pipe v.
Proof. unfold on_state. destruct (m (sv_state v)) as [o s]. by intros [= <- <-]. Qed.

(** What an authenticated connection that carries [input] does to the state, and what is
    written back. *)
Definition handled s (input : bytes) (outcome : result (Stop IoError) ()) s' (sent : bytes) : Prop :=
  (s' = s ∧ sent = [] ∧ outcome ≠ Err Panics ∧ outcome ≠ Err Drops) ∨
  (input = [] ∧ sent = [] ∧
   ∃ o, on_activate s = (o, s') ∧
     outcome = map_err (λ stop : Stop Empty_set, match stop with
                                                 | Fails e => match e with end
                                                 | Panics => Panics
                                                 | Drops => Drops
                                                 end) o) ∨
  (∃ header request rest o,
     input = header ++ request ++ rest ∧ zlen header = 4 ∧
     u32_from_be_bytes header = zlen request ∧ zlen request ≤ MAX_CONTROL_REQUEST_BYTES ∧
     on_request request s = (o, s') ∧
     match o with
     | Ok response =>
         outcome ≠ Err Panics ∧ outcome ≠ Err Drops ∧
         sent `prefix_of` u32_to_be_bytes (as_u32 (zlen response)) ++ response ∧
         (sent = [] ∨ zlen response ≤ MAX_CONTROL_RESPONSE_BYTES)
     | Err stop => outcome = Err stop ∧ sent = []
     end).

Lemma handle_authenticated_run v r v' :
  handle_authenticated on_activate on_request v = (r, v') →
  ∃ sent, pp_out (sv_pipe v') = pp_out (sv_pipe v) ++ sent ∧
    handled (sv_state v) (pp_in (sv_pipe v)) r (sv_state v') sent.
Proof.
  intros Hrun. unfold handle_authenticated in Hrun.
  assert (∀ s' o e, s' = sv_state v → o = Err (Fails e) →
    handled (sv_state v) (pp_in (sv_pipe v)) o s' []) as Hsame by (intros ? ? ? -> ->; by left).
  step_in Hrun as first v1 H1; apply on_pipe_inv in H1 as (o1 & H1 & Hst1 & Ho1);
    apply pipe_read_byte_run in H1 as [Hout1 Hin].
  { exists []. rewrite app_nil_r. destruct o1; simplify_eq/=. split; [done|by eapply Hsame]. }
  symmetry in Ho1. apply map_err_Ok in Ho1 as ->. destruct first as [b|].
  2: { apply on_state_inv in Hrun as [Hrun Hp]. exists []. rewrite Hp, app_nil_r. split; [done|].
       right. left. split; [apply Hin|]. split; [done|]. rewrite Hst1 in Hrun.
       unfold map_stop in Hrun. apply st_map_err_inv in Hrun as (o & Hact & ->). exists o.
       split; [done|]. by destruct o as [|[[]| |]]. }
  step_in Hrun as rest v2 H2; apply on_pipe_inv in H2 as (o2 & H2 & Hst2 & Ho2);
    apply pipe_read_exact_run in H2 as (_ & Hout2 & _ & Hread2); try lia.
  { exists []. rewrite app_nil_r. split; [congruence|].
    destruct o2; simplify_eq/=. eapply Hsame; [congruence|done]. }
  symmetry in Ho2. apply map_err_Ok in Ho2 as ->. destruct (Hread2 _ eq_refl) as [Hin2 Hlen2].
  cbv zeta in Hrun. step_in Hrun as u v3 H3; unfold lift_stop, st_lift in H3.
  { exists []. rewrite app_nil_r. destruct (_ <? _); simplify_eq/=. split; [congruence|].
    eapply Hsame; [congruence|done]. }
  destruct (Z.ltb_spec MAX_CONTROL_REQUEST_BYTES (u32_from_be_bytes (b :: rest))) as [?|Hbound];
    simplify_eq/=.
  step_in Hrun as request v4 H4; apply on_pipe_inv in H4 as (o4 & H4 & Hst4 & Ho4);
    apply pipe_read_exact_run in H4 as (_ & Hout4 & _ & Hread4); try apply u32_from_be_nonneg.
  { exists []. rewrite app_nil_r. split; [congruence|].
    destruct o4; simplify_eq/=. eapply Hsame; [congruence|done]. }
  symmetry in Ho4. apply map_err_Ok in Ho4 as ->. destruct (Hread4 _ eq_refl) as [Hin4 Hlen4].
  assert (∀ sent o, on_request request (sv_state v) = (o, sv_state v') →
    match o with
    | Ok response =>
        r ≠ Err Panics ∧ r ≠ Err Drops ∧
        sent `prefix_of` u32_to_be_bytes (as_u32 (zlen response)) ++ response ∧
        (sent = [] ∨ zlen response ≤ MAX_CONTROL_RESPONSE_BYTES)
    | Err stop => r = Err stop ∧ sent = []
    end → handled (sv_state v) (pp_in (sv_pipe v)) r (sv_state v') sent) as Hdone.
  { intros sent o Hreq Ho. right. right. exists (b :: rest), request, (pp_in (sv_pipe v4)), o.
    split_and!; try done; [|rewrite zlen_cons; lia|lia]. simpl. congruence. }
  step_in Hrun as response v5 H5; apply on_state_inv in H5 as [H5 Hp5];
    (rewrite Hst4, Hst2, Hst1 in H5).
  { exists []. rewrite app_nil_r, Hp5. split; [congruence|]. by eapply Hdone. }
  apply on_pipe_inv in Hrun as (o6 & H6 & Hst6 & Ho6).
  apply write_frame_run in H6 as (_ & sent & Hout6 & Hpre & Hbig & _); [|done].
  exists sent. split; [congruence|]. eapply Hdone; [by rewrite Hst6|]. subst r.
  by destruct o6.
Qed.

(** The token comes first. *)
Lemma handle_connection_run token s p r v' :
  handle_connection on_activate on_request token (mkServed s p) = (r, v') →
  ∃ sent, pp_out (sv_pipe v') = pp_out p ++ sent ∧
    ((sv_state v' = s ∧ sent = [] ∧ r = Ok ()) ∨
     ∃ input, pp_in p = as_bytes token ++ input ∧ handled s input r (sv_state v') sent).
Proof.
  intros Hrun. unfold handle_connection in Hrun.
  assert (∀ T (m : PipeM T) (v : Served S) (o : result (Stop IoError) (result IoError T)) v1,
    try_stop (on_pipe m) v = (o, v1) →
    ∃ x : result IoError T,
      o = Ok x ∧ m (sv_pipe v) = (x, sv_pipe v1) ∧ sv_state v1 = sv_state v) as Htry.
  { intros T m v o v1. unfold try_stop, on_pipe. destruct (m (sv_pipe v)) as [[x|e] q];
      intros [= <- <-]; eauto. }
  step_in Hrun as t1 v1 H1; apply Htry in H1 as (x1 & Hx1 & H1 & Hst1); [done|injection Hx1 as <-].
  apply socket_call_run in H1 as (Hin1 & _ & Hout1 & _). cbn [sv_pipe sv_state] in *.
  destruct (negb (is_ok t1)).
  { injection Hrun as <- <-. exists []. rewrite app_nil_r. split; [done|]. by left. }
  step_in Hrun as t2 v2 H2; apply Htry in H2 as (x2 & Hx2 & H2 & Hst2); [done|injection Hx2 as <-].
  apply socket_call_run in H2 as (Hin2 & _ & Hout2 & _).
  destruct (negb (is_ok t2)).
  { injection Hrun as <- <-. exists []. rewrite app_nil_r. split; [congruence|]. left.
    split_and!; [congruence|done..]. }
  step_in Hrun as got v3 H3; apply Htry in H3 as (x3 & Hx3 & H3 & Hst3); [done|injection Hx3 as <-].
  apply pipe_read_exact_run in H3 as (_ & Hout3 & _ & Hread); [|apply str_len_nonneg].
  case_bool_decide as Htoken.
  - apply handle_authenticated_run in Hrun as (sent & Hout & Hh).
    exists sent. split; [congruence|]. right. exists (pp_in (sv_pipe v3)).
    destruct (Hread _ Htoken) as [Hin _].
    split; [congruence|]. by rewrite Hst3, Hst2, Hst1 in Hh.
  - injection Hrun as <- <-. exists []. rewrite app_nil_r. split; [congruence|]. left.
    split_and!; [congruence|done..].
Qed.
End serving.

(** ** A request and its answer *)

Definition frame (payload : bytes) : bytes :=
  u32_to_be_bytes (as_u32 (zlen payload)) ++ payload.

Lemma read_frame_Ok maximum label p b p' :
  read_frame maximum label p = (Ok b, p') →
  ∃ header, pp_in p = header ++ b ++ pp_in p' ∧ zlen header = 4 ∧
    u32_from_be_bytes header = zlen b ∧ zlen b ≤ maximum ∧ pp_out p' = pp_out p.
Proof.
  unfold read_frame. intros Hrun. ok_in Hrun as header p1 H1.
  apply pipe_read_exact_run in H1 as (_ & Hout1 & _ & Hin1); [|lia].
  destruct (Hin1 _ eq_refl) as [Hin Hlen]. cbv zeta in Hrun. ok_in Hrun as u p2 H2.
  apply st_lift_Ok in H2 as [H2%refuse_if_Ok ->]. apply Z.ltb_ge in H2.
  apply pipe_read_exact_run in Hrun as (_ & Hout2 & _ & Hin2); [|apply u32_from_be_nonneg].
  destruct (Hin2 _ eq_refl) as [Hin' Hlen']. exists header.
  rewrite Hin, Hin', Hout2. split_and!; [done|done|lia|lia|done].
Qed.

Lemma request_over_Ok token request p answer p' :
  request_over token request p = (Ok answer, p') →
  pp_out p' = pp_out p ++ as_bytes token ++ frame request ∧
  zlen request ≤ MAX_CONTROL_REQUEST_BYTES ∧
  ∃ header, pp_in p = header ++ answer ++ pp_in p' ∧ zlen header = 4 ∧
    u32_from_be_bytes header = zlen answer ∧ zlen answer ≤ MAX_CONTROL_RESPONSE_BYTES.
Proof.
  unfold request_over. intros Hrun.
  ok_in Hrun as u1 p1 H1. apply socket_call_run in H1 as (Hin1 & _ & Hout1 & _).
  ok_in Hrun as u2 p2 H2. apply socket_call_run in H2 as (Hin2 & _ & Hout2 & _).
  ok_in Hrun as u3 p3 H3. destruct u3.
  apply pipe_write_all_run in H3 as (Hin3 & _ & sent & Hout3 & _ & Hsent).
  rewrite (Hsent eq_refl) in Hout3.
  ok_in Hrun as u4 p4 H4. destruct u4.
  apply write_frame_run in H4 as (Hin4 & sent4 & Hout4 & _ & _ & Hsent4); [|done].
  destruct (Hsent4 eq_refl) as [-> Hlen].
  apply read_frame_Ok in Hrun as (header & Hin & Hh & Hlen' & Hmax & Hout).
  rewrite Hout, Hout4, Hout3, Hout2, Hout1, <- app_assoc. split_and!; [done..|].
  exists header. split_and!; [|done..]. congruence.
Qed.

(** A connection without faults. *)
Definition faultless (b : bytes) : Pipe := mkPipe b None [] None [].

Lemma framed_header (payload : bytes) maximum :
  zlen payload ≤ maximum → maximum ≤ U32_MAX →
  u32_from_be_bytes (u32_to_be_bytes (as_u32 (zlen payload))) = zlen payload.
Proof.
  intros ? ?. assert (is_u32 (zlen payload)) as Hu
    by (unfold is_u32; pose proof (zlen_nonneg payload); lia).
  by rewrite as_u32_id, u32_be_round_trip.
Qed.

Lemma write_frame_fits payload maximum p :
  zlen payload ≤ maximum → maximum ≤ U32_MAX → pp_room p = None →
  write_frame payload maximum p = (Ok (), set_out (pp_out p ++ frame payload) None p).
Proof.
  intros Hfits Hmax Hroom. unfold write_frame. rewrite (st_lift_run _ _ _ ()).
  2: { apply refuse_if_Ok, orb_false_iff. split; apply Z.ltb_ge; lia. }
  unfold mbind, st_bind, pipe_write_all. rewrite Hroom. cbn [pp_room set_out pp_out].
  unfold frame. by rewrite app_assoc.
Qed.
Lemma read_frame_fits payload rest maximum label p :
  zlen payload ≤ maximum → maximum ≤ U32_MAX → pp_in p = frame payload ++ rest →
  read_frame maximum label p = (Ok payload, set_in rest p).
Proof.
  intros Hfits Hmax Hin. unfold frame in Hin. rewrite <- app_assoc in Hin.
  unfold read_frame. rewrite (st_bind_run _ _ _ _ _ (pipe_read_exact_enough _ _ _ _ Hin eq_refl)).
  cbv zeta. rewrite (framed_header payload maximum) by done.
  rewrite (st_lift_run _ _ _ ()) by (apply refuse_if_Ok, Z.ltb_ge; done).
  exact (pipe_read_exact_enough (zlen payload) payload rest (set_in (payload ++ rest) p)
    eq_refl eq_refl).
Qed.

Section exchange.
Context {S : Type} (on_activate : St S (Stop Empty_set) ()).
Context (on_request : bytes → St S (Stop IoError) bytes).
Notation handle := (handle_connection on_activate on_request).

(** Only who knows the token has an effect: whatever a connection delivers and whatever fails,
    the state behind the handlers changes only if the stream starts with the token; then the
    handler of requests has run once, on the framed bytes behind it, or the handler of signals
    has run because nothing followed. *)
Theorem control_needs_the_token token s p r v' :
  handle token (mkServed s p) = (r, v') → sv_state v' ≠ s →
  ∃ input, pp_in p = as_bytes token ++ input ∧
    ((input = [] ∧ ∃ o, on_activate s = (o, sv_state v')) ∨
     ∃ header request rest o, input = header ++ request ++ rest ∧ zlen header = 4 ∧
       u32_from_be_bytes header = zlen request ∧ zlen request ≤ MAX_CONTROL_REQUEST_BYTES ∧
       on_request request s = (o, sv_state v')).
Proof.
  intros Hrun Hchanged. apply handle_connection_run in Hrun as (sent & _ & [[? _]|(input & Hin & Hh)]);
    [done|]. exists input. split; [done|].
  destruct Hh as [[? _]|[(Hinput & _ & o & Ho & _)|
    (header & request & rest & o & Hinput & Hlen & Hfrom & Hmax & Ho & _)]]; [done| |].
  - left. eauto.
  - right. exists header, request, rest, o. done.
Qed.

(** One connection as both of its ends saw it: what each read is what the other had written by
    the end, but for what was lost on the way. *)
Definition conversed (c c' p p' : Pipe) : Prop :=
  pp_out c = [] ∧ pp_out p = [] ∧ pp_in p `prefix_of` pp_out c' ∧ pp_in c `prefix_of` pp_out p'.

(** The request and the answer as they travelled. *)
Lemma answer_for_request token request answer c c' s p r v' :
  conversed c c' p (sv_pipe v') →
  request_over token request c = (Ok answer, c') → handle token (mkServed s p) = (r, v') →
  on_request request s = (Ok answer, sv_state v').
Proof.
  intros (Hc & Hp & Hto & Hfrom) Hclient Hserver.
  apply request_over_Ok in Hclient as (Hsent & Hlen & header & Hin & Hh & Hfit & Hmax).
  apply handle_connection_run in Hserver as (sent & Hout & Hrun).
  rewrite Hc in Hsent. rewrite Hp in Hout. simpl in Hsent, Hout. rewrite Hsent in Hto. rewrite Hout in Hfrom.
  assert (∀ b : bytes, sent = [] → pp_in c ≠ header ++ b) as Hnone.
  { intros b -> Heq. apply prefix_nil_inv in Hfrom. rewrite Hfrom in Heq. symmetry in Heq.
    apply app_eq_nil in Heq as [-> _]. done. }
  destruct Hrun as [(_ & Hnil & _)|(input & Hinput & Hrun)]; [by destruct (Hnone (answer ++ pp_in c'))|].
  destruct Hrun as [(_ & Hnil & _)|[(_ & Hnil & _)|
    (h & request' & rest & o & Hframe & Hh' & Hfit' & Hmax' & Ho & Hsentp)]];
    [by destruct (Hnone (answer ++ pp_in c'))..|].
  rewrite Hinput, Hframe in Hto. apply prefix_app_inv in Hto.
  assert (is_u32 (zlen request)) as Hu1
    by (unfold is_u32, U32_MAX; pose proof (zlen_nonneg request);
        change MAX_CONTROL_REQUEST_BYTES with 6307840 in *; lia).
  assert (request' = request) as -> by (by eapply framed_prefix).
  destruct o as [response|stop].
  2: { destruct Hsentp as [_ Hnil]. by destruct (Hnone (answer ++ pp_in c')). }
  destruct Hsentp as (_ & _ & Hpre & [Hnil|Hresp]); [by destruct (Hnone (answer ++ pp_in c'))|].
  assert (answer = response) as ->; [|done].
  eapply (framed_prefix header answer (pp_in c')); [done|done| |].
  - unfold is_u32, U32_MAX. unfold MAX_CONTROL_RESPONSE_BYTES in Hresp.
    pose proof (zlen_nonneg response). lia.
  - rewrite <- Hin. by etrans.
Qed.

(** C20: An answer is the answer to the request: whatever fails on either side, and however much of
    what was in transit is lost, if the client returns bytes then the resident's handler has
    run on exactly the client's request and has returned exactly these bytes, and the state is
    the one this run has left. *)
Theorem answer_is_to_the_request token request answer c c' s p r v' :
  conversed c c' p (sv_pipe v') →
  request_over token request c = (Ok answer, c') → handle token (mkServed s p) = (r, v') →
  on_request request s = (Ok answer, sv_state v').
Proof. apply answer_for_request. Qed.

(** The resident reads a whole request on a connection without faults. *)
Lemma handle_faultless token request s o s' :
  zlen request ≤ MAX_CONTROL_REQUEST_BYTES → on_request request s = (o, s') →
  handle token (mkServed s (faultless (as_bytes token ++ frame request))) =
    match o with
    | Ok answer =>
        let '(r, p) := write_frame answer MAX_CONTROL_RESPONSE_BYTES (faultless []) in
        (map_err Fails r, mkServed s' p)
    | Err stop => (Err stop, mkServed s' (faultless []))
    end.
Proof.
  intros Hfits Hrequest. unfold handle_connection.
  rewrite (st_bind_run _ _ _ (Ok ()) (mkServed s (faultless (as_bytes token ++ frame request))))
    by done. cbn [is_ok negb].
  rewrite (st_bind_run _ _ _ (Ok ()) (mkServed s (faultless (as_bytes token ++ frame request))))
    by done. cbn [is_ok negb].
  rewrite (st_bind_run _ _ _ (Ok (as_bytes token)) (mkServed s (faultless (frame request)))).
  2: { unfold try_stop, on_pipe. cbn [sv_pipe].
       by rewrite (pipe_read_exact_enough _ (as_bytes token) (frame request))
         by (done || apply length_as_bytes). }
  rewrite bool_decide_true by done. unfold handle_authenticated.
  pose proof (framed_header request _ Hfits ltac:(done)) as Hheader.
  unfold frame. destruct (u32_to_be_bytes (as_u32 (zlen request))) as [|b header] eqn:Hbytes; [done|].
  assert (zlen header = 3) as Hlen by (unfold u32_to_be_bytes in Hbytes; by injection Hbytes as _ <-).
  rewrite (st_bind_run _ _ _ (Some b) (mkServed s (faultless (header ++ request)))) by done.
  rewrite (st_bind_run _ _ _ header (mkServed s (faultless request))).
  2: { unfold on_pipe. cbn [sv_pipe]. by rewrite (pipe_read_exact_enough 3 header request). }
  cbv zeta. rewrite Hheader. rewrite (st_bind_run _ _ _ () (mkServed s (faultless request))).
  2: { unfold lift_stop, st_lift. by destruct (Z.ltb_spec MAX_CONTROL_REQUEST_BYTES (zlen request)); [lia|]. }
  rewrite (st_bind_run _ _ _ request (mkServed s (faultless []))).
  2: { unfold on_pipe. cbn [sv_pipe].
       by rewrite (pipe_read_exact_enough (zlen request) request []) by (rewrite ?app_nil_r; done). }
  unfold mbind, st_bind, on_state. cbn [sv_state]. rewrite Hrequest. by destruct o.
Qed.

(** C36: On a connection without faults every request that fits is handled once, and the client
    gets the answer; but an answer above 64 KiB, an error of the handler and a panic all leave
    the client with an error although the effect of the request stays. *)
Theorem control_exchange token request s o s' :
  zlen request ≤ MAX_CONTROL_REQUEST_BYTES → on_request request s = (o, s') →
  ∃ r v',
    handle token (mkServed s (faultless (as_bytes token ++ frame request))) = (r, v') ∧
    sv_state v' = s' ∧
    ∃ c', request_over token request (faultless (pp_out (sv_pipe v'))) =
      (match o with
       | Ok answer =>
           if zlen answer <=? MAX_CONTROL_RESPONSE_BYTES then Ok answer
           else Err (mkIoError UnexpectedEof (str "failed to fill whole buffer"))
       | Err _ => Err (mkIoError UnexpectedEof (str "failed to fill whole buffer"))
       end, c') ∧ pp_out c' = as_bytes token ++ frame request.
Proof.
  intros Hfits Hrequest. rewrite (handle_faultless _ _ _ _ _ Hfits Hrequest).
  assert (∀ b, request_over token request (faultless b) =
    read_frame MAX_CONTROL_RESPONSE_BYTES (str "response")
      (mkPipe b None (as_bytes token ++ frame request) None [])) as Hover.
  { intros b. unfold request_over, mbind at 1 2 3, st_bind at 1 2 3. simpl.
    rewrite (st_bind_run _ _ _ _ _ (write_frame_fits request MAX_CONTROL_REQUEST_BYTES
      (mkPipe b None (as_bytes token) None []) Hfits ltac:(done) eq_refl)). done. }
  destruct o as [answer|stop].
  2: { do 2 eexists. split; [done|]. split; [done|]. rewrite Hover. by eexists. }
  destruct (Z.leb_spec (zlen answer) MAX_CONTROL_RESPONSE_BYTES) as [Hfit|Hbig].
  - rewrite (write_frame_fits answer) by done. do 2 eexists. split; [done|]. split; [done|].
    rewrite Hover. rewrite (read_frame_fits answer [] MAX_CONTROL_RESPONSE_BYTES)
      by (rewrite ?app_nil_r; done). by eexists.
  - unfold write_frame. rewrite (proj2 (Z.ltb_lt _ _) Hbig). do 2 eexists. split; [done|].
    split; [done|]. rewrite Hover. by eexists.
Qed.

(** A panic in a handler ends the control channel: the connections before it are served in
    order, none behind it is, and the activation file stays where the clients look for it. *)
Theorem panic_ends_the_listener token before p after s pipes s1 v path d :
  serve on_activate on_request token before s = (Listening, pipes, s1) →
  handle token (mkServed s1 p) = (Err Panics, v) →
  serve on_activate on_request token (before ++ Connection p :: after) s
    = (Died, pipes ++ [sv_pipe v], sv_state v) ∧
  listener_end path Died d = d.
Proof.
  intros Hbefore Hpanic. split; [|done]. revert s pipes Hbefore.
  induction before as [|[q|e] before IH]; intros s pipes; simpl.
  - intros [= <- <-]. by rewrite Hpanic.
  - destruct (handle token (mkServed s q)) as [[u|[e| |]] w]; [| |done|done];
      destruct (serve _ _ token before (sv_state w)) as [[state pipes'] s'] eqn:Hrest;
      intros [= -> <- ->]; by rewrite (IH _ _ Hrest).
  - done.
Qed.
End exchange.

(** ** The activation file *)

Lemma split_whitespace_word field word rest :
  Forall (λ c, is_whitespace c = false) word →
  split_whitespace_from field (word ++ rest) = split_whitespace_from (field ++ word) rest.
Proof.
  intros Hword. revert field. induction Hword as [|c word Hc _ IH]; intros field; simpl.
  - by rewrite app_nil_r.
  - by rewrite Hc, IH, <- app_assoc.
Qed.
Lemma split_whitespace_end field c rest :
  field ≠ [] → is_whitespace c = true →
  split_whitespace_from field (c :: rest) = field :: split_whitespace rest.
Proof. intros Hf Hc. simpl. rewrite Hc. by destruct field. Qed.

(** A port is printed as a word of digits, which is read back. *)
Definition is_digit_char (c : Z) : Prop := 48 ≤ c < 58.
Lemma pretty_char x :
  (x < 10)%N → Z.of_N (N_of_ascii (pretty_N_char x)) = 48 + Z.of_N x.
Proof.
  intros Hx. destruct x as [|[[[[]|[]|]|[[]|[]|]|]|[[[]|[]|]|[[]|[]|]|]|]]; try done; lia.
Qed.
Lemma pretty_go_digits x s :
  Forall is_digit_char (str s) → Forall is_digit_char (str (pretty_N_go x s)).
Proof.
  revert s. induction (N.lt_wf_0 x) as [x _ IH]; intros s Hs.
  destruct (decide (x = 0%N)) as [->|Hne]; [by rewrite pretty_N_go_0|].
  pose proof (N.mod_lt x 10 ltac:(lia)) as Hm.
  rewrite pretty_N_go_step by lia. apply IH; [apply N.div_lt; lia|].
  rewrite str_String, pretty_char by done. constructor; [|done].
  revert Hm. generalize (x `mod` 10)%N. unfold is_digit_char. lia.
Qed.
Lemma pretty_go_parses x s :
  Z.of_N x ≤ U16_MAX →
  parse_digits (str (pretty_N_go x s)) 0 = parse_digits (str s) (Z.of_N x).
Proof.
  revert s. induction (N.lt_wf_0 x) as [x _ IH]; intros s Hx.
  destruct (decide (x = 0%N)) as [->|Hne]; [by rewrite pretty_N_go_0|].
  pose proof (N.mod_lt x 10 ltac:(lia)) as Hm. pose proof (N.div_mod x 10 ltac:(lia)) as Hdm.
  pose proof (N.div_lt x 10 ltac:(lia) ltac:(lia)) as Hlt. rewrite pretty_N_go_step by lia.
  revert Hm Hdm Hlt. generalize (x `mod` 10)%N as m, (x `div` 10)%N as d. intros m d Hm Hdm Hlt.
  rewrite IH by lia. rewrite str_String, pretty_char by done. cbn [parse_digits]. unfold to_digit.
  rewrite (proj2 (andb_true_iff _ _)) by (split; apply Z.leb_le; lia).
  cbn [ok_or mbind result_bind].
  replace (checked_add _ _ _) with (Some (Z.of_N x)); [done|].
  symmetry. apply checked_add_Some. lia.
Qed.
Lemma show_int_pos p : show_int (Zpos p) = str (pretty_N_go (Npos p) "").
Proof.
  unfold show_int. change (pretty (Zpos p)) with (pretty (Npos p)). unfold pretty, pretty_N.
  by case_decide.
Qed.
Lemma show_int_digits n : 0 ≤ n → Forall is_digit_char (show_int n).
Proof.
  intros Hn. destruct n as [|p|p]; [|rewrite show_int_pos; by apply pretty_go_digits|lia].
  constructor; [by vm_compute|constructor].
Qed.
Lemma port_text port : is_u16 port →
  parse_u16 (show_int port) = Ok port ∧ Forall is_digit_char (show_int port) ∧ show_int port ≠ [].
Proof.
  intros [H0 Hmax]. pose proof (show_int_digits port H0) as Hdigits.
  assert (parse_digits (show_int port) 0 = Ok port) as Hparse.
  { destruct port as [|p|p]; [done| |lia]. rewrite show_int_pos. by rewrite pretty_go_parses. }
  assert (show_int port ≠ []) as Hne.
  { destruct port as [|p|p]; [done| |lia]. intros Hnil. by rewrite Hnil in Hparse. }
  split_and!; [|done..]. destruct (show_int port) as [|c s] eqn:Hs; [done|].
  apply Forall_cons in Hdigits as [Hc _]. unfold is_digit_char in Hc. unfold parse_u16.
  rewrite (proj2 (Z.eqb_neq c 43)), (proj2 (Z.eqb_neq c 45)) by lia. by rewrite andb_false_r.
Qed.
Lemma digit_not_space c : is_digit_char c → is_whitespace c = false.
Proof.
  unfold is_digit_char, is_whitespace. intros Hc.
  repeat (apply orb_false_iff; split); rewrite ?andb_false_iff, ?Z.leb_gt, ?Z.eqb_neq; lia.
Qed.

(** A token is one word. *)
Definition word (s : rstr) : Prop :=
  s ≠ [] ∧ valid_str s ∧ Forall (λ c, is_whitespace c = false) s.

Definition activation_line (port : Z) (token : rstr) : rstr :=
  show_int port ++ [32] ++ token ++ [10].

Lemma parse_activation_line port token :
  is_u16 port → word token → parse_activation (activation_line port token) = Ok (port, token).
Proof.
  intros Hport (Hne & _ & Hword). destruct (port_text port Hport) as (Hparse & Hdigits & Hpne).
  assert (Forall (λ c, is_whitespace c = false) (show_int port)) as Hchars
    by (eapply Forall_impl; [exact Hdigits|apply digit_not_space]).
  assert (split_whitespace (activation_line port token) = [show_int port; token]) as Hsplit.
  { unfold split_whitespace, activation_line. rewrite split_whitespace_word by done.
    cbn [app]. rewrite split_whitespace_end by done. unfold split_whitespace.
    rewrite split_whitespace_word by done. by rewrite split_whitespace_end. }
  unfold parse_activation. cbv zeta. rewrite Hsplit. simpl. rewrite Hparse. simpl.
  by rewrite bool_decide_false.
Qed.

Lemma read_to_string_calm p q i content d :
  dk_faults d = [] → lookup_path true p d = Ok q → node_at (dk_nodes d) q = Some (File i) →
  dk_inodes d !! i = Some (as_bytes content) → valid_str content →
  read_to_string p d = (Ok content, d).
Proof.
  intros Hcalm Hl Hnode Hi Hvalid. pose proof (begin_calm d Hcalm) as Hbegin. unfold read_to_string.
  rewrite (st_bind_run _ _ _ _ _ Hbegin). unfold fs_lookup, fs_node, mbind, st_bind.
  rewrite Hl, Hnode. cbn [ok_or]. unfold st_get. rewrite Hbegin, Hi.
  change (default [] (Some (as_bytes content))) with (as_bytes content).
  unfold st_lift. by rewrite from_utf8_as_bytes.
Qed.

(** A directory that is reached without links. *)
Definition solid (nodes : gmap place Node) (dir : place) : Prop :=
  Forall valid_name dir ∧ ∀ p, p `prefix_of` dir → node_at nodes p = Some Dir.

Section solid.
Context (nodes : gmap place Node) (dir : place) (Hsolid : solid nodes dir).

Lemma resolve_child links follow name :
  valid_name name → (∀ target, nodes !! (dir ++ [name]) = Some (Symlink target) → follow = false) →
  resolve links nodes follow [] (dir ++ [name]) = Ok (dir ++ [name]).
Proof.
  intros Hname Hno. destruct Hsolid as [Hnames Hdirs].
  assert (∀ rest here, here ++ rest = dir →
    resolve links nodes follow here (rest ++ [name]) = Ok (dir ++ [name])) as Hgen; [|by apply Hgen].
  induction rest as [|x rest IH]; intros here Hh; cbn [app]; rewrite resolve_cons.
  - rewrite app_nil_r in Hh. subst here. rewrite bool_decide_false by apply Hname.
    destruct (nodes !! (dir ++ [name])) as [[|i|target]|] eqn:Hn; rewrite ?resolve_nil; try done.
    by rewrite (Hno _ eq_refl).
  - rewrite <- Hh, Forall_app, Forall_cons in Hnames. destruct Hnames as (_ & Hx & _).
    rewrite bool_decide_false by apply Hx.
    assert (here ++ [x] `prefix_of` dir) as Hp by (exists rest; by rewrite <- app_assoc).
    apply Hdirs in Hp. rewrite node_at_ne in Hp by (by destruct here). rewrite Hp.
    apply IH. by rewrite <- app_assoc.
Qed.
Lemma resolve_self links follow : resolve links nodes follow [] dir = Ok dir.
Proof.
  destruct Hsolid as [Hnames Hdirs].
  assert (∀ rest here, here ++ rest = dir → resolve links nodes follow here rest = Ok dir) as Hgen;
    [|by apply Hgen].
  induction rest as [|x rest IH]; intros here Hh.
  { rewrite app_nil_r in Hh. subst here. by rewrite resolve_nil. }
  rewrite <- Hh, Forall_app, Forall_cons in Hnames. destruct Hnames as (_ & Hx & _).
  rewrite resolve_cons, bool_decide_false by apply Hx.
  assert (here ++ [x] `prefix_of` dir) as Hp by (exists rest; by rewrite <- app_assoc).
  apply Hdirs in Hp. rewrite node_at_ne in Hp by (by destruct here). rewrite Hp.
  apply IH. by rewrite <- app_assoc.
Qed.
Lemma solid_self : node_at nodes dir = Some Dir.
Proof. by apply Hsolid. Qed.

(** Changes inside the directory leave it what it is. *)
Lemma solid_change nodes' :
  (∀ k, (∀ name, k ≠ dir ++ [name]) → nodes' !! k = nodes !! k) → solid nodes' dir.
Proof.
  intros Hsame. destruct Hsolid as [Hnames Hdirs]. split; [done|]. intros p Hp.
  pose proof (Hdirs p Hp) as Hd. destruct p as [|x p]; [done|]. unfold node_at in *. rewrite Hsame; [done|].
  intros name Heq. rewrite Heq in Hp. destruct Hp as [k Hk]. apply (f_equal length) in Hk.
  rewrite !length_app in Hk. simpl in Hk. lia.
Qed.
End solid.

Lemma create_dir_all_existing path d d' :
  solid (dk_nodes d) (components path) → create_dir_all path d = (Ok (), d') →
  dk_nodes d' = dk_nodes d ∧ dk_inodes d' = dk_inodes d.
Proof.
  intros Hsolid Hrun.
  assert (∀ p d0 r d1, is_dir p d0 = (r, d1) → dk_nodes d1 = dk_nodes d0 ∧ dk_inodes d1 = dk_inodes d0) as Hdir.
  { intros p d0 r d1 Hd. assert (keeps disk_same (is_dir p)) as Hk.
    { unfold is_dir. apply keeps_bind; [apply _|apply keeps_try|intros; apply keeps_ret, _].
      unfold metadata. keeps_tac. }
    by apply (disk_same_run _ _ _ _ Hk Hd). }
  assert (∀ o d1, create_dir path d = (o, d1) →
    ∃ e, o = Err e ∧ io_kind e ≠ NotFound ∧ dk_nodes d1 = dk_nodes d ∧ dk_inodes d1 = dk_inodes d) as Hcreate.
  { intros o d1 Hc. unfold create_dir in Hc. step_in Hc as u d2 H1; same_disk H1.
    { eexists. split; [done|]. split; [by eapply fs_begin_Err|done]. }
    assert (fs_free path d2 = (Err os_exists, d2)) as Hfree.
    { unfold fs_free, mbind, st_bind, fs_lookup, lookup_path. rewrite Hn.
      rewrite (resolve_self _ _ Hsolid). unfold st_get, st_lift. simpl. rewrite Hn.
      by rewrite (solid_self _ _ Hsolid). }
    unfold mbind, st_bind in Hc. rewrite Hfree in Hc. injection Hc as <- <-.
    by exists os_exists. }
  unfold create_dir_all in Hrun.
  destruct (length (components path)); cbn [create_dir_all_from] in Hrun;
    (case_bool_decide; [by injection Hrun as <-|]);
    apply st_try_inv in Hrun as (o & d1 & Hc & Hrun);
    destruct (Hcreate _ _ Hc) as (e & -> & Hkind & Hn & Hi);
    rewrite bool_decide_false in Hrun by done;
    ok_in Hrun as found d2 H2; apply Hdir in H2 as [Hn2 Hi2];
    (destruct found; [|done]); injection Hrun as <-; (split; congruence).
Qed.

Section published.
Context `{!Chmod} (data_dir : PathBuf) (token : rstr).
Context (Htoken : word token) (Hname : valid_name (str ".activation-" ++ token ++ str ".tmp")).
Notation dir := (components data_dir).
Notation path := (join data_dir ACTIVATION_FILE).
Notation temporary_name := (str ".activation-" ++ token ++ str ".tmp").

Lemma activation_name : valid_name ACTIVATION_FILE.
Proof. split_and!; [done..|]. unfold ACTIVATION_FILE. by vm_compute; set_solver. Qed.
Lemma activation_place : components path = dir ++ [ACTIVATION_FILE].
Proof. apply components_join, valid_path_name, activation_name. Qed.
Lemma temporary_place : components (with_file_name path temporary_name) = dir ++ [temporary_name].
Proof.
  destruct (parent_join data_dir ACTIVATION_FILE) as (q & Hq & Hc);
    [apply valid_path_name, activation_name|].
  unfold with_file_name, file_name. rewrite Hq, activation_place, last_snoc.
  rewrite bool_decide_false by apply activation_name.
  rewrite components_join by (by apply valid_path_name). by rewrite Hc.
Qed.
Lemma names_differ : dir ++ [temporary_name] ≠ dir ++ [ACTIVATION_FILE].
Proof.
  intros Heq%app_inv_head. by apply (f_equal (λ names, head (concat names))) in Heq.
Qed.

(** The pieces are written one after the other. *)
Lemma write_pieces_Ok pieces i done d file d' :
  dk_inodes d !! i = Some done →
  write_pieces (mkHandle i (length done)) pieces d = (Ok file, d') →
  dk_nodes d' = dk_nodes d ∧ dom (dk_inodes d') = dom (dk_inodes d) ∧
  dk_inodes d' !! i = Some (done ++ as_bytes (concat pieces)).
Proof.
  revert done d. induction pieces as [|piece pieces IH]; intros done d Hi Hrun; cbn [write_pieces] in Hrun.
  { injection Hrun as <- <-. by rewrite app_nil_r. }
  ok_in Hrun as h d1 H1. apply file_write_run in H1 as (written & Hn & Hin & Hok).
  destruct (Hok _ eq_refl) as [-> ->]. cbn [hd_inode hd_position] in *.
  rewrite <- length_app in Hrun. apply IH in Hrun as (Hn' & Hdom & Hi').
  - rewrite Hn', Hn, Hi'. split; [done|].
    assert (i ∈ dom (dk_inodes d)) as Hdi by (by apply elem_of_dom). split.
    { rewrite Hdom, Hin, dom_insert_L. set_solver. }
    cbn [concat]. unfold as_bytes.
    by rewrite map_app, concat_app, app_assoc.
  - rewrite Hin, lookup_insert_eq, Hi. simpl. unfold write_at.
    rewrite take_ge, Nat.sub_diag, drop_ge, app_nil_r by lia. done.
Qed.
Lemma write_contents_Ok port i d file d' :
  dk_inodes d !! i = Some [] →
  write_activation_contents (mkHandle i 0) port token d = (Ok file, d') →
  dk_nodes d' = dk_nodes d ∧ dom (dk_inodes d') = dom (dk_inodes d) ∧
  dk_inodes d' !! i = Some (as_bytes (activation_line port token)).
Proof.
  intros Hi Hrun. apply (write_pieces_Ok _ i [] _ _ _ Hi) in Hrun as (Hn & Hdom & Hc).
  split_and!; [done..|]. rewrite Hc. done.
Qed.

(** What [remove_file] leaves at a name in the directory. *)
Lemma remove_file_gone d o d' :
  solid (dk_nodes d) dir → remove_file path d = (o, d') →
  dk_inodes d' = dk_inodes d ∧
  (∀ k, k ≠ dir ++ [ACTIVATION_FILE] → dk_nodes d' !! k = dk_nodes d !! k) ∧
  ((o = Ok () ∨ ∃ e, o = Err e ∧ io_kind e = NotFound) →
     dk_nodes d' !! (dir ++ [ACTIVATION_FILE]) = None ∧ dk_nodes d !! (dir ++ [ACTIVATION_FILE]) ≠ Some Dir).
Proof.
  intros Hsolid Hrun. pose proof Hrun as Hrun'.
  assert (lookup_path false path d = Ok (dir ++ [ACTIVATION_FILE])) as Hl.
  { unfold lookup_path. rewrite activation_place. by apply (resolve_child _ _ Hsolid); [apply activation_name|]. }
  apply remove_file_run in Hrun' as [(e & -> & Hn & Hi)|(-> & q & n & Hl' & Hq & Hnd & Hn & Hi)].
  - rewrite Hn, Hi. split_and!; [done..|]. intros [[=]|(e' & [= <-] & Hkind)].
    unfold remove_file in Hrun. step_in Hrun as u d1 H1; [by apply unlink_begin_Err in H1 as [? _]|].
    same_disk H1. step_in Hrun as q d2 H2; apply fs_lookup_run in H2 as [H2 ->];
      rewrite (lookup_path_nodes _ _ d d1), Hl in H2 by done; [done|injection H2 as ->].
    step_in Hrun as n d2 H3; apply fs_node_run in H3 as [H3 ->].
    + rewrite <- Hn0. destruct (node_at (dk_nodes d1) (dir ++ [ACTIVATION_FILE])) eqn:Hnode; [done|].
      rewrite node_at_ne in Hnode by (by destruct dir). by rewrite Hnode.
    + destruct n; [|done..]. injection Hrun as <- _. discriminate Hkind.
  - rewrite Hl in Hl'. injection Hl' as <-. rewrite Hn, Hi. split_and!; [done|..].
    + intros k Hk. by rewrite lookup_delete_ne.
    + intros _. split; [apply lookup_delete_eq|]. rewrite Hq. congruence.
Qed.

Lemma rename_published i d d' :
  solid (dk_nodes d) dir → dk_nodes d !! (dir ++ [temporary_name]) = Some (File i) →
  dk_nodes d !! (dir ++ [ACTIVATION_FILE]) = None →
  rename (with_file_name path temporary_name) path d = (Ok (), d') →
  dk_nodes d' = <[dir ++ [ACTIVATION_FILE] := File i]> (delete (dir ++ [temporary_name]) (dk_nodes d)) ∧
  dk_inodes d' = dk_inodes d.
Proof.
  intros Hsolid Htmp Hfree Hrun. unfold rename in Hrun. ok_in Hrun as u d1 H1. same_disk H1.
  ok_in Hrun as p d2 H2. apply fs_lookup_run in H2 as [H2 ->].
  unfold lookup_path in H2. rewrite temporary_place, Hn in H2.
  rewrite (resolve_child _ _ Hsolid _ _ _ Hname) in H2 by done.
  assert (p = dir ++ [temporary_name]) as -> by congruence. clear H2.
  ok_in Hrun as n d2 H3. apply fs_node_run in H3 as [H3 ->].
  rewrite Hn, node_at_ne, Htmp in H3 by (by destruct dir). injection H3 as ->.
  ok_in Hrun as q d2 H4. apply fs_lookup_run in H4 as [H4 ->].
  unfold lookup_path in H4. rewrite activation_place, Hn in H4.
  rewrite (resolve_child _ _ Hsolid _ _ _ activation_name) in H4 by done.
  assert (q = dir ++ [ACTIVATION_FILE]) as -> by congruence. clear H4.
  ok_in Hrun as d2 d3 H5. injection H5 as -> ->.
  rewrite bool_decide_false in Hrun by apply names_differ.
  rewrite Hn, node_at_ne, Hfree in Hrun by (by destruct dir).
  injection Hrun as <-. simpl. by rewrite Hn, Hi.
Qed.

(** A successful publication leaves the line under its name, and changes no other name. *)
Lemma write_activation_Ok port d d' :
  solid (dk_nodes d) dir → write_activation path port token d = (Ok (), d') →
  (∀ k, k ≠ dir ++ [ACTIVATION_FILE] → dk_nodes d' !! k = dk_nodes d !! k) ∧
  dk_nodes d !! (dir ++ [ACTIVATION_FILE]) ≠ Some Dir ∧
  dom (dk_inodes d) ⊆ dom (dk_inodes d') ∧
  ∃ i, dk_nodes d' !! (dir ++ [ACTIVATION_FILE]) = Some (File i) ∧
    dk_inodes d' !! i = Some (as_bytes (activation_line port token)).
Proof.
  intros Hsolid Hrun. unfold write_activation in Hrun.
  apply st_try_inv in Hrun as (o & d0 & Hbody & Hrun). destruct o as [u|e].
  2: { by ok_in Hrun as u1 d1 H1. }
  injection Hrun as <-. destruct u. rename Hbody into Hrun.
  ok_in Hrun as file d1 H1. apply open_create_new_run in H1 as [(? & [=] & _)|(q & [= ->] & Hq & Hnone & Hn1 & Hi1)].
  unfold lookup_path in Hq. rewrite temporary_place in Hq.
  rewrite (resolve_child _ _ Hsolid _ _ _ Hname) in Hq by done.
  assert (q = dir ++ [temporary_name]) as -> by congruence. clear Hq.
  rewrite node_at_ne in Hnone by (by destruct dir).
  set (i := fresh (dom (dk_inodes d))) in *.
  ok_in Hrun as file2 d2 H2. apply write_contents_Ok in H2 as (Hn2 & Hdom2 & Hi2);
    [|by rewrite Hi1, lookup_insert_eq].
  ok_in Hrun as u3 d3 H3. assert (keeps disk_same sync_all) as Hsync by (unfold sync_all; eauto with keeps).
  apply (disk_same_run _ _ _ _ Hsync) in H3 as [Hn3 Hi3].
  ok_in Hrun as u4 d4 H4. assert (keeps disk_same (make_owner_only (with_file_name path temporary_name))) as Hown
    by (unfold make_owner_only, metadata; keeps_tac).
  apply (disk_same_run _ _ _ _ Hown) in H4 as [Hn4 Hi4].
  ok_in Hrun as removed d5 H5. apply (proj1 (st_try_Ok _ _ _ _)) in H5.
  assert (dk_nodes d4 = <[dir ++ [temporary_name] := File i]> (dk_nodes d)) as Hnodes4
    by (by rewrite Hn4, Hn3, Hn2, Hn1).
  assert (solid (dk_nodes d4) dir) as Hsolid4.
  { rewrite Hnodes4. apply (solid_change _ _ Hsolid). intros k Hk. by rewrite lookup_insert_ne. }
  pose proof (remove_file_gone _ _ _ Hsolid4 H5) as (Hi5 & Hn5 & Hgone).
  ok_in Hrun as u6 d6 H6. apply st_lift_Ok in H6 as [H6 ->].
  assert (solid (dk_nodes d5) dir) as Hsolid5.
  { apply (solid_change _ _ Hsolid4). intros k Hk. by apply Hn5. }
  destruct Hgone as [Hgone Hnodir].
  { destruct removed as [[]|e]; [by left|right]. exists e. split; [done|].
    destruct u6. by apply refuse_if_Ok, negb_false_iff, bool_decide_eq_true in H6. }
  apply (rename_published i) in Hrun as [Hn6 Hi6]; [|done| |done].
  2: { rewrite Hn5, Hnodes4 by apply names_differ. apply lookup_insert_eq. }
  rewrite Hnodes4, lookup_insert_ne in Hnodir by apply names_differ.
  split_and!; [|done| |].
  - intros k Hk. rewrite Hn6, lookup_insert_ne by done.
    destruct (decide (k = dir ++ [temporary_name])) as [->|Hne].
    { by rewrite lookup_delete_eq. }
    rewrite lookup_delete_ne, Hn5, Hnodes4, lookup_insert_ne by done. done.
  - rewrite Hi6, Hi5, Hi4, Hi3, Hdom2, Hi1, dom_insert_L. set_solver.
  - exists i. rewrite Hn6, lookup_insert_eq, Hi6, Hi5, Hi4, Hi3. done.
Qed.

(** What was published is what a client reads. *)
Lemma published_is_read port d d' :
  solid (dk_nodes d) dir → write_activation path port token d = (Ok (), d') → is_u16 port →
  (read_activation path (set_faults [] d')).1 = Ok (port, token).
Proof.
  intros Hsolid Hrun Hport.
  apply write_activation_Ok in Hrun as (Hkept & _ & _ & i & Hfile & Hline); [|done].
  assert (solid (dk_nodes d') dir) as Hsolid'.
  { apply (solid_change _ _ Hsolid). intros k Hk. by apply Hkept. }
  destruct Htoken as (Hne & Hvalid & Hspace). unfold read_activation.
  rewrite (st_bind_run _ _ _ (activation_line port token) (set_faults [] d')).
  - unfold st_lift. by rewrite parse_activation_line.
  - apply (read_to_string_calm _ (dir ++ [ACTIVATION_FILE]) i); [done| | |exact Hline|].
    + unfold lookup_path. rewrite activation_place.
      apply (resolve_child _ _ Hsolid'); [apply activation_name|].
      intros target Hl. change (dk_nodes d' !! (dir ++ [ACTIVATION_FILE]) = Some (Symlink target)) in Hl.
      by rewrite Hfile in Hl.
    + change (dk_nodes (set_faults [] d')) with (dk_nodes d').
      by rewrite node_at_ne by (by destruct dir).
    + unfold activation_line, valid_str. rewrite !Forall_app.
      split_and!; [|by repeat constructor|done|by repeat constructor].
      destruct (port_text port Hport) as (_ & Hd & _). eapply Forall_impl; [exact Hd|].
      unfold is_digit_char, is_scalar. lia.
Qed.

(** A resident is found: when its listener has started, a client that reads the activation
    file gets the port that was bound and the token that was drawn. *)
Theorem activation_file_is_found bound spawned d d' :
  solid (dk_nodes d) dir → listen_with_control data_dir bound token spawned d = (Ok (), d') →
  ∃ port, bound = Ok port ∧
    (is_u16 port → (read_activation path (set_faults [] d')).1 = Ok (port, token)).
Proof.
  intros Hsolid Hrun. unfold listen_with_control in Hrun.
  ok_in Hrun as u d1 H1. destruct u. apply create_dir_all_existing in H1 as [Hn1 _]; [|done].
  ok_in Hrun as port d2 H2. apply st_lift_Ok in H2 as [-> ->]. exists port. split; [done|].
  intros Hport. cbv zeta in Hrun. ok_in Hrun as u d2 H2. destruct u.
  destruct spawned; [|by ok_in Hrun as u d3 H3]. injection Hrun as <-.
  by apply (published_is_read port d1); [rewrite Hn1|..].
Qed.
End published.

(** ** Sample *)

Module ChannelSample.

(** A resident that counts its requests and echoes them. *)
Definition raise : St nat (Stop Empty_set) () := mret ().
Definition echo (b : bytes) : St nat (Stop IoError) bytes := λ n, (Ok b, S n).
Definition token : rstr := str "secret".
Definition ping : bytes := [Byte.x70; Byte.x69].

(** The connection of the client, whose last byte of the answer is followed by a reset, and that
    of the resident. *)
Definition client_end : Pipe :=
  mkPipe (frame ping) (Some (mkIoError ConnectionReset (str "reset"))) [] None [].
Definition server_end : Pipe := mkPipe (as_bytes token ++ frame ping) None [] None [].

Lemma answer_is_to_the_request_witness :
  ∃ c' r v', request_over token ping client_end = (Ok ping, c') ∧
    handle_connection raise echo token (mkServed 0%nat server_end) = (r, v') ∧
    echo ping 0%nat = (Ok ping, sv_state v').
Proof.
  destruct (request_over token ping client_end) as [a c'] eqn:Hc.
  destruct (handle_connection raise echo token (mkServed 0%nat server_end)) as [r v'] eqn:Hs.
  assert (a = Ok ping) as -> by (vm_compute in Hc; injection Hc as <- _; reflexivity).
  exists c', r, v'. split; [reflexivity|]. split; [reflexivity|].
  apply (answer_is_to_the_request raise echo token ping ping client_end c' 0%nat server_end r v');
    [|exact Hc|exact Hs].
  split; [reflexivity|]. split; [reflexivity|]. split.
  - assert (pp_out c' = as_bytes token ++ frame ping) as -> by (vm_compute in Hc; injection Hc as <-; reflexivity).
    exists []. vm_compute. reflexivity.
  - assert (pp_out (sv_pipe v') = frame ping) as -> by (vm_compute in Hs; injection Hs as _ <-; reflexivity).
    exists []. vm_compute. reflexivity.
Defined.

Lemma control_exchange_witness :
  ∃ r v' c', handle_connection raise echo token
      (mkServed 0%nat (faultless (as_bytes token ++ frame ping))) = (r, v') ∧ sv_state v' = 1%nat ∧
    request_over token ping (faultless (pp_out (sv_pipe v'))) = (Ok ping, c').
Proof.
  destruct (control_exchange raise echo token ping 0%nat (Ok ping) 1%nat) as (r & v' & Hs & Hst & c' & Hc & _);
    [vm_compute; discriminate|reflexivity|].
  exists r, v', c'. split; [exact Hs|]. split; [exact Hst|]. exact Hc.
Defined.

Lemma control_needs_the_token_witness :
  ∃ r v', handle_connection raise echo token (mkServed 0%nat server_end) = (r, v') ∧
    ∃ input, pp_in server_end = as_bytes token ++ input.
Proof.
  destruct (handle_connection raise echo token (mkServed 0%nat server_end)) as [r v'] eqn:Hs.
  exists r, v'. split; [reflexivity|].
  destruct (control_needs_the_token raise echo token 0%nat server_end r v' Hs) as (input & Hin & _).
  - vm_compute in Hs. injection Hs as _ <-. discriminate.
  - exists input. exact Hin.
Defined.

#[local] Instance sample_chmod : Chmod := λ _ _, Ok (true, str "exit status: 0").
Definition home : Disk := mkDisk {[ [str "home"] := Dir ]} ∅ [].
Lemma home_solid : solid (dk_nodes home) (components (str "/home")).
Proof.
  split; [repeat constructor; vm_compute; set_solver|]. intros p [k Hk].
  destruct p as [|x [|y p]]; [reflexivity| |discriminate]. injection Hk as <- _. reflexivity.
Qed.
Lemma token_word : word token.
Proof. split; [discriminate|]. split; repeat constructor. all: unfold is_scalar; lia. Qed.

Lemma temporary_valid : valid_name (str ".activation-" ++ token ++ str ".tmp").
Proof. repeat split; [discriminate..|]. apply (bool_decide_unpack _). vm_compute. exact I. Qed.

Lemma activation_file_is_found_witness :
  ∃ d', listen_with_control (str "/home") (Ok 4100) token (Ok ()) home = (Ok (), d') ∧
    (read_activation (join (str "/home") ACTIVATION_FILE) (set_faults [] d')).1 = Ok (4100, token).
Proof.
  destruct (listen_with_control (str "/home") (Ok 4100) token (Ok ()) home) as [[[]|e] d'] eqn:Hrun;
    [|exfalso; vm_compute in Hrun; discriminate Hrun].
  exists d'. split; [reflexivity|].
  destruct (activation_file_is_found (str "/home") token token_word temporary_valid
    (Ok 4100) (Ok ()) home d' home_solid Hrun) as (port & Hport & Hread).
  assert (port = 4100) as -> by congruence. apply Hread. vm_compute. split; discriminate.
Defined.
End ChannelSample.
