(* ===== verification/Serving.v ===== *)
(** * The server of a resident

    What the desktop program and [meshelfctl serve] put behind their listener: the trust gate
    of the state file ([PairedGate] is what a gate promises), the announcement handler and the
    fetch sender over one offer store ([start_v2_listener] of [apps/desktop/src/main.rs] and
    of [apps/meshelfctl/src/main.rs]). *)

From S2P Require Import Prelude RustStr StdIo Utf8 Offer Records Identity Names Protocol OfferStore Filesystem Announce Connection Manifest Source Sender Discovery Registry.

Section gates.
Context {SigningKey : Type} {ed : Ed25519 SigningKey}.
Context {client_json : Json ClientHello}.
Context {state_json : Json InstallationState} {atomic : AtomicWriteFile}.
Context (generated identity : DeviceId).

(** The condition of the first arm of [authorize], in both programs; a hello that does not
    serialize has panicked before any gate is asked ([client_trust]). *)
Definition registered (remote : SocketAddr) (hello : ClientHello) (peer : TrustedPeer) : bool :=
  bool_decide (sa_ip remote ∈ tp_addresses peer)
  && bool_decide (tp_public_key peer = ch_public_key hello)
  && bool_decide (client_has_valid_signature (SigningKey := SigningKey) hello = Some true).

(** The refusals of both programs. *)
Definition state_unavailable : TrustDecision :=
  Deny (str "local meshelf state is unavailable").
Definition not_approved : TrustDecision :=
  Deny (str "meshelf installation has not been approved").
Definition key_mismatch : TrustDecision :=
  Deny (str "approved peer key or Tailscale address does not match").

(** The client is an accepted peer of the state file. *)
Definition accepted_peer (h : Host) (remote : SocketAddr) (hello : ClientHello) (peer : TrustedPeer)
    : Prop :=
  ∃ state, stored_state generated identity (ho_file h) = Some state ∧
    by_device_id (is_peers state) (ch_device_id hello) = Some peer ∧
    sa_ip remote ∈ tp_addresses peer ∧ tp_public_key peer = ch_public_key hello ∧
    client_has_valid_signature (SigningKey := SigningKey) hello = Some true.

(** What a gate promises: it admits exactly the clients that are registered in the state it
    can load. *)
Class PairedGate (store : InstallationStore) (gate : Host → TrustGate) : Prop :=
  paired_gate : ∀ h remote hello, gate h remote hello = Allow ↔
    ∃ state peer, (load_for_identity store generated identity h).1 = Ok state ∧
      by_device_id (is_peers state) (ch_device_id hello) = Some peer ∧
      registered remote hello peer = true.

Lemma paired_gate_accepts store gate {paired : PairedGate store gate} h remote hello :
  gate h remote hello = Allow → ∃ peer, accepted_peer h remote hello peer.
Proof.
  intros (state & peer & Hload & Hpeer & Hreg)%paired_gate. exists peer, state.
  destruct (load_for_identity _ _ _ _) as [r h'] eqn:Hrun in Hload. cbn in Hload. subst r.
  apply load_for_identity_spec in Hrun as [_ Hstate]. unfold registered in Hreg. bool_facts.
  split_and!; try done. by apply Hstate.
Qed.
End gates.

(** ** The services *)

Section services.
Context {FS : Type} {fs : StagingFs FS} {iter : RedbIter} {iter_laws : RedbIterLaws}.
Context {uuid : UuidText} {uuid_laws : UuidTextLaws}.
Context {source_json : Json OfferSourceRecord} {card_json : Json OfferCardRecord}.
Context {journal_json : Json ActivationJournalEntry} {cache_json : Json ClipboardCacheRecord}.
Context {source_laws : JsonLaws OfferSourceRecord} {card_laws : JsonLaws OfferCardRecord}.
Context {journal_laws : JsonLaws ActivationJournalEntry} {cache_laws : JsonLaws ClipboardCacheRecord}.
Context {views : Views} {sha : Sha256} {message_json : Json V2Message}.
Context {entries_json : Json (list ManifestEntry)}.
Notation Server := (Origin (World FS)).

(** The store as the announcement handler sees it. *)
Definition on_origin {E T} (m : St (World FS) E T) : St Server E T := λ o,
  let '(r, w) := m (or_store o) in
  (r, mkOrigin w (or_available o) (or_closed o) (or_calls o)).

(** The [V2OfferServices] of [start_v2_listener].  The store that the desktop's handler gets
    adds a notification to an insertion ([insertion_wakes_subscribers] of [Coordinator]). *)
Definition v2_services (lock_poisoned : bool) (origin_device : DeviceId) : V2OfferServices Server :=
  mkServices
    (λ source listener announcement, on_origin (handle_sync lock_poisoned source listener announcement))
    (λ client request, handle_fetch origin_device client request).

Definition cards_in (o : Server) := cards_of (w_db (or_store o)).
Definition sources_in (o : Server) := sources_of (w_db (or_store o)).

(** *** The announcement handler leaves the offers alone, the fetch sender the cards *)

Definition sources_same : relation (World FS) := same_on (λ w, sources_of (w_db w)).
Lemma keeps_db_sources {T} (m : St (World FS) StoreError T) :
  keeps (db_same (FS := FS)) m → keeps sources_same m.
Proof. intros Hm w. specialize (Hm w). unfold sources_same, db_same, same_on in *. by rewrite Hm. Qed.
Lemma insert_card_sources input : keeps sources_same (insert_offer_card (FS := FS) input).
Proof.
  intros w. unfold sources_same, same_on. destruct (insert_offer_card input w) as [[out|e] w'] eqn:Hrun; cbn [snd].
  - apply insert_offer_card_Ok in Hrun as [(_ & _ & _ & _ & ->)|(_ & _ & _ & _ & ->)]; done.
  - by rewrite (insert_offer_card_Err _ _ _ _ Hrun).
Qed.
Lemma shelf_sources : keeps sources_same (read_offer_shelf (FS := FS)).
Proof. apply keeps_db_sources, keeps_read_newest. Qed.
Lemma get_card_sources d o : keeps sources_same (get_offer_card (FS := FS) d o).
Proof. apply keeps_db_sources, keeps_get_opt. Qed.
#[local] Hint Resolve insert_card_sources shelf_sources get_card_sources : keeps.
#[local] Instance sources_same_preorder : PreOrder sources_same.
Proof. unfold sources_same. apply _. Qed.

Lemma handle_sync_sources poisoned source listener a :
  keeps sources_same (handle_sync (S := World FS) poisoned source listener a).
Proof.
  unfold handle_sync, handle_unlocked, handle_locked, live_count.
  cbn [ocs_read_offer_shelf ocs_get_offer_card ocs_insert_offer_card redb_offer_card_store].
  keeps_tac.
Qed.
Definition db_in (s : Session Server) : Db := w_db (or_store (ss_services s)).
Notation db_kept := (same_on db_in).
Lemma held_db {E T} (m : St (Session Server) E T) : keeps (same_on held) m → keeps db_kept m.
Proof.
  intros Hm s. specialize (Hm s). unfold same_on, held, db_in in *. by injection Hm as -> _ _.
Qed.
Lemma fetch_conn {T} (m : St Conn Failure T) : keeps db_kept (on_conn m).
Proof. apply held_db, held_conn. Qed.
Lemma fetch_source {E T} (m : Obs E T) : keeps db_kept (on_source m).
Proof. apply held_db, held_source. Qed.
Lemma fetch_plan request record plan : keeps db_kept (send_plan (S := World FS) request record plan).
Proof. apply held_db, held_plan. Qed.
Lemma fetch_refusal request code counts detail :
  keeps db_kept (send_refusal_with_counts (S := World FS) request code counts detail).
Proof. apply held_db, held_refusal. Qed.
Lemma fetch_permits (f : Session Server → Z) :
  keeps db_kept
    (st_modify (λ s, mkSession (ss_conn s) (set_available (f s) (ss_services s))) : St _ Failure ()).
Proof. by intros s. Qed.
Lemma fetch_record offer_id :
  keeps db_kept (on_store (oss_get_offer_source (S := World FS) offer_id)).
Proof.
  intros s. unfold same_on, db_in, on_store. cbn [oss_get_offer_source redb_offer_source_store].
  cbn. destruct (get_offer_source offer_id _) as [r w] eqn:Hrun. cbn. by apply redb_get_source_spec in Hrun as [-> _].
Qed.
#[local] Hint Resolve fetch_conn fetch_source fetch_plan fetch_refusal fetch_permits fetch_record : keeps.
Lemma fetch_holding m : keeps db_kept m → keeps db_kept (holding_permit (S := World FS) m).
Proof. intros Hm s. specialize (Hm s). unfold holding_permit. by destruct (m s). Qed.
#[local] Hint Resolve fetch_holding : keeps.

Lemma handle_fetch_db origin client request :
  keeps db_kept (handle_fetch (S := World FS) origin client request).
Proof.
  unfold handle_fetch, authorize, serve_authorized, acquire, release, send_refusal.
  keeps_tac.
Qed.

(** *** Who is served *)

Context {SigningKey : Type} {ed : Ed25519 SigningKey}.
Context {client_json : Json ClientHello} {server_json : Json ServerHello} {wire_json : Json WireMessage}.
Context {state_json : Json InstallationState} {atomic : AtomicWriteFile}.

(** What a connection may do for [client]: put the card of an announcement of its own on the
    shelf, *)
Definition carded (own client : DeviceId) announcement (o o' : Server) : Prop :=
  sources_in o' = sources_in o ∧
  (cards_in o' = cards_in o ∨
   an_source_device announcement = client ∧ an_target_device announcement = own ∧
   announcement_validate announcement = Ok () ∧
   cards_in o !! card_key client (an_offer_id announcement) = None ∧
   ∃ card, cards_in o' !! card_key client (an_offer_id announcement) = Some card ∧
     card_descriptor card = an_descriptor announcement).
(** or read an offer that was announced to it. *)
Definition fetched (own client : DeviceId) request (s s' : Session Server) : Prop :=
  w_db (or_store (ss_services s')) = w_db (or_store (ss_services s)) ∧
  (or_calls (ss_services s') = or_calls (ss_services s) ∨
   fr_source_device request = own ∧ fr_requester_device request = client ∧
   ∃ record, sources_in (ss_services s) !! source_key (fr_offer_id request) = Some record ∧
     client ∈ src_announced_to record).

(** C5: Whatever bytes a connection delivers, the resident's offers stay as they are, every
    permit of the sender is given back, and cards and source files are touched only for an
    accepted peer: one whose device, address and key the state file holds at this moment and
    whose hello verifies.  Such a peer may put a card of its own announcement on the shelf, or
    have the files of an offer read that was announced to it; it can do nothing else. *)
Theorem only_accepted_peers_are_served (identity : ServerIdentity SigningKey) generated owner store
    gate {paired : PairedGate (SigningKey := SigningKey) generated owner store gate}
    h poisoned remote s r s' :
  store_inv (w_db (or_store (ss_services s))) →
  handle_v2_connection identity (gate h) (v2_services poisoned (server_device_id identity)) remote s
    = (r, s') →
  store_inv (w_db (or_store (ss_services s'))) ∧
  sources_in (ss_services s') = sources_in (ss_services s) ∧
  or_available (ss_services s') = or_available (ss_services s) ∧
  (ss_services s' = ss_services s ∨
   ∃ hello peer, accepted_peer (SigningKey := SigningKey) generated owner h remote hello peer ∧
     let own := server_device_id identity in let client := ch_device_id hello in
     ((∃ announcement, carded own client announcement (ss_services s) (ss_services s')
         ∧ or_calls (ss_services s') = or_calls (ss_services s)) ∨
      (∃ request, fetched own client request s s'))).
Proof.
  intros Hinv Hrun. apply handle_v2_connection_cases in Hrun
    as [->|(hello & tail & message & tail' & _ & _ & _ & _ & Hgate & _ & Hop)];
    [split_and!; [done..|by left]|].
  apply (paired_gate_accepts generated owner store gate) in Hgate as [peer Hpeer].
  destruct Hop as [(announcement & _ & Hs)|(request & s1 & _ & Hs1 & ->)].
  - cbn [announcement_receiver v2_services] in Hs. unfold on_origin in Hs.
    destruct (handle_sync _ _ _ _ _) as [o w] eqn:Hsync in Hs. cbn [snd] in Hs.
    pose proof (handle_sync_sources poisoned (ch_device_id hello) (server_device_id identity)
      announcement (or_store (ss_services s))) as Hsources.
    rewrite Hsync in Hsources. unfold sources_same, same_on in Hsources. cbn [snd] in Hsources.
    apply handle_sync_run in Hsync as [Hinv' Hcases]; [|exact Hinv].
    rewrite Hs. unfold sources_in. cbn [or_store or_available or_calls]. split_and!; [done..|right].
    exists hello, peer. split; [done|]. left. exists announcement. split; [|done].
    split; [exact Hsources|]. unfold cards_in. cbn [or_store].
    destruct Hcases as [[(Hsrc & Htgt & Hvalid) Hh]|[Hsame _]]; [|by left].
    unfold handled in Hh. cbn in Hh.
    destruct o as [k|e]; [destruct (ack_code k)|]; naive_solver.
  - cbn [fetch_sender v2_services]. destruct (handle_fetch _ _ _ _) as [o s2] eqn:Hfetch.
    pose proof (handle_fetch_db (server_device_id identity) (ch_device_id hello) request s1) as Hdb.
    rewrite Hfetch in Hdb. unfold same_on, db_in in Hdb. cbn [snd] in *.
    apply (handle_fetch_run _ (OfferSourceStoreSpec0 := redb_offer_source_store_spec))
      in Hfetch as (_ & Hav & Hcases); [|cbn; by rewrite Hs1].
    unfold sources_in. rewrite Hdb, Hav, Hs1. split_and!; [done..|right].
    exists hello, peer. split; [done|]. right. exists request. unfold fetched, sources_in.
    rewrite Hdb, Hs1. split; [done|].
    destruct Hcases as [[Hcalls _]|(Hown & Hreq & _ & record & Hrec & Hann & _)].
    + left. by rewrite Hcalls, Hs1.
    + right. split_and!; [done..|]. exists record. cbn in Hrec. by rewrite Hs1 in Hrec.
Qed.
End services.
