(* ===== verification/Programs.v ===== *)
(** * What the programs share

    The desktop program and [meshelfctl serve] run the same activations over the same process
    state: the input of an activation ([build_activation_input] of [apps/desktop/src/main.rs],
    [HeadlessRuntime::activate] of [apps/meshelfctl/src/main.rs]), its run through the
    activation service, and the save destination of
    [crates/meshelf-platform/src/folder_dialog.rs].  [SavingRuntime] states what a runtime
    promises of a completed save; the theorem of this file is proved against it. *)

From S2P Require Import Prelude RustStr StdIo Utf8 Offer Records Identity Names Protocol OfferStore Ledger Activation Filesystem Announce Connection Manifest Transfer Receiver ReceiverContent ReceiverSafety ReceiverTree ReceiverSave SavedTree Fetching Source Sender Discovery Registry Coordinator Controller.

(** ** The input of an activation *)

(** [resolve_save_destination]; [download_dir] is what the platform reports. *)
Definition resolve_save_destination (download_dir : option PathBuf)
    (destination : SaveDestination) : result rstr PathBuf :=
  path ← match destination with
         | Downloads => ok_or download_dir (str "the Downloads folder is unavailable")
         | Custom path => Ok path
         end;
  refuse_if (negb (is_absolute path)) (str "save destination must be absolute");;
  mret path.

(** [ActivationInput] and [HeadlessActivationInput]. *)
Record ActivationInput := mkActivationInput {
  ai_address : SocketAddr;
  ai_hello : ClientHello;
  ai_request : FetchRequest;
  ai_activation : FetchActivation;
  ai_expected_server_public_key : bytes;
}.

(** An error text, or the panic of a hello that does not serialize. *)
Definition text_error {T} (r : result rstr T) : result (Stop rstr) T := map_err Fails r.

Section input.
Context {SigningKey : Type} {ed : Ed25519 SigningKey}.
Context {client_json : Json ClientHello} {uuid : UuidText}.
Context (download_dir : option PathBuf).

(** The destination of a plan. *)
Definition plan_directory (plan : ActivationPlan) : result rstr (option PathBuf) :=
  match ap_mode plan with
  | Mode_Clipboard => Ok None
  | Mode_Save =>
      destination ← ok_or (ap_destination plan)
                      (str "save activation has no destination setting");
      path ← resolve_save_destination download_dir destination;
      mret (Some path)
  end.

(** The input for a plan, once the peer is found. *)
Definition input_for (identity : InstallationIdentity SigningKey) (device_name : rstr)
    (plan : ActivationPlan) (peer : TrustedPeer) : result (Stop rstr) ActivationInput :=
  let own := ii_device_id identity in
  address ← text_error (ok_or (select_discovered_socket (tp_addresses peer) MESHELF_PORT)
              (str "the offer's source device has no address"));
  destination ← text_error (plan_directory plan);
  hello ← ok_or (client_signed_v2 own device_name
            (uuid_to_string (ActivationId_as_uuid (ap_activation_id plan))) identity) Panics;
  mret (mkActivationInput address hello
    (mkFetchRequest (ap_activation_id plan) (ap_offer_id plan) (ap_source_device plan) own)
    (mkFetchActivation (ap_activation_id plan) (ap_source_device plan) (ap_offer_id plan)
       (ap_mode plan) destination)
    (tp_public_key peer)).
(** The peer of a plan among those accepted. *)
Definition peer_for (installation : InstallationState) (plan : ActivationPlan)
    : result (Stop rstr) TrustedPeer :=
  text_error (ok_or (by_device_id (is_peers installation) (ap_source_device plan))
    (str "the offer's source device is not paired")).
End input.

(** ** The process *)

(** What the activations of a process share: the owner, store and disk, the ledger, the
    clipboard; and what the program keeps besides. *)
Record Process (A : Type) := mkProcess {
  pc_proc : Proc Disk;
  pc_ledger : ReservationLedger;
  pc_probe : SpaceProbe;
  pc_clipboard : Clipboard;
  pc_app : A;
}.
Arguments mkProcess {_} _ _ _ _ _.
Arguments pc_proc {_} _.
Arguments pc_ledger {_} _.
Arguments pc_probe {_} _.
Arguments pc_clipboard {_} _.
Arguments pc_app {_} _.

(** What the outside does in the fetch of one activation: the runtime, the connect, the
    connection and how its bytes arrive, and the ids the receiver draws. *)
Record Attempt := mkAttempt {
  at_runtime : result rstr ();
  at_connect : Connect;
  at_conn : Conn;
  at_chunks : list nat;
  at_fresh_activation : ActivationId;
  at_fresh_offer : OfferId;
  at_fresh_id : rstr;
}.

(** A cancellation signal, as the code sees it at each look. *)
Record Cancellation := mkCancellation {
  cc_signal : CancelSignal;
  cc_connect : Connect → ConnectRace;
  cc_looks : list bool;
  cc_races : list Race;
}.
(** The receiver of a [watch::channel(false)] whose sender is kept and not used. *)
Definition never_cancelled : Cancellation :=
  mkCancellation (mkCancelSignal false false false) RaceConnect [] [].

Section process.
Context {A : Type}.
Notation Process := (Process A).
Definition pc_world (d : Process) : World Disk := pr_world (pc_proc d).
Definition set_pc_world (w : World Disk) (d : Process) : Process :=
  mkProcess (mkProc (pr_owner (pc_proc d)) w) (pc_ledger d) (pc_probe d) (pc_clipboard d) (pc_app d).

(** The stores of the process are those of its world. *)
Definition on_world {E T} (m : St (World Disk) E T) : St Process E T := λ d,
  let '(r, w) := m (pc_world d) in (r, set_pc_world w d).
#[export] Instance process_card_store `{!OfferCardStore (World Disk)} : OfferCardStore Process := {|
  ocs_get_offer_card source_device offer_id := on_world (ocs_get_offer_card source_device offer_id);
  ocs_read_offer_shelf := on_world ocs_read_offer_shelf;
  ocs_insert_offer_card input := on_world (ocs_insert_offer_card input);
|}.
#[export] Instance process_source_store `{!OfferSourceStore (World Disk)} : OfferSourceStore Process := {|
  oss_insert_offer_source input := on_world (oss_insert_offer_source input);
  oss_remove_explicit_refusal offer_id recipient :=
    on_world (oss_remove_explicit_refusal offer_id recipient);
  oss_get_offer_source offer_id := on_world (oss_get_offer_source offer_id);
|}.

Definition plan_start : ReceivePlan := mkReceivePlan Kind_Text 0 0 [] None 0 None None [].
(** [block_on] runs the future to its end, so that no await drops it. *)
Definition rx_of (attempt : Attempt) (cancel : Cancellation) (d : Process) : Rx :=
  mkRx (mkPeer (at_conn attempt) (at_chunks attempt) (Some (cc_looks cancel)) (cc_races cancel) [])
    (pc_proc d) (pc_ledger d) (pc_probe d) (pc_clipboard d) guard_inactive None plan_start.
Definition process_of (s : Rx) (d : Process) : Process :=
  mkProcess (rx_proc s) (rx_ledger s) (rx_probe s) (rx_clipboard s) (pc_app d).
End process.

Section runtime.
Context {SigningKey : Type} {ed : Ed25519 SigningKey}.
Context {client_json : Json ClientHello} {server_json : Json ServerHello}.
Context {wire_json : Json WireMessage} {message_json : Json V2Message}.
Context {dirs : ReadDirOrder} {hash_set : HashSetOrder} {renamore : Renamore} {fs2 : Fs2}.
Context {iter : RedbIter} {uuid : UuidText} {debug : DebugText} {lower : Lowercase} {sha : Sha256}.
Context {source_json : Json OfferSourceRecord} {card_json : Json OfferCardRecord}.
Context {journal_json : Json ActivationJournalEntry} {cache_json : Json ClipboardCacheRecord}.
Context {entries_json : Json (list ManifestEntry)} {order : JoinOrder}.
Context {state_json : Json InstallationState} {atomic : AtomicWriteFile}.
Context (state_root : PathBuf) (attempts : ActivationId → Attempt) {A : Type}.
Notation Process := (Process A).

(** [run_activation] *)
Definition run_activation (input : ActivationInput) (cancel : Cancellation)
    : St Process (Stop rstr) ActivationOutcome := λ d,
  let attempt := attempts (fa_request_id (ai_activation input)) in
  match at_runtime attempt with
  | Err error => (Err (Fails (str "activation runtime unavailable: " ++ error)), d)
  | Ok _ =>
      let '(r, s) := map_stop net_error_to_string
        (activate_fetch (SigningKey := SigningKey) state_root (at_fresh_activation attempt)
           (at_fresh_offer attempt) (at_fresh_id attempt)
           (cc_connect cancel (at_connect attempt)) (ai_hello input) (ai_request input)
           (ai_activation input) (ai_expected_server_public_key input) (cc_signal cancel))
        (rx_of attempt cancel d) in
      (r, process_of s d)
  end.
End runtime.

(** ** Announcements *)

(** What the outside does in a fan-out. *)
Record Fanout := mkFanout {
  fo_generated : DeviceId;
  fo_runtime : result rstr ();
  fo_network : DeviceId → Connect * Conn;
  fo_join_error : rstr;
}.

Section fan_out.
Context {SigningKey : Type} {ed : Ed25519 SigningKey}.
Context {client_json : Json ClientHello} {server_json : Json ServerHello}.
Context {wire_json : Json WireMessage} {message_json : Json V2Message} {uuid : UuidText} {debug : DebugText}.
Context {order : JoinOrder} {state_json : Json InstallationState} {atomic : AtomicWriteFile}.
Context (store : InstallationStore) (identity : InstallationIdentity SigningKey).
Context (device_name : rstr) (fanouts : OfferId → Fanout).

(** [announce_offer_plan_with_progress] on the host of a resident. *)
Definition fan_out {S} (plan : OfferPlan)
    : St (Resident S) rstr (MeshSendReport * list AnnouncePeerUpdate) := λ s,
  let fanout := fanouts (op_offer_id plan) in
  let '(r, h) := announce_offer_plan_with_progress store (fo_generated fanout) identity device_name
    (fo_runtime fanout) (fo_network fanout) (fo_join_error fanout) plan (re_host s) in
  (r, mkResident h (re_store s) (re_subscribers s) (re_calls s)).
End fan_out.

(** ** What a completed activation means *)

Section shelf_cards.
Context {iter : RedbIter} {iter_laws : RedbIterLaws} {uuid : UuidText} {uuid_laws : UuidTextLaws}.
Context {source_json : Json OfferSourceRecord} {card_json : Json OfferCardRecord}.
Context {journal_json : Json ActivationJournalEntry} {cache_json : Json ClipboardCacheRecord}.
Context {A : Type}.
Implicit Types (d : Process A).

(** A card on the shelf is the card of its source and offer. *)
Lemma shelf_card d shelf card :
  store_inv (w_db (pc_world d)) → (ocs_read_offer_shelf d).1 = Ok shelf → card ∈ shelf →
  cards_of (w_db (pc_world d)) !! card_key (card_source_device card) (card_offer_id card) = Some card.
Proof.
  cbn. unfold on_world. intros Hinv Hrun Hin.
  destruct (read_offer_shelf (pc_world d)) as [r w] eqn:Hread. cbn in Hrun. subst r.
  apply read_newest_Ok in Hread as (_ & _ & Hperm); [|apply _].
  rewrite Hperm in Hin. apply list_elem_of_fmap in Hin as ([k c] & -> & Hin).
  apply elem_of_map_to_list in Hin. cbn in *.
  pose proof (inv_cards _ Hinv) as [_ Hkeyed _ _].
  destruct (Hkeyed _ _ Hin) as [Hk _]. unfold card_row_key in Hk. by rewrite Hk.
Qed.
(** Reading the shelf leaves the process as it is, except for the schedule of failures. *)
Lemma read_shelf_same d shelf d' :
  ocs_read_offer_shelf d = (Ok shelf, d') →
  ∃ w, d' = set_pc_world w d ∧ w_db w = w_db (pc_world d) ∧ w_fs w = w_fs (pc_world d).
Proof.
  cbn. unfold on_world. destruct (read_offer_shelf (pc_world d)) as [r w] eqn:Hread. intros [= -> <-].
  exists w. split; [done|]. unfold read_offer_shelf, read_newest, with_read in Hread.
  ok_in Hread as u w1 H1. apply redb_call_db in H1 as [Hd1 Hf1].
  ok_in Hread as u2 w2 H2. apply redb_call_db in H2 as [Hd2 Hf2].
  ok_in Hread as rows w3 H3. apply table_rows_Ok in H3 as (_ & Hd3 & Hf3).
  injection Hread as _ <-. split; congruence.
Qed.
Lemma found_card w source offer card :
  store_inv (w_db w) → (get_offer_card source offer w : result StoreError _ * World Disk).1 = Ok (Some card) →
  cards_of (w_db w) !! card_key source offer = Some card.
Proof.
  intros Hinv Hrun. destruct (get_offer_card source offer w) as [r w'] eqn:Hget. cbn in Hrun. subst r.
  apply redb_get_spec in Hget as (_ & _ & Hc); [|done]. symmetry. by apply Hc.
Qed.
End shelf_cards.

Section completed.
Context {SigningKey : Type} {ed : Ed25519 SigningKey}.
Context {client_json : Json ClientHello} {server_json : Json ServerHello}.
Context {wire_json : Json WireMessage} {message_json : Json V2Message}.
Context {message_types : V2Typed}.
Context {dirs : ReadDirOrder} {dirs_laws : ReadDirOrderLaws}.
Context {hash_set : HashSetOrder} {hash_laws : HashSetOrderLaws}.
Context {renamore : Renamore} {renamore_laws : RenamoreLaws} {fs2 : Fs2} {fs2_laws : Fs2Laws}.
Context {iter : RedbIter} {iter_laws : RedbIterLaws}.
Context {uuid : UuidText} {uuid_laws : UuidTextLaws} {uuid_plain : UuidTextPlain}.
Context {debug : DebugText} {lower : Lowercase} {sha : Sha256}.
Context {source_json : Json OfferSourceRecord} {card_json : Json OfferCardRecord}.
Context {journal_json : Json ActivationJournalEntry} {cache_json : Json ClipboardCacheRecord}.
Context {entries_json : Json (list ManifestEntry)} {order : JoinOrder}.
Context {state_json : Json InstallationState} {atomic : AtomicWriteFile}.
Context {atomic_laws : AtomicWriteLaws}.
Context (state_root : PathBuf) (Hroot : Forall valid_name (components state_root)).
Context (attempts : ActivationId → Attempt) (download_dir : option PathBuf) {A : Type}.
Notation Process := (Process A).
Implicit Types (d : Process) (plan : ActivationPlan).

(** A process that has recovered at its start, over a good database and disk. *)
Record process_ready d : Prop := {
  dr_recovered : ow_recovered (pr_owner (pc_proc d)) = true;
  dr_poisoned : ow_recovery_poisoned (pr_owner (pc_proc d)) = false ∧
                ow_live_poisoned (pr_owner (pc_proc d)) = false;
  dr_store : store_inv (w_db (pc_world d));
  dr_disk : disk_ready (staging_home state_root) (w_fs (pc_world d));
}.
(** A directory a save may go to: outside the staging areas. *)
Definition plain_directory (path : PathBuf) : Prop :=
  Forall valid_name (components path) ∧ ¬ staging_home state_root `prefix_of` components path.

(** The plan as the receiver gets it. *)
Definition planned plan (directory : option PathBuf) : FetchActivation :=
  mkFetchActivation (ap_activation_id plan) (ap_source_device plan) (ap_offer_id plan)
    (ap_mode plan) directory.

(** A run of the fetch that has saved what [card] offers to [directory], coming from [peer]. *)
Definition fetched_from (peer : TrustedPeer) plan (directory : PathBuf) (card : OfferCardRecord) d d'
    : Prop :=
  ∃ s', d' = process_of s' d ∧
    saved_from (SigningKey := SigningKey) state_root (planned plan (Some directory))
      (tp_public_key peer) card (rx_of (attempts (ap_activation_id plan)) never_cancelled d) s'.

Lemma run_activation_saves input plan directory d d' :
  process_ready d → ap_mode plan = Mode_Save → plain_directory directory →
  ai_activation input = planned plan (Some directory) →
  run_activation (SigningKey := SigningKey) state_root attempts input never_cancelled d
    = (Ok Outcome_Completed, d') →
  ∃ card s', d' = process_of s' d ∧
    saved_from (SigningKey := SigningKey) state_root (planned plan (Some directory))
      (ai_expected_server_public_key input) card
      (rx_of (attempts (ap_activation_id plan)) never_cancelled d) s' ∧
    cards_of (w_db (pc_world d)) !! card_key (ap_source_device plan) (ap_offer_id plan) = Some card.
Proof.
  intros [Hrec [Hp1 Hp2] Hstore Hdisk] Hmode Hplain Hinput Hrun.
  unfold run_activation in Hrun. rewrite Hinput in Hrun. cbn [planned fa_request_id] in Hrun.
  destruct (at_runtime _) as [u|e]; [|done].
  destruct (map_stop _ _ _) as [r s'] eqn:Hfetch. injection Hrun as -> <-.
  unfold map_stop in Hfetch. apply st_map_err_Ok in Hfetch.
  assert (fa_mode (planned plan (Some directory)) = Mode_Save) as Hsave by done.
  assert (destination_plain state_root (planned plan (Some directory))) as Hdest.
  { intros path [= <-]. exact Hplain. }
  eapply (activation_saves state_root _ _ _ _ Hroot Hsave Hdest) in Hfetch as [card Hsaved];
    [|done|exact Hdisk|done|by right].
  exists card, s'. split; [done|]. split; [exact Hsaved|].
  destruct Hsaved as (server & input' & header & rp & dir & early & rest & _ & _ & Hoff & _).
  by eapply found_card.
Qed.

(** The same from the input that the programs build. *)
Lemma planned_save identity device_name plan peer input d d' :
  process_ready d → ap_mode plan = Mode_Save →
  (∀ directory, plan_directory download_dir plan = Ok (Some directory) → plain_directory directory) →
  input_for (SigningKey := SigningKey) download_dir identity device_name plan peer = Ok input →
  run_activation (SigningKey := SigningKey) state_root attempts input never_cancelled d
    = (Ok Outcome_Completed, d') →
  ∃ directory card, plan_directory download_dir plan = Ok (Some directory) ∧
    fetched_from peer plan directory card d d' ∧
    cards_of (w_db (pc_world d)) !! card_key (ap_source_device plan) (ap_offer_id plan) = Some card.
Proof.
  intros Hready Hmode Hplain Hbuild Hrun. unfold input_for, text_error in Hbuild.
  apply bind_Ok in Hbuild as (address & _ & Hbuild).
  apply bind_Ok in Hbuild as (directory & Hdir%map_err_Ok & Hbuild).
  apply bind_Ok in Hbuild as (hello & _ & Hbuild). injection Hbuild as <-.
  assert (∃ path, directory = Some path) as [path ->].
  { unfold plan_directory in Hdir. rewrite Hmode in Hdir.
    apply bind_Ok in Hdir as (? & _ & (path & _ & [= <-])%bind_Ok). by exists path. }
  eapply run_activation_saves in Hrun as (card & fetched & Hd & Hsaved & Hcard);
    [|done|done|by apply Hplain|done].
  exists path, card. split_and!; [done| |done]. by exists fetched.
Qed.
Lemma peer_for_Ok installation plan peer :
  peer_for installation plan = Ok peer →
  by_device_id (is_peers installation) (ap_source_device plan) = Some peer.
Proof. unfold peer_for, text_error. by intros ?%map_err_Ok%ok_or_Ok. Qed.

(** What a runtime promises of a completed save: it fetched the card of the plan from a peer
    that [paired] knows. *)
Class SavingRuntime (runtime : LocalRuntime (Resident Process))
    (paired : Resident Process → DeviceId → TrustedPeer → Prop) : Prop :=
  saving_runtime : ∀ plan (s s' : Resident Process),
    process_ready (re_store s) → ap_mode plan = Mode_Save →
    (∀ directory, plan_directory download_dir plan = Ok (Some directory) → plain_directory directory) →
    lr_activate runtime plan s = (Ok Outcome_Completed, s') →
    ∃ directory peer card,
      plan_directory download_dir plan = Ok (Some directory) ∧
      paired s (ap_source_device plan) peer ∧
      fetched_from peer plan directory card (re_store s) (re_store s') ∧
      cards_of (w_db (pc_world (re_store s))) !! card_key (ap_source_device plan) (ap_offer_id plan)
        = Some card.

(** The directory that the settings name is outside the staging areas. *)
Definition settings_plain c draws (s : Resident Process) : Prop :=
  ∀ state path, stored_state (dr_generated draws) (co_identity c) (ho_file (re_host s)) = Some state →
    resolve_save_destination download_dir (Records.save_destination (is_settings state)) = Ok path →
    plain_directory path.
(** What the answer says is so: the card is on the shelf, and its fetch from a peer that
    [paired] knows has saved it where the settings say. *)
Definition saved_as_reported (paired : Resident Process → DeviceId → TrustedPeer → Prop) c draws
    (s : Resident Process) activation offer_id (files count : Z) (s' : Resident Process) : Prop :=
  ∃ card state directory peer s1,
    let plan := mkActivationPlan activation (card_source_device card) offer_id
                  (card_descriptor card) Mode_Save (Some (Records.save_destination (is_settings state))) in
    cards_of (w_db (pc_world (re_store s))) !! card_key (card_source_device card) offer_id = Some card ∧
    stored_state (dr_generated draws) (co_identity c) (ho_file (re_host s)) = Some state ∧
    resolve_save_destination download_dir (Records.save_destination (is_settings state)) = Ok directory ∧
    (files, count) = descriptor_counts (card_descriptor card) ∧
    paired s1 (card_source_device card) peer ∧
    w_fs (pc_world (re_store s1)) = w_fs (pc_world (re_store s)) ∧
    fetched_from peer plan directory card (re_store s1) (re_store s').

(** The answer of the dispatch, traced back through the plan to the runtime. *)
Lemma completed_save runtime paired {saves : SavingRuntime runtime paired}
    {views : Views} c draws request s activation offer_id files count s' :
  process_ready (re_store s) → settings_plain c draws s →
  dispatch_with_runtime c draws request runtime s =
    (Ok (ActivationCompleted activation offer_id Mode_Save files count), s') →
  saved_as_reported paired c draws s activation offer_id files count s'.
Proof.
  intros Hready Hplain Hrun. apply completed_answer in Hrun as (_ & -> & plan & s1 & Hplan & Hact & Hcounts).
  pose proof Hplan as Hread. apply plan_activation_spec in Hplan
    as (shelf & card & Hshelf & Hin & Hid & _ & Hp & (_ & state & Hstate & Hdest) & Hhost).
  assert (∃ w, re_store s1 = set_pc_world w (re_store s) ∧ w_db w = w_db (pc_world (re_store s)) ∧
    w_fs w = w_fs (pc_world (re_store s))) as (w & Hs1 & Hdb & Hfs).
  { unfold plan_activation in Hread. ok_in Hread as l s2 Hl. unfold read_shelf in Hl.
    destruct (co_cards c); [|done]. apply st_map_err_Ok, on_offers_run in Hl as (Hl & _ & _).
    apply read_shelf_same in Hl as (w & Hw & Hdb & Hfs). exists w. rewrite <- Hw. split; [|done].
    ok_in Hread as found s3 H3. apply st_lift_Ok in H3 as [_ ->].
    ok_in Hread as u1 s3 H3. apply st_lift_Ok in H3 as [_ ->].
    ok_in Hread as u2 s3 H3. apply st_lift_Ok in H3 as [_ ->].
    ok_in Hread as destination s3 H3. injection Hread as _ <-. cbn in H3.
    ok_in H3 as settings s4 H4. injection H3 as _ <-. unfold Coordinator.settings in H4.
    ok_in H4 as loaded s5 H5. injection H4 as _ <-. apply on_host_same in H5 as [-> _]. done. }
  assert (process_ready (re_store s1)) as Hready1.
  { rewrite Hs1. destruct Hready as [? ? ? ?]. split; cbn; [done|done|by rewrite Hdb|by rewrite Hfs]. }
  assert (plan_directory download_dir plan = path ← resolve_save_destination download_dir
    (Records.save_destination (is_settings state)); mret (Some path)) as Hdirectory.
  { unfold plan_directory. rewrite Hp, Hdest. done. }
  apply saving_runtime in Hact as (directory & peer & card' & Hdir & Hpeer & Hfetched & Hcard');
    [|done|by rewrite Hp|].
  2: { intros directory Hdir. rewrite Hdirectory in Hdir. apply bind_Ok in Hdir as (path & Hpath & [= ->]).
       by eapply Hplain. }
  rewrite Hdirectory in Hdir. apply bind_Ok in Hdir as (path & Hpath & [= ->]).
  rewrite Hs1 in Hcard'. cbn in Hcard'. rewrite Hdb in Hcard'.
  pose proof (shelf_card _ _ _ (dr_store _ Hready) Hshelf Hin) as Hcard.
  rewrite Hp in Hcard', Hpeer, Hcounts. cbn in Hcard', Hpeer, Hcounts. rewrite Hid in Hcard.
  assert (card' = card) as -> by congruence.
  exists card, state, directory, peer, s1. cbv zeta. rewrite <- Hdest, <- Hp.
  split_and!; try done. by rewrite Hs1.
Qed.

(** C3: When the control channel reports a save as completed, it was the save of a card on this
    shelf, and the directory that the settings name at that moment holds, under one portable
    name that was free, exactly the tree of the manifest of that card, with the bytes that came
    from a peer which proved to be the source; the counts reported are those of the card. *)
Theorem completed_save_is_saved runtime paired {saves : SavingRuntime runtime paired}
    {views : Views} c draws request s activation offer_id files count s' :
  process_ready (re_store s) → settings_plain c draws s →
  dispatch_with_runtime c draws request runtime s =
    (Ok (ActivationCompleted activation offer_id Mode_Save files count), s') →
  saved_as_reported paired c draws s activation offer_id files count s'.
Proof. apply (completed_save runtime paired). Qed.
End completed.
