(* ===== verification/Desktop.v ===== *)
(** * The desktop program

    Models [apps/desktop/src/main.rs] without the windows it draws: the trust gate of its
    listener, the runtime it attaches to the local control channel, and what its own buttons
    call.  [Board] models its callbacks and the threads they start, [Indicators] and [Shelf]
    what the window shows. *)

From S2P Require Import Prelude RustStr StdIo Utf8 Offer Records Clipboard Identity Names Protocol OfferStore Ledger Activation Filesystem Announce Connection Manifest Transfer Receiver ReceiverContent ReceiverSafety ReceiverTree ReceiverSave SavedTree Fetching Source Sender Discovery Registry Coordinator Controller Serving Programs.

(** ** The trust gate *)

Section gate.
Context {SigningKey : Type} {ed : Ed25519 SigningKey}.
Context {client_json : Json ClientHello}.
Context {state_json : Json InstallationState} {atomic : AtomicWriteFile}.

(** [FileBackedTrustGate::authorize], with the file as it is at the moment of the call. *)
Definition FileBackedTrustGate (store : InstallationStore) (generated identity : DeviceId)
    (h : Host) : TrustGate := λ remote hello,
  match (load_for_identity store generated identity h).1 with
  | Err _ => state_unavailable
  | Ok state =>
      match by_device_id (is_peers state) (ch_device_id hello) with
      | Some peer =>
          if registered (SigningKey := SigningKey) remote hello peer then Allow
          else if negb (zlen (ch_public_key hello) =? 32)
          then Deny (str "peer hello has no valid installation key")
          else key_mismatch
      | None => not_approved
      end
  end.
#[export] Instance file_backed_paired store generated identity :
  PairedGate (SigningKey := SigningKey) generated identity store
    (FileBackedTrustGate store generated identity).
Proof.
  intros h remote hello. unfold FileBackedTrustGate.
  destruct (load_for_identity store generated identity h).1 as [state|e]; [|split; [done|naive_solver]].
  destruct (by_device_id (is_peers state) (ch_device_id hello)) as [peer|] eqn:Hpeer;
    [|split; [done|naive_solver]].
  destruct (registered remote hello peer) eqn:Hreg.
  - split; [|done]. intros _. by exists state, peer.
  - split; [by destruct (negb _)|]. intros (? & ? & [= <-] & ? & ?). congruence.
Qed.
End gate.

(** ** Its clipboard *)

Definition clipboard_for_activation {W} (mode : ActivationMode) (clipboard : option W)
    : result rstr (option W) :=
  match mode with
  | Mode_Save => Ok None
  | Mode_Clipboard =>
      worker ← ok_or clipboard (str "Clipboard adapter is unavailable");
      mret (Some worker)
  end.

(** [ActivationClipboard]: the sink of the service, from what the worker answers. *)
Inductive ActivationClipboard := AC_Worker | AC_Unavailable.
Definition sink_unavailable : ClipboardError :=
  clipboard_error_new (str "clipboard adapter is unavailable for this activation").
Definition sink_set_text (sink : ActivationClipboard) (worker : result ClipboardError ())
    : result ClipboardError () :=
  match sink with AC_Worker => worker | AC_Unavailable => Err sink_unavailable end.
Definition sink_set_files (sink : ActivationClipboard) (worker : result PlatformClipboardError ())
    : result ClipboardError () :=
  match sink with
  | AC_Worker => map_err clipboard_of_platform worker
  | AC_Unavailable => Err sink_unavailable
  end.

(** ** Activations from the controller in memory *)

(** The controller is behind a mutex, [None] once that is poisoned. *)
Notation Desk := (Process (option Controller)).
Definition poison_app (d : Desk) : Desk :=
  mkProcess (pc_proc d) (pc_ledger d) (pc_probe d) (pc_clipboard d) None.

Section runtime.
Context {SigningKey : Type} {ed : Ed25519 SigningKey}.
Context {client_json : Json ClientHello} {server_json : Json ServerHello}.
Context {wire_json : Json WireMessage} {message_json : Json V2Message}.
Context {dirs : ReadDirOrder} {hash_set : HashSetOrder} {renamore : Renamore} {fs2 : Fs2}.
Context {iter : RedbIter} {uuid : UuidText} {debug : DebugText} {lower : Lowercase} {sha : Sha256}.
Context {source_json : Json OfferSourceRecord} {card_json : Json OfferCardRecord}.
Context {journal_json : Json ActivationJournalEntry} {cache_json : Json ClipboardCacheRecord}.
Context {entries_json : Json (list ManifestEntry)} {order : JoinOrder}.
Context {state_json : Json InstallationState} {atomic : AtomicWriteFile}.
Context (state_root : PathBuf) (attempts : ActivationId → Attempt).
Context (download_dir : option PathBuf) (cfg : ControllerConfig SigningKey).
Context {W : Type} (clipboard : option W).

(** [build_activation_input]; [cfg] and the controller are the two halves of [Controller]. *)
Definition build_activation_input (plan : ActivationPlan) (c : Controller)
    : result (Stop rstr) ActivationInput :=
  peer ← peer_for (ct_installation c) plan;
  input_for download_dir (cf_identity cfg) (ct_device_name c) plan peer.

(** The first half of [activate], under the lock of the controller; a panic poisons it. *)
Definition locked_input (plan : ActivationPlan) : St Desk (Stop rstr) ActivationInput := λ d,
  match pc_app d with
  | None => (Err (Fails (str "app state is unavailable")), d)
  | Some c =>
      match build_activation_input plan c with
      | Err Panics => (Err Panics, poison_app d)
      | outcome => (outcome, d)
      end
  end.
Definition desktop_activate (plan : ActivationPlan) : St Desk (Stop rstr) ActivationOutcome :=
  input ← locked_input plan;
  lift_stop (clipboard_for_activation (ap_mode plan) clipboard);;
  run_activation (SigningKey := SigningKey) state_root attempts input never_cancelled.

Context (fanouts : OfferId → Fanout) (device_name : rstr).

Definition announce_with_progress {S} (plan : OfferPlan)
    : St (Resident S) rstr (MeshSendReport * list AnnouncePeerUpdate) :=
  fan_out (cf_store cfg) (cf_identity cfg) device_name fanouts plan.
Definition desktop_announce {S} (plan : OfferPlan) : St (Resident S) rstr rstr :=
  report ← announce_with_progress plan;
  st_lift (report_announce_outcome report.1).

Definition DesktopLocalRuntime : LocalRuntime (Resident Desk) :=
  mkLocalRuntime desktop_announce (λ plan, on_offers (desktop_activate plan)).

(** [create_and_announce_with_progress] and [announce_succeeded]. *)
Definition create_and_announce_with_progress {S} {views : Views} {offers : OfferSourceStore S}
    (coordinator : Coordinator) (draws : Draws) (input : OfferInput)
    : St (Resident S) rstr (MeshSendReport * list AnnouncePeerUpdate) :=
  created ← create_offer_with_id coordinator (dr_generated draws) (dr_since_epoch draws)
              (dr_offer_id draws) input;
  plan ← st_lift (ok_or created (str "no other meshelf device is paired"));
  announce_with_progress plan.
End runtime.

Definition announce_succeeded (report : MeshSendReport) : result rstr (option rstr) :=
  if bool_decide (stored_on report = []) then Err (report_status report)
  else if bool_decide (version_mismatch report = []) then Ok None
  else Ok (Some (join_str (str "; ") (version_mismatch report))).

(** ** A completed save *)

Section saving.
Context {SigningKey : Type} {ed : Ed25519 SigningKey}.
Context {client_json : Json ClientHello} {server_json : Json ServerHello}.
Context {wire_json : Json WireMessage} {message_json : Json V2Message}.
Context {message_types : V2Typed}.
Context {dirs : ReadDirOrder} {dirs_laws : ReadDirOrderLaws}.
Context {hash_set : HashSetOrder} {hash_laws : HashSetOrderLaws}.
Context {renamore : Renamore} {renamore_laws : RenamoreLaws} {fs2 : Fs2} {fs2_laws : Fs2Laws}.
Context {iter : RedbIter} {iter_laws : RedbIterLaws}.
Context {uuid : UuidText} {uuid_laws : UuidTextLaws} {uuid_plain : UuidTextPlain}.
Context {debug : DebugText} {lower : Lowercase} {sha : Sha256}.
Context {source_json : Json OfferSourceRecord} {card_json : Json OfferCardRecord}.
Context {journal_json : Json ActivationJournalEntry} {cache_json : Json ClipboardCacheRecord}.
Context {entries_json : Json (list ManifestEntry)} {order : JoinOrder}.
Context {state_json : Json InstallationState} {atomic : AtomicWriteFile}.
Context (state_root : PathBuf) (Hroot : Forall valid_name (components state_root)).
Context (attempts : ActivationId → Attempt) (download_dir : option PathBuf).

(** The desktop knows the peers of the controller in memory. *)
Definition in_memory (s : Resident Desk) (device : DeviceId) (peer : TrustedPeer) : Prop :=
  ∃ controller, pc_app (re_store s) = Some controller ∧
    by_device_id (is_peers (ct_installation controller)) device = Some peer.

#[export] Instance desktop_saves cfg {W} (clipboard : option W) fanouts device_name :
  SavingRuntime (SigningKey := SigningKey) state_root attempts download_dir
    (DesktopLocalRuntime (SigningKey := SigningKey) state_root attempts download_dir cfg
    clipboard fanouts device_name) in_memory.
Proof.
  intros plan s s' Hready Hmode Hplain Hrun. cbn [lr_activate DesktopLocalRuntime] in Hrun.
  apply on_offers_run in Hrun as (Hrun & _ & _). unfold desktop_activate in Hrun.
  ok_in Hrun as input d1 Hinput. unfold locked_input in Hinput.
  destruct (pc_app (re_store s)) as [controller|] eqn:Happ; [|done].
  assert (build_activation_input download_dir cfg plan controller = Ok input ∧ d1 = re_store s)
    as [Hbuild ->] by (destruct (build_activation_input _ _ _ _) as [x|[e| |]]; by simplify_eq).
  clear Hinput. apply bind_Ok in Hbuild as (peer & Hpeer & Hbuild).
  ok_in Hrun as u d2 Hclip. unfold lift_stop in Hclip. apply st_lift_Ok in Hclip as [_ ->].
  eapply (planned_save state_root Hroot) in Hrun as (directory & card & Hdir & Hfetched & Hcard);
    [|done..|exact Hbuild].
  exists directory, peer, card. split_and!; try done.
  exists controller. split; [done|]. by apply peer_for_Ok.
Qed.
End saving.
