(* ===== verification/DesktopSamples.v ===== *)
(** * The programs on concrete inputs

    The control channel of a desktop asks for an offer of a paired device: its file is fetched
    over a connection and saved in the directory of the settings. *)

From S2P Require Import Prelude RustStr StdIo Offer Records Identity Names Protocol OfferStore Ledger Activation Filesystem Announce Connection Manifest Transfer Receiver ReceiverContent ReceiverSafety ReceiverTree ReceiverSave SavedTree Fetching Source Sender Discovery Registry Transactions Coordinator Controller Serving Programs Desktop ReceiverSamples.
From Stdlib Require Import Strings.Byte.

Module DesktopSample.
Import StoreSample ManifestSample ReceiverSample.
#[local] Existing Instances ConnectionSample.sample_ed25519 ConnectionSample.client_json
  ConnectionSample.server_json.
#[local] Existing Instances RegistrySample.sample_atomic RegistrySample.sample_atomic_laws.
#[local] Instance plain_uuid_laws : UuidTextLaws.
Proof. intros n m Hnm. unfold uuid_to_string, plain_uuid in Hnm. injection Hnm. lia. Qed.
Definition in_order_join : JoinOrder := λ A l, l.
Definition unseen : Views := λ _, {|
  sv_metadata _ := Err no_such_file;
  sv_canonicalize path := Ok path;
  sv_read_dir _ := Err no_such_file;
  sv_open _ := Err no_such_file;
  sv_file_metadata _ := Err no_such_file;
  sv_file_read _ _ _ := Err no_such_file;
|}.
#[local] Existing Instances in_order_join unseen card_json cache_json source_json
  card_laws cache_laws' source_laws.

(** ** Two devices *)

(** This device, and the paired one that has the file. *)
Definition lap : InstallationIdentity bool := mkInstallationIdentity (mkDeviceId 4) false.
Definition origin : ServerIdentity bool :=
  mkServerIdentity (mkInstallationIdentity device true) (str "desk").
Definition origin_key : bytes := public_key (signing_identity origin).
Definition origin_hello : ServerHello :=
  match own_hello origin true None with
  | Ok server => server
  | Err _ => mkServerHello 0 device [] false None [] [] []
  end.
Definition lap_hello : ClientHello :=
  default (client_hello_v2 (mkDeviceId 4) (str "lap") [])
    (client_signed_v2 (mkDeviceId 4) (str "lap")
       (uuid_to_string (ActivationId_as_uuid request)) lap).
Definition greetings : Json WireMessage :=
  table_json [Wire_ClientHello lap_hello; Wire_ServerHello origin_hello].
Definition fetch : FetchRequest := mkFetchRequest request offer device (mkDeviceId 4).
Definition fetch_messages : Json V2Message := table_json (messages ++ [Msg_FetchRequest fetch]).
#[local] Existing Instances greetings fetch_messages.
#[local] Instance fetch_typed : V2Typed.
Proof.
  apply table_typed. repeat constructor; unfold entry_typed, is_u32, is_u64, U32_MAX, U64_MAX; simpl; lia.
Qed.

(** The settings name a directory. *)
Definition inbox : PathBuf := str "/home/me/in".
Definition installed : InstallationState :=
  mkInstallationState (mkDeviceId 4)
    (mkPeerRegistry [mkTrustedPeer (str "node-desk") device (str "desk") [V4 1] origin_key])
    (mkUserSettings 1 (Custom inbox)).
Definition installed_json : Json InstallationState := table_json [installed].
#[local] Existing Instance installed_json.

Definition lap_host : Host := mkHost (Some (default [] (result_ok (json_to_vec installed)))) [].
Definition lap_app : Controller := mkController lap_host installed (str "lap") None ∅ None.
Definition lap_config : ControllerConfig bool := mkControllerConfig RegistrySample.store lap.
Definition lap_desk : Desk :=
  mkProcess (mkProc (mkOwner true 1 false ∅ false false false) (card_world file_offer)) ledger_default
    (rx_probe save_start) (mkClipboard [] []) (Some lap_app).
Definition served : Conn :=
  mkConn (default [] (result_ok (encode_frame (Wire_ServerHello origin_hello)))
          ++ cn_in (pe_conn (rx_peer save_start))) [] [].
Definition attempt (_ : ActivationId) : Attempt :=
  mkAttempt (Ok ()) Connected served [2%nat] (mkActivationId 100) (mkOfferId 100) (str "fresh").
Definition lap_draws : Draws := mkDraws (mkDeviceId 9) (Some 1000) (mkOfferId 50) request.
Definition lap_coordinator : Coordinator :=
  with_card_store (coordinator_new (mkDeviceId 4) RegistrySample.store).
Definition no_fanout (_ : OfferId) : Fanout :=
  mkFanout (mkDeviceId 9) (Ok ()) (λ _, (ConnectTimedOut, mkConn [] [] [])) (str "panic").
Definition lap_runtime : LocalRuntime (Resident Desk) :=
  DesktopLocalRuntime state_root attempt None lap_config (Some tt) no_fanout (str "lap").
Definition lap_resident : Resident Desk := mkResident lap_host lap_desk [] 0.

Lemma lap_ready : process_ready state_root lap_desk.
Proof.
  split; [reflexivity|split; reflexivity| |exact start_ready].
  exact (insert_offer_card_keeps (mkOfferCardInput device offer file_offer Available)
    (mkWorld db_empty [] start_disk) store_inv_empty).
Qed.
Definition lap_saved : result (Stop Empty_set) LocalResponse * Resident Desk :=
  dispatch_with_runtime lap_coordinator lap_draws (ActivateOffer offer Mode_Save) lap_runtime
    lap_resident.
#[local] Instance lap_saves :
  SavingRuntime (SigningKey := bool) state_root attempt None lap_runtime in_memory.
Proof. apply desktop_saves, state_root_valid. Qed.
Lemma lap_downloads state path :
  stored_state (dr_generated lap_draws) (co_identity lap_coordinator) (ho_file (re_host lap_resident))
    = Some state →
  resolve_save_destination None (Records.save_destination (is_settings state)) = Ok path →
  plain_directory state_root path.
Proof.
  intros Hstate. vm_compute in Hstate. injection Hstate as <-. intros Hpath.
  vm_compute in Hpath. injection Hpath as <-. split; apply (bool_decide_unpack _); vm_compute; exact I.
Qed.

(** The file is in the directory of the settings, and its tree is that of the card. *)
Lemma completed_save_is_saved_witness :
  lap_saved.1 = Ok (ActivationCompleted request offer Mode_Save 1 5) ∧
  (∃ card directory peer s1 plan,
    cards_of (w_db (pc_world lap_desk)) !! card_key (card_source_device card) offer = Some card ∧
    fetched_from (SigningKey := bool) state_root attempt peer plan directory card (re_store s1)
      (re_store lap_saved.2)) ∧
  let d := w_fs (pc_world (re_store lap_saved.2)) in
  dk_nodes d !! [str "home"; str "me"; str "in"; str "report.txt"] = Some (File 1) ∧
  dk_inodes d !! 1%nat = Some ReceiverSample.hello.
Proof.
  assert (lap_saved.1 = Ok (ActivationCompleted request offer Mode_Save 1 5)) as Hok
    by (vm_compute; reflexivity).
  split; [exact Hok|]. split; [|cbv zeta; split; vm_compute; reflexivity].
  destruct (completed_save_is_saved (SigningKey := bool) state_root attempt None lap_runtime in_memory
    lap_coordinator lap_draws (ActivateOffer offer Mode_Save) lap_resident request offer 1 5 lap_saved.2)
    as (card & state & directory & peer & s1 & Hcard & _ & _ & _ & _ & _ & Hfetched).
  - exact lap_ready.
  - exact lap_downloads.
  - rewrite <- Hok. unfold lap_saved. apply surjective_pairing.
  - exists card, directory, peer, s1. eexists. split; [exact Hcard|exact Hfetched].
Defined.
End DesktopSample.
