(* ===== verification/Indicators.v ===== *)
(** * The peer indicators of the desktop window

    Models the indicators of [apps/desktop/src/main.rs]: the table of what is known of each
    peer, its changes by a refresh and by the progress of an announcement, and the layout that
    [render_peer_indicators] computes from it.  The table is behind a mutex, [None] once that
    is poisoned. *)

From S2P Require Import Prelude RustStr StdIo Offer Records OfferStore Discovery Registry Coordinator Controller.

Inductive PeerIndicatorState := Ind_Reachable | Ind_Pending | Ind_Stored | Ind_Unavailable.
#[export] Instance PeerIndicatorState_eq_dec : EqDecision PeerIndicatorState.
Proof. solve_decision. Defined.
Record PeerIndicatorEntry := mkPeerIndicatorEntry { pie_name : rstr; pie_state : PeerIndicatorState }.
Notation PeerIndicatorStates := (option (gmap DeviceId PeerIndicatorEntry)).

(** ** The table *)

Definition indicator_of (peer : PeerStatus) : PeerIndicatorEntry :=
  mkPeerIndicatorEntry (ps_name peer) (if ps_reachable peer then Ind_Reachable else Ind_Unavailable).
Definition insert_absent (states : gmap DeviceId PeerIndicatorEntry) (peer : PeerStatus)
    : gmap DeviceId PeerIndicatorEntry :=
  match states !! ps_device_id peer with
  | Some _ => states
  | None => <[ps_device_id peer := indicator_of peer]> states
  end.
(** The tables after [apply_peer_view], [apply_refresh_error] and [apply_announce_update]. *)
Definition apply_peer_view (peer_view : PeerView) (states : PeerIndicatorStates) : PeerIndicatorStates :=
  (λ states, foldl insert_absent (filter (λ '(_, entry), pie_state entry = Ind_Pending) states)
               (pv_peer_statuses peer_view)) <$> states.
Definition apply_refresh_error (states : PeerIndicatorStates) : PeerIndicatorStates :=
  (λ _, ∅) <$> states.
Definition announced_state (states : PeerIndicatorStates) (update : AnnouncePeerUpdate)
    : PeerIndicatorState :=
  match au_state update with
  | Announce_Pending =>
      match states ≫= (λ states, states !! au_device_id update) with
      | Some (mkPeerIndicatorEntry _ Ind_Unavailable) => Ind_Unavailable
      | _ => Ind_Pending
      end
  | Announce_Stored => Ind_Stored
  | Announce_Unavailable | Announce_VersionMismatch => Ind_Unavailable
  end.
Definition apply_announce_update (update : AnnouncePeerUpdate) (states : PeerIndicatorStates)
    : PeerIndicatorStates :=
  (λ table, <[au_device_id update :=
     mkPeerIndicatorEntry (au_hostname update) (announced_state states update)]> table) <$> states.

(** ** The layout *)

Definition peer_indicator_priority (state : PeerIndicatorState) : Z :=
  match state with Ind_Reachable | Ind_Pending | Ind_Stored => 0 | Ind_Unavailable => 1 end.

(** Widths are whole numbers of half pixels, on which the arithmetic of [f32] is exact below
    2^23 pixels.  The width of the window enters comparisons with them only: [wi_positive] is
    false when [width <= 0.0], and [wi_halves] the half pixels that fit in it (-1 for one that
    is not a number). *)
Record Width := mkWidth { wi_positive : bool; wi_halves : Z }.

Definition peer_indicator_display_width (name : rstr) : Z := 36 + 13 * zlen name.
(** The marker of [hidden] names that are left out. *)
Definition overflow_width (hidden : Z) : Z := 36 + 13 * zlen (show_int hidden).

Fixpoint total_width (entries : list PeerIndicatorEntry) : Z :=
  match entries with
  | [] => 0
  | entry :: entries => peer_indicator_display_width (pie_name entry) + total_width entries
  end.
Definition separators (count : Z) : Z := 14 * Z.max 0 (count - 1).

(** The loop over the candidates from [candidate] on: the names before it take [used], and
    [count] is the last candidate that fitted. *)
Fixpoint fitting (available total candidate used count : Z) (entries : list PeerIndicatorEntry) : Z :=
  match entries with
  | [] => count
  | entry :: rest =>
      let overflow_separator := if candidate =? 0 then 0 else 14 in
      let count := if used + overflow_separator + overflow_width (total - candidate) <=? available
                   then candidate else count in
      fitting available total (candidate + 1)
        (used + peer_indicator_display_width (pie_name entry) + (if 0 <? candidate then 14 else 0))
        count rest
  end.
Definition visible_count (available : Width) (entries : list PeerIndicatorEntry) : Z :=
  if bool_decide (entries = []) || negb (wi_positive available)
     || (total_width entries + separators (zlen entries) <=? wi_halves available)
  then zlen entries
  else fitting (wi_halves available) (zlen entries) 0 0 0 entries.

Record PeerIndicator := mkPeerIndicator { pi_name : rstr; pi_state : rstr; pi_display_width : Z }.
Definition state_text (state : PeerIndicatorState) : rstr :=
  match state with
  | Ind_Pending => str "pending"
  | Ind_Reachable | Ind_Stored => str "online"
  | Ind_Unavailable => str "offline"
  end.
Definition indicator (entry : PeerIndicatorEntry) : PeerIndicator :=
  mkPeerIndicator (pie_name entry) (state_text (pie_state entry))
    (peer_indicator_display_width (pie_name entry)).

(** What the window shows. *)
Record Rendered := mkRendered {
  rd_indicators : list PeerIndicator;
  rd_overflow : rstr;
  rd_overflow_width : Z;
  rd_overflow_names : rstr;
}.

(** [states.values()] and [sort_unstable_by]: the order of the hash table, and of entries that
    compare as equal, is not specified. *)
Definition indicator_le (a b : PeerIndicatorEntry) : Prop :=
  peer_indicator_priority (pie_state a) < peer_indicator_priority (pie_state b) ∨
  peer_indicator_priority (pie_state a) = peer_indicator_priority (pie_state b) ∧
  rstr_leb (ascii_lowercase (pie_name a)) (ascii_lowercase (pie_name b)) = true.
Class IndicatorOrder :=
  indicator_order : gmap DeviceId PeerIndicatorEntry → list PeerIndicatorEntry.
Class IndicatorOrderLaws `{IndicatorOrder} := {
  indicator_order_all states : indicator_order states ≡ₚ (map_to_list states).*2;
  indicator_order_sorted states : StronglySorted indicator_le (indicator_order states);
}.

(** [None]: the lock is poisoned, and what the window shows stays. *)
Definition render_peer_indicators `{!IndicatorOrder} (available : Width) (states : PeerIndicatorStates)
    : option Rendered :=
  states ← states;
  let entries := indicator_order states in
  let visible := visible_count available entries in
  let hidden := drop (Z.to_nat visible) entries in
  mret (mkRendered (map indicator (take (Z.to_nat visible) entries))
    (if bool_decide (hidden = []) then [] else str "+" ++ show_int (zlen hidden))
    (if bool_decide (hidden = []) then 0 else overflow_width (zlen hidden))
    (join_str [10] (map pie_name hidden))).

(** ** What the window shows *)

(** The width of the first [count] names with their separators, and with the marker of the
    others behind them. *)
Definition names_width (entries : list PeerIndicatorEntry) (count : Z) : Z :=
  total_width (take (Z.to_nat count) entries) + separators count.
Definition marked_width (entries : list PeerIndicatorEntry) (count : Z) : Z :=
  names_width entries count + (if count =? 0 then 0 else 14) + overflow_width (zlen entries - count).

Lemma total_width_app l k : total_width (l ++ k) = total_width l + total_width k.
Proof. induction l; simpl; lia. Qed.
Lemma names_width_0 entries : names_width entries 0 = 0.
Proof. done. Qed.
Lemma names_width_succ before entry rest :
  names_width (before ++ entry :: rest) (zlen before + 1) =
    names_width (before ++ entry :: rest) (zlen before)
    + peer_indicator_display_width (pie_name entry) + (if 0 <? zlen before then 14 else 0).
Proof.
  unfold names_width, separators, zlen.
  rewrite (cons_middle entry), app_assoc.
  replace (Z.to_nat (Z.of_nat (length before) + 1)) with (length (before ++ [entry]))
    by (rewrite length_app; simpl; lia).
  rewrite take_app_length. rewrite <- app_assoc, Nat2Z.id, take_app_length, total_width_app.
  simpl. destruct (Z.ltb_spec 0 (Z.of_nat (length before))); lia.
Qed.

(** The loop ends with the last candidate that fits. *)
Lemma fitting_spec available before rest count :
  let entries := before ++ rest in
  let result := fitting available (zlen entries) (zlen before) (names_width entries (zlen before))
                  count rest in
  (result = count ∧ ∀ k, zlen before ≤ k < zlen entries → available < marked_width entries k) ∨
  (zlen before ≤ result < zlen entries ∧ marked_width entries result ≤ available ∧
   ∀ k, result < k < zlen entries → available < marked_width entries k).
Proof.
  cbv zeta. revert before count. induction rest as [|entry rest IH]; intros before count.
  { left. split; [done|]. rewrite app_nil_r. lia. }
  cbn [fitting]. specialize (IH (before ++ [entry])).
  rewrite <- app_assoc in IH. change ([entry] ++ rest) with (entry :: rest) in IH.
  replace (zlen (before ++ [entry])) with (zlen before + 1) in IH by (by rewrite zlen_app).
  rewrite names_width_succ in IH.
  set (fits := _ <=? available).
  assert (fits = (marked_width (before ++ entry :: rest) (zlen before) <=? available)) as Hfits by done.
  specialize (IH (if fits then zlen before else count)).
  pose proof (zlen_nonneg rest). rewrite !zlen_app, !zlen_cons in *.
  destruct IH as [[Heq Hno]|(Hr & Hfit & Hno)].
  - rewrite Heq. destruct fits; symmetry in Hfits; [apply Z.leb_le in Hfits|apply Z.leb_gt in Hfits].
    + right. split_and!; [lia|lia|done|]. intros k Hk. apply Hno. lia.
    + left. split; [done|]. intros k Hk. destruct (decide (k = zlen before)) as [->|]; [done|].
      apply Hno. lia.
  - right. split_and!; [lia|lia|done|done].
Qed.

(** What is shown fits: everything when there is room for everything or the window does not
    know its width yet; otherwise the largest number of names, short of all, that fits with
    its marker, or none if not even the first marker fits. *)
Lemma visible_count_spec available entries :
  let count := visible_count available entries in
  0 ≤ count ≤ zlen entries ∧
  (count = zlen entries ∧
     (entries = [] ∨ wi_positive available = false ∨
      names_width entries (zlen entries) ≤ wi_halves available) ∨
   count < zlen entries ∧ wi_positive available = true ∧
     wi_halves available < names_width entries (zlen entries) ∧
     (marked_width entries count ≤ wi_halves available ∨ count = 0) ∧
     ∀ k, count < k < zlen entries → wi_halves available < marked_width entries k).
Proof.
  cbv zeta. unfold visible_count. pose proof (zlen_nonneg entries) as Hlen.
  assert (names_width entries (zlen entries) = total_width entries + separators (zlen entries)) as Hall.
  { unfold names_width, zlen. by rewrite Nat2Z.id, take_ge. }
  destruct (_ || _ || _) eqn:Heasy.
  { split; [lia|]. left. split; [done|]. rewrite Hall.
    apply orb_true_iff in Heasy as [[Hn%bool_decide_eq_true|Hn%negb_true_iff]%orb_true_iff|Hn%Z.leb_le];
      [by left|by right; left|by right; right]. }
  apply orb_false_iff in Heasy as [[Hne%bool_decide_eq_false Hpos%negb_false_iff]%orb_false_iff Hwide%Z.leb_gt].
  pose proof (fitting_spec (wi_halves available) [] entries 0) as Hf. cbn in Hf.
  change (zlen ([] : list PeerIndicatorEntry)) with 0 in Hf. rewrite names_width_0 in Hf.
  assert (0 < zlen entries) by (destruct entries; [done|rewrite zlen_cons; pose proof (zlen_nonneg entries); lia]).
  destruct Hf as [[-> Hno]|(Hr & Hfit & Hno)].
  - split; [lia|right]. split_and!; [lia|done|lia|by right|]. intros k Hk. apply Hno. lia.
  - split; [lia|right]. split_and!; [lia|done|lia|by left|done].
Qed.

(** The window shows every peer of the table once, by state and name, in as many indicators
    as fit beside the marker that counts the others; peers that are not available are the
    first to go into the marker. *)
Theorem render_spec `{!IndicatorOrder} `{!IndicatorOrderLaws} available states rendered :
  render_peer_indicators available (Some states) = Some rendered →
  ∃ shown hidden,
    shown ++ hidden ≡ₚ (map_to_list states).*2 ∧
    rd_indicators rendered = map indicator shown ∧
    rd_overflow_names rendered = join_str [10] (map pie_name hidden) ∧
    (rd_overflow rendered = [] ↔ hidden = []) ∧
    (∀ a b, a ∈ shown → b ∈ hidden → indicator_le a b) ∧
    (wi_positive available = true →
       total_width shown + separators (zlen shown)
         + (if bool_decide (shown = []) || bool_decide (hidden = []) then 0 else 14)
         + rd_overflow_width rendered ≤ wi_halves available ∨ shown = []).
Proof.
  unfold render_peer_indicators. cbn. intros [= <-].
  set (entries := indicator_order states).
  pose proof (visible_count_spec available entries) as [Hbounds Hcases].
  set (count := visible_count available entries) in *.
  exists (take (Z.to_nat count) entries), (drop (Z.to_nat count) entries). cbn.
  rewrite take_drop. split_and!; [apply indicator_order_all|done|done|by case_bool_decide| |].
  - intros a b Ha Hb. pose proof (indicator_order_sorted states) as Hsorted. fold entries in Hsorted.
    rewrite <- (take_drop (Z.to_nat count) entries) in Hsorted.
    by eapply StronglySorted_app_1_elem_of.
  - intros Hpos. assert (zlen (take (Z.to_nat count) entries) = count) as Hshown
      by (unfold zlen in *; rewrite length_take; lia).
    assert (zlen (drop (Z.to_nat count) entries) = zlen entries - count) as Hhidden
      by (unfold zlen in *; rewrite length_drop; lia).
    assert (drop (Z.to_nat count) entries = [] ↔ count = zlen entries) as Hnone.
    { rewrite <- length_zero_iff_nil. unfold zlen in *. lia. }
    assert (take (Z.to_nat count) entries = [] ↔ count = 0) as Hempty.
    { rewrite <- length_zero_iff_nil. unfold zlen in *. lia. }
    destruct Hcases as [[Hc [Hnil|[Hno|Hfit]]]|(Hlt & _ & _ & [Hfit|Hzero] & _)].
    + right. by rewrite Hnil, take_nil.
    + congruence.
    + left. rewrite (bool_decide_true (drop _ _ = [])) by by apply Hnone.
      rewrite orb_true_r, Hshown. unfold names_width in Hfit. rewrite <- Hc in Hfit. lia.
    + rewrite (bool_decide_false (drop _ _ = [])) by (rewrite Hnone; lia).
      rewrite orb_false_r, Hshown, Hhidden. unfold marked_width, names_width in Hfit.
      destruct (decide (count = 0)) as [Hz|Hz]; [right; by apply Hempty|left].
      rewrite bool_decide_false by by rewrite Hempty.
      rewrite (proj2 (Z.eqb_neq count 0)) in Hfit by done. lia.
    + right. by apply Hempty.
Qed.
