(* ===== verification/Board.v ===== *)
(** * The activations of the desktop

    Models the callbacks of [apps/desktop/src/main.rs] that refresh the mesh, start an
    activation and cancel one, with the gates and the table they share with the threads they
    spawn, and beside them the thread of the local control channel, whose activations
    ([DesktopLocalRuntime::activate]) use neither the gate nor the table.  The event loop runs
    one callback at a time; between two accesses of a callback to shared state any thread may
    run.  A run is a list of [Event]s. *)

From S2P Require Import Prelude RustStr StdIo Offer Records OfferStore Activation Announce Connection Discovery Registry Coordinator Controller Desktop Indicators.

(** ** The table of running activations *)

(** [aa_cancel]: whether [true] was sent on the [watch] channel. *)
Record ActiveActivation := mkActiveActivation { aa_cancel : bool; aa_progress : rstr }.
Notation ActiveActivations := (option (gmap OfferId ActiveActivation)).

(** [None]: the lock is poisoned. *)
Definition register_active_activation (active : ActiveActivations) (offer_id : OfferId)
    (activation : ActiveActivation) : bool * ActiveActivations :=
  match active with
  | None => (false, active)
  | Some table =>
      match table !! offer_id with
      | Some _ => (false, active)
      | None => (true, Some (<[offer_id := activation]> table))
      end
  end.
Definition remove_active_activation (active : ActiveActivations) (offer_id : OfferId)
    : ActiveActivations := delete offer_id <$> active.
(** The look of the callback: a poisoned lock counts as active. *)
Definition already_active (active : ActiveActivations) (offer_id : OfferId) : bool :=
  match active with
  | Some table => bool_decide (is_Some (table !! offer_id))
  | None => true
  end.

(** ** State *)

(** Why the mesh is refreshed, and what the completion goes on with. *)
Inductive DiscoveryRefreshTrigger := Trigger_Launch | Trigger_Explicit | Trigger_BeforeUserOperation.
Inductive Purpose := Refresh_Only | Refresh_Then (offer_id : OfferId) (mode : ActivationMode).

(** A thread of [refresh_in_background]: at work, or with its permit dropped. *)
Inductive Refresher := Refreshing (purpose : Purpose) | Refreshed (purpose : Purpose) (r : result rstr PeerView).
(** A thread that runs an activation: at work; with its entry removed; with its permit
    dropped. *)
Inductive Worker :=
| Pulling (offer_id : OfferId)
| Leaving (r : result rstr ActivationOutcome)
| Released (r : result rstr ActivationOutcome).

(** What was posted to the event loop. *)
Inductive Post :=
| Post_Refreshed (purpose : Purpose) (r : result rstr PeerView)
| Post_Status (text : rstr).

(** Where the callback is that the event loop runs: nowhere; before the look at the table;
    before the load of the counter; in the loop of [ActivationGate::try_enter]; with the
    permit, before the input is built and before it is registered. *)
Inductive Callback :=
| Idle
| Planned (offer_id : OfferId) (mode : ActivationMode)
| Looked (offer_id : OfferId) (mode : ActivationMode)
| Entering (offer_id : OfferId) (mode : ActivationMode) (current : Z)
| Entered (offer_id : OfferId) (mode : ActivationMode)
| Built (offer_id : OfferId) (mode : ActivationMode).
#[export] Instance Callback_eq_dec : EqDecision Callback.
Proof. solve_decision. Defined.

(** The thread of the local control channel, which handles one request at a time: waiting, or
    with another request; in [run_activation]; dead. *)
Inductive Channel := Channel_Open | Channel_Pulling (offer_id : OfferId) | Channel_Gone.
#[export] Instance Channel_eq_dec : EqDecision Channel.
Proof. solve_decision. Defined.

Record Board := mkBoard {
  bd_busy : bool;
  bd_refreshers : list Refresher;
  bd_permits : Z;
  bd_active : ActiveActivations;
  bd_workers : list Worker;
  bd_callback : Callback;
  bd_posts : list Post;
  bd_peers : PeerIndicatorStates;
  bd_status : rstr;
  bd_channel : Channel;
}.
Definition board_start : Board :=
  mkBoard false [] 0 (Some ∅) [] Idle [] (Some ∅) (str "Finding meshelf devices on Tailscale" ++ [8230])
    Channel_Open.

Definition set_status (text : rstr) (b : Board) : Board :=
  mkBoard (bd_busy b) (bd_refreshers b) (bd_permits b) (bd_active b) (bd_workers b) (bd_callback b)
    (bd_posts b) (bd_peers b) text (bd_channel b).
Definition set_callback (callback : Callback) (b : Board) : Board :=
  mkBoard (bd_busy b) (bd_refreshers b) (bd_permits b) (bd_active b) (bd_workers b) callback
    (bd_posts b) (bd_peers b) (bd_status b) (bd_channel b).
Definition set_refreshers (busy : bool) (refreshers : list Refresher) (b : Board) : Board :=
  mkBoard busy refreshers (bd_permits b) (bd_active b) (bd_workers b) (bd_callback b)
    (bd_posts b) (bd_peers b) (bd_status b) (bd_channel b).
Definition set_permits (permits : Z) (b : Board) : Board :=
  mkBoard (bd_busy b) (bd_refreshers b) permits (bd_active b) (bd_workers b) (bd_callback b)
    (bd_posts b) (bd_peers b) (bd_status b) (bd_channel b).
Definition set_workers (active : ActiveActivations) (workers : list Worker) (b : Board) : Board :=
  mkBoard (bd_busy b) (bd_refreshers b) (bd_permits b) active workers (bd_callback b)
    (bd_posts b) (bd_peers b) (bd_status b) (bd_channel b).
Definition set_posts (posts : list Post) (b : Board) : Board :=
  mkBoard (bd_busy b) (bd_refreshers b) (bd_permits b) (bd_active b) (bd_workers b) (bd_callback b)
    posts (bd_peers b) (bd_status b) (bd_channel b).
Definition set_peers (peers : PeerIndicatorStates) (b : Board) : Board :=
  mkBoard (bd_busy b) (bd_refreshers b) (bd_permits b) (bd_active b) (bd_workers b) (bd_callback b)
    (bd_posts b) peers (bd_status b) (bd_channel b).

Definition set_channel (channel : Channel) (b : Board) : Board :=
  mkBoard (bd_busy b) (bd_refreshers b) (bd_permits b) (bd_active b) (bd_workers b) (bd_callback b)
    (bd_posts b) (bd_peers b) (bd_status b) channel.

(** ** The gates *)

(** [OperationGate::try_enter], one [compare_exchange]. *)
Definition operation_try_enter (busy : bool) : option bool := if busy then None else Some true.

(** One turn of the loop of [ActivationGate::try_enter] that has [current] in hand:
    [compare_exchange_weak] fails when the counter has another value, and may fail when not. *)
Inductive Turn := Turn_Refused | Turn_Entered (permits : Z) | Turn_Again (current : Z).
Definition activation_try_enter (spurious : bool) (permits current : Z) : Turn :=
  if 2 <=? current then Turn_Refused
  else if (permits =? current) && negb spurious then Turn_Entered (current + 1)
  else Turn_Again permits.

(** ** The callbacks and the threads *)

Inductive Event :=
| Click_Activate (offer_id_text mode_text : rstr)
| Click_Cancel (offer_id_text : rstr)
| Click_Refresh
| Refresh_Ends (i : nat) (r : result rstr PeerView)
| Refresh_Panics (i : nat)
| Refresh_Posts (i : nat)
| Post_Runs (plan : result rstr ())
| Look_Runs
| Load_Runs
| Turn_Runs (spurious : bool)
| Build_Runs (input : result rstr ())
| Register_Runs
| Pull_Ends (i : nat) (r : result rstr ActivationOutcome)
| Pull_Panics (i : nat)
| Permit_Drops (i : nat)
| Pull_Posts (i : nat)
| Control_Activates (offer_id : OfferId) (mode : ActivationMode) (input : result rstr ())
| Control_Ends
| Control_Panics.

Section events.
Context (parse_offer_id : rstr → option OfferId) (clipboard : bool).

Definition ellipsis : rstr := [8230].
Definition refresh_running : rstr := str "Mesh refresh is already in progress".
Definition offer_running : rstr := str "This offer is already activating; nothing queued".

(** [refresh_in_background]: the new state if the thread was started. *)
Definition refresh_in_background (purpose : Purpose) (b : Board) : option Board :=
  busy ← operation_try_enter (bd_busy b);
  Some (set_refreshers busy (bd_refreshers b ++ [Refreshing purpose]) b).

Definition mode_of_text (text : rstr) : option ActivationMode :=
  if bool_decide (text = str "clipboard") then Some Mode_Clipboard
  else if bool_decide (text = str "save") then Some Mode_Save else None.

Definition on_activate_offer (offer_id_text mode_text : rstr) (b : Board) : Board :=
  match parse_offer_id offer_id_text with
  | None => set_status (str "The shelf offer ID is invalid") b
  | Some offer_id =>
      match mode_of_text mode_text with
      | None => set_status (str "The activation mode is invalid") b
      | Some mode =>
          let b := set_status (str "Checking mesh reachability" ++ ellipsis) b in
          default (set_status refresh_running b)
            (refresh_in_background (Refresh_Then offer_id mode) b)
      end
  end.

Definition on_cancel_activation (offer_id_text : rstr) (b : Board) : Board :=
  match parse_offer_id offer_id_text with
  | None => b
  | Some offer_id =>
      match bd_active b ≫= (λ table, table !! offer_id) with
      | None => b
      | Some activation =>
          set_status (str "Cancelling activation" ++ ellipsis)
            (set_workers ((λ table, <[offer_id := mkActiveActivation true (aa_progress activation)]> table)
                            <$> bd_active b) (bd_workers b) b)
      end
  end.

Definition on_refresh_peers (b : Board) : Board :=
  match refresh_in_background Refresh_Only b with
  | Some b => set_status (str "Refreshing mesh devices" ++ ellipsis) b
  | None => set_status refresh_running b
  end.

(** The completion of a refresh: what it shows, and the first part of an activation; [plan] is
    what [plan_activation] comes to. *)
Definition on_complete (purpose : Purpose) (r : result rstr PeerView) (plan : result rstr ())
    (b : Board) : Board :=
  match r with
  | Err error => set_status error (set_peers (apply_refresh_error (bd_peers b)) b)
  | Ok view =>
      let b := set_status [] (set_peers (apply_peer_view view (bd_peers b)) b) in
      match purpose with
      | Refresh_Only => b
      | Refresh_Then offer_id mode =>
          match plan with
          | Err error => set_status error b
          | Ok _ => set_callback (Planned offer_id mode) b
          end
      end
  end.

(** The callback from the look at the table to the registration; [drop(permit)] is the
    decrement of the counter. *)
Definition on_look (offer_id : OfferId) (mode : ActivationMode) (b : Board) : Board :=
  if already_active (bd_active b) offer_id then set_status offer_running (set_callback Idle b)
  else match clipboard_for_activation mode (if clipboard then Some () else None) with
       | Err error => set_status error (set_callback Idle b)
       | Ok _ => set_callback (Looked offer_id mode) b
       end.
Definition on_turn (offer_id : OfferId) (mode : ActivationMode) (current : Z) (spurious : bool)
    (b : Board) : Board :=
  match activation_try_enter spurious (bd_permits b) current with
  | Turn_Refused =>
      set_status (str "Two activations are already in progress; nothing queued") (set_callback Idle b)
  | Turn_Entered permits => set_callback (Entered offer_id mode) (set_permits permits b)
  | Turn_Again current => set_callback (Entering offer_id mode current) b
  end.
Definition on_build (offer_id : OfferId) (mode : ActivationMode) (input : result rstr ())
    (b : Board) : Board :=
  match input with
  | Err error => set_status error (set_callback Idle (set_permits (bd_permits b - 1) b))
  | Ok _ => set_callback (Built offer_id mode) b
  end.
Definition on_register (offer_id : OfferId) (mode : ActivationMode) (b : Board) : Board :=
  let '(registered, active) := register_active_activation (bd_active b) offer_id
                                 (mkActiveActivation false (str "Pulling" ++ ellipsis)) in
  if registered : bool then
    set_status ((match mode with
                 | Mode_Save => str "Pulling offer to the configured destination"
                 | Mode_Clipboard => str "Pulling offer to the clipboard"
                 end) ++ ellipsis)
      (set_callback Idle (set_workers active (bd_workers b ++ [Pulling offer_id]) b))
  else set_status offer_running (set_callback Idle (set_permits (bd_permits b - 1) b)).

(** [DesktopLocalRuntime::activate], up to [run_activation]; [input] is what building the input
    comes to. *)
Definition on_control_activate (offer_id : OfferId) (mode : ActivationMode) (input : result rstr ())
    (b : Board) : Board :=
  match (input;; clipboard_for_activation mode (if clipboard then Some () else None)) with
  | Err _ => b
  | Ok _ => set_channel (Channel_Pulling offer_id) b
  end.

(** The text of an outcome in the window. *)
Definition outcome_text (r : result rstr ActivationOutcome) : rstr :=
  match r with Ok outcome => desktop_status outcome | Err error => error end.

(** [None]: the event cannot happen in this state. *)
Definition board_event (b : Board) (e : Event) : option Board :=
  match e with
  | Click_Activate offer_id_text mode_text =>
      guard (bd_callback b = Idle);; Some (on_activate_offer offer_id_text mode_text b)
  | Click_Cancel offer_id_text =>
      guard (bd_callback b = Idle);; Some (on_cancel_activation offer_id_text b)
  | Click_Refresh => guard (bd_callback b = Idle);; Some (on_refresh_peers b)
  | Refresh_Ends i r =>
      match bd_refreshers b !! i with
      | Some (Refreshing purpose) =>
          Some (set_refreshers false (<[i := Refreshed purpose r]> (bd_refreshers b)) b)
      | _ => None
      end
  | Refresh_Panics i =>
      match bd_refreshers b !! i with
      | Some (Refreshing _) => Some (set_refreshers false (delete i (bd_refreshers b)) b)
      | _ => None
      end
  | Refresh_Posts i =>
      match bd_refreshers b !! i with
      | Some (Refreshed purpose r) =>
          Some (set_posts (bd_posts b ++ [Post_Refreshed purpose r])
                  (set_refreshers (bd_busy b) (delete i (bd_refreshers b)) b))
      | _ => None
      end
  | Post_Runs plan =>
      guard (bd_callback b = Idle);;
      match bd_posts b with
      | Post_Refreshed purpose r :: posts => Some (on_complete purpose r plan (set_posts posts b))
      | Post_Status text :: posts => Some (set_status text (set_posts posts b))
      | [] => None
      end
  | Look_Runs => match bd_callback b with Planned o m => Some (on_look o m b) | _ => None end
  | Load_Runs =>
      match bd_callback b with
      | Looked o m => Some (set_callback (Entering o m (bd_permits b)) b)
      | _ => None
      end
  | Turn_Runs spurious =>
      match bd_callback b with Entering o m current => Some (on_turn o m current spurious b) | _ => None end
  | Build_Runs input => match bd_callback b with Entered o m => Some (on_build o m input b) | _ => None end
  | Register_Runs => match bd_callback b with Built o m => Some (on_register o m b) | _ => None end
  | Pull_Ends i r =>
      match bd_workers b !! i with
      | Some (Pulling offer_id) =>
          Some (set_workers (remove_active_activation (bd_active b) offer_id)
                  (<[i := Leaving r]> (bd_workers b)) b)
      | _ => None
      end
  | Pull_Panics i =>
      match bd_workers b !! i with
      | Some (Pulling _) =>
          Some (set_permits (bd_permits b - 1) (set_workers (bd_active b) (delete i (bd_workers b)) b))
      | _ => None
      end
  | Permit_Drops i =>
      match bd_workers b !! i with
      | Some (Leaving r) =>
          Some (set_permits (bd_permits b - 1)
                  (set_workers (bd_active b) (<[i := Released r]> (bd_workers b)) b))
      | _ => None
      end
  | Pull_Posts i =>
      match bd_workers b !! i with
      | Some (Released r) =>
          Some (set_posts (bd_posts b ++ [Post_Status (outcome_text r)])
                  (set_workers (bd_active b) (delete i (bd_workers b)) b))
      | _ => None
      end
  | Control_Activates offer_id mode input =>
      guard (bd_channel b = Channel_Open);; Some (on_control_activate offer_id mode input b)
  | Control_Ends =>
      match bd_channel b with Channel_Pulling _ => Some (set_channel Channel_Open b) | _ => None end
  | Control_Panics =>
      match bd_channel b with Channel_Pulling _ => Some (set_channel Channel_Gone b) | _ => None end
  end.
Fixpoint board_run (events : list Event) (b : Board) : option Board :=
  match events with
  | [] => Some b
  | e :: events => b ← board_event b e; board_run events b
  end.

(** ** What every run keeps *)

(** The offers that the threads of the window pull, and the threads that hold a permit. *)
Definition pulled (w : Worker) : option OfferId := match w with Pulling o => Some o | _ => None end.
Definition pulling (b : Board) : list OfferId := omap pulled (bd_workers b).
Definition control_pulling (b : Board) : list OfferId :=
  match bd_channel b with Channel_Pulling o => [o] | _ => [] end.
Definition holds (w : Worker) : bool := match w with Released _ => false | _ => true end.
Definition refreshes (r : Refresher) : bool := match r with Refreshing _ => true | _ => false end.
Definition callback_holds (c : Callback) : bool :=
  match c with Entered _ _ | Built _ _ => true | _ => false end.
Definition count {A} (p : A → bool) (l : list A) : Z := zlen (filter (λ x, p x = true) l).

(** The offer whose thread dies in this event, and in a run. *)
Definition loses (b : Board) (e : Event) : option OfferId :=
  match e with Pull_Panics i => bd_workers b !! i ≫= pulled | _ => None end.
Fixpoint lost (events : list Event) (b : Board) : list OfferId :=
  match events with
  | [] => []
  | e :: events =>
      option_list (loses b e) ++ match board_event b e with Some b => lost events b | None => [] end
  end.

Record board_ok (dead : list OfferId) (b : Board) : Prop := {
  ok_permits : bd_permits b = count holds (bd_workers b) + (if callback_holds (bd_callback b) then 1 else 0);
  ok_bound : bd_permits b ≤ 2;
  ok_gate : count refreshes (bd_refreshers b) = if bd_busy b then 1 else 0;
  ok_distinct : NoDup (pulling b);
  ok_table : ∃ table, bd_active b = Some table ∧
    ∀ o, is_Some (table !! o) ↔ o ∈ pulling b ∨ o ∈ dead;
  ok_dead : ∀ o, o ∈ dead → o ∉ pulling b;
}.

Lemma count_app {A} (p : A → bool) l k : count p (l ++ k) = count p l + count p k.
Proof. unfold count. by rewrite filter_app, zlen_app. Qed.
Lemma count_cons {A} (p : A → bool) x l : count p (x :: l) = (if p x then 1 else 0) + count p l.
Proof.
  unfold count. destruct (p x) eqn:Hx; [by rewrite filter_cons_True, zlen_cons by done|].
  by rewrite filter_cons_False by congruence.
Qed.
Lemma count_nonneg {A} (p : A → bool) l : 0 ≤ count p l.
Proof. apply zlen_nonneg. Qed.

Lemma count_NoDup `{EqDecision A} (l : list A) x : NoDup l → count (λ y, bool_decide (y = x)) l ≤ 1.
Proof.
  induction 1 as [|y l Hy Hl IH]; [done|]. rewrite count_cons. case_bool_decide as Hyx; [subst y|lia].
  enough (count (λ y, bool_decide (y = x)) l = 0) by lia. unfold count.
  destruct (filter _ l) as [|z k] eqn:Hf; [done|]. exfalso. apply Hy.
  assert (z ∈ filter (λ y, bool_decide (y = x) = true) l) as Hz by (rewrite Hf; by left).
  apply list_elem_of_filter in Hz as [Hz Hin]. by apply bool_decide_eq_true in Hz as ->.
Qed.

Lemma list_at {A} (l : list A) i x :
  l !! i = Some x → ∃ l1 l2, l = l1 ++ x :: l2 ∧ (∀ y, <[i := y]> l = l1 ++ y :: l2) ∧
    delete i l = l1 ++ l2.
Proof.
  intros Hx. exists (take i l), (drop (S i) l). split; [by rewrite take_drop_middle|]. split.
  - intros y. apply insert_take_drop. by eapply lookup_lt_Some.
  - apply delete_take_drop.
Qed.

(** An event that touches neither permits, table, threads nor the callback's hold. *)
Lemma board_ok_same dead b b' :
  bd_permits b' = bd_permits b → bd_active b' = bd_active b → bd_workers b' = bd_workers b →
  bd_busy b' = bd_busy b → bd_refreshers b' = bd_refreshers b →
  callback_holds (bd_callback b') = callback_holds (bd_callback b) →
  board_ok dead b → board_ok dead b'.
Proof.
  intros Hp Ha Hw Hb Hr Hc []. unfold pulling in *.
  split; unfold pulling; rewrite ?Hp, ?Ha, ?Hw, ?Hb, ?Hr, ?Hc; done.
Qed.

Lemma board_ok_start : board_ok [] board_start.
Proof.
  split; try done; [apply NoDup_nil_2| |by intros o ?%elem_of_nil]. exists ∅. split; [done|].
  intros o. rewrite lookup_empty. split; [by intros []|intros [[]%elem_of_nil|[]%elem_of_nil]].
Qed.

(** The callbacks that only look, or show a text. *)
Lemma refresh_ok dead purpose b b' :
  refresh_in_background purpose b = Some b' → board_ok dead b → board_ok dead b'.
Proof.
  unfold refresh_in_background, operation_try_enter. destruct (bd_busy b) eqn:Hbusy; [done|].
  intros [= <-] []. split; try done. cbn. rewrite count_app, ok_gate0, Hbusy. done.
Qed.
Lemma activate_ok dead o m b : board_ok dead b → board_ok dead (on_activate_offer o m b).
Proof.
  intros Hok. unfold on_activate_offer.
  destruct (parse_offer_id o) as [offer_id|]; [|by apply (board_ok_same dead b)].
  destruct (mode_of_text m) as [mode|]; [|by apply (board_ok_same dead b)].
  cbv zeta. set (b1 := set_status _ b). assert (board_ok dead b1) as Hok1 by by apply (board_ok_same dead b).
  destruct (refresh_in_background _ b1) as [b2|] eqn:Hr; cbn; [by eapply refresh_ok|].
  by apply (board_ok_same dead b1).
Qed.
Lemma cancel_ok dead o b : board_ok dead b → board_ok dead (on_cancel_activation o b).
Proof.
  intros Hok. unfold on_cancel_activation. destruct (parse_offer_id o) as [offer_id|]; [|done].
  destruct (_ ≫= _) as [activation|] eqn:Hlook; [|done]. destruct Hok.
  destruct ok_table0 as (table & Hactive & Htable). rewrite Hactive in Hlook. cbn in Hlook.
  split; try done. cbn. rewrite Hactive. exists (<[offer_id := mkActiveActivation true (aa_progress activation)]> table).
  split; [done|]. intros o'. unfold pulling in *. cbn. rewrite <- Htable.
  destruct (decide (o' = offer_id)) as [->|]; [by rewrite lookup_insert_eq, Hlook|by rewrite lookup_insert_ne].
Qed.
Lemma complete_ok dead purpose r plan b :
  bd_callback b = Idle → board_ok dead b → board_ok dead (on_complete purpose r plan b).
Proof.
  intros Hidle Hok. unfold on_complete. destruct r as [v|e]; [|by apply (board_ok_same dead b)].
  destruct purpose as [|o m]; [by apply (board_ok_same dead b)|].
  destruct plan; apply (board_ok_same dead b); try done. cbn. by rewrite Hidle.
Qed.
Lemma look_ok dead o m b :
  callback_holds (bd_callback b) = false → board_ok dead b → board_ok dead (on_look o m b).
Proof.
  intros Hh Hok. unfold on_look. destruct (already_active _ _); [by apply (board_ok_same dead b)|].
  destruct (clipboard_for_activation _ _); by apply (board_ok_same dead b).
Qed.
Lemma turn_ok dead o m current spurious b :
  callback_holds (bd_callback b) = false → board_ok dead b →
  board_ok dead (on_turn o m current spurious b).
Proof.
  intros Hh Hok. unfold on_turn, activation_try_enter.
  destruct (Z.leb_spec 2 current); [by apply (board_ok_same dead b)|].
  destruct (_ && _) eqn:Hcas; [|by apply (board_ok_same dead b)]. bool_facts.
  destruct Hok. unfold pulling in *. split; try done; cbn; [|lia]. rewrite Hh in ok_permits0. lia.
Qed.
(** A decrement of the counter by the callback. *)
Lemma drop_ok dead text b :
  callback_holds (bd_callback b) = true → board_ok dead b →
  board_ok dead (set_status text (set_callback Idle (set_permits (bd_permits b - 1) b))).
Proof.
  intros Hh []. unfold pulling in *. split; try done; cbn; [|lia]. rewrite Hh in ok_permits0. lia.
Qed.
Lemma register_ok dead o m b :
  callback_holds (bd_callback b) = true → board_ok dead b → board_ok dead (on_register o m b).
Proof.
  intros Hh Hok. unfold on_register, register_active_activation.
  pose proof Hok as []. destruct ok_table0 as (table & Hactive & Htable). rewrite Hactive.
  destruct (table !! o) as [activation|] eqn:Hlook; [by apply drop_ok|].
  assert (¬ (o ∈ pulling b ∨ o ∈ dead)) as Hnew by (by rewrite <- Htable, Hlook; intros []).
  assert (pulling (set_workers (Some table) (bd_workers b ++ [Pulling o]) b) = pulling b ++ [o]) as Hpull
    by (unfold pulling; cbn; by rewrite omap_app).
  split; cbn; [|done|done| | |].
  - rewrite count_app, ok_permits0, Hh. change (count holds [Pulling o]) with 1. lia.
  - change (NoDup (pulling (set_workers (Some table) (bd_workers b ++ [Pulling o]) b))).
    rewrite Hpull. apply NoDup_app. split_and!; [done| |apply NoDup_singleton].
    intros o' Hin ->%list_elem_of_singleton. tauto.
  - eexists. split; [done|]. intros o'.
    change (is_Some (<[o := mkActiveActivation false (str "Pulling" ++ ellipsis)]> table !! o') ↔
      o' ∈ pulling (set_workers (Some table) (bd_workers b ++ [Pulling o]) b) ∨ o' ∈ dead).
    rewrite Hpull, elem_of_app, list_elem_of_singleton.
    destruct (decide (o' = o)) as [->|]; [rewrite lookup_insert_eq; split; [tauto|by eexists]|].
    rewrite lookup_insert_ne by done. rewrite Htable. tauto.
  - intros o' Hd. change (o' ∉ pulling (set_workers (Some table) (bd_workers b ++ [Pulling o]) b)).
    rewrite Hpull, elem_of_app, list_elem_of_singleton. intros [Hin| ->]; [by eapply ok_dead0|tauto].
Qed.

(** A thread ends its work at [i], or leaves. *)
Lemma pulling_at b i o :
  bd_workers b !! i = Some (Pulling o) → NoDup (pulling b) →
  ∃ rest, NoDup rest ∧ o ∉ rest ∧ (∀ o', o' ∈ pulling b ↔ o' = o ∨ o' ∈ rest) ∧
    (∀ active r, pulling (set_workers active (<[i := Leaving r]> (bd_workers b)) b) = rest) ∧
    (∀ active, pulling (set_workers active (delete i (bd_workers b)) b) = rest) ∧
    (∀ r, count holds (<[i := Leaving r]> (bd_workers b)) = count holds (bd_workers b)) ∧
    count holds (delete i (bd_workers b)) = count holds (bd_workers b) - 1.
Proof.
  intros (l1 & l2 & Hl & Hins & Hdel)%list_at Hnd. unfold pulling in *. cbn.
  exists (omap pulled l1 ++ omap pulled l2). rewrite Hl, omap_app in Hnd. cbn in Hnd.
  apply NoDup_app in Hnd as (H1 & H12 & H2). apply NoDup_cons in H2 as [Ho H2].
  split_and!.
  - apply NoDup_app. split_and!; [done| |done]. intros x Hx Hx2. apply (H12 x Hx). by right.
  - rewrite elem_of_app. intros [Hx|Hx]; [|done]. apply (H12 o Hx). by left.
  - intros o'. rewrite Hl, omap_app. cbn. rewrite !elem_of_app, elem_of_cons. tauto.
  - intros _ r. by rewrite Hins, omap_app.
  - intros _. by rewrite Hdel, omap_app.
  - intros r. by rewrite Hins, Hl, !count_app, !count_cons.
  - rewrite Hdel, Hl, !count_app, !count_cons. cbn [holds]. lia.
Qed.
(** One that pulls no more changes its stage or goes. *)
Lemma left_at b i w :
  bd_workers b !! i = Some w → pulled w = None →
  (∀ active w', pulled w' = None →
     pulling (set_workers active (<[i := w']> (bd_workers b)) b) = pulling b ∧
     count holds (<[i := w']> (bd_workers b)) =
       count holds (bd_workers b) - (if holds w then 1 else 0) + (if holds w' then 1 else 0)) ∧
  (∀ active, pulling (set_workers active (delete i (bd_workers b)) b) = pulling b) ∧
  count holds (delete i (bd_workers b)) = count holds (bd_workers b) - (if holds w then 1 else 0).
Proof.
  intros (l1 & l2 & Hl & Hins & Hdel)%list_at Hw. unfold pulling. cbn.
  rewrite Hdel. split_and!.
  - intros _ w' Hw'. rewrite Hins, Hl, !omap_app, !count_app, !count_cons. cbn. rewrite Hw, Hw'.
    split; [done|lia].
  - intros _. rewrite Hl, !omap_app. cbn. by rewrite Hw.
  - rewrite Hl, !count_app, !count_cons. lia.
Qed.
Lemma refresher_at b i x :
  bd_refreshers b !! i = Some x →
  (∀ y, count refreshes (<[i := y]> (bd_refreshers b)) =
     count refreshes (bd_refreshers b) - (if refreshes x then 1 else 0) + (if refreshes y then 1 else 0)) ∧
  count refreshes (delete i (bd_refreshers b)) =
    count refreshes (bd_refreshers b) - (if refreshes x then 1 else 0).
Proof.
  intros (l1 & l2 & Hl & Hins & Hdel)%list_at. rewrite Hdel. split.
  - intros y. rewrite Hins, Hl, !count_app, !count_cons. lia.
  - rewrite Hl, !count_app, !count_cons. lia.
Qed.

Lemma pull_ends_ok dead b i o r :
  bd_workers b !! i = Some (Pulling o) → board_ok dead b →
  board_ok dead (set_workers (remove_active_activation (bd_active b) o)
                   (<[i := Leaving r]> (bd_workers b)) b).
Proof.
  intros Hi []. destruct ok_table0 as (table & Hactive & Htable).
  destruct (pulling_at b i o Hi ok_distinct0) as (rest & Hnd & Ho & Hall & Hins & _ & Hcount & _).
  split; rewrite ?Hins; try done; cbn.
  - by rewrite Hcount.
  - exists (delete o table). rewrite Hactive. split; [done|]. intros o'.
    destruct (decide (o' = o)) as [->|Hne].
    + rewrite lookup_delete_eq. split; [by intros []|]. intros [?|Hd]; [done|].
      exfalso. apply (ok_dead0 o Hd), Hall. by left.
    + rewrite lookup_delete_ne by done. rewrite Htable, Hall. tauto.
  - intros o' Hd Hin. apply (ok_dead0 o' Hd), Hall. by right.
Qed.
Lemma pull_panics_ok dead b i o :
  bd_workers b !! i = Some (Pulling o) → board_ok dead b →
  board_ok (o :: dead) (set_permits (bd_permits b - 1)
                          (set_workers (bd_active b) (delete i (bd_workers b)) b)).
Proof.
  intros Hi []. destruct ok_table0 as (table & Hactive & Htable).
  destruct (pulling_at b i o Hi ok_distinct0) as (rest & Hnd & Ho & Hall & _ & Hdel & _ & Hcount).
  assert (pulling (set_permits (bd_permits b - 1)
    (set_workers (bd_active b) (delete i (bd_workers b)) b)) = rest) as Hrest by apply (Hdel (bd_active b)).
  split; rewrite ?Hrest; try done; cbn.
  - rewrite Hcount. lia.
  - lia.
  - exists table. split; [done|]. intros o'. rewrite Htable, Hall, elem_of_cons. tauto.
  - intros o' [->|Hd]%elem_of_cons; [done|]. intros Hin. apply (ok_dead0 o' Hd), Hall. by right.
Qed.

Lemma board_event_ok dead b e b' :
  board_event b e = Some b' → board_ok dead b → board_ok (option_list (loses b e) ++ dead) b'.
Proof.
  intros Hrun Hok. destruct e; cbn [board_event loses] in Hrun |- *; simplify_option_eq.
  - by apply activate_ok.
  - by apply cancel_ok.
  - unfold on_refresh_peers. destruct (refresh_in_background _ _) as [b1|] eqn:Hr.
    + apply (board_ok_same dead b1); [done..|]. by eapply refresh_ok.
    + by apply (board_ok_same dead b).
  - destruct (bd_refreshers b !! i) as [[purpose|]|] eqn:Hi; simplify_eq.
    destruct (refresher_at _ _ _ Hi) as [Hins _]. destruct Hok. split; try done. cbn.
    rewrite Hins, ok_gate0. cbn. pose proof (count_nonneg refreshes (bd_refreshers b)).
    specialize (Hins (Refreshed purpose r)).
    pose proof (count_nonneg refreshes (<[i:=Refreshed purpose r]> (bd_refreshers b))).
    cbn in Hins. destruct (bd_busy b); lia.
  - destruct (bd_refreshers b !! i) as [[purpose|]|] eqn:Hi; simplify_eq.
    destruct (refresher_at _ _ _ Hi) as [_ Hdel]. destruct Hok. split; try done. cbn.
    pose proof (count_nonneg refreshes (delete i (bd_refreshers b))).
    rewrite Hdel, ok_gate0 in *. cbn in *. destruct (bd_busy b); lia.
  - destruct (bd_refreshers b !! i) as [[|purpose r]|] eqn:Hi; simplify_eq.
    destruct (refresher_at _ _ _ Hi) as [_ Hdel]. destruct Hok. split; try done. cbn.
    rewrite Hdel, ok_gate0. cbn. lia.
  - destruct (bd_posts b) as [|[purpose r|text] posts] eqn:Hposts; simplify_eq.
    + apply complete_ok; [done|by apply (board_ok_same dead b)].
    + by apply (board_ok_same dead b).
  - destruct (bd_callback b) as [|o m| | | |] eqn:Hc; simplify_eq. apply look_ok; [by rewrite Hc|done].
  - destruct (bd_callback b) as [| |o m| | |] eqn:Hc; simplify_eq.
    apply (board_ok_same dead b); try done. by rewrite Hc.
  - destruct (bd_callback b) as [| | |o m current| |] eqn:Hc; simplify_eq.
    apply turn_ok; [by rewrite Hc|done].
  - destruct (bd_callback b) as [| | | |o m|] eqn:Hc; simplify_eq. unfold on_build.
    destruct input; [apply (board_ok_same dead b); try done; by rewrite Hc|].
    apply drop_ok; [by rewrite Hc|done].
  - destruct (bd_callback b) as [| | | | |o m] eqn:Hc; simplify_eq. apply register_ok; [by rewrite Hc|done].
  - destruct (bd_workers b !! i) as [[o| |]|] eqn:Hi; simplify_eq. by apply pull_ends_ok.
  - destruct (bd_workers b !! i) as [[o| |]|] eqn:Hi; simplify_eq. by apply pull_panics_ok.
  - destruct (bd_workers b !! i) as [[|r|]|] eqn:Hi; simplify_eq.
    destruct (left_at _ _ _ Hi eq_refl) as [Hins _].
    destruct (Hins (bd_active b) (Released r) eq_refl) as [Hp Hcount]. destruct Hok.
    assert (pulling (set_permits (bd_permits b - 1)
      (set_workers (bd_active b) (<[i:=Released r]> (bd_workers b)) b)) = pulling b) as Hsame by exact Hp.
    split; rewrite ?Hsame; try done; cbn; [rewrite Hcount; cbn; lia|lia].
  - destruct (bd_workers b !! i) as [[| |r]|] eqn:Hi; simplify_eq.
    destruct (left_at _ _ _ Hi eq_refl) as (_ & Hdel & Hcount). specialize (Hdel (bd_active b)).
    destruct Hok. set (b' := set_posts _ _).
    assert (pulling b' = pulling b) as Hsame by exact Hdel.
    split; rewrite ?Hsame; try done; cbn; rewrite Hcount; cbn; lia.
  - unfold on_control_activate. destruct (_ ;; _); by apply (board_ok_same dead b).
  - destruct (bd_channel b); simplify_eq. by apply (board_ok_same dead b).
  - destruct (bd_channel b); simplify_eq. by apply (board_ok_same dead b).
Qed.

(** Every thread that pulls holds a permit. *)
Lemma pulling_holds b : zlen (pulling b) ≤ count holds (bd_workers b).
Proof.
  unfold pulling. induction (bd_workers b) as [|w ws IH]; [done|]. rewrite count_cons. cbn [omap list_omap].
  destruct w; cbn [pulled holds]; rewrite ?zlen_cons; lia.
Qed.

Lemma board_run_ok dead events b b' :
  board_run events b = Some b' → board_ok dead b → ∃ dead', board_ok dead' b' ∧
    ∀ o, o ∈ dead' ↔ o ∈ lost events b ∨ o ∈ dead.
Proof.
  revert dead b. induction events as [|e events IH]; intros dead b Hrun Hok.
  { injection Hrun as <-. exists dead. split; [done|]. cbn. intros o. rewrite elem_of_nil. tauto. }
  cbn in Hrun. destruct (board_event b e) as [b1|] eqn:He; [|done]. cbn in Hrun.
  destruct (IH _ _ Hrun (board_event_ok _ _ _ _ He Hok)) as (dead' & Hok' & Hdead').
  exists dead'. split; [done|]. intros o. cbn [lost]. rewrite He, Hdead', !elem_of_app. tauto.
Qed.

(** C19: In every interleaving of clicks, callbacks, refreshes, activations of the window and
    activations over the control channel: the counter of the gate is the number of the window's
    activations that hold a permit, at most two; no two of them pull the same offer; one thread
    at a time refreshes the mesh; and the window refuses an offer as already activating exactly
    if a thread of the window pulls it or one that pulled it has panicked.  The control channel
    pulls at most one offer more, past the gate and the table: at most three threads of the
    process work on an activation, and at most two on one offer, the second for the channel. *)
Theorem activations_on_the_board events b :
  board_run events board_start = Some b →
  bd_permits b = count holds (bd_workers b) + (if callback_holds (bd_callback b) then 1 else 0) ∧
  bd_permits b ≤ 2 ∧ NoDup (pulling b) ∧
  count refreshes (bd_refreshers b) = (if bd_busy b then 1 else 0) ∧
  (∀ o, already_active (bd_active b) o = true ↔ o ∈ pulling b ∨ o ∈ lost events board_start) ∧
  zlen (pulling b ++ control_pulling b) ≤ 3 ∧
  ∀ o, count (λ o', bool_decide (o' = o)) (pulling b ++ control_pulling b) ≤
    1 + count (λ o', bool_decide (o' = o)) (control_pulling b).
Proof.
  intros Hrun. apply (board_run_ok []) in Hrun as (dead & [] & Hdead); [|apply board_ok_start].
  split_and!; [done..| | |].
  - intros o. destruct ok_table0 as (table & -> & Htable).
    cbn [already_active]. rewrite bool_decide_eq_true, Htable, Hdead, elem_of_nil. tauto.
  - rewrite zlen_app. pose proof (pulling_holds b).
    assert (zlen (control_pulling b) ≤ 1) by (unfold control_pulling; by destruct (bd_channel b)).
    destruct (callback_holds _); lia.
  - intros o. rewrite count_app. enough (count (λ o', bool_decide (o' = o)) (pulling b) ≤ 1) by lia.
    by apply count_NoDup.
Qed.

Lemma board_run_app events later b :
  board_run (events ++ later) b = b ← board_run events b; board_run later b.
Proof.
  revert b. induction events as [|e events IH]; intros b; [done|]. cbn.
  destruct (board_event b e) as [b1|]; [apply IH|done].
Qed.
Lemma lost_app events later b b' :
  board_run events b = Some b' → lost (events ++ later) b = lost events b ++ lost later b'.
Proof.
  revert b. induction events as [|e events IH]; intros b Hrun; [by injection Hrun as ->|].
  cbn in Hrun |- *. destruct (board_event b e) as [b1|]; [|done]. by rewrite (IH _ Hrun), app_assoc.
Qed.

(** C38: When the thread of an activation of the window panics, its permit comes back, but its
    offer stays in the table: until the program ends the window shows it as being pulled, none
    of its threads ever pulls it again, and every further click on it is refused; only the
    control channel, which does not look at the table, still pulls it. *)
Theorem panicked_offer_stays events b i o later b' :
  board_run events board_start = Some b → bd_workers b !! i = Some (Pulling o) →
  board_run (Pull_Panics i :: later) b = Some b' →
  (∃ b1, board_event b (Pull_Panics i) = Some b1 ∧ bd_permits b1 = bd_permits b - 1 ∧
     bd_workers b1 = delete i (bd_workers b)) ∧
  already_active (bd_active b') o = true ∧ o ∉ pulling b' ∧
  (∀ mode, bd_callback b' = Planned o mode →
     board_event b' Look_Runs = Some (set_status offer_running (set_callback Idle b'))) ∧
  (bd_channel b' = Channel_Open →
     board_event b' (Control_Activates o Mode_Save (Ok ())) = Some (set_channel (Channel_Pulling o) b')).
Proof.
  intros Hrun Hi Hlater.
  assert (board_run (events ++ Pull_Panics i :: later) board_start = Some b') as Hall
    by (by rewrite board_run_app, Hrun).
  apply (board_run_ok []) in Hall as (dead & Hok & Hdead); [|apply board_ok_start].
  assert (o ∈ dead) as Ho.
  { apply Hdead. left. rewrite (lost_app _ _ _ _ Hrun), elem_of_app. right. cbn. rewrite Hi. by left. }
  destruct Hok. assert (already_active (bd_active b') o = true) as Hactive.
  { destruct ok_table0 as (table & -> & Htable). apply bool_decide_eq_true, Htable. by right. }
  split_and!; [|done|by apply ok_dead0| |].
  - cbn. rewrite Hi. by eexists.
  - intros mode Hc. cbn. rewrite Hc. unfold on_look. by rewrite Hactive.
  - intros Hopen. cbn. by rewrite option_guard_True.
Qed.
End events.

(** ** Sample *)

Module BoardSample.
Definition parse (text : rstr) : option OfferId :=
  if bool_decide (text = str "one") then Some (mkOfferId 1)
  else if bool_decide (text = str "two") then Some (mkOfferId 2) else None.
Definition seen : PeerView := mkPeerView [] true [] [] [mkPeerStatus (mkDeviceId 3) (str "desk") true].
(** The events from the click to the thread that pulls. *)
Definition clicked (offer : string) : list Event :=
  [Click_Activate (str offer) (str "save"); Refresh_Ends 0 (Ok seen); Refresh_Posts 0;
   Post_Runs (Ok ()); Look_Runs; Load_Runs; Turn_Runs true; Turn_Runs false; Build_Runs (Ok ());
   Register_Runs].
Definition two : list Event := clicked "one" ++ clicked "two".
Definition run (events : list Event) : Board := default board_start (board_run parse true events board_start).

(** Two activations run; the control channel pulls the first offer once more. *)
Definition beside : list Event := two ++ [Control_Activates (mkOfferId 1) Mode_Save (Ok ())].
Lemma activations_on_the_board_witness :
  let b := run beside in
  pulling b = [mkOfferId 1; mkOfferId 2] ∧ control_pulling b = [mkOfferId 1] ∧ bd_permits b = 2 ∧
  NoDup (pulling b) ∧
  ∀ o, already_active (bd_active b) o = true ↔ o ∈ pulling b ∨ o ∈ lost parse true beside board_start.
Proof.
  cbv zeta. split; [vm_compute; reflexivity|]. split; [vm_compute; reflexivity|].
  split; [vm_compute; reflexivity|].
  destruct (activations_on_the_board parse true beside (run beside)) as (_ & _ & Hnd & _ & Hactive & _).
  - vm_compute. reflexivity.
  - split; [exact Hnd|exact Hactive].
Defined.

(** The thread of the first dies; a click on the same offer later is refused. *)
Lemma panicked_offer_stays_witness :
  let later := [Pull_Ends 0 (Ok Outcome_Completed); Permit_Drops 0; Pull_Posts 0; Post_Runs (Ok ());
                Click_Activate (str "one") (str "save"); Refresh_Ends 0 (Ok seen); Refresh_Posts 0;
                Post_Runs (Ok ())] in
  let b := run (two ++ Pull_Panics 0 :: later) in
  pulling b = [] ∧ bd_permits b = 0 ∧ already_active (bd_active b) (mkOfferId 1) = true ∧
  option_map bd_status (board_event parse true b Look_Runs) = Some offer_running.
Proof.
  cbv zeta. set (later := [Pull_Ends 0 _; _; _; _; _; _; _; _]).
  split; [vm_compute; reflexivity|]. split; [vm_compute; reflexivity|].
  destruct (panicked_offer_stays parse true two (run two) 0 (mkOfferId 1) later
    (run (two ++ Pull_Panics 0 :: later))) as (_ & Hactive & _ & Hlook & _).
  - vm_compute. reflexivity.
  - vm_compute. reflexivity.
  - vm_compute. reflexivity.
  - split; [exact Hactive|]. rewrite (Hlook Mode_Save) by (vm_compute; reflexivity). reflexivity.
Defined.
End BoardSample.
