(* ===== verification/Shelf.v ===== *)
(** * The shelf in the desktop window

    Models the rows that [apps/desktop/src/main.rs] shows of the offers on the shelf
    ([load_shelf_snapshot], [shelf_row]), and relates their buttons to [plan_activation] of
    the coordinator.  Texts are those of the builds for Linux and Windows. *)

From S2P Require Import Prelude RustStr StdIo Offer Records Protocol OfferStore Filesystem Announce Connection Source Sender Discovery Registry Transactions Coordinator Controller Desktop Board.

(** ** Rows *)

Record ShelfRow := mkShelfRow {
  row_icon : rstr;
  row_offer_id : rstr;
  row_kind : rstr;
  row_origin_device : rstr;
  row_name : rstr;
  row_size : rstr;
  row_preview : rstr;
  row_counts : rstr;
  row_availability : rstr;
  row_progress : rstr;
  row_active : bool;
  row_can_activate : bool;
  row_can_save : bool;
  row_detail : rstr;
  row_shortcut : rstr;
  row_save_shortcut : rstr;
}.

Definition item_shortcut (index : Z) : rstr := str "Ctrl+" ++ show_int index.
Definition save_shortcut (index : Z) : rstr := str "Alt+" ++ show_int index.
Definition show_bytes (n : Z) : rstr := show_int n ++ str " bytes".

Definition row_texts (descriptor : OfferDescriptor) : rstr * rstr * rstr * rstr * rstr :=
  match descriptor with
  | Descriptor_Text utf8_bytes _ preview => (str "Text", [], show_bytes utf8_bytes, preview, [])
  | Descriptor_File root_name total_bytes => (str "File", root_name, show_bytes total_bytes, [], [])
  | Descriptor_Folder root_name total_bytes entry_count file_count directory_count =>
      (str "Folder", root_name, show_bytes total_bytes, [],
       show_int entry_count ++ str " entries " ++ middle_dot ++ str " " ++ show_int file_count
       ++ str " files " ++ middle_dot ++ str " " ++ show_int directory_count ++ str " folders")
  end.
Definition row_icon_of (descriptor : OfferDescriptor) : rstr :=
  match descriptor with
  | Descriptor_Text _ _ _ => [128221]
  | Descriptor_File _ _ => [128196]
  | Descriptor_Folder _ _ _ _ _ => [128193]
  end.
Definition availability_text (availability : CardAvailability) : rstr :=
  match availability with
  | Available => str "available"
  | SourceUnavailable => str "source unavailable"
  | SourceChanged => str "source changed"
  end.

Section rows.
Context {uuid : UuidText}.

Definition shelf_row (peer_names : gmap DeviceId rstr) (index : Z) (record : OfferCardRecord)
    (progress : option rstr) : ShelfRow :=
  let source := default (uuid_to_string (DeviceId_as_uuid (card_source_device record)))
                  (peer_names !! card_source_device record) in
  let '(kind, name, size, preview, counts) := row_texts (card_descriptor record) in
  let active := bool_decide (is_Some progress) in
  let can_activate := negb active && negb (is_source_changed (card_availability record)) in
  let can_save := negb (descriptor_is_text (card_descriptor record)) in
  mkShelfRow (row_icon_of (card_descriptor record))
    (uuid_to_string (OfferId_as_uuid (card_offer_id record))) kind source name size
    (if descriptor_is_text (card_descriptor record) then preview else []) counts
    (availability_text (card_availability record)) (default [] progress) active can_activate can_save
    (str "From " ++ source)
    (if index <? 5 then item_shortcut (index + 1) else str "click")
    (if index <? 5 then save_shortcut (index + 1) else str "save").

(** [capture_peer_names]; [collect] keeps the last of two entries with one key. *)
Definition capture_peer_names (registry : PeerRegistry) : gmap DeviceId rstr :=
  foldl (λ names peer, <[tp_device_id peer := tp_hostname peer]> names) ∅ (peers registry).

Record ShelfSnapshot := mkShelfSnapshot {
  ss_records : list OfferCardRecord;
  ss_peer_names : gmap DeviceId rstr;
  ss_active : gmap OfferId rstr;
}.
(** The names and the table of running activations are behind mutexes, [None] once poisoned. *)
Definition load_shelf_snapshot {S} {cards : OfferCardStore S} (peer_names : option (gmap DeviceId rstr))
    (active : ActiveActivations) : St S rstr ShelfSnapshot :=
  records ← st_map_err (λ e, str "Could not read local offer shelf: " ++ store_error_to_string e)
              ocs_read_offer_shelf;
  peer_names ← st_lift (ok_or peer_names (str "peer names are unavailable"));
  active ← st_lift (ok_or active (str "activation state is unavailable"));
  mret (mkShelfSnapshot records peer_names (aa_progress <$> active)).
Definition apply_shelf_snapshot (snapshot : ShelfSnapshot) : list ShelfRow :=
  imap (λ i record, shelf_row (ss_peer_names snapshot) (Z.of_nat i) record
                      (ss_active snapshot !! card_offer_id record)) (ss_records snapshot).
End rows.

(** ** What the buttons do *)

(** The first element with a property, when it is unique. *)
Lemma find_at {A} (p : A → bool) (l : list A) i x :
  l !! i = Some x → p x = true → (∀ j y, l !! j = Some y → p y = true → j = i) → find p l = Some x.
Proof.
  revert i. induction l as [|y l IH]; intros i Hi Hx Hu; [done|]. cbn. destruct (p y) eqn:Hy.
  - specialize (Hu 0%nat y eq_refl Hy). subst i. by injection Hi as ->.
  - destruct i as [|i]; [injection Hi as ->; congruence|]. apply (IH i); [done..|].
    intros j z Hj Hz. specialize (Hu (Datatypes.S j) z Hj Hz). lia.
Qed.

Section buttons.
Context {S : Type} {uuid : UuidText} {cards : OfferCardStore S}.
Context {state_json : Json InstallationState} {atomic : AtomicWriteFile}.
Implicit Types (s : Resident S).

(** The mode can be chosen on the row. *)
Definition button_enabled (row : ShelfRow) (mode : ActivationMode) : bool :=
  row_can_activate row && (negb (is_save mode) || row_can_save row).

(** The buttons of a row say what the coordinator will do with it, as long as no other card
    of the shelf has its offer id: an enabled one leads to the plan of this card, unless the
    settings of a save cannot be read; without a running activation, a disabled one would be
    refused. *)
Theorem row_buttons_spec c activation g peer_names mode s shelf i record progress r s' :
  co_cards c = true → (ocs_read_offer_shelf (re_store s)).1 = Ok shelf → shelf !! i = Some record →
  (∀ j other, shelf !! j = Some other → card_offer_id other = card_offer_id record → j = i) →
  plan_activation c activation g (card_offer_id record) mode s = (r, s') →
  let row := shelf_row peer_names (Z.of_nat i) record progress in
  (button_enabled row mode = true →
     (∃ destination, r = Ok (mkActivationPlan activation (card_source_device record)
        (card_offer_id record) (card_descriptor record) mode destination)) ∨
     mode = Mode_Save ∧ ∃ e, r = Err e) ∧
  (progress = None → button_enabled row mode = false → ∃ e, r = Err e).
Proof.
  intros Hcards Hshelf Hi Hunique Hrun. unfold plan_activation in Hrun.
  step_in Hrun as l s1 Hread; unfold read_shelf in Hread; rewrite Hcards in Hread;
    apply st_map_err_inv in Hread as (o & Hread & Ho);
    apply on_offers_run in Hread as (Hread & _ & _); rewrite Hread in Hshelf; cbn in Hshelf;
    subst o; [done|]. injection Ho as ->.
  assert (find (λ card, bool_decide (card_offer_id card = card_offer_id record)) shelf = Some record)
    as Hfind.
  { apply (find_at _ _ i); [done|by apply bool_decide_eq_true|].
    intros j other Hj Ho%bool_decide_eq_true. by eapply Hunique. }
  rewrite Hfind in Hrun. erewrite st_bind_run in Hrun by reflexivity.
  cbv zeta. unfold button_enabled, shelf_row. cbn [row_can_activate row_can_save].
  destruct (row_texts _) as [[[[kind name] size] preview] counts]. cbn [row_can_activate row_can_save].
  destruct (is_save mode && descriptor_is_text (card_descriptor record)) eqn:Htext.
  { apply andb_true_iff in Htext as [-> ->]. injection Hrun as <- _. cbn.
    rewrite andb_false_r. split; [done|]. by eexists. }
  erewrite st_bind_run in Hrun by reflexivity.
  destruct (is_source_changed (card_availability record)) eqn:Hchanged.
  { injection Hrun as <- _. cbn. rewrite andb_false_r. split; [done|]. by eexists. }
  erewrite st_bind_run in Hrun by reflexivity. split.
  - intros _. destruct mode; cbn [is_save] in Hrun.
    + injection Hrun as <- _. left. by eexists.
    + apply st_bind_inv in Hrun as [(e & _ & ->)|(destination & s2 & _ & Hrun)].
      * right. split; [done|]. by eexists.
      * injection Hrun as <- _. left. by eexists.
  - intros -> Hoff. exfalso. destruct mode, (descriptor_is_text _); done.
Qed.
End buttons.

(** ** An offer id that two devices use *)

Section captured.
Context {FS : Type} {fs : StagingFs FS} {iter : RedbIter} {iter_laws : RedbIterLaws}.
Context {uuid : UuidText} {uuid_laws : UuidTextLaws}.
Context {source_json : Json OfferSourceRecord} {card_json : Json OfferCardRecord}.
Context {journal_json : Json ActivationJournalEntry} {cache_json : Json ClipboardCacheRecord}.
Context {source_laws : JsonLaws OfferSourceRecord} {card_laws : JsonLaws OfferCardRecord}.
Context {journal_laws : JsonLaws ActivationJournalEntry} {cache_laws : JsonLaws ClipboardCacheRecord}.
Context {state_json : Json InstallationState} {atomic : AtomicWriteFile}.
Implicit Types (w : World FS).

(** The newest card is the one that a search by offer id finds. *)
Lemma find_newest (p : OfferCardRecord → bool) l card :
  StronglySorted (newest_le card_received_sequence) l → card ∈ l → p card = true →
  (∀ other, other ∈ l → other = card ∨ card_received_sequence other < card_received_sequence card) →
  find p l = Some card.
Proof.
  intros Hsorted Hin Hp Hmax. induction Hsorted as [|x l Hl IH Hall]; [by apply elem_of_nil in Hin|].
  destruct (Hmax x) as [->|Hlt]; [by left|cbn; by rewrite Hp|].
  apply elem_of_cons in Hin as [->|Hin]; [lia|]. exfalso.
  rewrite Forall_forall in Hall. specialize (Hall _ Hin). unfold newest_le in Hall. lia.
Qed.

(** A stored announcement has the newest card of the shelf. *)
Lemma stored_is_newest poisoned source own announcement w k w' :
  store_inv (w_db w) → handle_sync poisoned source own announcement w = (Ok k, w') →
  ack_code k = Ack_Stored →
  store_inv (w_db w') ∧
  ∃ card, cards_of (w_db w') !! card_key source (an_offer_id announcement) = Some card ∧
    card_source_device card = source ∧ card_offer_id card = an_offer_id announcement ∧
    card_descriptor card = an_descriptor announcement ∧
    ∀ key other, cards_of (w_db w') !! key = Some other →
      other = card ∨ card_received_sequence other < card_received_sequence card.
Proof.
  intros Hinv Hrun Hcode. pose proof Hrun as Hok. apply handle_sync_run in Hok as [Hinv' _]; [|exact Hinv].
  split; [exact Hinv'|]. unfold handle_sync in Hrun. ok_in Hrun as refusal w1 Hun.
  apply handle_unlocked_spec in Hun as (Hinv1 & _ & Hearly); [|exact Hinv].
  destruct refusal as [refusal|].
  { injection Hrun as -> <-. destruct (Hearly _ eq_refl) as (_ & _ & Hbad & _). congruence. }
  ok_in Hrun as u w2 H2. apply st_lift_Ok in H2 as [_ ->]. unfold handle_locked in Hrun.
  ok_in Hrun as n w2 H2. apply live_count_spec in H2 as (Hinv2 & _ & _); [|exact Hinv1].
  ok_in Hrun as existing w3 H3. apply st_map_err_Ok in H3. apply redb_get_spec in H3 as (Hinv3 & _ & _); [|done].
  destruct existing as [card|]; [by destruct (bool_decide _); injection Hrun as <- _|].
  ok_in Hrun as inserted w4 H4. apply st_map_err_Ok in H4. cbn in H4.
  ok_in Hrun as n' w5 H5. injection Hrun as <- <-. cbn in Hcode.
  destruct (ic_inserted inserted) eqn:Hins; [|done].
  pose proof (insert_offer_card_keeps (mkOfferCardInput source (an_offer_id announcement)
    (an_descriptor announcement) Available) w3 Hinv3) as Hinv4. rewrite H4 in Hinv4.
  apply live_count_spec in H5 as (_ & Hsame & _); [|exact Hinv4]. cbn in Hsame.
  apply insert_offer_card_Ok in H4 as [(_ & _ & Hno & _)|(_ & _ & Hrec & Happ & _)]; [congruence|].
  destruct Happ as (kept & Hsub & Hafter & _ & _ & _ & Hless). cbn in Hafter, Hrec.
  exists (ic_record inserted). rewrite Hsame, Hafter, lookup_insert_eq, Hrec. cbn. split_and!; try done.
  intros key other [[_ <-]|[_ Hother]]%lookup_insert_Some; [left; by rewrite <- Hrec|right].
  rewrite Hrec in Hless. eapply Hless, lookup_weaken; [exact Hother|exact Hsub].
Qed.

(** C39: The shelf is searched by offer id alone, while its cards belong to a device and an
    offer.  A peer that announces an id it knows from the announcement of another device gets
    a card of its own, and from then on every activation of that id, also one that is meant
    for the other device's card, is planned for this peer and what it offers. *)
Theorem reannounced_offer_is_captured poisoned source own announcement w k w' c activation g mode
    (s : Resident (World FS)) plan s' :
  store_inv (w_db w) → handle_sync poisoned source own announcement w = (Ok k, w') →
  ack_code k = Ack_Stored → w_db (re_store s) = w_db w' →
  plan_activation c activation g (an_offer_id announcement) mode s = (Ok plan, s') →
  ap_source_device plan = source ∧ ap_descriptor plan = an_descriptor announcement.
Proof.
  intros Hinv Hannounce Hcode Hdb Hplan.
  apply stored_is_newest in Hannounce as (Hinv' & card & Hcard & Hsource & Hid & Hdesc & Hmax); [|done..].
  unfold plan_activation in Hplan. ok_in Hplan as shelf s1 Hread. unfold read_shelf in Hread.
  destruct (co_cards c); [|done]. apply st_map_err_Ok, on_offers_run in Hread as (Hread & _ & _).
  apply read_newest_Ok in Hread as (_ & Hsorted & Hperm); [|apply _]. rewrite Hdb in Hperm.
  change (OfferStore.view (t_get OFFER_CARDS_V2 (w_db w'))) with (cards_of (w_db w')) in Hperm.
  assert (find (λ card, bool_decide (card_offer_id card = an_offer_id announcement)) shelf = Some card) as Hfind.
  { apply find_newest; [done| |by apply bool_decide_eq_true|].
    - rewrite Hperm. apply list_elem_of_fmap. eexists (_, card). split; [done|].
      by apply elem_of_map_to_list.
    - intros other Hin. rewrite Hperm in Hin. apply list_elem_of_fmap in Hin as ([key x] & -> & Hin).
      apply elem_of_map_to_list in Hin. by eapply Hmax. }
  rewrite Hfind in Hplan. ok_in Hplan as found s2 H2. apply st_lift_Ok in H2 as [[= <-] ->].
  ok_in Hplan as u1 s2 H2. ok_in Hplan as u2 s3 H3. ok_in Hplan as destination s4 H4.
  injection Hplan as <- _. by rewrite Hsource, Hdesc.
Qed.
End captured.

(** ** Sample *)

Module ShelfSample.
Import StoreSample AnnounceSample.
#[local] Existing Instances RegistrySample.sample_atomic RegistrySample.sample_json.

(** The card of a laptop, and then the announcement of its offer id by another peer. *)
Definition laptop : OfferCardInput :=
  mkOfferCardInput (mkDeviceId 2) (mkOfferId 9) (Descriptor_File (str "report.txt") 5) Available.
Definition before : World () := after (insert_offer_card laptop) empty_world.
Definition coordinator : Coordinator :=
  with_card_store (coordinator_new RegistrySample.own RegistrySample.store).
Definition resident (w : World ()) : Resident (World ()) := mkResident (mkHost None []) w [] 0.
Definition planning (w : World ()) : result rstr ActivationPlan * Resident (World ()) :=
  plan_activation coordinator (mkActivationId 5) RegistrySample.other (mkOfferId 9) Mode_Clipboard
    (resident w).

Lemma before_ok : store_inv (w_db before).
Proof.
  exact (insert_offer_card_keeps laptop empty_world store_inv_empty).
Qed.

(** Before the announcement the laptop's file is planned, after it the peer's text. *)
Lemma reannounced_offer_is_captured_witness :
  (∃ plan s, planning before = (Ok plan, s) ∧ ap_source_device plan = mkDeviceId 2) ∧
  ∃ k w plan s, handle announcement before = (Ok k, w) ∧ planning w = (Ok plan, s) ∧
    ap_source_device plan = peer_device ∧ ap_descriptor plan = text_offer.
Proof.
  split; [do 2 eexists; split; [vm_compute; reflexivity|reflexivity]|].
  destruct (handle announcement before) as [[k|e] w] eqn:Hrun;
    [|exfalso; vm_compute in Hrun; discriminate Hrun].
  destruct (planning w) as [[plan|e] s] eqn:Hplan.
  2: { exfalso. vm_compute in Hrun. injection Hrun as _ <-. vm_compute in Hplan. discriminate Hplan. }
  exists k, w, plan, s. split; [reflexivity|]. split; [exact Hplan|].
  apply (reannounced_offer_is_captured false peer_device own_device announcement before k w
    coordinator (mkActivationId 5) RegistrySample.other Mode_Clipboard (resident w) plan s
    before_ok Hrun); [|reflexivity|exact Hplan].
  vm_compute in Hrun. injection Hrun as <- _. reflexivity.
Defined.
End ShelfSample.
