(* ===== verification/Terminal.v ===== *)
(** * The terminal program

    Models [apps/meshelfctl/src/main.rs]: the trust gate and the runtime of [meshelfctl serve],
    and the commands that talk to a resident over the local control channel.  An error is the
    chain of its messages, the outermost context first.  Standard output is open; what the
    uuid crate parses and what derives print are arguments. *)

From S2P Require Import Prelude RustStr StdIo Utf8 Offer Records Clipboard Identity Names Protocol OfferStore Ledger Activation Filesystem LocalChannel Announce Connection Manifest Transfer Receiver ReceiverContent ReceiverSafety ReceiverTree ReceiverSave SavedTree Fetching Source Sender Discovery Registry Coordinator Controller Serving Programs.

(** ** The trust gate *)

Section gate.
Context {SigningKey : Type} {ed : Ed25519 SigningKey}.
Context {client_json : Json ClientHello}.
Context {state_json : Json InstallationState} {atomic : AtomicWriteFile}.

(** [HeadlessTrustGate::authorize] *)
Definition HeadlessTrustGate (store : InstallationStore) (generated identity : DeviceId)
    (h : Host) : TrustGate := λ remote hello,
  match (load_for_identity store generated identity h).1 with
  | Err _ => state_unavailable
  | Ok state =>
      match by_device_id (is_peers state) (ch_device_id hello) with
      | Some peer => if registered (SigningKey := SigningKey) remote hello peer then Allow else key_mismatch
      | None => not_approved
      end
  end.
#[export] Instance headless_paired store generated identity :
  PairedGate (SigningKey := SigningKey) generated identity store
    (HeadlessTrustGate store generated identity).
Proof.
  intros h remote hello. unfold HeadlessTrustGate.
  destruct (load_for_identity store generated identity h).1 as [state|e]; [|split; [done|naive_solver]].
  destruct (by_device_id (is_peers state) (ch_device_id hello)) as [peer|] eqn:Hpeer;
    [|split; [done|naive_solver]].
  destruct (registered remote hello peer) eqn:Hreg.
  - split; [|done]. intros _. by exists state, peer.
  - split; [done|]. intros (? & ? & [= <-] & ? & ?). congruence.
Qed.
End gate.

(** [HeadlessActivationClipboard], from what its worker answers if it has one. *)
Definition headless_unavailable : ClipboardError :=
  clipboard_error_new (str "clipboard is unavailable for this activation").
Definition headless_set_text (worker : option (result ClipboardError ())) : result ClipboardError () :=
  default (Err headless_unavailable) worker.
Definition headless_set_files (worker : option (result PlatformClipboardError ()))
    : result ClipboardError () :=
  default (Err headless_unavailable) (map_err clipboard_of_platform <$> worker).

(** ** The runtime of [serve] *)

Section runtime.
Context {SigningKey : Type} {ed : Ed25519 SigningKey}.
Context {client_json : Json ClientHello} {server_json : Json ServerHello}.
Context {wire_json : Json WireMessage} {message_json : Json V2Message}.
Context {dirs : ReadDirOrder} {hash_set : HashSetOrder} {renamore : Renamore} {fs2 : Fs2}.
Context {iter : RedbIter} {uuid : UuidText} {debug : DebugText} {lower : Lowercase} {sha : Sha256}.
Context {source_json : Json OfferSourceRecord} {card_json : Json OfferCardRecord}.
Context {journal_json : Json ActivationJournalEntry} {cache_json : Json ClipboardCacheRecord}.
Context {entries_json : Json (list ManifestEntry)} {order : JoinOrder}.
Context {state_json : Json InstallationState} {atomic : AtomicWriteFile}.
Context (state_root : PathBuf) (attempts : ActivationId → Attempt) (download_dir : option PathBuf).
Context (store : InstallationStore) (generated : ActivationId → DeviceId).
Context (identity : InstallationIdentity SigningKey) (device_name : rstr).
Context (fanouts : OfferId → Fanout).

(** [run_headless_activation] *)
Definition run_headless_activation (input : ActivationInput) (cancel : Cancellation)
    : St (Process ()) (Stop rstr) ActivationOutcome :=
  run_activation (SigningKey := SigningKey) state_root attempts input cancel.

(** The state is loaded from the file for every activation. *)
Definition load_state (plan : ActivationPlan)
    : St (Resident (Process ())) (Stop rstr) InstallationState :=
  st_map_err Fails (on_host (str "could not load meshelf state: ")
    (load_for_identity store (generated (ap_activation_id plan)) (ii_device_id identity))).
Definition headless_activate (plan : ActivationPlan)
    : St (Resident (Process ())) (Stop rstr) ActivationOutcome :=
  state ← load_state plan;
  peer ← st_lift (peer_for state plan);
  input ← st_lift (input_for download_dir identity device_name plan peer);
  on_offers (run_headless_activation input never_cancelled).

(** [announce_offer_plan] drops the progress. *)
Definition headless_announce (plan : OfferPlan) : St (Resident (Process ())) rstr rstr :=
  report ← fan_out store identity device_name fanouts plan;
  st_lift (report_announce_outcome report.1).

Definition HeadlessRuntime : LocalRuntime (Resident (Process ())) :=
  mkLocalRuntime headless_announce headless_activate.
End runtime.

(** *** A completed save *)

Section saving.
Context {SigningKey : Type} {ed : Ed25519 SigningKey}.
Context {client_json : Json ClientHello} {server_json : Json ServerHello}.
Context {wire_json : Json WireMessage} {message_json : Json V2Message}.
Context {message_types : V2Typed}.
Context {dirs : ReadDirOrder} {dirs_laws : ReadDirOrderLaws}.
Context {hash_set : HashSetOrder} {hash_laws : HashSetOrderLaws}.
Context {renamore : Renamore} {renamore_laws : RenamoreLaws} {fs2 : Fs2} {fs2_laws : Fs2Laws}.
Context {iter : RedbIter} {iter_laws : RedbIterLaws}.
Context {uuid : UuidText} {uuid_laws : UuidTextLaws} {uuid_plain : UuidTextPlain}.
Context {debug : DebugText} {lower : Lowercase} {sha : Sha256}.
Context {source_json : Json OfferSourceRecord} {card_json : Json OfferCardRecord}.
Context {journal_json : Json ActivationJournalEntry} {cache_json : Json ClipboardCacheRecord}.
Context {entries_json : Json (list ManifestEntry)} {order : JoinOrder}.
Context {state_json : Json InstallationState} {atomic : AtomicWriteFile}.
Context (state_root : PathBuf) (Hroot : Forall valid_name (components state_root)).
Context (attempts : ActivationId → Attempt) (download_dir : option PathBuf).
Context (store : InstallationStore) (generated : ActivationId → DeviceId).
Context (identity : InstallationIdentity SigningKey).

(** [serve] knows the peers of the state file. *)
Definition in_file (s : Resident (Process ())) (device : DeviceId) (peer : TrustedPeer) : Prop :=
  ∃ g state, stored_state g (ii_device_id identity) (ho_file (re_host s)) = Some state ∧
    by_device_id (is_peers state) device = Some peer.

#[export] Instance headless_saves device_name fanouts :
  SavingRuntime (SigningKey := SigningKey) state_root attempts download_dir
    (HeadlessRuntime state_root attempts download_dir store generated identity device_name fanouts) in_file.
Proof.
  intros plan s s' Hready Hmode Hplain Hrun. cbn [lr_activate HeadlessRuntime] in Hrun.
  unfold headless_activate in Hrun. ok_in Hrun as state s1 Hload. unfold load_state in Hload.
  apply st_map_err_Ok in Hload. pose proof Hload as Hsame. apply on_host_same in Hsame as [Hstore _].
  unfold on_host in Hload. destruct (load_for_identity _ _ _ _) as [r h] eqn:Hfile.
  injection Hload as Hr _. apply map_err_Ok in Hr as ->. apply load_for_identity_spec in Hfile as [_ Hstate].
  ok_in Hrun as peer s2 Hpeer. apply st_lift_Ok in Hpeer as [Hpeer ->].
  ok_in Hrun as input s2 Hinput. apply st_lift_Ok in Hinput as [Hinput ->].
  apply on_offers_run in Hrun as (Hrun & _ & _). rewrite Hstore in Hrun.
  eapply (planned_save state_root Hroot) in Hrun as (directory & card & Hdir & Hfetched & Hcard);
    [|done..|exact Hinput].
  exists directory, peer, card. split_and!; try done.
  exists (generated (ap_activation_id plan)), state. split; [by apply Hstate|by apply peer_for_Ok].
Qed.
End saving.

(** ** The command line *)

(** An [anyhow::Error]: its messages, the outermost context first. *)
Notation Anyhow := (list rstr).
Definition context {T} (text : rstr) (r : result Anyhow T) : result Anyhow T := map_err (cons text) r.
Definition context_of {T} (text : rstr) (o : option T) : result Anyhow T := ok_or o [text].
Definition bail {T} (text : rstr) : result Anyhow T := Err [text].
Definition io {T} (r : result IoError T) : result Anyhow T := map_err (λ e, [io_message e]) r.

(** [--peer], which [while let] over the arguments takes with the next one. *)
Fixpoint take_peer_selector_from (selector : option rstr) (remaining args : list rstr)
    : result Anyhow (option rstr * list rstr) :=
  match args with
  | [] => Ok (selector, remaining)
  | arg :: args =>
      if bool_decide (arg = str "--peer") then
        match args with
        | value :: args => take_peer_selector_from (Some value) remaining args
        | [] => bail (str "--peer requires a hostname or device ID")
        end
      else take_peer_selector_from selector (remaining ++ [arg]) args
  end.
Definition take_peer_selector : list rstr → result Anyhow (option rstr * list rstr) :=
  take_peer_selector_from None [].
Definition has_flag (args : list rstr) (flag : rstr) : bool := bool_decide (flag ∈ args).

Inductive SendSource := Send_Text (text : rstr) | Send_Stdin | Send_Clipboard.
Fixpoint parse_send_source_from (source : option SendSource) (args : list rstr)
    : result Anyhow SendSource :=
  match args with
  | [] => context_of (str "send requires --clipboard, --stdin, or --text") source
  | arg :: args =>
      let chosen candidate args :=
        if bool_decide (is_Some source)
        then bail (str "choose exactly one of --clipboard, --stdin, or --text")
        else parse_send_source_from (Some candidate) args in
      if bool_decide (arg = str "--clipboard") then chosen Send_Clipboard args
      else if bool_decide (arg = str "--stdin") then chosen Send_Stdin args
      else if bool_decide (arg = str "--text") then
        match args with
        | value :: args => chosen (Send_Text value) args
        | [] => bail (str "--text requires a value")
        end
      else bail (str "unknown send option: " ++ arg)
  end.

(** Standard input: what it delivers, and how it ends. *)
Record Stdin := mkStdin { in_bytes : bytes; in_end : option IoError }.

(** The disk and the last connection of the process, the credential store and the state file,
    and what it printed. *)
Record Terminal := mkTerminal { tm_client : Client; tm_keys : Keyring * Host; tm_out : rstr }.

Section commands.
Context {SigningKey : Type} {ed : Ed25519 SigningKey} {stored_json : Json StoredIdentity}.
Context {state_json : Json InstallationState} {atomic : AtomicWriteFile}.
Context {uuid : UuidText} {request_json : Json LocalRequest} {response_json : Json LocalResponse}.
(** The key and the device that are generated where none is stored, and the name of the
    device. *)
Context (generated_identity : InstallationIdentity SigningKey) (generated : DeviceId).
Context (device_name : rstr).
(** What connecting comes to, for each of the connections in turn; the directory of the
    configuration; standard input; what the clipboard worker reads. *)
Context (connect : nat → Z → result IoError Pipe) (config_dir : option PathBuf).
Context (stdin : Stdin) (utf8_error : bytes → rstr) (clipboard : result rstr ClipboardItem).
Context (parse_offer_id : rstr → result rstr OfferId) (response_debug : LocalResponse → rstr).
Notation M := (St Terminal Anyhow).

Definition println (line : rstr) : M () :=
  st_modify (λ t, mkTerminal (tm_client t) (tm_keys t) (tm_out t ++ line ++ [10])).

(** [take(MAX_TEXT_BYTES + 1)] and [read_to_end]. *)
Definition read_bounded_stdin : result Anyhow rstr :=
  let read := take (Z.to_nat (MAX_TEXT_BYTES + 1)) (in_bytes stdin) in
  match in_end stdin with
  | Some error =>
      refuse_if (zlen (in_bytes stdin) <=? MAX_TEXT_BYTES) [io_message error]
  | None => Ok ()
  end;;
  refuse_if (MAX_TEXT_BYTES <? zlen read) [str "stdin text exceeds the 1 MiB meshelf limit"];;
  ok_or (from_utf8 read) [str "stdin is not valid UTF-8"; utf8_error read].

(** [config_dir()?] *)
Definition configuration : result Anyhow PathBuf :=
  dir ← context_of (str "could not determine the per-user configuration directory") config_dir;
  mret (join dir (str "meshelf")).

(** A call on the disk or a connection, with the context of its error. *)
Definition on_client {T} (m : St Client IoError T) (f : result Anyhow T → result Anyhow T) : M T := λ t,
  let '(r, c) := m (tm_client t) in (f (io r), mkTerminal c (tm_keys t) (tm_out t)).
(** The exchange of every command, on the connection [i]. *)
Definition control (i : nat) (config : result Anyhow PathBuf) (request : LocalRequest)
    : M LocalResponse :=
  encoded ← st_lift (io (encode_request request));
  config ← st_lift config;
  response ← on_client (LocalChannel.request (connect i) config encoded)
               (context (str "could not contact the meshelf resident"));
  st_lift (map_err (λ e, [e]) (json_from_slice response)).

Definition unexpected (response : LocalResponse) : rstr :=
  str "resident returned an unexpected response: " ++ response_debug response.
Definition show_offer (offer_id : OfferId) : rstr := uuid_to_string (OfferId_as_uuid offer_id).

Definition submit_announce_request (i : nat) (config : PathBuf) (request : LocalRequest) : M () :=
  response ← control i (Ok config) request;
  match response with
  | OfferCreated offer_id _ _ status =>
      println (str "Announced offer " ++ show_offer offer_id ++ str ": " ++ status)
  | NoPeers => st_lift (bail (str "no other meshelf device is paired"))
  | Response_Error message => st_lift (bail message)
  | other => st_lift (bail (unexpected other))
  end.

(** The command [send]: one request, or one for each file of the clipboard. *)
Definition send_requests (source : SendSource) : result Anyhow (list LocalRequest) :=
  match source with
  | Send_Text text => Ok [AnnounceText text]
  | Send_Stdin => text ← read_bounded_stdin; mret [AnnounceText text]
  | Send_Clipboard =>
      item ← map_err (λ e, [e]) clipboard;
      mret (match item with
            | Item_Text text => [AnnounceText text]
            | Item_Files paths => map AnnouncePath paths
            end)
  end.
Fixpoint submit_all (i : nat) (config : PathBuf) (requests : list LocalRequest) : M () :=
  match requests with
  | [] => mret ()
  | request :: requests =>
      submit_announce_request i config request;; submit_all (i + 1) config requests
  end.
(** What [main] does for every command that is not one of the control channel alone. *)
Definition on_keys {T} (m : St (Keyring * Host) rstr T) : M T := λ t,
  let '(r, keys) := m (tm_keys t) in
  (map_err (λ e, [e]) r, mkTerminal (tm_client t) keys (tm_out t)).
Definition load_controller (config : PathBuf) : M (ControllerConfig SigningKey * Controller) :=
  on_client (on_files (create_dir_all config)) (λ r, r);;
  on_keys (controller_load generated_identity generated (join config (str "state.json")) device_name).
Definition run_send (args : list rstr) : M () :=
  parsed ← st_lift (take_peer_selector args);
  let '(selector, options) := parsed in
  config ← st_lift configuration;
  load_controller config;;
  st_lift (refuse_if (bool_decide (is_Some selector))
    [str "meshelf sends are mesh-wide; --peer is not supported for send"]);;
  source ← st_lift (parse_send_source_from None options);
  requests ← st_lift (send_requests source);
  submit_all 0 config requests.

(** The source of [announce]. *)
Fixpoint parse_announce_from (source : option LocalRequest) (args : list rstr)
    : result Anyhow LocalRequest :=
  match args with
  | [] => context_of (str "announce requires --clipboard, --text, --stdin, or --path") source
  | arg :: args =>
      let chosen candidate args :=
        if bool_decide (is_Some source)
        then bail (str "choose exactly one of --text, --stdin, or --path")
        else parse_announce_from (Some candidate) args in
      if bool_decide (arg = str "--clipboard") then
        item ← map_err (λ e, [e]) clipboard;
        match item with
        | Item_Text text => chosen (AnnounceText text) args
        | Item_Files [path] => chosen (AnnouncePath path) args
        | Item_Files paths =>
            bail (str "announce --clipboard requires one file or folder; clipboard contains "
                  ++ show_int (zlen paths))
        end
      else if bool_decide (arg = str "--text") then
        match args with
        | value :: args => chosen (AnnounceText value) args
        | [] => bail (str "--text requires a value")
        end
      else if bool_decide (arg = str "--stdin") then
        text ← read_bounded_stdin;
        chosen (AnnounceText text) args
      else if bool_decide (arg = str "--path") then
        match args with
        | value :: args => chosen (AnnouncePath value) args
        | [] => bail (str "--path requires a value")
        end
      else bail (str "unknown announce option: " ++ arg)
  end.
Definition run_announce (args : list rstr) : M () :=
  request ← st_lift (parse_announce_from None args);
  response ← control 0 configuration request;
  match response with
  | OfferCreated offer_id _ _ status =>
      println (str "Announced offer " ++ show_offer offer_id ++ str ": " ++ status)
  | NoPeers => st_lift (bail (str "no other meshelf device is paired"))
  | Response_Error message => st_lift (bail message)
  | _ => st_lift (bail (str "resident returned an unexpected response"))
  end.

Definition descriptor_kind (descriptor : OfferDescriptor) : rstr :=
  match descriptor with
  | Descriptor_Text _ _ _ => str "text"
  | Descriptor_File _ _ => str "file"
  | Descriptor_Folder _ _ _ _ _ => str "folder"
  end.
Definition shelf_line (offer : OfferCardRecord) : rstr :=
  show_offer (card_offer_id offer) ++ [9]
  ++ uuid_to_string (DeviceId_as_uuid (card_source_device offer)) ++ [9]
  ++ descriptor_kind (card_descriptor offer).
Definition run_shelf (args : list rstr) : M () :=
  st_lift (refuse_if (negb (bool_decide (args = []))) [str "shelf does not accept options"]);;
  response ← control 0 configuration Shelf;
  match response with
  | Response_Shelf offers => st_for offers (λ offer, println (shelf_line offer))
  | Response_Error message => st_lift (bail message)
  | other => st_lift (bail (unexpected other))
  end.

Fixpoint parse_activate_options (mode : ActivationMode) (args : list rstr)
    : result Anyhow ActivationMode :=
  match args with
  | [] => Ok mode
  | arg :: args =>
      if bool_decide (arg = str "--save") then parse_activate_options Mode_Save args
      else bail (str "unknown activate option: " ++ arg)
  end.
Definition parse_activate (args : list rstr) : result Anyhow (OfferId * ActivationMode) :=
  text ← context_of (str "activate requires OFFER_ID") (head args);
  offer_id ← context (str "OFFER_ID is not a valid offer ID")
               (map_err (λ e, [e]) (parse_offer_id text));
  mode ← parse_activate_options Mode_Clipboard (tail args);
  mret (offer_id, mode).
Definition mode_debug (mode : ActivationMode) : rstr :=
  match mode with Mode_Clipboard => str "Clipboard" | Mode_Save => str "Save" end.
Definition completed_line (activation_id : ActivationId) (offer_id : OfferId) (mode : ActivationMode)
    (files_processed bytes_processed : Z) : rstr :=
  str "activation " ++ uuid_to_string (ActivationId_as_uuid activation_id) ++ str " completed for "
  ++ show_offer offer_id ++ str " (" ++ mode_debug mode ++ str "; files "
  ++ show_int files_processed ++ str ", bytes " ++ show_int bytes_processed ++ str ")".
Definition run_activate (args : list rstr) : M () :=
  parsed ← st_lift (parse_activate args);
  let '(offer_id, mode) := parsed in
  response ← control 0 configuration (ActivateOffer offer_id mode);
  match response with
  | ActivationCompleted activation_id offer_id mode files_processed bytes_processed =>
      println (completed_line activation_id offer_id mode files_processed bytes_processed)
  | ActivationCancelled _ => st_lift (bail (str "activation cancelled"))
  | ActivationRefused message | Response_Error message => st_lift (bail message)
  | other => st_lift (bail (unexpected other))
  end.
End commands.

(** ** What a command that succeeds has done *)

Section succeeded.
Context {SigningKey : Type} {ed : Ed25519 SigningKey}.
Context {client_json : Json ClientHello} {server_json : Json ServerHello}.
Context {wire_json : Json WireMessage} {message_json : Json V2Message}.
Context {message_types : V2Typed}.
Context {dirs : ReadDirOrder} {dirs_laws : ReadDirOrderLaws}.
Context {hash_set : HashSetOrder} {hash_laws : HashSetOrderLaws}.
Context {renamore : Renamore} {renamore_laws : RenamoreLaws} {fs2 : Fs2} {fs2_laws : Fs2Laws}.
Context {iter : RedbIter} {iter_laws : RedbIterLaws}.
Context {uuid : UuidText} {uuid_laws : UuidTextLaws} {uuid_plain : UuidTextPlain}.
Context {debug : DebugText} {lower : Lowercase} {sha : Sha256}.
Context {source_json : Json OfferSourceRecord} {card_json : Json OfferCardRecord}.
Context {journal_json : Json ActivationJournalEntry} {cache_json : Json ClipboardCacheRecord}.
Context {entries_json : Json (list ManifestEntry)} {order : JoinOrder} {views : Views}.
Context {state_json : Json InstallationState} {atomic : AtomicWriteFile}.
Context {request_json : Json LocalRequest} {request_laws : JsonLaws LocalRequest}.
Context {response_json : Json LocalResponse} {response_laws : JsonLaws LocalResponse}.
Context (state_root : PathBuf) (attempts : ActivationId → Attempt) (download_dir : option PathBuf).
Context {A : Type} (runtime : LocalRuntime (Resident (Process A))).
Context (paired : Resident (Process A) → DeviceId → TrustedPeer → Prop).
Context {saves : SavingRuntime (SigningKey := SigningKey) state_root attempts download_dir runtime paired}.

Section client.
Context (connect : nat → Z → result IoError Pipe) (config_dir : option PathBuf).

Lemma io_Ok {T} (r : result IoError T) x : io r = Ok x → r = Ok x.
Proof. unfold io. apply map_err_Ok. Qed.

(** An exchange that came to a response, over the activation file and one connection. *)
Lemma control_Ok i config request t response t' :
  control connect i config request t = (Ok response, t') →
  ∃ path port token encoded pipe pipe' answer,
    config = Ok path ∧ encode_request request = Ok encoded ∧
    (read_activation (join path ACTIVATION_FILE) (cl_disk (tm_client t))).1 = Ok (port, token) ∧
    connect i port = Ok pipe ∧ request_over token encoded pipe = (Ok answer, pipe') ∧
    cl_pipe (tm_client t') = Some pipe' ∧ json_from_slice answer = Ok response ∧
    tm_out t' = tm_out t.
Proof.
  unfold control. intros Hrun. ok_in Hrun as encoded t1 H1. apply st_lift_Ok in H1 as [Henc%io_Ok ->].
  ok_in Hrun as path t1 H1. apply st_lift_Ok in H1 as [-> ->].
  ok_in Hrun as answer t1 H1. apply st_lift_Ok in Hrun as [Hdec%map_err_Ok ->].
  unfold on_client in H1. destruct (LocalChannel.request _ _ _ _) as [r c] eqn:Hreq.
  injection H1 as Hr <-. unfold context in Hr. apply map_err_Ok, io_Ok in Hr as ->.
  unfold LocalChannel.request in Hreq. ok_in Hreq as u c1 H1. apply st_lift_Ok in H1 as [_ ->].
  ok_in Hreq as activation c1 H1. destruct activation as [port token]. unfold on_files in H1.
  destruct (read_activation _ _) as [ra d] eqn:Hfile. injection H1 as -> <-.
  unfold connected in Hreq. destruct (connect i port) as [pipe|e] eqn:Hconn; [|done].
  destruct (request_over token encoded pipe) as [ro pipe'] eqn:Hover. injection Hreq as -> <-.
  exists path, port, token, encoded, pipe, pipe', answer. rewrite Hfile. by split_and!.
Qed.
End client.

(** A request that came to a response was dispatched by the resident, with this response. *)
Lemma exchange_dispatched on_activate c draws token request encoded answer response pipe pipe' s p r v' :
  conversed pipe pipe' p (sv_pipe v') →
  encode_request request = Ok encoded → request_over token encoded pipe = (Ok answer, pipe') →
  json_from_slice answer = Ok response →
  handle_connection on_activate (λ b, dispatch_bytes_with_runtime c draws b runtime) token
    (mkServed s p) = (r, v') →
  dispatch_with_runtime c draws request runtime s = (Ok response, sv_state v').
Proof.
  intros Hconv Henc Hover Hdec Hserver.
  eapply answer_for_request in Hserver as Hdispatch; [|exact Hconv|exact Hover].
  cbv beta in Hdispatch. unfold dispatch_bytes_with_runtime in Hdispatch.
  ok_in Hdispatch as request' s1 H1. unfold lift_stop in H1. apply st_lift_Ok in H1 as [Hreq%map_err_Ok ->].
  apply request_round_trip in Henc as (Hround & _). rewrite Hround in Hreq. injection Hreq as <-.
  ok_in Hdispatch as response' s1 H1. unfold map_stop in H1. apply st_map_err_Ok in H1.
  unfold lift_stop in Hdispatch. apply st_lift_Ok in Hdispatch as [Hvec%map_err_Ok%map_err_Ok Hs].
  rewrite (json_round_trip _ _ Hvec) in Hdec. injection Hdec as <-. by rewrite Hs.
Qed.

(** C2: When [meshelfctl activate OFFER_ID --save] succeeds, the resident that answered it has
    saved the offer: over every disk, network, connection and peer, the line it prints is
    true, and the directory that the resident's settings name holds, under one portable name
    that was free, the tree of the card that was on its shelf, from a peer that proved to be
    its source. *)
Theorem activate_save_succeeds connect config_dir parse_offer_id response_debug args offer_id t t'
    on_activate c draws port token s p r v' :
  run_activate connect config_dir parse_offer_id response_debug args t = (Ok (), t') →
  parse_activate parse_offer_id args = Ok (offer_id, Mode_Save) →
  (∀ path, configuration config_dir = Ok path →
     (read_activation (join path ACTIVATION_FILE) (cl_disk (tm_client t))).1 = Ok (port, token)) →
  handle_connection on_activate (λ b, dispatch_bytes_with_runtime c draws b runtime) token
    (mkServed s p) = (r, v') →
  (∀ pipe pipe', connect 0%nat port = Ok pipe → cl_pipe (tm_client t') = Some pipe' →
     conversed pipe pipe' p (sv_pipe v')) →
  process_ready state_root (re_store s) → settings_plain state_root download_dir c draws s →
  ∃ activation files count,
    tm_out t' = tm_out t ++ completed_line activation offer_id Mode_Save files count ++ [10] ∧
    saved_as_reported (SigningKey := SigningKey) state_root attempts download_dir paired c draws s
      activation offer_id files count (sv_state v').
Proof.
  intros Hrun Hargs Hfile Hserver Hconv Hready Hplain. unfold run_activate in Hrun.
  ok_in Hrun as parsed t1 H1. apply st_lift_Ok in H1 as [Hparsed ->].
  rewrite Hargs in Hparsed. injection Hparsed as <-.
  ok_in Hrun as response t1 Hcontrol. apply control_Ok in Hcontrol
    as (path & port' & token' & encoded & pipe & pipe' & answer & Hpath & Henc & Hact & Hconn & Hover
        & Hpipe & Hdec & Hout).
  rewrite (Hfile _ Hpath) in Hact. injection Hact as <- <-.
  destruct response as [| | | | |activation o m files count| | |]; try discriminate Hrun.
  injection Hrun as <-. cbn in Hconv.
  pose proof (exchange_dispatched _ _ _ _ _ _ _ _ _ _ _ _ _ _ (Hconv _ _ Hconn Hpipe) Henc Hover
    Hdec Hserver) as Hdispatch.
  pose proof Hdispatch as Hanswer. apply completed_answer in Hanswer as ([= <- <-] & _).
  exists activation, files, count. split; [cbn; by rewrite Hout|].
  by eapply (completed_save state_root attempts download_dir runtime paired).
Qed.
End succeeded.
