(* ===== verification/Startup.v ===== *)
(** * The start of a resident

    What [meshelfctl serve] and the desktop program do before they serve: the resident lock,
    the controller, the offer store with its migration, the recovery of activations, the
    listener on the tailnet and the local control channel ([run_serve] and
    [start_v2_listener] of [apps/meshelfctl/src/main.rs], [main] of
    [apps/desktop/src/main.rs]).  The process that such a start leaves is the one that the
    theorems about activations begin with. *)

From S2P Require Import Prelude RustStr StdIo Offer Records Identity Names Protocol OfferStore Ledger Activation Filesystem LocalChannel Announce Connection Manifest Transfer Receiver ReceiverFrame ReceiverSafety Sender Discovery Registry Coordinator Controller Serving Programs Desktop Terminal.

(** ** What the start does to the disk *)

Section ready.
Context {order : ReadDirOrder} {order_laws : ReadDirOrderLaws} (home : place).

(** Everything may be created and removed, but no link is made on the way to the staging area
    or in it. *)
Program Definition startup_footprint : Footprint :=
  mkFootprint [home] (λ _ _, True) (λ _, True) ∅ [] _.
Next Obligation. by intros q ?%elem_of_nil. Qed.
Notation F := startup_footprint.
Lemma good_ready d : good F d ↔ disk_ready home d.
Proof.
  split.
  - intros []. split; [done| |done]. intros q target Hq. destruct (gd_clean _ _ Hq) as [Ho Hw].
    simpl in Ho, Hw. by rewrite owned_only in Ho; rewrite on_way_only in Hw.
  - intros [Ht Hl Hf]. split; simpl; [done| |done|done|by intros q ?%elem_of_nil].
    intros q target Hq. simpl. rewrite owned_only, on_way_only. by eapply Hl.
Qed.
Lemma anything_removable path : removable F path.
Proof. by right. Qed.

Notation ready_kept := (inv_kept (disk_ready home)).
Lemma ready_same {E T} (m : St Disk E T) : keeps disk_same m → keeps ready_kept m.
Proof.
  intros Hm d [Ht Hl Hf]. specialize (Hm d). injection Hm as Hn Hi. split; rewrite ?Hn, ?Hi; done.
Qed.
Lemma ready_steps {E T} (m : St Disk E T) :
  (∀ d r d', good F d → m d = (r, d') → fs_step F d d') → keeps ready_kept m.
Proof.
  intros Hm d Hd. apply good_ready in Hd. destruct (m d) as [r d'] eqn:Hrun.
  apply good_ready. by apply (Hm _ _ _ Hd Hrun).
Qed.

Lemma ready_create_dir path : keeps ready_kept (create_dir path).
Proof.
  apply ready_steps. intros d r d' Hd Hrun.
  apply create_dir_run in Hrun as [(e & _ & Hun)|(_ & q & Hl & Hfree & Hn & Hi)];
    [by apply unchanged_step|].
  eapply (create_at F d d' q Dir); try done. eauto.
Qed.
Lemma ready_is_dir path : keeps ready_kept (is_dir path).
Proof.
  apply ready_same. unfold is_dir. apply keeps_bind; [apply _|apply keeps_try|intros; apply keeps_ret, _].
  unfold metadata. keeps_tac.
Qed.
#[local] Hint Resolve ready_create_dir ready_is_dir : keeps.
Lemma ready_create_dir_all_from fuel path : keeps ready_kept (create_dir_all_from fuel path).
Proof.
  revert path. induction fuel as [|fuel IH]; intros path; cbn [create_dir_all_from]; keeps_tac.
Qed.
Lemma ready_create_dir_all path : keeps ready_kept (create_dir_all path).
Proof. apply ready_create_dir_all_from. Qed.
Lemma ready_open_or_create path : keeps ready_kept (open_or_create path).
Proof.
  apply ready_steps. intros d r d' Hd Hrun. unfold open_or_create in Hrun.
  step_in Hrun as u d1 H1; same_disk H1; [by apply step_same|].
  step_in Hrun as q d2 H2; apply fs_lookup_run in H2 as [H2 ->]; [by apply step_same|].
  unfold mbind, st_bind, st_get in Hrun.
  destruct (node_at (dk_nodes d1) q) as [[]|] eqn:Hnode;
    [injection Hrun as _ <-; by apply step_same..|]. injection Hrun as _ <-.
  assert (fs_step F d d1) as Hs1 by (by apply step_same). etrans; [exact Hs1|].
  set (i := fresh (dom (dk_inodes d1))).
  eapply (step_then F _ (set_inode i [] d1)); [by apply step_write|]. intros Hd1.
  eapply (create_at F (set_inode i [] d1) _ q (File i)); try done.
  - exists true, path. by rewrite (lookup_path_nodes _ _ d1).
  - intros j [= <-]. simpl. rewrite dom_insert. set_solver.
Qed.
Lemma ready_remove_file path : keeps ready_kept (remove_file path).
Proof.
  apply ready_steps. intros d r d' Hd Hrun. by eapply remove_file_step; [..|apply anything_removable|].
Qed.
Lemma ready_remove_tree path : keeps ready_kept (remove_owned_tree path).
Proof.
  apply ready_steps. intros d r d' Hd Hrun.
  by destruct (remove_owned_tree_run F path d r d' Hd (anything_removable path) Hrun).
Qed.
Lemma ready_begin : keeps ready_kept fs_begin.
Proof. apply ready_same, keeps_begin. Qed.
Lemma ready_metadata path : keeps ready_kept (symlink_metadata path).
Proof. apply ready_same, keeps_metadata. Qed.
Lemma ready_reject path : keeps ready_kept (reject_reparse_point path).
Proof. apply ready_same, keeps_reject. Qed.
Lemma ready_read_dir path : keeps ready_kept (read_dir path).
Proof. apply ready_same, keeps_read_dir. Qed.
#[local] Hint Resolve ready_create_dir_all ready_open_or_create ready_remove_file
  ready_remove_tree ready_begin ready_metadata ready_reject ready_read_dir : keeps.

Lemma ready_lock data_dir locked : keeps ready_kept (acquire_resident_lock data_dir locked).
Proof.
  unfold acquire_resident_lock. apply keeps_bind; [apply _|apply ready_create_dir_all|intros _].
  apply keeps_bind; [apply _|apply ready_open_or_create|intros _]. keeps_tac.
Qed.
Lemma ready_path_exists path : keeps ready_kept (path_exists path).
Proof. unfold path_exists. keeps_tac. Qed.
#[local] Hint Resolve ready_path_exists : keeps.
Lemma ready_partials path : keeps ready_kept (legacy_remove_partials path).
Proof. cbn. keeps_tac. Qed.
Lemma ready_remove_markers directory names removed :
  keeps ready_kept (remove_markers directory names removed).
Proof. revert removed. induction names as [|name names IH]; intros removed; cbn [remove_markers]; keeps_tac. Qed.
#[local] Hint Resolve ready_remove_markers : keeps.
Lemma ready_markers path : keeps ready_kept (legacy_remove_markers path).
Proof. cbn. unfold remove_completion_markers. keeps_tac. Qed.
End ready.

(** ** The directory of the program *)

Section data_dir.
Context (data_dir : PathBuf) (Hvalid : Forall valid_name (components data_dir)).
Notation home := (staging_home data_dir).
Notation F := (startup_footprint home).

Lemma data_dir_ours path : components path `prefix_of` components data_dir → ours F path.
Proof.
  intros Hpre. split.
  - destruct Hpre as [k Hk]. rewrite Hk, Forall_app in Hvalid. apply Hvalid.
  - right. simpl. rewrite on_way_only. etrans; [exact Hpre|]. by eexists.
Qed.
Lemma directory_solid d path :
  disk_ready home d → Forall valid_name (components path) →
  node_at (dk_nodes d) (components path) = Some Dir → solid (dk_nodes d) (components path).
Proof.
  intros [Htree _ _] Hv Hnode. split; [done|]. intros p [q Hq].
  destruct (decide (q = [])) as [->|Hne]; [by rewrite app_nil_r in Hq; rewrite <- Hq|].
  rewrite Hq, node_at_ne in Hnode by (by destruct p, q). by eapply node_above.
Qed.
Lemma is_dir_true path d d' :
  disk_ready home d → ours F path → is_dir path d = (Ok true, d') →
  dk_nodes d' = dk_nodes d ∧ node_at (dk_nodes d) (components path) = Some Dir.
Proof.
  intros Hd Hours Hrun. unfold is_dir in Hrun. ok_in Hrun as found d1 H1.
  apply (proj1 (st_try_Ok _ _ _ _)) in H1. injection Hrun as Hfound <-.
  apply bool_decide_eq_true in Hfound as ->. unfold metadata in H1.
  ok_in H1 as u d2 H2. same_disk H2. ok_in H1 as q d3 H3. apply fs_lookup_run in H3 as [H3 ->].
  ok_in H1 as n d3 H4. apply fs_node_run in H4 as [H4 ->]. injection H1 as Hn' <-.
  rewrite (lookup_path_nodes _ _ d) in H3 by done. symmetry in H3.
  apply (leads_ours F) in H3 as ->; [|by apply good_ready|done]. rewrite <- Hn. split; [done|].
  destruct (node_at _ _) as [m|]; [|done]. injection H4 as <-. by destruct n.
Qed.
Lemma create_dir_Ok path d d' :
  disk_ready home d → ours F path → create_dir path d = (Ok (), d') →
  node_at (dk_nodes d') (components path) = Some Dir.
Proof.
  intros Hd Hours Hrun. apply good_ready in Hd.
  apply (create_dir_step F) in Hrun as [_ Hdir]; [|done..].
  pose proof (Hdir eq_refl) as Hnode.
  destruct (decide (components path = [])) as [->|Hne]; [done|by rewrite node_at_ne].
Qed.
(** Once the directory was made or found, it is one, and nothing on the way to it is a link. *)
Lemma create_dir_all_solid path d d' :
  disk_ready home d → components path `prefix_of` components data_dir →
  create_dir_all path d = (Ok (), d') → solid (dk_nodes d') (components path).
Proof.
  intros Hd Hpre Hrun. pose proof (data_dir_ours _ Hpre) as Hours.
  pose proof (ready_create_dir_all home path d Hd) as Hd'. rewrite Hrun in Hd'. cbn in Hd'.
  apply directory_solid; [done|apply Hours|]. clear Hd'. unfold create_dir_all in Hrun.
  assert (∀ error d1, disk_ready home d1 →
    (found ← is_dir path; if found : bool then mret () else st_err error) d1 = (Ok (), d') →
    node_at (dk_nodes d') (components path) = Some Dir) as Hfound.
  { intros error d1 Hd1 H1. ok_in H1 as found d2 H2. destruct found; [|done]. injection H1 as <-.
    apply is_dir_true in H2 as [Hn Hnode]; [by rewrite Hn|done..]. }
  pose proof (ready_create_dir home path d Hd) as Hk.
  destruct (length (components path)) as [|fuel]; cbn [create_dir_all_from] in Hrun;
    (case_bool_decide as Hnil; [injection Hrun as <-; by rewrite Hnil, components_nil|]);
    apply st_try_inv in Hrun as ([[]|e] & d1 & Hc & Hrun); rewrite Hc in Hk; cbn in Hk.
  1, 3: injection Hrun as <-; by apply (create_dir_Ok path d).
  1: by case_bool_decide; [|by eapply Hfound].
  case_bool_decide; [|by eapply Hfound]. destruct (parent path) as [above|]; [|done].
  ok_in Hrun as u d2 H2. assert (disk_ready home d2) as Hd2.
  { pose proof (ready_create_dir_all_from home fuel above d1 Hk) as Hk2. by rewrite H2 in Hk2. }
  apply st_try_inv in Hrun as ([[]|e2] & d3 & Hc3 & Hrun);
    (pose proof (ready_create_dir home path d2 Hd2) as Hk3; rewrite Hc3 in Hk3; cbn in Hk3).
  - injection Hrun as <-. by apply (create_dir_Ok path d2).
  - by eapply Hfound.
Qed.

(** The publication of the activation file. *)
Context `{!Chmod} (token : rstr) (Htoken : word token).
Context (Hname : valid_name (str ".activation-" ++ token ++ str ".tmp")).
Lemma ready_write_activation port d d' :
  disk_ready home d → solid (dk_nodes d) (components data_dir) →
  write_activation (join data_dir ACTIVATION_FILE) port token d = (Ok (), d') → disk_ready home d'.
Proof.
  intros [Htree Hlinks Hfiles] Hsolid Hrun.
  apply (write_activation_Ok data_dir token Htoken Hname _ _ _ Hsolid) in Hrun as (Hsame & Hnodir & Hdom & i & Hfile & Hline).
  set (act := components data_dir ++ [ACTIVATION_FILE]) in *.
  assert (∀ q, node_at (dk_nodes d) q = Some Dir → node_at (dk_nodes d') q = Some Dir) as Hdirs.
  { intros q Hq. destruct (decide (q = [])) as [->|Hne]; [done|]. rewrite node_at_ne in * by done.
    rewrite Hsame; [done|]. intros ->. congruence. }
  split; [split|..].
  - intros q n Hq. destruct (decide (q = act)) as [->|Hne].
    + split; [by destruct (components data_dir)|]. apply Forall_app. split; [done|].
      apply Forall_singleton. by apply (activation_name token).
    + rewrite Hsame in Hq by done. by eapply tk_names.
  - intros q name n Hq. apply Hdirs. destruct (decide (q ++ [name] = act)) as [Heq|Hne].
    + apply app_inj_tail in Heq as [-> _]. by apply (solid_self _ _ Hsolid).
    + rewrite Hsame in Hq by done. by eapply tk_closed.
  - intros q target Hq. destruct (decide (q = act)) as [->|Hne]; [congruence|].
    rewrite Hsame in Hq by done. by eapply Hlinks.
  - intros q j Hq. destruct (decide (q = act)) as [->|Hne].
    + rewrite Hfile in Hq. injection Hq as <-. apply elem_of_dom. by eexists.
    + rewrite Hsame in Hq by done. apply Hdom. by eapply Hfiles.
Qed.
Lemma ready_listen bound spawned d d' :
  disk_ready home d → listen_with_control data_dir bound token spawned d = (Ok (), d') →
  disk_ready home d' ∧ ∃ d1 port, solid (dk_nodes d1) (components data_dir) ∧ bound = Ok port ∧
    write_activation (join data_dir ACTIVATION_FILE) port token d1 = (Ok (), d').
Proof.
  intros Hd Hrun. unfold listen_with_control in Hrun. ok_in Hrun as u d1 H1. destruct u.
  pose proof (ready_create_dir_all home data_dir d Hd) as Hd1. rewrite H1 in Hd1. cbn in Hd1.
  apply create_dir_all_solid in H1; [|done|done].
  ok_in Hrun as port d2 H2. apply st_lift_Ok in H2 as [-> ->]. cbv zeta in Hrun.
  ok_in Hrun as u d2 H2. destruct u. destruct spawned as [u|e].
  - injection Hrun as <-. split; [by eapply ready_write_activation|]. by exists d1, port.
  - by ok_in Hrun as u d3 H3.
Qed.
End data_dir.

(** ** The stores at the start *)

Section stores.
Context {order : ReadDirOrder} {order_laws : ReadDirOrderLaws}.
Context {iter : RedbIter} {iter_laws : RedbIterLaws} {uuid : UuidText} {uuid_laws : UuidTextLaws}.
Context {source_json : Json OfferSourceRecord} {card_json : Json OfferCardRecord}.
Context {journal_json : Json ActivationJournalEntry} {cache_json : Json ClipboardCacheRecord}.
Context {source_laws : JsonLaws OfferSourceRecord} {card_laws : JsonLaws OfferCardRecord}.
Context {journal_laws : JsonLaws ActivationJournalEntry} {cache_laws : JsonLaws ClipboardCacheRecord}.
Context (home : place).

(** A good database beside a good disk. *)
Definition world_ready (w : World Disk) : Prop :=
  store_inv (w_db w) ∧ disk_ready home (w_fs w).
Notation disk_kept := (inv_kept (λ w, disk_ready home (w_fs w))).
Notation world_kept := (inv_kept world_ready).
Notation fs_same := (same_on (w_fs (FS := Disk))).

Lemma world_both {E T} (m : St (World Disk) E T) :
  keeps (inv_kept (λ w, store_inv (w_db w))) m → keeps disk_kept m → keeps world_kept m.
Proof. intros Hm Hd w [Hi Hr]. split; [by apply Hm|by apply Hd]. Qed.
Lemma disk_kept_same {E T} (m : St (World Disk) E T) : keeps fs_same m → keeps disk_kept m.
Proof. intros Hm w Hw. specialize (Hm w). unfold same_on in Hm. by rewrite Hm. Qed.
Lemma disk_kept_call {T} text (op : St Disk IoError T) :
  keeps (inv_kept (disk_ready home)) op → keeps disk_kept (fs_call text op).
Proof.
  intros Hop w Hd. specialize (Hop (w_fs w) Hd). unfold fs_call. by destruct (op (w_fs w)) as [[x|e] d].
Qed.
Lemma disk_kept_try {T} (op : St Disk IoError T) :
  keeps (inv_kept (disk_ready home)) op → keeps disk_kept (try_fs op).
Proof.
  intros Hop w Hd. specialize (Hop (w_fs w) Hd). unfold try_fs. by destruct (op (w_fs w)) as [r d].
Qed.
Lemma disk_kept_store_call {T} (op : St Disk StoreError T) :
  keeps (inv_kept (disk_ready home)) op → keeps disk_kept (fs_store_call op).
Proof.
  intros Hop w Hd. specialize (Hop (w_fs w) Hd). unfold fs_store_call. by destruct (op (w_fs w)) as [r d].
Qed.
Lemma disk_kept_on_fs {T} (op : St Disk IoError T) :
  keeps (inv_kept (disk_ready home)) op → keeps disk_kept (on_fs op).
Proof.
  intros Hop w Hd. specialize (Hop (w_fs w) Hd). unfold on_fs. by destruct (op (w_fs w)) as [r d].
Qed.
#[local] Hint Resolve fs_call_same fs_open fs_table_get fs_table_rows fs_table_remove fs_update_state
  fs_get_cache fs_has_uncertain fs_with_write : keeps.

Lemma fs_journal_entries : keeps fs_same (activation_journal_entries : St (World Disk) StoreError _).
Proof. unfold activation_journal_entries, with_read. keeps_tac. Qed.
Lemma disk_sweep entries sw : keeps disk_kept (sweep entries sw).
Proof.
  revert sw. induction entries as [|entry entries IH]; intros sw; cbn [sweep]; [keeps_tac|].
  apply keeps_bind; [apply _| |intros; apply IH]. unfold sweep_entry.
  apply keeps_bind; [apply _| |intros; keeps_tac]. apply disk_kept_try, ready_remove_tree.
Qed.
Lemma world_startup_cleanup : keeps world_kept (startup_cleanup : St (World Disk) StoreError _).
Proof.
  apply world_both; [apply startup_cleanup_keeps|]. unfold startup_cleanup.
  apply keeps_bind; [apply _|apply disk_kept_same, fs_journal_entries|intros entries].
  apply keeps_bind; [apply _|keeps_tac|intros n].
  apply keeps_bind; [apply _|apply disk_sweep|intros sw].
  apply keeps_bind; [apply _|apply disk_kept_same|intros _].
  - case_bool_decide; [keeps_tac|]. apply fs_with_write. keeps_tac.
  - apply keeps_bind; [apply _|apply disk_kept_same; keeps_tac|intros _]. keeps_tac.
Qed.
Lemma world_migrate dir : keeps world_kept (migrate_legacy_state dir : St (World Disk) StoreError _).
Proof.
  apply world_both; [apply migrate_legacy_state_keeps|]. unfold migrate_legacy_state.
  apply keeps_bind; [apply _|apply disk_kept_same, fs_with_write; keeps_tac|intros report].
  apply keeps_bind; [apply _|apply disk_kept_call, ready_partials|intros exists_].
  apply keeps_bind; [apply _|apply disk_kept_store_call, ready_markers|intros n]. keeps_tac.
Qed.
Lemma world_unindexed completed in_flight entries :
  keeps world_kept (remove_unindexed completed in_flight entries : St (World Disk) IoError _).
Proof.
  apply world_both.
  - induction entries as [|entry entries IH]; cbn [remove_unindexed]; keeps_tac.
    intros w Hw. unfold on_fs. by destruct (staging_remove_tree _ _).
  - induction entries as [|entry entries IH]; cbn [remove_unindexed]; keeps_tac.
    apply disk_kept_on_fs, ready_remove_tree.
Qed.
Lemma world_cache state : keeps world_kept (get_clipboard_cache state : St (World Disk) StoreError _).
Proof. apply world_both; [apply keeps_db_inv, keeps_get_clipboard_cache|apply disk_kept_same, fs_get_cache]. Qed.
Lemma world_unindexed_objects state_root :
  keeps world_kept (cleanup_unindexed_cache_objects state_root : St (World Disk) IoError _).
Proof.
  unfold cleanup_unindexed_cache_objects.
  apply keeps_bind; [apply _|apply keeps_map_err, world_cache|intros completed].
  apply keeps_bind; [apply _|apply keeps_map_err, world_cache|intros in_flight].
  apply keeps_bind; [apply _|apply keeps_try|intros []; [apply world_unindexed|keeps_tac]].
  apply world_both.
  - intros w Hw. unfold on_fs. by destruct (cache_read_dir _ _).
  - apply disk_kept_on_fs. cbn. apply keeps_bind; [apply _|apply ready_read_dir|intros; keeps_tac].
Qed.

(** Recovery. *)
Notation proc_kept := (inv_kept (λ p : Proc Disk, world_ready (pr_world p))).
Lemma proc_on_world {E T} (m : St (World Disk) E T) : keeps world_kept m → keeps proc_kept (Activation.on_world m).
Proof. intros Hm p Hp. specialize (Hm (pr_world p) Hp). unfold Activation.on_world. by destruct (m _). Qed.
Lemma proc_owner {E} f : keeps proc_kept (update_owner f : St (Proc Disk) E ()).
Proof. by intros p Hp. Qed.
Lemma proc_recover state_root : keeps proc_kept (recover state_root : St (Proc Disk) NetError ()).
Proof.
  unfold recover. apply keeps_bind; [apply _|keeps_tac|intros p].
  destruct (ow_recovery_poisoned _); [keeps_tac|]. destruct (ow_recovered _); [keeps_tac|].
  apply keeps_bind; [apply _| |intros; apply proc_owner]. unfold receiver_startup_cleanup.
  apply keeps_bind; [apply _|apply keeps_try, proc_on_world, world_startup_cleanup|intros outcome].
  destruct outcome; [|apply keeps_bind; [apply _|apply proc_owner|intros; keeps_tac]].
  apply keeps_bind; [apply _|apply keeps_map_err, proc_on_world|intros uncertain].
  { apply world_both; [apply keeps_db_inv, has_uncertain_same|apply disk_kept_same, fs_has_uncertain]. }
  apply keeps_bind; [apply _|destruct uncertain; [apply proc_owner|keeps_tac]|intros _].
  apply keeps_bind; [apply _|apply keeps_try, proc_on_world, world_unindexed_objects|intros outcome].
  destruct outcome; [keeps_tac|]. apply keeps_bind; [apply _|apply proc_owner|intros; keeps_tac].
Qed.
End stores.

(** ** The start *)

(** What a start works on: the owner of activations, the database and the disk; and the
    credential store beside the state file. *)
Record Boot := mkBoot { bo_proc : Proc Disk; bo_keys : Keyring * Host }.

(** What the outside decides of a start: the directories of the user; what locking and opening
    the database come to; the ids that are drawn; the bind of a listener and the start of its
    thread; the port and the token of the control channel and the start of its thread. *)
Record Outside (SigningKey L : Type) := mkOutside {
  os_config_dir : option PathBuf;
  os_download_dir : option PathBuf;
  os_device_name : rstr;
  os_locked : result IoError ();
  os_opened : result StoreError ();
  os_generated_identity : InstallationIdentity SigningKey;
  os_generated : DeviceId;
  os_bind : SocketAddr → result IoError L;
  os_listener_spawned : result IoError ();
  os_control_bound : result IoError Z;
  os_token : rstr;
  os_control_spawned : result IoError ();
}.
Arguments mkOutside {_ _} _ _ _ _ _ _ _ _ _ _ _ _.
Arguments os_config_dir {_ _} _.
Arguments os_download_dir {_ _} _.
Arguments os_device_name {_ _} _.
Arguments os_locked {_ _} _.
Arguments os_opened {_ _} _.
Arguments os_generated_identity {_ _} _.
Arguments os_generated {_ _} _.
Arguments os_bind {_ _} _ _.
Arguments os_listener_spawned {_ _} _.
Arguments os_control_bound {_ _} _.
Arguments os_token {_ _} _.
Arguments os_control_spawned {_ _} _.

(** [ServerHandle] and [HeadlessServerHandle], with what the thread was given: the identity it
    answers with and the device the fetch handler serves for. *)
Record ServerHandle (SigningKey L : Type) := mkServerHandle {
  sh_address : SocketAddr;
  sh_listener : L;
  sh_identity : ServerIdentity SigningKey;
  sh_device : DeviceId;
}.
Arguments mkServerHandle {_ _} _ _ _ _.
Arguments sh_address {_ _} _.
Arguments sh_listener {_ _} _.
Arguments sh_identity {_ _} _.
Arguments sh_device {_ _} _.

Section start.
Context {SigningKey : Type} {ed : Ed25519 SigningKey} {L : Type}.
Context {client_json : Json ClientHello} {server_json : Json ServerHello}.
Context {wire_json : Json WireMessage} {join_order : JoinOrder} {unstable : UnstableSort}.
Context {order : ReadDirOrder} {iter : RedbIter} {uuid : UuidText} {debug : DebugText}.
Context {source_json : Json OfferSourceRecord} {card_json : Json OfferCardRecord}.
Context {journal_json : Json ActivationJournalEntry} {cache_json : Json ClipboardCacheRecord}.
Context {state_json : Json InstallationState} {atomic : AtomicWriteFile}.
Context {identity_json : Json StoredIdentity} {chmod_text : Chmod}.
Context (outside : Outside SigningKey L).
Notation M := (St Boot (Stop Anyhow)).

Definition on_disk {T} (f : rstr → rstr) (m : FsM T) : M T := λ b,
  let p := bo_proc b in
  let '(r, fs) := m (w_fs (pr_world p)) in
  (map_err (λ e, Fails [f (io_message e)]) r,
   mkBoot (mkProc (pr_owner p) (mkWorld (w_db (pr_world p)) (w_faults (pr_world p)) fs)) (bo_keys b)).
Definition on_proc {E T} (f : E → rstr) (m : St (Proc Disk) E T) : M T := λ b,
  let '(r, p) := m (bo_proc b) in (map_err (λ e, Fails [f e]) r, mkBoot p (bo_keys b)).
Definition on_store {T} (text : rstr) (m : St (World Disk) StoreError T) : M T :=
  on_proc (λ e, text ++ store_error_to_string e) (Activation.on_world m).

Definition on_keys {T} (m : St (Keyring * Host) rstr T) : M T := λ b,
  let '(r, keys) := m (bo_keys b) in (map_err (λ e, Fails [e]) r, mkBoot (bo_proc b) keys).

(** [RedbV2Store::open]; the tables are made. *)
Definition open_store {FS} : St (World FS) StoreError () :=
  st_lift (os_opened outside);;
  with_write (open_table;; open_table;; open_table;; open_table).

(** The lock of the resident; [None]: another one has it. *)
Definition lock_resident (data_dir : PathBuf) : M (option ()) :=
  on_disk id (create_dir_all data_dir);;
  on_disk id (acquire_resident_lock data_dir (os_locked outside)).

(** What both starts open behind the lock, until the legacy state is migrated. *)
Definition open_resident (data_dir : PathBuf) : M (ControllerConfig SigningKey * Controller) :=
  loaded ← on_keys (controller_load (os_generated_identity outside) (os_generated outside)
             (join data_dir (str "state.json")) (os_device_name outside));
  on_store (str "could not open v2 offer store: ") open_store;;
  let incoming_directory := join (default data_dir (os_download_dir outside)) (str "Meshelf Incoming") in
  on_store (str "legacy startup migration failed: ") (migrate_legacy_state incoming_directory);;
  mret loaded.

(** The end of both starts.  The registry of owners is empty, so that the service gets a new
    one. *)
Definition serve_control (data_dir : PathBuf) (f : rstr → rstr) : M () :=
  st_modify (λ b, mkBoot (mkProc owner_new (pr_world (bo_proc b))) (bo_keys b));;
  on_proc (λ e, str "activation cleanup is unavailable: " ++ net_error_to_string e) (recover data_dir);;
  on_disk f (listen_with_control data_dir (os_control_bound outside) (os_token outside)
               (os_control_spawned outside)).

(** [start_v2_listener]; [thread] is what the program calls the listener in its last error. *)
Definition start_v2_listener (thread : rstr) (cfg : ControllerConfig SigningKey) (c : Controller)
    : result rstr (ServerHandle SigningKey L) :=
  status ← ok_or (ct_last_status c) (str "Tailscale status is unavailable");
  let addresses := tn_addresses (ts_self_node status) in
  ip ← ok_or (select_discovered_ip addresses) (str "Tailscale supplied no local address");
  let address := mkSocketAddr ip MESHELF_PORT in
  listener ← map_err (λ e, str "could not bind Tailscale listener: " ++ net_error_to_string e)
               (bind_discovered_tailscale_std_listener (os_bind outside) address addresses);
  map_err (λ e, str "could not start " ++ thread ++ str ": " ++ io_message e)
    (os_listener_spawned outside);;
  mret (mkServerHandle address listener (mkServerIdentity (cf_identity cfg) (ct_device_name c))
          (is_device_id (ct_installation c))).

(** A refresh of the controller, whose host is that of the start. *)
Definition refreshed (discovery : option (result DiscoveryError TailStatus)) (runtime : result rstr ())
    (network : IpAddr → Connect * DeviceId * Conn) (cfg : ControllerConfig SigningKey) (c : Controller)
    : M Controller := λ b,
  let '(r, c) := refresh cfg (os_generated outside) discovery runtime network c in
  (match r with
   | Ok _ => Ok c
   | Err (Control_Failed message) => Err (Fails [message])
   | Err Control_Panicked => Err Panics
   end, mkBoot (bo_proc b) ((bo_keys b).1, ct_host c)).

(** [meshelfctl serve], until it waits: the controller, its listener, and what runs besides. *)
Definition run_serve (discovery : option (result DiscoveryError TailStatus)) (runtime : result rstr ())
    (network : IpAddr → Connect * DeviceId * Conn) (args : list rstr)
    : M (ControllerConfig SigningKey * Controller * ServerHandle SigningKey L) :=
  lift_stop (refuse_if (negb (bool_decide (args = []))) [str "serve does not accept options"]);;
  data_dir ← lift_stop (configuration (os_config_dir outside));
  lock ← lock_resident data_dir;
  lift_stop (ok_or lock [str "another meshelf resident already owns the local control channel"]);;
  opened ← open_resident data_dir;
  let '(cfg, c) := opened in
  c ← refreshed discovery runtime network cfg c;
  handle ← lift_stop (map_err (λ e, [e]) (start_v2_listener (str "Tailscale listener") cfg c));
  serve_control data_dir id;;
  mret (cfg, c, handle).

(** [settings_for_surface]: the settings in the state file. *)
Definition settings_for_surface (cfg : ControllerConfig SigningKey) : M UserSettings :=
  on_keys (λ '(keyring, host),
    let '(r, host) := load_for_identity (cf_store cfg) (os_generated outside)
                        (ii_device_id (cf_identity cfg)) host in
    (state ← map_err (λ e, str "could not load meshelf settings: " ++ registry_error_to_string e) r;
     Ok (is_settings state), (keyring, host))).

(** The drop of an [ActivationCleanup], when a start that holds it fails. *)
Definition with_cleanup {T} (path : PathBuf) (m : M T) : M T := λ b,
  let '(r, b) := m b in
  match r with
  | Ok x => (Ok x, b)
  | Err e => (Err e, (on_disk id (remove_file path) b).2)
  end.

(** [main] of the desktop, until its window is set up: [None] if another resident runs, which
    is signalled.  Its listener is started by the first refresh. *)
Definition desktop_start : M (option (ControllerConfig SigningKey * Controller * UserSettings)) :=
  let data_dir := join (default (str ".") (os_config_dir outside)) (str "meshelf") in
  lock ← lock_resident data_dir;
  match lock with
  | None => mret None
  | Some _ =>
      with_cleanup (join data_dir (str "activation"))
        (opened ← open_resident data_dir;
         let '(cfg, c) := opened in
         serve_control data_dir (λ e, str "could not start activation listener: " ++ e);;
         settings ← settings_for_surface cfg;
         mret (Some (cfg, c, settings)))
  end.

(** The resident that the control channel of a start serves. *)
Definition resident {A} (probe : SpaceProbe) (clipboard : Clipboard) (app : A) (b : Boot)
    : Resident (Process A) :=
  mkResident (bo_keys b).2 (mkProcess (bo_proc b) ledger_default probe clipboard app) [] 0.
End start.

(** ** What a start leaves *)

Section started.
Context {SigningKey : Type} {ed : Ed25519 SigningKey} {L : Type}.
Context {client_json : Json ClientHello} {server_json : Json ServerHello}.
Context {wire_json : Json WireMessage} {join_order : JoinOrder} {unstable : UnstableSort}.
Context {order : ReadDirOrder} {order_laws : ReadDirOrderLaws}.
Context {iter : RedbIter} {iter_laws : RedbIterLaws} {uuid : UuidText} {uuid_laws : UuidTextLaws}.
Context {debug : DebugText}.
Context {source_json : Json OfferSourceRecord} {card_json : Json OfferCardRecord}.
Context {journal_json : Json ActivationJournalEntry} {cache_json : Json ClipboardCacheRecord}.
Context {source_laws : JsonLaws OfferSourceRecord} {card_laws : JsonLaws OfferCardRecord}.
Context {journal_laws : JsonLaws ActivationJournalEntry} {cache_laws : JsonLaws ClipboardCacheRecord}.
Context {state_json : Json InstallationState} {atomic : AtomicWriteFile}.
Context {identity_json : Json StoredIdentity} {chmod_text : Chmod}.
Context (outside : Outside SigningKey L).

Section data_dir.
Context (data_dir : PathBuf) (Hvalid : Forall valid_name (components data_dir)).
Notation home := (staging_home data_dir).
Notation token := (os_token outside).
Context (Htoken : word token) (Hname : valid_name (str ".activation-" ++ token ++ str ".tmp")).
Definition boot_ready (b : Boot) : Prop := world_ready home (pr_world (bo_proc b)).
Notation boot_kept := (inv_kept boot_ready).

Lemma boot_disk {T} f (m : FsM T) :
  keeps (inv_kept (disk_ready home)) m → keeps boot_kept (on_disk f m).
Proof.
  intros Hm b [Hinv Hd]. specialize (Hm _ Hd). unfold on_disk.
  by destruct (m (w_fs (pr_world (bo_proc b)))) as [r d].
Qed.
Lemma boot_store {T} text (m : St (World Disk) StoreError T) :
  keeps (inv_kept (world_ready home)) m → keeps boot_kept (on_store text m).
Proof.
  intros Hm b Hb. specialize (Hm _ Hb). unfold on_store, on_proc, Activation.on_world.
  by destruct (m (pr_world (bo_proc b))) as [r w].
Qed.
Lemma world_open_store : keeps (inv_kept (world_ready home)) (open_store outside).
Proof.
  apply world_both.
  - unfold open_store. apply keeps_bind; [apply _|keeps_tac|intros _]. apply keeps_write.
    intros w x w' Hrun Hinv. inv_db. done.
  - apply disk_kept_same. unfold open_store.
    apply keeps_bind; [apply _|keeps_tac|intros _]. apply fs_with_write.
    repeat (apply keeps_bind; [apply _|apply fs_open|intros _]). apply fs_open.
Qed.
Lemma boot_lock : keeps boot_kept (lock_resident outside data_dir).
Proof.
  unfold lock_resident. apply keeps_bind; [apply _|apply boot_disk, ready_create_dir_all|intros _].
  apply boot_disk, ready_lock.
Qed.
Lemma boot_open : keeps boot_kept (open_resident outside data_dir).
Proof.
  unfold open_resident. apply keeps_bind; [apply _| |intros loaded].
  { intros b Hb. unfold on_keys. by destruct (controller_load _ _ _ _ _). }
  apply keeps_bind; [apply _|apply boot_store, world_open_store|intros _].
  apply keeps_bind; [apply _|apply boot_store, world_migrate|intros _]. keeps_tac.
Qed.
(** Both together, when they succeed. *)
Lemma opened_ready b lock b1 loaded b2 :
  boot_ready b → lock_resident outside data_dir b = (Ok lock, b1) →
  open_resident outside data_dir b1 = (Ok loaded, b2) → boot_ready b2.
Proof.
  intros Hb H1 H2. pose proof (boot_lock b Hb) as Hb1. rewrite H1 in Hb1.
  pose proof (boot_open b1 Hb1) as Hb2. by rewrite H2 in Hb2.
Qed.

Lemma recover_poisoned p r p' :
  recover data_dir p = (r, p') → ow_recovery_poisoned (pr_owner p') = ow_recovery_poisoned (pr_owner p).
Proof.
  unfold recover. intros Hrun. unfold mbind at 1, st_bind at 1, st_get in Hrun.
  destruct (ow_recovery_poisoned (pr_owner p)) eqn:Hpoison; [by injection Hrun as _ <-|].
  destruct (ow_recovered (pr_owner p)); [by injection Hrun as _ <-|].
  pose proof (keeps_receiver_cleanup data_dir p) as Hk.
  step_in Hrun as u p1 H1; rewrite H1 in Hk; injection Hk as _ _ Hk _ _; cbn in Hk; [congruence|].
  injection Hrun as _ <-. cbn. congruence.
Qed.
(** What both starts end with: a process that has recovered. *)
Lemma serve_control_Ok f b b' :
  boot_ready b → serve_control outside data_dir f b = (Ok (), b') →
  bo_keys b' = bo_keys b ∧
  (∀ {A} probe clipboard (app : A), process_ready data_dir (re_store (resident probe clipboard app b'))) ∧
  ∃ d1 port, solid (dk_nodes d1) (components data_dir) ∧ os_control_bound outside = Ok port ∧
    write_activation (join data_dir ACTIVATION_FILE) port token d1
      = (Ok (), w_fs (pr_world (bo_proc b'))).
Proof.
  intros Hb Hrun. unfold serve_control in Hrun. ok_in Hrun as u b1 H1. injection H1 as _ <-.
  ok_in Hrun as u1 b2 H2. unfold on_proc in H2. cbn [bo_proc bo_keys] in H2.
  set (p := mkProc owner_new (pr_world (bo_proc b))) in *.
  pose proof (proc_recover home data_dir p Hb) as Hready.
  destruct (recover data_dir p) as [r p'] eqn:Hrec. cbn in Hready.
  injection H2 as Hr <-. apply map_err_Ok in Hr as ->.
  pose proof (recover_poisoned _ _ _ Hrec) as Hpoison.
  apply recover_admission in Hrec as (_ & Hlive & Hrecovered & _).
  unfold on_disk in Hrun. cbn [bo_proc bo_keys] in Hrun.
  destruct (listen_with_control _ _ _ _ _) as [r d'] eqn:Hlisten.
  injection Hrun as Hr <-. apply map_err_Ok in Hr as ->. destruct Hready as [Hinv Hd].
  apply ready_listen in Hlisten as (Hd' & d1 & port & Hsolid & Hbound & Hwrite); [|done..].
  split; [done|]. split; [|by exists d1, port].
  intros A probe clipboard app. destruct u1.
  split; cbn; [by apply Hrecovered|by rewrite Hpoison, Hlive|done|done].
Qed.
End data_dir.

Lemma with_cleanup_Ok {T} path (m : St Boot (Stop Anyhow) T) b x b' :
  with_cleanup path m b = (Ok x, b') → m b = (Ok x, b').
Proof. unfold with_cleanup. by destruct (m b) as [[] ?]; [intros [= -> ->]|]. Qed.

(** A refresh that succeeds has stored the status that was reported. *)
Lemma refresh_discovery_status (cfg : ControllerConfig SigningKey) generated discovery c c' :
  refresh_discovery cfg generated discovery c = (Ok (), c') →
  ∃ status, discovery = Some (Ok status) ∧ ct_last_status c' = Some status.
Proof.
  intros H1. unfold refresh_discovery in H1.
  ok_in H1 as reported c2 H2. apply st_lift_Ok in H2 as [H2 ->]. destruct discovery as [reported'|]; [|done].
  injection H2 as ->. ok_in H1 as status c2 H3. apply st_lift_Ok in H3 as [H3%map_err_Ok ->]. subst reported.
  ok_in H1 as u1 c2 H4. ok_in H1 as u2 c3 H5. injection H1 as <-. by exists status.
Qed.
Lemma refresh_status cfg generated discovery runtime network c view c' :
  refresh cfg generated discovery runtime network c = (Ok view, c') →
  ∃ status, discovery = Some (Ok status) ∧ ct_last_status c' = Some status.
Proof.
  unfold refresh. intros Hrun. ok_in Hrun as u c1 H1. destruct u.
  apply refresh_discovery_status in H1 as (status & -> & Hstatus). exists status. split; [done|].
  assert (∀ prefix change, keeps (same_on ct_last_status) (update_installation cfg generated prefix change))
    as Hupdate.
  { intros prefix change c0. unfold update_installation. by destruct (update _ _ _ _ _) as [[] ?]. }
  assert (keeps (same_on ct_last_status) (refresh_reachability cfg generated runtime network)) as Hk.
  { unfold refresh_reachability, accept_discovered. keeps_tac; try apply Hupdate; by intros c0. }
  specialize (Hk c1). rewrite Hrun in Hk. unfold same_on in Hk. cbn in Hk. congruence.
Qed.

(** A listener is bound to an address that the status has for this device. *)
Lemma start_v2_listener_Ok thread cfg c handle :
  start_v2_listener outside thread cfg c = Ok handle →
  ∃ status, ct_last_status c = Some status ∧
    (∃ ip, select_discovered_ip (tn_addresses (ts_self_node status)) = Some ip ∧
       sh_address handle = mkSocketAddr ip MESHELF_PORT) ∧
    sa_ip (sh_address handle) ∈ tn_addresses (ts_self_node status) ∧
    is_unspecified (sa_ip (sh_address handle)) = false ∧
    os_bind outside (sh_address handle) = Ok (sh_listener handle).
Proof.
  unfold start_v2_listener. intros Hrun. apply bind_Ok in Hrun as (status & Hstatus & Hrun).
  apply ok_or_Ok in Hstatus. exists status. split; [done|].
  apply bind_Ok in Hrun as (ip & Hip & Hrun). apply ok_or_Ok in Hip. cbv zeta in Hrun.
  apply bind_Ok in Hrun as (listener & Hbind%map_err_Ok & Hrun).
  apply bind_Ok in Hrun as (u & _ & [= <-]). cbn.
  apply (proj1 (bind_only_discovered _ _ _ MESHELF_PORT _)) in Hbind.
  split; [by exists ip|]. naive_solver.
Qed.


(** The desktop: its process is ready before the channel and the buttons can activate anything,
    and the settings it shows are those of the state file. *)
Theorem desktop_starts_ready b cfg c settings b' :
  let data_dir := join (default (str ".") (os_config_dir outside)) (str "meshelf") in
  Forall valid_name (components data_dir) → word (os_token outside) →
  valid_name (str ".activation-" ++ os_token outside ++ str ".tmp") →
  world_ready (staging_home data_dir) (pr_world (bo_proc b)) →
  desktop_start outside b = (Ok (Some (cfg, c, settings)), b') →
  (∀ {A} probe clipboard (app : A),
     process_ready data_dir (re_store (resident probe clipboard app b'))) ∧
  (∃ state, stored_state (os_generated outside) (ii_device_id (cf_identity cfg)) (ho_file (bo_keys b').2)
      = Some state ∧ settings = is_settings state) ∧
  (∃ port, os_control_bound outside = Ok port ∧
     (is_u16 port →
      (read_activation (join data_dir ACTIVATION_FILE)
         (set_faults [] (w_fs (pr_world (bo_proc b'))))).1 = Ok (port, os_token outside))).
Proof.
  intros data_dir Hvalid Htoken Hname Hb Hrun. unfold desktop_start in Hrun. cbv zeta in Hrun.
  fold data_dir in Hrun.
  ok_in Hrun as lock b0 H0. destruct lock as [[]|]; [|done].
  apply with_cleanup_Ok in Hrun as Hstart.
  ok_in Hstart as opened b1 H1. pose proof (opened_ready data_dir _ _ _ _ _ Hb H0 H1) as Hb1.
  destruct opened as [cfg' c'].
  ok_in Hstart as u b2 H2. destruct u.
  apply (serve_control_Ok data_dir Hvalid Htoken Hname) in H2 as (_ & Hready & d1 & port & Hsolid & Hbound & Hwrite);
    [|done].
  ok_in Hstart as settings' b3 H3. injection Hstart as <- <- <- <-.
  unfold settings_for_surface, on_keys in H3. destruct (bo_keys b2) as [keyring host] eqn:Hkeys.
  destruct (load_for_identity _ _ _ _) as [r h] eqn:Hload. injection H3 as Hr <-.
  apply map_err_Ok, bind_Ok in Hr as (state & ->%map_err_Ok & [= <-]).
  apply load_for_identity_spec in Hload as [Hfile Hstate].
  split; [done|]. split; [|by exists port; split; [done|]; intros Hport; eapply published_is_read].
  exists state. cbn. rewrite Hfile. split; [by apply Hstate|done].
Qed.
End started.
