(* ===== verification/Window.v ===== *)
(** * The window of the desktop program

    Models what the callbacks of [apps/desktop/src/main.rs] do besides activating: the
    refresh of the mesh with the listener it keeps running ([refresh_in_background]), adding
    the clipboard to the mesh ([on_paste_and_send]), the save destination
    ([on_choose_folder], [on_reset_destination]) and the clicks on the tray icon. *)

From S2P Require Import Prelude RustStr StdIo Offer Records Clipboard Identity Names Protocol OfferStore Ledger Activation Filesystem LocalChannel Announce Connection Manifest Transfer Receiver Source Sender Discovery Registry Transactions Coordinator Controller Serving Programs Desktop Board Shelf Terminal Startup ReceiverSamples ControlSamples.

(** ** The refresh *)

(** What the mutexes hold, [None] once they are poisoned: the controller, the names of the
    peers, and the slot of the listener. *)
Record Window (SigningKey L : Type) := mkWindow {
  wn_app : option Controller;
  wn_names : option (gmap DeviceId rstr);
  wn_server : option (option (ServerHandle SigningKey L));
}.
Arguments mkWindow {_ _} _ _ _.
Arguments wn_app {_ _} _.
Arguments wn_names {_ _} _.
Arguments wn_server {_ _} _.

Section refreshing.
Context {SigningKey : Type} {ed : Ed25519 SigningKey} {L : Type}.
Context {client_json : Json ClientHello} {server_json : Json ServerHello}.
Context {wire_json : Json WireMessage} {join_order : JoinOrder} {unstable : UnstableSort}.
Context {uuid : UuidText} {debug : DebugText}.
Context {state_json : Json InstallationState} {atomic : AtomicWriteFile}.
Context (cfg : ControllerConfig SigningKey) (outside : Outside SigningKey L).
Notation Handle := (ServerHandle SigningKey L).
Notation Window := (Window SigningKey L).
Notation M := (St Window (Stop rstr)).

(** [needs_restart]; [finished]: whether the thread of the listener has ended. *)
Definition needs_restart (finished : Handle → bool) (handle : Handle) (address : SocketAddr) : bool :=
  negb (bool_decide (sh_address handle = address)) || finished handle.

(** An operation of the controller under its lock, which a panic poisons. *)
Definition on_app {T} (m : St Controller ControlError T) : M T := λ w,
  match wn_app w with
  | None => (Err (Fails (str "app state is unavailable")), w)
  | Some c =>
      let '(r, c) := m c in
      match r with
      | Ok x => (Ok x, mkWindow (Some c) (wn_names w) (wn_server w))
      | Err (Control_Failed message) => (Err (Fails message), mkWindow (Some c) (wn_names w) (wn_server w))
      | Err Control_Panicked => (Err Panics, mkWindow None (wn_names w) (wn_server w))
      end
  end.

Definition discovered_address (c : Controller) : option SocketAddr :=
  status ← ct_last_status c;
  ip ← select_discovered_ip (tn_addresses (ts_self_node status));
  Some (mkSocketAddr ip MESHELF_PORT).

(** The look at the slot: a listener that is stale is stopped. *)
Definition take_stale (finished : Handle → bool) (address : option SocketAddr) : M bool := λ w,
  match wn_server w with
  | None => (Ok true, w)
  | Some slot =>
      let stale := match slot, address with
                   | Some handle, Some address => needs_restart finished handle address
                   | _, _ => false
                   end in
      let slot := if stale then None else slot in
      (Ok (bool_decide (slot = None)), mkWindow (wn_app w) (wn_names w) (Some slot))
  end.
(** A listener that was started goes into an empty slot, or is stopped again. *)
Definition keep_listener (handle : Handle) : M () :=
  st_modify (λ w, mkWindow (wn_app w) (wn_names w)
    ((λ slot, match slot with None => Some handle | _ => slot end) <$> wn_server w)).

(** The work of the thread, up to the end of the lock on the controller. *)
Definition refresh_work (finished : Handle → bool) (discovery : option (result DiscoveryError TailStatus))
    (runtime : result rstr ()) (network : IpAddr → Connect * DeviceId * Conn) : M PeerView :=
  on_app (refresh_discovery cfg (os_generated outside) discovery);;
  c ← on_app st_get;
  st_modify (λ w, mkWindow (wn_app w)
    ((λ _, capture_peer_names (is_peers (ct_installation c))) <$> wn_names w) (wn_server w));;
  needs_server ← take_stale finished (discovered_address c);
  (if needs_server : bool then
     handle ← lift_stop (start_v2_listener outside (str "Tailscale v2 listener") cfg c);
     keep_listener handle
   else mret ());;
  on_app (refresh_reachability cfg (os_generated outside) runtime network).

Lemma on_app_Ok {T} (m : St Controller ControlError T) w x w' :
  on_app m w = (Ok x, w') →
  ∃ c c', wn_app w = Some c ∧ m c = (Ok x, c') ∧ wn_app w' = Some c' ∧ wn_server w' = wn_server w.
Proof.
  unfold on_app. destruct (wn_app w) as [c|]; [|done]. destruct (m c) as [[y|[]] c'] eqn:Hm; [|done..].
  intros [= <- <-]. by exists c, c'.
Qed.

(** C40: After a refresh that succeeds, the desktop has exactly one listener, and it is bound
    where tailscale says that this device is now: either the one it had, which still runs
    there, or a new one, bound to a reported address; one that runs elsewhere or has ended was
    stopped before. *)
Theorem listener_follows_address finished discovery runtime network w slot view w' :
  wn_server w = Some slot → refresh_work finished discovery runtime network w = (Ok view, w') →
  ∃ status handle, discovery = Some (Ok status) ∧ wn_server w' = Some (Some handle) ∧
    (∀ ip, select_discovered_ip (tn_addresses (ts_self_node status)) = Some ip →
       sh_address handle = mkSocketAddr ip MESHELF_PORT) ∧
    ((slot = Some handle ∧ (tn_addresses (ts_self_node status) = [] ∨ finished handle = false)) ∨
     sa_ip (sh_address handle) ∈ tn_addresses (ts_self_node status) ∧
     os_bind outside (sh_address handle) = Ok (sh_listener handle)).
Proof.
  intros Hslot Hrun. unfold refresh_work in Hrun.
  ok_in Hrun as u w1 H1. apply on_app_Ok in H1 as (c0 & c1 & _ & Hdisc & Happ1 & Hserver1).
  ok_in Hrun as c w2 H2. apply on_app_Ok in H2 as (c1' & c2 & Happ & Hget & Happ2 & Hserver2).
  rewrite Happ1 in Happ. injection Happ as <-. injection Hget as <- <-.
  ok_in Hrun as u3 w3 H3. injection H3 as _ <-. cbn in Hrun.
  destruct u. apply refresh_discovery_status in Hdisc as (status & -> & Hstatus). exists status.
  set (address := discovered_address c1) in *.
  assert (∀ ip, select_discovered_ip (tn_addresses (ts_self_node status)) = Some ip →
    address = Some (mkSocketAddr ip MESHELF_PORT)) as Haddress.
  { intros ip Hip. unfold address, discovered_address. rewrite Hstatus. cbn. by rewrite Hip. }
  ok_in Hrun as needs w4 H4. unfold take_stale in H4. cbn [wn_server wn_app wn_names] in H4.
  rewrite Hserver2, Hserver1, Hslot in H4. injection H4 as Hneeds <-.
  ok_in Hrun as u5 w5 H5. apply on_app_Ok in Hrun as (c5 & c6 & _ & _ & _ & Hserver6).
  set (slot' := if match slot with Some _ => _ | None => false end then None else slot) in *.
  destruct needs.
  - apply bool_decide_eq_true in Hneeds.
    ok_in H5 as handle w6 H6. apply st_lift_Ok in H6 as [H6%map_err_Ok ->].
    apply start_v2_listener_Ok in H6 as (status' & Hs & (ip & Hip & Hat) & Hin & _ & Hbind).
    rewrite Hstatus in Hs. injection Hs as <-. injection H5 as _ <-. cbn in Hserver6.
    rewrite Hneeds in Hserver6. exists handle. split_and!; [done|done| |by right].
    intros ip' Hip'. congruence.
  - injection H5 as _ <-. cbn in Hserver6. apply bool_decide_eq_false in Hneeds.
    destruct slot as [handle|]; [|done]. subst slot'. exists handle. clearbody address.
    destruct address as [current|].
    + destruct (needs_restart finished handle current) eqn:Hstale; [done|].
      unfold needs_restart in Hstale. bool_facts.
      split_and!; [done|done| |by left; split; [|by right]].
      intros ip Hip. apply Haddress in Hip. congruence.
    + split_and!; [done|done| |left; split; [done|left]].
      * intros ip Hip. by apply Haddress in Hip.
      * destruct (tn_addresses _) as [|ip ips]; [done|]. unfold select_discovered_ip in Haddress.
        destruct (find is_ipv4 (ip :: ips)) as [v4|];
          [by specialize (Haddress v4 eq_refl)|by specialize (Haddress ip eq_refl)].
Qed.
End refreshing.

(** ** The save destination *)

(** [destination_label]; [display()] of a path is its text. *)
Definition destination_label (destination : SaveDestination) : rstr :=
  match destination with
  | Downloads => str "Downloads"
  | Custom path => path
  end.

Section destination.
Context {S : Type} {uuid : UuidText} {cards : OfferCardStore S}.
Context {state_json : Json InstallationState} {atomic : AtomicWriteFile}.
Context (c : Coordinator) (generated : DeviceId).
Notation M := (St (Resident S) rstr).

(** What both buttons do to the settings; [settings_for_surface] and
    [update_settings_from_surface] are the operations of the coordinator. *)
Definition set_destination (destination : SaveDestination) : M UserSettings :=
  current ← settings c generated;
  update_settings c generated
    (mkUserSettings (schema_version current) destination).
(** [on_choose_folder]: the text of the destination that is shown, if it changes; [chosen] is
    what the dialog of the platform came to. *)
Definition on_choose_folder (chosen : option PathBuf) : M (option rstr) :=
  match chosen with
  | None => mret None
  | Some path =>
      settings ← set_destination (Custom path);
      mret (Some (destination_label (Records.save_destination settings)))
  end.
Definition on_reset_destination : M rstr :=
  settings ← set_destination Downloads;
  mret (destination_label (Records.save_destination settings)).

(** The destination that was set is that of every save that is planned from then on, as long
    as the state file stays as it is; a plan that was made before keeps its own. *)
Theorem destination_of_later_saves {laws : JsonLaws InstallationState} {atomic_laws : AtomicWriteLaws} destination s shown s1
    activation g offer_id s2 plan s3 :
  set_destination destination s = (Ok shown, s1) →
  ho_file (re_host s2) = ho_file (re_host s1) →
  plan_activation c activation g offer_id Mode_Save s2 = (Ok plan, s3) →
  Records.save_destination shown = destination ∧ ap_destination plan = Some destination.
Proof.
  intros Hset Hsame Hplan. unfold set_destination in Hset.
  ok_in Hset as current s0 H0. unfold update_settings in Hset. ok_in Hset as state s4 H1.
  injection Hset as <- <-. unfold on_host in H1.
  destruct (update _ _ _ _ _) as [r h] eqn:Hupdate. injection H1 as Hr <-. apply map_err_Ok in Hr as ->.
  apply update_cases in Hupdate as [(state' & (latest & b & Hlatest & Hchange & Hb & Hfile) & Hstate)|[[e [=]] _]].
  specialize (Hstate _ eq_refl) as <-. injection Hchange as <-. cbn. split; [done|].
  apply plan_activation_spec in Hplan as (_ & _ & _ & _ & _ & _ & _ & (_ & state & Hstored & ->) & _).
  cbn in Hsame. rewrite Hsame, Hfile in Hstored.
  rewrite (stored_state_after (co_identity c) _ _ _ _ Hb (stored_state_identity _ _ _ _ Hlatest) Hstored). done.
Qed.
End destination.

(** ** The clipboard to the mesh *)

Section pasting.
Context {SigningKey : Type} {ed : Ed25519 SigningKey}.
Context {client_json : Json ClientHello} {server_json : Json ServerHello}.
Context {wire_json : Json WireMessage} {message_json : Json V2Message}.
Context {uuid : UuidText} {debug : DebugText} {sha : Sha256} {join_order : JoinOrder}.
Context {state_json : Json InstallationState} {atomic : AtomicWriteFile}.
Context {S : Type} {views : Views} {offers : OfferSourceStore S}.
Context (cfg : ControllerConfig SigningKey) (fanouts : OfferId → Fanout) (device_name : rstr).
Context (coordinator : Coordinator) (draws : nat → Draws).
Notation M := (St (Resident S) rstr).

(** One offer, and the warning of its report; [i] counts the offers of a click. *)
Definition add_offer (i : nat) (input : OfferInput) : M (option rstr) :=
  sent ← create_and_announce_with_progress cfg fanouts device_name coordinator (draws i) input;
  st_lift (announce_succeeded sent.1).
Fixpoint add_files (i : nat) (warning : option rstr) (paths : list PathBuf) : M (option rstr) :=
  match paths with
  | [] => mret warning
  | path :: paths =>
      message ← add_offer i (Input_Path path);
      add_files (i + 1) (match message with Some _ => message | None => warning end) paths
  end.

(** The work of the thread; [item] is what reading the clipboard came to. *)
Definition paste_work (item : result rstr ClipboardItem) : M (option rstr) :=
  item ← st_lift (map_err (λ e, str "Could not read clipboard: " ++ e) item);
  match item with
  | Item_Text text =>
      st_lift (refuse_if (bool_decide (trim text = [])) (str "Clipboard contains no text to send"));;
      add_offer 0 (Input_Text text)
  | Item_Files paths =>
      st_lift (refuse_if (bool_decide (paths = [])) (str "Clipboard contains no files or folders"));;
      add_files 0 None paths
  end.
(** [on_paste_and_send], with the bit of its gate: the status that is shown at once, or the
    thread. *)
Definition on_paste_and_send {W} (clipboard : option W) (busy : bool) : result rstr bool :=
  ok_or clipboard (str "Clipboard adapter is unavailable");;
  ok_or (operation_try_enter busy) (str "A mesh send is already in progress").
Definition paste_status (r : result rstr (option rstr)) : rstr :=
  match r with Ok (Some message) | Err message => message | Ok None => [] end.

(** An offer of the input was created and announced, and somebody stored it. *)
Definition added (input : OfferInput) : Prop :=
  ∃ i s report updates s',
    create_and_announce_with_progress cfg fanouts device_name coordinator (draws i) input s
      = (Ok (report, updates), s') ∧ stored_on report ≠ [].

Lemma add_offer_Ok i input s message s' : add_offer i input s = (Ok message, s') → added input.
Proof.
  unfold add_offer. intros Hrun. ok_in Hrun as sent s1 H1. apply st_lift_Ok in Hrun as [Hok ->].
  destruct sent as [report updates]. exists i, s, report, updates, s1. split; [done|].
  unfold announce_succeeded in Hok. by case_bool_decide.
Qed.
(** A click whose status reports no error has put everything on the mesh that the clipboard
    held: each file or folder, or the text, has an offer of its own that at least one peer
    stored; blank texts and empty lists are refused. *)
Theorem paste_adds_all item s warning s' :
  paste_work item s = (Ok warning, s') →
  match item with
  | Ok (Item_Text text) => trim text ≠ [] ∧ added (Input_Text text)
  | Ok (Item_Files paths) => paths ≠ [] ∧ Forall (λ path, added (Input_Path path)) paths
  | Err _ => False
  end.
Proof.
  unfold paste_work. intros Hrun. ok_in Hrun as found s0 H0. apply st_lift_Ok in H0 as [H0%map_err_Ok ->].
  subst item. destruct found as [text|paths].
  - ok_in Hrun as u s1 H1. apply st_lift_Ok in H1 as [H1%refuse_if_Ok ->].
    apply bool_decide_eq_false in H1. split; [done|]. by apply add_offer_Ok in Hrun.
  - ok_in Hrun as u s1 H1. apply st_lift_Ok in H1 as [H1%refuse_if_Ok ->].
    apply bool_decide_eq_false in H1. split; [done|]. clear H1.
    revert s Hrun. generalize 0%nat (@None rstr).
    induction paths as [|path paths IH]; intros i earlier s Hrun; [by constructor|].
    cbn [add_files] in Hrun. ok_in Hrun as message s1 H1. apply add_offer_Ok in H1.
    constructor; [done|]. by eapply IH.
Qed.
End pasting.

(** ** The tray icon *)

(** [DoubleClickDetector::register_click], on a monotonic clock. *)
Definition register_click (last_click : option Z) (now threshold : Z) : bool * option Z :=
  let is_double := match last_click with Some prev => now - prev <=? threshold | None => false end in
  if is_double then (true, None) else (false, Some now).
Fixpoint register_clicks (last_click : option Z) (threshold : Z) (clicks : list Z) : list bool :=
  match clicks with
  | [] => []
  | now :: clicks =>
      let '(double, last_click) := register_click last_click now threshold in
      double :: register_clicks last_click threshold clicks
  end.

(** A click opens the window exactly if the click before it came at most the threshold earlier
    and did not open it. *)
Definition follows (threshold : Z) (last_click : option Z) (clicks : list Z) (i : nat) (now : Z) : Prop :=
  match i with
  | O => ∃ prev, last_click = Some prev ∧ now - prev ≤ threshold
  | Datatypes.S j => ∃ prev, clicks !! j = Some prev ∧ now - prev ≤ threshold ∧
      register_clicks last_click threshold clicks !! j = Some false
  end.
Theorem clicks_spec threshold last_click clicks i now :
  clicks !! i = Some now →
  ∃ double, register_clicks last_click threshold clicks !! i = Some double ∧
    (double = true ↔ follows threshold last_click clicks i now).
Proof.
  revert last_click i. induction clicks as [|c clicks IH]; intros last i Hi; [done|].
  cbn [register_clicks]. destruct (register_click last c threshold) as [double last'] eqn:Hc.
  destruct i as [|i].
  - injection Hi as ->. exists double. split; [done|]. unfold register_click in Hc. cbn.
    destruct last as [prev|]; [|injection Hc as <- _; split; [done|naive_solver]].
    destruct (Z.leb_spec (now - prev) threshold); injection Hc as <- _; split; try done; [eauto|].
    intros (prev' & [= <-] & Hle). lia.
  - cbn [lookup list_lookup] in *. destruct (IH last' i Hi) as (b & Hb & Hiff). exists b. split; [done|].
    rewrite Hiff. destruct i as [|i]; cbn [follows register_clicks]; rewrite Hc.
    + cbn [lookup list_lookup]. unfold register_click in Hc.
      destruct (match last with Some prev => _ | None => false end); injection Hc as <- <-; split.
      * by intros (prev & [=] & _).
      * by intros (prev & _ & _ & [=]).
      * intros (prev & [= <-] & Hle). by exists c.
      * intros (prev & [= <-] & Hle & _). by exists c.
    + done.
Qed.

(** ** Sample *)

Module WindowSample.
#[local] Existing Instances StoreSample.sample_uuid ConnectionSample.sample_ed25519
  ConnectionSample.client_json ConnectionSample.server_json ConnectionSample.wire_json
  RegistrySample.sample_atomic RegistrySample.sample_json ControlSample.in_order ControlSample.stable
  ReceiverSample.quoted.

Definition lap : InstallationIdentity bool := mkInstallationIdentity RegistrySample.own false.
Definition config : ControllerConfig bool := mkControllerConfig RegistrySample.store lap.
Definition outside : Outside bool Z :=
  mkOutside None None (str "lap") (Ok ()) (Ok ()) lap RegistrySample.other
    (λ address, Ok (match sa_ip address with V4 bits | V6 bits => bits end))
    (Ok ()) (Ok 4100) (str "secret") (Ok ()).
(** The listener of an address that the device had before. *)
Definition moved : ServerHandle bool Z :=
  mkServerHandle (mkSocketAddr (V4 5) MESHELF_PORT) 5 (mkServerIdentity lap (str "lap")) RegistrySample.own.
Definition window : Window bool Z :=
  mkWindow (Some (mkController (mkHost None []) RegistrySample.empty_state (str "lap") None ∅ None))
    (Some ∅) (Some (Some moved)).
Definition no_network (_ : IpAddr) : Connect * DeviceId * Conn :=
  (ConnectTimedOut, mkDeviceId 3, mkConn [] [] []).
Definition refreshed : result (Stop rstr) PeerView * Window bool Z :=
  refresh_work config outside (λ _, false) (Some (Ok RegistrySample.status)) (Ok ()) no_network window.

(** It is replaced by one of the address that tailscale reports now. *)
Lemma listener_follows_address_witness :
  ∃ view handle, refreshed.1 = Ok view ∧ wn_server refreshed.2 = Some (Some handle) ∧
    sh_address handle = mkSocketAddr (V4 9) MESHELF_PORT ∧ sh_listener handle = 9.
Proof.
  destruct refreshed.1 as [view|e] eqn:Hok; [|exfalso; vm_compute in Hok; discriminate Hok].
  destruct (listener_follows_address config outside (λ _, false) (Some (Ok RegistrySample.status))
    (Ok ()) no_network window (Some moved) view refreshed.2)
    as (status & handle & Hstatus & Hserver & Haddress & _).
  - reflexivity.
  - rewrite <- Hok. apply surjective_pairing.
  - exists view, handle. split; [reflexivity|]. split; [exact Hserver|].
    injection Hstatus as <-. split; [apply Haddress; reflexivity|].
    vm_compute in Hserver. injection Hserver as <-. reflexivity.
Defined.
End WindowSample.
