(* ===== verification/Commands.v ===== *)
(** * The commands of the terminal program

    Models [main] of [apps/meshelfctl/src/main.rs] around the commands of [Terminal] and
    [Startup]: [status], reading the clipboard, and the choice of the command. *)

From S2P Require Import Prelude RustStr StdIo Offer Records Clipboard Identity Names Protocol OfferStore Filesystem LocalChannel Announce Connection Transfer Discovery Registry Coordinator Controller Programs Terminal.

Section commands.
Context {SigningKey : Type} {ed : Ed25519 SigningKey} {stored_json : Json StoredIdentity}.
Context {client_json : Json ClientHello} {server_json : Json ServerHello}.
Context {wire_json : Json WireMessage} {join_order : JoinOrder} {unstable : UnstableSort}.
Context {state_json : Json InstallationState} {atomic : AtomicWriteFile}.
Context {uuid : UuidText} {request_json : Json LocalRequest} {response_json : Json LocalResponse}.
Context (generated_identity : InstallationIdentity SigningKey) (generated : DeviceId).
Context (device_name : rstr).
Context (connect : nat → Z → result IoError Pipe) (config_dir : option PathBuf).
Context (stdin : Stdin) (utf8_error : bytes → rstr) (clipboard : result rstr ClipboardItem).
Context (parse_offer_id : rstr → result rstr OfferId) (response_debug : LocalResponse → rstr).
(** What tailscale reports, the runtime of the probes and what becomes of them; the parser of
    device ids, and the text of a view as JSON. *)
Context (discovery : option (result DiscoveryError TailStatus)) (runtime : result rstr ()).
Context (network : IpAddr → Connect * DeviceId * Conn).
Context (parse_device : rstr → option DeviceId) (view_json : PeerView → result rstr rstr).
(** [meshelfctl serve], which does not return once it serves ([run_serve] of [Startup]). *)
Context (serve : list rstr → St Terminal (Stop Anyhow) ()).
Notation M := (St Terminal (Stop Anyhow)).

(** A command that cannot panic. *)
Definition total {T} (m : St Terminal Anyhow T) : M T := st_map_err Fails m.
(** An operation of the controller, whose host is that of the process. *)
Definition on_controller {T} (m : St Controller ControlError T) (c : Controller) : M (T * Controller) :=
  λ t,
  let '(r, c) := m c in
  (match r with
   | Ok x => Ok (x, c)
   | Err (Control_Failed message) => Err (Fails [message])
   | Err Control_Panicked => Err Panics
   end, mkTerminal (tm_client t) ((tm_keys t).1, ct_host c) (tm_out t)).
Definition print (text : rstr) : M () :=
  st_modify (λ t, mkTerminal (tm_client t) (tm_keys t) (tm_out t ++ text)).
Definition show_bool (b : bool) : rstr := if b then str "true" else str "false".

Definition show_view (options : list rstr) (view : PeerView) : M () :=
  if has_flag options (str "--json") then
    text ← lift_stop (map_err (λ e, [e]) (view_json view));
    total (println text)
  else
    total (println (pv_status view));;
    total (println (str "peer: " ++ pv_name view));;
    total (println (str "online: " ++ show_bool (pv_online view))).
(** [status] and [refresh]: the view is taken before the peer is selected. *)
Definition run_status (selector : option rstr) (options : list rstr) (cfg : ControllerConfig SigningKey)
    (c : Controller) : M () :=
  refreshed ← on_controller (refresh cfg generated discovery runtime network) c;
  let '(view, c) := refreshed in
  (match selector with
   | Some _ => on_controller (select_peer parse_device selector) c;; mret ()
   | None => mret ()
   end);;
  show_view options view.
(** [clipboard-read] and [paste-clipboard] *)
Definition run_clipboard_read : M () :=
  item ← lift_stop (map_err (λ e, [e]) clipboard);
  match item with
  | Item_Text text => print text
  | Item_Files paths => st_for paths (λ path, total (println path))
  end.

Definition usage_text : rstr :=
  str "usage: meshelfctl [status|refresh|clipboard-read|send|serve|announce|shelf|activate] [--peer NAME_OR_ID]"
  ++ [10] ++ str "  send requires exactly one of --clipboard, --stdin, or --text TEXT"
  ++ [10] ++ str "  announce requires exactly one of --clipboard, --text TEXT, --stdin, or --path PATH"
  ++ [10] ++ str "  activate requires OFFER_ID and optionally --save".
Definition usage : M () := lift_stop (bail usage_text).

(** The commands that are not sent to a resident alone. *)
Definition run_local (command : rstr) (args : list rstr) : M () :=
  if bool_decide (command = str "send") then
    total (run_send generated_identity generated device_name connect config_dir stdin utf8_error
             clipboard response_debug args)
  else
    parsed ← lift_stop (take_peer_selector args);
    let '(selector, options) := parsed in
    config ← lift_stop (configuration config_dir);
    loaded ← total (load_controller generated_identity generated device_name config);
    let '(cfg, c) := loaded in
    if bool_decide (command = str "status") || bool_decide (command = str "refresh")
    then run_status selector options cfg c
    else if bool_decide (command = str "clipboard-read") || bool_decide (command = str "paste-clipboard")
    then run_clipboard_read
    else usage.
Definition main (args : list rstr) : M () :=
  match args with
  | [] => usage
  | command :: remaining =>
      if bool_decide (command = str "serve") then serve remaining
      else if bool_decide (command = str "announce") then
        total (run_announce connect config_dir stdin utf8_error clipboard remaining)
      else if bool_decide (command = str "shelf") then
        total (run_shelf connect config_dir response_debug remaining)
      else if bool_decide (command = str "activate") then
        total (run_activate connect config_dir parse_offer_id response_debug remaining)
      else run_local command remaining
  end.

Lemma show_view_out options view t t2 u t' :
  show_view options view t = (Ok u, t') → tm_out t2 = tm_out t →
  ∃ t2', show_view options view t2 = (Ok u, t2') ∧ tm_out t2' = tm_out t'.
Proof.
  unfold show_view. intros Hrun Hout. destruct (has_flag _ _).
  - ok_in Hrun as text t1 H1. apply st_lift_Ok in H1 as [H1 ->]. injection Hrun as <- <-.
    unfold lift_stop. rewrite (st_bind_run _ _ _ text t2) by (by rewrite H1).
    eexists. split; [done|]. cbn. by rewrite Hout.
  - injection Hrun as <- <-. eexists. split; [done|]. cbn. by rewrite Hout.
Qed.
(** [--peer] changes nothing of what [status] prints: a selector that names a paired device is
    accepted, and the view is the one without it. *)
Theorem status_ignores_selector selector options cfg c t t' :
  run_status (Some selector) options cfg c t = (Ok (), t') →
  ∃ t'', run_status None options cfg c t = (Ok (), t'') ∧ tm_out t'' = tm_out t'.
Proof.
  unfold run_status. intros Hrun. ok_in Hrun as refreshed t1 H1. destruct refreshed as [view c1].
  rewrite (st_bind_run _ _ _ _ _ H1). ok_in Hrun as u t2 H2.
  ok_in H2 as selected t3 H3. injection H2 as _ <-.
  assert (tm_out t3 = tm_out t1) as Hout.
  { unfold on_controller in H3. destruct (select_peer _ _ _) as [[] ?]; by injection H3 as _ <-. }
  eapply show_view_out in Hrun as (t2' & Hrun & Hsame); [|exact (eq_sym Hout)].
  exists t2'. split; [|done]. by rewrite (st_bind_run _ _ _ () t1).
Qed.
End commands.
