(* ===== verification/TerminalSamples.v ===== *)
(** * The terminal program on concrete inputs

    [meshelfctl activate] asks a [meshelfctl serve] for the file of a paired device; and a
    connection of that device to its listener. *)

From S2P Require Import Prelude RustStr StdIo Utf8 Offer Records Identity Names Protocol OfferStore Ledger Activation Filesystem LocalChannel Announce Connection Manifest Transfer Receiver ReceiverContent ReceiverSafety ReceiverTree ReceiverSave SavedTree Fetching Source Sender Discovery Registry Transactions Coordinator Controller Serving Programs Terminal Startup ReceiverSamples ControlSamples DesktopSamples.
From Stdlib Require Import Strings.Byte.

Module TerminalSample.
Import StoreSample ManifestSample ReceiverSample DesktopSample.
#[local] Existing Instances ConnectionSample.sample_ed25519 ConnectionSample.client_json
  ConnectionSample.server_json RegistrySample.sample_atomic plain_uuid_laws in_order_join unseen
  card_json cache_json source_json card_laws cache_laws' source_laws greetings fetch_messages
  fetch_typed installed_json.

Definition requests : Json LocalRequest := table_json [ActivateOffer offer Mode_Save].
Definition responses : Json LocalResponse :=
  table_json [Response_Error (str "no"); ActivationCompleted request offer Mode_Save 1 5].
#[local] Existing Instances requests responses.
#[local] Instance requests_laws : JsonLaws LocalRequest.
Proof. apply table_json_laws. Qed.
#[local] Instance responses_laws : JsonLaws LocalResponse.
Proof. apply table_json_laws. Qed.

(** ** The resident *)

Definition headless_process : Process () :=
  mkProcess (pc_proc lap_desk) (pc_ledger lap_desk) (pc_probe lap_desk) (pc_clipboard lap_desk) ().
Definition headless : Resident (Process ()) := mkResident lap_host headless_process [] 0.
Definition headless_runtime : LocalRuntime (Resident (Process ())) :=
  HeadlessRuntime state_root attempt None RegistrySample.store (λ _, mkDeviceId 9) lap (str "lap") no_fanout.
#[local] Instance headless_runtime_saves :
  SavingRuntime (SigningKey := bool) state_root attempt None headless_runtime
    (in_file lap).
Proof. apply (headless_saves state_root state_root_valid). Qed.
Definition token : rstr := str "secret".
Definition ignore : St (Resident (Process ())) (Stop Empty_set) () := mret ().
Definition answering (b : bytes) : St (Resident (Process ())) (Stop IoError) bytes :=
  dispatch_bytes_with_runtime lap_coordinator lap_draws b headless_runtime.

(** ** The client *)

Definition asked : bytes :=
  default [] (result_ok (encode_request (ActivateOffer offer Mode_Save))).
Definition answered : bytes :=
  default [] (result_ok (json_to_vec (ActivationCompleted request offer Mode_Save 1 5))).
Definition resident_end : Pipe := faultless (as_bytes token ++ LocalChannel.frame asked).
Definition client_end : Pipe := faultless (LocalChannel.frame answered).
Definition connecting (i : nat) (port : Z) : result IoError Pipe :=
  if bool_decide (i = 0%nat) && (port =? 4000) then Ok client_end else Err no_such_file.
Definition client_disk : Disk := mkDisk
  (list_to_map [([str "meshelf"], Dir); ([str "meshelf"; str "activation"], File 0)])
  {[ 0%nat := as_bytes (str "4000 secret" ++ [10]) ]} [].
Definition terminal : Terminal :=
  mkTerminal (mkClient client_disk None) (mkKeyring None None None, lap_host) [].
Definition parse (text : rstr) : result rstr OfferId :=
  if bool_decide (text = str "two") then Ok offer else Err (str "invalid").
Definition run : result (list rstr) () * Terminal :=
  run_activate connecting (Some (str "/")) parse (λ _, []) [str "two"; str "--save"] terminal.
Definition exchange : result (Stop IoError) () * Served (Resident (Process ())) :=
  handle_connection ignore answering token (mkServed headless resident_end).

Lemma ends_agree port pipe pipe' :
  connecting 0 port = Ok pipe → cl_pipe (tm_client run.2) = Some pipe' →
  conversed pipe pipe' resident_end (sv_pipe exchange.2).
Proof.
  unfold connecting. destruct (_ && _); [|done]. intros [= <-] Hpipe.
  assert (cl_pipe (tm_client run.2) = Some (mkPipe [] None (pp_in resident_end) None [])) as Hrun
    by (vm_compute; reflexivity).
  rewrite Hrun in Hpipe. injection Hpipe as <-.
  assert (pp_out (sv_pipe exchange.2) = pp_in client_end) as Hout by (vm_compute; reflexivity).
  split; [reflexivity|]. split; [reflexivity|]. rewrite Hout. split; reflexivity.
Qed.
Lemma headless_plain : settings_plain state_root None lap_coordinator lap_draws headless.
Proof. intros state path. apply lap_downloads. Qed.

(** The command prints its line, and the file is in the directory of the settings. *)
Lemma activate_save_succeeds_witness :
  run.1 = Ok () ∧
  (∃ activation files count,
    tm_out run.2 = completed_line activation offer Mode_Save files count ++ [10] ∧
    saved_as_reported (SigningKey := bool) state_root attempt None (in_file lap) lap_coordinator
      lap_draws headless activation offer files count (sv_state exchange.2)) ∧
  let d := w_fs (pc_world (re_store (sv_state exchange.2))) in
  dk_nodes d !! [str "home"; str "me"; str "in"; str "report.txt"] = Some (File 1) ∧
  dk_inodes d !! 1%nat = Some ReceiverSample.hello.
Proof.
  assert (run.1 = Ok ()) as Hok by (vm_compute; reflexivity).
  split; [exact Hok|]. split; [|cbv zeta; split; vm_compute; reflexivity].
  destruct (activate_save_succeeds (SigningKey := bool) state_root attempt None headless_runtime
    (in_file lap) connecting (Some (str "/")) parse (λ _, []) [str "two"; str "--save"] offer terminal
    run.2 ignore lap_coordinator lap_draws 4000 token headless resident_end exchange.1 exchange.2)
    as (activation & files & count & Hout & Hsaved).
  - rewrite <- Hok. apply surjective_pairing.
  - vm_compute. reflexivity.
  - intros path Hpath. vm_compute in Hpath. injection Hpath as <-. vm_compute. reflexivity.
  - apply surjective_pairing.
  - intros pipe pipe'. apply ends_agree.
  - destruct lap_ready as [H1 H2 H3 H4]. split; [exact H1|exact H2|exact H3|exact H4].
  - exact headless_plain.
  - exists activation, files, count. split; [exact Hout|exact Hsaved].
Defined.
End TerminalSample.

(** ** A connection to the listener *)

Module ServingSample.
Import StoreSample AnnounceSample ConnectionSample.
#[local] Existing Instances sample_ed25519 client_json server_json wire_json v2_json
  RegistrySample.sample_atomic ControlSample.no_views ControlSample.no_entries
  ManifestSample.sample_sha256.

(** The client of [ConnectionSample] is an accepted peer. *)
Definition accepted : InstallationState :=
  mkInstallationState own_device
    (mkPeerRegistry [mkTrustedPeer (str "node-lap") peer_device (str "lap") [V4 1] (public_key client)])
    settings_default.
Definition accepted_json : Json InstallationState := table_json [accepted].
#[local] Existing Instance accepted_json.
Definition file : Host := mkHost (Some (default [] (result_ok (json_to_vec accepted)))) [].
Definition listening : TrustGate :=
  HeadlessTrustGate (SigningKey := bool) RegistrySample.store (mkDeviceId 9) own_device file.
Definition arrives : Session (Origin (World ())) :=
  mkSession (mkConn client_writes [] []) (mkOrigin empty_world 4 false 0).
Definition served : result Failure () * Session (Origin (World ())) :=
  handle_v2_connection identity listening (v2_services false own_device) remote arrives.

(** Its announcement puts a card on the shelf. *)
Lemma only_accepted_peers_are_served_witness :
  is_Some (cards_in (ss_services served.2) !! card_key peer_device (mkOfferId 9)) ∧
  sources_in (ss_services served.2) = sources_in (ss_services arrives) ∧
  ∃ hello peer, accepted_peer (SigningKey := bool) (mkDeviceId 9) own_device file remote hello peer.
Proof.
  split; [vm_compute; eexists; reflexivity|].
  destruct (only_accepted_peers_are_served (SigningKey := bool) identity (mkDeviceId 9) own_device
    RegistrySample.store (HeadlessTrustGate RegistrySample.store (mkDeviceId 9) own_device) file false
    remote arrives served.1 served.2 store_inv_empty (surjective_pairing _))
    as (_ & Hsources & _ & Hcases).
  split; [exact Hsources|].
  destruct Hcases as [Hsame|(hello & peer & Hpeer & _)].
  - exfalso. assert (or_calls (ss_services served.2) = 0%nat) as Hno by (vm_compute; reflexivity).
    assert (cards_in (ss_services served.2) = ∅) as Hnone by (rewrite Hsame; vm_compute; reflexivity).
    vm_compute in Hnone. discriminate Hnone.
  - exists hello, peer. exact Hpeer.
Defined.
End ServingSample.

(** ** A start after a crash *)

Module StartupSample.
Import StoreSample ManifestSample.
#[local] Existing Instances sample_uuid sample_iter sample_iter_laws ConnectionSample.sample_ed25519
  ConnectionSample.client_json ConnectionSample.server_json ConnectionSample.wire_json
  RegistrySample.sample_atomic DesktopSample.in_order_join ControlSample.stable ReceiverSample.quoted ReceiverSample.listed ReceiverSample.listed_laws
  ReceiverSample.ready_check_dec
  source_json card_json journal_json cache_json
  source_laws card_laws journal_laws' cache_laws' ChannelSample.sample_chmod AnnounceSample.sample_uuid_laws.

(** No identity and no state file; the journal has the rows of two activations that a crash
    has cut short, and a clipboard payload that was being applied. *)
Definition lap : InstallationIdentity bool := mkInstallationIdentity (mkDeviceId 4) false.
Definition installed : InstallationState :=
  mkInstallationState (mkDeviceId 4) (mkPeerRegistry []) settings_default.
Definition states : Json InstallationState := table_json [installed].
#[local] Instance stored_eq_dec : EqDecision StoredIdentity.
Proof. solve_decision. Defined.
Definition identities : Json StoredIdentity :=
  table_json [mkStoredIdentity (mkDeviceId 4) (signing_key_to_bytes false)].
#[local] Existing Instances states identities.
Definition crashed : Boot :=
  mkBoot (mkProc owner_new (mkWorld (w_db journal_world) [] ChannelSample.home))
    (mkKeyring None None None, mkHost None []).
Definition outside : Outside bool () :=
  mkOutside (Some (str "/home")) None (str "lap") (Ok ()) (Ok ()) lap (mkDeviceId 4) (λ _, Ok ())
    (Ok ()) (Ok 4100) ChannelSample.token (Ok ()).
Definition alone : TailStatus :=
  mkTailStatus (str "Running") (RegistrySample.node (str "self") (str "lap") 9) [].
Definition no_network (_ : IpAddr) : Connect * DeviceId * Conn :=
  (ConnectTimedOut, mkDeviceId 3, mkConn [] [] []).
Definition started : result (Stop (list rstr)) (ControllerConfig bool * Controller * ServerHandle bool ()) * Boot :=
  run_serve outside (Some (Ok alone)) (Ok ()) no_network [] crashed.

Lemma crashed_ready : world_ready (staging_home (str "/home/meshelf")) (pr_world (bo_proc crashed)).
Proof.
  split; [exact journal_world_inv|]. apply ReceiverSample.ready_check_ready.
  apply (bool_decide_unpack _). vm_compute. exact I.
Qed.

End StartupSample.
